(* ===== verification/_CoqProject ===== *)
-Q . S2P
Prelude.v
JsString.v
JsNumber.v
JsRegExp.v
JsValue.v
JsJson.v
JsUri.v
WebApi.v
WorkspaceCore.v
PreferenceCore.v
SearchCore.v
HistoryCore.v
RunOutputModel.v
OutputCore.v
RunnerCore.v
AutocompleteCore.v
SessionCore.v
Utils.v
AppState.v
CommandLifecycle.v
HistoryRecall.v
ComposerEditing.v
RunnerPersistence.v
CompareCore.v
TargetValidation.v
WorkflowParams.v
TabSession.v
RunStream.v
StreamRegistry.v
RunTab.v
RunLifecycle.v
TabList.v
RunRecovery.v
RunRestore.v
WorkspaceCommands.v
WorkspaceFiles.v
WorkspaceHandlers.v
BrowserCommands.v
SubmitCommand.v
OutputBuffer.v
RuntimeContext.v
Suggestions.v
HistoryMutations.v
