(* ===== verification/Prelude.v ===== *)
(** * darklab_shell: a verification library for the browser-side core

    darklab_shell is a web terminal: a page (src/app/static/js) sends commands
    to a server, shows the lines that come back, keeps a history, completes
    what is typed and remembers its state in the browser's storage. This
    library models the logic of that page that does not draw: the functions
    that decide what is stored, sent, shown, completed, restored and hidden.
    Definitions carry the names of the source's functions and follow their
    branches; each file opens by naming the source file it models.

    ** The machine underneath

    - [Prelude]: the scope, tactics and hint database of the development and
      the list functions the components share ([filter], [find],
      de-duplication with a [Set], stable sorting).
    - [JsString]: strings are lists of UTF-16 units; trimming, splitting,
      joining, searching, case mapping of ASCII letters, decimal printing.
    - [JsNumber]: numbers are binary64 values (the Standard Library's
      [spec_float] at precision 53), with [Number()], [parseInt], [toFixed],
      [Math.min]/[max]/[floor]/[round] and the printing of integers.
    - [JsRegExp]: a parser of regular expressions, a backtracking matcher with
      captures, and a relational semantics the matcher is proved to implement
      ([run_iff], [test_iff]); patterns are the source's text, parsed once.
    - [JsValue]: the dynamic values ([undefined], [null], booleans, numbers,
      strings, arrays, objects as ordered properties) with truthiness,
      conversions, property access, spreading and the order of own keys.
    - [JsJson]: [JSON.stringify] and [JSON.parse], and their round trip.
    - [WebApi]: what the browser provides and the sources only call, as classes.

    ** The components

    - [WorkspaceCore] (core/workspace_core.js): paths inside the workspace.
    - [PreferenceCore] (core/app_preferences_core.js): preference values.
    - [SearchCore] (core/search_core.js): search labels and run summaries.
    - [HistoryCore] (core/history_core.js): filters, request addresses, times.
    - [RunOutputModel] (core/run_output_model.js): line events on the wire.
    - [OutputCore] (core/output_core.js): prefixes, signals, outcome parsers.
    - [RunnerCore] (core/runner_core.js): post-filter pipelines and selectors.
    - [AutocompleteCore] (core/autocomplete_core.js): tokens, value kinds,
      recent values, matching.
    - [SessionCore] (core/session_core.js): identity headers, ids, storage.
    - [Utils], [AppState] (core/utils.js, core/state.js, core/config.js).
    - [CommandLifecycle] (features/runner/command_lifecycle.js): results and
      the coordinator that completes each one once, as a step relation.
    - [HistoryRecall] (features/history/history_recall.js), [ComposerEditing]
      (features/terminal/composer_editing.js): the prompt.
    - [RunnerPersistence] (features/runner): what a run may leave behind.
    - [CompareCore] (features/run-comparison/history_compare_core.js).
    - [TargetValidation] (features/projects/project_target_validation.js).
    - [WorkflowParams] (features/workflows/workflow_parameters.js).
    - [TabSession] (features/tabs/tab_session_state.js).
    - [JsUri]: [encodeURIComponent] on text and its inverse.
    - [RunStream] (runner.js): server-sent events cut from chunks, the queue of
      messages and its drain, the address of a stream.
    - [StreamRegistry] (runner.js): the streams of the page's tabs as a step
      relation: subscribe, detach, pause, resume, answers, reads, failures.
    - [RunTab] (runner.js, tabs.js): the tab object a run writes to, and the
      effects on the page as values ([act]).
    - [RunLifecycle] (runner.js): every message of a stream, batches, stalls,
      kills, owners and exits, on the tab of [RunTab].
    - [TabList] (tabs.js, features/tabs/tab_close_lifecycle.js): opening,
      switching, ordering, detaching and closing tabs, and the dialogs.
    - [RunRecovery], [RunRestore] (runner.js): streams that ended early, runs
      that outlived the page.
    - [WorkspaceCommands] (features/runner/runner_workspace.js): words, options
      and patterns of the file commands. [WorkspaceFiles] (workspace.js,
      runner.js): entries of a folder, recursive listings, lines of a file.
      [WorkspaceHandlers] (runner.js): the handlers, as programs over the
      answers of the server.
    - [BrowserCommands] (runner.js): commands that run in the page, as threads
      that ask questions, print and wait, under any interleaving.
    - [SubmitCommand] (runner.js, pty.js): from a submitted line to the handler
      or the server, the tab it runs in, and the answers to its start.
    - [OutputBuffer] (output.js): stored and shown lines, batches, limits, line
      numbers, counts, and the high-volume mode; what a step reads of the page
      may differ from step to step, only the configuration is fixed.
    - [RuntimeContext] (features/autocomplete/runtime_context.js): the hints the
      page adds to the catalog of completions.
    - [Suggestions] (features/autocomplete/suggestions.js, autocomplete.js): the
      items offered at the cursor, what accepting one does, and recent values.
    - [HistoryMutations] (features/history/history_mutations.js,
      history_actions.js, ui/cleanup_reasons.js): the questions before a
      deletion, what is deleted and what the page then forgets.

    The components call each other as the sources do: [RunnerPersistence] and
    [OutputCore] on the regular expressions, [TabSession] on
    [normalizeCommandOutcomeSummary] of [OutputCore] and on [JsJson],
    [CompareCore] on [PreferenceCore], [HistoryRecall] on the recall lists of
    [HistoryCore] and the composer of [AppState], [WorkflowParams] on the
    storage and JSON models.
    A run crosses them in this order: [SubmitCommand] routes the line to
    [BrowserCommands], [WorkspaceHandlers] or a request; [StreamRegistry] opens
    the stream of the run, [RunStream] turns its bytes into messages, and
    [RunLifecycle] applies each to the tab of [RunTab], whose output goes
    through [OutputBuffer] with the payloads of [RunOutputModel] and the
    classes of [OutputCore]; [CommandLifecycle] completes it, and
    [RunnerPersistence] decides what is stored. [TabList] owns the tabs and
    applies their acts; [RunRecovery] and [RunRestore] attach a tab to a run
    again. [RuntimeContext] reads the workspace through [WorkspaceFiles] and
    feeds [Suggestions], which matches and ranks with [AutocompleteCore].
    The interfaces are the classes of [WebApi] and the acts, effects and
    programs above: a handler returns what it asks of the page or the server,
    and the theorems of its clients speak of those.

    ** What is shown

    - Safety: what is stored or sent holds no secret ([historySafeCommand_hides],
      [sensitive_values_not_stored], [displayed_steps_hide_sensitive]), paths
      stay in the workspace, an identity header of a caller never survives.
    - Invariants and refinement: completion happens at most once per key under
      every interleaving of calls and answers, the record of detached runs is
      a set, recall lists hold no command twice.
    - Round trips: line events, tab snapshots, recall navigation, JSON.
    - Equivalence: validators against the languages they mean to accept,
      run-length encoding for [uniq], the delete filters against the shown ones.
    - Normal forms, bounds and errors of the coercers and parsers.
    - Runs: the messages of a stream are delivered once and in order however
      the bytes are cut ([delivery_in_order]), the queue empties
      ([queue_empties]), batches and single lines leave the same tab and show
      the same lines, but for the marks a single message loses
      ([batches_are_transparent], [batches_refine_lines]), a stream that ended
      is resubscribed ([ended_stream_resubscribes]), the active runs of a
      reload are followed ([active_runs_followed]), closing never loses a
      running tab ([running_tab_never_lost]).
    - Commands: only checked commands reach the server ([only_checked_commands_run]:
      the permission to run is checked for all but those with an interactive
      view), and a running tab keeps its run; words of a command round-trip, patterns match what they mean,
      handlers stay in the workspace, delete what was confirmed and change
      nothing without the permission; questions are answered once and secret
      answers never shown.
    - Completion: accepting a suggestion edits one word
      ([accepting_edits_one_word]), completed paths name exactly the entries of
      the folder ([completed_paths_exact]), and only values a command asks for
      are remembered ([remembered_values_are_typed]).
    - Errors: some theorems state what the code does where it does not do what
      it means to; they are the findings of the manifest.

    ** Fuel and parameters

    Recursion that is not structural runs on fuel computed from the input and
    proved enough where a theorem needs it: JSON parsing ([2 * length + 2],
    each step consumes a unit or descends into a value), the repetition loop of
    the matcher ([run_iff] holds because an iteration that consumes nothing
    stops), decimal printing (logarithm of the number), the word loops of the
    composer (the length of the text). Two fuels have no adequacy theorem of
    their own and are bounded by the length of what they walk.
    The recursive listing runs on [walk_fuel] (the segments of all
    paths, more than there are folders: [listing_ends]), the flush of pending
    output on [flush_fuel] (the lines pending: [flush_all_empties]), the drain
    of a stream on the length of its queue. Positions and counters are exact
    below 2^53, and the theorems that need it say so.
    Parameters stand for what is not in src/: the URL parser, the regular
    expressions a user configures, the locale's collation and calendar,
    [Date.parse], random bytes, query-string encoding. Their laws are named
    hypotheses and every theorem that uses one is applied to an instance.
    The configuration of the page is loaded once, before anything runs, and is
    a parameter too. What changes while the page lives is an argument of each
    step ([page_env] of [OutputBuffer]).

    ** What is not modelled

    Page elements, events, timers and requests: the large interface files
    (shell_chrome.js, status_monitor.js, history.js, the atlas and project
    panels) are mostly construction of elements around server data.
    Of runner.js, tabs.js, output.js and workspace.js the logic is modelled and
    the drawing, scrolling, focus and announcing are not: they appear as acts
    or effects without a meaning of their own. The panels (atlas, history,
    projects, status, workflows, preferences) draw the answers of the server;
    of these the filters, parameters, validators and values listed above are
    modelled. A command with an interactive view is handed over as a call
    ([StartPty], [AttachPty]): the terminal of pty.js is not modelled, only
    which calls ask the server for a run. A call [OnTab id] names the tab that
    makes it; those that reach the controls of the whole page, whatever tab is
    in front, are [page_control]. Writes to the browser's storage succeed: the
    source swallows the failures. The dropdown of the suggestions, its keys and the requests that
    load its lists are not. Times are inputs; timers are events that may come
    in any order. Third-party scripts under vendor are left out.
    Case mapping and white space follow the
    standard for the units the code meets; case mapping outside ASCII is the
    identity. The server is in Python and is an input. *)

From stdpp Require Export base tactics numbers list list_numbers option strings sorting sets fin_sets.
From Stdlib Require Export ZArith.

#[global] Set Default Goal Selector "!".
Open Scope Z_scope.

(** ** Scope, hint database and tactics of the development *)

Declare Scope js_scope.
Delimit Scope js_scope with js.
Open Scope js_scope.

Create HintDb darklab discriminated.

(** Split every conjunction, [andb] and [orb] hypothesis. *)
Ltac split_bools :=
  repeat match goal with
  | H : _ ∧ _ |- _ => destruct H
  | H : (_ && _)%bool = true |- _ => apply andb_true_iff in H
  | H : (_ || _)%bool = false |- _ => apply orb_false_iff in H
  | H : negb _ = true |- _ => apply negb_true_iff in H
  | H : negb _ = false |- _ => apply negb_false_iff in H
  | H : bool_decide _ = true |- _ => apply bool_decide_eq_true in H
  | H : bool_decide _ = false |- _ => apply bool_decide_eq_false in H
  end.

(** Case on the scrutinee of a [match] or [if] of the goal or of a hypothesis. *)
Ltac case_goal :=
  match goal with
  | |- context [bool_decide ?P] => case_bool_decide
  | |- context [if ?b then _ else _] => destruct b eqn:?
  | |- context [match ?x with _ => _ end] => destruct x eqn:?
  end.

Ltac case_hyp H :=
  match type of H with
  | context [if ?b then _ else _] => destruct b eqn:?
  | context [match ?x with _ => _ end] => destruct x eqn:?
  end.

(** Run the code down every branch, closing the impossible ones. *)
Ltac branches := repeat (case_goal; simplify_eq/=; try done).
Ltac branches_in H := repeat (case_hyp H; simplify_eq/=; try done).

(** ** Lists *)

Section Lists.
Context {A : Type}.
Implicit Types (l : list A) (p : A → bool).

(** [Array.prototype.filter] with a boolean callback. *)
Fixpoint filterb p l : list A :=
  match l with
  | [] => []
  | x :: l => if p x then x :: filterb p l else filterb p l
  end.

(** [Array.prototype.findIndex], [None] for -1. *)
Fixpoint find_index p l : option nat :=
  match l with
  | [] => None
  | x :: l => if p x then Some 0%nat else S <$> find_index p l
  end.

(** [Array.prototype.find]. *)
Fixpoint findb p l : option A :=
  match l with
  | [] => None
  | x :: l => if p x then Some x else findb p l
  end.

(** [Array.prototype.some] and [every] are [existsb] and [forallb]. *)

(** The last element, and [l[l.length - 1]]. *)
Definition last_or (d : A) l : A := default d (last l).

(** Longest prefix satisfying [p], and the rest. *)
Fixpoint take_while p l : list A :=
  match l with
  | [] => []
  | x :: l => if p x then x :: take_while p l else []
  end.
Fixpoint drop_while p l : list A :=
  match l with
  | [] => []
  | x :: l' => if p x then drop_while p l' else l
  end.
Definition drop_while_end p l : list A := reverse (drop_while p (reverse l)).

Lemma elem_of_filterb p l x : x ∈ filterb p l ↔ p x = true ∧ x ∈ l.
Proof.
  induction l as [|y l IH]; simpl; [set_solver|].
  destruct (p y) eqn:Hy; rewrite ?elem_of_cons, IH; naive_solver congruence.
Qed.

Lemma filterb_sublist p l : filterb p l `sublist_of` l.
Proof. induction l as [|y l IH]; simpl; [done|]. destruct (p y); by constructor. Qed.

Lemma filterb_length p l : (length (filterb p l) ≤ length l)%nat.
Proof. apply sublist_length, filterb_sublist. Qed.

Lemma filterb_app p l k : filterb p (l ++ k) = filterb p l ++ filterb p k.
Proof. induction l as [|y l IH]; simpl; [done|]. destruct (p y); simpl; congruence. Qed.

Lemma filterb_all p l : (∀ x, x ∈ l → p x = true) → filterb p l = l.
Proof.
  induction l as [|y l IH]; intros H; simpl; [done|].
  rewrite (H y) by set_solver. f_equal. apply IH. intros. apply H. set_solver.
Qed.

Lemma filterb_none p l : (∀ x, x ∈ l → p x = false) → filterb p l = [].
Proof.
  induction l as [|y l IH]; intros H; simpl; [done|].
  rewrite (H y) by set_solver. apply IH. intros. apply H. set_solver.
Qed.

Lemma filterb_idemp p l : filterb p (filterb p l) = filterb p l.
Proof. apply filterb_all. intros x Hx. by apply elem_of_filterb in Hx as [? _]. Qed.

Lemma filterb_Forall p l : Forall (λ x, p x = true) (filterb p l).
Proof. apply Forall_forall. intros x Hx. by apply elem_of_filterb in Hx as [? _]. Qed.

Lemma filterb_ext p q l :
  (∀ x, x ∈ l → p x = q x) → filterb p l = filterb q l.
Proof.
  induction l as [|y l IH]; intros H; simpl; [done|].
  rewrite (H y) by set_solver. rewrite IH; [done|]. intros. apply H. set_solver.
Qed.

Lemma filterb_perm p l : l ≡ₚ filterb p l ++ filterb (λ x, negb (p x)) l.
Proof.
  induction l as [|y l IH]; simpl; [done|].
  destruct (p y); simpl; rewrite IH at 1; [done|]. by rewrite Permutation_middle.
Qed.

Lemma filterb_Permutation p l k : l ≡ₚ k → filterb p l ≡ₚ filterb p k.
Proof.
  induction 1 as [|x l k _ IH|x y l|l k m _ IH1 _ IH2]; simpl.
  - done.
  - destruct (p x); [by constructor|done].
  - destruct (p x), (p y); try done. apply Permutation_swap.
  - by etrans.
Qed.

Lemma NoDup_filterb p l : NoDup l → NoDup (filterb p l).
Proof. intros H. eapply sublist_NoDup; [exact H|apply filterb_sublist]. Qed.

Lemma findb_Some p l x : findb p l = Some x → x ∈ l ∧ p x = true.
Proof.
  induction l as [|y l IH]; simpl; [done|].
  destruct (p y) eqn:Hy; intros; simplify_eq; [set_solver|].
  destruct IH; [done|]. set_solver.
Qed.

Lemma findb_None p l : findb p l = None ↔ ∀ x, x ∈ l → p x = false.
Proof.
  induction l as [|y l IH]; simpl; [set_solver|].
  setoid_rewrite elem_of_cons. destruct (p y) eqn:Hy.
  - split; [done|]. intros H. rewrite H in Hy by auto. done.
  - rewrite IH. naive_solver.
Qed.

Lemma findb_app p l k : findb p (l ++ k) = match findb p l with Some x => Some x | None => findb p k end.
Proof. induction l as [|y l IH]; simpl; [done|]. by destruct (p y). Qed.

Lemma find_index_Some p l i :
  find_index p l = Some i → ∃ x, l !! i = Some x ∧ p x = true.
Proof.
  revert i. induction l as [|y l IH]; intros i; simpl; [done|].
  destruct (p y) eqn:Hy; intros H; simplify_eq/=; [by eexists|].
  apply fmap_Some in H as (j & Hj & ->). by apply IH.
Qed.

Lemma find_index_None p l : find_index p l = None ↔ ∀ x, x ∈ l → p x = false.
Proof.
  induction l as [|y l IH]; simpl; [set_solver|].
  setoid_rewrite elem_of_cons. destruct (p y) eqn:Hy.
  - split; [done|]. intros H. rewrite H in Hy by auto. done.
  - rewrite fmap_None, IH. naive_solver.
Qed.

Lemma take_drop_while p l : take_while p l ++ drop_while p l = l.
Proof. induction l as [|y l IH]; simpl; [done|]. destruct (p y); simpl; congruence. Qed.

Lemma take_while_Forall p l : Forall (λ x, p x = true) (take_while p l).
Proof. induction l as [|y l IH]; simpl; [done|]. destruct (p y) eqn:?; by constructor. Qed.

Lemma drop_while_head p l x : head (drop_while p l) = Some x → p x = false.
Proof.
  induction l as [|y l IH]; simpl; [done|]. destruct (p y) eqn:Hy; [done|].
  intros ?; by simplify_eq/=.
Qed.

Lemma drop_while_idemp p l : drop_while p (drop_while p l) = drop_while p l.
Proof.
  induction l as [|y l IH]; simpl; [done|]. destruct (p y) eqn:Hy; [done|].
  simpl. by rewrite Hy.
Qed.

Lemma drop_while_id p l : (∀ x, head l = Some x → p x = false) → drop_while p l = l.
Proof. destruct l as [|y l]; simpl; [done|]. intros H. by rewrite (H y). Qed.

Lemma drop_while_suffix p l : drop_while p l `suffix_of` l.
Proof. exists (take_while p l). by rewrite take_drop_while. Qed.

Lemma drop_while_end_prefix p l : drop_while_end p l `prefix_of` l.
Proof.
  destruct (drop_while_suffix p (reverse l)) as [k Hk].
  exists (reverse k). unfold drop_while_end.
  by rewrite <-reverse_app, <-Hk, reverse_involutive.
Qed.
End Lists.

Lemma drop_while_all_nil {A} (p : A → bool) l :
  drop_while p l = [] → Forall (λ x, p x = true) l.
Proof.
  intros H. pose proof (take_while_Forall p l) as Ht.
  pose proof (take_drop_while p l) as He. rewrite H, app_nil_r in He. by rewrite He in Ht.
Qed.

Lemma take_while_stop {A} (p : A → bool) l x r :
  Forall (λ y, p y = true) l → p x = false → take_while p (l ++ x :: r) = l.
Proof. intros Hl Hx. induction Hl as [|y l Hy _ IH]; cbn; [by rewrite Hx|]. by rewrite Hy, IH. Qed.

Lemma drop_while_stop {A} (p : A → bool) l x r :
  Forall (λ y, p y = true) l → p x = false → drop_while p (l ++ x :: r) = x :: r.
Proof. intros Hl Hx. induction Hl as [|y l Hy _ IH]; cbn; [by rewrite Hx|]. by rewrite Hy, IH. Qed.

Lemma Forall_weaken {A} (P Q : A → Prop) l : (∀ x, P x → Q x) → Forall P l → Forall Q l.
Proof. intros HPQ H. eapply Forall_impl; [exact H|exact HPQ]. Qed.

(** ** Removing repetitions, keeping first occurrences *)

Section Dedup.
Context {A K : Type} `{EqDecision K} (key : A → K).

(** The [seen.has(key)] / [seen.add(key)] filter. *)
Fixpoint dedup_seen (seen : list K) (l : list A) : list A :=
  match l with
  | [] => []
  | x :: l =>
      if bool_decide (key x ∈ seen) then dedup_seen seen l
      else x :: dedup_seen (key x :: seen) l
  end.

Lemma dedup_seen_sublist seen l : dedup_seen seen l `sublist_of` l.
Proof. revert seen. induction l; intros; simpl; [done|]. case_bool_decide; by constructor. Qed.

Lemma elem_of_dedup_seen_key seen l k :
  k ∈ key <$> dedup_seen seen l ↔ k ∈ key <$> l ∧ k ∉ seen.
Proof.
  revert seen. induction l as [|x l IH]; intros seen; simpl; [set_solver|].
  case_bool_decide as Hx; simpl; rewrite ?elem_of_cons, IH, ?not_elem_of_cons.
  - destruct (decide (k = key x)); naive_solver.
  - destruct (decide (k = key x)); naive_solver.
Qed.

Lemma NoDup_dedup_seen seen l : NoDup (key <$> dedup_seen seen l).
Proof.
  revert seen. induction l as [|x l IH]; intros seen; simpl; [constructor|].
  case_bool_decide; simpl; [done|]. constructor; [|done].
  rewrite elem_of_dedup_seen_key. set_solver.
Qed.

Lemma dedup_seen_id seen l :
  NoDup (key <$> l) → (∀ x, x ∈ l → key x ∉ seen) → dedup_seen seen l = l.
Proof.
  revert seen. induction l as [|x l IH]; intros seen Hnd Hs; simpl; [done|].
  apply NoDup_cons in Hnd as [Hx Hnd].
  rewrite bool_decide_false by set_solver. f_equal. apply IH; [done|].
  intros y Hy. apply not_elem_of_cons. split; [|set_solver].
  intros Heq. apply Hx. rewrite <-Heq. by apply list_elem_of_fmap_2.
Qed.
End Dedup.

Definition dedup {A} `{EqDecision A} (l : list A) : list A := dedup_seen id [] l.

Section DedupId.
Context {A : Type} `{EqDecision A}.
Implicit Types l : list A.

Lemma elem_of_dedup l x : x ∈ dedup l ↔ x ∈ l.
Proof.
  unfold dedup. rewrite <-(list_fmap_id (dedup_seen _ _ _)).
  rewrite (elem_of_dedup_seen_key id), list_fmap_id. set_solver.
Qed.
Lemma NoDup_dedup l : NoDup (dedup l).
Proof. unfold dedup. rewrite <-(list_fmap_id (dedup_seen _ _ _)). apply NoDup_dedup_seen. Qed.
Lemma dedup_sublist l : dedup l `sublist_of` l.
Proof. apply dedup_seen_sublist. Qed.
Lemma dedup_NoDup_id l : NoDup l → dedup l = l.
Proof. intros. apply dedup_seen_id; [by rewrite list_fmap_id|set_solver]. Qed.
Lemma dedup_idemp l : dedup (dedup l) = dedup l.
Proof. apply dedup_NoDup_id, NoDup_dedup. Qed.
End DedupId.

(** ** Stable sorting, as [Array.prototype.sort] with a comparator *)

Section Sort.
Context {A : Type} (leb : A → A → bool).

Fixpoint insert_sorted (x : A) (l : list A) : list A :=
  match l with
  | [] => [x]
  | y :: l' => if leb x y then x :: l else y :: insert_sorted x l'
  end.
Fixpoint isort (l : list A) : list A :=
  match l with
  | [] => []
  | x :: l => insert_sorted x (isort l)
  end.

Lemma insert_sorted_perm x l : insert_sorted x l ≡ₚ x :: l.
Proof.
  induction l as [|y l IH]; simpl; [done|]. destruct (leb x y); [done|].
  rewrite IH. apply Permutation_swap.
Qed.
Lemma isort_perm l : isort l ≡ₚ l.
Proof. induction l as [|x l IH]; simpl; [done|]. by rewrite insert_sorted_perm, IH. Qed.

Section Total.
Hypothesis leb_total : ∀ x y, leb x y = false → leb y x = true.
Hypothesis leb_trans : ∀ x y z, leb x y = true → leb y z = true → leb x z = true.

Lemma insert_sorted_Sorted x l :
  StronglySorted (λ a b, leb a b = true) l →
  StronglySorted (λ a b, leb a b = true) (insert_sorted x l).
Proof using leb_total leb_trans.
  induction 1 as [|y l Hs IH Hy]; simpl; [by repeat constructor|].
  destruct (leb x y) eqn:Hxy.
  - constructor; [by constructor|]. constructor; [done|].
    eapply Forall_impl; [exact Hy|]. simpl. eauto.
  - constructor; [done|]. apply Forall_forall. intros z.
    rewrite insert_sorted_perm. rewrite elem_of_cons. intros [->|Hz]; [auto|].
    by eapply Forall_forall in Hy.
Qed.
Lemma isort_Sorted l : StronglySorted (λ a b, leb a b = true) (isort l).
Proof using leb_total leb_trans.
  induction l; simpl; [constructor|]. by apply insert_sorted_Sorted.
Qed.
End Total.

(** A list that is already sorted is left alone: the sort is stable on it. *)
Lemma isort_sorted_id l : StronglySorted (λ a b, leb a b = true) l → isort l = l.
Proof.
  induction 1 as [|x l Hs IH Hx]; simpl; [done|]. rewrite IH.
  destruct l as [|y l]; simpl; [done|]. apply Forall_cons in Hx as [-> _]. done.
Qed.
End Sort.

#[export] Hint Resolve filterb_sublist dedup_sublist NoDup_dedup isort_perm : darklab.
#[export] Hint Rewrite @elem_of_filterb @elem_of_dedup : darklab.
