(* ===== verification/JsString.v ===== *)
(** JavaScript strings: lists of UTF-16 code units, with the methods of
    [String.prototype] the sources call and the lemmas the components share.

    A code unit is a [Z]. [toLowerCase] is exact on code units up to U+00FF
    and leaves the others alone; everything else is exact on all strings. *)

From S2P Require Import Prelude.
From Stdlib Require Ascii String.

Notation jsstr := (list Z).

(** ** Literals: a Rocq literal is UTF-8, decoded to UTF-16 *)

Fixpoint utf16_of_utf8 (l : list Z) : jsstr :=
  match l with
  | b0 :: l1 =>
      if b0 <? 128 then b0 :: utf16_of_utf8 l1 else
      match l1 with
      | b1 :: l2 =>
          if b0 <? 224 then ((b0 - 192) * 64 + (b1 - 128)) :: utf16_of_utf8 l2 else
          match l2 with
          | b2 :: l3 =>
              if b0 <? 240
              then ((b0 - 224) * 4096 + (b1 - 128) * 64 + (b2 - 128)) :: utf16_of_utf8 l3
              else match l3 with
              | b3 :: l4 =>
                  let c := (b0 - 240) * 262144 + (b1 - 128) * 4096
                           + (b2 - 128) * 64 + (b3 - 128) - 65536 in
                  (55296 + c / 1024) :: (56320 + c mod 1024) :: utf16_of_utf8 l4
              | [] => []
              end
          | [] => []
          end
      | [] => []
      end
  | [] => []
  end.

Definition js (s : string) : jsstr :=
  utf16_of_utf8 (map (λ a, Z.of_N (Ascii.N_of_ascii a)) (String.list_ascii_of_string s)).
Arguments js s%_string : simpl never.

(** A single code unit, written as a one-character literal. *)
Definition cu (s : string) : Z := hd 0 (js s).
Arguments cu s%_string : simpl never.

(** [a === b] on strings. *)
Notation "a ==s b" := (bool_decide (a = b)) (at level 70, no associativity) : js_scope.

(** ** Character classes *)

(** [\s], [trim]: WhiteSpace and LineTerminator of the language. *)
Definition is_ws (c : Z) : bool :=
  ((9 <=? c) && (c <=? 13)) || (c =? 32) || (c =? 160) || (c =? 5760)
  || ((8192 <=? c) && (c <=? 8202)) || (c =? 8232) || (c =? 8233)
  || (c =? 8239) || (c =? 8287) || (c =? 12288) || (c =? 65279).
Definition is_digit (c : Z) : bool := (48 <=? c) && (c <=? 57).
Definition is_lower (c : Z) : bool := (97 <=? c) && (c <=? 122).
Definition is_upper (c : Z) : bool := (65 <=? c) && (c <=? 90).
Definition is_alnum (c : Z) : bool := is_digit c || is_lower c || is_upper c.

(** ** Case *)

Definition lower_unit (c : Z) : Z :=
  if is_upper c || ((192 <=? c) && (c <=? 222) && negb (c =? 215)) then c + 32 else c.
Definition lower (s : jsstr) : jsstr := map lower_unit s.

(** ** Trimming *)

Definition trim_start (s : jsstr) : jsstr := drop_while is_ws s.
Definition trim_end (s : jsstr) : jsstr := drop_while_end is_ws s.
Definition trim (s : jsstr) : jsstr := trim_end (trim_start s).

(** ** Searching *)

Fixpoint starts_with (p s : jsstr) : bool :=
  match p, s with
  | [], _ => true
  | c :: p, d :: s => (c =? d) && starts_with p s
  | _ :: _, [] => false
  end.
Definition ends_with (p s : jsstr) : bool := starts_with (reverse p) (reverse s).

(** [s.indexOf(p)], [None] for -1. *)
Fixpoint index_of (p s : jsstr) : option nat :=
  if starts_with p s then Some 0%nat else
  match s with
  | [] => None
  | _ :: s => S <$> index_of p s
  end.
(** [s.indexOf(p, from)]. *)
Definition index_of_from (p s : jsstr) (from : nat) : option nat :=
  (λ i, (from + i)%nat) <$> index_of p (drop (from `min` length s) s).
Definition includes (p s : jsstr) : bool := bool_decide (is_Some (index_of p s)).
Definition has_unit (c : Z) (s : jsstr) : bool := existsb (Z.eqb c) s.

(** ** Slicing: [s.slice(i, j)] with [0 <= i], [0 <= j] *)

Definition slice (i j : nat) (s : jsstr) : jsstr := take (j - i) (drop i s).
Definition slice_from (i : nat) (s : jsstr) : jsstr := drop i s.
(** [s.slice(0, -1)]. *)
Definition drop_last (s : jsstr) : jsstr := take (length s - 1) s.

(** ** Splitting and joining *)

Fixpoint split_on (c : Z) (s : jsstr) : list jsstr :=
  match s with
  | [] => [[]]
  | d :: s' =>
      if c =? d then [] :: split_on c s'
      else match split_on c s' with
           | w :: ws => (d :: w) :: ws
           | [] => [[d]]
           end
  end.
Fixpoint join (sep : jsstr) (l : list jsstr) : jsstr :=
  match l with
  | [] => []
  | [w] => w
  | w :: l' => w ++ sep ++ join sep l'
  end.

Definition nonempty (s : jsstr) : bool := match s with [] => false | _ => true end.

(** [s.split(/\s+/).filter(Boolean)]: the maximal runs of non-space units. *)
Fixpoint words_acc (cur : jsstr) (s : jsstr) : list jsstr :=
  match s with
  | [] => if nonempty cur then [reverse cur] else []
  | c :: s =>
      if is_ws c then (if nonempty cur then reverse cur :: words_acc [] s else words_acc [] s)
      else words_acc (c :: cur) s
  end.
Definition words (s : jsstr) : list jsstr := words_acc [] s.

(** [s.trim().split(/\s+/, 1)[0]]: the first word, empty if there is none. *)
Definition first_word (s : jsstr) : jsstr := take_while (λ c, negb (is_ws c)) (trim s).

(** [s.replace(/\s+/g, ' ')]. *)
Fixpoint collapse_ws (in_ws : bool) (s : jsstr) : jsstr :=
  match s with
  | [] => []
  | c :: s =>
      if is_ws c then (if in_ws then collapse_ws true s else 32 :: collapse_ws true s)
      else c :: collapse_ws false s
  end.

(** [s.replace(/\.$/, '')]. *)
Definition strip_dot (s : jsstr) : jsstr := if ends_with (js ".") s then drop_last s else s.

(** [s.padStart(n, c)]. *)
Definition pad_start (n : nat) (c : Z) (s : jsstr) : jsstr :=
  replicate (n - length s) c ++ s.

(** [a || b] on strings. *)
Definition str_or (a b : jsstr) : jsstr := if nonempty a then a else b.

(** ** Decimal numerals *)

Fixpoint dec_digits (fuel : nat) (n : Z) (acc : jsstr) : jsstr :=
  match fuel with
  | O => acc
  | S fuel =>
      if n <? 10 then (48 + n) :: acc
      else dec_digits fuel (n / 10) ((48 + n mod 10) :: acc)
  end.
(** [String(n)] for an integer below 1e21. *)
Definition str_of_Z (n : Z) : jsstr :=
  if n <? 0 then 45 :: dec_digits (S (Z.to_nat (Z.log2 (- n)))) (- n) []
  else dec_digits (S (Z.to_nat (Z.log2 n))) n [].
Definition str_of_nat (n : nat) : jsstr := str_of_Z (Z.of_nat n).

Definition digits_value (s : jsstr) : Z := fold_left (λ a d, a * 10 + (d - 48)) s 0.

(** ** Lemmas: searching *)

Lemma starts_with_spec p s : starts_with p s = true ↔ p `prefix_of` s.
Proof.
  revert s. induction p as [|c p IH]; intros [|d s]; simpl.
  - split; [intros; apply prefix_nil|done].
  - split; [intros; apply prefix_nil|done].
  - split; [done|]. by intros ?%prefix_nil_not.
  - rewrite andb_true_iff, Z.eqb_eq, IH. split.
    + intros [-> ?]. by apply prefix_cons.
    + intros H. split; [by eapply prefix_cons_inv_1|by eapply prefix_cons_inv_2].
Qed.

Lemma starts_with_app p s : starts_with p (p ++ s) = true.
Proof. apply starts_with_spec. by exists s. Qed.

Lemma starts_with_refl s : starts_with s s = true.
Proof. by apply starts_with_spec. Qed.

Lemma index_of_Some p s i :
  index_of p s = Some i → ∃ u v, s = u ++ p ++ v ∧ length u = i.
Proof.
  revert i. induction s as [|c s IH]; intros i.
  - simpl. destruct (starts_with p []) eqn:Hp; intros ?; simplify_eq.
    apply starts_with_spec in Hp as [v ->]. by exists [], v.
  - cbn [index_of]. destruct (starts_with p (c :: s)) eqn:Hp; intros H; simplify_eq.
    + apply starts_with_spec in Hp as [v Hv]. exists [], v. by rewrite Hv.
    + apply fmap_Some in H as (j & Hj & ->). destruct (IH _ Hj) as (u & v & -> & <-).
      by exists (c :: u), v.
Qed.

Lemma index_of_app p u v : is_Some (index_of p (u ++ p ++ v)).
Proof.
  induction u as [|c u IH]; simpl.
  - destruct (p ++ v) eqn:Hpv; simpl; rewrite <-Hpv, starts_with_app; eauto.
  - destruct (starts_with p (c :: u ++ p ++ v)); [eauto|]. by apply fmap_is_Some.
Qed.

Lemma includes_spec p s : includes p s = true ↔ ∃ u v, s = u ++ p ++ v.
Proof.
  unfold includes. rewrite bool_decide_eq_true. split.
  - intros [i Hi]. apply index_of_Some in Hi as (u & v & ? & _). eauto.
  - intros (u & v & ->). apply index_of_app.
Qed.

Lemma has_unit_spec c s : has_unit c s = true ↔ c ∈ s.
Proof.
  unfold has_unit. rewrite existsb_exists. setoid_rewrite Z.eqb_eq.
  setoid_rewrite <-list_elem_of_In. naive_solver.
Qed.

Lemma has_unit_false c s : has_unit c s = false ↔ c ∉ s.
Proof. rewrite <-has_unit_spec. destruct (has_unit c s); naive_solver. Qed.

Lemma includes_unit c s : includes [c] s = has_unit c s.
Proof.
  apply eq_true_iff_eq. rewrite includes_spec, has_unit_spec. split.
  - intros (u & v & ->). set_solver.
  - intros (u & v & ->)%list_elem_of_split. by exists u, v.
Qed.
Lemma slice_middle u v w : slice (length u) (length u + length v) (u ++ v ++ w) = v.
Proof.
  unfold slice. rewrite drop_app_length.
  replace (length u + length v - length u)%nat with (length v) by lia. by rewrite take_app_length.
Qed.

(** ** Lemmas: trimming *)

Lemma trim_start_idemp s : trim_start (trim_start s) = trim_start s.
Proof. apply drop_while_idemp. Qed.

Lemma trim_head s c : head (trim s) = Some c → is_ws c = false.
Proof.
  unfold trim, trim_end. intros H.
  destruct (drop_while_end_prefix is_ws (trim_start s)) as [k Hk].
  apply (drop_while_head is_ws s). fold (trim_start s). rewrite Hk.
  by destruct (drop_while_end _ _).
Qed.

Lemma trim_end_last s c : last (trim_end s) = Some c → is_ws c = false.
Proof.
  unfold trim_end, drop_while_end. rewrite last_reverse. apply drop_while_head.
Qed.

Lemma trim_id s :
  (∀ c, head s = Some c → is_ws c = false) →
  (∀ c, last s = Some c → is_ws c = false) → trim s = s.
Proof.
  intros Hh Hl. unfold trim, trim_start, trim_end, drop_while_end.
  rewrite (drop_while_id _ s) by done.
  rewrite drop_while_id; [apply reverse_involutive|].
  intros c. rewrite head_reverse. apply Hl.
Qed.

Lemma trim_idemp s : trim (trim s) = trim s.
Proof.
  apply trim_id; [apply trim_head|]. intros c. unfold trim. apply trim_end_last.
Qed.

Lemma trim_Forall (P : Z → Prop) s : Forall P s → Forall P (trim s).
Proof.
  intros H. unfold trim, trim_end.
  destruct (drop_while_end_prefix is_ws (trim_start s)) as [k Hk].
  destruct (drop_while_suffix is_ws s) as [k' Hk'].
  rewrite Hk' in H. apply Forall_app in H as [_ H].
  unfold trim_start in Hk at 1. rewrite Hk in H. by apply Forall_app in H as [H _].
Qed.

Lemma trim_nil : trim [] = [].
Proof. done. Qed.

(** A string with no space unit at all is its own trim. *)
Definition no_ws (s : jsstr) : Prop := Forall (λ c, is_ws c = false) s.

Lemma trim_no_ws s : no_ws s → trim s = s.
Proof.
  unfold no_ws. rewrite Forall_forall. intros H. apply trim_id; intros c Hc; apply H.
  - destruct s; simplify_eq/=. by left.
  - apply last_Some_elem_of in Hc; done.
Qed.

(** ** Lemmas: splitting and joining *)

Lemma split_on_nonnil c s : split_on c s ≠ [].
Proof. induction s as [|d s IH]; simpl; [done|]. branches. Qed.

Lemma join_split c s : join [c] (split_on c s) = s.
Proof.
  induction s as [|d s IH]; simpl; [done|].
  pose proof (split_on_nonnil c s) as Hn.
  destruct (Z.eqb_spec c d) as [->|Hcd].
  - rewrite <-IH at 2. by destruct (split_on d s).
  - destruct (split_on c s) as [|w ws]; [done|]. destruct ws; simpl in *; by rewrite IH.
Qed.

Lemma split_on_no_sep c w : c ∉ w → split_on c w = [w].
Proof.
  induction w as [|d w IH]; intros Hc; simpl; [done|].
  apply not_elem_of_cons in Hc as [Hd Hc].
  rewrite (proj2 (Z.eqb_neq c d)) by done. by rewrite IH.
Qed.

Lemma split_on_app_sep c w s : c ∉ w → split_on c (w ++ c :: s) = w :: split_on c s.
Proof.
  induction w as [|d w IH]; intros Hc; simpl; [by rewrite Z.eqb_refl|].
  apply not_elem_of_cons in Hc as [Hd Hc].
  rewrite (proj2 (Z.eqb_neq c d)) by done. by rewrite IH.
Qed.

Lemma split_join c l :
  l ≠ [] → Forall (λ w, c ∉ w) l → split_on c (join [c] l) = l.
Proof.
  intros Hl H. induction H as [|w l Hw H IH]; [done|]. destruct l as [|w' l].
  - simpl. by apply split_on_no_sep.
  - change (join [c] (w :: w' :: l)) with (w ++ c :: join [c] (w' :: l)).
    rewrite split_on_app_sep by done. by rewrite IH.
Qed.

Lemma split_on_parts c s : Forall (λ w, c ∉ w) (split_on c s).
Proof.
  induction s as [|d s IH]; simpl; [by constructor; [apply not_elem_of_nil|]|].
  destruct (Z.eqb_spec c d) as [->|Hcd].
  - constructor; [apply not_elem_of_nil|done].
  - destruct (split_on c s) as [|w ws].
    + constructor; [|done]. set_solver.
    + apply Forall_cons in IH as [Hw Hws]. constructor; [|done]. set_solver.
Qed.

Lemma split_on_Forall (P : Z → Prop) c s :
  Forall P s → Forall (Forall P) (split_on c s).
Proof.
  induction 1 as [|d s Hd Hs IH]; simpl; [by repeat constructor|].
  destruct (c =? d); [by constructor|].
  destruct (split_on c s) as [|w ws]; [by repeat constructor|].
  apply Forall_cons in IH as [Hw Hws]. by repeat constructor.
Qed.

Lemma join_cons_ne sep w l : l ≠ [] → join sep (w :: l) = w ++ sep ++ join sep l.
Proof. by destruct l. Qed.

Lemma join_app sep l k :
  l ≠ [] → k ≠ [] → join sep (l ++ k) = join sep l ++ sep ++ join sep k.
Proof.
  intros Hl Hk. induction l as [|w l IH]; [done|]. destruct l as [|w' l].
  - simpl. by destruct k.
  - change ((w :: w' :: l) ++ k) with (w :: ((w' :: l) ++ k)).
    rewrite !join_cons_ne by done. rewrite IH by done. by rewrite <-!(assoc_L (++)).
Qed.

Lemma join_Forall (P : Z → Prop) sep l :
  Forall P sep → Forall (Forall P) l → Forall P (join sep l).
Proof.
  intros Hsep H. induction H as [|w l Hw H IH]; [constructor|].
  destruct l; [done|]. rewrite join_cons_ne by done. rewrite !Forall_app. done.
Qed.

Lemma join_nil_iff sep l :
  Forall (λ w, nonempty w = true) l → join sep l = [] ↔ l = [].
Proof.
  intros H. destruct H as [|w l Hw H]; [done|]. split; [|done].
  destruct w; [done|]. by destruct l.
Qed.

Lemma nonempty_spec s : nonempty s = true ↔ s ≠ [].
Proof. by destruct s. Qed.

Lemma nonempty_false s : nonempty s = false ↔ s = [].
Proof. by destruct s. Qed.

(** ** Lemmas: case *)

Lemma lower_length s : length (lower s) = length s.
Proof. apply length_map. Qed.

Lemma lower_unit_idemp c : lower_unit (lower_unit c) = lower_unit c.
Proof.
  unfold lower_unit, is_upper. repeat case_goal; try lia; split_bools; lia.
Qed.

Lemma lower_idemp s : lower (lower s) = lower s.
Proof. induction s as [|c s IH]; simpl; [done|]. by rewrite lower_unit_idemp, IH. Qed.

Lemma lower_nonempty s : nonempty (lower s) = nonempty s.
Proof. by destruct s. Qed.

(** ** Lemmas: numerals *)

Lemma digits_value_app s d : digits_value (s ++ [d]) = digits_value s * 10 + (d - 48).
Proof. unfold digits_value. by rewrite fold_left_app. Qed.

Lemma fold_digits_acc s a :
  fold_left (λ a d, a * 10 + (d - 48)) s a = a * 10 ^ Z.of_nat (length s) + digits_value s.
Proof.
  revert a. induction s as [|d s IH]; intros a.
  - unfold digits_value. simpl. lia.
  - cbn [fold_left length]. rewrite IH. unfold digits_value at 2. cbn [fold_left].
    rewrite IH. rewrite Nat2Z.inj_succ, Z.pow_succ_r by lia. lia.
Qed.

Lemma dec_digits_value fuel n acc :
  0 ≤ n < 2 ^ Z.of_nat fuel →
  digits_value (dec_digits fuel n acc)
  = n * 10 ^ Z.of_nat (length acc) + digits_value acc.
Proof.
  revert n acc. induction fuel as [|fuel IH]; intros n acc Hn; simpl.
  { rewrite Z.pow_0_r in Hn. replace n with 0 by lia. lia. }
  rewrite Nat2Z.inj_succ, Z.pow_succ_r in Hn by lia.
  destruct (Z.ltb_spec n 10).
  - unfold digits_value at 1. cbn [fold_left]. rewrite fold_digits_acc. lia.
  - rewrite IH by (split; [apply Z.div_pos; lia|]; apply Z.div_lt_upper_bound; lia).
    cbn [length]. rewrite Nat2Z.inj_succ, Z.pow_succ_r by lia.
    unfold digits_value at 1. cbn [fold_left]. rewrite fold_digits_acc.
    assert (n = 10 * (n / 10) + n mod 10) as E by (apply Z.div_mod; lia).
    generalize dependent (n mod 10). generalize dependent (n / 10). intros q r ->. ring.
Qed.

Lemma dec_digits_Forall fuel n acc :
  0 ≤ n → Forall (λ c, is_digit c = true) acc →
  Forall (λ c, is_digit c = true) (dec_digits fuel n acc).
Proof.
  revert n acc. induction fuel as [|fuel IH]; intros n acc Hn Ha; simpl; [done|].
  destruct (Z.ltb_spec n 10).
  - constructor; [|done]. unfold is_digit. lia.
  - apply IH; [apply Z.div_pos; lia|]. constructor; [|done].
    unfold is_digit. pose proof (Z.mod_pos_bound n 10). lia.
Qed.

Lemma dec_digits_ne fuel n acc : acc ≠ [] ∨ fuel ≠ O → dec_digits fuel n acc ≠ [].
Proof.
  revert n acc. induction fuel as [|fuel IH]; intros n acc H; simpl; [naive_solver|].
  destruct (n <? 10); [done|]. apply IH. by left.
Qed.

Lemma log2_fuel n : 0 ≤ n → n < 2 ^ Z.of_nat (S (Z.to_nat (Z.log2 n))).
Proof.
  intros Hn. rewrite Nat2Z.inj_succ, Z2Nat.id by apply Z.log2_nonneg.
  destruct (Z.eq_dec n 0) as [->|]; [done|]. apply Z.log2_spec. lia.
Qed.

(** Reading back a printed natural number. *)
Lemma digits_value_str_of_Z n : 0 ≤ n → digits_value (str_of_Z n) = n.
Proof.
  intros Hn. unfold str_of_Z. rewrite (proj2 (Z.ltb_ge n 0)) by done.
  rewrite dec_digits_value by (split; [done|by apply log2_fuel]).
  unfold digits_value. simpl. lia.
Qed.

Lemma str_of_Z_digits n : 0 ≤ n → Forall (λ c, is_digit c = true) (str_of_Z n).
Proof.
  intros Hn. unfold str_of_Z. rewrite (proj2 (Z.ltb_ge n 0)) by done.
  by apply dec_digits_Forall.
Qed.

Lemma str_of_Z_ne n : str_of_Z n ≠ [].
Proof. unfold str_of_Z. destruct (n <? 0); [done|]. apply dec_digits_ne. by right. Qed.

Lemma str_of_Z_inj n m : 0 ≤ n → 0 ≤ m → str_of_Z n = str_of_Z m → n = m.
Proof.
  intros Hn Hm H. rewrite <-(digits_value_str_of_Z n), <-(digits_value_str_of_Z m) by done.
  by rewrite H.
Qed.

Lemma digit_not_ws c : is_digit c = true → is_ws c = false.
Proof. unfold is_digit, is_ws. intros. lia. Qed.

Lemma digits_no_ws s : Forall (λ c, is_digit c = true) s → no_ws s.
Proof. intros H. eapply Forall_impl; [exact H|]. intros c. apply digit_not_ws. Qed.

#[export] Hint Rewrite trim_idemp lower_idemp join_split lower_length : darklab.
#[export] Hint Resolve split_on_nonnil split_on_parts str_of_Z_ne digits_no_ws : darklab.
