(* ===== verification/JsNumber.v ===== *)
(** JavaScript numbers: IEEE-754 binary64, on the standard library's
    [spec_float] (no axioms, computable), with the conversions of [Number],
    [parseInt], [String] and [toFixed], and the rounding functions of [Math]. *)

From S2P Require Import Prelude JsString.
From Stdlib Require Export Floats.SpecFloat.

Notation num := spec_float.

Definition prec : Z := 53.
Definition emax : Z := 1024.

Definition NaN : num := S754_nan.
Definition Inf (neg : bool) : num := S754_infinity neg.
Definition num_zero : num := S754_zero false.

(** The double nearest to [m * 2 ^ e]. *)
Definition num_scale (m e : Z) : num := binary_normalize prec emax m e false.
Definition num_of_Z (n : Z) : num := num_scale n 0.
Definition num_of_nat (n : nat) : num := num_of_Z (Z.of_nat n).

(** The double nearest to [m * 10 ^ e]. *)
Definition num_of_dec (m e : Z) : num :=
  if 0 <=? e then num_of_Z (m * 10 ^ e)
  else match m with
       | Z0 => num_zero
       | Zpos p => SFdiv prec emax (S754_finite false p 0) (S754_finite false (Z.to_pos (10 ^ (- e))) 0)
       | Zneg p => SFdiv prec emax (S754_finite true p 0) (S754_finite false (Z.to_pos (10 ^ (- e))) 0)
       end.

Definition nadd := SFadd prec emax.
Definition nsub := SFsub prec emax.
Definition nmul := SFmul prec emax.
Definition ndiv := SFdiv prec emax.
Definition neqb := SFeqb.
Definition nltb := SFltb.
Definition nleb := SFleb.

Definition is_nan (x : num) : bool := match x with S754_nan => true | _ => false end.
Definition is_finite (x : num) : bool :=
  match x with S754_zero _ | S754_finite _ _ _ => true | _ => false end.

(** [floor (m * 2 ^ e)]. *)
Definition scaled_floor (m e : Z) : Z := Z.shiftl m e.

Definition signed (s : bool) (m : positive) : Z := if s then Zneg m else Zpos m.

(** The integer value of an integral double. *)
Definition num_to_Z (x : num) : option Z :=
  match x with
  | S754_zero _ => Some 0
  | S754_finite s m e =>
      let z := scaled_floor (signed s m) e in
      if (0 <=? e) || (z * 2 ^ (- e) =? signed s m) then Some z else None
  | _ => None
  end.
(** [Number.isInteger]. *)
Definition is_integer (x : num) : bool :=
  match num_to_Z x with Some _ => true | None => false end.

(** [Math.floor] and [Math.round]. *)
Definition num_floor (x : num) : num :=
  match x with
  | S754_finite s m e => num_of_Z (scaled_floor (signed s m) e)
  | _ => x
  end.
Definition num_round (x : num) : num :=
  match x with
  | S754_finite s m e =>
      if 0 <=? e then x
      else let z := scaled_floor (2 * signed s m + 2 ^ (- e)) (e - 1) in
           if (z =? 0) && s then S754_zero true else num_of_Z z
  | _ => x
  end.
(** [Math.max] of two numbers that are not NaN. *)
Definition num_max (x y : num) : num :=
  if is_nan x || is_nan y then NaN else if nltb x y then y else x.
Definition num_min (x y : num) : num :=
  if is_nan x || is_nan y then NaN else if nltb y x then y else x.

(** [x % y] for a finite [x] and a finite non-zero [y]. *)
Definition num_rem (x y : num) : num :=
  match x, y with
  | S754_nan, _ | _, S754_nan | S754_infinity _, _ | _, S754_zero _ => NaN
  | S754_zero _, _ | _, S754_infinity _ => x
  | S754_finite s mx ex, S754_finite _ my ey =>
      let e := Z.min ex ey in
      let r := (Z.shiftl (Zpos mx) (ex - e)) mod (Z.shiftl (Zpos my) (ey - e)) in
      if r =? 0 then S754_zero s
      else num_scale (if s then - r else r) e
  end.

(** ** Number to string *)

(** [round (m * 2^e * 10^f)], ties up, for a non-negative [m]. *)
Definition scaled_dec_round (m e f : Z) : Z :=
  let a := if 0 <=? f then m * 10 ^ f else m in
  let d := if 0 <=? f then 1 else 10 ^ (- f) in
  let a := if 0 <=? e then a * 2 ^ e else a in
  let d := if 0 <=? e then d else d * 2 ^ (- e) in
  (2 * a + d) / (2 * d).

(** [x.toFixed(f)], below 1e21. *)
Definition to_fixed_digits (n : Z) (f : nat) : jsstr :=
  let d := str_of_Z n in
  match f with
  | O => d
  | _ => let d := replicate (S f - length d) 48 ++ d in
         take (length d - f) d ++ [46] ++ drop (length d - f) d
  end.
Definition to_fixed (f : nat) (x : num) : jsstr :=
  match x with
  | S754_nan => js "NaN"
  | S754_infinity s => if s then js "-Infinity" else js "Infinity"
  | S754_zero _ => to_fixed_digits 0 f
  | S754_finite s m e =>
      (if s then [45] else []) ++ to_fixed_digits (scaled_dec_round (Zpos m) e (Z.of_nat f)) f
  end.

(** The shortest decimal [n * 10^k] that reads back as [x]. *)
Fixpoint shortest_dec (fuel : nat) (digits : Z) (E : Z) (m e : Z) (x : num) : Z * Z :=
  let n := scaled_dec_round m e (digits - E) in
  match fuel with
  | O => (n, E - digits)
  | S fuel =>
      if neqb (num_of_dec n (E - digits)) x
      then if n mod 10 =? 0 then (n / 10, E - digits + 1) else (n, E - digits)
      else shortest_dec fuel (digits + 1) E m e x
  end.
(** The [E] with [10^(E-1) <= m * 2^e < 10^E], by search. *)
Definition dec_exponent (m e : Z) : Z :=
  let lo := (Z.log2 m + e) * 30102 / 100000 - 1 in
  let below k := (* m * 2^e < 10^k *)
    (if 0 <=? e then m * 2 ^ e else m) * (if 0 <=? k then 1 else 10 ^ (- k))
    <? (if 0 <=? k then 10 ^ k else 1) * (if 0 <=? e then 1 else 2 ^ (- e)) in
  if below lo then lo else if below (lo + 1) then lo + 1
  else if below (lo + 2) then lo + 2 else lo + 3.

Definition format_dec (n k : Z) : jsstr :=
  let d := str_of_Z n in
  let len := Z.of_nat (length d) in
  let p := len + k in                       (* position of the point *)
  if (0 <=? k) && (p <=? 21) then d ++ replicate (Z.to_nat k) 48
  else if (0 <? p) && (p <=? 21) then take (Z.to_nat p) d ++ [46] ++ drop (Z.to_nat p) d
  else if (-6 <? p) && (p <=? 0) then [48; 46] ++ replicate (Z.to_nat (- p)) 48 ++ d
  else
    let ex := p - 1 in
    let exs := (if ex <? 0 then [45] else [43]) ++ str_of_Z (Z.abs ex) in
    match d with
    | [c] => [c; 101] ++ exs
    | c :: d => c :: 46 :: d ++ [101] ++ exs
    | [] => []
    end.

(** [String(x)]. *)
Definition num_to_str (x : num) : jsstr :=
  match x with
  | S754_nan => js "NaN"
  | S754_infinity s => if s then js "-Infinity" else js "Infinity"
  | S754_zero _ => [48]
  | S754_finite s m e =>
      match num_to_Z x with
      | Some z => if Z.abs z <=? 2 ^ 53 then str_of_Z z else
          let E := dec_exponent (Zpos m) e in
          let '(n, k) := shortest_dec 16 1 E (Zpos m) e (S754_finite false m e) in
          (if s then [45] else []) ++ format_dec n k
      | None =>
          let E := dec_exponent (Zpos m) e in
          let '(n, k) := shortest_dec 16 1 E (Zpos m) e (S754_finite false m e) in
          (if s then [45] else []) ++ format_dec n k
      end
  end.

(** ** String to number *)

Definition split_sign (s : jsstr) : bool * jsstr :=
  match s with
  | 45 :: s' => (true, s')
  | 43 :: s' => (false, s')
  | _ => (false, s)
  end.

Definition neg_if (s : bool) (x : num) : num := if s then SFopp x else x.

(** [Number.parseInt(s, 10)]. *)
Definition parse_int (s : jsstr) : num :=
  let '(sg, r) := split_sign (trim_start s) in
  let d := take_while is_digit r in
  if nonempty d then neg_if sg (num_of_Z (digits_value d)) else NaN.

Definition digit_of (radix c : Z) : option Z :=
  let v := if is_digit c then c - 48
           else if is_lower c then c - 87 else if is_upper c then c - 55 else radix in
  if v <? radix then Some v else None.
Definition radix_value (radix : Z) (s : jsstr) : option Z :=
  match s with
  | [] => None
  | _ => foldl (λ a c, a ← a; d ← digit_of radix c; Some (a * radix + d)) (Some 0) s
  end.

(** An unsigned decimal literal: digits, point, digits, exponent. *)
Definition parse_decimal (s : jsstr) : option num :=
  let ip := take_while is_digit s in
  let r := drop_while is_digit s in
  let '(fp, r) := match r with
                  | 46 :: r' => (take_while is_digit r', drop_while is_digit r')
                  | _ => ([], r)
                  end in
  if negb (nonempty (ip ++ fp)) then None else
  let m := digits_value (ip ++ fp) in
  let f := Z.of_nat (length fp) in
  match r with
  | [] => Some (num_of_dec m (- f))
  | c :: r' =>
      if (c =? 101) || (c =? 69) then
        let '(sg, ed) := split_sign r' in
        if nonempty ed && forallb is_digit ed
        then let ex := digits_value ed in Some (num_of_dec m ((if sg then - ex else ex) - f))
        else None
      else None
  end.

(** [Number(s)] on a string. *)
Definition num_of_str (s : jsstr) : num :=
  let t := trim s in
  if negb (nonempty t) then num_zero
  else match t with
  | 48 :: c :: r =>
      if (c =? 120) || (c =? 88) then match radix_value 16 r with Some z => num_of_Z z | None => NaN end
      else if (c =? 111) || (c =? 79) then match radix_value 8 r with Some z => num_of_Z z | None => NaN end
      else if (c =? 98) || (c =? 66) then match radix_value 2 r with Some z => num_of_Z z | None => NaN end
      else default NaN (parse_decimal t)
  | _ =>
      let '(sg, r) := split_sign t in
      if r ==s js "Infinity" then Inf sg
      else match parse_decimal r with Some x => neg_if sg x | None => NaN end
  end.

(** ** Integers round-trip through doubles *)

Lemma num_of_Z_0 : num_of_Z 0 = num_zero.
Proof. done. Qed.

Lemma digits2_pos_log2 p : Z.pos (digits2_pos p) = Z.succ (Z.log2 (Z.pos p)).
Proof.
  induction p as [p IH|p IH|]; cbn [digits2_pos].
  - rewrite Pos2Z.inj_succ, IH. rewrite (Pos2Z.inj_xI p), Z.log2_succ_double; lia.
  - rewrite Pos2Z.inj_succ, IH. rewrite (Pos2Z.inj_xO p), Z.log2_double; lia.
  - done.
Qed.

Lemma iter_xO p d : Z.pos (Pos.iter xO p d) = Z.pos p * 2 ^ Z.pos d.
Proof.
  revert p. induction d as [|d IH] using Pos.peano_ind; intros p.
  - simpl. lia.
  - rewrite Pos.iter_succ, Pos2Z.inj_succ, Z.pow_succ_r by lia.
    rewrite (Pos2Z.inj_xO (Pos.iter xO p d)), IH. lia.
Qed.

(** An integer of at most 53 bits is represented by itself, shifted. *)
Lemma num_of_Z_shape (p : positive) :
  Z.pos p < 2 ^ 53 →
  ∃ m e, num_of_Z (Z.pos p) = S754_finite false m e
         ∧ e = Z.log2 (Z.pos p) - 52 ∧ Z.pos m = Z.pos p * 2 ^ (- e).
Proof.
  intros Hp.
  pose proof (Z.log2_nonneg (Z.pos p)).
  assert (Z.log2 (Z.pos p) < 53) by (apply Z.log2_lt_pow2; lia).
  unfold num_of_Z, num_scale, binary_normalize, binary_round, shl_align.
  pose proof (digits2_pos_log2 p) as Hd.
  assert (fexp prec emax (Z.pos (digits2_pos p) + 0) = Z.log2 (Z.pos p) - 52) as Hf.
  { unfold fexp, emin, prec, emax. lia. }
  rewrite Hf, Z.sub_0_r.
  assert (∃ mz ez, (match Z.log2 (Z.pos p) - 52 with
     | Z.neg d => (Pos.iter xO p d, Z.log2 (Z.pos p) - 52) | _ => (p, 0) end) = (mz, ez)
     ∧ ez = Z.log2 (Z.pos p) - 52 ∧ Z.pos mz = Z.pos p * 2 ^ (- ez)) as (mz & ez & -> & Hez & Hmz).
  { destruct (Z.log2 (Z.pos p) - 52) as [|q|q] eqn:E; [|lia|].
    - eexists _, _. split; [done|]. split; [lia|]. simpl. lia.
    - eexists _, _. split; [done|]. split; [done|]. rewrite iter_xO. done. }
  assert (Z.pos (digits2_pos mz) = 53) as Hdm.
  { rewrite digits2_pos_log2, Hmz, Z.log2_mul_pow2; lia. }
  assert (fexp prec emax (Z.pos (digits2_pos mz) + ez) = ez) as Hfm.
  { rewrite Hdm. unfold fexp, emin, prec, emax. lia. }
  unfold binary_round_aux, shr_fexp. cbn [Zdigits2 shr_record_of_loc].
  rewrite Hfm, Z.sub_diag. cbn [shr shr_m loc_of_shr_record round_nearest_even Zdigits2 shr_record_of_loc].
  rewrite Hfm, Z.sub_diag. cbn [shr shr_m].
  rewrite (proj2 (Z.leb_le _ _)) by (unfold emax, prec; lia).
  exists mz, ez. done.
Qed.

Lemma num_of_Z_pos (p : positive) :
  Z.pos p < 2 ^ 53 →
  ∃ m e, num_of_Z (Z.pos p) = S754_finite false m e ∧ e ≤ 0 ∧ Z.pos m = Z.pos p * 2 ^ (- e).
Proof.
  intros Hp. destruct (num_of_Z_shape p Hp) as (m & e & Heq & He & Hm).
  assert (Z.log2 (Z.pos p) < 53) by (apply Z.log2_lt_pow2; lia).
  exists m, e. split; [done|]. split; [lia|done].
Qed.

Lemma num_to_Z_pos_finite p m e :
  e ≤ 0 → Z.pos m = Z.pos p * 2 ^ (- e) → num_to_Z (S754_finite false m e) = Some (Z.pos p).
Proof.
  intros He Hm. unfold num_to_Z, scaled_floor, signed.
  assert (Z.shiftl (Z.pos m) e = Z.pos p) as ->.
  { rewrite <-(Z.opp_involutive e) at 1. rewrite Z.shiftl_opp_r, Z.shiftr_div_pow2 by lia.
    rewrite Hm. apply Z.div_mul. apply Z.pow_nonzero; lia. }
  rewrite Hm, Z.eqb_refl, orb_true_r. done.
Qed.

Lemma num_to_Z_of_pos p : Z.pos p < 2 ^ 53 → num_to_Z (num_of_Z (Z.pos p)) = Some (Z.pos p).
Proof.
  intros H. destruct (num_of_Z_pos p H) as (m & e & -> & He & Hm).
  by apply num_to_Z_pos_finite.
Qed.

(** Safe integers survive the trip through a double. *)
Lemma num_to_Z_of_Z n : 0 ≤ n < 2 ^ 53 → num_to_Z (num_of_Z n) = Some n.
Proof. intros Hn. destruct n as [|p|p]; [done| |lia]. apply num_to_Z_of_pos. lia. Qed.

Lemma num_to_str_of_Z n : 0 ≤ n < 2 ^ 53 → num_to_str (num_of_Z n) = str_of_Z n.
Proof.
  intros Hn. pose proof (num_to_Z_of_Z n Hn) as Hz.
  destruct n as [|p|p]; [done| |lia].
  destruct (num_of_Z_pos p ltac:(lia)) as (m & e & Heq & He & Hm).
  rewrite Heq in *. unfold num_to_str. rewrite Hz.
  rewrite (proj2 (Z.leb_le _ _)) by lia. done.
Qed.

Lemma is_integer_of_Z n : 0 ≤ n < 2 ^ 53 → is_integer (num_of_Z n) = true.
Proof. intros. unfold is_integer. by rewrite num_to_Z_of_Z. Qed.

Lemma is_finite_integer x : is_integer x = true → is_finite x = true.
Proof. by destruct x. Qed.

(** Doubles compare safe integers as integers. *)
Lemma compare_of_pos p q :
  Z.pos p < 2 ^ 53 → Z.pos q < 2 ^ 53 →
  SFcompare (num_of_Z (Z.pos p)) (num_of_Z (Z.pos q)) = Some (Z.compare (Z.pos p) (Z.pos q)).
Proof.
  intros Hp Hq.
  destruct (num_of_Z_shape p Hp) as (m & e & -> & He & Hm).
  destruct (num_of_Z_shape q Hq) as (m' & e' & -> & He' & Hm'). cbn.
  destruct (Z.compare_spec e e') as [Hee|Hee|Hee]; f_equal; symmetry.
  - change (Pos.compare_cont Eq m m') with (Z.compare (Z.pos m) (Z.pos m')).
    rewrite Hm, Hm', Hee. pose proof (Z.pow_pos_nonneg 2 (- e')).
    assert (Z.log2 (Z.pos q) < 53) by (apply Z.log2_lt_pow2; lia).
    change (p ?= q)%positive with (Z.compare (Z.pos p) (Z.pos q)).
    apply Zmult_compare_compat_r. lia.
  - apply (Z.compare_lt_iff (Z.pos p) (Z.pos q)). apply Z.log2_lt_cancel. lia.
  - apply (Z.compare_gt_iff (Z.pos p) (Z.pos q)). apply Z.log2_lt_cancel. lia.
Qed.

Lemma num_of_Z_finite p :
  Z.pos p < 2 ^ 53 → ∃ m e, num_of_Z (Z.pos p) = S754_finite false m e.
Proof. intros H. destruct (num_of_Z_shape p H) as (m & e & Heq & _). eauto. Qed.

Lemma compare_of_Z a b :
  0 ≤ a < 2 ^ 53 → 0 ≤ b < 2 ^ 53 →
  SFcompare (num_of_Z a) (num_of_Z b) = Some (Z.compare a b).
Proof.
  intros Ha Hb. destruct a as [|p|p], b as [|q|q]; try lia.
  - done.
  - by destruct (num_of_Z_finite q ltac:(lia)) as (m & e & ->).
  - by destruct (num_of_Z_finite p ltac:(lia)) as (m & e & ->).
  - apply compare_of_pos; lia.
Qed.

Lemma nltb_of_Z a b :
  0 ≤ a < 2 ^ 53 → 0 ≤ b < 2 ^ 53 → nltb (num_of_Z a) (num_of_Z b) = (a <? b).
Proof. intros. unfold nltb, SFltb, Z.ltb. rewrite compare_of_Z by done. done. Qed.

Lemma neqb_of_Z a b :
  0 ≤ a < 2 ^ 53 → 0 ≤ b < 2 ^ 53 → neqb (num_of_Z a) (num_of_Z b) = (a =? b).
Proof.
  intros. unfold neqb, SFeqb. rewrite compare_of_Z, Z.eqb_compare by done. done.
Qed.

Lemma num_of_Z_not_nan n : 0 ≤ n < 2 ^ 53 → is_nan (num_of_Z n) = false.
Proof.
  intros Hn. destruct n as [|p|p]; [done| |lia].
  by destruct (num_of_Z_finite p ltac:(lia)) as (m & e & ->).
Qed.

Lemma num_max_of_Z a b :
  0 ≤ a < 2 ^ 53 → 0 ≤ b < 2 ^ 53 → num_max (num_of_Z a) (num_of_Z b) = num_of_Z (Z.max a b).
Proof.
  intros Ha Hb. unfold num_max. rewrite !num_of_Z_not_nan, nltb_of_Z by done. cbn [orb].
  destruct (Z.ltb_spec a b); f_equal; lia.
Qed.

Lemma num_min_of_Z a b :
  0 ≤ a < 2 ^ 53 → 0 ≤ b < 2 ^ 53 → num_min (num_of_Z a) (num_of_Z b) = num_of_Z (Z.min a b).
Proof.
  intros Ha Hb. unfold num_min. rewrite !num_of_Z_not_nan, nltb_of_Z by done. cbn [orb].
  destruct (Z.ltb_spec b a); f_equal; lia.
Qed.

Lemma num_floor_of_Z n : 0 ≤ n < 2 ^ 53 → num_floor (num_of_Z n) = num_of_Z n.
Proof.
  intros Hn. pose proof (num_to_Z_of_Z n Hn) as Hz.
  destruct (num_of_Z n) as [| | |s m e] eqn:E; cbn in *; try done.
  case_match; [|done]. injection Hz as ->. done.
Qed.

(** [parseInt(String(n), 10)] is [n]. *)
Lemma parse_int_str_of_Z n : 0 ≤ n → parse_int (str_of_Z n) = num_of_Z n.
Proof.
  intros Hn. pose proof (str_of_Z_digits n Hn) as Hd. pose proof (str_of_Z_ne n) as Hne.
  pose proof (digits_value_str_of_Z n Hn) as Hv.
  destruct (str_of_Z n) as [|c s]; [done|].
  assert (is_digit c = true) as Hc by by apply Forall_cons in Hd as [? _].
  unfold parse_int, trim_start. rewrite drop_while_id; [|].
  2:{ intros ? [= <-]. by apply digit_not_ws. }
  assert (split_sign (c :: s) = (false, c :: s)) as ->.
  { unfold split_sign. unfold is_digit in Hc. branches; lia. }
  assert (take_while is_digit (c :: s) = c :: s) as ->.
  { clear -Hd. induction Hd as [|x l Hx Hl IH]; [done|]. cbn. by rewrite Hx, IH. }
  simpl. by rewrite Hv.
Qed.

#[export] Hint Rewrite num_to_Z_of_Z num_to_str_of_Z is_integer_of_Z nltb_of_Z neqb_of_Z
  num_max_of_Z num_floor_of_Z using lia : darklab.

(** Sums and differences of safe integers are exact. *)
Lemma shr_1_exact m : 0 ≤ m → shr_1 (Build_shr_record (2 * m) false false) = Build_shr_record m false false.
Proof. intros Hm. by destruct m; [|cbn|lia]. Qed.

Lemma iter_shr_exact n m :
  0 ≤ m → iter_pos shr_1 n (Build_shr_record (m * 2 ^ Z.pos n) false false) = Build_shr_record m false false.
Proof.
  revert m. induction n as [n IH|n IH|]; intros m Hm; cbn [iter_pos].
  - assert (0 < 2 ^ Z.pos n) by lia.
    replace (m * 2 ^ Z.pos n~1) with (2 * (m * 2 ^ Z.pos n * 2 ^ Z.pos n))
      by (replace (Z.pos n~1) with (Z.pos n + Z.pos n + 1) by lia; rewrite !Z.pow_add_r by lia; lia).
    rewrite shr_1_exact, IH by nia. by apply IH.
  - assert (0 < 2 ^ Z.pos n) by lia. replace (Z.pos n~0) with (Z.pos n + Z.pos n) by lia. rewrite Z.pow_add_r by lia.
    rewrite Z.mul_assoc, IH by nia. by apply IH.
  - rewrite Z.mul_comm. by apply shr_1_exact.
Qed.

Lemma shr_exact m e n l :
  0 ≤ m → 0 ≤ n → l = loc_Exact → shr (shr_record_of_loc (m * 2 ^ n) l) e n = (Build_shr_record m false false, e + n).
Proof.
  intros Hm Hn ->. unfold shr. cbn [shr_record_of_loc]. destruct n as [|n|n]; [by rewrite Z.mul_1_r, Z.add_0_r| |lia].
  by rewrite iter_shr_exact.
Qed.

(** Scaling an integer up and down again gives the integer. *)
Lemma num_scale_exact p q k :
  Z.pos p < 2 ^ 53 → 0 ≤ k → Z.pos q = Z.pos p * 2 ^ k → num_scale (Z.pos q) (- k) = num_of_Z (Z.pos p).
Proof.
  intros Hp Hk Hq. destruct (num_of_Z_shape p Hp) as (m & e & -> & He & Hm).
  pose proof (Z.log2_nonneg (Z.pos p)).
  assert (Z.log2 (Z.pos p) < 53) by (apply Z.log2_lt_pow2; lia).
  unfold num_scale, binary_normalize, binary_round.
  pose proof (digits2_pos_log2 q) as Hd. rewrite Hq, Z.log2_mul_pow2 in Hd by lia.
  assert (fexp prec emax (Z.pos (digits2_pos q) + - k) = e) as -> by (unfold fexp, emin, prec, emax; lia).
  assert (∃ z ez, shl_align q (- k) e = (z, ez) ∧ ez ≤ e ∧ Z.pos z = Z.pos p * 2 ^ (- ez)) as (z & ez & -> & Hez & Hz).
  { unfold shl_align. destruct (e - - k) as [|d|d] eqn:E.
    - exists q, (- k). split; [done|]. rewrite Z.opp_involutive. split; [lia|done].
    - exists q, (- k). split; [done|]. rewrite Z.opp_involutive. split; [lia|done].
    - eexists _, _. split; [done|]. split; [lia|]. rewrite iter_xO, Hq, <-Z.mul_assoc, <-Z.pow_add_r by lia.
      do 2 f_equal. lia. }
  pose proof (digits2_pos_log2 z) as Hdz. rewrite Hz, Z.log2_mul_pow2 in Hdz by lia.
  assert (fexp prec emax (Z.pos (digits2_pos z) + ez) = e) as Hf by (unfold fexp, emin, prec, emax; lia).
  assert (fexp prec emax (Z.pos (digits2_pos m) + e) = e) as Hfm.
  { rewrite digits2_pos_log2, Hm, Z.log2_mul_pow2 by lia. unfold fexp, emin, prec, emax. lia. }
  unfold binary_round_aux, shr_fexp. cbn [Zdigits2]. rewrite Hf.
  assert (Z.pos z = Z.pos m * 2 ^ (e - ez)) as ->.
  { rewrite Hz, Hm, <-Z.mul_assoc, <-Z.pow_add_r by lia. do 2 f_equal. lia. }
  rewrite shr_exact by first [lia|reflexivity]. replace (ez + (e - ez)) with e by lia.
  cbn [shr_m loc_of_shr_record round_nearest_even Zdigits2 shr_record_of_loc].
  rewrite Hfm, Z.sub_diag. cbn [shr shr_m]. rewrite (proj2 (Z.leb_le _ _)) by (unfold emax, prec; lia). done.
Qed.

Lemma shl_align_pos m e ez z k :
  ez ≤ e → e ≤ 0 → Z.pos m = z * 2 ^ (- e) → k = - ez → Z.pos (fst (shl_align m e ez)) = z * 2 ^ k.
Proof.
  intros Hle He Hm ->. unfold shl_align. destruct (ez - e) as [|d|d] eqn:E; [|lia|]; cbn [fst].
  - by replace ez with e by lia.
  - rewrite iter_xO, Hm, <-Z.mul_assoc, <-Z.pow_add_r by lia. do 2 f_equal. lia.
Qed.

Lemma nadd_of_Z a b : 0 ≤ a → 0 ≤ b → a + b < 2 ^ 53 → nadd (num_of_Z a) (num_of_Z b) = num_of_Z (a + b).
Proof.
  intros Ha Hb Hab. destruct a as [|p|p], b as [|q|q]; try lia.
  - done.
  - rewrite Z.add_0_l. by destruct (num_of_Z_finite q ltac:(lia)) as (m & e & ->).
  - rewrite Z.add_0_r. by destruct (num_of_Z_finite p ltac:(lia)) as (m & e & ->).
  - destruct (num_of_Z_pos p ltac:(lia)) as (m & e & -> & He & Hm).
    destruct (num_of_Z_pos q ltac:(lia)) as (m' & e' & -> & He' & Hm').
    unfold nadd, SFadd. cbn [cond_Zopp]. set (ez := Z.min e e').
    pose proof (shl_align_pos m e ez (Z.pos p) (- ez) ltac:(lia) He Hm eq_refl) as H1.
    pose proof (shl_align_pos m' e' ez (Z.pos q) (- ez) ltac:(lia) He' Hm' eq_refl) as H2.
    rewrite <-(Z.opp_involutive ez). rewrite Z.opp_involutive at 1 2.
    change (num_scale (Z.pos (fst (shl_align m e ez) + fst (shl_align m' e' ez))) (- - ez) = num_of_Z (Z.pos (p + q))).
    apply num_scale_exact; [lia|lia|]. rewrite !Pos2Z.inj_add, H1, H2. lia.
Qed.

Lemma nsub_of_Z a b : 0 ≤ b → b ≤ a → a < 2 ^ 53 → nsub (num_of_Z a) (num_of_Z b) = num_of_Z (a - b).
Proof.
  intros Hb Hba Ha. destruct a as [|p|p], b as [|q|q]; try lia.
  - done.
  - rewrite Z.sub_0_r. by destruct (num_of_Z_finite p ltac:(lia)) as (m & e & ->).
  - destruct (num_of_Z_pos p ltac:(lia)) as (m & e & -> & He & Hm).
    destruct (num_of_Z_pos q ltac:(lia)) as (m' & e' & -> & He' & Hm').
    unfold nsub, SFsub. cbn [cond_Zopp]. set (ez := Z.min e e').
    pose proof (shl_align_pos m e ez (Z.pos p) (- ez) ltac:(lia) He Hm eq_refl) as H1.
    pose proof (shl_align_pos m' e' ez (Z.pos q) (- ez) ltac:(lia) He' Hm' eq_refl) as H2.
    rewrite H1, H2, <-Z.mul_sub_distr_r. destruct (Z.pos p - Z.pos q) as [|d|d] eqn:E; [done| |lia].
    assert (0 < 2 ^ (- ez)) by (apply Z.pow_pos_nonneg; lia).
    destruct (Z.pos d * 2 ^ (- ez)) as [|r|r] eqn:Er; [lia| |lia].
    rewrite <-(Z.opp_involutive ez). apply (num_scale_exact d r (- ez)); lia.
Qed.
