(* ===== verification/JsRegExp.v ===== *)
(** JavaScript regular expressions: the pattern syntax the sources use, parsed
    from the literal as it stands in the source, and the backtracking matcher
    of the language specification, with its correctness against a relational
    semantics.

    Not covered: back-references, lookbehind over more than one class, named
    groups, the [u], [v], [y] and [s] flags; a pattern that uses them does not
    parse. *)

From S2P Require Import Prelude JsString.

(** ** Syntax *)

Inductive citem :=
  | CRange (lo hi : Z)
  | CDigit (neg : bool) | CSpace (neg : bool) | CWord (neg : bool).

Inductive rx :=
  | Eps
  | Cls (neg : bool) (items : list citem)
  | Seq (r1 r2 : rx)
  | Alt (r1 r2 : rx)
  | Rep (r : rx) (min : nat) (max : option nat) (greedy : bool)
  | Grp (n : nat) (r : rx)
  | Bol | Eol
  | WordB (neg : bool)
  | Look (neg : bool) (r : rx)
  | Behind (neg : bool) (cneg : bool) (items : list citem).   (* [(?<=[..])] and [(?<![..])] *)

(** A compiled [RegExp]: the pattern with its [i] and [m] flags. *)
Record regexp := RegExp { rx_body : rx; rx_icase : bool; rx_multi : bool }.

(** ** Parsing a pattern *)

Definition is_word (c : Z) : bool := is_alnum c || (c =? 95).
Definition is_line_end (c : Z) : bool :=
  (c =? 10) || (c =? 13) || (c =? 8232) || (c =? 8233).

(** [.]: everything but a line terminator. *)
Definition dot : rx :=
  Cls true [CRange 10 10; CRange 13 13; CRange 8232 8233].

Definition hex_val (c : Z) : option Z :=
  if is_digit c then Some (c - 48)
  else if (97 <=? c) && (c <=? 102) then Some (c - 87)
  else if (65 <=? c) && (c <=? 70) then Some (c - 55) else None.

(** After a backslash: a class or a unit, and the rest of the pattern. *)
Definition parse_escape (s : jsstr) : option (citem * jsstr) :=
  match s with
  | [] => None
  | c :: s' =>
      if c =? cu "d" then Some (CDigit false, s') else
      if c =? cu "D" then Some (CDigit true, s') else
      if c =? cu "s" then Some (CSpace false, s') else
      if c =? cu "S" then Some (CSpace true, s') else
      if c =? cu "w" then Some (CWord false, s') else
      if c =? cu "W" then Some (CWord true, s') else
      if c =? cu "n" then Some (CRange 10 10, s') else
      if c =? cu "r" then Some (CRange 13 13, s') else
      if c =? cu "t" then Some (CRange 9 9, s') else
      if c =? cu "v" then Some (CRange 11 11, s') else
      if c =? cu "f" then Some (CRange 12 12, s') else
      if c =? cu "x" then
        match s' with
        | h :: l :: s'' =>
            match hex_val h, hex_val l with
            | Some a, Some b => Some (CRange (a * 16 + b) (a * 16 + b), s'')
            | _, _ => Some (CRange c c, s')
            end
        | _ => Some (CRange c c, s')
        end else
      if is_digit c || (c =? cu "k") || (c =? cu "c") || (c =? cu "u") then None
      else Some (CRange c c, s')
  end.

(** The inside of a character class, up to the closing bracket. *)
Fixpoint parse_class (fuel : nat) (s : jsstr) : option (list citem * jsstr) :=
  match fuel with
  | O => None
  | S fuel =>
    let atom s : option (citem * jsstr) :=
      match s with
      | [] => None
      | 92 :: s' => parse_escape s'
      | c :: s' => Some (CRange c c, s')
      end in
    match s with
    | [] => None
    | 93 :: s' => Some ([], s')
    | _ =>
      match atom s with
      | None => None
      | Some (CRange a a', 45 :: s1) =>
          match s1 with
          | 93 :: s2 => Some ([CRange a a'; CRange 45 45], s2)
          | _ =>
            match atom s1 with
            | Some (CRange b _, s2) =>
                if b <? a then None else
                match parse_class fuel s2 with
                | Some (l, s3) => Some (CRange a b :: l, s3) | None => None
                end
            | Some (it, s2) =>
                match parse_class fuel s2 with
                | Some (l, s3) => Some (CRange a a' :: CRange 45 45 :: it :: l, s3) | None => None
                end
            | None => None
            end
          end
      | Some (it, s1) =>
          match parse_class fuel s1 with
          | Some (l, s2) => Some (it :: l, s2) | None => None
          end
      end
    end
  end.

Definition parse_nat (s : jsstr) : option (nat * jsstr) :=
  let d := take_while is_digit s in
  if nonempty d then Some (Z.to_nat (digits_value d), drop_while is_digit s) else None.

(** [{n}], [{n,}] or [{n,m}], after the opening brace. *)
Definition parse_braces (s : jsstr) : option (nat * option nat * jsstr) :=
  match parse_nat s with
  | Some (n, 125 :: s') => Some (n, Some n, s')
  | Some (n, 44 :: 125 :: s') => Some (n, None, s')
  | Some (n, 44 :: s') =>
      match parse_nat s' with
      | Some (m, 125 :: s'') => Some (n, Some m, s'')
      | _ => None
      end
  | _ => None
  end.

Definition parse_quant (r : rx) (s : jsstr) : rx * jsstr :=
  let lazy '(mn, mx) s :=
    match s with
    | 63 :: s' => (Rep r mn mx false, s')
    | _ => (Rep r mn mx true, s)
    end in
  match s with
  | 42 :: s' => lazy (O, None) s'
  | 43 :: s' => lazy (1%nat, None) s'
  | 63 :: s' => lazy (O, Some 1%nat) s'
  | 123 :: s' =>
      match parse_braces s' with
      | Some (mn, mx, s'') => lazy (mn, mx) s''
      | None => (r, s)
      end
  | _ => (r, s)
  end.

Definition is_quant_start (s : jsstr) : bool :=
  match s with
  | 42 :: _ | 43 :: _ | 63 :: _ => true
  | 123 :: s' => bool_decide (is_Some (parse_braces s'))
  | _ => false
  end.

(** Alternatives and terms; [n] is the number of groups opened so far. *)
Fixpoint parse_alt (fuel : nat) (n : nat) (s : jsstr) {struct fuel} : option (rx * nat * jsstr) :=
  match fuel with
  | O => None
  | S fuel =>
    match parse_seq fuel n s with
    | Some (r, n, 124 :: s') =>
        match parse_alt fuel n s' with
        | Some (r', n', s'') => Some (Alt r r', n', s'')
        | None => None
        end
    | res => res
    end
  end
with parse_seq (fuel : nat) (n : nat) (s : jsstr) {struct fuel} : option (rx * nat * jsstr) :=
  match fuel with
  | O => None
  | S fuel =>
    let continue (r : rx) (n : nat) (s : jsstr) :=
      match parse_seq fuel n s with
      | Some (Eps, n', s') => Some (r, n', s')
      | Some (r', n', s') => Some (Seq r r', n', s')
      | None => None
      end in
    let quantified (r : rx) (n : nat) (s : jsstr) :=
      let '(r, s) := parse_quant r s in
      if is_quant_start s then None else continue r n s in
    let group (mk : rx → rx) (n : nat) (s : jsstr) :=
      match parse_alt fuel n s with
      | Some (r, n', 41 :: s') => quantified (mk r) n' s'
      | _ => None
      end in
    if is_quant_start s then None else
    match s with
    | [] | 41 :: _ | 124 :: _ => Some (Eps, n, s)
    | 94 :: s' => continue Bol n s'
    | 36 :: s' => continue Eol n s'
    | 40 :: 63 :: 58 :: s' => group id n s'
    | 40 :: 63 :: 61 :: s' => group (Look false) n s'
    | 40 :: 63 :: 33 :: s' => group (Look true) n s'
    | 40 :: 63 :: 60 :: sign :: 91 :: s' =>
        let behind (cneg : bool) (s' : jsstr) :=
          match parse_class (S (length s')) s' with
          | Some (l, 41 :: s'') => continue (Behind (sign =? 33) cneg l) n s''
          | _ => None
          end in
        if (sign =? 33) || (sign =? 61) then
          match s' with 94 :: s' => behind true s' | _ => behind false s' end
        else None
    | 40 :: 63 :: _ => None
    | 40 :: s' => group (Grp (S n)) (S n) s'
    | 46 :: s' => quantified dot n s'
    | 91 :: 94 :: s' =>
        match parse_class (S (length s')) s' with
        | Some (l, s'') => quantified (Cls true l) n s''
        | None => None
        end
    | 91 :: s' =>
        match parse_class (S (length s')) s' with
        | Some (l, s'') => quantified (Cls false l) n s''
        | None => None
        end
    | 92 :: 98 :: s' => continue (WordB false) n s'
    | 92 :: 66 :: s' => continue (WordB true) n s'
    | 92 :: s' =>
        match parse_escape s' with
        | Some (it, s'') => quantified (Cls false [it]) n s''
        | None => None
        end
    | c :: s' => quantified (Cls false [CRange c c]) n s'
    end
  end.

(** [new RegExp(pattern, flags)], [None] for a SyntaxError. *)
Definition mk_regexp (pattern : jsstr) (icase multi : bool) : option regexp :=
  match parse_alt (2 * length pattern + 2) 0 pattern with
  | Some (r, _, []) => Some (RegExp r icase multi)
  | _ => None
  end.

(** A pattern literal that is known to parse. *)
Definition fail_rx : rx := Cls false [].
Definition lit (pattern : string) (icase : bool) : regexp :=
  default (RegExp fail_rx icase false) (mk_regexp (js pattern) icase false).

(** ** Matching *)

Record mstate := MState {
  m_rest : jsstr;                         (* input left *)
  m_pos : nat;                            (* index *)
  m_prev : option Z;                      (* unit before the index *)
  m_caps : list (nat * (nat * nat));      (* captures, latest first *)
}.

Definition advance (c : Z) (rest : jsstr) (st : mstate) : mstate :=
  MState rest (S (m_pos st)) (Some c) (m_caps st).
Definition set_cap (n : nat) (i j : nat) (st : mstate) : mstate :=
  MState (m_rest st) (m_pos st) (m_prev st) ((n, (i, j)) :: m_caps st).
Definition with_caps (caps : list (nat * (nat * nat))) (st : mstate) : mstate :=
  MState (m_rest st) (m_pos st) (m_prev st) caps.

Fixpoint groups (r : rx) : list nat :=
  match r with
  | Eps | Cls _ _ | Bol | Eol | WordB _ | Behind _ _ _ => []
  | Seq r1 r2 | Alt r1 r2 => groups r1 ++ groups r2
  | Rep r _ _ _ | Look _ r => groups r
  | Grp n r => n :: groups r
  end.
(** Each iteration of a quantifier forgets the captures inside it. *)
Definition reset_caps (r : rx) (st : mstate) : mstate :=
  match groups r with
  | [] => st
  | gs => with_caps (filterb (λ c, bool_decide (fst c ∉ gs)) (m_caps st)) st
  end.

Section Matcher.
Variables (icase multi : bool).

Definition item_has (it : citem) (c : Z) : bool :=
  match it with
  | CRange lo hi => (lo <=? c) && (c <=? hi)
  | CDigit neg => xorb neg (is_digit c)
  | CSpace neg => xorb neg (is_ws c)
  | CWord neg => xorb neg (is_word c)
  end.
Definition upper_unit (c : Z) : Z :=
  if is_lower c || ((224 <=? c) && (c <=? 254) && negb (c =? 247)) then c - 32 else c.
Definition items_have (items : list citem) (c : Z) : bool :=
  existsb (λ it, item_has it c) items
  || icase && (existsb (λ it, item_has it (lower_unit c)) items
               || existsb (λ it, item_has it (upper_unit c)) items).
Definition cls_has (neg : bool) (items : list citem) (c : Z) : bool :=
  xorb neg (items_have items c).

Definition at_bol (st : mstate) : bool :=
  match m_prev st with None => true | Some c => multi && is_line_end c end.
Definition at_eol (st : mstate) : bool :=
  match m_rest st with [] => true | c :: _ => multi && is_line_end c end.
Definition at_wordb (st : mstate) : bool :=
  xorb (match m_prev st with Some c => is_word c | None => false end)
       (match m_rest st with c :: _ => is_word c | [] => false end).
Definition after_class (cneg : bool) (items : list citem) (st : mstate) : bool :=
  match m_prev st with Some c => cls_has cneg items c | None => false end.

Definition dec_max (mx : option nat) : option nat := pred <$> mx.

(** [run r st k]: match [r] at [st], then [k]; the first success wins. *)
Fixpoint run {X : Type} (r : rx) (st : mstate) (k : mstate → option X) {struct r} : option X :=
  match r with
  | Eps => k st
  | Cls neg items =>
      match m_rest st with
      | c :: rest => if cls_has neg items c then k (advance c rest st) else None
      | [] => None
      end
  | Seq r1 r2 => run r1 st (λ st', run r2 st' k)
  | Alt r1 r2 =>
      match run r1 st k with Some x => Some x | None => run r2 st k end
  | Grp n r => run r st (λ st', k (set_cap n (m_pos st) (m_pos st') st'))
  | Bol => if at_bol st then k st else None
  | Eol => if at_eol st then k st else None
  | WordB neg => if xorb neg (at_wordb st) then k st else None
  | Look neg r =>
      match run r st Some with
      | Some st' => if neg then None else k (with_caps (m_caps st') st)
      | None => if neg then k st else None
      end
  | Behind neg cneg items => if xorb neg (after_class cneg items st) then k st else None
  | Rep r mn mx greedy =>
      (fix loop (fuel : nat) (mn : nat) (mx : option nat) (st : mstate) {struct fuel} : option X :=
         match fuel with
         | O => None
         | S fuel =>
           match mx with
           | Some O => k st
           | _ =>
             let once :=
               run r (reset_caps r st) (λ st',
                 if bool_decide (mn = O) && bool_decide (m_pos st' = m_pos st) then None
                 else loop fuel (pred mn) (dec_max mx) st') in
             if bool_decide (mn ≠ O) then once
             else if greedy then
               match once with Some x => Some x | None => k st end
             else
               match k st with Some x => Some x | None => once end
           end
         end) (S (length (m_rest st) + mn)) mn mx st
  end.
End Matcher.

(** ** [exec], [test], [replace], [match] *)

Record rmatch := RMatch { rm_start : nat; rm_end : nat; rm_caps : list (nat * (nat * nat)) }.

Definition match_here (re : regexp) (st : mstate) : option rmatch :=
  run (rx_icase re) (rx_multi re) (rx_body re) st
    (λ st', Some (RMatch (m_pos st) (m_pos st') (m_caps st'))).

(** Try every index from the current one on. *)
Fixpoint scan (re : regexp) (rest : jsstr) (pos : nat) (prev : option Z) : option rmatch :=
  match match_here re (MState rest pos prev []) with
  | Some m => Some m
  | None => match rest with
            | [] => None
            | c :: rest' => scan re rest' (S pos) (Some c)
            end
  end.

Definition exec (re : regexp) (s : jsstr) : option rmatch := scan re s 0 None.
Definition test (re : regexp) (s : jsstr) : bool := bool_decide (is_Some (exec re s)).

(** [match[0]] and [match[n]]. *)
Definition matched (s : jsstr) (m : rmatch) : jsstr := slice (rm_start m) (rm_end m) s.
Definition group (n : nat) (s : jsstr) (m : rmatch) : option jsstr :=
  match findb (λ c, bool_decide (fst c = n)) (rm_caps m) with
  | Some (_, (i, j)) => Some (slice i j s)
  | None => None
  end.
(** [match[n] || '']. *)
Definition group_or (n : nat) (s : jsstr) (m : rmatch) : jsstr := default [] (group n s m).

(** All the matches of a global pattern, in order; an empty match moves on by one. *)
Fixpoint scan_all (fuel : nat) (re : regexp) (rest : jsstr) (pos : nat) (prev : option Z)
    : list rmatch :=
  match fuel with
  | O => []
  | S fuel =>
    match scan re rest pos prev with
    | None => []
    | Some m =>
        let k := (rm_end m - pos)%nat in
        let k := if bool_decide (rm_end m = rm_start m) then S k else k in
        if bool_decide (length rest < k)%nat then [m]
        else m :: scan_all fuel re (drop k rest) (pos + k) (last (take k rest))
    end
  end.
Definition exec_all (re : regexp) (s : jsstr) : list rmatch :=
  scan_all (S (length s)) re s 0 None.

(** [s.replace(re, f)] and, for a global pattern, every match. *)
Definition replace_first (re : regexp) (f : rmatch → jsstr) (s : jsstr) : jsstr :=
  match exec re s with
  | Some m => slice 0 (rm_start m) s ++ f m ++ slice_from (rm_end m) s
  | None => s
  end.
Fixpoint splice (s : jsstr) (from : nat) (ms : list rmatch) (f : rmatch → jsstr) : jsstr :=
  match ms with
  | [] => slice_from from s
  | m :: ms => slice from (rm_start m) s ++ f m ++ splice s (rm_end m) ms f
  end.
Definition replace_all (re : regexp) (f : rmatch → jsstr) (s : jsstr) : jsstr :=
  splice s 0 (exec_all re s) f.

(** The [$1], [$&] and [$$] patterns of a replacement string. *)
Fixpoint expand (fuel : nat) (tpl : jsstr) (s : jsstr) (ngroups : nat) (m : rmatch) : jsstr :=
  match fuel with
  | O => []
  | S fuel =>
    match tpl with
    | 36 :: 36 :: t => 36 :: expand fuel t s ngroups m
    | 36 :: 38 :: t => matched s m ++ expand fuel t s ngroups m
    | 36 :: 96 :: t => slice 0 (rm_start m) s ++ expand fuel t s ngroups m
    | 36 :: 39 :: t => slice_from (rm_end m) s ++ expand fuel t s ngroups m
    | 36 :: d :: t =>
        if is_digit d then
          let two := match t with
                     | e :: t' => if is_digit e
                         then Some (Z.to_nat ((d - 48) * 10 + (e - 48)), t') else None
                     | [] => None end in
          match two with
          | Some (n, t') =>
              if bool_decide (1 ≤ n ≤ ngroups)%nat then group_or n s m ++ expand fuel t' s ngroups m
              else let n := Z.to_nat (d - 48) in
                   if bool_decide (1 ≤ n ≤ ngroups)%nat then group_or n s m ++ expand fuel t s ngroups m
                   else 36 :: d :: expand fuel t s ngroups m
          | None =>
              let n := Z.to_nat (d - 48) in
              if bool_decide (1 ≤ n ≤ ngroups)%nat then group_or n s m ++ expand fuel t s ngroups m
              else 36 :: d :: expand fuel t s ngroups m
          end
        else 36 :: expand fuel (d :: t) s ngroups m
    | c :: t => c :: expand fuel t s ngroups m
    | [] => []
    end
  end.
Definition replace_template (tpl : jsstr) (re : regexp) (s : jsstr) (m : rmatch) : jsstr :=
  expand (S (length tpl)) tpl s (length (groups (rx_body re))) m.

(** ** Relational semantics, and the matcher's correctness *)

Section Semantics.
Variables (icase multi : bool).

(** Repetition of a body relation: between [mn] and [mx] times, an optional
    iteration having to consume something. *)
Inductive rep_den (body : mstate → mstate → Prop) (reset : mstate → mstate) :
    nat → option nat → mstate → mstate → Prop :=
  | rep_stop mn mx st :
      mx = Some O ∨ mn = O → rep_den body reset mn mx st st
  | rep_more mn mx st st1 st2 :
      mx ≠ Some O → body (reset st) st1 → (mn = O → m_pos st1 ≠ m_pos st) →
      rep_den body reset (pred mn) (dec_max mx) st1 st2 →
      rep_den body reset mn mx st st2.

Fixpoint den (r : rx) (st st' : mstate) {struct r} : Prop :=
  match r with
  | Eps => st' = st
  | Cls neg items =>
      ∃ c rest, m_rest st = c :: rest ∧ cls_has icase neg items c = true
                ∧ st' = advance c rest st
  | Seq r1 r2 => ∃ st1, den r1 st st1 ∧ den r2 st1 st'
  | Alt r1 r2 => den r1 st st' ∨ den r2 st st'
  | Rep r mn mx _ => rep_den (den r) (reset_caps r) mn mx st st'
  | Grp n r => ∃ st1, den r st st1 ∧ st' = set_cap n (m_pos st) (m_pos st1) st1
  | Bol => st' = st ∧ at_bol multi st = true
  | Eol => st' = st ∧ at_eol multi st = true
  | WordB neg => st' = st ∧ xorb neg (at_wordb st) = true
  | Look neg r =>
      if neg then st' = st ∧ ¬ ∃ st1, den r st st1
      else ∃ st1, den r st st1 ∧ st' = with_caps (m_caps st1) st
  | Behind neg cneg items => st' = st ∧ xorb neg (after_class icase cneg items st) = true
  end.

(** Lookaheads without groups, as in every pattern of the sources. *)
Fixpoint rx_ok (r : rx) : bool :=
  match r with
  | Eps | Cls _ _ | Bol | Eol | WordB _ | Behind _ _ _ => true
  | Seq r1 r2 | Alt r1 r2 => rx_ok r1 && rx_ok r2
  | Rep r _ _ _ | Grp _ r => rx_ok r
  | Look _ r => rx_ok r && bool_decide (groups r = [])
  end.

Definition moves (st st' : mstate) : Prop :=
  (m_pos st ≤ m_pos st')%nat ∧
  (length (m_rest st') + m_pos st' = length (m_rest st) + m_pos st)%nat.

Lemma reset_caps_moves r st st' : moves (reset_caps r st) st' ↔ moves st st'.
Proof. unfold reset_caps, moves. by destruct (groups r). Qed.
Lemma reset_caps_pos r st : m_pos (reset_caps r st) = m_pos st.
Proof. unfold reset_caps. by destruct (groups r). Qed.

Lemma den_moves r st st' : den r st st' → moves st st'.
Proof.
  revert st st'.
  induction r as [|neg items|r1 IH1 r2 IH2|r1 IH1 r2 IH2|r IH mn mx g|n r IH| | |neg|neg r IH|neg cneg items];
    intros st st'; cbn [den].
  - intros ->. split; lia.
  - intros (c & rest & Hr & _ & ->). unfold moves. simpl. rewrite Hr. simpl. lia.
  - intros (st1 & H1%IH1 & H2%IH2). unfold moves in *. lia.
  - intros [H%IH1|H%IH2]; done.
  - intros H. induction H as [mn mx st _|mn mx st st1 st2 _ Hb _ _ IHr].
    + split; lia.
    + apply IH, reset_caps_moves in Hb. unfold moves in *. lia.
  - intros (st1 & H1%IH & ->). done.
  - intros [-> _]. split; lia.
  - intros [-> _]. split; lia.
  - intros [-> _]. split; lia.
  - destruct neg; [intros [-> _]; split; lia|].
    intros (st1 & _ & ->). unfold moves. simpl. lia.
  - intros [-> _]. split; lia.
Qed.

Lemma den_no_groups r st st' : groups r = [] → den r st st' → m_caps st' = m_caps st.
Proof.
  revert st st'.
  induction r as [|neg items|r1 IH1 r2 IH2|r1 IH1 r2 IH2|r IH mn mx g|n r IH| | |neg|neg r IH|neg cneg items];
    intros st st' Hg; cbn [den groups] in *.
  - by intros ->.
  - by intros (c & rest & _ & _ & ->).
  - apply app_nil in Hg as [Hg1 Hg2]. intros (st1 & H1 & H2).
    rewrite (IH2 st1), (IH1 st); done.
  - apply app_nil in Hg as [Hg1 Hg2]. intros [H|H]; eauto.
  - intros H. induction H as [|mn mx st st1 st2 _ Hb _ _ IHr]; [done|].
    rewrite IHr. apply IH in Hb; [|done]. rewrite Hb. unfold reset_caps. by rewrite Hg.
  - done.
  - by intros [-> _].
  - by intros [-> _].
  - by intros [-> _].
  - destruct neg; [by intros [-> _]|]. intros (st1 & H1 & ->). simpl. eauto.
  - by intros [-> _].
Qed.

(** The matcher's quantifier loop, named. *)
Definition rep_loop {X} (r : rx) (greedy : bool) (k : mstate → option X) :=
  fix loop (fuel : nat) (mn : nat) (mx : option nat) (st : mstate) {struct fuel} : option X :=
    match fuel with
    | O => None
    | S fuel =>
      match mx with
      | Some O => k st
      | _ =>
        let once :=
          run icase multi r (reset_caps r st) (λ st',
            if bool_decide (mn = O) && bool_decide (m_pos st' = m_pos st) then None
            else loop fuel (pred mn) (dec_max mx) st') in
        if bool_decide (mn ≠ O) then once
        else if greedy then
          match once with Some x => Some x | None => k st end
        else
          match k st with Some x => Some x | None => once end
      end
    end.

Definition sound_at {X} (r : rx) (st : mstate) (k : mstate → option X) : Prop :=
  ∀ x, run icase multi r st k = Some x → ∃ st', den r st st' ∧ k st' = Some x.
Definition complete_at {X} (r : rx) (st : mstate) (k : mstate → option X) : Prop :=
  ∀ st', den r st st' → is_Some (k st') → is_Some (run icase multi r st k).

Lemma rep_loop_sound {X} r greedy (k : mstate → option X) :
  (∀ st (k : mstate → option X), sound_at r st k) →
  ∀ fuel mn mx st x, rep_loop r greedy k fuel mn mx st = Some x →
    ∃ st', rep_den (den r) (reset_caps r) mn mx st st' ∧ k st' = Some x.
Proof.
  intros Hr. induction fuel as [|fuel IH]; intros mn mx st x; [done|].
  cbn [rep_loop]. fold (rep_loop r greedy k).
  set (once := run icase multi r (reset_caps r st) _).
  assert (mx ≠ Some O → once = Some x →
    ∃ st', rep_den (den r) (reset_caps r) mn mx st st' ∧ k st' = Some x) as Honce.
  { intros Hmx Ho. apply Hr in Ho as (st1 & Hd & Ho).
    destruct (bool_decide (mn = O) && bool_decide (m_pos st1 = m_pos st)) eqn:Hg; [done|].
    apply IH in Ho as (st2 & Hd2 & Hk). exists st2. split; [|done].
    eapply rep_more; [done|done| |done].
    intros ->. rewrite bool_decide_true in Hg by done. by apply bool_decide_eq_false in Hg. }
  assert (mx = Some O ∨ mn = O → k st = Some x →
    ∃ st', rep_den (den r) (reset_caps r) mn mx st st' ∧ k st' = Some x) as Hstop.
  { intros Hm Hk. exists st. split; [by constructor|done]. }
  destruct mx as [[|m]|].
  - intros ?. apply Hstop; auto.
  - destruct (decide (mn = O)) as [Hmn|Hmn]; [rewrite bool_decide_false by auto|rewrite bool_decide_true by done; intros; by apply Honce].
    destruct greedy.
    + destruct once as [y|]; intros; simplify_eq; [by apply Honce|apply Hstop; auto].
    + destruct (k st) as [y|]; intros; simplify_eq; [apply Hstop; auto|by apply Honce].
  - destruct (decide (mn = O)) as [Hmn|Hmn]; [rewrite bool_decide_false by auto|rewrite bool_decide_true by done; intros; by apply Honce].
    destruct greedy.
    + destruct once as [y|]; intros; simplify_eq; [by apply Honce|apply Hstop; auto].
    + destruct (k st) as [y|]; intros; simplify_eq; [apply Hstop; auto|by apply Honce].
Qed.

(** Enough fuel: the input left plus the iterations still required. *)
Lemma rep_loop_complete {X} r greedy (k : mstate → option X) :
  (∀ st (k : mstate → option X), complete_at r st k) →
  ∀ mn mx st st', rep_den (den r) (reset_caps r) mn mx st st' → is_Some (k st') →
  ∀ fuel, (length (m_rest st) + mn < fuel)%nat →
    is_Some (rep_loop r greedy k fuel mn mx st).
Proof.
  intros Hr mn mx st st' Hrep Hk.
  induction Hrep as [mn mx st Hm|mn mx st st1 st2 Hmx Hb Hne Hrep IH]; intros [|fuel] Hf;
    [lia| |lia|]; cbn [rep_loop]; fold (rep_loop r greedy k).
  - destruct Hm as [->| ->]; [done|].
    destruct Hk as [y Hy].
    destruct mx as [[|m]|]; rewrite Hy; [eauto| |]; rewrite bool_decide_false by auto;
      (destruct greedy; [case_match|]; eauto).
  - set (once := run icase multi r (reset_caps r st) _).
    assert (is_Some once) as [y Hy].
    { apply (Hr _ _ st1); [done|].
      rewrite (proj2 (andb_false_iff _ _)).
      2:{ destruct (decide (mn = O)); [right|left]; apply bool_decide_eq_false; auto. }
      apply IH; [done|]. apply den_moves, reset_caps_moves in Hb. unfold moves in Hb.
      destruct (decide (mn = O)) as [->|]; [|lia]. specialize (Hne eq_refl). simpl. lia. }
    rewrite Hy. destruct mx as [[|m]|]; [done| |];
      (case_bool_decide; [eauto|destruct greedy; repeat case_match; eauto]).
Qed.

Lemma run_rep {X} r mn mx g st (k : mstate → option X) :
  run icase multi (Rep r mn mx g) st k
  = rep_loop r g k (S (length (m_rest st) + mn)) mn mx st.
Proof. done. Qed.

Lemma run_correct r :
  rx_ok r = true → ∀ X st (k : mstate → option X), sound_at r st k ∧ complete_at r st k.
Proof.
  induction r as [|neg items|r1 IH1 r2 IH2|r1 IH1 r2 IH2|r IH mn mx g|n r IH| | |neg|neg r IH|neg cneg items];
    cbn [rx_ok]; intros Hok X st k; unfold sound_at, complete_at;
    [| | | |rewrite run_rep| | | | | |]; cbn [run den].
  - split; [eauto|]. by intros ? ->.
  - split.
    + intros x. destruct (m_rest st) as [|c rest] eqn:Hr; [done|].
      destruct (cls_has icase neg items c) eqn:Hc; [|done]. eauto 10.
    + intros st' (c & rest & -> & -> & ->). done.
  - apply andb_true_iff in Hok as [H1 H2]. split.
    + intros x Hx. apply IH1 in Hx as (st1 & Hd1 & Hx); [|done].
      apply IH2 in Hx as (st2 & Hd2 & Hx); [|done]. eauto.
    + intros st' (st1 & Hd1 & Hd2) Hk. eapply IH1; [done|done|]. by eapply IH2.
  - apply andb_true_iff in Hok as [H1 H2]. split.
    + intros x. destruct (run icase multi r1 st k) as [y|] eqn:Hy; intros Hx; simplify_eq.
      * apply IH1 in Hy as (st1 & Hd & Hk); [|done]. eauto.
      * apply IH2 in Hx as (st1 & Hd & Hk); [|done]. eauto.
    + intros st' [Hd|Hd] Hk.
      * destruct (proj2 (IH1 H1 _ st k) st' Hd Hk) as [y ->]. eauto.
      * destruct (run icase multi r1 st k); [eauto|]. by eapply IH2.
  - split.
    + intros x Hx. eapply (rep_loop_sound r g k) in Hx; [done|]. intros. by apply IH.
    + intros st' Hd Hk. eapply (rep_loop_complete r g k); [|done|done|lia].
      intros. by apply IH.
  - split.
    + intros x Hx. apply IH in Hx as (st1 & Hd & Hx); [|done]. eauto.
    + intros st' (st1 & Hd & ->) Hk. by eapply IH.
  - split; [|by intros ? [-> ->]].
    intros x. destruct (at_bol multi st); [|done]. eauto.
  - split; [|by intros ? [-> ->]].
    intros x. destruct (at_eol multi st); [|done]. eauto.
  - split; [|by intros ? [-> ->]].
    intros x. destruct (xorb neg (at_wordb st)); [|done]. eauto.
  - apply andb_true_iff in Hok as [Hok Hg]. apply bool_decide_eq_true in Hg.
    destruct (IH Hok mstate st Some) as [Hs Hc].
    destruct (run icase multi r st Some) as [st1|] eqn:Hrun.
    + destruct (Hs st1 Hrun) as (st1' & Hd & [= ->]). destruct neg.
      * split; [done|]. intros st' [_ Hn] _. destruct Hn. eauto.
      * split; [eauto|]. intros st' (st2 & Hd2 & ->) Hk.
        by rewrite (den_no_groups _ _ _ Hg Hd), <-(den_no_groups _ _ _ Hg Hd2).
    + assert (¬ ∃ st1, den r st st1) as Hno.
      { intros [st1 Hd]. destruct (Hc st1 Hd) as [? ?]; [eauto|]. congruence. }
      destruct neg; (split; [|]).
      * intros x Hk. exists st. done.
      * intros st' [-> _]. done.
      * done.
      * intros st' (st1 & Hd & _). destruct Hno. eauto.
  - split; [|by intros ? [-> ->]].
    intros x. destruct (xorb neg (after_class icase cneg items st)); [|done]. eauto.
Qed.

Lemma run_iff r X st (k : mstate → option X) :
  rx_ok r = true →
  is_Some (run icase multi r st k) ↔ ∃ st', den r st st' ∧ is_Some (k st').
Proof.
  intros Hok. destruct (run_correct r Hok X st k) as [Hs Hc]. split.
  - intros [x Hx]. destruct (Hs x Hx) as (st' & Hd & Hk). eauto.
  - intros (st' & Hd & Hk). eauto.
Qed.
End Semantics.

(** [re.test(s)] is: some index of [s] starts a match. *)
Definition matches_at (re : regexp) (s : jsstr) (i : nat) : Prop :=
  ∃ st', den (rx_icase re) (rx_multi re) (rx_body re)
             (MState (drop i s) i (if i is S j then s !! j else None) []) st'.

Lemma match_here_iff re st :
  rx_ok (rx_body re) = true →
  is_Some (match_here re st) ↔ ∃ st', den (rx_icase re) (rx_multi re) (rx_body re) st st'.
Proof. intros Hok. unfold match_here. rewrite run_iff by done. naive_solver. Qed.

Lemma scan_iff re pre rest prev :
  rx_ok (rx_body re) = true →
  prev = (if length pre is S j then pre !! j else None) →
  is_Some (scan re rest (length pre) prev) ↔
  ∃ i, (length pre ≤ i ≤ length pre + length rest)%nat ∧ matches_at re (pre ++ rest) i.
Proof.
  intros Hok. revert pre prev. induction rest as [|c rest IH]; intros pre prev Hprev; cbn [scan].
  - pose proof (match_here_iff re (MState [] (length pre) prev []) Hok) as Hm.
    assert ((∃ i, (length pre ≤ i ≤ length pre + 0)%nat ∧ matches_at re (pre ++ []) i)
      ↔ matches_at re pre (length pre)) as ->.
    { rewrite app_nil_r. split; [|intros; exists (length pre); split; [lia|done]].
      intros (i & Hi & H). by replace (length pre) with i by lia. }
    unfold matches_at. rewrite drop_all, <-Hprev, <-Hm.
    by destruct (match_here re _).
  - pose proof (match_here_iff re (MState (c :: rest) (length pre) prev []) Hok) as Hm.
    assert (is_Some (match_here re (MState (c :: rest) (length pre) prev []))
            ↔ matches_at re (pre ++ c :: rest) (length pre)) as Hhere.
    { rewrite Hm. unfold matches_at. rewrite drop_app_length.
      enough (prev = (if length pre is S j then (pre ++ c :: rest) !! j else None)) as <- by done.
      rewrite Hprev. destruct (length pre) as [|j] eqn:Hl; [done|].
      by rewrite lookup_app_l by lia. }
    destruct (match_here re _) as [m|] eqn:Hmh.
    + split; [|eauto]. intros _. exists (length pre). split; [simpl; lia|]. by apply Hhere.
    + replace (S (length pre)) with (length (pre ++ [c])) by (rewrite length_app; simpl; lia).
      rewrite IH.
      2:{ rewrite length_app. replace (length pre + length [c])%nat with (S (length pre)) by (simpl; lia).
          rewrite lookup_app_r by lia. by rewrite Nat.sub_diag. }
      rewrite <-(assoc_L (++)). simpl. rewrite length_app. simpl.
      split; intros (i & Hi & H); exists i; (split; [|done]); [lia|].
      destruct (decide (i = length pre)) as [->|]; [|lia].
      apply Hhere in H as [? ?]. done.
Qed.

Lemma test_iff re s :
  rx_ok (rx_body re) = true →
  test re s = true ↔ ∃ i, (i ≤ length s)%nat ∧ matches_at re s i.
Proof.
  intros Hok. unfold test, exec. rewrite bool_decide_eq_true.
  rewrite (scan_iff re [] s None) by done. simpl.
  split; intros (i & Hi & H); exists i; (split; [lia|exact H]).
Qed.

(** For a pattern anchored at the start, only index 0 counts. *)
Lemma test_anchored re r s :
  rx_body re = Seq Bol r → rx_multi re = false → rx_ok r = true →
  test re s = true ↔ ∃ st', den (rx_icase re) false r (MState s 0 None []) st'.
Proof.
  intros Hb Hm Hok. rewrite test_iff by (by rewrite Hb). unfold matches_at.
  rewrite Hb, Hm. cbn [den]. split.
  - intros (i & Hi & st' & st1 & (-> & Hbol) & Hd).
    destruct i as [|j]; [eauto|]. unfold at_bol in Hbol. simpl in Hbol.
    destruct (s !! j) eqn:Hj; [done|]. apply lookup_ge_None in Hj. lia.
  - intros (st' & Hd). exists 0%nat. split; [lia|]. eauto.
Qed.

(** A repeated class consumes a run of units of the class, and conversely. *)
Definition within (mn : nat) (mx : option nat) (n : nat) : Prop :=
  (mn ≤ n)%nat ∧ match mx with Some m => (n ≤ m)%nat | None => True end.

Definition advance_by (u rest : jsstr) (st : mstate) : mstate :=
  MState rest (m_pos st + length u) (match last u with Some c => Some c | None => m_prev st end)
         (m_caps st).

Lemma advance_by_nil st : advance_by [] (m_rest st) st = st.
Proof. destruct st; unfold advance_by; simpl. f_equal. lia. Qed.

Lemma advance_by_cons c u rest st :
  advance_by (c :: u) rest st = advance_by u rest (advance c (u ++ rest) st).
Proof.
  unfold advance_by, advance. simpl. f_equal; [lia|].
  rewrite last_cons. by destruct (last u).
Qed.

Lemma den_rep_cls icase multi neg items mn mx g st st' :
  match mx with Some m => (mn ≤ m)%nat | None => True end →
  den icase multi (Rep (Cls neg items) mn mx g) st st' ↔
  ∃ u rest, m_rest st = u ++ rest ∧ Forall (λ c, cls_has icase neg items c = true) u
       ∧ within mn mx (length u) ∧ st' = advance_by u rest st.
Proof.
  intros Hw. split.
  - cbn [den]. induction 1 as [mn mx st Hm|mn mx st st1 st2 Hmx Hb _ _ IH].
    + exists [], (m_rest st). rewrite advance_by_nil. repeat split; [done| |].
      * destruct Hm as [->| ->]; simpl; lia.
      * destruct mx; simpl; [lia|done].
    + destruct Hb as (c & rest & Hr & Hc & ->). change (m_rest st = c :: rest) in Hr.
      destruct IH as (u & rest' & Hu & Hall & [Hmn Hmx'] & ->).
      { destruct mx as [[|m]|]; simpl; [done|lia|done]. }
      exists (c :: u), rest'. simpl in Hu. subst rest.
      rewrite Hr, advance_by_cons. repeat split; [by constructor|simpl; lia|].
      destruct mx as [[|m]|]; simpl in *; [done|lia|done].
  - intros (u & rest & Hr & Hall & Hwi & ->). cbn [den].
    revert st mn mx Hr Hw Hwi.
    induction Hall as [|c u Hc Hall IH]; intros st mn mx Hr Hw [Hmn Hmx].
    + simpl in Hr, Hmn. rewrite <-Hr, advance_by_nil. constructor. right. lia.
    + rewrite advance_by_cons. eapply rep_more.
      * intros ->. simpl in Hmx. lia.
      * exists c, (u ++ rest). unfold reset_caps. simpl. done.
      * intros _. simpl. lia.
      * apply IH; [done|destruct mx as [m|]; simpl; [lia|done]|].
        split; [simpl in Hmn; lia|]. destruct mx as [m|]; simpl in *; [lia|done].
Qed.

(** A single class. *)
Lemma den_cls icase multi neg items st st' :
  den icase multi (Cls neg items) st st' ↔
  ∃ c rest, m_rest st = c :: rest ∧ cls_has icase neg items c = true ∧ st' = advance c rest st.
Proof. done. Qed.

(** ** Expressions without groups or assertions denote languages *)

Fixpoint plain_rx (r : rx) : bool :=
  match r with
  | Eps | Cls _ _ => true
  | Seq r1 r2 | Alt r1 r2 => plain_rx r1 && plain_rx r2
  | Rep r mn mx _ =>
      plain_rx r && match mx with Some m => bool_decide (mn ≤ m)%nat | None => true end
  | _ => false
  end.

Fixpoint lang (icase : bool) (r : rx) (u : jsstr) : Prop :=
  match r with
  | Eps => u = []
  | Cls neg items => ∃ c, u = [c] ∧ cls_has icase neg items c = true
  | Seq r1 r2 => ∃ u1 u2, u = u1 ++ u2 ∧ lang icase r1 u1 ∧ lang icase r2 u2
  | Alt r1 r2 => lang icase r1 u ∨ lang icase r2 u
  | Rep r mn mx _ => ∃ us, u = concat us ∧ Forall (lang icase r) us ∧ within mn mx (length us)
  | _ => False
  end.

Lemma plain_no_groups r : plain_rx r = true → groups r = [].
Proof.
  induction r; cbn; try done; intros H; apply andb_true_iff in H as [H1 H2]; auto.
  - by rewrite IHr1, IHr2.
  - by rewrite IHr1, IHr2.
Qed.

Lemma plain_rx_ok r : plain_rx r = true → rx_ok r = true.
Proof.
  induction r; cbn; try done; intros H; apply andb_true_iff in H as [H1 H2]; auto.
  - by rewrite IHr1, IHr2.
  - by rewrite IHr1, IHr2.
Qed.

Lemma advance_by_app u v rest st :
  advance_by (u ++ v) rest st = advance_by v rest (advance_by u (v ++ rest) st).
Proof.
  unfold advance_by. simpl. rewrite length_app, last_app. f_equal; [lia|].
  by destruct (last v).
Qed.

(** What a relation on states does, as a language. *)
Definition consumes (body : mstate → mstate → Prop) (L : jsstr → Prop) : Prop :=
  ∀ st st', body st st' ↔ ∃ u rest, m_rest st = u ++ rest ∧ L u ∧ st' = advance_by u rest st.

Lemma rep_consumes body L mn mx :
  match mx with Some m => (mn ≤ m)%nat | None => True end →
  consumes body L →
  consumes (rep_den body id mn mx)
           (λ u, ∃ us, u = concat us ∧ Forall L us ∧ within mn mx (length us)).
Proof.
  intros Hw HL st st'. split.
  - induction 1 as [mn mx st Hm|mn mx st st1 st2 Hmx Hb _ _ IH].
    + exists [], (m_rest st). rewrite advance_by_nil. split; [done|]. split; [|done].
      exists []. split; [done|]. split; [constructor|]. split; cbn.
      * destruct Hm as [->| ->]; lia.
      * destruct mx; lia.
    + apply HL in Hb as (u & rest & Hr & Hu & ->).
      destruct IH as (v & rest' & Hv & (us & -> & Hus & [Hmn Hmx']) & ->).
      { destruct mx as [[|m]|]; simpl; [done|lia|done]. }
      change (rest = concat us ++ rest') in Hv. subst rest.
      exists (u ++ concat us), rest'. rewrite <-(assoc_L (++)), advance_by_app.
      split; [done|]. split; [|done]. exists (u :: us).
      split; [done|]. split; [by constructor|]. split; cbn; [lia|].
      destruct mx as [[|m]|]; simpl in *; [done|lia|done].
  - intros (u & rest & Hr & (us & -> & Hus & [Hmn Hmx]) & ->).
    revert st mn mx Hr Hw Hmn Hmx.
    induction Hus as [|u us Hu Hus IH]; intros st mn mx Hr Hw Hmn Hmx.
    + cbn in *. rewrite <-Hr, advance_by_nil. constructor. right. lia.
    + cbn [concat length] in *. rewrite <-(assoc_L (++)) in Hr.
      assert (match mx with Some m => (length us ≤ m)%nat | None => True end) as Hmx2
        by (destruct mx; [lia|done]).
      destruct (decide (mn = O ∧ u = [])) as [[-> ->]|Hne].
      { apply IH; [done|destruct mx; [lia|done]|lia|done]. }
      rewrite advance_by_app. eapply rep_more with (st1 := advance_by u (concat us ++ rest) st).
      * intros ->. lia.
      * apply HL. by exists u, (concat us ++ rest).
      * intros ->. destruct u; [naive_solver|]. cbn. lia.
      * apply IH; [done| |lia|]; destruct mx as [m|]; simpl in *; lia || done.
Qed.

Lemma den_lang icase multi r :
  plain_rx r = true → consumes (den icase multi r) (lang icase r).
Proof.
  induction r as [|neg items|r1 IH1 r2 IH2|r1 IH1 r2 IH2|r IH mn mx g|n r IH| | |neg|neg r IH|neg cneg items];
    cbn [plain_rx]; try done; intros Hp.
  - intros st st'. cbn. split.
    + intros ->. exists [], (m_rest st). by rewrite advance_by_nil.
    + intros (u & rest & Hr & -> & ->). cbn in Hr. by rewrite <-Hr, advance_by_nil.
  - intros st st'. cbn [den lang]. split.
    + intros (c & rest & Hr & Hc & ->). exists [c], rest.
      split; [done|]. split; [eauto|]. rewrite advance_by_cons.
      symmetry. exact (advance_by_nil (advance c rest st)).
    + intros (u & rest & Hr & (c & -> & Hc) & ->). exists c, rest. split; [done|]. split; [done|].
      rewrite advance_by_cons. exact (advance_by_nil (advance c rest st)).
  - apply andb_true_iff in Hp as [Hp1 Hp2]. intros st st'. cbn [den lang]. split.
    + intros (st1 & Hd1 & Hd2). apply (IH1 Hp1) in Hd1 as (u & rest & Hr & Hu & ->).
      apply (IH2 Hp2) in Hd2 as (v & rest' & Hv & Hlv & ->).
      change (rest = v ++ rest') in Hv. subst rest. exists (u ++ v), rest'.
      rewrite <-(assoc_L (++)), advance_by_app. split; [done|]. split; [eauto|done].
    + intros (w & rest & Hr & (u & v & -> & Hu & Hv) & ->).
      rewrite <-(assoc_L (++)) in Hr. rewrite advance_by_app.
      exists (advance_by u (v ++ rest) st). split; [apply (IH1 Hp1); eauto|].
      apply (IH2 Hp2). by exists v, rest.
  - apply andb_true_iff in Hp as [Hp1 Hp2]. intros st st'. cbn [den lang].
    pose proof (IH1 Hp1 st st') as H1. pose proof (IH2 Hp2 st st') as H2.
    rewrite H1, H2. naive_solver.
  - apply andb_true_iff in Hp as [Hp1 Hp2].
    assert (∀ st, reset_caps r st = st) as Hres
      by (intros; unfold reset_caps; by rewrite (plain_no_groups r Hp1)).
    assert (match mx with Some m => (mn ≤ m)%nat | None => True end) as Hw
      by (destruct mx; [by apply bool_decide_eq_true in Hp2|done]).
    intros st st'. cbn [den lang].
    etrans; [|exact (rep_consumes _ _ mn mx Hw (IH Hp1) st st')].
    clear Hw Hp2. split; (induction 1 as [|mn mx st st1 st2 Hmx Hb Hmv _ IHr]; [by constructor|]);
      (eapply rep_more; [done| |done|done]).
    + by rewrite Hres in Hb.
    + by rewrite Hres.
Qed.

(** A pattern without groups or assertions is found where a text of its
    language stands. *)
Lemma test_plain re s : plain_rx (rx_body re) = true →
  test re s = true ↔ ∃ pre u post, s = pre ++ u ++ post ∧ lang (rx_icase re) (rx_body re) u.
Proof.
  intros Hp. rewrite test_iff by by apply plain_rx_ok. unfold matches_at. split.
  - intros (i & Hi & st' & (u & rest & Hr & Hu & _)%den_lang); [|done]. cbn in Hr.
    exists (take i s), u, rest. by rewrite <-Hr, take_drop.
  - intros (pre & u & post & -> & Hu). exists (length pre). split; [rewrite length_app; lia|].
    rewrite drop_app_length. eexists. apply den_lang; [done|]. by exists u, post.
Qed.

(** The expression before a final [$]. *)
Fixpoint before_eol (r : rx) : option rx :=
  match r with
  | Eol => Some Eps
  | Seq r1 r2 => Seq r1 <$> before_eol r2
  | _ => None
  end.

Lemma den_before_eol icase r r' st :
  before_eol r = Some r' → plain_rx r' = true →
  (∃ st', den icase false r st st') ↔ lang icase r' (m_rest st).
Proof.
  revert r' st. induction r; intros r' st; cbn [before_eol]; try done.
  - intros (r2' & Hr2 & ->)%fmap_Some Hp. cbn [plain_rx] in Hp.
    apply andb_true_iff in Hp as [Hp1 Hp2]. cbn [den lang]. split.
    + intros (st' & st1 & Hd1 & Hd2). apply (den_lang _ _ _ Hp1) in Hd1 as (u & rest & Hr & Hu & ->).
      exists u, rest. split; [done|]. split; [done|].
      by apply (IHr2 r2' (advance_by u rest st) Hr2 Hp2); exists st'.
    + intros (u & rest & Hr & Hu & Hl).
      destruct (proj2 (IHr2 r2' (advance_by u rest st) Hr2 Hp2) Hl) as [st' Hd].
      exists st', (advance_by u rest st). split; [|done].
      apply (den_lang _ _ _ Hp1). by exists u, rest.
  - intros [= <-] _. cbn. unfold at_eol. destruct (m_rest st); naive_solver.
Qed.

(** [/^r$/.test(s)] is membership in the language of [r]. *)
Lemma test_full re r r' s :
  rx_body re = Seq Bol r → rx_multi re = false → rx_ok r = true →
  before_eol r = Some r' → plain_rx r' = true →
  test re s = true ↔ lang (rx_icase re) r' s.
Proof.
  intros Hb Hm Hok Hr Hp. rewrite (test_anchored re r) by done.
  by rewrite (den_before_eol _ r r').
Qed.

(** [/^(?=q)r$/.test(s)], where the lookahead also ends in [$]. *)
Lemma test_full_look re q q' r r' s :
  rx_body re = Seq Bol (Seq (Look false q) r) → rx_multi re = false →
  rx_ok (Seq (Look false q) r) = true →
  before_eol q = Some q' → plain_rx q' = true →
  before_eol r = Some r' → plain_rx r' = true →
  test re s = true ↔ lang (rx_icase re) q' s ∧ lang (rx_icase re) r' s.
Proof.
  intros Hb Hm Hok Hq Hpq Hr Hpr. rewrite (test_anchored re (Seq (Look false q) r)) by done.
  set (st0 := MState s 0 None []).
  assert (∀ caps, (∃ st', den (rx_icase re) false r (with_caps caps st0) st')
                  ↔ lang (rx_icase re) r' s) as Hlr
    by (intros caps; exact (den_before_eol _ r r' (with_caps caps st0) Hr Hpr)).
  rewrite <-(den_before_eol (rx_icase re) q q' st0 Hq Hpq : _ ↔ lang _ q' s).
  cbn [den]. split.
  - intros (st' & st1 & (st2 & Hd & ->) & Hd'). split; [by exists st2|].
    apply (Hlr (m_caps st2)). by exists st'.
  - intros [[st2 Hd] Hl]. apply (Hlr (m_caps st2)) in Hl as [st' Hd'].
    exists st', (with_caps (m_caps st2) st0). split; [|done]. by exists st2.
Qed.

Lemma lang_rep_cls icase neg items mn mx g u :
  lang icase (Rep (Cls neg items) mn mx g) u ↔
  Forall (λ c, cls_has icase neg items c = true) u ∧ within mn mx (length u).
Proof.
  cbn [lang]. split.
  - intros (us & -> & Hus & Hw).
    assert (Forall (λ c, cls_has icase neg items c = true) (concat us) ∧ length (concat us) = length us)
      as [HF ->]; [|done].
    clear Hw. induction Hus as [|u us (c & -> & Hc) _ [IH1 IH2]]; [done|].
    cbn. rewrite IH2. split; [by constructor|done].
  - intros [HF Hw]. exists (map (λ c, [c]) u). rewrite length_map. split; [|split; [|done]].
    + clear. induction u as [|c u IH]; cbn; [done|by rewrite <-IH].
    + clear Hw. induction HF; cbn; [constructor|]. constructor; [eauto|done].
Qed.

(** ** Greedy repetition of a class

    The longest run of units of the class is tried first, then the shorter
    ones, one unit at a time. *)
Section Greedy.
Context (icase multi : bool) {X : Type} (neg : bool) (items : list citem) (k : mstate → option X).
Notation has := (cls_has icase neg items).

Fixpoint backoff (u : jsstr) (st : mstate) : option X :=
  match u with
  | [] => k st
  | c :: u =>
      match backoff u (advance c (drop 1 (m_rest st)) st) with
      | Some x => Some x
      | None => k st
      end
  end.

Lemma loop_backoff fuel st :
  (length (m_rest st) < fuel)%nat →
  rep_loop icase multi (Cls neg items) true k fuel 0 None st = backoff (take_while has (m_rest st)) st.
Proof.
  revert st. induction fuel as [|fuel IH]; intros st Hf; [lia|].
  cbn [rep_loop run reset_caps groups]. fold (rep_loop icase multi (Cls neg items) true k).
  rewrite (bool_decide_false (0%nat ≠ 0%nat)) by auto.
  destruct (m_rest st) as [|c rest] eqn:Hr; [done|]. cbn [take_while]. destruct (has c); [|done].
  cbn [backoff]. rewrite Hr. cbn [drop]. rewrite (bool_decide_false (m_pos _ = _)) by (cbn; lia).
  rewrite andb_false_r, IH by (cbn in *; lia). done.
Qed.

Lemma run_star st :
  run icase multi (Rep (Cls neg items) 0 None true) st k = backoff (take_while has (m_rest st)) st.
Proof. rewrite run_rep. apply loop_backoff. lia. Qed.

Lemma run_plus c rest st :
  m_rest st = c :: rest →
  run icase multi (Rep (Cls neg items) 1 None true) st k
  = if has c then backoff (take_while has rest) (advance c rest st) else None.
Proof.
  intros Hr. rewrite run_rep. rewrite Hr. cbn [rep_loop run reset_caps groups length].
  fold (rep_loop icase multi (Cls neg items) true k). rewrite Hr.
  rewrite (bool_decide_true (1%nat ≠ 0%nat)) by auto. destruct (has c); [|done].
  rewrite (bool_decide_false (1%nat = 0%nat)) by auto. cbn [andb].
  apply (loop_backoff _ (advance c rest st)). cbn. lia.
Qed.

(** The longest run wins when what follows accepts it. *)
Lemma backoff_longest u rest st x :
  m_rest st = u ++ rest → k (advance_by u rest st) = Some x → backoff u st = Some x.
Proof.
  revert st. induction u as [|c u IH]; intros st Hr Hk; cbn [backoff].
  - cbn in Hr. subst rest. by rewrite advance_by_nil in Hk.
  - rewrite Hr. change (drop 1 ((c :: u) ++ rest)) with (u ++ rest). rewrite (IH (advance c (u ++ rest) st)); [done|done|].
    by rewrite <-advance_by_cons.
Qed.
(** Nothing matches when nothing that follows is accepted. *)
Lemma backoff_none u rest st :
  m_rest st = u ++ rest → (∀ v w, u = v ++ w → k (advance_by v (w ++ rest) st) = None) → backoff u st = None.
Proof.
  revert st. induction u as [|c u IH]; intros st Hr Hk; cbn [backoff].
  - cbn in Hr. subst rest. specialize (Hk [] [] eq_refl). cbn [app] in Hk. by rewrite advance_by_nil in Hk.
  - assert (k st = None) as Hst.
    { specialize (Hk [] (c :: u) eq_refl). cbn [app] in Hk, Hr. by rewrite <-Hr, advance_by_nil in Hk. }
    rewrite Hr. change (drop 1 ((c :: u) ++ rest)) with (u ++ rest). rewrite (IH (advance c (u ++ rest) st)); [done|done|].
    intros v w ->. specialize (Hk (c :: v) w eq_refl). by rewrite advance_by_cons, app_assoc in Hk.
Qed.
End Greedy.

(** ** What the matches of a global pattern are *)

(** A property of every unit a pattern can consume. *)
Fixpoint rx_all (icase : bool) (P : Z → Prop) (r : rx) : Prop :=
  match r with
  | Eps | Bol | Eol | WordB _ | Look _ _ | Behind _ _ _ => True
  | Cls neg items => ∀ c, cls_has icase neg items c = true → P c
  | Seq r1 r2 | Alt r1 r2 => rx_all icase P r1 ∧ rx_all icase P r2
  | Rep r _ _ _ | Grp _ r => rx_all icase P r
  end.
Definition consumed (P : Z → Prop) (st st' : mstate) : Prop :=
  ∃ u, m_rest st = u ++ m_rest st' ∧ m_pos st' = (m_pos st + length u)%nat ∧ Forall P u.
Lemma consumed_nil P st st' : m_rest st' = m_rest st → m_pos st' = m_pos st → consumed P st st'.
Proof. intros H1 H2. exists []. rewrite H1, H2. cbn. split_and!; [done|lia|done]. Qed.
Lemma consumed_trans P st1 st2 st3 : consumed P st1 st2 → consumed P st2 st3 → consumed P st1 st3.
Proof.
  intros (u & Hu & Hpu & Fu) (v & Hv & Hpv & Fv). exists (u ++ v). rewrite Hu, Hv, Hpv, Hpu, length_app, <-app_assoc.
  split_and!; [done|lia|by apply Forall_app].
Qed.
Lemma den_consumed icase multi P r st st' : rx_all icase P r → den icase multi r st st' → consumed P st st'.
Proof.
  revert st st'.
  induction r as [|neg items|r1 IH1 r2 IH2|r1 IH1 r2 IH2|r IH mn mx g|n r IH| | |neg|neg r IH|neg cneg items];
    intros st st' Hp; cbn [den rx_all] in *.
  - intros ->. by apply consumed_nil.
  - intros (c & rest & Hr & Hc & ->). exists [c]. rewrite Hr. cbn. split_and!; [done|lia|]. constructor; [by apply Hp|done].
  - destruct Hp as [H1 H2]. intros (st1 & Hd1 & Hd2). eapply consumed_trans; eauto.
  - destruct Hp as [H1 H2]. intros [Hd|Hd]; eauto.
  - intros H. induction H as [mn mx st _|mn mx st st1 st2 _ Hb _ _ IHr]; [by apply consumed_nil|].
    eapply consumed_trans; [|exact IHr]. apply IH in Hb; [|done].
    destruct Hb as (u & Hu & Hpu & Fu). exists u. unfold reset_caps in *. by destruct (groups r).
  - intros (st1 & Hd & ->). apply IH in Hd; [|done]. done.
  - intros [-> _]. by apply consumed_nil.
  - intros [-> _]. by apply consumed_nil.
  - intros [-> _]. by apply consumed_nil.
  - destruct neg; [intros [-> _]; by apply consumed_nil|]. intros (st1 & _ & ->). by apply consumed_nil.
  - intros [-> _]. by apply consumed_nil.
Qed.

(** A match stands in the text, and is made of units the pattern can consume. *)
Definition match_in (P : Z → Prop) (s : jsstr) (m : rmatch) : Prop :=
  ∃ u w, s = u ++ matched s m ++ w ∧ length u = rm_start m ∧ (rm_start m ≤ rm_end m)%nat ∧ Forall P (matched s m).
Lemma scan_match re P pre rest prev m :
  rx_ok (rx_body re) = true → rx_all (rx_icase re) P (rx_body re) →
  scan re rest (length pre) prev = Some m → match_in P (pre ++ rest) m ∧ (length pre ≤ rm_end m ≤ length (pre ++ rest))%nat.
Proof.
  intros Hok HP. revert pre prev. induction rest as [|c rest IH]; intros pre prev; cbn [scan];
    destruct (match_here re _) as [m'|] eqn:Hm.
  2: done.
  3: { replace (S (length pre)) with (length (pre ++ [c])) by (rewrite length_app; cbn; lia). intros H%IH.
       rewrite <-app_assoc in H. cbn [app] in H. rewrite length_app in H. cbn [length] in H. split; [apply H|lia]. }
  all: intros [= <-]; unfold match_here in Hm; apply (run_correct (rx_icase re) (rx_multi re) _ Hok) in Hm as (st' & Hd & [= <-]);
    apply (den_consumed _ _ P) in Hd as (u & Hu & Hpu & Fu); [|done]; cbn [m_rest m_pos rm_start rm_end] in *.
  1: set (rest := @nil Z) in *. 2: set (rest0 := c :: rest) in *.
  all: rewrite Hu, Hpu, !length_app; split; [|lia]; exists pre, (m_rest st'); unfold matched; cbn [rm_start rm_end]; rewrite slice_middle;
    split_and!; [done|done|lia|done].
Qed.
Lemma scan_all_match re P fuel pre rest prev m :
  rx_ok (rx_body re) = true → rx_all (rx_icase re) P (rx_body re) →
  m ∈ scan_all fuel re rest (length pre) prev → match_in P (pre ++ rest) m.
Proof.
  intros Hok HP. revert pre rest prev. induction fuel as [|fuel IH]; intros pre rest prev; cbn [scan_all]; [by intros ?%elem_of_nil|].
  destruct (scan re rest (length pre) prev) as [m'|] eqn:Hs; [|by intros ?%elem_of_nil].
  apply (scan_match re P) in Hs as (Hm & Hl); [|done..]. rewrite length_app in Hl.
  set (k := if bool_decide (rm_end m' = rm_start m') then _ else _).
  destruct (bool_decide (length rest < k)%nat) eqn:Hk; [by intros ->%list_elem_of_singleton|].
  apply bool_decide_eq_false in Hk. rewrite elem_of_cons. intros [->|Hin]; [done|].
  replace (length pre + k)%nat with (length (pre ++ take k rest)) in Hin by (rewrite length_app, length_take; lia).
  apply IH in Hin. by rewrite <-app_assoc, take_drop in Hin.
Qed.
Lemma exec_all_match re P s m :
  rx_ok (rx_body re) = true → rx_all (rx_icase re) P (rx_body re) → m ∈ exec_all re s → match_in P s m.
Proof. intros Hok HP. apply (scan_all_match re P _ [] s None); done. Qed.
