(* ===== verification/JsValue.v ===== *)
(** JavaScript values, as the dynamically typed inputs of the sources: server
    payloads, stored state, wire events. Objects are property lists in
    insertion order; values have no identity and do not override [toString]
    or [valueOf]. *)

From S2P Require Import Prelude JsString JsNumber.

Inductive jsval :=
  | VUndef | VNull
  | VBool (b : bool)
  | VNum (n : num)
  | VStr (s : jsstr)
  | VArr (l : list jsval)
  | VObj (o : list (jsstr * jsval))
  | VFun (name : jsstr).             (* a built-in function reached through a prototype *)

Notation props := (list (jsstr * jsval)).

(** ** Properties *)

Fixpoint own (o : props) (k : jsstr) : option jsval :=
  match o with
  | [] => None
  | (k', v) :: o => if k ==s k' then Some v else own o k
  end.
(** [Object.prototype.hasOwnProperty.call(o, k)]. *)
Definition has_own (o : props) (k : jsstr) : bool := bool_decide (is_Some (own o k)).

(** [o[k] = v]: in place, or appended. *)
Fixpoint set_prop (k : jsstr) (v : jsval) (o : props) : props :=
  match o with
  | [] => [(k, v)]
  | (k', v') :: o => if k ==s k' then (k, v) :: o else (k', v') :: set_prop k v o
  end.
(** [delete o[k]]. *)
Definition del_prop (k : jsstr) (o : props) : props := filterb (λ p, bool_decide (fst p ≠ k)) o.
(** [{ ...o, ...o' }]. *)
Definition spread (o o' : props) : props := fold_left (λ o p, set_prop (fst p) (snd p) o) o' o.

(** The methods every object inherits. *)
Definition object_prototype : list jsstr :=
  map js ["hasOwnProperty"; "isPrototypeOf"; "propertyIsEnumerable"; "toLocaleString";
          "toString"; "valueOf"; "__defineGetter__"; "__defineSetter__";
          "__lookupGetter__"; "__lookupSetter__"]%string.
Definition inherited (k : jsstr) : jsval :=
  if k ==s js "constructor" then VFun (js "Object")
  else if k ==s js "__proto__" then VObj []
  else if bool_decide (k ∈ object_prototype) then VFun k else VUndef.

(** [o[k]] on an object literal used as a table. *)
Definition table_get (o : props) (k : jsstr) : jsval := default (inherited k) (own o k).

(** [v?.k]: property [k] of any value, [undefined] on a nullish one. The keys
    of the sources are not the names of string, array or number methods. *)
Definition get (v : jsval) (k : jsstr) : jsval :=
  match v with
  | VObj o => table_get o k
  | VStr s => if k ==s js "length" then VNum (num_of_nat (length s)) else inherited k
  | VArr l => if k ==s js "length" then VNum (num_of_nat (length l)) else inherited k
  | _ => VUndef
  end.

(** ** Own properties in enumeration order: array indices first, ascending *)

Definition index_key (k : jsstr) : option Z :=
  if nonempty k && forallb is_digit k && (k ==s str_of_Z (digits_value k))
     && (digits_value k <? 4294967295)
  then Some (digits_value k) else None.
Definition is_index_key (k : jsstr) : bool := bool_decide (is_Some (index_key k)).
Definition entries (o : props) : props :=
  isort (λ p q, default 0 (index_key (fst p)) <=? default 0 (index_key (fst q)))
        (filterb (λ p, is_index_key (fst p)) o)
  ++ filterb (λ p, negb (is_index_key (fst p))) o.
Definition keys (o : props) : list jsstr := fst <$> entries o.

(** ** Coercions *)

Definition truthy (v : jsval) : bool :=
  match v with
  | VUndef | VNull => false
  | VBool b => b
  | VNum n => match n with S754_zero _ | S754_nan => false | _ => true end
  | VStr s => nonempty s
  | VArr _ | VObj _ | VFun _ => true
  end.
Definition nullish (v : jsval) : bool :=
  match v with VUndef | VNull => true | _ => false end.

Definition bool_str (b : bool) : jsstr := if b then js "true" else js "false".

(** [String(v)]. *)
Fixpoint to_string (v : jsval) : jsstr :=
  match v with
  | VUndef => js "undefined"
  | VNull => js "null"
  | VBool b => bool_str b
  | VNum n => num_to_str n
  | VStr s => s
  | VArr l =>
      join [44] (map (λ x, match x with VUndef | VNull => [] | _ => to_string x end) l)
  | VObj _ => js "[object Object]"
  | VFun name => js "function " ++ name ++ js "() { [native code] }"
  end.

(** [Number(v)]. *)
Definition to_number (v : jsval) : num :=
  match v with
  | VUndef => NaN
  | VNull => num_zero
  | VBool b => if b then num_of_Z 1 else num_zero
  | VNum n => n
  | VStr s => num_of_str s
  | VArr _ => num_of_str (to_string v)
  | VObj _ | VFun _ => NaN
  end.

(** [a || b] and [a ?? b]. *)
Definition js_or (a b : jsval) : jsval := if truthy a then a else b.
Definition js_nullish (a b : jsval) : jsval := if nullish a then b else a.

(** [String(v || '')] and [String(v ?? '')]. *)
Definition str_of (v : jsval) : jsstr := to_string (js_or v (VStr [])).
Definition str_of_nullish (v : jsval) : jsstr := to_string (js_nullish v (VStr [])).

(** [v === s] for a string, [v === true]. *)
Definition is_str (v : jsval) (s : jsstr) : bool :=
  match v with VStr s' => s' ==s s | _ => false end.
Definition is_true (v : jsval) : bool := match v with VBool true => true | _ => false end.

(** [typeof v === 'string'], and its content. *)
Definition as_string (v : jsval) : option jsstr :=
  match v with VStr s => Some s | _ => None end.
(** [v && typeof v === 'object']. *)
Definition is_objectlike (v : jsval) : bool :=
  match v with VObj _ | VArr _ => true | _ => false end.
(** [v && typeof v === 'object' && !Array.isArray(v)]. *)
Definition is_plain (v : jsval) : bool := match v with VObj _ => true | _ => false end.
Definition is_primitive_text (v : jsval) : bool :=
  match v with VStr _ | VNum _ | VBool _ => true | _ => false end.
Definition is_array (v : jsval) : bool := match v with VArr _ => true | _ => false end.
(** [Array.isArray(v) ? v : []]. *)
Definition items_of (v : jsval) : list jsval := match v with VArr l => l | _ => [] end.
(** The own properties of a plain object, none for anything else. *)
Definition props_of (v : jsval) : props := match v with VObj o => o | _ => [] end.
(** [{ ...v }]: the own properties of an object or an array. *)
Definition spread_value (v : jsval) : props :=
  match v with
  | VObj o => o
  | VArr l => imap (λ i x, (str_of_nat i, x)) l
  | _ => []
  end.
(** [Number.isInteger(v)]. *)
Definition is_int (v : jsval) : bool :=
  match v with VNum n => is_integer n | _ => false end.

Definition vnat (n : nat) : jsval := VNum (num_of_nat n).
Definition vint (n : Z) : jsval := VNum (num_of_Z n).
Definition vstr (s : string) : jsval := VStr (js s).
(** An optional property value: [null] or the value, absent or the value. *)
Definition or_null {A} (f : A → jsval) (o : option A) : jsval :=
  match o with Some a => f a | None => VNull end.
Definition opt_prop {A} (k : string) (f : A → jsval) (o : option A) : props :=
  match o with Some a => [(js k, f a)] | None => [] end.

(** ** Lemmas *)

Lemma has_own_Some o k : has_own o k = true ↔ is_Some (own o k).
Proof. apply bool_decide_eq_true. Qed.

Lemma own_None o k : own o k = None ↔ k ∉ o.*1.
Proof.
  induction o as [|[k' v] o IH]; cbn; [set_solver|].
  rewrite not_elem_of_cons, <-IH. case_bool_decide; naive_solver.
Qed.

Lemma own_elem o k v : own o k = Some v → (k, v) ∈ o.
Proof.
  induction o as [|[k' v'] o IH]; cbn; [done|].
  case_bool_decide; intros; simplify_eq; [by left|right; auto].
Qed.

Lemma own_set_eq k v o : own (set_prop k v o) k = Some v.
Proof.
  induction o as [|[k' v'] o IH]; cbn; [by rewrite bool_decide_true|].
  case_bool_decide as Hk; cbn; [by rewrite bool_decide_true|]. by rewrite bool_decide_false.
Qed.

Lemma own_set_ne k k' v o : k ≠ k' → own (set_prop k v o) k' = own o k'.
Proof.
  intros Hne. induction o as [|[k2 v2] o IH]; cbn; [by rewrite bool_decide_false|].
  case_bool_decide as Hk; cbn; [subst; by rewrite !bool_decide_false by done|].
  by rewrite IH.
Qed.

Lemma own_del_eq k o : own (del_prop k o) k = None.
Proof.
  unfold del_prop. induction o as [|[k' v] o IH]; cbn; [done|].
  case_bool_decide; cbn; [by rewrite bool_decide_false|done].
Qed.

Lemma own_del_ne k k' o : k ≠ k' → own (del_prop k o) k' = own o k'.
Proof.
  intros Hne. unfold del_prop. induction o as [|[k2 v] o IH]; cbn; [done|].
  destruct (decide (k2 = k)) as [->|Hk].
  - rewrite (bool_decide_false (k ≠ k)) by auto. rewrite IH. by rewrite bool_decide_false.
  - rewrite (bool_decide_true (k2 ≠ k)) by done. cbn. by rewrite IH.
Qed.

Lemma own_elem_of o id : has_own o id = true ↔ id ∈ o.*1.
Proof.
  rewrite has_own_Some, <-not_eq_None_Some, own_None.
  destruct (decide (id ∈ o.*1)); naive_solver.
Qed.

Lemma set_prop_keys k v o : (set_prop k v o).*1 = if has_own o k then o.*1 else o.*1 ++ [k].
Proof.
  induction o as [|[k' v'] o IH]; [done|]. unfold has_own in *. cbn.
  destruct (bool_decide_reflect (k = k')) as [->|]; cbn; [done|].
  rewrite IH. by destruct (bool_decide (is_Some (own o k))).
Qed.

Lemma set_prop_Forall (P : jsstr * jsval → Prop) k v o :
  P (k, v) → Forall P o → Forall P (set_prop k v o).
Proof.
  intros Hp Ho. induction Ho as [|[k' v'] o Hh Ho IH]; cbn; [by repeat constructor|].
  case_bool_decide; by constructor.
Qed.

(** [{ ...o, ...u }], when the names of [u] are distinct. *)
Lemma own_spread u o k :
  NoDup u.*1 → own (spread o u) k = match own u k with Some v => Some v | None => own o k end.
Proof.
  unfold spread. revert o. induction u as [|[k' v'] u IH]; intros o Hn; cbn in *; [done|].
  apply NoDup_cons in Hn as [Hk Hn]. rewrite IH by done.
  destruct (bool_decide_reflect (k = k')) as [->|Hne].
  - apply own_None in Hk. by rewrite Hk, own_set_eq.
  - destruct (own u k); [done|]. by rewrite own_set_ne.
Qed.

Lemma spread_Forall (P : jsstr * jsval → Prop) o u : Forall P o → Forall P u → Forall P (spread o u).
Proof.
  unfold spread. intros Ho Hu. revert o Ho. induction Hu as [|[k v] u Hp _ IH]; intros o Ho; [done|].
  by apply IH, set_prop_Forall.
Qed.

Lemma spread_keys o u : u.*1 ⊆ o.*1 → (spread o u).*1 = o.*1.
Proof.
  unfold spread. revert o. induction u as [|[k v] u IH]; intros o Hs; [done|]. cbn in *.
  assert ((set_prop k v o).*1 = o.*1) as He.
  { rewrite set_prop_keys. assert (has_own o k = true) as ->; [|done]. apply own_elem_of. set_solver. }
  rewrite IH, He by (rewrite He; set_solver). done.
Qed.

Lemma own_app o u k : own (o ++ u) k = match own o k with Some v => Some v | None => own u k end.
Proof. induction o as [|[k' v'] o IH]; cbn; [done|]. by case_bool_decide. Qed.

Lemma own_of_elem o k v : NoDup o.*1 → (k, v) ∈ o → own o k = Some v.
Proof.
  induction o as [|[k' v'] o IH]; cbn; [by intros _ ?%elem_of_nil|].
  intros [Hk Hn]%NoDup_cons [[= -> ->]|Hin]%elem_of_cons; [by rewrite bool_decide_true|].
  rewrite bool_decide_false; [auto|]. intros ->. apply Hk. by apply (list_elem_of_fmap_2 fst) in Hin.
Qed.

Lemma entries_perm o : entries o ≡ₚ o.
Proof. unfold entries. rewrite isort_perm. symmetry. apply filterb_perm. Qed.

Lemma elem_of_keys o k : k ∈ keys o ↔ is_Some (own o k).
Proof.
  unfold keys. rewrite entries_perm. rewrite <-not_eq_None_Some, own_None.
  destruct (decide (k ∈ o.*1)); naive_solver.
Qed.

Lemma str_of_VStr s : str_of (VStr s) = s.
Proof. unfold str_of, js_or. by destruct s. Qed.

Lemma str_of_nullish_VStr s : str_of_nullish (VStr s) = s.
Proof. done. Qed.

Lemma is_str_spec v s : is_str v s = true ↔ v = VStr s.
Proof.
  destruct v; cbn; try (split; [done|congruence]).
  rewrite bool_decide_eq_true. naive_solver.
Qed.

#[export] Hint Rewrite str_of_VStr own_set_eq own_del_eq : darklab.

(** ** Counts and comparisons on values *)

(** How many elements [slice(0, x)] keeps, for a non-negative [x]. *)
Definition take_num {A} (x : num) (l : list A) : list A :=
  match x with
  | S754_infinity false => l
  | _ => match num_to_Z (num_floor x) with Some z => take (Z.to_nat z) l | None => [] end
  end.

(** [v > n] and [v === n] for an integer [n]. *)
Definition gt_int (v : jsval) (n : Z) : bool := nltb (num_of_Z n) (to_number v).
Definition is_int_eq (v : jsval) (n : Z) : bool :=
  match v with VNum x => neqb x (num_of_Z n) | _ => false end.

(** [Math.max(lo, Number(v) || d)]. *)
Definition num_or (v : jsval) (d : Z) : num :=
  let x := to_number v in if truthy (VNum x) then x else num_of_Z d.

Lemma take_num_sublist {A} x (l : list A) : take_num x l `sublist_of` l.
Proof.
  unfold take_num. destruct x as [s|s| |s m e]; try apply sublist_nil_l;
    try (case_goal; [apply sublist_take|apply sublist_nil_l]).
  destruct s; [|done]. case_goal; [apply sublist_take|apply sublist_nil_l].
Qed.

Lemma take_num_of_Z {A} n (l : list A) :
  0 ≤ n < 2 ^ 53 → take_num (num_of_Z n) l = take (Z.to_nat n) l.
Proof.
  intros Hn. unfold take_num. rewrite num_floor_of_Z, num_to_Z_of_Z by done.
  pose proof (is_finite_integer _ (is_integer_of_Z n Hn)). by destruct (num_of_Z n).
Qed.

#[export] Hint Rewrite @take_num_of_Z using lia : darklab.
