(* ===== verification/JsJson.v ===== *)
(** [JSON.stringify] and [JSON.parse], with the round trip on the values the
    sources store. Lone surrogates are printed as they are. *)

From S2P Require Import Prelude JsString JsNumber JsValue.

(** ** Printing *)

Definition hex_digit (n : Z) : Z := if n <? 10 then 48 + n else 87 + n.

Definition quote_unit (c : Z) : jsstr :=
  if c =? 34 then [92; 34]
  else if c =? 92 then [92; 92]
  else if c =? 8 then [92; 98]
  else if c =? 9 then [92; 116]
  else if c =? 10 then [92; 110]
  else if c =? 12 then [92; 102]
  else if c =? 13 then [92; 114]
  else if (0 <=? c) && (c <? 32) then [92; 117; 48; 48; hex_digit (c / 16); hex_digit (c mod 16)]
  else [c].
Definition quote (s : jsstr) : jsstr := 34 :: flat_map quote_unit s ++ [34].

(** A value that [stringify] prints; the others are dropped from objects. *)
Definition printable (v : jsval) : bool :=
  match v with VUndef | VFun _ => false | _ => true end.

(** The printable members in enumeration order: array indices first. *)
Definition ordered (members : list (bool * (jsstr * jsstr))) : list jsstr :=
  let members := snd <$> filterb fst members in
  (snd <$> isort (λ p q, default 0 (index_key (fst p)) <=? default 0 (index_key (fst q)))
             (filterb (λ p, is_index_key (fst p)) members))
  ++ (snd <$> filterb (λ p, negb (is_index_key (fst p))) members).

(** The compact form. *)
Fixpoint stringify (v : jsval) : jsstr :=
  match v with
  | VUndef | VFun _ | VNull => js "null"
  | VBool b => bool_str b
  | VNum n => if is_finite n then num_to_str n else js "null"
  | VStr s => quote s
  | VArr l => 91 :: join [44] (map stringify l) ++ [93]
  | VObj o =>
      let members :=
        map (λ p, match p with (k, v) => (printable v, (k, quote k ++ 58 :: stringify v)) end) o in
      123 :: join [44] (ordered members) ++ [125]
  end.

(** The form indented by two spaces, at depth [n]. *)
Definition newline_at (n : nat) : jsstr := 10 :: replicate (2 * n) 32.
Definition bracketed (n : nat) (op cl : Z) (members : list jsstr) : jsstr :=
  match members with
  | [] => [op; cl]
  | _ => op :: newline_at (S n) ++ join (44 :: newline_at (S n)) members ++ newline_at n ++ [cl]
  end.
Fixpoint stringify_indent (n : nat) (v : jsval) : jsstr :=
  match v with
  | VArr l => bracketed n 91 93 (map (stringify_indent (S n)) l)
  | VObj o =>
      let members :=
        map (λ p, match p with (k, v) =>
                    (printable v, (k, quote k ++ [58; 32] ++ stringify_indent (S n) v)) end) o in
      bracketed n 123 125 (ordered members)
  | _ => stringify v
  end.

(** ** Parsing *)

Definition json_ws (c : Z) : bool := (c =? 32) || (c =? 9) || (c =? 10) || (c =? 13).
Definition skip_ws (s : jsstr) : jsstr := drop_while json_ws s.

Definition hex4 (a b c d : Z) : option Z :=
  let h c := if is_digit c then Some (c - 48)
             else if (97 <=? c) && (c <=? 102) then Some (c - 87)
             else if (65 <=? c) && (c <=? 70) then Some (c - 55) else None in
  match h a, h b, h c, h d with
  | Some a, Some b, Some c, Some d => Some (((a * 16 + b) * 16 + c) * 16 + d)
  | _, _, _, _ => None
  end.

(** The inside of a string literal, up to the closing quote. *)
Fixpoint parse_chars (s : jsstr) : option (jsstr * jsstr) :=
  let cons c r := match r with Some (l, s) => Some (c :: l, s) | None => None end in
  match s with
  | [] => None
  | 34 :: s => Some ([], s)
  | 92 :: 34 :: s => cons 34 (parse_chars s)
  | 92 :: 92 :: s => cons 92 (parse_chars s)
  | 92 :: 47 :: s => cons 47 (parse_chars s)
  | 92 :: 98 :: s => cons 8 (parse_chars s)
  | 92 :: 102 :: s => cons 12 (parse_chars s)
  | 92 :: 110 :: s => cons 10 (parse_chars s)
  | 92 :: 114 :: s => cons 13 (parse_chars s)
  | 92 :: 116 :: s => cons 9 (parse_chars s)
  | 92 :: 117 :: a :: b :: c :: d :: s =>
      match hex4 a b c d with Some u => cons u (parse_chars s) | None => None end
  | 92 :: _ => None
  | c :: s => if (0 <=? c) && (c <? 32) then None else cons c (parse_chars s)
  end.

Definition num_char (c : Z) : bool :=
  is_digit c || (c =? 45) || (c =? 43) || (c =? 46) || (c =? 101) || (c =? 69).
(** [-? int frac? exp?], with no leading zero. *)
Definition json_number (t : jsstr) : option num :=
  let u := match t with 45 :: u => u | _ => t end in
  let ip := take_while is_digit u in
  let r := drop_while is_digit u in
  let leading := match ip with 48 :: _ :: _ => false | [] => false | _ => true end in
  let point := match r with
               | 46 :: f => nonempty (take_while is_digit f)
               | _ => true end in
  if leading && point then Some (num_of_str t) else None.

Fixpoint parse_value (fuel : nat) (s : jsstr) {struct fuel} : option (jsval * jsstr) :=
  match fuel with
  | O => None
  | S fuel =>
    match s with
    | 110 :: 117 :: 108 :: 108 :: r => Some (VNull, r)
    | 116 :: 114 :: 117 :: 101 :: r => Some (VBool true, r)
    | 102 :: 97 :: 108 :: 115 :: 101 :: r => Some (VBool false, r)
    | 34 :: r => match parse_chars r with Some (l, r) => Some (VStr l, r) | None => None end
    | 91 :: r =>
        match skip_ws r with
        | 93 :: r' => Some (VArr [], r')
        | r' => match parse_elems fuel r' with Some (l, r) => Some (VArr l, r) | None => None end
        end
    | 123 :: r =>
        match skip_ws r with
        | 125 :: r' => Some (VObj [], r')
        | r' => match parse_members fuel [] r' with Some (o, r) => Some (VObj o, r) | None => None end
        end
    | _ =>
        let t := take_while num_char s in
        match json_number t with
        | Some n => if is_nan n then None else Some (VNum n, drop_while num_char s)
        | None => None
        end
    end
  end
with parse_elems (fuel : nat) (s : jsstr) {struct fuel} : option (list jsval * jsstr) :=
  match fuel with
  | O => None
  | S fuel =>
    match parse_value fuel s with
    | None => None
    | Some (v, r) =>
        match skip_ws r with
        | 93 :: r' => Some ([v], r')
        | 44 :: r' => match parse_elems fuel (skip_ws r') with
                      | Some (l, r) => Some (v :: l, r) | None => None end
        | _ => None
        end
    end
  end
with parse_members (fuel : nat) (o : props) (s : jsstr) {struct fuel} : option (props * jsstr) :=
  match fuel with
  | O => None
  | S fuel =>
    match s with
    | 34 :: r =>
        match parse_chars r with
        | None => None
        | Some (k, r) =>
            match skip_ws r with
            | 58 :: r =>
                match parse_value fuel (skip_ws r) with
                | None => None
                | Some (v, r) =>
                    let o := set_prop k v o in
                    match skip_ws r with
                    | 125 :: r' => Some (o, r')
                    | 44 :: r' => parse_members fuel o (skip_ws r')
                    | _ => None
                    end
                end
            | _ => None
            end
        end
    | _ => None
    end
  end.

(** [JSON.parse(s)], [None] for a SyntaxError. Every level consumes a unit, so
    the length of the text is enough fuel. *)
Definition json_parse (s : jsstr) : option jsval :=
  match parse_value (2 * length s + 2) (skip_ws s) with
  | Some (v, r) => if nonempty (skip_ws r) then None else Some v
  | None => None
  end.

(** ** Round trip *)

(** A number whose text reads back as itself. *)
Definition num_ok (n : num) : Prop :=
  is_finite n = true ∧ is_nan n = false
  ∧ Forall (λ c, num_char c = true) (num_to_str n) ∧ json_number (num_to_str n) = Some n.

(** The values [stringify] writes without loss: what [parse] returns, with
    numbers that survive printing. *)
Inductive json_ok : jsval → Prop :=
  | ok_null : json_ok VNull
  | ok_bool b : json_ok (VBool b)
  | ok_num n : num_ok n → json_ok (VNum n)
  | ok_str s : json_ok (VStr s)
  | ok_arr l : Forall json_ok l → json_ok (VArr l)
  | ok_obj o : NoDup o.*1 → Forall (λ p, is_index_key (fst p) = false) o →
      Forall (λ p, json_ok (snd p)) o → json_ok (VObj o).

(** *** Strings *)

Definition consr (c : Z) (r : option (jsstr * jsstr)) : option (jsstr * jsstr) :=
  match r with Some (l, s) => Some (c :: l, s) | None => None end.

Lemma parse_chars_plain c t :
  c ≠ 34 → c ≠ 92 → (0 <=? c) && (c <? 32) = false →
  parse_chars (c :: t) = consr c (parse_chars t).
Proof.
  intros H1 H2 H3. cbn [parse_chars]. rewrite H3. fold (consr c (parse_chars t)).
  repeat case_match; congruence.
Qed.

Lemma parse_chars_unit c t : parse_chars (quote_unit c ++ t) = consr c (parse_chars t).
Proof.
  unfold quote_unit.
  destruct (Z.eqb_spec c 34) as [->|]; [done|]. destruct (Z.eqb_spec c 92) as [->|]; [done|].
  destruct (Z.eqb_spec c 8) as [->|]; [done|]. destruct (Z.eqb_spec c 9) as [->|]; [done|].
  destruct (Z.eqb_spec c 10) as [->|]; [done|]. destruct (Z.eqb_spec c 12) as [->|]; [done|].
  destruct (Z.eqb_spec c 13) as [->|]; [done|].
  destruct ((0 <=? c) && (c <? 32)) eqn:Hc; [|by apply parse_chars_plain].
  assert (c ∈ seqZ 0 32) as Hin by (apply elem_of_seqZ; lia).
  clear -Hin. revert c Hin. apply Forall_forall. repeat (constructor; [reflexivity|]). constructor.
Qed.

Lemma parse_chars_quote s r : parse_chars (flat_map quote_unit s ++ 34 :: r) = Some (s, r).
Proof.
  induction s as [|c s IH]; [done|]. cbn [flat_map]. rewrite <-(assoc_L (++)).
  rewrite parse_chars_unit, IH. done.
Qed.

(** *** Numbers *)

Lemma parse_value_default fuel c t :
  num_char c = true →
  parse_value (S fuel) (c :: t) =
  match json_number (take_while num_char (c :: t)) with
  | Some n => if is_nan n then None else Some (VNum n, drop_while num_char (c :: t))
  | None => None
  end.
Proof. intros Hc. cbn [parse_value]. repeat case_match; done. Qed.

Definition stops (r : jsstr) : Prop := ∀ c, head r = Some c → num_char c = false.

Lemma take_while_app {A} (p : A → bool) l r :
  Forall (λ x, p x = true) l → (∀ x, head r = Some x → p x = false) →
  take_while p (l ++ r) = l ∧ drop_while p (l ++ r) = r.
Proof.
  intros H Hr. induction H as [|x l Hx _ [IH1 IH2]]; cbn.
  - destruct r as [|y r]; [done|]. cbn. by rewrite (Hr y).
  - by rewrite Hx, IH1, IH2.
Qed.

Lemma parse_value_num fuel n r :
  num_ok n → stops r → parse_value (S fuel) (num_to_str n ++ r) = Some (VNum n, r).
Proof.
  intros (_ & Hnan & Hch & Hp) Hr. destruct (num_to_str n) as [|c t] eqn:Ht.
  { done. }
  destruct (take_while_app num_char (c :: t) r Hch Hr) as [E1 E2].
  rewrite <-app_comm_cons in *. apply Forall_cons in Hch as [Hc _].
  by rewrite parse_value_default, E1, E2, Hp, Hnan.
Qed.

(** *** First units *)

(** The units a printed value can start with. *)
Definition starts_value (c : Z) : Prop := json_ws c = false ∧ c ≠ 93 ∧ c ≠ 125 ∧ c ≠ 44.

Lemma json_ok_num_cons n :
  num_ok n → ∃ c t, num_to_str n = c :: t ∧ num_char c = true.
Proof.
  intros (_ & _ & Hch & Hp). destruct (num_to_str n) as [|c t]; [done|].
  apply Forall_cons in Hch as [Hc _]. eauto.
Qed.

Lemma num_char_starts c : num_char c = true → starts_value c.
Proof. unfold num_char, starts_value, json_ws, is_digit. intros. lia. Qed.

Lemma stringify_head v : json_ok v → ∃ c t, stringify v = c :: t ∧ starts_value c.
Proof.
  destruct 1 as [|b|n Hn|s|l _|o _ _ _]; cbn [stringify].
  - by eexists _, _.
  - destruct b; by eexists _, _.
  - destruct (json_ok_num_cons n Hn) as (c & t & -> & Hc). destruct Hn as [-> _].
    eexists _, _. split; [done|]. by apply num_char_starts.
  - by eexists _, _.
  - by eexists _, _.
  - by eexists _, _.
Qed.

Lemma skip_ws_head c t : json_ws c = false → skip_ws (c :: t) = c :: t.
Proof. intros H. unfold skip_ws. simpl. by rewrite H. Qed.

Lemma skip_ws_stringify v r : json_ok v → skip_ws (stringify v ++ r) = stringify v ++ r.
Proof.
  intros H. destruct (stringify_head v H) as (c & t & -> & Hc & _). by apply skip_ws_head.
Qed.

(** *** Objects *)

Lemma json_ok_printable v : json_ok v → printable v = true.
Proof. by destruct 1. Qed.

Definition member (p : jsstr * jsval) : jsstr := quote (fst p) ++ 58 :: stringify (snd p).

Lemma ordered_plain (o : props) (f : jsstr * jsval → jsstr) :
  Forall (λ p, is_index_key (fst p) = false) o →
  ordered (map (λ p, (true, (fst p, f p))) o) = map f o.
Proof.
  intros Hk. unfold ordered. cbn zeta.
  assert (snd <$> filterb fst (map (λ p, (true, (fst p, f p))) o) = map (λ p, (fst p, f p)) o) as ->.
  { clear. induction o; cbn; by f_equal. }
  assert (∀ x, x ∈ map (λ p, (fst p, f p)) o → is_index_key (fst x) = false) as Hx.
  { intros x (p & <- & Hp)%list_elem_of_In%in_map_iff. apply list_elem_of_In in Hp.
    by eapply Forall_forall in Hk. }
  rewrite (filterb_none (λ p, is_index_key (fst p))) by done.
  rewrite filterb_all by (intros x ?; by rewrite Hx).
  cbn. clear. induction o; cbn; by f_equal.
Qed.

Lemma stringify_obj o :
  Forall (λ p, is_index_key (fst p) = false) o → Forall (λ p, json_ok (snd p)) o →
  stringify (VObj o) = 123 :: join [44] (map member o) ++ [125].
Proof.
  intros Hk Hv. cbn [stringify]. cbn zeta. rewrite <-(ordered_plain o member) by done.
  do 4 f_equal. clear Hk.
  induction Hv as [|[k v] o Hv _ IH]; [done|].
  cbn [map]. rewrite IH. by rewrite (json_ok_printable v).
Qed.

Lemma set_prop_fresh k v o : k ∉ o.*1 → set_prop k v o = o ++ [(k, v)].
Proof.
  induction o as [|[k' v'] o IH]; cbn; [done|]. intros [Hk Hn]%not_elem_of_cons.
  rewrite bool_decide_false by done. by rewrite IH.
Qed.

Lemma member_head p r : ∃ t, member p ++ r = 34 :: t.
Proof. by eexists. Qed.

(** *** The round trip *)

Fixpoint vsize (v : jsval) : nat :=
  match v with
  | VArr l => S (list_sum (map vsize l))
  | VObj o => S (list_sum (map (λ p, match p with (_, v) => S (vsize v) end) o))
  | _ => 1
  end.

Definition reads_back (v : jsval) : Prop :=
  ∀ fuel r, (2 * length (stringify v) < fuel)%nat → stops r →
    parse_value fuel (stringify v ++ r) = Some (v, r).

Lemma parse_elems_back l fuel (r : jsstr) :
  l ≠ [] → Forall json_ok l → Forall reads_back l →
  (2 * length (join [44%Z] (map stringify l)) + 2 < fuel)%nat →
  parse_elems fuel (join [44] (map stringify l) ++ 93 :: r) = Some (l, r).
Proof.
  intros Hne Hok Hback. revert fuel. induction Hback as [|v l Hv Hl IH]; [done|].
  intros [|fuel] Hf; [lia|]. apply Forall_cons in Hok as [Hokv Hok].
  destruct l as [|w l].
  - cbn [map join] in *. cbn [parse_elems]. rewrite Hv; [done|lia|by intros ? [= <-]].
  - cbn [map] in *. rewrite join_cons_ne in * by done. rewrite <-!(assoc_L (++)).
    rewrite length_app in Hf. cbn [length app] in Hf.
    cbn [parse_elems]. rewrite Hv; [|lia|by intros ? [= <-]].
    change (skip_ws ([44] ++ ?t)) with (44 :: t). cbn [app].
    assert (skip_ws (join [44] (stringify w :: map stringify l) ++ 93 :: r)
            = join [44] (stringify w :: map stringify l) ++ 93 :: r) as ->.
    { apply Forall_cons in Hok as [Hw _]. destruct l; [by apply skip_ws_stringify|].
      cbn [map]. rewrite join_cons_ne by done. rewrite <-!(assoc_L (++)).
      by apply skip_ws_stringify. }
    rewrite IH; [done|done|done|simpl in *; lia].
Qed.

Lemma parse_members_back l o fuel (r : jsstr) :
  l ≠ [] → NoDup (o ++ l).*1 → Forall (λ p, json_ok (snd p)) l →
  Forall (λ p, reads_back (snd p)) l →
  (2 * length (join [44%Z] (map member l)) + 2 < fuel)%nat →
  parse_members fuel o (join [44] (map member l) ++ 125 :: r) = Some (o ++ l, r).
Proof.
  intros Hne Hnd Hok Hback. revert o fuel Hnd. induction Hback as [|[k v] l Hv Hl IH]; [done|].
  intros o [|fuel] Hnd Hf; [lia|]. apply Forall_cons in Hok as [Hokv Hok]. cbn [snd] in *.
  assert (k ∉ o.*1) as Hk.
  { rewrite fmap_app, NoDup_app in Hnd. destruct Hnd as (_ & Hd & _). intros Hin.
    apply (Hd k Hin). by left. }
  assert (∀ t, parse_members (S fuel) o (member (k, v) ++ t) =
    match parse_value fuel (skip_ws (stringify v ++ t)) with
    | None => None
    | Some (v, r) =>
        let o := set_prop k v o in
        match skip_ws r with
        | 125 :: r' => Some (o, r')
        | 44 :: r' => parse_members fuel o (skip_ws r')
        | _ => None
        end
    end) as Hstep.
  { intros t. unfold member, quote. cbn [fst snd]. rewrite <-!(assoc_L (++)), <-app_comm_cons.
    cbn [parse_members]. rewrite <-!(assoc_L (++)). cbn [app]. rewrite parse_chars_quote. done. }
  destruct l as [|p l].
  - cbn [map join] in *. rewrite Hstep, skip_ws_stringify by done.
    unfold member in Hf. rewrite length_app in Hf. cbn [snd length] in Hf.
    rewrite Hv; [|lia|by intros ? [= <-]].
    change (skip_ws (125 :: r)) with (125 :: r). cbn zeta. by rewrite set_prop_fresh.
  - cbn [map] in *. rewrite join_cons_ne in * by done. rewrite <-!(assoc_L (++)), Hstep.
    rewrite skip_ws_stringify by done.
    rewrite length_app in Hf. unfold member at 1 in Hf. rewrite length_app in Hf.
    cbn [snd length app] in Hf.
    rewrite Hv; [|lia|by intros ? [= <-]].
    change (skip_ws ([44] ++ ?t)) with (44 :: t). cbn zeta. rewrite set_prop_fresh by done.
    assert (skip_ws (join [44] (member p :: map member l) ++ 125 :: r)
            = join [44] (member p :: map member l) ++ 125 :: r) as ->.
    { destruct l; [|cbn [map]; rewrite join_cons_ne by done; rewrite <-!(assoc_L (++))];
        by apply skip_ws_head. }
    rewrite IH; [by rewrite <-(assoc_L (++))|done|done| |simpl in *; lia].
    by rewrite <-(assoc_L (++)).
Qed.

Lemma reads_back_all v : json_ok v → reads_back v.
Proof.
  remember (vsize v) as n eqn:Hn. assert (vsize v ≤ n)%nat as Hle by lia. clear Hn.
  revert v Hle. induction n as [|n IH]; intros v Hle Hok; [by destruct v; simpl in Hle; lia|].
  intros [|fuel] r Hf Hr; [lia|].
  destruct Hok as [|b|m Hm|s|l Hl|o Hnd Hk Ho].
  - done.
  - by destruct b.
  - cbn [stringify]. pose proof Hm as [-> _]. by apply parse_value_num.
  - cbn [stringify quote]. unfold quote. rewrite <-app_comm_cons, <-(assoc_L (++)). cbn [app].
    cbn [parse_value]. by rewrite parse_chars_quote.
  - cbn [stringify] in *. rewrite <-app_comm_cons, <-(assoc_L (++)). cbn [app].
    destruct l as [|v l]; [done|].
    assert (Forall reads_back (v :: l)) as Hb.
    { apply Forall_forall. intros w Hw. apply IH; [|by eapply Forall_forall in Hl].
      cbn [vsize] in Hle. apply list_elem_of_In, (in_map vsize) in Hw.
      assert (vsize w ≤ list_sum (map vsize (v :: l)))%nat; [|lia].
      clear -Hw. induction (map vsize (v :: l)) as [|m t IH]; simpl in *; [done|].
      destruct Hw as [->|Hw]; [lia|]. specialize (IH Hw). lia. }
    rewrite app_comm_cons, length_app in Hf. cbn [length] in Hf.
    pose proof (parse_elems_back (v :: l) fuel r ltac:(done) Hl Hb ltac:(lia)) as Hpe.
    assert (∃ c t, join [44] (map stringify (v :: l)) ++ 93 :: r = c :: t ∧ starts_value c)
      as (c & t & Hct & Hws & H93 & _).
    { apply Forall_cons in Hl as [Hv _]. destruct (stringify_head v Hv) as (c & t & Hs & Hc).
      destruct l; cbn [map]; [|rewrite join_cons_ne by done]; rewrite Hs; by eexists _, _. }
    rewrite Hct in *. cbn [parse_value]. rewrite skip_ws_head by done.
    assert (∀ (X : Type) (a b : X), match c :: t with 93 :: _ => a | _ => b end = b) as Hb'.
    { intros. clear -H93. repeat case_match; congruence. }
    repeat case_match; simplify_eq; done.
  - rewrite stringify_obj in * by done. rewrite <-app_comm_cons, <-(assoc_L (++)). cbn [app].
    destruct o as [|p o]; [done|].
    assert (Forall (λ p, reads_back (snd p)) (p :: o)) as Hb.
    { apply Forall_forall. intros w Hw. apply IH; [|by eapply Forall_forall in Ho].
      cbn [vsize] in Hle.
      apply list_elem_of_In, (in_map (λ p, match p with (_, v) => S (vsize v) end)) in Hw.
      destruct w as [k w]. cbn [snd].
      match type of Hw with In _ ?m => assert (S (vsize w) ≤ list_sum m)%nat; [|lia];
        clear -Hw; induction m as [|x t IH]; simpl in *; [done|] end.
      destruct Hw as [->|Hw]; [lia|]. specialize (IH Hw). lia. }
    rewrite app_comm_cons, length_app in Hf. cbn [length] in Hf.
    pose proof (parse_members_back (p :: o) [] fuel r ltac:(done) Hnd Ho Hb ltac:(lia)) as Hpm.
    assert (∃ t, join [44] (map member (p :: o)) ++ 125 :: r = 34 :: t) as (t & Hct).
    { destruct o; cbn [map]; [|rewrite join_cons_ne by done]; by eexists. }
    rewrite Hct in *. cbn [parse_value]. rewrite skip_ws_head by done. by rewrite Hpm.
Qed.

(** [JSON.parse(JSON.stringify(v))] is [v]. *)
Lemma json_round_trip v : json_ok v → json_parse (stringify v) = Some v.
Proof.
  intros Hok. unfold json_parse.
  rewrite <-(app_nil_r (stringify v)) at 2. rewrite skip_ws_stringify by done.
  rewrite (reads_back_all v Hok); [done|lia|done].
Qed.


(** *** Safe integers survive *)

Lemma dec_digits_head fuel n acc :
  0 < n < 2 ^ Z.of_nat fuel → ∃ c t, dec_digits fuel n acc = c :: t ∧ c ≠ 48.
Proof.
  revert n acc. induction fuel as [|fuel IH]; intros n acc Hn; [simpl in Hn; lia|].
  rewrite Nat2Z.inj_succ, Z.pow_succ_r in Hn by lia. cbn [dec_digits].
  destruct (Z.ltb_spec n 10); [eexists _, _; split; [done|lia]|].
  apply IH. split; [apply Z.div_str_pos; lia|apply Z.div_lt_upper_bound; lia].
Qed.

Lemma str_of_Z_head n : 0 < n → ∃ c t, str_of_Z n = c :: t ∧ c ≠ 48.
Proof.
  intros Hn. unfold str_of_Z. rewrite (proj2 (Z.ltb_ge n 0)) by lia.
  apply dec_digits_head. split; [lia|apply log2_fuel; lia].
Qed.

Lemma all_digits_while s :
  Forall (λ c, is_digit c = true) s → take_while is_digit s = s ∧ drop_while is_digit s = [].
Proof.
  induction 1 as [|c s Hc _ IH]; simpl; [done|]. rewrite Hc. naive_solver congruence.
Qed.

Lemma num_of_str_digits c t :
  Forall (λ c, is_digit c = true) (c :: t) →
  num_of_str (c :: t) = num_of_Z (digits_value (c :: t)).
Proof.
  intros Hd. unfold num_of_str. rewrite trim_no_ws by by apply digits_no_ws.
  destruct (all_digits_while _ Hd) as [Ht Hr].
  apply Forall_cons in Hd as [Hdc Hdt]. cbn [nonempty negb].
  assert (split_sign (c :: t) = (false, c :: t)) as Hsg.
  { unfold split_sign. unfold is_digit in Hdc. repeat case_match; try done; lia. }
  assert ((c :: t ==s js "Infinity") = false) as Hinf.
  { apply bool_decide_eq_false. intros [= -> _]. done. }
  assert (parse_decimal (c :: t) = Some (num_of_Z (digits_value (c :: t)))) as Hp.
  { unfold parse_decimal. rewrite Ht, Hr. cbn [app nonempty negb]. rewrite app_nil_r.
    cbn [length nonempty negb]. unfold num_of_dec. cbn -[num_of_Z digits_value Z.mul].
    by rewrite Z.mul_1_r. }
  rewrite Hsg, Hinf, Hp. destruct (Z.eq_dec c 48) as [->|Hc].
  - destruct t as [|d t]; [done|]. apply Forall_cons in Hdt as [Hdd _].
    assert (∀ a b, is_digit a = false → is_digit b = false → ((d =? a) || (d =? b)) = false) as Hne.
    { intros a b Ha Hb. apply orb_false_iff. rewrite !Z.eqb_neq. naive_solver congruence. }
    by rewrite !Hne.
  - clear -Hc. repeat case_match; simplify_eq; done.
Qed.

Lemma num_ok_of_Z n : 0 ≤ n < 2 ^ 53 → num_ok (num_of_Z n).
Proof.
  intros Hn. unfold num_ok. rewrite num_to_str_of_Z by done.
  assert (is_finite (num_of_Z n) = true) as Hf by (apply is_finite_integer, is_integer_of_Z; done).
  split; [done|]. split; [by destruct (num_of_Z n)|].
  pose proof (str_of_Z_digits n ltac:(lia)) as Hd.
  split; [eapply Forall_impl; [exact Hd|]; intros c Hc; unfold num_char; by rewrite Hc|].
  destruct (Z.eq_dec n 0) as [->|Hn0]; [done|].
  destruct (str_of_Z_head n ltac:(lia)) as (c & t & Hs & Hc).
  pose proof (digits_value_str_of_Z n ltac:(lia)) as Hv. rewrite Hs in *.
  destruct (all_digits_while _ Hd) as [Ht Hr]. unfold json_number.
  assert (match c :: t with 45 :: u => u | _ => c :: t end = c :: t) as ->.
  { apply Forall_cons in Hd as [Hdc _]. unfold is_digit in Hdc. repeat case_match; try done; lia. }
  rewrite Ht, Hr.
  assert (match c :: t with 48 :: _ :: _ => false | [] => false | _ => true end = true) as ->.
  { clear -Hc. repeat case_match; congruence. }
  cbn [andb]. by rewrite num_of_str_digits by done; rewrite Hv.
Qed.

(** [Number(String(n))] is [n]. *)
Lemma num_of_str_of_Z n : 0 ≤ n → num_of_str (str_of_Z n) = num_of_Z n.
Proof.
  intros Hn. destruct (Z.eq_dec n 0) as [->|Hn0]; [done|].
  destruct (str_of_Z_head n ltac:(lia)) as (c & t & Hs & Hc).
  pose proof (digits_value_str_of_Z n ltac:(lia)) as Hv.
  pose proof (str_of_Z_digits n ltac:(lia)) as Hd. rewrite Hs in *.
  by rewrite num_of_str_digits by done; rewrite Hv.
Qed.

#[export] Hint Constructors json_ok : darklab.
#[export] Hint Resolve num_ok_of_Z json_round_trip : darklab.

(** *** The compact form is one line *)

Definition no_break (s : jsstr) : Prop := Forall (λ c, c ≠ 10 ∧ c ≠ 13) s.

Lemma no_break_app s t : no_break (s ++ t) ↔ no_break s ∧ no_break t.
Proof. apply Forall_app. Qed.

Lemma no_break_cons c s : no_break (c :: s) ↔ (c ≠ 10 ∧ c ≠ 13) ∧ no_break s.
Proof. unfold no_break. by rewrite Forall_cons. Qed.

Lemma hex_digit_no_break n : 0 ≤ n < 16 → hex_digit n ≠ 10 ∧ hex_digit n ≠ 13.
Proof. unfold hex_digit. case_match; lia. Qed.

Lemma quote_no_break s : no_break (quote s).
Proof.
  unfold quote. rewrite no_break_cons, no_break_app. split; [lia|]. split; [|repeat constructor; lia].
  apply Forall_flat_map, Forall_forall. intros c _. unfold quote_unit.
  repeat match goal with |- context [if ?b then _ else _] => destruct b eqn:?; [by repeat constructor|] end.
  destruct ((0 <=? c) && (c <? 32)) eqn:Hc; [|repeat constructor; lia].
  repeat (constructor; [try lia; apply hex_digit_no_break|]); [| |constructor].
  - split; [apply Z.div_pos; lia|apply Z.div_lt_upper_bound; lia].
  - apply Z.mod_pos_bound. lia.
Qed.

Lemma join_no_break l : Forall no_break l → no_break (join [44] l).
Proof.
  induction 1 as [|w l Hw Hl IH]; [constructor|]. destruct l as [|v l]; [done|].
  rewrite join_cons_ne, !no_break_app by done. split; [done|]. split; [|done]. repeat constructor; lia.
Qed.

Lemma stringify_no_break : ∀ v, json_ok v → no_break (stringify v).
Proof.
  fix IH 1. intros v Hv. destruct v as [| |b|n|s|l|o|f]; try by repeat constructor.
  - destruct b; by repeat constructor.
  - inversion Hv as [| |? Hn| | |]; subst. cbn [stringify]. destruct Hn as (-> & _ & Hch & _).
    eapply Forall_impl; [exact Hch|]. intros c. unfold num_char, is_digit. lia.
  - apply quote_no_break.
  - inversion Hv as [| | | |? Hl|]; subst. cbn [stringify]. rewrite no_break_cons, no_break_app.
    split; [lia|]. split; [|by repeat constructor]. apply join_no_break. clear Hv.
    induction l as [|x l IHl]; [constructor|]. apply Forall_cons in Hl as [Hx Hl].
    constructor; [by apply IH|by apply IHl].
  - inversion Hv as [| | | | |? _ Hk Ho]; subst.
    rewrite stringify_obj by done. rewrite no_break_cons, no_break_app.
    split; [lia|]. split; [|by repeat constructor]. apply join_no_break. clear Hv Hk.
    induction o as [|[k x] o IHo]; [constructor|]. apply Forall_cons in Ho as [Hx Ho].
    constructor; [|by apply IHo]. unfold member.
    rewrite no_break_app, no_break_cons. split; [apply quote_no_break|]. split; [cbn; lia|by apply IH].
Qed.
