(* ===== verification/JsUri.v ===== *)
(** [encodeURIComponent]: the UTF-8 bytes of the text, percent-encoded. It
    throws on a lone surrogate ([None]). *)

From S2P Require Import Prelude JsString.

(** The units left as they are: letters, digits and [-_.!~*'()]. *)
Definition uri_plain (c : Z) : bool :=
  is_alnum c || bool_decide (c ∈ js "-_.!~*'()").

Definition hex_upper (n : Z) : Z := if n <? 10 then 48 + n else 55 + n.
Definition percent (byte : Z) : jsstr := [37; hex_upper (byte / 16); hex_upper (byte mod 16)].

Definition utf8_bytes (p : Z) : list Z :=
  if p <? 128 then [p]
  else if p <? 2048 then [192 + p / 64; 128 + p mod 64]
  else if p <? 65536 then [224 + p / 4096; 128 + p / 64 mod 64; 128 + p mod 64]
  else [240 + p / 262144; 128 + p / 4096 mod 64; 128 + p / 64 mod 64; 128 + p mod 64].

Definition is_high (c : Z) : bool := (55296 <=? c) && (c <? 56320).
Definition is_low (c : Z) : bool := (56320 <=? c) && (c <? 57344).

Definition encode_point (p : Z) : jsstr := flat_map percent (utf8_bytes p).

Fixpoint encodeURIComponent (s : jsstr) : option jsstr :=
  match s with
  | [] => Some []
  | c :: s' =>
      if uri_plain c then cons c <$> encodeURIComponent s'
      else if is_low c then None
      else if is_high c then
        match s' with
        | d :: s'' =>
            if is_low d
            then app (encode_point (65536 + (c - 55296) * 1024 + (d - 56320))) <$> encodeURIComponent s''
            else None
        | [] => None
        end
      else app (encode_point c) <$> encodeURIComponent s'
  end.

(** ** Properties of the encoding *)

(** The units an encoded text is made of. *)
Definition uri_unit (c : Z) : Prop := uri_plain c = true ∨ c = 37.

Lemma hex_upper_plain n : 0 ≤ n < 16 → uri_plain (hex_upper n) = true.
Proof.
  intros H. unfold uri_plain, is_alnum, is_digit, is_lower, is_upper, hex_upper.
  apply orb_true_iff. left. destruct (n <? 10) eqn:E;
    rewrite ?Z.ltb_lt, ?Z.ltb_ge in E; repeat rewrite ?orb_true_iff, ?andb_true_iff, ?Z.leb_le; lia.
Qed.

Lemma utf8_bytes_range p : 0 ≤ p < 1114112 → Forall (λ b, 0 ≤ b < 256) (utf8_bytes p).
Proof.
  intros H. unfold utf8_bytes.
  repeat match goal with |- context [?a <? ?b] => destruct (Z.ltb_spec a b) end;
    repeat constructor;
    try (apply Z.div_le_lower_bound; lia); try (pose proof (Z.mod_pos_bound p 64); lia);
    try (pose proof (Z.mod_pos_bound (p / 64) 64); lia);
    try (pose proof (Z.mod_pos_bound (p / 4096) 64); lia);
    try (pose proof (Z.div_pos p 64); pose proof (Z.div_pos p 4096); pose proof (Z.div_pos p 262144); lia);
    try (apply Z.lt_add_lt_sub_l; apply Z.div_lt_upper_bound; lia); lia.
Qed.

Lemma encode_point_units p : 0 ≤ p < 1114112 → Forall uri_unit (encode_point p).
Proof.
  intros H. unfold encode_point. apply Forall_flat_map, Forall_forall.
  intros b Hb. apply list_elem_of_In in Hb.
  pose proof (utf8_bytes_range p H) as Hr. rewrite Forall_forall in Hr.
  specialize (Hr b ltac:(by apply list_elem_of_In)).
  unfold percent.
  constructor; [by right|]. constructor; [left|constructor; [left|constructor]]; apply hex_upper_plain.
  - split; [apply Z.div_pos; lia|apply Z.div_lt_upper_bound; lia].
  - apply Z.mod_pos_bound. lia.
Qed.

(** An encoded text holds no separator of a URL: no [/], [?], [&], [=] or space. *)
Lemma encodeURIComponent_units n : ∀ s e,
  (length s ≤ n)%nat → Forall (λ c, 0 ≤ c < 65536) s → encodeURIComponent s = Some e →
  Forall uri_unit e.
Proof.
  induction n as [|n IH]; intros [|c s] e Hn Hs He; simplify_eq/=; try (constructor || lia).
  apply Forall_cons in Hs as [Hc Hs].
  destruct (uri_plain c) eqn:Hp.
  { apply fmap_Some in He as (e' & He & ->). constructor; [by left|]. eapply IH; [|done..]. lia. }
  destruct (is_low c) eqn:Hl; [done|]. destruct (is_high c) eqn:Hh.
  - destruct s as [|d s]; [done|]. destruct (is_low d) eqn:Hd; [|done].
    apply fmap_Some in He as (e' & He & ->). apply Forall_cons in Hs as [_ Hs].
    apply Forall_app. split; [|eapply IH; [|done..]; simpl in *; lia].
    apply encode_point_units. unfold is_high, is_low in *.
    rewrite andb_true_iff, Z.leb_le, Z.ltb_lt in *. lia.
  - apply fmap_Some in He as (e' & He & ->). apply Forall_app.
    split; [apply encode_point_units; lia|]. eapply IH; [|done..]. lia.
Qed.

Example encode_examples :
  encodeURIComponent (js "run/1 a") = Some (js "run%2F1%20a")
  ∧ encodeURIComponent [233; 8364; 55357; 56832] = Some (js "%C3%A9%E2%82%AC%F0%9F%98%80")
  ∧ encodeURIComponent [55357] = None.
Proof. vm_compute. done. Qed.
