(* ===== verification/WebApi.v ===== *)
(** Interfaces of the browser: the services the sources call and do not
    contain. A component that uses one is stated over its class, and its
    theorems hold for every instance that satisfies the laws they name. *)

From S2P Require Import Prelude JsString.

(** ** URLs: [new URL(text)], its accessors and its setters *)

Class UrlApi := {
  url : Type;
  new_URL : jsstr → option url;            (* [None]: the constructor throws *)
  url_protocol : url → jsstr;
  url_username : url → jsstr;
  url_password : url → jsstr;
  url_hostname : url → jsstr;
  url_set_protocol : jsstr → url → url;
  url_set_hostname : jsstr → url → url;
  url_set_search : jsstr → url → url;
  url_set_hash : jsstr → url → url;
  url_toString : url → jsstr
}.

(** A small instance, for concrete runs: [scheme://host] with nothing after it. *)
Record plain_url := PlainUrl { pu_scheme : jsstr; pu_host : jsstr }.
Definition parse_plain_url (s : jsstr) : option plain_url :=
  match index_of (js "://") s with
  | Some i =>
      let host := drop (i + 3) s in
      if nonempty host then Some (PlainUrl (lower (take i s) ++ js ":") (lower host)) else None
  | None => None
  end.
Definition plain_url_api : UrlApi := {|
  url := plain_url;
  new_URL := parse_plain_url;
  url_protocol := pu_scheme;
  url_username _ := [];
  url_password _ := [];
  url_hostname := pu_host;
  url_set_protocol p u := PlainUrl p (pu_host u);
  url_set_hostname h u := PlainUrl (pu_scheme u) h;
  url_set_search _ u := u;
  url_set_hash _ u := u;
  url_toString u := pu_scheme u ++ js "//" ++ pu_host u ++ js "/"
|}.
