(* ===== verification/WorkspaceCore.v ===== *)
(** Workspace paths and sizes (app/static/js/core/workspace_core.js): display
    and command paths inside the session workspace, and their confinement. *)

From S2P Require Import Prelude JsString JsNumber JsValue.

(** ** Definitions *)

(** Strip one trailing [.0]: [replace(/\.0$/, '')]. *)
Definition strip_dot_zero (s : jsstr) : jsstr :=
  if ends_with (js ".0") s then take (length s - 2) s else s.

Definition formatBytes (bytes : jsval) : jsstr :=
  let n := to_number bytes in
  let value := if truthy (VNum n) then n else num_zero in
  if nltb value (num_of_Z 1024) then num_to_str value ++ js " B"
  else if nltb value (num_of_Z (1024 * 1024))
  then strip_dot_zero (to_fixed 1 (ndiv value (num_of_Z 1024))) ++ js " KB"
  else strip_dot_zero (to_fixed 1 (ndiv value (num_of_Z (1024 * 1024)))) ++ js " MB".

Definition normalizeDir (path : jsval) : jsstr :=
  join (js "/") (filterb nonempty (map trim (split_on 47 (str_of path)))).

Inductive path_error := PathEscapesWorkspace | UnsupportedCharacters.

(** One segment of a command path, applied to the stack of directories. *)
Definition path_step (base : list jsstr) (part : jsstr) : path_error + list jsstr :=
  let trimmed := trim part in
  if negb (nonempty trimmed) || (trimmed ==s js ".") then inr base
  else if trimmed ==s js ".." then
    match base with
    | [] => inl PathEscapesWorkspace
    | _ => inr (removelast base)
    end
  else if has_unit 92 trimmed || has_unit 0 trimmed then inl UnsupportedCharacters
  else inr (base ++ [trimmed]).

Fixpoint path_steps (base : list jsstr) (parts : list jsstr) : path_error + list jsstr :=
  match parts with
  | [] => inr base
  | p :: parts =>
      match path_step base p with
      | inl e => inl e
      | inr base' => path_steps base' parts
      end
  end.

Definition normalizeCommandPath (path cwd : jsval) : path_error + jsstr :=
  let raw := trim (str_of_nullish path) in
  let baseParts :=
    if starts_with (js "/") raw then []
    else filterb nonempty (split_on 47 (normalizeDir cwd)) in
  let rawParts := filterb nonempty (split_on 47 raw) in
  match path_steps baseParts rawParts with
  | inl e => inl e
  | inr parts => inr (join (js "/") parts)
  end.

Definition displayPath (path : jsval) : jsstr :=
  let normalized := normalizeDir path in
  if nonempty normalized then js "/" ++ normalized else js "/".

Definition parentDir (path : jsval) : jsstr :=
  let parts := filterb nonempty (split_on 47 (normalizeDir path)) in
  join (js "/") (removelast parts).

Definition basename (path : jsval) : jsstr :=
  let parts := filterb nonempty (split_on 47 (str_of path)) in
  str_or (default [] (last parts)) (str_of path).

(** ** Path segments *)

(** A segment a normalised directory is made of. *)
Definition segment (s : jsstr) : Prop := s ≠ [] ∧ 47 ∉ s ∧ trim s = s.
(** A segment that names an entry: no traversal, no backslash, no NUL. *)
Definition clean (s : jsstr) : Prop :=
  segment s ∧ s ≠ js "." ∧ s ≠ js ".." ∧ 92 ∉ s ∧ 0 ∉ s.

Lemma Forall_not_elem {A} (x : A) l : Forall (λ y, y ≠ x) l ↔ x ∉ l.
Proof. rewrite Forall_forall. naive_solver. Qed.

Lemma trim_not_elem c s : c ∉ s → c ∉ trim s.
Proof. rewrite <-!Forall_not_elem. apply trim_Forall. Qed.

Lemma segments_split s :
  Forall segment (filterb nonempty (map trim (split_on 47 s))).
Proof.
  apply Forall_forall. intros w Hw. apply elem_of_filterb in Hw as [Hne Hw].
  apply nonempty_spec in Hne. apply list_elem_of_In, in_map_iff in Hw as (p & <- & Hp).
  apply list_elem_of_In in Hp. split; [done|]. split; [|apply trim_idemp].
  apply trim_not_elem. by eapply Forall_forall in Hp; [|apply split_on_parts].
Qed.

Lemma segment_nonempty l : Forall segment l → Forall (λ w, nonempty w = true) l.
Proof. apply Forall_weaken. intros w [H _]. by apply nonempty_spec. Qed.

Lemma segment_no_slash l : Forall segment l → Forall (λ w, 47 ∉ w) l.
Proof. apply Forall_weaken. by intros w (_ & H & _). Qed.

(** Reading a joined path back gives its segments. *)
Lemma split_joined l :
  Forall segment l → filterb nonempty (split_on 47 (join (js "/") l)) = l.
Proof.
  intros H. destruct l as [|w l]; [done|].
  change (js "/") with [47]. rewrite split_join; [|done|by apply segment_no_slash].
  apply filterb_all. apply segment_nonempty in H. by rewrite Forall_forall in H.
Qed.

Lemma normalizeDir_segments path :
  ∃ l, Forall segment l ∧ normalizeDir path = join (js "/") l
       ∧ filterb nonempty (split_on 47 (normalizeDir path)) = l.
Proof.
  pose proof (segments_split (str_of path)) as H. eexists. split; [exact H|].
  split; [done|]. by apply split_joined.
Qed.

Lemma map_trim_segments l : Forall segment l → map trim l = l.
Proof. induction 1 as [|x l (_ & _ & Hx) _ IH]; [done|]. cbn. by rewrite Hx, IH. Qed.

Lemma normalizeDir_joined l :
  Forall segment l → normalizeDir (VStr (join (js "/") l)) = join (js "/") l.
Proof.
  intros H. unfold normalizeDir. rewrite str_of_VStr. f_equal.
  destruct l as [|w l]; [done|].
  change (js "/") with [47]. rewrite split_join; [|done|by apply segment_no_slash].
  rewrite map_trim_segments by done. apply filterb_all. apply segment_nonempty in H. by rewrite Forall_forall in H.
Qed.

Lemma path_step_clean base p base' :
  47 ∉ p → Forall clean base → path_step base p = inr base' → Forall clean base'.
Proof.
  intros Hp Hb. unfold path_step.
  destruct (negb (nonempty (trim p)) || (trim p ==s js ".")) eqn:H1; [by intros [= <-]|].
  destruct (trim p ==s js "..") eqn:H2.
  - destruct base as [|b bs]; [done|].
    destruct (@exists_last _ (b :: bs) ltac:(done)) as (l & w & Hl).
    rewrite Hl in *. rewrite removelast_last. intros [= <-].
    by apply Forall_app in Hb as [Hb _].
  - destruct (has_unit 92 (trim p) || has_unit 0 (trim p)) eqn:H3; [done|].
    intros [= <-]. apply Forall_app. split; [done|]. constructor; [|done].
    apply orb_false_iff in H1 as [Hne H1], H3 as [H3 H4].
    apply negb_false_iff, nonempty_spec in Hne. apply has_unit_false in H3, H4.
    apply bool_decide_eq_false in H1, H2.
    repeat split; try done; [by apply trim_not_elem|apply trim_idemp].
Qed.

Lemma path_steps_clean parts base base' :
  Forall (λ p, 47 ∉ p) parts → Forall clean base →
  path_steps base parts = inr base' → Forall clean base'.
Proof.
  intros Hps. revert base. induction Hps as [|p parts Hp _ IH]; intros base Hb; cbn.
  { by intros [= <-]. }
  destruct (path_step base p) as [e|b] eqn:Hs; [done|].
  intros. eapply IH; [|done]. by eapply path_step_clean.
Qed.

Lemma path_steps_app base l k :
  path_steps base (l ++ k) =
  match path_steps base l with inl e => inl e | inr b => path_steps b k end.
Proof.
  revert base. induction l as [|p l IH]; intros base; cbn; [done|].
  destruct (path_step base p); [done|]. apply IH.
Qed.

Lemma path_step_of_clean base p : clean p → path_step base p = inr (base ++ [p]).
Proof.
  intros ((Hne & _ & Ht) & Hd & Hdd & Hb & Hz). unfold path_step. rewrite Ht.
  apply nonempty_spec in Hne. apply has_unit_false in Hb, Hz.
  rewrite Hne, Hb, Hz. rewrite !bool_decide_false by done. done.
Qed.

Lemma path_steps_of_clean base l : Forall clean l → path_steps base l = inr (base ++ l).
Proof.
  intros H. revert base. induction H as [|p l Hp _ IH]; intros base; cbn.
  { by rewrite app_nil_r. }
  rewrite path_step_of_clean by done. rewrite IH. by rewrite <-(assoc_L (++)).
Qed.

(** How many directories deep a command path goes, [None] once it has left
    the workspace. *)
Definition depth_step (d : option nat) (part : jsstr) : option nat :=
  d ← d;
  let t := trim part in
  if negb (nonempty t) || (t ==s js ".") then Some d
  else if t ==s js ".." then (if d is S d' then Some d' else None)
  else Some (S d).

Definition supported (p : jsstr) : bool := negb (has_unit 92 p || has_unit 0 p).

Lemma depth_step_None parts : foldl depth_step None parts = None.
Proof. induction parts; [done|]. simpl. done. Qed.

Lemma supported_trim p : supported p = true → supported (trim p) = true.
Proof.
  unfold supported. rewrite !negb_true_iff, !orb_false_iff, !has_unit_false.
  intros [? ?]. split; by apply trim_not_elem.
Qed.

Lemma path_steps_depth parts base :
  Forall (λ p, supported p = true) parts →
  match path_steps base parts with
  | inr b => foldl depth_step (Some (length base)) parts = Some (length b)
  | inl e => e = PathEscapesWorkspace ∧ foldl depth_step (Some (length base)) parts = None
  end.
Proof.
  intros Hps. revert base. induction Hps as [|p parts Hp _ IH]; intros base; [done|].
  cbn [path_steps foldl]. apply supported_trim in Hp. unfold supported in Hp.
  apply negb_true_iff in Hp. unfold path_step, depth_step at 2 4. cbn [mbind option_bind].
  destruct (negb (nonempty (trim p)) || (trim p ==s js ".")); [apply IH|].
  case_bool_decide.
  - destruct base as [|b bs]; [by rewrite depth_step_None|].
    specialize (IH (removelast (b :: bs))).
    assert (length (removelast (b :: bs)) = length bs) as Hl.
    { rewrite removelast_firstn_len, firstn_length. simpl. lia. }
    rewrite Hl in IH. apply IH.
  - rewrite Hp. specialize (IH (base ++ [trim p])). rewrite length_app in IH.
    replace (length base + length [trim p])%nat with (S (length base)) in IH by (simpl; lia).
    apply IH.
Qed.

(** An accepted path is made of names of entries. *)
Lemma command_path_parts path cwd p :
  Forall clean (filterb nonempty (split_on 47 (normalizeDir cwd))) →
  normalizeCommandPath path cwd = inr p → ∃ parts, Forall clean parts ∧ p = join (js "/") parts.
Proof.
  intros Hcwd. unfold normalizeCommandPath. destruct (path_steps _ _) as [e|parts] eqn:Hs; [done|]. intros [= <-].
  exists parts. split; [|done]. eapply path_steps_clean; [|  |exact Hs].
  - apply Forall_forall. intros w Hw. apply elem_of_filterb in Hw as [_ Hw].
    by eapply Forall_forall in Hw; [|apply split_on_parts].
  - case_goal; [constructor|done].
Qed.
Lemma clean_segments l : Forall clean l → Forall segment l.
Proof. apply Forall_weaken. by intros w [H _]. Qed.

#[export] Hint Resolve segments_split segment_nonempty segment_no_slash clean_segments : darklab.

(** ** Properties *)

(** A command path never leaves the workspace: when a path is accepted, and
    the current directory is itself clean, every segment of the result names an
    entry (not empty, no dot, no dot-dot, no backslash and no NUL), and the
    result is canonical: written from the root it normalises to itself. *)
Theorem normalizeCommandPath_confined path cwd p :
  Forall clean (filterb nonempty (split_on 47 (normalizeDir cwd))) →
  normalizeCommandPath path cwd = inr p →
  Forall clean (filterb nonempty (split_on 47 p))
  ∧ normalizeCommandPath (VStr (js "/" ++ p)) cwd = inr p.
Proof.
  intros Hcwd Hp. destruct (command_path_parts _ _ _ Hcwd Hp) as (parts & Hc & ->). clear Hp.
  assert (Forall segment parts) as Hseg by (eapply Forall_impl; [exact Hc|by intros ? [? _]]).
  rewrite split_joined by done. split; [done|].
  unfold normalizeCommandPath. rewrite str_of_nullish_VStr.
  assert (trim (js "/" ++ join (js "/") parts) = js "/" ++ join (js "/") parts) as Ht.
  { apply trim_id; [by intros ? [= <-]|]. intros c Hlast.
    destruct parts as [|w l]; [by injection Hlast as <-|].
    destruct (@exists_last _ (w :: l) ltac:(done)) as (l' & w' & Hl). rewrite Hl in *.
    apply Forall_app in Hseg as [_ Hw]. apply Forall_cons in Hw as [(Hne & _ & Htw) _].
    assert (∃ pre, js "/" ++ join (js "/") (l' ++ [w']) = pre ++ w') as [pre Hpre].
    { destruct l' as [|v l']; [by exists (js "/")|].
      rewrite join_app by done. eexists. by rewrite !(assoc_L (++)). }
    rewrite Hpre, last_app in Hlast. rewrite <-Htw in Hlast.
    destruct (last (trim w')) as [c'|] eqn:Hl'.
    - injection Hlast as <-. unfold trim in Hl'. by apply trim_end_last in Hl'.
    - apply last_None in Hl'. congruence. }
  rewrite Ht. rewrite starts_with_app.
  assert (filterb nonempty (split_on 47 (js "/" ++ join (js "/") parts)) = parts) as ->.
  { change (js "/" ++ join (js "/") parts) with (47 :: join (js "/") parts).
    cbn [split_on]. rewrite Z.eqb_refl. cbn [filterb nonempty]. by apply split_joined. }
  by rewrite path_steps_of_clean.
Qed.

Lemma normalizeCommandPath_confined_witness :
  normalizeCommandPath (vstr "../b/./c") (vstr "/work/a") = inr (js "work/b/c")
  ∧ normalizeCommandPath (VStr (js "/" ++ js "work/b/c")) (vstr "/work/a") = inr (js "work/b/c").
Proof.
  split; [reflexivity|].
  apply (normalizeCommandPath_confined (vstr "../b/./c") (vstr "/work/a") (js "work/b/c")).
  - repeat constructor; try discriminate; try reflexivity; vm_compute; intros H;
      repeat (apply elem_of_cons in H as [H|H]; [discriminate|]);
      by apply not_elem_of_nil in H.
  - reflexivity.
Defined.

(** When a path escapes. For paths without unsupported characters the escape
    error is raised exactly when the walk over the segments goes above the
    root at some point, even when a later segment would come back down. *)
Theorem normalizeCommandPath_escape path cwd :
  let raw := trim (str_of_nullish path) in
  let base := if starts_with (js "/") raw then []
              else filterb nonempty (split_on 47 (normalizeDir cwd)) in
  let parts := filterb nonempty (split_on 47 raw) in
  Forall (λ p, supported p = true) parts →
  normalizeCommandPath path cwd = inl PathEscapesWorkspace
  ↔ foldl depth_step (Some (length base)) parts = None.
Proof.
  intros raw base parts Hs. unfold normalizeCommandPath. fold raw. fold base. fold parts.
  pose proof (path_steps_depth parts base Hs) as Hd.
  destruct (path_steps base parts); [destruct Hd as [-> ->]|rewrite Hd]; done.
Qed.

Lemma normalizeCommandPath_escape_witness :
  normalizeCommandPath (vstr "a/../../x") VUndef = inl PathEscapesWorkspace.
Proof.
  apply (normalizeCommandPath_escape (vstr "a/../../x") VUndef).
  - vm_compute. repeat constructor.
  - reflexivity.
Defined.
