(* ===== verification/PreferenceCore.v ===== *)
(** Session preferences (app/static/js/core/app_preferences_core.js): the
    supported values and the normalisation of a preference snapshot. *)

From S2P Require Import Prelude JsString JsNumber JsRegExp JsValue.

(** ** Definitions *)

Definition WELCOME_INTRO_MODES := map js ["animated"; "disable_animation"; "remove"]%string.
Definition SHARE_REDACTION_DEFAULT_MODES := map js ["unset"; "redacted"; "raw"]%string.
Definition HUD_CLOCK_MODES := map js ["utc"; "local"]%string.
Definition COMPARE_VIEW_MODES :=
  map js ["auto"; "side_by_side"; "unified"; "changes_only"; "findings_only"]%string.
Definition COMPARE_CONTEXT_MODES := map js ["3"; "10"; "all"]%string.
Definition OPTIONS_MODAL_TABS :=
  map js ["preferences"; "access"; "secrets"; "teams"; "notifications"]%string.
Definition TIMESTAMP_MODES := map js ["off"; "elapsed"; "clock"]%string.

Definition SESSION_PREFERENCE_KEYS := map js
  ["pref_active_project_id"; "pref_theme_name"; "pref_timestamps"; "pref_line_numbers";
   "pref_welcome_intro"; "pref_share_redaction_default";
   "pref_project_auto_link_external_runs"; "pref_project_auto_link_run_entities";
   "pref_run_notify"; "pref_command_outcome_summaries"; "pref_hud_clock";
   "pref_prompt_username"; "pref_compare_view_mode"; "pref_compare_context";
   "pref_options_modal_last_tab"; "pref_tour_seen_version";
   "pref_constellation_full_day"]%string.

Definition coerceMode (value : jsval) (modes : list jsstr) (fallback : jsstr) : jsstr :=
  match value with
  | VStr s => if bool_decide (s ∈ modes) then s else fallback
  | _ => fallback
  end.
Definition coerceTimestampMode (value : jsval) (modes : list jsstr) : jsstr :=
  coerceMode value modes (js "off").
Definition coerceLineNumberMode (value : jsval) : jsstr :=
  if is_str value (js "on") then js "on" else js "off".
Definition coerceWelcomeIntroMode (value : jsval) : jsstr :=
  coerceMode value WELCOME_INTRO_MODES (js "animated").
Definition coerceShareRedactionDefaultMode (value : jsval) : jsstr :=
  coerceMode value SHARE_REDACTION_DEFAULT_MODES (js "unset").
Definition coerceRunNotifyMode (value : jsval) : jsstr :=
  if is_str value (js "on") then js "on" else js "off".
Definition coerceCommandOutcomeSummariesMode (value : jsval) : jsstr :=
  if is_str value (js "off") then js "off" else js "on".
Definition coerceConstellationFullDayMode (value : jsval) : jsstr :=
  if is_str value (js "on") then js "on" else js "off".
Definition coerceHudClockMode (value : jsval) : jsstr :=
  coerceMode value HUD_CLOCK_MODES (js "utc").
Definition coerceCompareViewMode (value : jsval) : jsstr :=
  coerceMode value COMPARE_VIEW_MODES (js "auto").
Definition coerceCompareContextMode (value : jsval) : jsstr :=
  let normalized := lower (trim (str_of value)) in
  coerceMode (VStr normalized) COMPARE_CONTEXT_MODES (js "3").
Definition coerceOptionsModalTab (value : jsval) : jsstr :=
  let normalized := lower (trim (str_of value)) in
  coerceMode (VStr normalized) OPTIONS_MODAL_TABS (js "preferences").

Definition USERNAME_RE : regexp := Eval vm_compute in lit "^[A-Za-z0-9._-]{1,32}$" false.
Definition PROJECT_ID_RE : regexp := Eval vm_compute in lit "^prj_[0-9a-f]{16}$" false.

Definition normalizePromptUsername (value : jsval) : jsstr :=
  let username := trim (str_of value) in
  if test USERNAME_RE username then username else [].

(** A version number, or the empty string. *)
Definition coerceTourSeenVersion (value : jsval) : jsval :=
  if nullish value || is_str value [] then VStr []
  else
    let parsed := parse_int (trim (to_string value)) in
    if is_finite parsed && nleb (num_of_Z 1) parsed then VNum parsed else VStr [].

Definition defaultSessionPreferences (defaultTheme : jsstr) : props :=
  [(js "pref_theme_name", VStr (str_or defaultTheme (js "darklab_obsidian.yaml")));
   (js "pref_active_project_id", VStr []);
   (js "pref_timestamps", vstr "off");
   (js "pref_line_numbers", vstr "off");
   (js "pref_welcome_intro", vstr "animated");
   (js "pref_share_redaction_default", vstr "unset");
   (js "pref_project_auto_link_external_runs", vstr "on");
   (js "pref_project_auto_link_run_entities", vstr "on");
   (js "pref_run_notify", vstr "off");
   (js "pref_command_outcome_summaries", vstr "on");
   (js "pref_hud_clock", vstr "utc");
   (js "pref_prompt_username", VStr []);
   (js "pref_compare_view_mode", vstr "auto");
   (js "pref_compare_context", vstr "3");
   (js "pref_options_modal_last_tab", vstr "preferences");
   (js "pref_tour_seen_version", VStr []);
   (js "pref_constellation_full_day", vstr "off")].

(** The two keys that keep the default unless the source has a usable value. *)
Definition theme_update (source : jsval) : props :=
  match get source (js "pref_theme_name") with
  | VStr s => if nonempty (trim s) then [(js "pref_theme_name", VStr (trim s))] else []
  | _ => []
  end.
Definition project_update (source : jsval) : props :=
  match get source (js "pref_active_project_id") with
  | VStr s => if test PROJECT_ID_RE s then [(js "pref_active_project_id", VStr s)] else []
  | _ => []
  end.
Definition on_unless_off (v : jsval) : jsstr := if is_str v (js "off") then js "off" else js "on".

(** The assignments of the normalisation, in order. *)
Definition preference_updates (source : jsval) (timestampModes : list jsstr) : props :=
  let src k := get source (js k) in
  theme_update source ++ project_update source ++
  [(js "pref_timestamps", VStr (coerceTimestampMode (src "pref_timestamps"%string) timestampModes));
   (js "pref_line_numbers", VStr (coerceLineNumberMode (src "pref_line_numbers"%string)));
   (js "pref_welcome_intro", VStr (coerceWelcomeIntroMode (src "pref_welcome_intro"%string)));
   (js "pref_share_redaction_default",
     VStr (coerceShareRedactionDefaultMode (src "pref_share_redaction_default"%string)));
   (js "pref_project_auto_link_external_runs",
     VStr (on_unless_off (src "pref_project_auto_link_external_runs"%string)));
   (js "pref_project_auto_link_run_entities",
     VStr (on_unless_off (src "pref_project_auto_link_run_entities"%string)));
   (js "pref_run_notify", VStr (coerceRunNotifyMode (src "pref_run_notify"%string)));
   (js "pref_command_outcome_summaries",
     VStr (coerceCommandOutcomeSummariesMode (src "pref_command_outcome_summaries"%string)));
   (js "pref_hud_clock", VStr (coerceHudClockMode (src "pref_hud_clock"%string)));
   (js "pref_prompt_username", VStr (normalizePromptUsername (src "pref_prompt_username"%string)));
   (js "pref_compare_view_mode", VStr (coerceCompareViewMode (src "pref_compare_view_mode"%string)));
   (js "pref_compare_context", VStr (coerceCompareContextMode (src "pref_compare_context"%string)));
   (js "pref_options_modal_last_tab",
     VStr (coerceOptionsModalTab (src "pref_options_modal_last_tab"%string)));
   (js "pref_tour_seen_version", coerceTourSeenVersion (src "pref_tour_seen_version"%string));
   (js "pref_constellation_full_day",
     VStr (coerceConstellationFullDayMode (src "pref_constellation_full_day"%string)))].

Definition normalizeSessionPreferences (raw : jsval) (defaults : option props)
    (timestampModes : list jsstr) : props :=
  let prefs := default (defaultSessionPreferences (js "darklab_obsidian.yaml")) defaults in
  let source := if is_objectlike raw then raw else VObj [] in
  spread prefs (preference_updates source timestampModes).

Definition sessionPreferenceCacheKey (sessionId : jsval) : jsstr :=
  js "session_pref_cache:" ++ str_of sessionId.

(** ** Lemmas *)

(** The coercion of each key that has one. *)
Definition coercers (tm : list jsstr) : list (string * (jsval → jsval)) :=
  [("pref_timestamps", λ v, VStr (coerceTimestampMode v tm));
   ("pref_line_numbers", λ v, VStr (coerceLineNumberMode v));
   ("pref_welcome_intro", λ v, VStr (coerceWelcomeIntroMode v));
   ("pref_share_redaction_default", λ v, VStr (coerceShareRedactionDefaultMode v));
   ("pref_project_auto_link_external_runs", λ v, VStr (on_unless_off v));
   ("pref_project_auto_link_run_entities", λ v, VStr (on_unless_off v));
   ("pref_run_notify", λ v, VStr (coerceRunNotifyMode v));
   ("pref_command_outcome_summaries", λ v, VStr (coerceCommandOutcomeSummariesMode v));
   ("pref_hud_clock", λ v, VStr (coerceHudClockMode v));
   ("pref_prompt_username", λ v, VStr (normalizePromptUsername v));
   ("pref_compare_view_mode", λ v, VStr (coerceCompareViewMode v));
   ("pref_compare_context", λ v, VStr (coerceCompareContextMode v));
   ("pref_options_modal_last_tab", λ v, VStr (coerceOptionsModalTab v));
   ("pref_tour_seen_version", coerceTourSeenVersion);
   ("pref_constellation_full_day", λ v, VStr (coerceConstellationFullDayMode v))]%string.

Definition coerced (source : jsval) (c : string * (jsval → jsval)) : jsstr * jsval :=
  (js (fst c), snd c (get source (js (fst c)))).

Lemma updates_eq source tm :
  preference_updates source tm
  = theme_update source ++ project_update source ++ map (coerced source) (coercers tm).
Proof. reflexivity. Qed.

(** What a stored value of each key may be. *)
Definition one_of (l : list jsstr) (v : jsval) : bool :=
  match v with VStr s => bool_decide (s ∈ l) | _ => false end.
Definition on_off : jsval → bool := one_of (map js ["on"; "off"]%string).
Definition pref_tests (tm : list jsstr) : list (string * (jsval → bool)) :=
  [("pref_theme_name", λ v, match v with VStr s => nonempty s && (trim s ==s s) | _ => false end);
   ("pref_active_project_id",
     λ v, match v with VStr s => negb (nonempty s) || test PROJECT_ID_RE s | _ => false end);
   ("pref_timestamps", one_of (js "off" :: tm)); ("pref_line_numbers", on_off);
   ("pref_welcome_intro", one_of WELCOME_INTRO_MODES);
   ("pref_share_redaction_default", one_of SHARE_REDACTION_DEFAULT_MODES);
   ("pref_project_auto_link_external_runs", on_off);
   ("pref_project_auto_link_run_entities", on_off); ("pref_run_notify", on_off);
   ("pref_command_outcome_summaries", on_off); ("pref_hud_clock", one_of HUD_CLOCK_MODES);
   ("pref_prompt_username",
     λ v, match v with VStr s => negb (nonempty s) || test USERNAME_RE s | _ => false end);
   ("pref_compare_view_mode", one_of COMPARE_VIEW_MODES);
   ("pref_compare_context", one_of COMPARE_CONTEXT_MODES);
   ("pref_options_modal_last_tab", one_of OPTIONS_MODAL_TABS);
   ("pref_tour_seen_version",
     λ v, match v with VStr [] => true | VNum n => is_finite n && nleb (num_of_Z 1) n | _ => false end);
   ("pref_constellation_full_day", on_off)]%string.
Definition pref_ok (tm : list jsstr) (p : jsstr * jsval) : Prop :=
  Exists (λ t, js (fst t) = fst p ∧ snd t (snd p) = true) (pref_tests tm).

Ltac pick_test :=
  first [apply Exists_cons_hd; split; [vm_compute; reflexivity|]; cbn [snd]
        | apply Exists_cons_tl; pick_test].

Lemma coerceMode_mem v modes f : coerceMode v modes f ∈ f :: modes.
Proof. destruct v; cbn; try by left. case_bool_decide; set_solver. Qed.
Lemma one_of_coerce v modes f : one_of (f :: modes) (VStr (coerceMode v modes f)) = true.
Proof. apply bool_decide_eq_true, coerceMode_mem. Qed.
Lemma one_of_coerce_in v modes f : f ∈ modes → one_of modes (VStr (coerceMode v modes f)) = true.
Proof.
  intros Hf. apply bool_decide_eq_true. by destruct (proj1 (elem_of_cons _ _ _) (coerceMode_mem v modes f)) as [->|].
Qed.
Lemma on_off_if (b : bool) x y :
  x ∈ map js ["on"; "off"]%string → y ∈ map js ["on"; "off"]%string →
  on_off (VStr (if b then x else y)) = true.
Proof. intros. apply bool_decide_eq_true. by destruct b. Qed.
Lemma is_on : js "on" ∈ map js ["on"; "off"]%string.
Proof. by left. Qed.
Lemma is_off : js "off" ∈ map js ["on"; "off"]%string.
Proof. by right; left. Qed.

Lemma coerced_ok source tm : Forall (pref_ok tm) (map (coerced source) (coercers tm)).
Proof.
  repeat apply Forall_cons_2; [..|constructor]; unfold pref_ok, coerced; cbn [fst snd];
    pick_test; try (apply on_off_if; first [apply is_on|apply is_off]).
  - apply one_of_coerce.
  - apply (one_of_coerce_in _ WELCOME_INTRO_MODES). by left.
  - apply (one_of_coerce_in _ SHARE_REDACTION_DEFAULT_MODES). by left.
  - apply (one_of_coerce_in _ HUD_CLOCK_MODES). by left.
  - unfold normalizePromptUsername. cbv zeta. destruct (test _ _) eqn:Ht; [|done].
    by rewrite Ht, orb_true_r.
  - apply (one_of_coerce_in _ COMPARE_VIEW_MODES). by left.
  - apply (one_of_coerce_in _ COMPARE_CONTEXT_MODES). by left.
  - apply (one_of_coerce_in _ OPTIONS_MODAL_TABS). by left.
  - unfold coerceTourSeenVersion. destruct (nullish _ || _); [done|]. cbv zeta.
    by destruct (is_finite _ && _) eqn:Hc.
Qed.

Lemma updates_ok source tm : Forall (pref_ok tm) (preference_updates source tm).
Proof.
  rewrite updates_eq. rewrite !Forall_app. split_and!; [| |apply coerced_ok].
  - unfold theme_update. destruct (get _ _) as [| | | |s| | |]; try constructor.
    destruct (nonempty (trim s)) eqn:Hn; [|constructor]. apply Forall_singleton. unfold pref_ok.
    pick_test. rewrite Hn. apply bool_decide_eq_true, trim_idemp.
  - unfold project_update. destruct (get _ _) as [| | | |s| | |]; try constructor.
    destruct (test PROJECT_ID_RE s) eqn:Ht; [|constructor]. apply Forall_singleton. unfold pref_ok.
    pick_test. by rewrite Ht, orb_true_r.
Qed.

Lemma defaults_ok tm : Forall (pref_ok tm) (defaultSessionPreferences (js "darklab_obsidian.yaml")).
Proof.
  repeat apply Forall_cons_2; [..|constructor]; unfold pref_ok; pick_test; try (vm_compute; reflexivity).
Qed.

Definition coerced_keys : list jsstr := Eval vm_compute in map (λ c, js (fst c)) (coercers []).
Lemma updates_keys source tm :
  (preference_updates source tm).*1
  = (theme_update source).*1 ++ (project_update source).*1 ++ coerced_keys.
Proof.
  rewrite updates_eq, !fmap_app. do 2 f_equal.
Qed.

Lemma theme_update_cases source :
  theme_update source = [] ∨
  ∃ s, get source (js "pref_theme_name") = VStr s ∧ nonempty (trim s) = true
       ∧ theme_update source = [(js "pref_theme_name", VStr (trim s))].
Proof.
  unfold theme_update. destruct (get _ _) as [| | | |s| | |]; auto.
  destruct (nonempty (trim s)) eqn:Hn; eauto.
Qed.
Lemma project_update_cases source :
  project_update source = [] ∨
  ∃ s, get source (js "pref_active_project_id") = VStr s ∧ test PROJECT_ID_RE s = true
       ∧ project_update source = [(js "pref_active_project_id", VStr s)].
Proof.
  unfold project_update. destruct (get _ _) as [| | | |s| | |]; auto.
  destruct (test PROJECT_ID_RE s) eqn:Hn; eauto.
Qed.

Notation default_prefs := (defaultSessionPreferences (js "darklab_obsidian.yaml")).
Definition theme_key : jsstr := Eval vm_compute in js "pref_theme_name".
Definition project_key : jsstr := Eval vm_compute in js "pref_active_project_id".
Definition all_keys : list jsstr := [theme_key] ++ [project_key] ++ coerced_keys.
Lemma default_keys : default_prefs.*1 = all_keys.
Proof. vm_compute. reflexivity. Qed.
Lemma all_keys_NoDup : NoDup all_keys.
Proof. apply (bool_decide_unpack _). vm_compute. exact I. Qed.

Lemma updates_names source tm : (preference_updates source tm).*1 `sublist_of` all_keys.
Proof.
  rewrite updates_keys. assert (js "pref_theme_name" = theme_key) as Ht by (vm_compute; reflexivity).
  assert (js "pref_active_project_id" = project_key) as Hp by (vm_compute; reflexivity).
  unfold all_keys. repeat apply sublist_app; [| |done].
  - destruct (theme_update_cases source) as [->|(s & _ & _ & ->)]; [apply sublist_nil_l|].
    cbn [fmap list_fmap fst]. by rewrite Ht.
  - destruct (project_update_cases source) as [->|(s & _ & _ & ->)]; [apply sublist_nil_l|].
    cbn [fmap list_fmap fst]. by rewrite Hp.
Qed.

Notation normalized raw tm := (normalizeSessionPreferences raw None tm).
Definition source_of (raw : jsval) : jsval := if is_objectlike raw then raw else VObj [].

Lemma normalized_eq raw tm :
  normalized raw tm = spread default_prefs (preference_updates (source_of raw) tm).
Proof. done. Qed.

Lemma normalized_keys raw tm : (normalized raw tm).*1 = all_keys.
Proof.
  rewrite normalized_eq, spread_keys; [apply default_keys|]. rewrite default_keys.
  intros k Hk. eapply elem_of_sublist; [exact Hk|apply updates_names].
Qed.

Lemma own_normalized raw tm k :
  own (normalized raw tm) k
  = match own (preference_updates (source_of raw) tm) k with
    | Some v => Some v | None => own default_prefs k end.
Proof.
  rewrite normalized_eq. apply own_spread. eapply sublist_NoDup; [apply all_keys_NoDup|].
  apply updates_names.
Qed.

(** Each coercion's value is in the snapshot. *)
Lemma own_coerced raw tm c :
  c ∈ coercers tm →
  own (normalized raw tm) (js (fst c)) = Some (snd c (get (source_of raw) (js (fst c)))).
Proof.
  intros Hc. rewrite own_normalized, (own_of_elem _ _ (snd c (get (source_of raw) (js (fst c))))); [done| |].
  - eapply sublist_NoDup; [apply all_keys_NoDup|apply updates_names].
  - rewrite updates_eq, !elem_of_app. right. right. apply list_elem_of_In, in_map_iff.
    exists c. split; [done|by apply list_elem_of_In].
Qed.

(** Each coercion is idempotent; that of the tour version only up to the
    printing of a number. *)
Lemma coerceMode_idemp v modes f : coerceMode (VStr (coerceMode v modes f)) modes f = coerceMode v modes f.
Proof.
  destruct v; cbn; try (by case_bool_decide). destruct (bool_decide_reflect (s ∈ modes)); cbn.
  - by rewrite bool_decide_true.
  - by case_bool_decide.
Qed.
Lemma on_off_idemp (v : jsval) (w x y : jsstr) :
  (x ==s w) = true → (y ==s w) = false →
  (if is_str (VStr (if is_str v w then x else y)) w then x else y) = if is_str v w then x else y.
Proof. intros Hx Hy. destruct (is_str v w); cbn; by rewrite ?Hx, ?Hy. Qed.
Lemma trimmed_mode_idemp v modes f :
  Forall (λ m, lower (trim m) = m) (f :: modes) →
  coerceMode (VStr (lower (trim (str_of (VStr (coerceMode v modes f)))))) modes f = coerceMode v modes f.
Proof.
  intros Hf. pose proof (coerceMode_mem v modes f) as Hm.
  rewrite str_of_VStr, (proj1 (Forall_forall _ _) Hf _ Hm). apply coerceMode_idemp.
Qed.

Definition tour_key : string := "pref_tour_seen_version".
Lemma coercers_idemp tm :
  Forall (λ c, fst c ≠ tour_key → ∀ v, snd c (snd c v) = snd c v) (coercers tm).
Proof.
  repeat apply Forall_cons_2; [..|constructor]; cbn [fst snd]; intros Hne v; try (by destruct Hne);
    f_equal; try apply coerceMode_idemp; try (apply on_off_idemp; vm_compute; reflexivity).
  - unfold normalizePromptUsername. cbv zeta. rewrite str_of_VStr.
    destruct (test USERNAME_RE (trim (str_of v))) eqn:Ht; [by rewrite trim_idemp, Ht|].
    by case_goal.
  - apply trimmed_mode_idemp. repeat constructor; vm_compute; reflexivity.
  - apply trimmed_mode_idemp. repeat constructor; vm_compute; reflexivity.
Qed.

Lemma get_normalized raw tm k v :
  own (normalized raw tm) k = Some v → get (source_of (VObj (normalized raw tm))) k = v.
Proof. intros H. cbn [source_of is_objectlike get]. unfold table_get. by rewrite H. Qed.

Lemma own_theme raw tm :
  own (normalized raw tm) (js "pref_theme_name")
  = Some (default (vstr "darklab_obsidian.yaml") (own (theme_update (source_of raw)) (js "pref_theme_name"))).
Proof.
  rewrite own_normalized, updates_eq, !own_app.
  assert (own (project_update (source_of raw)) (js "pref_theme_name") = None) as ->.
  { destruct (project_update_cases (source_of raw)) as [->|(s & _ & _ & ->)]; [done|].
    cbn [own]. assert ((js "pref_theme_name" ==s js "pref_active_project_id") = false) as ->
      by (vm_compute; reflexivity). done. }
  assert (own (map (coerced (source_of raw)) (coercers tm)) (js "pref_theme_name") = None) as ->.
  { apply own_None. change (map (coerced (source_of raw)) (coercers tm)).*1 with coerced_keys.
    apply (bool_decide_unpack _). vm_compute. exact I. }
  destruct (own (theme_update (source_of raw)) (js "pref_theme_name")); [done|].
  vm_compute. reflexivity.
Qed.

Lemma own_project raw tm :
  own (normalized raw tm) (js "pref_active_project_id")
  = Some (default (VStr []) (own (project_update (source_of raw)) (js "pref_active_project_id"))).
Proof.
  rewrite own_normalized, updates_eq, !own_app.
  assert (own (theme_update (source_of raw)) (js "pref_active_project_id") = None) as ->.
  { destruct (theme_update_cases (source_of raw)) as [->|(s & _ & _ & ->)]; [done|].
    cbn [own]. assert ((js "pref_active_project_id" ==s js "pref_theme_name") = false) as ->
      by (vm_compute; reflexivity). done. }
  assert (own (map (coerced (source_of raw)) (coercers tm)) (js "pref_active_project_id") = None) as ->.
  { apply own_None. change (map (coerced (source_of raw)) (coercers tm)).*1 with coerced_keys.
    apply (bool_decide_unpack _). vm_compute. exact I. }
  destruct (own (project_update (source_of raw)) (js "pref_active_project_id")); [done|].
  vm_compute. reflexivity.
Qed.

Lemma renormalized_coerced raw tm c :
  c ∈ coercers tm → fst c ≠ tour_key →
  own (normalized (VObj (normalized raw tm)) tm) (js (fst c)) = own (normalized raw tm) (js (fst c)).
Proof.
  intros Hc Hne. rewrite !(own_coerced _ _ c) by done. f_equal.
  rewrite (get_normalized raw tm _ (snd c (get (source_of raw) (js (fst c))))) by by apply own_coerced.
  by apply (proj1 (Forall_forall _ _) (coercers_idemp tm) _ Hc).
Qed.

Lemma renormalized_theme raw tm :
  own (normalized (VObj (normalized raw tm)) tm) (js "pref_theme_name")
  = own (normalized raw tm) (js "pref_theme_name").
Proof.
  pose proof (own_theme raw tm) as H. rewrite own_theme, H. f_equal.
  unfold theme_update at 1. rewrite (get_normalized _ _ _ _ H).
  destruct (theme_update_cases (source_of raw)) as [->|(s & _ & Hn & ->)].
  - vm_compute. reflexivity.
  - cbn [own]. rewrite bool_decide_true by done. cbn [from_option id].
    rewrite trim_idemp, Hn. cbn [own]. by rewrite bool_decide_true.
Qed.

Lemma renormalized_project raw tm :
  own (normalized (VObj (normalized raw tm)) tm) (js "pref_active_project_id")
  = own (normalized raw tm) (js "pref_active_project_id").
Proof.
  pose proof (own_project raw tm) as H. rewrite own_project, H. f_equal.
  unfold project_update at 1. rewrite (get_normalized _ _ _ _ H).
  destruct (project_update_cases (source_of raw)) as [->|(s & _ & Ht & ->)].
  - vm_compute. reflexivity.
  - cbn [own]. rewrite bool_decide_true by done. cbn [from_option id].
    rewrite Ht. cbn [own]. by rewrite bool_decide_true.
Qed.

Lemma all_keys_cases tm k :
  k ∈ all_keys → k = js "pref_theme_name" ∨ k = js "pref_active_project_id"
                 ∨ ∃ c, c ∈ coercers tm ∧ k = js (fst c).
Proof.
  unfold all_keys. rewrite !elem_of_app, !list_elem_of_singleton. intros [->|[->|Hk]].
  - left. vm_compute. reflexivity.
  - right. left. vm_compute. reflexivity.
  - right. right. change coerced_keys with (map (λ c, js (fst c)) (coercers tm)) in Hk.
    apply list_elem_of_In, in_map_iff in Hk as (c & <- & Hc). exists c.
    split; [by apply list_elem_of_In|done].
Qed.

(** ** Properties *)

(** Normalising a preference snapshot, whatever was stored, gives a value
    for every preference and nothing else, each value being a supported one,
    and normalising the result again changes nothing (the version of the tour
    apart, whose number is printed and parsed). *)
Theorem preferences_normal_form raw tm :
  let prefs := normalizeSessionPreferences raw None tm in
  prefs.*1 ≡ₚ SESSION_PREFERENCE_KEYS
  ∧ Forall (pref_ok tm) prefs
  ∧ ∀ k, k ≠ js tour_key →
      own (normalizeSessionPreferences (VObj prefs) None tm) k = own prefs k.
Proof.
  cbv zeta. split_and!.
  - rewrite normalized_keys. apply (bool_decide_unpack _). vm_compute. exact I.
  - apply spread_Forall; [apply defaults_ok|apply updates_ok].
  - intros k Hk. destruct (decide (k ∈ all_keys)) as [Hin|Hin].
    + destruct (all_keys_cases tm k Hin) as [->|[->|(c & Hc & ->)]];
        [apply renormalized_theme|apply renormalized_project|].
      apply renormalized_coerced; [done|]. intros He. by rewrite He in Hk.
    + assert (∀ r, own (normalized r tm) k = None) as Hn
        by (intros r; apply own_None; by rewrite normalized_keys). by rewrite !Hn.
Qed.

Lemma preferences_normal_form_witness :
  let prefs := normalizeSessionPreferences (VObj [(js "pref_hud_clock", vstr "mars")]) None TIMESTAMP_MODES in
  own (normalizeSessionPreferences (VObj prefs) None TIMESTAMP_MODES) (js "pref_hud_clock")
  = own prefs (js "pref_hud_clock").
Proof.
  apply (preferences_normal_form (VObj [(js "pref_hud_clock", vstr "mars")]) TIMESTAMP_MODES).
  by vm_compute.
Defined.
