(* ===== verification/SearchCore.v ===== *)
(** Output search helpers (app/static/js/core/search_core.js): scope labels,
    signal counts and the summary groupings. *)

From stdpp Require Import gmap.
From S2P Require Import Prelude JsString JsNumber JsValue.

(** ** Definitions *)

Definition SEARCH_SCOPE_LABELS : props :=
  [(js "text", vstr "text"); (js "findings", vstr "findings"); (js "warnings", vstr "warnings");
   (js "errors", vstr "errors"); (js "summaries", vstr "summaries")].
Definition SEARCH_SUMMARY_LIMIT : nat := 25.

Definition searchScopeButtonLabel (scope : jsstr) (count : jsval) : jsstr :=
  if scope ==s js "text" then js "text"
  else to_string (table_get SEARCH_SCOPE_LABELS scope) ++ js " (" ++ to_string count ++ js ")".

(** [base.replace(/s$/, '')]. *)
Definition strip_plural (base : jsstr) : jsstr :=
  if ends_with (js "s") base then drop_last base else base.

Definition scope_label_or_matches (scope : jsstr) : jsstr :=
  to_string (js_or (table_get SEARCH_SCOPE_LABELS scope) (vstr "matches")).

Definition searchScopeUnitLabel (scope : jsstr) (count : jsval) : jsstr :=
  if scope ==s js "summaries" then
    (if is_int_eq count 1 then js "summary" else js "summaries")
  else
    let base := scope_label_or_matches scope in
    if is_int_eq count 1 then strip_plural base else base.

(** One [if (state.k > 0) parts.push(...)] of the finding summary. *)
Definition summary_part (count : jsval) (stem one many : string) : list jsstr :=
  if gt_int count 0
  then [to_string count ++ js " " ++ js stem ++ (if is_int_eq count 1 then js one else js many)]
  else [].

Definition formatFindingSummary (counts : jsval) : jsstr :=
  let state := js_or counts (VObj []) in
  join (js " • ")
    (summary_part (get state (js "findings")) "finding" EmptyString "s"
     ++ summary_part (get state (js "warnings")) "warning" EmptyString "s"
     ++ summary_part (get state (js "errors")) "error" EmptyString "s"
     ++ summary_part (get state (js "summaries")) "summar" "y" "ies").

Definition searchNoMatchesLabel (scope : jsstr) : jsstr :=
  if scope ==s js "text" then js "no matches" else js "no " ++ scope_label_or_matches scope.

Definition searchInputPlaceholder (scope : jsstr) : jsstr :=
  if scope ==s js "text" then js "Search output…"
  else if scope ==s js "summaries" then js "Jump between summary lines…"
  else js "Jump between " ++ scope_label_or_matches scope ++ js "…".

Definition normalize_count (counts : jsval) (k : string) : num :=
  num_max num_zero (to_number (js_or (get counts (js k)) (vint 0))).

Record signal_counts := SignalCounts
  { sc_findings : num; sc_warnings : num; sc_errors : num; sc_summaries : num }.

Definition normalizeSignalCounts (counts : jsval) : signal_counts :=
  SignalCounts (normalize_count counts "findings") (normalize_count counts "warnings")
               (normalize_count counts "errors") (normalize_count counts "summaries").

Definition summaryCommandRoot (command : jsval) : jsstr := lower (first_word (str_of command)).

(** A section is a pair of a scope and its lines. *)
Definition section_of (v : jsval) : jsval * jsval :=
  match v with
  | VArr l => (default VUndef (l !! 0%nat), default VUndef (l !! 1%nat))
  | _ => (VUndef, VUndef)
  end.

Definition summarySectionsTotal (sections : jsval) : nat :=
  fold_left (λ sum s, (sum + length (items_of (snd (section_of s))))%nat) (items_of sections) 0%nat.

(** The [counts] map and the [ordered] list the two labellings build. *)
Definition tally_step (st : gmap jsstr nat * list jsstr) (text : jsstr) : gmap jsstr nat * list jsstr :=
  let '(counts, ordered) := st in
  if nonempty text then
    let '(counts, ordered) :=
      match counts !! text with
      | None => (<[text := 0%nat]> counts, ordered ++ [text])
      | Some _ => (counts, ordered)
      end in
    (<[text := (default 0%nat (counts !! text) + 1)%nat]> counts, ordered)
  else st.
Definition tally_labels (st : gmap jsstr nat * list jsstr) : list jsstr :=
  let '(counts, ordered) := st in
  map (λ line,
    let count := default 0%nat (counts !! line) in
    if bool_decide (1 < count)%nat then line ++ js " (" ++ str_of_nat count ++ js ")" else line)
  ordered.

Definition summaryCompactLines (lines : jsval) : list jsstr :=
  tally_labels (fold_left tally_step (map (λ l, trim (str_of l)) (items_of lines)) (∅, [])).

Definition summaryCommandLabels (items : jsval) : list jsstr :=
  tally_labels (fold_left tally_step
    (map (λ i, trim (str_of (get i (js "command")))) (items_of items)) (∅, [])).

Definition SUMMARY_SCOPES : list jsstr := map js ["findings"; "warnings"; "errors"; "summaries"]%string.

Definition merge_scope (items : list jsval) (scope : jsstr) : list jsval :=
  flat_map (λ item,
    match findb (λ s, is_str (fst (section_of s)) scope) (items_of (get item (js "sections"))) with
    | Some s => items_of (snd (section_of s))
    | None => []
    end) items.

Definition summaryMergeSections (items : jsval) : list (jsstr * list jsval) :=
  map (λ scope, (scope, merge_scope (items_of items) scope)) SUMMARY_SCOPES.

(** The root and target groups, in order of first appearance. *)
Record summary_item := SummaryItem { si_root : jsstr; si_target : jsstr; si_value : jsval }.
Notation target_groups := (list (jsstr * list summary_item)).
Notation root_groups := (list (jsstr * target_groups)).

Fixpoint add_to_target (i : summary_item) (g : target_groups) : target_groups :=
  match g with
  | [] => [(si_target i, [i])]
  | (t, l) :: g => if t ==s si_target i then (t, l ++ [i]) :: g else (t, l) :: add_to_target i g
  end.
Fixpoint add_to_root (i : summary_item) (g : root_groups) : root_groups :=
  match g with
  | [] => [(si_root i, add_to_target i [])]
  | (r, ts) :: g =>
      if r ==s si_root i then (r, add_to_target i ts) :: g else (r, ts) :: add_to_root i g
  end.

(** Items have string roots and targets; an empty one is skipped. *)
Definition group_items (l : list summary_item) : root_groups :=
  fold_left (λ g i, add_to_root i g) l [].
Definition summaryGroupedItems (items : list summary_item) : root_groups :=
  group_items (filterb (λ i, nonempty (si_root i) && nonempty (si_target i)) items).

(** ** Lemmas: tallies *)

Definition occurrences (x : jsstr) (l : list jsstr) : nat := length (filterb (λ y, y ==s x) l).

(** After a prefix of the texts, the map counts them and the list has the
    distinct ones in order. *)
Definition tally_inv (seen : list jsstr) (st : gmap jsstr nat * list jsstr) : Prop :=
  snd st = dedup (filterb nonempty seen)
  ∧ ∀ x, fst st !! x = if bool_decide (x ∈ filterb nonempty seen)
                       then Some (occurrences x seen) else None.

Lemma dedup_seen_snoc {A} `{EqDecision A} (l : list A) (x : A) s :
  dedup_seen id s (l ++ [x])
  = dedup_seen id s l ++ if bool_decide (x ∈ s ++ l) then [] else [x].
Proof.
  revert s. induction l as [|y l IH]; intros s; cbn [app dedup_seen].
  - rewrite app_nil_r. unfold id. by case_bool_decide.
  - unfold id at 1 3. destruct (decide (y ∈ s)) as [Hy|Hy].
    + rewrite !bool_decide_true by done. rewrite IH. f_equal.
      by rewrite (bool_decide_ext (x ∈ s ++ l) (x ∈ s ++ y :: l)) by set_solver.
    + rewrite !(bool_decide_false (y ∈ s)) by done. rewrite IH. cbn [app]. do 2 f_equal.
      by rewrite (bool_decide_ext (x ∈ (id y :: s) ++ l) (x ∈ s ++ y :: l)) by (unfold id; set_solver).
Qed.

Lemma dedup_snoc {A} `{EqDecision A} (l : list A) (x : A) :
  dedup (l ++ [x]) = dedup l ++ if bool_decide (x ∈ l) then [] else [x].
Proof. apply dedup_seen_snoc. Qed.

Lemma occurrences_snoc x l y :
  occurrences x (l ++ [y]) = (occurrences x l + if y ==s x then 1 else 0)%nat.
Proof.
  unfold occurrences. rewrite filterb_app, length_app. f_equal. cbn [filterb].
  by destruct (y ==s x).
Qed.

Lemma tally_step_inv seen st text :
  tally_inv seen st → tally_inv (seen ++ [text]) (tally_step st text).
Proof.
  destruct st as [counts ordered]. intros [Ho Hc]. cbn [fst snd] in *.
  unfold tally_step, tally_inv. rewrite filterb_app. cbn [filterb].
  destruct (nonempty text) eqn:Hn.
  2:{ rewrite app_nil_r. split; [done|]. intros x. cbn [fst]. rewrite Hc, occurrences_snoc.
      destruct (bool_decide_reflect (x ∈ filterb nonempty seen)) as [Hx|]; [|done].
      apply elem_of_filterb in Hx as [Hx _].
      rewrite (bool_decide_false (text = x)) by (intros ->; congruence). by rewrite Nat.add_0_r. }
  rewrite dedup_snoc. pose proof (Hc text) as Ht.
  assert (∀ x, x ≠ text → bool_decide (x ∈ filterb nonempty seen ++ [text])
                          = bool_decide (x ∈ filterb nonempty seen)) as Hmem.
  { intros x Hx. apply bool_decide_ext. rewrite elem_of_app, list_elem_of_singleton. tauto. }
  assert (bool_decide (text ∈ filterb nonempty seen ++ [text]) = true) as Hin.
  { apply bool_decide_eq_true. apply elem_of_app. right. by left. }
  destruct (bool_decide_reflect (text ∈ filterb nonempty seen)) as [Hx|Hx].
  - rewrite Ht. cbn [fst snd]. split; [by rewrite app_nil_r|]. intros x. rewrite Ht. cbn [from_option id].
    destruct (decide (x = text)) as [->|Hne].
    + rewrite lookup_insert_eq, Hin, occurrences_snoc, bool_decide_true; done.
    + rewrite lookup_insert_ne by done. rewrite Hc, Hmem, occurrences_snoc by done.
      by rewrite (bool_decide_false (text = x)), Nat.add_0_r by done.
  - rewrite Ht. cbn [fst snd]. split; [by rewrite Ho|]. intros x.
    rewrite lookup_insert_eq. cbn [from_option id].
    assert (occurrences text seen = 0%nat) as H0.
    { unfold occurrences. rewrite filterb_none; [done|]. intros y Hy.
      apply bool_decide_eq_false. intros ->. apply Hx. by apply elem_of_filterb. }
    destruct (decide (x = text)) as [->|Hne].
    + rewrite lookup_insert_eq, Hin, occurrences_snoc, H0, bool_decide_true; done.
    + rewrite !lookup_insert_ne by done. rewrite Hc, Hmem, occurrences_snoc by done.
      by rewrite (bool_decide_false (text = x)), Nat.add_0_r by done.
Qed.

Lemma tally_fold_inv l seen st :
  tally_inv seen st → tally_inv (seen ++ l) (fold_left tally_step l st).
Proof.
  revert seen st. induction l as [|x l IH]; intros seen st H; cbn [fold_left]; [by rewrite app_nil_r|].
  replace (seen ++ x :: l) with ((seen ++ [x]) ++ l) by by rewrite <-app_assoc.
  by apply IH, tally_step_inv.
Qed.

(** The texts with how often they occur. *)
Definition tallied (texts : list jsstr) : list jsstr :=
  map (λ x, if bool_decide (1 < occurrences x texts)%nat
            then x ++ js " (" ++ str_of_nat (occurrences x texts) ++ js ")" else x)
      (dedup (filterb nonempty texts)).

Lemma tally_labels_spec texts : tally_labels (fold_left tally_step texts (∅, [])) = tallied texts.
Proof.
  destruct (tally_fold_inv texts [] (∅, [])) as [Ho Hc]; [split; [done|]; intros x; apply lookup_empty|].
  cbn [app] in *. destruct (fold_left tally_step texts (∅, [])) as [counts ordered].
  cbn [fst snd tally_labels] in *. subst ordered. unfold tallied. apply map_ext_in.
  intros x Hx%list_elem_of_In. rewrite elem_of_dedup in Hx.
  by rewrite Hc, (bool_decide_true (x ∈ filterb nonempty texts)).
Qed.

(** ** Lemmas: groups *)

Definition group_list (ts : target_groups) : list summary_item := concat (map snd ts).
Definition all_items (g : root_groups) : list summary_item := concat (map (λ p, group_list (snd p)) g).

Lemma add_to_target_perm i g : group_list (add_to_target i g) ≡ₚ i :: group_list g.
Proof.
  unfold group_list. induction g as [|[t l] g IH]; cbn [add_to_target]; [done|].
  destruct (t ==s si_target i); cbn [map concat snd].
  - rewrite <-app_assoc. cbn. symmetry. apply Permutation_middle.
  - rewrite IH. symmetry. apply Permutation_middle.
Qed.
Lemma add_to_root_perm i g : all_items (add_to_root i g) ≡ₚ i :: all_items g.
Proof.
  unfold all_items. induction g as [|[r ts] g IH]; cbn [add_to_root]; [done|].
  destruct (r ==s si_root i); cbn [map concat snd].
  - by rewrite add_to_target_perm.
  - rewrite IH. symmetry. apply Permutation_middle.
Qed.

(** A group holds only the items of its root and target, and no key repeats. *)
Definition targets_ok (r : jsstr) (ts : target_groups) : Prop :=
  NoDup ts.*1 ∧ Forall (λ g, snd g ≠ [] ∧ Forall (λ i, si_root i = r ∧ si_target i = fst g) (snd g)) ts.
Definition groups_ok (g : root_groups) : Prop :=
  NoDup g.*1 ∧ Forall (λ p, snd p ≠ [] ∧ targets_ok (fst p) (snd p)) g.

Lemma add_to_target_keys i g t : t ∈ (add_to_target i g).*1 ↔ t = si_target i ∨ t ∈ g.*1.
Proof.
  induction g as [|[t' l] g IH]; cbn; [set_solver|].
  destruct (bool_decide_reflect (t' = si_target i)); cbn; set_solver.
Qed.
Lemma add_to_root_keys i g r : r ∈ (add_to_root i g).*1 ↔ r = si_root i ∨ r ∈ g.*1.
Proof.
  induction g as [|[r' l] g IH]; cbn; [set_solver|].
  destruct (bool_decide_reflect (r' = si_root i)); cbn; set_solver.
Qed.

Lemma add_to_target_ok i ts : targets_ok (si_root i) ts → targets_ok (si_root i) (add_to_target i ts).
Proof.
  induction ts as [|[t l] ts IH]; intros [Hn Hf]; cbn [add_to_target].
  - split; [apply NoDup_singleton|]. apply Forall_singleton. split; [done|]. by apply Forall_singleton.
  - cbn in Hn. apply NoDup_cons in Hn as [Ht Hn]. apply Forall_cons in Hf as [[Hl Hli] Hf].
    destruct (bool_decide_reflect (t = si_target i)) as [->|Hne].
    + split; [by apply NoDup_cons|]. apply Forall_cons. split; [|done]. cbn in *. split.
      * by destruct l.
      * apply Forall_app. split; [done|]. by apply Forall_singleton.
    + destruct IH as [IHn IHf]; [done|]. split.
      * cbn. apply NoDup_cons. split; [|done]. rewrite add_to_target_keys. naive_solver.
      * by apply Forall_cons.
Qed.
Lemma add_to_target_ne i ts : add_to_target i ts ≠ [].
Proof. destruct ts as [|[t l] ts]; cbn; [done|]. by destruct (t ==s si_target i). Qed.

Lemma add_to_root_ok i g : groups_ok g → groups_ok (add_to_root i g).
Proof.
  induction g as [|[r ts] g IH]; intros [Hn Hf]; cbn [add_to_root].
  - split; [apply NoDup_singleton|]. apply Forall_singleton. cbn [fst snd].
    split; [apply add_to_target_ne|]. apply add_to_target_ok. split; constructor.
  - cbn in Hn. apply NoDup_cons in Hn as [Hr Hn]. apply Forall_cons in Hf as [[Hne Ht] Hf].
    destruct (bool_decide_reflect (r = si_root i)) as [->|Hner].
    + split; [by apply NoDup_cons|]. apply Forall_cons. split; [|done]. cbn [fst snd] in *.
      split; [apply add_to_target_ne|by apply add_to_target_ok].
    + destruct IH as [IHn IHf]; [done|]. split.
      * cbn. apply NoDup_cons. split; [|done]. rewrite add_to_root_keys. naive_solver.
      * by apply Forall_cons.
Qed.

Lemma group_items_inv l g :
  groups_ok g →
  groups_ok (fold_left (λ g i, add_to_root i g) l g)
  ∧ all_items (fold_left (λ g i, add_to_root i g) l g) ≡ₚ l ++ all_items g.
Proof.
  revert g. induction l as [|i l IH]; intros g Hg; cbn [fold_left app]; [done|].
  destruct (IH (add_to_root i g)) as [H1 H2]; [by apply add_to_root_ok|].
  split; [done|]. rewrite H2, add_to_root_perm. symmetry. apply Permutation_middle.
Qed.

(** ** Properties *)

(** The compact summary lists each distinct non-empty line once, in order of
    first appearance, followed by its number of occurrences when it occurs more
    than once; command labels are built the same way. *)
Theorem summaryCompactLines_spec lines items :
  summaryCompactLines lines = tallied (map (λ l, trim (str_of l)) (items_of lines))
  ∧ summaryCommandLabels items
    = tallied (map (λ i, trim (str_of (get i (js "command")))) (items_of items)).
Proof. split; apply tally_labels_spec. Qed.

(** Grouping loses and duplicates nothing: the groups together are a
    permutation of the items that have a root and a target, no root occurs
    twice, nor a target within a root, no group is empty, and each holds only
    items of its own root and target. *)
Theorem summaryGroupedItems_partition items :
  let groups := summaryGroupedItems items in
  all_items groups ≡ₚ filterb (λ i, nonempty (si_root i) && nonempty (si_target i)) items
  ∧ groups_ok groups.
Proof.
  cbv zeta. unfold summaryGroupedItems, group_items.
  destruct (group_items_inv (filterb (λ i, nonempty (si_root i) && nonempty (si_target i)) items) [])
    as [H1 H2]; [split; constructor|].
  split; [|done]. by rewrite H2, app_nil_r.
Qed.
