(* ===== verification/HistoryCore.v ===== *)
(** Run history helpers (app/static/js/core/history_core.js): filters, request
    URLs, recall lists, exit codes and durations. *)

From S2P Require Import Prelude JsString JsNumber JsValue.

(** ** Filters *)

Definition normalizeFilterValue (value : jsval) : jsstr :=
  match value with VStr s => trim s | _ => [] end.

(** [state.k || 'all'] and [state.k && state.k !== 'all']. *)
Definition or_all (state : jsval) (k : string) : jsval := js_or (get state (js k)) (vstr "all").
Definition not_all (v : jsval) : bool := negb (is_str v (js "all")).
Definition set_not_all (state : jsval) (k : string) : bool :=
  truthy (get state (js k)) && not_all (get state (js k)).
Definition is_set (state : jsval) (k : string) : bool := truthy (get state (js k)).

Definition hasActiveServerFilters (filters : jsval) : bool :=
  let state := js_or filters (VObj []) in
  not_all (or_all state "type")
  || is_set state "q"
  || is_set state "commandRoot"
  || set_not_all state "signal"
  || set_not_all state "kind"
  || is_set state "entity"
  || set_not_all state "entityType"
  || not_all (or_all state "exitCode")
  || not_all (or_all state "dateRange")
  || set_not_all state "projectId".

Definition hasAnyFilters (filters : jsval) : bool :=
  hasActiveServerFilters filters || truthy (get filters (js "starredOnly")).

Definition run_only_reset : props :=
  [(js "commandRoot", VStr []); (js "signal", vstr "all"); (js "kind", vstr "all");
   (js "entity", VStr []); (js "entityType", vstr "all"); (js "exitCode", vstr "all");
   (js "starredOnly", VBool false)].
Definition resetRunOnlyFilters (filters : jsval) : props :=
  spread (props_of (js_or filters (VObj []))) run_only_reset.

Definition labelForType (type : jsval) : jsstr :=
  if is_str type (js "runs") then js "runs"
  else if is_str type (js "runs_builtin") then js "built-in runs"
  else if is_str type (js "runs_external") then js "external runs"
  else if is_str type (js "snapshots") then js "snapshots"
  else js "history items".

Definition summaryLabel (type totalCount : jsval) : jsstr :=
  let singular := is_int_eq totalCount 1 in
  let pick (a b : string) := if singular then js a else js b in
  if is_str type (js "runs") then pick "stored run"%string "stored runs"%string
  else if is_str type (js "runs_builtin") then pick "built-in run"%string "built-in runs"%string
  else if is_str type (js "runs_external") then pick "external run"%string "external runs"%string
  else if is_str type (js "snapshots") then pick "stored snapshot"%string "stored snapshots"%string
  else pick "stored item"%string "stored items"%string.

(** A filter chip: its key and its label. *)
Definition chip (k label : string) (v : jsval) : jsstr * jsstr := (js k, js label ++ to_string v).

Definition exit_code_items (exitCode : jsval) : list (jsstr * jsstr) :=
  if is_str exitCode (js "0") then [(js "exitCode", js "exit: 0")]
  else if is_str exitCode (js "nonzero") then [(js "exitCode", js "exit: failed")]
  else if is_str exitCode (js "-15") then [(js "exitCode", js "exit: terminated")]
  else if is_str exitCode (js "incomplete") then [(js "exitCode", js "exit: incomplete")]
  else [].

Definition activeFilterItems (filters : jsval) : list (jsstr * jsstr) :=
  let state := js_or filters (VObj []) in
  let type := or_all state "type" in
  let exitCode := or_all state "exitCode" in
  let dateRange := or_all state "dateRange" in
  let when (b : bool) (i : jsstr * jsstr) := if b then [i] else [] in
  when (not_all type) (js "type", js "type: " ++ labelForType type)
  ++ when (is_set state "q") (chip "q" "search: " (get state (js "q")))
  ++ when (is_set state "commandRoot") (chip "commandRoot" "command: " (get state (js "commandRoot")))
  ++ when (set_not_all state "signal") (chip "signal" "signal: " (get state (js "signal")))
  ++ when (set_not_all state "kind") (chip "kind" "kind: " (get state (js "kind")))
  ++ when (is_set state "entity") (chip "entity" "entity: " (get state (js "entity")))
  ++ when (set_not_all state "entityType")
       (chip "entityType" "entity_type: " (get state (js "entityType")))
  ++ exit_code_items exitCode
  ++ when (not_all dateRange) (chip "dateRange" "date: " dateRange)
  ++ when (set_not_all state "projectId")
       (chip "projectId" "project: " (js_or (get state (js "projectLabel")) (get state (js "projectId"))))
  ++ when (is_set state "starredOnly") (js "starredOnly", js "starred").

(** ** Request URLs

    The query string is the browser's: [encode] is [URLSearchParams.toString]
    on the list of pairs, [decode] the parsing of a query string. *)

Notation query := (list (jsstr * jsstr)).

Section Urls.
Context (encode : query → jsstr) (decode : jsstr → query).

(** The [params.set] calls, in order; the names are pairwise distinct. *)
Definition request_params (filters paging : jsval) : query :=
  let state := js_or filters (VObj []) in
  let pageState := js_or paging (VObj []) in
  let type := or_all state "type" in
  let exitCode := or_all state "exitCode" in
  let dateRange := or_all state "dateRange" in
  let when (b : bool) (k : string) (v : jsval) := if b then [(js k, to_string v)] else [] in
  let field (k : string) := get state (js k) in
  [(js "page", to_string (js_or (get pageState (js "page")) (vint 1)));
   (js "page_size", to_string (js_or (get pageState (js "pageSize")) (vint 1)));
   (js "include_total", js "1")]
  ++ when (not_all type) "type"%string type
  ++ when (is_set state "q") "q"%string (field "q"%string)
  ++ when (is_set state "commandRoot") "command_root"%string (field "commandRoot"%string)
  ++ when (set_not_all state "signal") "signal"%string (field "signal"%string)
  ++ when (set_not_all state "kind") "kind"%string (field "kind"%string)
  ++ when (is_set state "entity") "entity"%string (field "entity"%string)
  ++ when (set_not_all state "entityType") "entity_type"%string (field "entityType"%string)
  ++ when (not_all exitCode) "exit_code"%string exitCode
  ++ when (not_all dateRange) "date_range"%string dateRange
  ++ when (set_not_all state "projectId") "project_id"%string (field "projectId"%string)
  ++ when (is_set state "starredOnly") "starred_only"%string (vstr "1").

Definition with_query (path : string) (q : jsstr) : jsstr :=
  if nonempty q then js path ++ js "?" ++ q else js path.

Definition buildRequestUrl (filters paging : jsval) : jsstr :=
  with_query "/history" (encode (request_params filters paging)).

(** [requestUrl.searchParams], after the deletions. *)
Definition url_query (url : jsstr) : jsstr :=
  match index_of (js "?") url with Some i => drop (S i) url | None => [] end.
Definition delete_param (k : string) (q : query) : query :=
  filterb (λ p, bool_decide (fst p ≠ js k)) q.

Record delete_context := DeleteContext
  { dc_deleteUrl : jsstr; dc_previewUrl : jsstr; dc_filtered : bool }.

Definition first_page : jsval := VObj [(js "page", vint 1); (js "pageSize", vint 1)].

Definition buildDeleteContext (filters : jsval) : delete_context :=
  let state := js_or filters (VObj []) in
  let params := decode (url_query (buildRequestUrl state first_page)) in
  let params := delete_param "include_total" (delete_param "page_size" (delete_param "page" params)) in
  let q := encode params in
  DeleteContext (with_query "/history" q) (with_query "/history/delete-preview" q)
                (hasAnyFilters state).
End Urls.

(** ** Recall lists *)

Definition historyLimit (appConfig : jsval) : num :=
  num_max (num_of_Z 1) (num_or (get appConfig (js "recent_commands_limit")) 50).

Definition commandRecallHistory (tab globalHistory limit : jsval) : list jsstr :=
  let local := items_of (get tab (js "commandHistory")) in
  take_num (num_max (num_of_Z 1) (num_or limit 50))
    (dedup (filterb nonempty (map str_of (local ++ items_of globalHistory)))).

Definition rootMatches (suggestions query limit : jsval) : list jsval :=
  let value := lower (normalizeFilterValue query) in
  if negb (nonempty value) then [] else
  take_num (num_max num_zero (num_or limit 0))
    (filterb (λ root, starts_with value (lower (str_of root))) (items_of suggestions)).

Section Locale.
(** [a.localeCompare(b) <= 0], from the browser's collation. *)
Context (locale_le : jsstr → jsstr → bool).

Definition run_root (run : jsval) : jsstr :=
  match run with
  | VStr s => trim s
  | _ => match get run (js "command") with VStr c => first_word c | _ => [] end
  end.
Definition commandRootsFromRuns (runs : jsval) : list jsstr :=
  isort locale_le (dedup (filterb nonempty (map run_root (items_of runs)))).
End Locale.

(** ** Exit codes *)

Definition exitCodeNumber (exitCode : jsval) : option num :=
  if nullish exitCode || is_str exitCode [] then None
  else let n := to_number exitCode in if is_finite n then Some n else None.

(** The codes of [GRACEFUL_TERMINATION_EXIT_CODES]. *)
Definition graceful (code : num) : bool := neqb code (num_of_Z (-15)).

Definition isGracefulTerminationExitCode (exitCode : jsval) : bool :=
  match exitCodeNumber exitCode with Some code => graceful code | None => false end.
Definition isFailedExitCode (exitCode : jsval) : bool :=
  match exitCodeNumber exitCode with
  | Some code => negb (neqb code num_zero) && negb (graceful code)
  | None => false
  end.
Definition exitLabel (exitCode : jsval) : jsstr :=
  match exitCodeNumber exitCode with
  | None => js "exit —"
  | Some code =>
      if isGracefulTerminationExitCode (VNum code) then js "terminated"
      else js "exit " ++ num_to_str code
  end.
Definition exitClass (exitCode : jsval) : jsstr :=
  match exitCodeNumber exitCode with
  | Some code =>
      if neqb code num_zero then js "exit-ok"
      else if isFailedExitCode (VNum code) then js "exit-fail" else js "exit-neutral"
  | None => if isFailedExitCode VNull then js "exit-fail" else js "exit-neutral"
  end.

(** ** Times *)

(** [Math.round(a / b)] for integers, [b > 0]. *)
Definition round_div (a b : Z) : Z := (2 * a + b) / (2 * b).

Section Times.
(** The browser's short date of a time, and the time of [new Date(v)]. *)
Context (short_date : Z → jsstr) (date_of : jsval → option Z).

(** A [Date] is its time in milliseconds, [None] for an invalid one. *)
Definition relativeTime (startedAt : option Z) (now : Z) : jsstr :=
  match startedAt with
  | None => []
  | Some t =>
      let diffSec := round_div (now - t) 1000 in
      if diffSec <? 45 then js "just now"
      else if diffSec <? 60 * 60 then str_of_Z (round_div diffSec 60) ++ js "m ago"
      else if diffSec <? 60 * 60 * 24 then str_of_Z (round_div diffSec 3600) ++ js "h ago"
      else if diffSec <? 60 * 60 * 24 * 7 then str_of_Z (round_div diffSec 86400) ++ js "d ago"
      else short_date t
  end.

Definition elapsedSeconds (run : jsval) : option num :=
  let explicit := to_number (js_nullish (get run (js "elapsed_seconds"))
                                        (get run (js "duration_seconds"))) in
  if is_finite explicit && nleb num_zero explicit then Some explicit
  else match date_of (get run (js "started")), date_of (get run (js "finished")) with
       | Some started, Some finished =>
           Some (num_max num_zero (ndiv (num_of_Z (finished - started)) (num_of_Z 1000)))
       | _, _ => None
       end.

Definition elapsedLabel (run : jsval) : jsstr :=
  match elapsedSeconds run with
  | None => []
  | Some total =>
      if nleb (num_of_Z 3600) total then
        let hours := num_floor (ndiv total (num_of_Z 3600)) in
        let minutes := num_floor (ndiv (num_rem total (num_of_Z 3600)) (num_of_Z 60)) in
        if truthy (VNum minutes) then num_to_str hours ++ js "h " ++ num_to_str minutes ++ js "m"
        else num_to_str hours ++ js "h"
      else if nleb (num_of_Z 60) total then
        let minutes := num_floor (ndiv total (num_of_Z 60)) in
        let seconds := num_round (num_rem total (num_of_Z 60)) in
        if truthy (VNum seconds) then num_to_str minutes ++ js "m " ++ num_to_str seconds ++ js "s"
        else num_to_str minutes ++ js "m"
      else to_fixed (if nleb (num_of_Z 10) total then 0 else 1) total ++ js "s"
  end.
End Times.

Definition compareFormatDuration (seconds : jsval) : jsstr :=
  let value := to_number seconds in
  if nullish seconds || is_nan value then js "n/a"
  else if nltb value (num_of_Z 1)
  then num_to_str (num_round (nmul value (num_of_Z 1000))) ++ js "ms"
  else if nltb value (num_of_Z 60)
  then to_fixed (if nltb value (num_of_Z 10) then 1 else 0) value ++ js "s"
  else num_to_str (num_floor (ndiv value (num_of_Z 60))) ++ js "m "
       ++ num_to_str (num_round (num_rem value (num_of_Z 60))) ++ js "s".

Definition compareFormatDelta (value : jsval) (suffix : jsstr) : jsstr :=
  let number := to_number value in
  if negb (is_finite number) || neqb number num_zero then js "0" ++ suffix
  else (if nltb num_zero number then js "+" else []) ++ num_to_str number ++ suffix.

(** ** Lemmas: the parameters of a request *)

(** The parameters the filters alone set. *)
Definition filter_params (filters : jsval) : query :=
  drop 3 (request_params filters first_page).

Lemma request_params_split filters paging :
  request_params filters paging
  = [(js "page", to_string (js_or (get (js_or paging (VObj [])) (js "page")) (vint 1)));
     (js "page_size", to_string (js_or (get (js_or paging (VObj [])) (js "pageSize")) (vint 1)));
     (js "include_total", js "1")] ++ filter_params filters.
Proof. done. Qed.

(** The parameter each filter sets, and when. *)
Definition paging_names : list jsstr := map js ["page"; "page_size"; "include_total"]%string.
Definition filter_names : list jsstr := map js
  ["type"; "q"; "command_root"; "signal"; "kind"; "entity"; "entity_type"; "exit_code";
   "date_range"; "project_id"; "starred_only"]%string.

Definition set_param (b : bool) (k : string) (v : jsval) : query :=
  if b then [(js k, to_string v)] else [].
Lemma set_param_names b k v : js k ∈ filter_names → Forall (λ p, fst p ∈ filter_names) (set_param b k v).
Proof. intros Hk. destruct b; [by apply Forall_singleton|constructor]. Qed.
Lemma set_param_nil b k v : set_param b k v = [] ↔ b = false.
Proof. by destruct b. Qed.

Lemma filter_params_eq filters :
  let state := js_or filters (VObj []) in
  filter_params filters
  = set_param (not_all (or_all state "type")) "type" (or_all state "type")
    ++ set_param (is_set state "q") "q" (get state (js "q"))
    ++ set_param (is_set state "commandRoot") "command_root" (get state (js "commandRoot"))
    ++ set_param (set_not_all state "signal") "signal" (get state (js "signal"))
    ++ set_param (set_not_all state "kind") "kind" (get state (js "kind"))
    ++ set_param (is_set state "entity") "entity" (get state (js "entity"))
    ++ set_param (set_not_all state "entityType") "entity_type" (get state (js "entityType"))
    ++ set_param (not_all (or_all state "exitCode")) "exit_code" (or_all state "exitCode")
    ++ set_param (not_all (or_all state "dateRange")) "date_range" (or_all state "dateRange")
    ++ set_param (set_not_all state "projectId") "project_id" (get state (js "projectId"))
    ++ set_param (is_set state "starredOnly") "starred_only" (vstr "1").
Proof. done. Qed.

Lemma filter_params_names filters : Forall (λ p, fst p ∈ filter_names) (filter_params filters).
Proof.
  rewrite filter_params_eq. rewrite !Forall_app.
  split_and!; apply set_param_names; apply (bool_decide_unpack _); vm_compute; exact I.
Qed.

Lemma starred_or filters :
  truthy (get filters (js "starredOnly")) = is_set (js_or filters (VObj [])) "starredOnly".
Proof. unfold is_set, js_or. destruct filters as [| |[]| |[]| | |]; try reflexivity; by destruct (truthy (VNum n)). Qed.

Lemma filtered_iff filters :
  hasAnyFilters (js_or filters (VObj [])) = negb (bool_decide (filter_params filters = [])).
Proof.
  unfold hasAnyFilters, hasActiveServerFilters.
  assert (js_or (js_or filters (VObj [])) (VObj []) = js_or filters (VObj [])) as ->
    by (unfold js_or; destruct (truthy filters) eqn:Ht; by rewrite ?Ht).
  cbv zeta. fold (is_set (js_or filters (VObj [])) "starredOnly").
  rewrite filter_params_eq. cbv zeta. generalize (js_or filters (VObj [])). intros state.
  unfold set_param.
  destruct (not_all (or_all state "type")), (is_set state "q"), (is_set state "commandRoot"),
    (set_not_all state "signal"), (set_not_all state "kind"), (is_set state "entity"),
    (set_not_all state "entityType"), (not_all (or_all state "exitCode")),
    (not_all (or_all state "dateRange")), (set_not_all state "projectId"),
    (is_set state "starredOnly"); reflexivity.
Qed.

Lemma delete_param_none k q : (∀ p, p ∈ q → fst p ≠ js k) → delete_param k q = q.
Proof. intros H. apply filterb_all. intros p Hp. apply bool_decide_eq_true. auto. Qed.

Lemma filter_not_paging filters k :
  js k ∈ paging_names → ∀ p, p ∈ filter_params filters → fst p ≠ js k.
Proof.
  intros Hk p Hp He. pose proof (proj1 (Forall_forall _ _) (filter_params_names filters) _ Hp) as Hn.
  cbn in Hn. rewrite He in Hn.
  assert (Forall (λ k, k ∉ filter_names) paging_names) as Hd
    by (apply (bool_decide_unpack _); vm_compute; exact I).
  by apply (proj1 (Forall_forall _ _) Hd _ Hk).
Qed.

Lemma js_or_idemp v w : js_or (js_or v w) w = js_or v w.
Proof. unfold js_or. by destruct (truthy v) eqn:Ht; rewrite ?Ht; destruct (truthy w). Qed.
Lemma request_params_default filters paging :
  request_params (js_or filters (VObj [])) paging = request_params filters paging.
Proof. unfold request_params. by rewrite js_or_idemp. Qed.

Lemma url_query_history q : url_query (with_query "/history" q) = q.
Proof. unfold with_query. destruct q as [|c q]; [vm_compute; reflexivity|]. cbn [nonempty]. reflexivity. Qed.

(** ** Properties *)

(** Deleting from history acts on what the filters show. The delete and the
    preview addresses carry exactly the parameters the list request sets for
    the filters, without those of paging; and the filtered flag is raised
    exactly when there is at least one of them, so an unfiltered delete of
    everything is never presented as filtered nor the converse. *)
Theorem delete_context_exact encode decode filters :
  let shown := request_params filters first_page in
  decode (encode shown) = shown →
  let c := buildDeleteContext encode decode filters in
  dc_deleteUrl c = with_query "/history" (encode (filter_params filters))
  ∧ dc_previewUrl c = with_query "/history/delete-preview" (encode (filter_params filters))
  ∧ (∀ paging, request_params filters paging
       = take 3 (request_params filters paging) ++ filter_params filters)
  ∧ dc_filtered c = negb (bool_decide (filter_params filters = [])).
Proof.
  cbv zeta. intros Hd. unfold buildDeleteContext, buildRequestUrl. cbv zeta.
  cbn [dc_deleteUrl dc_previewUrl dc_filtered].
  rewrite url_query_history, request_params_default, Hd, request_params_split.
  assert (∀ f, delete_param "include_total" (delete_param "page_size" (delete_param "page"
    ([(js "page", to_string (js_or (get (js_or first_page (VObj [])) (js "page")) (vint 1)));
      (js "page_size", to_string (js_or (get (js_or first_page (VObj [])) (js "pageSize")) (vint 1)));
      (js "include_total", js "1")] ++ filter_params f))) = filter_params f) as Hdel.
  { intros f. unfold delete_param. rewrite !filterb_app.
    fold (delete_param "page" (filter_params f)). rewrite (delete_param_none "page")
      by (apply filter_not_paging, (bool_decide_unpack _); vm_compute; exact I).
    fold (delete_param "page_size" (filter_params f)). rewrite (delete_param_none "page_size")
      by (apply filter_not_paging, (bool_decide_unpack _); vm_compute; exact I).
    fold (delete_param "include_total" (filter_params f)). rewrite (delete_param_none "include_total")
      by (apply filter_not_paging, (bool_decide_unpack _); vm_compute; exact I).
    reflexivity. }
  rewrite Hdel. split_and!; [done..| |].
  - intros paging. by rewrite request_params_split.
  - apply filtered_iff.
Qed.

(** A codec, for a concrete run: names and values between marks no text holds. *)
Definition demo_encode (q : query) : jsstr :=
  flat_map (λ p, fst p ++ [-1] ++ snd p ++ [-2]) q.
Definition demo_decode (s : jsstr) : query :=
  map (λ part, match split_on (-1) part with [k; v] => (k, v) | _ => ([], []) end)
    (filterb nonempty (split_on (-2) s)).
Definition sample_filters : jsval := VObj [(js "q", vstr "nmap"); (js "exitCode", vstr "0")].
Lemma delete_context_exact_witness :
  let c := buildDeleteContext demo_encode demo_decode sample_filters in
  dc_deleteUrl c = with_query "/history" (demo_encode (filter_params sample_filters))
  ∧ dc_previewUrl c = with_query "/history/delete-preview" (demo_encode (filter_params sample_filters))
  ∧ (∀ paging, request_params sample_filters paging
       = take 3 (request_params sample_filters paging) ++ filter_params sample_filters)
  ∧ dc_filtered c = negb (bool_decide (filter_params sample_filters = [])).
Proof.
  apply (delete_context_exact demo_encode demo_decode sample_filters).
  vm_compute. reflexivity.
Defined.

(** A duration just under two minutes: the seconds are rounded to sixty. *)
Definition almost_two_minutes : jsval := VNum (num_of_dec 1197 (-1)).
Example sixty_seconds :
  elapsedLabel (λ _, None) (VObj [(js "elapsed_seconds", almost_two_minutes)]) = js "1m 60s"
  ∧ compareFormatDuration almost_two_minutes = js "1m 60s".
Proof. split; vm_compute; reflexivity. Qed.
