(* ===== verification/RunOutputModel.v ===== *)
(** The line-event model of run output (app/static/js/core/run_output_model.js):
    the wire vocabulary, the decoding of wire and legacy payloads and the
    encoding back. *)

From S2P Require Import Prelude JsString JsNumber JsValue.

(** ** Vocabulary *)

Definition LINE_EVENT_SCHEMA_VERSION : Z := 1.
Definition LINE_KIND_VALUES := map js ["info"; "notice"; "warn"; "error"]%string.
Definition LINE_ROLE_VALUES := map js
  ["body"; "prompt-echo"; "section-header"; "kv"; "help-row"; "pty-marker"; "progress";
   "status-line"; "success"; "denied"; "exit-ok"; "exit-fail"]%string.
Definition LINE_SIGNAL_VALUES := map js ["findings"; "warnings"; "errors"; "summaries"]%string.
Definition LINE_NOISE_KIND_VALUES := map js ["progress"; "status"; "boilerplate"]%string.

(** A table from string to string, written as an object literal. *)
Definition table (l : list (string * string)) : props :=
  map (λ p, (js (fst p), vstr (snd p))) l.

Definition LEGACY_KIND_BY_CLS : props :=
  ([], vstr "info") :: table
  [("output", "info"); ("out", "info"); ("cmd", "info"); ("notice", "notice");
   ("builtin-note", "notice"); ("welcome-output", "notice"); ("warn", "warn");
   ("warning", "warn"); ("error", "error")]%string.

Definition LEGACY_ROLE_BY_CLS : props :=
  ([], vstr "body") :: table
  [("output", "body"); ("out", "body"); ("notice", "body"); ("warn", "body");
   ("warning", "body"); ("error", "body"); ("builtin-note", "body"); ("builtin-spacer", "body");
   ("welcome-output", "body"); ("cmd", "prompt-echo"); ("prompt-echo", "prompt-echo");
   ("builtin-section", "section-header"); ("builtin-kv", "kv"); ("builtin-help-row", "help-row");
   ("builtin-faq-q", "help-row"); ("builtin-faq-a", "help-row"); ("pty-marker", "pty-marker");
   ("progress", "progress"); ("status-line", "status-line"); ("builtin-success", "success");
   ("denied", "denied"); ("exit-ok", "exit-ok"); ("exit-fail", "exit-fail")]%string.

Definition KIND_LEGACY_CLS : props :=
  (js "info", VStr []) :: table [("notice", "notice"); ("warn", "warn"); ("error", "error")]%string.

Definition ROLE_LEGACY_CLS : props :=
  (js "body", VStr []) :: table
  [("prompt-echo", "prompt-echo"); ("section-header", "builtin-section"); ("kv", "builtin-kv");
   ("help-row", "builtin-help-row"); ("pty-marker", "pty-marker"); ("progress", "progress");
   ("status-line", "status-line"); ("success", "builtin-success"); ("denied", "denied");
   ("exit-ok", "exit-ok"); ("exit-fail", "exit-fail")]%string.

Definition NOISE_KIND_BY_ROLE : props :=
  table [("progress", "progress"); ("status-line", "status")]%string.

(** ** Legacy classes *)

Definition legacyClsTokens (value : jsval) : list jsstr :=
  let text := trim (str_of value) in
  if negb (nonempty text) then [[]] else words text.

(** The first token the table has, or the default. *)
Definition first_in_table (t : props) (tokens : list jsstr) (d : jsstr) : jsstr :=
  match findb (has_own t) tokens with
  | Some token => to_string (table_get t token)
  | None => d
  end.
Definition legacyClsToKind (value : jsval) : jsstr :=
  first_in_table LEGACY_KIND_BY_CLS (legacyClsTokens value) (js "info").
Definition legacyClsToRole (value : jsval) : jsstr :=
  first_in_table LEGACY_ROLE_BY_CLS (legacyClsTokens value) (js "body").

(** ** Decoding

    The unknown-value collector is a writer: the pairs it is called with. *)

Notation unknowns := (list (jsstr * jsstr)).

Definition enumValue {A} (values : list jsstr) (value : jsval) (known : jsstr → A) (fallback : A)
    (family : string) : A * unknowns :=
  match value with
  | VUndef | VNull => (fallback, [])
  | _ =>
      if is_str value [] then (fallback, [])
      else
        let stringValue := to_string value in
        if bool_decide (stringValue ∈ values) then (known stringValue, [])
        else (fallback, [(js family, stringValue)])
  end.

Definition optionalInt (value : jsval) : option num :=
  match value with
  | VUndef | VNull | VBool _ => None
  | _ => let parsed := parse_int (to_string value) in
         if is_finite parsed then Some parsed else None
  end.

Record entity := Entity
  { en_type : jsstr; en_value : jsstr; en_canonical : jsstr; en_confidence : jsstr;
    en_source_line : option num; en_start : option num; en_end : option num }.

Definition entityFromWire (payload : jsval) : option entity :=
  if negb (is_objectlike payload) then None else
  let field (k : string) := trim (str_of (get payload (js k))) in
  let type := field "type"%string in
  let canonicalValue := field "canonical_value"%string in
  if negb (nonempty type) || negb (nonempty canonicalValue) then None else
  let start := optionalInt (get payload (js "start")) in
  let en := optionalInt (get payload (js "end")) in
  let '(start, en) :=
    match start, en with Some s, Some e => (Some s, Some e) | _, _ => (None, None) end in
  Some (Entity type (str_or (field "value"%string) canonicalValue) canonicalValue
               (str_or (field "confidence"%string) (js "medium"))
               (optionalInt (get payload (js "source_line"))) start en).

Definition entityToWire (e : entity) : jsval :=
  VObj ([(js "type", VStr (en_type e)); (js "value", VStr (en_value e));
         (js "canonical_value", VStr (en_canonical e)); (js "confidence", VStr (en_confidence e))]
        ++ opt_prop "source_line" VNum (en_source_line e)
        ++ opt_prop "start" VNum (en_start e)
        ++ opt_prop "end" VNum (en_end e)).

Definition signalsFromWire (value : jsval) : list jsstr * unknowns :=
  match value with
  | VArr l =>
      let names := map to_string l in
      (filterb (λ s, bool_decide (s ∈ LINE_SIGNAL_VALUES)) names,
       map (pair (js "signal")) (filterb (λ s, bool_decide (s ∉ LINE_SIGNAL_VALUES)) names))
  | _ => ([], [])
  end.

Definition entitiesFromWire (value : jsval) : list entity :=
  omap entityFromWire (items_of value).

Definition noiseKindForRole (role : jsstr) : option jsstr :=
  match table_get NOISE_KIND_BY_ROLE role with
  | VUndef => None
  | v => Some (to_string v)
  end.

(** A decoded line event. *)
Record event := Event
  { ev_text : jsstr; ev_kind : jsstr; ev_role : jsstr; ev_legacy_cls : jsstr;
    ev_ts_clock : jsstr; ev_ts_elapsed : jsstr; ev_signals : list jsstr;
    ev_line_index : option num; ev_command_root : jsstr; ev_target : jsstr;
    ev_entities : list entity; ev_noise_kind : option jsstr; ev_noise_reason : jsstr }.

Definition fromWireLineEvent (payload : jsval) : event * unknowns :=
  let item := if is_objectlike payload then payload else VObj [] in
  let field (k : string) := get item (js k) in
  let clsValue := js_or (field "cls"%string) (VStr []) in
  let '(kind, u1) :=
    enumValue LINE_KIND_VALUES (field "kind"%string) id (legacyClsToKind clsValue) "kind" in
  let '(role, u2) :=
    enumValue LINE_ROLE_VALUES (field "role"%string) id (legacyClsToRole clsValue) "role" in
  let '(noiseKind, u3) :=
    enumValue LINE_NOISE_KIND_VALUES (field "noise_kind"%string) Some (noiseKindForRole role)
              "noise_kind" in
  let '(signals, u4) := signalsFromWire (field "signals"%string) in
  (Event (str_of (field "text"%string)) kind role (str_of clsValue)
         (str_of (field "tsC"%string)) (str_of (field "tsE"%string)) signals
         (optionalInt (field "line_index"%string))
         (str_of (field "command_root"%string)) (str_of (field "target"%string))
         (entitiesFromWire (field "entities"%string)) noiseKind
         (match noiseKind with Some _ => str_of (field "noise_reason"%string) | None => [] end),
   u1 ++ u2 ++ u3 ++ u4).

(** ** Encoding *)

Definition legacyClsForEvent (e : event) : jsstr :=
  if nonempty (ev_legacy_cls e) then ev_legacy_cls e
  else
    let role := str_or (ev_role e) (js "body") in
    if bool_decide (role ≠ js "body") then str_of (table_get ROLE_LEGACY_CLS role)
    else str_of (table_get KIND_LEGACY_CLS (str_or (ev_kind e) (js "info"))).

Definition noiseKindForEvent (e : event) : option jsstr :=
  match ev_signals e with
  | _ :: _ => None
  | [] =>
      if (ev_kind e ==s js "warn") || (ev_kind e ==s js "error") then None
      else let k := default [] (ev_noise_kind e) in
           if nonempty k then Some k
           else noiseKindForRole (str_or (ev_role e) (js "body"))
  end.

Definition isNoiseLineEvent (e : event) : bool := bool_decide (is_Some (noiseKindForEvent e)).

Definition nonempty_prop (k : string) (s : jsstr) : props :=
  if nonempty s then [(js k, VStr s)] else [].

Definition legacyPayload (e : event) : props :=
  [(js "text", VStr (ev_text e)); (js "cls", VStr (legacyClsForEvent e));
   (js "tsC", VStr (ev_ts_clock e)); (js "tsE", VStr (ev_ts_elapsed e))]
  ++ (match ev_signals e with [] => [] | l => [(js "signals", VArr (map VStr l))] end)
  ++ opt_prop "line_index" VNum (ev_line_index e)
  ++ nonempty_prop "command_root" (ev_command_root e)
  ++ nonempty_prop "target" (ev_target e)
  ++ (match ev_entities e with [] => [] | l => [(js "entities", VArr (map entityToWire l))] end)
  ++ (match noiseKindForEvent e with
      | Some noiseKind =>
          (js "noise_kind", VStr noiseKind) :: nonempty_prop "noise_reason" (ev_noise_reason e)
      | None => []
      end).

Definition toLegacyWireLineEvent (e : event) : jsval := VObj (legacyPayload e).

Definition toWireLineEvent (e : event) : jsval :=
  VObj (set_prop (js "role") (VStr (str_or (ev_role e) (js "body")))
       (set_prop (js "kind") (VStr (str_or (ev_kind e) (js "info")))
       (set_prop (js "v") (vint LINE_EVENT_SCHEMA_VERSION) (legacyPayload e)))).

Definition eventSearchText (e : event) : jsstr := ev_text e.

(** ** Lemmas: reading back the encoded properties *)

Lemma own_opt_prop {A} k (f : A → jsval) o k' :
  own (opt_prop k f o) k' = if k' ==s js k then f <$> o else None.
Proof. destruct o; cbn; by case_bool_decide. Qed.
Lemma own_nonempty_prop k s k' :
  own (nonempty_prop k s) k' = if k' ==s js k then (if nonempty s then Some (VStr s) else None) else None.
Proof. unfold nonempty_prop. destruct (nonempty s); cbn; by case_bool_decide. Qed.
Lemma own_list_prop {A} k (f : list A → jsval) (l : list A) k' :
  own (match l with [] => [] | _ => [(js k, f l)] end) k'
  = if k' ==s js k then match l with [] => None | _ => Some (f l) end else None.
Proof. destruct l; cbn; by case_bool_decide. Qed.

(** Comparisons of literal keys, and what objects inherit, by evaluation. *)
Ltac eval_keys :=
  repeat match goal with
  | |- context [bool_decide (js ?a = js ?b)] =>
      let v := eval vm_compute in (bool_decide (js a = js b)) in
      replace (bool_decide (js a = js b)) with v by (vm_compute; reflexivity)
  | |- context [inherited (js ?a)] =>
      let v := eval vm_compute in (inherited (js a)) in
      replace (inherited (js a)) with v by (vm_compute; reflexivity)
  end; cbn match.

Definition noise_props (e : event) : props :=
  match noiseKindForEvent e with
  | Some noiseKind => (js "noise_kind", VStr noiseKind) :: nonempty_prop "noise_reason" (ev_noise_reason e)
  | None => []
  end.
Lemma own_noise_props e k :
  own (noise_props e) k
  = match noiseKindForEvent e with
    | Some noiseKind =>
        if k ==s js "noise_kind" then Some (VStr noiseKind) else own (nonempty_prop "noise_reason" (ev_noise_reason e)) k
    | None => None
    end.
Proof. unfold noise_props. by destruct (noiseKindForEvent e). Qed.

Definition signal_props (e : event) : props :=
  match ev_signals e with [] => [] | l => [(js "signals", VArr (map VStr l))] end.
Definition entity_props (e : event) : props :=
  match ev_entities e with [] => [] | l => [(js "entities", VArr (map entityToWire l))] end.

Lemma own_signal_props e k :
  own (signal_props e) k
  = if k ==s js "signals" then match ev_signals e with [] => None | l => Some (VArr (map VStr l)) end else None.
Proof. unfold signal_props. destruct (ev_signals e); cbn; by case_bool_decide. Qed.
Lemma own_entity_props e k :
  own (entity_props e) k
  = if k ==s js "entities" then match ev_entities e with [] => None | l => Some (VArr (map entityToWire l)) end
    else None.
Proof. unfold entity_props. destruct (ev_entities e); cbn; by case_bool_decide. Qed.

Lemma payload_eq e :
  legacyPayload e
  = [(js "text", VStr (ev_text e)); (js "cls", VStr (legacyClsForEvent e));
     (js "tsC", VStr (ev_ts_clock e)); (js "tsE", VStr (ev_ts_elapsed e))]
    ++ signal_props e ++ opt_prop "line_index" VNum (ev_line_index e)
    ++ nonempty_prop "command_root" (ev_command_root e) ++ nonempty_prop "target" (ev_target e)
    ++ entity_props e ++ noise_props e.
Proof. done. Qed.

Ltac read_field :=
  unfold toWireLineEvent, get, table_get;
  rewrite ?payload_eq;
  repeat first [rewrite own_set_eq | rewrite own_set_ne by by vm_compute];
  rewrite ?own_app, ?own_signal_props, ?own_entity_props, ?own_noise_props, ?own_opt_prop,
    ?own_nonempty_prop; cbn [own]; eval_keys.

Definition signals_value (l : list jsstr) : jsval :=
  match l with [] => VUndef | _ => VArr (map VStr l) end.

Section Fields.
Context (e : event).
Notation w := (toWireLineEvent e).

Lemma wire_kind : get w (js "kind") = VStr (str_or (ev_kind e) (js "info")).
Proof. by read_field. Qed.
Lemma wire_role : get w (js "role") = VStr (str_or (ev_role e) (js "body")).
Proof. by read_field. Qed.
Lemma wire_text : get w (js "text") = VStr (ev_text e).
Proof. by read_field. Qed.
Lemma wire_cls : get w (js "cls") = VStr (legacyClsForEvent e).
Proof. by read_field. Qed.
Lemma wire_tsC : get w (js "tsC") = VStr (ev_ts_clock e).
Proof. by read_field. Qed.
Lemma wire_tsE : get w (js "tsE") = VStr (ev_ts_elapsed e).
Proof. by read_field. Qed.
Lemma wire_signals : get w (js "signals") = signals_value (ev_signals e).
Proof. unfold signals_value. read_field. destruct (ev_signals e), (noiseKindForEvent e), (ev_entities e); done. Qed.
Lemma wire_line_index : get w (js "line_index") = default VUndef (VNum <$> ev_line_index e).
Proof. read_field. destruct (ev_line_index e), (noiseKindForEvent e); done. Qed.
Lemma wire_command_root : str_of (get w (js "command_root")) = ev_command_root e.
Proof.
  read_field. destruct (ev_command_root e), (noiseKindForEvent e); try done.
Qed.
Lemma wire_target : str_of (get w (js "target")) = ev_target e.
Proof. read_field. destruct (ev_target e), (noiseKindForEvent e); try done. Qed.
Lemma wire_entities :
  items_of (get w (js "entities")) = map entityToWire (ev_entities e).
Proof. read_field. destruct (ev_entities e), (noiseKindForEvent e); done. Qed.
Lemma wire_noise_kind :
  get w (js "noise_kind") = default VUndef (VStr <$> noiseKindForEvent e).
Proof. read_field. destruct (noiseKindForEvent e); done. Qed.
Lemma wire_noise_reason :
  str_of (get w (js "noise_reason"))
  = if isNoiseLineEvent e then ev_noise_reason e else [].
Proof.
  unfold isNoiseLineEvent. read_field. destruct (noiseKindForEvent e), (ev_noise_reason e); done.
Qed.
End Fields.

(** ** Well-formed events *)

(** A number that prints to an integer's numeral. *)
Definition int_ok (n : num) : Prop := optionalInt (VNum n) = Some n.
Definition opt_int_ok (o : option num) : Prop := match o with Some n => int_ok n | None => True end.
Definition text_ok (s : jsstr) : Prop := nonempty s = true ∧ trim s = s.

Record entity_ok (en : entity) : Prop := EntityOk
  { eo_type : text_ok (en_type en); eo_value : text_ok (en_value en);
    eo_canonical : text_ok (en_canonical en); eo_confidence : text_ok (en_confidence en);
    eo_line : opt_int_ok (en_source_line en); eo_start : opt_int_ok (en_start en);
    eo_end : opt_int_ok (en_end en);
    eo_span : is_Some (en_start en) ↔ is_Some (en_end en) }.

Record event_ok (e : event) : Prop := EventOk
  { vo_kind : ev_kind e ∈ LINE_KIND_VALUES; vo_role : ev_role e ∈ LINE_ROLE_VALUES;
    vo_signals : Forall (λ s, s ∈ LINE_SIGNAL_VALUES) (ev_signals e);
    vo_line : opt_int_ok (ev_line_index e);
    vo_entities : Forall entity_ok (ev_entities e);
    vo_noise : match ev_noise_kind e with Some k => k ∈ LINE_NOISE_KIND_VALUES | None => True end }.

Lemma optionalInt_opt o : opt_int_ok o → optionalInt (default VUndef (VNum <$> o)) = o.
Proof. by destruct o. Qed.

Lemma entity_round_trip en : entity_ok en → entityFromWire (entityToWire en) = Some en.
Proof.
  intros [[Ht1 Ht2] [Hv1 Hv2] [Hc1 Hc2] [Hf1 Hf2] Hl Hs He Hsp].
  assert (∀ k, get (entityToWire en) (js k) = table_get (props_of (entityToWire en)) (js k)) as Hg by done.
  assert (get (entityToWire en) (js "type") = VStr (en_type en)
    ∧ get (entityToWire en) (js "canonical_value") = VStr (en_canonical en)
    ∧ get (entityToWire en) (js "value") = VStr (en_value en)
    ∧ get (entityToWire en) (js "confidence") = VStr (en_confidence en)
    ∧ get (entityToWire en) (js "source_line") = default VUndef (VNum <$> en_source_line en)
    ∧ get (entityToWire en) (js "start") = default VUndef (VNum <$> en_start en)
    ∧ get (entityToWire en) (js "end") = default VUndef (VNum <$> en_end en))
    as (G1 & G2 & G3 & G4 & G5 & G6 & G7).
  { unfold entityToWire, get, table_get.
    split_and!; rewrite ?own_app, ?own_opt_prop; cbn [own]; eval_keys; try done;
      by destruct (en_source_line en), (en_start en), (en_end en). }
  unfold entityFromWire. cbn [is_objectlike entityToWire negb]. cbv zeta.
  fold (entityToWire en). rewrite G1, G2, G3, G4, G5, G6, G7, !str_of_VStr, Ht2, Hc2, Hv2, Hf2, Ht1, Hc1.
  cbn [negb orb]. rewrite !optionalInt_opt by done. unfold str_or. rewrite Hv1, Hf1.
  destruct en as [? ? ? ? ? [] []]; cbn in *; try done.
  - destruct (proj1 Hsp); [eauto|done].
  - destruct (proj2 Hsp); [eauto|done].
Qed.

Lemma entities_round_trip l : Forall entity_ok l → omap entityFromWire (map entityToWire l) = l.
Proof.
  induction 1 as [|en l Hen _ IH]; [done|]. cbn [map omap list_omap].
  rewrite entity_round_trip by done. by f_equal.
Qed.

Lemma str_or_ne a b : a ≠ [] → str_or a b = a.
Proof. by destruct a. Qed.
Lemma kind_ne k : k ∈ LINE_KIND_VALUES → k ≠ [].
Proof. intros H ->. revert H. apply (bool_decide_unpack _). vm_compute. exact I. Qed.
Lemma role_ne k : k ∈ LINE_ROLE_VALUES → k ≠ [].
Proof. intros H ->. revert H. apply (bool_decide_unpack _). vm_compute. exact I. Qed.

Lemma enumValue_known {A} values s (known : jsstr → A) fallback family :
  s ∈ values → s ≠ [] → enumValue values (VStr s) known fallback family = (known s, []).
Proof.
  intros Hs Hne. unfold enumValue. cbn [is_str to_string].
  rewrite (bool_decide_false (s = [])) by done. by rewrite bool_decide_true.
Qed.

Lemma signals_round_trip l :
  Forall (λ s, s ∈ LINE_SIGNAL_VALUES) l →
  signalsFromWire (signals_value l) = (l, []).
Proof.
  intros Hl. assert (map to_string (map VStr l) = l) as Hm by (clear; induction l; cbn; by f_equal).
  destruct l as [|s l]; [done|]. unfold signalsFromWire, signals_value. cbv zeta. rewrite Hm. f_equal.
  - apply filterb_all. intros x Hx. apply bool_decide_eq_true. by apply (proj1 (Forall_forall _ _) Hl).
  - rewrite filterb_none; [done|]. intros x Hx. apply bool_decide_eq_false. intros Hn.
    by apply Hn, (proj1 (Forall_forall _ _) Hl).
Qed.

(** The noise kinds a role stands for, and the encoding keeps, are known ones. *)
Lemma noiseKindForRole_known role k :
  role ∈ LINE_ROLE_VALUES → noiseKindForRole role = Some k → k ∈ LINE_NOISE_KIND_VALUES.
Proof.
  intros Hr. assert (Forall (λ r, match noiseKindForRole r with
      Some k => k ∈ LINE_NOISE_KIND_VALUES | None => True end) LINE_ROLE_VALUES) as Hf.
  { repeat constructor; vm_compute; set_solver. }
  pose proof (proj1 (Forall_forall _ _) Hf _ Hr) as H. cbn in H. by intros Hk; rewrite Hk in H.
Qed.

Lemma noiseKindForEvent_known e k :
  event_ok e → noiseKindForEvent e = Some k → k ∈ LINE_NOISE_KIND_VALUES ∧ k ≠ [].
Proof.
  intros He H. assert (k ∈ LINE_NOISE_KIND_VALUES) as Hk.
  { unfold noiseKindForEvent in H. destruct (ev_signals e); [|done].
    destruct (_ || _); [done|]. cbv zeta in H.
    pose proof (vo_noise e He) as Hn. destruct (ev_noise_kind e) as [k'|]; cbn in H.
    - destruct (nonempty k'); [by simplify_eq|].
      rewrite str_or_ne in H by apply role_ne, He. eapply noiseKindForRole_known; [apply He|done].
    - rewrite str_or_ne in H by apply role_ne, He. eapply noiseKindForRole_known; [apply He|done]. }
  split; [done|]. intros ->. revert Hk. apply (bool_decide_unpack _). vm_compute. exact I.
Qed.

(** What a reader of the encoded line gets. *)
Definition reread (e : event) : event :=
  let noise := match noiseKindForEvent e with Some k => Some k | None => noiseKindForRole (ev_role e) end in
  Event (ev_text e) (ev_kind e) (ev_role e) (legacyClsForEvent e) (ev_ts_clock e) (ev_ts_elapsed e)
        (ev_signals e) (ev_line_index e) (ev_command_root e) (ev_target e) (ev_entities e) noise
        (if isNoiseLineEvent e then ev_noise_reason e else []).

Lemma fromWire_toWire e : event_ok e → fromWireLineEvent (toWireLineEvent e) = (reread e, []).
Proof.
  intros He. unfold fromWireLineEvent. cbn [is_objectlike toWireLineEvent]. cbv zeta.
  fold (toWireLineEvent e).
  pose proof (kind_ne _ (vo_kind e He)) as Hk. pose proof (role_ne _ (vo_role e He)) as Hr.
  rewrite wire_kind, wire_role, wire_text, wire_cls, wire_tsC, wire_tsE, wire_signals, wire_line_index,
    wire_command_root, wire_target, wire_noise_kind, wire_noise_reason.
  rewrite !str_or_ne by done.
  rewrite (enumValue_known LINE_KIND_VALUES) by (apply He || done).
  rewrite (enumValue_known LINE_ROLE_VALUES) by (apply He || done).
  rewrite signals_round_trip by apply He.
  rewrite !str_of_VStr. unfold entitiesFromWire. rewrite wire_entities, entities_round_trip by apply He.
  rewrite optionalInt_opt by apply He.
  assert (str_of (js_or (VStr (legacyClsForEvent e)) (VStr [])) = legacyClsForEvent e) as ->
    by (unfold js_or; cbn; destruct (legacyClsForEvent e); done).
  unfold id, reread. destruct (noiseKindForEvent e) as [k|] eqn:Hn; cbn [from_option fmap option_fmap option_map].
  - destruct (noiseKindForEvent_known e k He Hn) as [Hk1 Hk2].
    rewrite (enumValue_known LINE_NOISE_KIND_VALUES) by done. done.
  - cbn [enumValue]. unfold isNoiseLineEvent. rewrite Hn. cbn. by destruct (noiseKindForRole (ev_role e)).
Qed.

(** The classification depends on four fields only. *)
Definition noise_of (signals : list jsstr) (kind role : jsstr) (noise : option jsstr) : option jsstr :=
  match signals with
  | _ :: _ => None
  | [] => if (kind ==s js "warn") || (kind ==s js "error") then None
          else if nonempty (default [] noise) then noise else noiseKindForRole (str_or role (js "body"))
  end.
Lemma noise_of_event e :
  noiseKindForEvent e = noise_of (ev_signals e) (ev_kind e) (ev_role e) (ev_noise_kind e).
Proof.
  unfold noiseKindForEvent, noise_of. destruct (ev_signals e); [|done]. destruct (_ || _); [done|].
  cbv zeta. by destruct (ev_noise_kind e) as [[|]|].
Qed.

Lemma noise_reread e : event_ok e → noiseKindForEvent (reread e) = noiseKindForEvent e.
Proof.
  intros He. pose proof (role_ne _ (vo_role e He)) as Hr. rewrite (noise_of_event (reread e)).
  unfold reread. cbn [ev_signals ev_kind ev_noise_kind ev_role].
  destruct (noiseKindForEvent e) as [k|] eqn:Hn.
  - destruct (noiseKindForEvent_known e k He Hn) as [_ Hk]. rewrite noise_of_event in Hn.
    unfold noise_of in *. destruct (ev_signals e); [|done]. destruct (_ || _); [done|].
    by destruct k.
  - rewrite noise_of_event in Hn. unfold noise_of in *. destruct (ev_signals e); [|done].
    destruct (_ || _); [done|]. rewrite str_or_ne in * by done.
    destruct (nonempty (default [] (ev_noise_kind e))) eqn:Hk; [by rewrite Hn in Hk|].
    by rewrite Hn.
Qed.

Lemma legacy_reread e : legacyClsForEvent (reread e) = legacyClsForEvent e.
Proof.
  unfold legacyClsForEvent at 1. unfold reread. cbn [ev_legacy_cls ev_role ev_kind]. cbv zeta.
  destruct (nonempty (legacyClsForEvent e)) eqn:Hn; [done|].
  apply nonempty_false in Hn. rewrite Hn. revert Hn. unfold legacyClsForEvent. cbv zeta.
  destruct (nonempty (ev_legacy_cls e)) eqn:Hl; [|done]. intros He. by rewrite He in Hl.
Qed.

Lemma payload_reread e : event_ok e → legacyPayload (reread e) = legacyPayload e.
Proof.
  intros He. rewrite !payload_eq. unfold signal_props, entity_props, noise_props.
  rewrite legacy_reread, noise_reread by done. unfold reread; cbn.
  unfold isNoiseLineEvent. by destruct (noiseKindForEvent e).
Qed.

Lemma enumValue_in {A} values v (known : jsstr → A) fallback family :
  fst (enumValue values v known fallback family) = fallback
  ∨ ∃ s, s ∈ values ∧ fst (enumValue values v known fallback family) = known s.
Proof.
  unfold enumValue. destruct v; auto; (destruct (is_str _ []); [auto|]); cbv zeta;
    case_bool_decide; eauto.
Qed.

Lemma enumValue_unknown {A} values v (known : jsstr → A) fallback family p :
  p ∈ snd (enumValue values v known fallback family) →
  p = (js family, to_string v) ∧ to_string v ∉ values.
Proof.
  unfold enumValue. destruct v; cbn [snd]; try (by intros ?%elem_of_nil);
    (destruct (is_str _ []); [by intros ?%elem_of_nil|]); cbv zeta;
    case_bool_decide; cbn [snd]; (by intros ?%elem_of_nil) || by intros ->%list_elem_of_singleton.
Qed.

Lemma first_in_table_known t tokens d (values : list jsstr) :
  Forall (λ p, to_string (snd p) ∈ values) t → d ∈ values → first_in_table t tokens d ∈ values.
Proof.
  intros Ht Hd. unfold first_in_table. destruct (findb _ _) as [k|] eqn:Hf; [|done].
  apply findb_Some in Hf as [_ Hk]. apply has_own_Some in Hk as [v Hv]. unfold table_get. rewrite Hv.
  apply own_elem in Hv. by apply (proj1 (Forall_forall _ _) Ht _ Hv).
Qed.

Lemma legacy_kind_known v : legacyClsToKind v ∈ LINE_KIND_VALUES.
Proof.
  apply first_in_table_known; [|by left]. apply (bool_decide_unpack _). vm_compute. exact I.
Qed.
Lemma legacy_role_known v : legacyClsToRole v ∈ LINE_ROLE_VALUES.
Proof.
  apply first_in_table_known; [|by left]. apply (bool_decide_unpack _). vm_compute. exact I.
Qed.

(** ** Properties *)

(** C25: A line event survives the wire. Decoding an encoded event reports no
    unknown value and gives back its text, kind, role, times, signals, index,
    command, target and entities; the decoded event is noise exactly as the
    original was, and encodes to the same payload. *)
Theorem wire_round_trip e :
  event_ok e →
  ∃ e', fromWireLineEvent (toWireLineEvent e) = (e', [])
    ∧ (ev_text e', ev_kind e', ev_role e', ev_ts_clock e', ev_ts_elapsed e', ev_signals e')
      = (ev_text e, ev_kind e, ev_role e, ev_ts_clock e, ev_ts_elapsed e, ev_signals e)
    ∧ (ev_line_index e', ev_command_root e', ev_target e', ev_entities e')
      = (ev_line_index e, ev_command_root e, ev_target e, ev_entities e)
    ∧ noiseKindForEvent e' = noiseKindForEvent e
    ∧ toWireLineEvent e' = toWireLineEvent e.
Proof.
  intros He. exists (reread e). rewrite fromWire_toWire by done.
  split_and!; [done..|by apply noise_reread|]. unfold toWireLineEvent.
  by rewrite payload_reread.
Qed.

Definition sample_event : event :=
  Event (js "80/tcp open http") (js "notice") (js "body") [] (js "12:00:01") (js "0:03")
    [js "findings"] (Some (num_of_Z 7)) (js "nmap") (js "example.com")
    [Entity (js "port") (js "80/tcp") (js "80/tcp") (js "high") (Some (num_of_Z 7)) None None] None [].
Lemma wire_round_trip_witness :
  ∃ e', fromWireLineEvent (toWireLineEvent sample_event) = (e', [])
    ∧ (ev_text e', ev_kind e', ev_role e', ev_ts_clock e', ev_ts_elapsed e', ev_signals e')
      = (ev_text sample_event, ev_kind sample_event, ev_role sample_event, ev_ts_clock sample_event,
         ev_ts_elapsed sample_event, ev_signals sample_event)
    ∧ (ev_line_index e', ev_command_root e', ev_target e', ev_entities e')
      = (ev_line_index sample_event, ev_command_root sample_event, ev_target sample_event,
         ev_entities sample_event)
    ∧ noiseKindForEvent e' = noiseKindForEvent sample_event
    ∧ toWireLineEvent e' = toWireLineEvent sample_event.
Proof.
  apply (wire_round_trip sample_event).
  split; [..|done]; try (vm_compute; set_solver).
  - apply Forall_singleton. vm_compute. set_solver.
  - apply Forall_singleton. split; try (split; vm_compute; reflexivity); try (vm_compute; reflexivity); try done.
Defined.

(** C26: Decoding is total and closed: whatever the payload, the event has a kind,
    a role, signals and a noise kind of the vocabulary; every reported unknown
    value is one the vocabulary lacks; and a line that carries a signal, or
    that warns or fails, is never classified as noise. *)
Theorem decoding_closed payload :
  let '(e, unknown) := fromWireLineEvent payload in
  ev_kind e ∈ LINE_KIND_VALUES ∧ ev_role e ∈ LINE_ROLE_VALUES
  ∧ Forall (λ s, s ∈ LINE_SIGNAL_VALUES) (ev_signals e)
  ∧ (∀ k, ev_noise_kind e = Some k → k ∈ LINE_NOISE_KIND_VALUES)
  ∧ Forall (λ u, (fst u = js "kind" ∧ snd u ∉ LINE_KIND_VALUES)
                 ∨ (fst u = js "role" ∧ snd u ∉ LINE_ROLE_VALUES)
                 ∨ (fst u = js "noise_kind" ∧ snd u ∉ LINE_NOISE_KIND_VALUES)
                 ∨ (fst u = js "signal" ∧ snd u ∉ LINE_SIGNAL_VALUES)) unknown
  ∧ (isNoiseLineEvent e = true →
     ev_signals e = [] ∧ ev_kind e ≠ js "warn" ∧ ev_kind e ≠ js "error").
Proof.
  unfold fromWireLineEvent. cbv zeta.
  set (item := if is_objectlike payload then payload else VObj []). clearbody item.
  set (cls := js_or (get item (js "cls")) (VStr [])). clearbody cls.
  destruct (enumValue LINE_KIND_VALUES _ _ _ _) as [kind u1] eqn:E1.
  destruct (enumValue LINE_ROLE_VALUES _ _ _ _) as [role u2] eqn:E2.
  destruct (enumValue LINE_NOISE_KIND_VALUES _ _ _ _) as [noise u3] eqn:E3.
  destruct (signalsFromWire _) as [signals u4] eqn:E4. cbn [ev_kind ev_role ev_signals ev_noise_kind].
  assert (role ∈ LINE_ROLE_VALUES) as Hrole.
  { pose proof (enumValue_in LINE_ROLE_VALUES (get item (js "role")) id (legacyClsToRole cls) "role") as H.
    rewrite E2 in H. cbn in H. destruct H as [->|(s & Hs & ->)]; [apply legacy_role_known|done]. }
  split_and!.
  - pose proof (enumValue_in LINE_KIND_VALUES (get item (js "kind")) id (legacyClsToKind cls) "kind") as H.
    rewrite E1 in H. cbn in H. destruct H as [->|(s & Hs & ->)]; [apply legacy_kind_known|done].
  - done.
  - unfold signalsFromWire in E4. destruct (get item (js "signals")); injection E4 as <- _; try constructor.
    apply Forall_forall. intros s [Hs _]%elem_of_filterb. by apply bool_decide_eq_true in Hs.
  - intros k ->.
    pose proof (enumValue_in LINE_NOISE_KIND_VALUES (get item (js "noise_kind")) Some
                  (noiseKindForRole role) "noise_kind") as H.
    rewrite E3 in H. cbn in H. destruct H as [H|(s & Hs & [= ->])]; [|done].
    by eapply noiseKindForRole_known.
  - apply Forall_forall. intros u. rewrite !elem_of_app. intros [Hu|[Hu|[Hu|Hu]]].
    + left. pose proof (enumValue_unknown LINE_KIND_VALUES (get item (js "kind")) id (legacyClsToKind cls) "kind" u) as H.
      rewrite E1 in H. by destruct (H Hu) as [-> ?].
    + right. left. pose proof (enumValue_unknown LINE_ROLE_VALUES (get item (js "role")) id (legacyClsToRole cls) "role" u) as H.
      rewrite E2 in H. by destruct (H Hu) as [-> ?].
    + right. right. left.
      pose proof (enumValue_unknown LINE_NOISE_KIND_VALUES (get item (js "noise_kind")) Some
                    (noiseKindForRole role) "noise_kind" u) as H.
      rewrite E3 in H. by destruct (H Hu) as [-> ?].
    + right. right. right. unfold signalsFromWire in E4.
      destruct (get item (js "signals")); injection E4 as _ <-; try (by apply elem_of_nil in Hu).
      apply list_elem_of_In, in_map_iff in Hu as (s & <- & Hs). apply list_elem_of_In in Hs.
      apply elem_of_filterb in Hs as [Hs _]. by apply bool_decide_eq_true in Hs.
  - unfold isNoiseLineEvent. rewrite noise_of_event. cbn [ev_signals ev_kind ev_role ev_noise_kind].
    intros Hn. apply bool_decide_eq_true in Hn as [k Hn]. unfold noise_of in Hn.
    destruct signals; [|done]. destruct (_ || _) eqn:Hk; [done|]. apply orb_false_iff in Hk as [H1 H2].
    apply bool_decide_eq_false in H1, H2. done.
Qed.
