(* ===== verification/OutputCore.v ===== *)
(** Output helpers (app/static/js/core/output_core.js): prompt labels, output
    prefixes, signal counting and the command outcome summaries. *)

From S2P Require Import Prelude JsString JsNumber JsRegExp JsValue RunOutputModel.

(** ** Class vocabulary *)

Definition OUTPUT_SIGNAL_SCOPES := map js ["findings"; "warnings"; "errors"; "summaries"]%string.
Definition OUTPUT_SIGNAL_SUMMARY_CLASSES := map js
  ["builtin-signal-summary-header"; "builtin-signal-summary-section"; "builtin-signal-summary-row";
   "builtin-signal-summary-note"; "builtin-signal-summary-sep"]%string.
Definition OUTPUT_COMMAND_OUTCOME_SUMMARY_CLASSES := map js
  ["command-outcome-summary"; "command-outcome-summary-title"; "command-outcome-summary-row";
   "command-outcome-summary-note"]%string.
Definition OUTPUT_SYNTHETIC_SUMMARY_CLASSES :=
  OUTPUT_SIGNAL_SUMMARY_CLASSES ++ OUTPUT_COMMAND_OUTCOME_SUMMARY_CLASSES.

Definition isSignalSummaryClassName (cls : jsstr) : bool :=
  bool_decide (cls ∈ OUTPUT_SIGNAL_SUMMARY_CLASSES).
Definition isSyntheticSummaryClassName (cls : jsstr) : bool :=
  bool_decide (cls ∈ OUTPUT_SYNTHETIC_SUMMARY_CLASSES).

(** ** Prompts *)

Definition PATH_SUFFIX_RE : regexp := Eval vm_compute in lit ":[^\s:]+$" false.

Definition promptIdentityPrefix (rawPrefix : jsval) : jsstr :=
  let prefix := str_or (trim (str_of rawPrefix)) (js "anon@darklab") in
  let prefix := if ends_with (js "$") prefix then trim_end (drop_last prefix) else prefix in
  str_or (trim (replace_first PATH_SUFFIX_RE (λ _, []) prefix)) (js "anon@darklab").

Definition promptIdentityFromParts (username domain : jsval) : jsstr :=
  str_or (trim (str_of username)) (js "anon") ++ js "@"
  ++ str_or (trim (str_of domain)) (js "darklab.sh").

Definition normalizeWorkspaceCwd (rawPath : jsval) : jsstr :=
  join (js "/") (filterb nonempty (map trim (split_on 47 (str_of rawPath)))).
Definition workspaceDisplayPath (path : jsval) : jsstr :=
  let normalized := normalizeWorkspaceCwd path in
  if nonempty normalized then js "/" ++ normalized else js "/".

Definition buildPromptLabel (rawPrefix path : jsval) : jsstr :=
  promptIdentityPrefix rawPrefix ++ js ":" ++ to_string (js_or path (vstr "~")) ++ js " $".
Definition buildPromptLabelFromParts (username domain path : jsval) : jsstr :=
  promptIdentityFromParts username domain ++ js ":" ++ to_string (js_or path (vstr "~")) ++ js " $".

Definition regex_special : jsstr := js ".*+?^${}()|[]\".
Definition escapeRegex (text : jsstr) : jsstr :=
  flat_map (λ c, if bool_decide (c ∈ regex_special) then [92; c] else [c]) text.

Definition PROMPT_SHAPED_RE : regexp :=
  Eval vm_compute in lit "^[^\s:]+@[^\s:]+:[^\s]+\$\s*" false.
(** The pattern built from the identity; it always parses, being escaped. *)
Definition legacyPattern (identity : jsstr) : regexp :=
  default (RegExp fail_rx false false)
    (mk_regexp (js "^" ++ escapeRegex identity ++ js ":[^\s]+\$\s*") false false).

Definition stripPromptLabelFromEchoText (text currentLabel identityPrefix : jsval) : jsstr :=
  let value := str_of text in
  let current := str_of currentLabel in
  if nonempty current && starts_with current value
  then trim_start (slice_from (length current) value)
  else
    let legacy := legacyPattern (promptIdentityPrefix identityPrefix) in
    if test legacy value then replace_first legacy (λ _, []) value
    else if test PROMPT_SHAPED_RE value then replace_first PROMPT_SHAPED_RE (λ _, []) value
    else if value ==s js "$" then []
    else if starts_with (js "$ ") value then slice_from 2 value
    else value.

Definition formatOutputPrefix (index tsText includeTimestamp lineMode timestampMode : jsval) : jsstr :=
  join (js " ")
    ((if is_str lineMode (js "on") then [to_string index] else [])
     ++ (if truthy includeTimestamp && truthy tsText
            && (is_str timestampMode (js "elapsed") || is_str timestampMode (js "clock"))
         then [to_string tsText] else [])).

(** ** Outcome summaries: data *)

Record outcome_item := OutcomeItem
  { oi_label : option jsstr; oi_value : jsstr; oi_tone : option jsstr }.
(** The [kind] of every summary is ['command_outcome']. *)
Record outcome := Outcome { oc_title : jsstr; oc_items : list outcome_item }.

Definition some_nonempty (s : jsstr) : option jsstr := if nonempty s then Some s else None.

Definition normalizeOutcomeItem (item : jsval) : option outcome_item :=
  match item with
  | VUndef | VNull => None
  | VStr _ | VNum _ | VBool _ =>
      let value := trim (to_string item) in
      if nonempty value then Some (OutcomeItem None value None) else None
  | VFun _ => None
  | VArr _ | VObj _ =>
      let field (k : string) := get item (js k) in
      let label := trim (to_string (js_or (field "label"%string) (js_or (field "key"%string) (VStr [])))) in
      let value := trim (to_string (js_or (field "value"%string) (js_or (field "text"%string)
                          (js_or (field "summary"%string) (VStr []))))) in
      let tone := trim (str_of (field "tone"%string)) in
      if negb (nonempty label) && negb (nonempty value) then None
      else Some (OutcomeItem (some_nonempty label) value (some_nonempty tone))
  end.

Definition normalizeCommandOutcomeSummary (raw : jsval) : option outcome :=
  if negb (truthy raw) then None else
  match raw with
  | VStr _ | VNum _ | VBool _ =>
      let value := trim (to_string raw) in
      if nonempty value
      then Some (Outcome (js "Command outcome") [OutcomeItem None value None]) else None
  | VArr _ | VObj _ =>
      let field (k : string) := get raw (js k) in
      let title := str_or (trim (to_string (js_or (field "title"%string)
                     (js_or (field "heading"%string) (vstr "Command outcome"))))) (js "Command outcome") in
      let sourceItems :=
        match field "items"%string, field "lines"%string, field "summary"%string with
        | VArr l, _, _ => l
        | _, VArr l, _ => l
        | _, _, VArr l => l
        | _, _, _ => []
        end in
      let items := omap normalizeOutcomeItem sourceItems in
      let items :=
        match items, field "text"%string with
        | [], VStr t => if nonempty (trim t) then [OutcomeItem None (trim t) None] else []
        | _, _ => items
        end in
      match items with [] => None | _ => Some (Outcome title items) end
  | _ => None
  end.

(** The summary as the value it is stored and passed around as. *)
Definition outcome_item_value (i : outcome_item) : jsval :=
  VObj (opt_prop "label" VStr (oi_label i) ++ [(js "value", VStr (oi_value i))]
        ++ opt_prop "tone" VStr (oi_tone i)).
Definition outcome_value (o : outcome) : jsval :=
  VObj [(js "kind", vstr "command_outcome"); (js "title", VStr (oc_title o));
        (js "items", VArr (map outcome_item_value (oc_items o)))].

(** ** Outcome summaries: input lines *)

Definition ANSI_RE : regexp := Eval vm_compute in lit "\x1b\[[0-9;?]*[ -/]*[@-~]" false.

Definition plainOutcomeLineText (line : jsval) : jsstr :=
  trim_end (replace_all ANSI_RE (λ _, [])
    (str_of (if is_objectlike line then js_or (get line (js "text")) (VStr []) else js_or line (VStr [])))).

Definition outcomeCommandRoot (command : jsval) : jsstr := lower (first_word (str_of command)).

Definition echo_or_exit (s : jsstr) : bool :=
  bool_decide (s ∈ map js ["prompt-echo"; "exit-ok"; "exit-fail"]%string).

(** The lines that count: no echo, exit, noise or synthetic line. *)
Definition outcome_line_kept (line : jsval) : bool :=
  let role := trim (str_of (get line (js "role"))) in
  let cls := words (str_of (get line (js "cls"))) in
  negb (echo_or_exit role) && negb (existsb echo_or_exit cls)
  && negb (isNoiseLineEvent (fst (fromWireLineEvent line)))
  && negb (existsb isSyntheticSummaryClassName cls).

Definition outcomeLines (lines : jsval) : list jsstr :=
  filterb nonempty (map plainOutcomeLineText
    (filterb outcome_line_kept (filterb is_objectlike (items_of lines)))).

(** ** Outcome summaries: the parsers *)

Definition formatLimitedList (values : list jsstr) (limit : nat) : jsstr :=
  let unique := dedup (filterb nonempty (map trim values)) in
  if bool_decide (length unique ≤ limit)%nat then join (js ", ") unique
  else join (js ", ") (take limit unique) ++ js " and " ++ str_of_nat (length unique - limit) ++ js " more".

(** [_pushOutcomeItem], as the items it adds. *)
Definition pushOutcomeItem (label : string) (value : jsstr) : list outcome_item :=
  let text := trim value in
  if nonempty text then [OutcomeItem (Some (js label)) text None] else [].

Definition outcome_of_items (items : list outcome_item) : option outcome :=
  match items with [] => None | _ => Some (Outcome (js "Command outcome") items) end.

(** [match[1]] of a pattern, trimmed; the old value if there is no match. *)
Definition capture_trim (re : regexp) (line old : jsstr) : jsstr :=
  match exec re line with Some m => trim (group_or 1 line m) | None => old end.

(** *** nmap *)

Definition NMAP_PORT_RE : regexp :=
  Eval vm_compute in lit "^\s*(\d{1,5}\/(?:tcp|udp))\s+open\S*\s+([^\s]+)?\s*(.*)$" true.
Definition NMAP_DONE_RE : regexp :=
  Eval vm_compute in lit "Nmap done:\s+.*\((\d+)\s+hosts?\s+up\)" true.
Definition NMAP_SERVICE_RE : regexp := Eval vm_compute in lit "Service Info:\s*(.+)$" true.
Definition NMAP_OS_RE : regexp := Eval vm_compute in lit "(?:OS details|Running):\s*(.+)$" true.

Record nmap_state := NmapState { nm_ports : list jsstr; nm_hints : list jsstr; nm_up : jsstr }.

Definition collapse_trim (s : jsstr) : jsstr := trim (collapse_ws false s).

Section Nmap.
(** [n.toLocaleString()], the browser's number format. *)
Context (locale_num : num → jsstr).

Definition nmap_line (st : nmap_state) (line : jsstr) : nmap_state :=
  match exec NMAP_PORT_RE line with
  | Some m =>
      let port := lower (group_or 1 line m) in
      let service := trim (group_or 2 line m) in
      let version := collapse_trim (group_or 3 line m) in
      NmapState (nm_ports st ++ [join (js " ") (filterb nonempty [port; service; version])])
                (nm_hints st) (nm_up st)
  | None =>
      let up := match exec NMAP_DONE_RE line with
                | Some m => locale_num (num_of_str (group_or 1 line m)) ++ js " up"
                | None => nm_up st
                end in
      let hint re := match exec re line with
                     | Some m => [collapse_trim (group_or 1 line m)]
                     | None => []
                     end in
      NmapState (nm_ports st) (nm_hints st ++ hint NMAP_SERVICE_RE ++ hint NMAP_OS_RE) up
  end.

Definition parseNmapOutcome (lines : list jsstr) : option outcome :=
  let st := fold_left nmap_line lines (NmapState [] [] []) in
  outcome_of_items
    (pushOutcomeItem "Hosts" (nm_up st)
     ++ pushOutcomeItem "Open ports"
          (match nm_ports st with
           | [] => []
           | ports => locale_num (num_of_nat (length ports)) ++ js " ("
                      ++ formatLimitedList ports 10 ++ js ")"
           end)
     ++ pushOutcomeItem "OS / service hints" (formatLimitedList (nm_hints st) 3)).
End Nmap.

(** *** dig *)

Definition DIG_STATUS_RE : regexp :=
  Eval vm_compute in lit "HEADER<<-[^,]*,\s*status:\s*([A-Z0-9_-]+)" true.
Definition DIG_ANSWER_RE : regexp := Eval vm_compute in lit "\bANSWER:\s*(\d+)" true.
Definition DIG_ANSWER_SECTION_RE : regexp := Eval vm_compute in lit "^;;\s*ANSWER SECTION:" true.
Definition DIG_OTHER_SECTION_RE : regexp :=
  Eval vm_compute in lit "^;;\s*(AUTHORITY|ADDITIONAL|QUESTION) SECTION:" true.
Definition DIG_SERVER_RE : regexp := Eval vm_compute in lit "^;;\s*SERVER:\s*(.+)$" true.
Definition DIG_TIME_RE : regexp := Eval vm_compute in lit "^;;\s*Query time:\s*(.+)$" true.

(** [toUpperCase], on the ASCII letters the captures are made of. *)
Definition ascii_upper (s : jsstr) : jsstr := map (λ c, if is_lower c then c - 32 else c) s.

Record dig_state := DigState
  { dg_types : list jsstr; dg_records : list jsstr; dg_status : jsstr; dg_count : option num;
    dg_server : jsstr; dg_time : jsstr; dg_in_answer : bool }.

(** The owner, type and value of an answer line, if it has an [IN] column. *)
Definition dig_record (line : jsstr) : option (jsstr * jsstr * jsstr) :=
  let parts := words line in
  match find_index (λ p, ascii_upper p ==s js "IN") parts with
  | Some i =>
      match parts !! S i with
      | Some t =>
          Some (strip_dot (default [] (head parts)), ascii_upper t,
                trim (join (js " ") (drop (i + 2) parts)))
      | None => None
      end
  | None => None
  end.

Definition dig_line (st : dig_state) (line : jsstr) : dig_state :=
  let status := match exec DIG_STATUS_RE line with
                | Some m => ascii_upper (group_or 1 line m) | None => dg_status st end in
  let count := match exec DIG_ANSWER_RE line with
               | Some m => Some (num_of_str (group_or 1 line m)) | None => dg_count st end in
  if test DIG_ANSWER_SECTION_RE line then
    DigState (dg_types st) (dg_records st) status count (dg_server st) (dg_time st) true
  else
    let in_answer := dg_in_answer st && negb (test DIG_OTHER_SECTION_RE line) in
    let '(types, records) :=
      if in_answer && negb (starts_with (js ";") line) then
        match dig_record line with
        | Some (owner, t, value) =>
            (dg_types st ++ [t],
             dg_records st ++
               if nonempty owner && nonempty t && nonempty value
               then [owner ++ js " " ++ t ++ js " " ++ value] else [])
        | None => (dg_types st, dg_records st)
        end
      else (dg_types st, dg_records st) in
    DigState types records status count (capture_trim DIG_SERVER_RE line (dg_server st))
             (capture_trim DIG_TIME_RE line (dg_time st)) in_answer.

Definition parseDigOutcome (lines : list jsstr) : option outcome :=
  let st := fold_left dig_line lines (DigState [] [] [] None [] [] false) in
  outcome_of_items
    (pushOutcomeItem "Status" (dg_status st)
     ++ pushOutcomeItem "Answers" (match dg_count st with Some n => num_to_str n | None => [] end)
     ++ pushOutcomeItem "Answer records" (formatLimitedList (dg_records st) 4)
     ++ pushOutcomeItem "Record types" (formatLimitedList (dg_types st) 6)
     ++ pushOutcomeItem "Resolver" (dg_server st)
     ++ pushOutcomeItem "Query time" (dg_time st)).

(** *** nslookup *)

Definition cleanNslookupName (value : jsstr) : jsstr := strip_dot (trim value).

Definition NS_SERVER_RE : regexp := Eval vm_compute in lit "^Server:\s*(.+)$" true.
Definition NS_ADDRESS_RE : regexp := Eval vm_compute in lit "^Address:\s*(.+)$" true.
Definition NS_NONAUTH_RE : regexp := Eval vm_compute in lit "^Non-authoritative answer:" true.
Definition NS_AUTH_RE : regexp :=
  Eval vm_compute in lit "^Authoritative answers can be found from:" true.
Definition NS_NAME_RE : regexp := Eval vm_compute in lit "^Name:\s*(.+)$" true.
Definition NS_MX_RE : regexp := Eval vm_compute in lit "^(\S+)\s+mail exchanger\s*=\s*(.+)$" true.
Definition NS_TXT_RE : regexp := Eval vm_compute in lit "^(\S+)\s+text\s*=\s*(.+)$" true.

(** [replace(/^"|"$/g, '')]. *)
Definition strip_quotes (s : jsstr) : jsstr :=
  let s := match s with 34 :: s' => s' | _ => s end in
  if ends_with [34] s then drop_last s else s.

Record ns_state := NsState
  { ns_a : list jsstr; ns_mx : list jsstr; ns_txt : list jsstr; ns_types : list jsstr;
    ns_resolver : jsstr; ns_name : jsstr; ns_in_answer : bool }.

Definition ns_record_line (st : ns_state) (line : jsstr) : ns_state :=
  match exec NS_MX_RE line with
  | Some m =>
      NsState (ns_a st)
        (ns_mx st ++ [cleanNslookupName (group_or 1 line m) ++ js " MX "
                      ++ strip_dot (trim (group_or 2 line m))])
        (ns_txt st) (ns_types st ++ [js "MX"]) (ns_resolver st) (ns_name st) (ns_in_answer st)
  | None =>
      match exec NS_TXT_RE line with
      | Some m =>
          NsState (ns_a st) (ns_mx st)
            (ns_txt st ++ [cleanNslookupName (group_or 1 line m) ++ js " TXT "
                           ++ strip_quotes (trim (group_or 2 line m))])
            (ns_types st ++ [js "TXT"]) (ns_resolver st) (ns_name st) (ns_in_answer st)
      | None => st
      end
  end.

Definition ns_with_resolver (st : ns_state) (r : jsstr) : ns_state :=
  NsState (ns_a st) (ns_mx st) (ns_txt st) (ns_types st) r (ns_name st) (ns_in_answer st).
Definition ns_with_answer (st : ns_state) (b : bool) : ns_state :=
  NsState (ns_a st) (ns_mx st) (ns_txt st) (ns_types st) (ns_resolver st) (ns_name st) b.

Definition ns_line (st : ns_state) (line : jsstr) : ns_state :=
  match exec NS_SERVER_RE line with
  | Some m => ns_with_resolver st (trim (group_or 1 line m))
  | None =>
  match (if ns_in_answer st then None else exec NS_ADDRESS_RE line) with
  | Some m =>
      let address := trim (group_or 1 line m) in
      ns_with_resolver st
        (if nonempty (ns_resolver st) then ns_resolver st ++ js " (" ++ address ++ js ")" else address)
  | None =>
  if test NS_NONAUTH_RE line then ns_with_answer st true
  else if test NS_AUTH_RE line then ns_with_answer st false
  else
  match exec NS_NAME_RE line with
  | Some m =>
      NsState (ns_a st) (ns_mx st) (ns_txt st) (ns_types st) (ns_resolver st)
              (cleanNslookupName (group_or 1 line m)) (ns_in_answer st)
  | None =>
  match (if ns_in_answer st && nonempty (ns_name st) then exec NS_ADDRESS_RE line else None) with
  | Some m =>
      NsState (ns_a st ++ [ns_name st ++ js " A " ++ trim (group_or 1 line m)]) (ns_mx st) (ns_txt st)
              (ns_types st ++ [js "A"]) (ns_resolver st) (ns_name st) (ns_in_answer st)
  | None => ns_record_line st line
  end end end end.

Definition parseNslookupOutcome (lines : list jsstr) : option outcome :=
  let st := fold_left ns_line lines (NsState [] [] [] [] [] [] false) in
  let answerCount := (length (ns_a st) + length (ns_mx st) + length (ns_txt st))%nat in
  outcome_of_items
    (pushOutcomeItem "Answers" (match answerCount with O => [] | n => str_of_nat n end)
     ++ pushOutcomeItem "A records" (formatLimitedList (ns_a st) 4)
     ++ pushOutcomeItem "MX records" (formatLimitedList (ns_mx st) 4)
     ++ pushOutcomeItem "TXT records" (formatLimitedList (ns_txt st) 3)
     ++ pushOutcomeItem "Record types" (formatLimitedList (ns_types st) 6)
     ++ pushOutcomeItem "Resolver" (ns_resolver st)).

(** *** curl *)

Definition CURL_STATUS_RE : regexp :=
  Eval vm_compute in lit "^\s*<*\s*HTTP\/(?:\d(?:\.\d)?|2|3)\s+(\d{3})(?:\s+(.+))?$" true.
Definition CURL_TYPE_RE : regexp := Eval vm_compute in lit "^\s*<*\s*content-type:\s*(.+)$" true.
Definition CURL_LENGTH_RE : regexp := Eval vm_compute in lit "^\s*<*\s*content-length:\s*(.+)$" true.
Definition CURL_LOCATION_RE : regexp := Eval vm_compute in lit "^\s*<*\s*location:\s*(.+)$" true.
Definition CURL_TLS_RE : regexp := Eval vm_compute in
  lit "SSL certificate problem|certificate verify failed|TLS.*alert|Failed to connect|Could not resolve host" true.
Definition CURL_PREFIX_RE : regexp := Eval vm_compute in lit "^\s*curl:\s*" true.

Record curl_state := CurlState
  { cl_statuses : list jsstr; cl_type : jsstr; cl_length : jsstr; cl_url : jsstr; cl_tls : jsstr }.

Definition curl_line (st : curl_state) (line : jsstr) : curl_state :=
  CurlState
    (match exec CURL_STATUS_RE line with
     | Some m => cl_statuses st ++
         [group_or 1 line m ++
          (if nonempty (group_or 2 line m) then js " " ++ trim (group_or 2 line m) else [])]
     | None => cl_statuses st
     end)
    (capture_trim CURL_TYPE_RE line (cl_type st))
    (capture_trim CURL_LENGTH_RE line (cl_length st))
    (capture_trim CURL_LOCATION_RE line (cl_url st))
    (if test CURL_TLS_RE line
     then collapse_trim (replace_first CURL_PREFIX_RE (λ _, []) line) else cl_tls st).

Definition parseCurlOutcome (lines : list jsstr) : option outcome :=
  let st := fold_left curl_line lines (CurlState [] [] [] [] []) in
  outcome_of_items
    (pushOutcomeItem "Final status" (default [] (last (cl_statuses st)))
     ++ pushOutcomeItem "Redirects"
          (if bool_decide (1 < length (cl_statuses st))%nat
           then str_of_nat (length (cl_statuses st) - 1) else [])
     ++ pushOutcomeItem "Final URL" (cl_url st)
     ++ pushOutcomeItem "Content type" (cl_type st)
     ++ pushOutcomeItem "Content length" (cl_length st)
     ++ pushOutcomeItem "Connection / TLS" (cl_tls st)).

(** *** openssl *)

Definition SSL_CLIENT_RE : regexp := Eval vm_compute in lit "\bs_client\b" true.
Definition SSL_SUBJECT_RE : regexp := Eval vm_compute in lit "^subject=\s*(.+)$" true.
Definition SSL_ISSUER_RE : regexp := Eval vm_compute in lit "^issuer=\s*(.+)$" true.
Definition SSL_BEFORE_RE : regexp :=
  Eval vm_compute in lit "^(?:notBefore|Not Before)\s*=\s*(.+)$" true.
Definition SSL_AFTER_RE : regexp :=
  Eval vm_compute in lit "^(?:notAfter|Not After)\s*=\s*(.+)$" true.
Definition SSL_VERIFY_RE : regexp := Eval vm_compute in lit "Verify return code:\s*(.+)$" true.
Definition SSL_PROTOCOL_RE : regexp := Eval vm_compute in lit "^\s*Protocol\s*:\s*(.+)$" true.
Definition SSL_CIPHER_RE : regexp := Eval vm_compute in lit "^\s*Cipher\s*:\s*(.+)$" true.
Definition SSL_NEW_RE : regexp :=
  Eval vm_compute in lit "^\s*New,\s*([^,]+),\s*Cipher is\s+(.+)$" true.

Record ssl_state := SslState
  { sl_subject : jsstr; sl_issuer : jsstr; sl_before : jsstr; sl_after : jsstr;
    sl_verify : jsstr; sl_protocol : jsstr; sl_cipher : jsstr }.

Definition ssl_line (st : ssl_state) (line : jsstr) : ssl_state :=
  let protocol := capture_trim SSL_PROTOCOL_RE line (sl_protocol st) in
  let '(protocol, cipher) :=
    match exec SSL_CIPHER_RE line with
    | Some m => (protocol, trim (group_or 1 line m))
    | None =>
        match exec SSL_NEW_RE line with
        | Some m => (str_or protocol (trim (group_or 1 line m)), trim (group_or 2 line m))
        | None => (protocol, sl_cipher st)
        end
    end in
  SslState (capture_trim SSL_SUBJECT_RE line (sl_subject st))
           (capture_trim SSL_ISSUER_RE line (sl_issuer st))
           (capture_trim SSL_BEFORE_RE line (sl_before st))
           (capture_trim SSL_AFTER_RE line (sl_after st))
           (capture_trim SSL_VERIFY_RE line (sl_verify st)) protocol cipher.

Definition parseOpenSslOutcome (command : jsstr) (lines : list jsstr) : option outcome :=
  if negb (test SSL_CLIENT_RE command) then None else
  let st := fold_left ssl_line lines (SslState [] [] [] [] [] [] []) in
  outcome_of_items
    (pushOutcomeItem "Subject" (sl_subject st)
     ++ pushOutcomeItem "Issuer" (sl_issuer st)
     ++ pushOutcomeItem "Validity" (join (js " to ") (filterb nonempty [sl_before st; sl_after st]))
     ++ pushOutcomeItem "Verification" (sl_verify st)
     ++ pushOutcomeItem "Protocol" (sl_protocol st)
     ++ pushOutcomeItem "Cipher" (sl_cipher st)).

(** *** Dispatch on the command root *)

Definition buildCommandOutcomeSummary (locale_num : num → jsstr) (command rawLines : jsval)
    : option outcome :=
  let root := outcomeCommandRoot command in
  let lines := outcomeLines rawLines in
  let summary (o : option outcome) :=
    normalizeCommandOutcomeSummary (match o with Some o => outcome_value o | None => VNull end) in
  if negb (nonempty root) || bool_decide (lines = []) then None
  else if root ==s js "nmap" then summary (parseNmapOutcome locale_num lines)
  else if root ==s js "dig" then summary (parseDigOutcome lines)
  else if root ==s js "nslookup" then summary (parseNslookupOutcome lines)
  else if root ==s js "curl" then summary (parseCurlOutcome lines)
  else if root ==s js "openssl" then summary (parseOpenSslOutcome (to_string command) lines)
  else None.

(** ** Signal counting *)

Definition lineHasClass (rawLine : jsval) (className : jsstr) : bool :=
  bool_decide (className ∈ words (str_of (get rawLine (js "cls")))).

Definition lineRole (rawLine : jsval) : jsstr :=
  str_or (ev_role (fst (fromWireLineEvent (js_or rawLine (VObj []))))) (js "body").

Definition isSignalCountableLine (rawLine : jsval) : bool :=
  if negb (truthy rawLine) || (lineRole rawLine ==s js "prompt-echo") then false
  else negb (existsb isSyntheticSummaryClassName (words (str_of (get rawLine (js "cls"))))).

Definition isBuiltinCommandRoot (root : jsstr) (builtinRoots : jsval) : bool :=
  nonempty root && is_array builtinRoots && existsb (λ v, is_str v root) (items_of builtinRoots).

Definition normalizeSignals (signals : jsval) : list jsstr :=
  filterb nonempty (map str_of (items_of signals)).

(** [normalizeEntities] keeps a source line, and a span, only if they are integers. *)
Definition int_num (v : jsval) : option num :=
  match v with VNum n => if is_integer n then Some n else None | _ => None end.

Definition normalizeEntity (e : jsval) : option entity :=
  if negb (is_objectlike e) then None else
  let type := trim (str_of (get e (js "type"))) in
  let canonicalValue := trim (str_of (get e (js "canonical_value"))) in
  if negb (nonempty type) || negb (nonempty canonicalValue) then None else
  let '(start, en) :=
    match int_num (get e (js "start")), int_num (get e (js "end")) with
    | Some s, Some t => (Some s, Some t)
    | _, _ => (None, None)
    end in
  Some (Entity type
          (str_or (trim (to_string (js_or (get e (js "value")) (VStr canonicalValue)))) canonicalValue)
          canonicalValue
          (str_or (trim (to_string (js_or (get e (js "confidence")) (vstr "medium")))) (js "medium"))
          (int_num (get e (js "source_line"))) start en).
Definition normalizeEntities (entities : jsval) : list entity :=
  omap normalizeEntity (items_of entities).

Definition countableSignalScopes (rawLine builtinRoots : jsval) : list jsstr :=
  if negb (isSignalCountableLine rawLine) then [] else
  let commandRoot := trim (str_of (get rawLine (js "command_root"))) in
  if isBuiltinCommandRoot commandRoot builtinRoots then [] else
  dedup (filterb (λ s, bool_decide (s ∈ OUTPUT_SIGNAL_SCOPES))
           (normalizeSignals (get rawLine (js "signals")))).

(** ** Lemmas: outcome summaries *)

Definition opt_text_ok (o : option jsstr) : Prop := match o with Some s => text_ok s | None => True end.
Definition item_ok (i : outcome_item) : Prop :=
  opt_text_ok (oi_label i) ∧ opt_text_ok (oi_tone i) ∧ trim (oi_value i) = oi_value i
  ∧ (is_Some (oi_label i) ∨ nonempty (oi_value i) = true).
Definition outcome_ok (o : outcome) : Prop :=
  text_ok (oc_title o) ∧ oc_items o ≠ [] ∧ Forall item_ok (oc_items o).

Lemma some_nonempty_ok s : opt_text_ok (some_nonempty (trim s)).
Proof.
  unfold some_nonempty. destruct (nonempty (trim s)) eqn:Hn; [|done].
  split; [done|apply trim_idemp].
Qed.

Lemma some_nonempty_some s : nonempty s = true → is_Some (some_nonempty s).
Proof. unfold some_nonempty. intros ->. eauto. Qed.

Lemma normalizeOutcomeItem_ok v i : normalizeOutcomeItem v = Some i → item_ok i.
Proof.
  assert (∀ s i, (let value := trim s in if nonempty value then Some (OutcomeItem None value None) else None)
                 = Some i → item_ok i) as Hp.
  { intros s i'. cbv zeta. destruct (nonempty (trim s)) eqn:Hn; [|done]. intros [= <-].
    split_and!; cbn; [done..|apply trim_idemp|by right]. }
  destruct v; cbn [normalizeOutcomeItem]; try done; try apply Hp; cbv zeta;
    (destruct (negb _ && negb _) eqn:Hn; [done|]; intros [= <-];
     split_and!; cbn [oi_label oi_value oi_tone];
     [apply some_nonempty_ok|apply some_nonempty_ok|apply trim_idemp|];
     apply andb_false_iff in Hn as [Hn|Hn]; apply negb_false_iff in Hn;
     [left; by apply some_nonempty_some|by right]).
Qed.

Lemma normalize_ok raw o : normalizeCommandOutcomeSummary raw = Some o → outcome_ok o.
Proof.
  unfold normalizeCommandOutcomeSummary. destruct (truthy raw); [|done]. cbn [negb].
  assert (text_ok (js "Command outcome")) as Hd by (split; vm_compute; reflexivity).
  assert (∀ s o, (let value := trim s in if nonempty value
      then Some (Outcome (js "Command outcome") [OutcomeItem None value None]) else None) = Some o →
      outcome_ok o) as Hp.
  { intros s o'. cbv zeta. destruct (nonempty (trim s)) eqn:Hn; [|done]. intros [= <-].
    split_and!; cbn; [apply Hd..|done|]. apply Forall_singleton.
    split_and!; cbn; [done..|apply trim_idemp|by right]. }
  assert (∀ title sources (text : jsval),
    (let items := omap normalizeOutcomeItem sources in
     let items := match items, text with
                  | [], VStr t => if nonempty (trim t) then [OutcomeItem None (trim t) None] else []
                  | _, _ => items end in
     match items with [] => None | _ => Some (Outcome (str_or (trim title) (js "Command outcome")) items) end)
    = Some o → outcome_ok o) as Hobj.
  { intros title sources text. cbv zeta.
    assert (text_ok (str_or (trim title) (js "Command outcome"))) as Ht.
    { unfold str_or. destruct (nonempty (trim title)) eqn:Hn; [|done]. split; [done|apply trim_idemp]. }
    assert (Forall item_ok (omap normalizeOutcomeItem sources)) as Hf.
    { apply Forall_forall. intros i (v & _ & Hv)%list_elem_of_omap. by eapply normalizeOutcomeItem_ok. }
    destruct (omap normalizeOutcomeItem sources) as [|i l].
    - destruct text; try done. destruct (nonempty (trim s)) eqn:Hn; [|done]. intros [= <-].
      split_and!; cbn; [done..|]. apply Forall_singleton.
      split_and!; cbn; [done..|apply trim_idemp|by right].
    - intros [= <-]. done. }
  destruct raw; try done; try apply Hp; cbv zeta; intros H; exact (Hobj _ _ _ H).
Qed.

(** The properties of a stored summary. *)
Lemma item_value_fields i :
  let v := outcome_item_value i in
  get v (js "label") = default VUndef (VStr <$> oi_label i)
  ∧ get v (js "key") = VUndef ∧ get v (js "value") = VStr (oi_value i)
  ∧ get v (js "text") = VUndef ∧ get v (js "summary") = VUndef
  ∧ get v (js "tone") = default VUndef (VStr <$> oi_tone i).
Proof.
  cbv zeta. unfold outcome_item_value, get, table_get.
  split_and!; rewrite ?own_app, ?own_opt_prop; cbn [own]; eval_keys;
    by destruct (oi_label i), (oi_tone i).
Qed.

Lemma text_or_empty o :
  opt_text_ok o → trim (to_string (js_or (default VUndef (VStr <$> o)) (VStr []))) = default [] o
                  ∧ some_nonempty (default [] o) = o.
Proof.
  destruct o as [s|]; [|done]. intros [Hn Ht]. cbn. unfold js_or, some_nonempty. cbn [truthy].
  by rewrite Hn.
Qed.

Lemma js_or_undef v : js_or VUndef v = v.
Proof. done. Qed.

Lemma normalize_item_value i : item_ok i → normalizeOutcomeItem (outcome_item_value i) = Some i.
Proof.
  intros (Hl & Ht & Hv & Hne). destruct (item_value_fields i) as (G1 & G2 & G3 & G4 & G5 & G6).
  unfold normalizeOutcomeItem. cbn [outcome_item_value]. fold (outcome_item_value i). cbv zeta.
  rewrite G1, G2, G3, G4, G5, G6. unfold str_of.
  rewrite !(js_or_undef _).
  destruct (text_or_empty _ Hl) as [-> Hl2]. destruct (text_or_empty _ Ht) as [-> Ht2].
  assert (trim (to_string (js_or (VStr (oi_value i)) (VStr []))) = oi_value i) as ->
    by (unfold js_or; cbn; destruct (oi_value i); done).
  assert (negb (nonempty (default [] (oi_label i))) && negb (nonempty (oi_value i)) = false) as ->.
  { apply andb_false_iff. destruct Hne as [[l Hl']|Hne]; [left|right].
    - rewrite Hl' in *. cbn. destruct Hl as [-> _]. done.
    - by rewrite Hne. }
  rewrite Hl2, Ht2. by destruct i.
Qed.

(** ** Properties *)

(** The stored form of a command outcome is a normal form: whatever the raw
    summary, normalising it gives a titled, non-empty list of items with
    trimmed texts, each with a label or a value, and normalising the stored
    form again gives back the same summary. *)
Theorem outcome_normal_form raw o :
  normalizeCommandOutcomeSummary raw = Some o →
  outcome_ok o ∧ normalizeCommandOutcomeSummary (outcome_value o) = Some o.
Proof.
  intros H. pose proof (normalize_ok raw o H) as Ho. split; [done|].
  destruct Ho as ((Hn & Ht) & Hne & Hf). unfold normalizeCommandOutcomeSummary.
  cbn [outcome_value truthy negb]. fold (outcome_value o). cbv zeta.
  assert (get (outcome_value o) (js "title") = VStr (oc_title o)) as -> by reflexivity.
  assert (get (outcome_value o) (js "items") = VArr (map outcome_item_value (oc_items o))) as ->
    by reflexivity.
  assert (omap normalizeOutcomeItem (map outcome_item_value (oc_items o)) = oc_items o) as ->.
  { clear Hne. induction Hf as [|i l Hi _ IH]; [done|]. cbn [map omap list_omap].
    rewrite normalize_item_value by done. by f_equal. }
  unfold js_or. cbn [truthy]. rewrite Hn. cbn [to_string]. rewrite Ht. unfold str_or. rewrite Hn.
  destruct o as [t [|i l]]; done.
Qed.

Lemma outcome_normal_form_witness :
  let raw := VObj [(js "heading", vstr " Scan "); (js "lines", VArr [vstr " one "; VNull;
                     VObj [(js "key", vstr "Ports"); (js "text", vstr "80")]])] in
  ∃ o, normalizeCommandOutcomeSummary raw = Some o
       ∧ outcome_ok o ∧ normalizeCommandOutcomeSummary (outcome_value o) = Some o.
Proof.
  intros raw. eexists. split; [vm_compute; reflexivity|].
  apply (outcome_normal_form raw). vm_compute. reflexivity.
Defined.
