(* ===== verification/RunnerCore.v ===== *)
(** Synthetic post-filters (app/static/js/core/runner_core.js): elapsed times,
    the parser of [command | filter ... > file] lines, and the filters
    grep, head, tail, wc -l, sort, uniq and jq applied to buffered output. *)

From S2P Require Import Prelude JsString JsNumber JsRegExp JsValue JsJson.

(** ** Definitions *)

Definition formatElapsed (totalSecs : num) : jsstr :=
  if nltb totalSecs (num_of_Z 60) then to_fixed 1 totalSecs ++ js "s" else
  let h := num_floor (ndiv totalSecs (num_of_Z 3600)) in
  let m := num_floor (ndiv (num_rem totalSecs (num_of_Z 3600)) (num_of_Z 60)) in
  let s := to_fixed 1 (num_rem totalSecs (num_of_Z 60)) in
  if nltb num_zero h
  then num_to_str h ++ js "h " ++ num_to_str m ++ js "m " ++ s ++ js "s"
  else num_to_str m ++ js "m " ++ s ++ js "s".

(** *** Tokens *)

Definition is_quote (c : Z) : bool := (c =? 34) || (c =? 39).

Definition _isQuotedToken (value : jsstr) : bool :=
  match value, last value with
  | first :: _ :: _, Some l => is_quote first && (l =? first)
  | _, _ => false
  end.

Definition _unquoteToken (value : jsstr) : jsstr :=
  if _isQuotedToken value then drop_last (tl value) else value.

Definition _isValidOutputSinkPath (path : jsstr) : bool :=
  if negb (nonempty path) || negb (path ==s trim path) || starts_with (js "/") path
     || includes (js "\") path
  then false
  else if existsb (λ c, c <? 32) path then false
  else forallb (λ part, nonempty part && negb (part ==s js ".") && negb (part ==s js "..")
                        && bool_decide (length part ≤ 255)%nat)
               (split_on 47 path).

(** *** JSON selectors *)

Inductive selector :=
  | Identity
  | Field (path : list jsstr)
  | Iterate (path : list jsstr)
  | FilterHas (path : list jsstr)
  | FilterEq (path : list jsstr) (value : jsstr)
  | FilterContains (path : list jsstr) (value : jsstr).

Definition _jsonSelectorPath (value : jsstr) : list jsstr := filterb nonempty (split_on 46 value).

Definition SELECT_HAS_RE : regexp := Eval vm_compute in
  lit "^select\(has\(\x22([A-Za-z_][A-Za-z0-9_-]*)\x22\)\)$" false.
Definition SELECT_EQ_RE : regexp := Eval vm_compute in
  lit "^select\(\.([A-Za-z_][A-Za-z0-9_.-]*)\s*==\s*\x22([^\x22]{0,200})\x22\)$" false.
Definition SELECT_CONTAINS_RE : regexp := Eval vm_compute in
  lit "^select\(\.([A-Za-z_][A-Za-z0-9_.-]*)\s+contains\s+\x22([^\x22]{0,200})\x22\)$" false.
Definition SELECT_FIELD_RE : regexp := Eval vm_compute in
  lit "^\.([A-Za-z_][A-Za-z0-9_.-]*)(\[\])?$" false.
(** The characters of [/[`;{}$\\]/]. *)
Definition is_selector_meta (c : Z) : bool := bool_decide (c ∈ js "`;{}$\").

Definition _parseJsonSelectorExpression (expression : option jsstr) : option selector :=
  let text := trim (default [] expression) in
  if negb (nonempty text) || bool_decide (160 < length text)%nat then None else
  if existsb is_selector_meta text then None else
  match exec SELECT_HAS_RE text with
  | Some m => Some (FilterHas [group_or 1 text m])
  | None =>
  match exec SELECT_EQ_RE text with
  | Some m => Some (FilterEq (_jsonSelectorPath (group_or 1 text m)) (group_or 2 text m))
  | None =>
  match exec SELECT_CONTAINS_RE text with
  | Some m => Some (FilterContains (_jsonSelectorPath (group_or 1 text m)) (group_or 2 text m))
  | None =>
  if text ==s js "." then Some Identity
  else if text ==s js ".[]" then Some (Iterate [])
  else
  match exec SELECT_FIELD_RE text with
  | Some m =>
      let path := _jsonSelectorPath (group_or 1 text m) in
      if bool_decide (path = []) then None
      else if nonempty (group_or 2 text m) then Some (Iterate path) else Some (Field path)
  | None => None
  end end end end.

(** *** Stages *)

Inductive stage :=
  | Grep (pattern : jsstr) (ignoreCase invertMatch extended : bool)
  | Head (count : num)
  | Tail (count : num)
  | WcL
  | Sort (reverse numeric unique : bool)
  | Uniq (count : bool)
  | Jq (sel : selector) (raw compact : bool).

Definition stage_kind (s : stage) : jsstr :=
  match s with
  | Grep _ _ _ _ => js "grep" | Head _ => js "head" | Tail _ => js "tail" | WcL => js "wc_l"
  | Sort _ _ _ => js "sort" | Uniq _ => js "uniq" | Jq _ _ _ => js "jq"
  end.

Record grep_options := GrepOptions { go_ignoreCase : bool; go_invert : bool; go_extended : bool }.

(** The flags of one [-xyz] token. *)
Fixpoint grep_flags (flags : jsstr) (o : grep_options) : option grep_options :=
  match flags with
  | [] => Some o
  | f :: flags =>
      if f =? cu "i" then grep_flags flags (GrepOptions true (go_invert o) (go_extended o))
      else if f =? cu "v" then grep_flags flags (GrepOptions (go_ignoreCase o) true (go_extended o))
      else if f =? cu "E" then grep_flags flags (GrepOptions (go_ignoreCase o) (go_invert o) true)
      else None
  end.

(** [/^-[^-]/.test(token)]. *)
Definition is_flag_token (token : jsstr) : bool :=
  match token with a :: b :: _ => (a =? 45) && negb (b =? 45) | _ => false end.

(** The argument loop of grep; the tokens are raw, their values unquoted. *)
Fixpoint grep_args (raws : list jsstr) (pattern : option jsstr) (o : grep_options) {struct raws}
    : option (jsstr * grep_options) :=
  match raws with
  | [] => (λ p, (p, o)) <$> pattern
  | raw :: raws =>
      let token := _unquoteToken raw in
      if bool_decide (is_Some pattern) then None
      else if _isQuotedToken raw then grep_args raws (Some token) o
      else if (token ==s js "--") || (token ==s js "-e") then
        match raws with
        | [] => None
        | next :: raws => grep_args raws (Some (_unquoteToken next)) o
        end
      else if is_flag_token token then
        match grep_flags (tl token) o with
        | Some o => grep_args raws pattern o
        | None => None
        end
      else grep_args raws (Some token) o
  end.

(** [/^\d+$/] and [/^-\d+$/]. *)
Definition all_digits (s : jsstr) : bool := nonempty s && forallb is_digit s.
Definition dash_digits (s : jsstr) : bool :=
  match s with c :: s => (c =? 45) && all_digits s | [] => false end.

Definition parse_count (make : num → stage) (args : list jsstr) : option stage :=
  match args with
  | [] => Some (make (num_of_Z 10))
  | [a] => if dash_digits a then Some (make (num_of_str (tl a))) else None
  | [f; a] =>
      if negb (f ==s js "-n") || negb (all_digits a) then None
      else Some (make (num_of_str a))
  | _ => None
  end.

Definition is_sort_flag (c : Z) : bool := bool_decide (c ∈ js "rnu").
(** [/^-[rnu]+$/] with no repeated letter. *)
Definition sort_flags (flag : jsstr) : option jsstr :=
  match flag with
  | d :: letters =>
      if (d =? 45) && nonempty letters && forallb is_sort_flag letters
         && bool_decide (length (dedup letters) = length letters)
      then Some letters else None
  | [] => None
  end.

Fixpoint jq_args (tokens : list jsstr) (expression : option jsstr) (raw compact : bool)
    : option (option jsstr * bool * bool) :=
  match tokens with
  | [] => Some (expression, raw, compact)
  | token :: tokens =>
      if (token ==s js "-r") || (token ==s js "--raw-output") then jq_args tokens expression true compact
      else if (token ==s js "-c") || (token ==s js "--compact-output")
      then jq_args tokens expression raw true
      else if bool_decide (is_Some expression) then None
      else jq_args tokens (Some token) raw compact
  end.

Definition _parseStage (stageTokens : list jsstr) : option stage :=
  match stageTokens with
  | [] => None
  | name :: raws =>
      let helper := lower (_unquoteToken name) in
      let args := map _unquoteToken raws in
      if helper ==s js "grep" then
        (λ '(p, o), Grep p (go_ignoreCase o) (go_invert o) (go_extended o))
          <$> grep_args raws None (GrepOptions false false false)
      else if helper ==s js "head" then parse_count Head args
      else if helper ==s js "tail" then parse_count Tail args
      else if helper ==s js "wc" then
        match args with [a] => if a ==s js "-l" then Some WcL else None | _ => None end
      else if helper ==s js "sort" then
        match args with
        | [] => Some (Sort false false false)
        | [flag] =>
            match sort_flags flag with
            | Some chars =>
                Some (Sort (has_unit (cu "r") chars) (has_unit (cu "n") chars) (has_unit (cu "u") chars))
            | None => None
            end
        | _ => None
        end
      else if helper ==s js "uniq" then
        match args with
        | [] => Some (Uniq false)
        | [a] => if a ==s js "-c" then Some (Uniq true) else None
        | _ => None
        end
      else if helper ==s js "jq" then
        match jq_args args None false false with
        | Some (expression, raw, compact) =>
            (λ sel, Jq sel raw compact) <$> _parseJsonSelectorExpression expression
        | None => None
        end
      else None
  end.

(** *** Command lines *)

Inductive sink_kind := SinkRedirect | SinkAppend | SinkTee.
Record sink := Sink { snk_kind : sink_kind; snk_path : jsstr }.
Definition sink_kind_name (k : sink_kind) : jsstr :=
  match k with SinkRedirect => js "redirect" | SinkAppend => js "append" | SinkTee => js "tee" end.

Record post_filter := PostFilter
  { pf_kind : option jsstr; pf_baseCommand : jsstr; pf_stages : list stage; pf_sink : option sink }.

(** [false], [null] and an object. *)
Inductive parsed := NotSynthetic | Unsupported | Parsed (p : post_filter).

Definition TOKEN_RE : regexp := Eval vm_compute in
  lit "\x22[^\x22]*\x22|'[^']*'|&&|\|\|?|;;?|>>?|<|[^\s|&;<>]+" false.
Definition FD_REDIRECT_RE : regexp := Eval vm_compute in lit "(^|\s)\d+>>?" false.

Definition tokenize (cmd : jsstr) : list jsstr := map (matched cmd) (exec_all TOKEN_RE cmd).

Fixpoint indexes_from {A} (p : A → bool) (i : nat) (l : list A) : list nat :=
  match l with
  | [] => []
  | x :: l => if p x then i :: indexes_from p (S i) l else indexes_from p (S i) l
  end.
Definition indexes {A} (p : A → bool) (l : list A) : list nat := indexes_from p 0 l.

Definition is_shell_operator (token : jsstr) : bool :=
  bool_decide (token ∈ map js ["&&"; "||"; ";"; ";;"; "<"; "&"]%string).
Definition is_redirect (token : jsstr) : bool := (token ==s js ">") || (token ==s js ">>").

(** The trailing [> path], and the tokens before it. *)
Definition parse_redirect (tokens : list jsstr) : option (option sink * list jsstr) :=
  match indexes is_redirect tokens with
  | [] => Some (None, tokens)
  | [i] =>
      if bool_decide (i = 0%nat) || negb (bool_decide (S (S i) = length tokens)) then None else
      let path := trim (_unquoteToken (default [] (last tokens))) in
      if negb (_isValidOutputSinkPath path) then None
      else Some (Some (Sink (if default [] (tokens !! i) ==s js ">>" then SinkAppend else SinkRedirect)
                            path),
                 take i tokens)
  | _ => None
  end.

(** The loop over the stages between the pipes. *)
Fixpoint parse_stages (tokens : list jsstr) (start : nat) (ends : list nat)
    (snk : option sink) (stages : list stage) : option (option sink * list stage) :=
  match ends with
  | [] => Some (snk, stages)
  | pipe :: ends =>
      let stageTokens := take (pipe - start) (drop start tokens) in
      if lower (_unquoteToken (default [] (head stageTokens))) ==s js "tee" then
        match snk, ends, stageTokens with
        | None, [], [_; target] =>
            let path := trim (_unquoteToken target) in
            if negb (_isValidOutputSinkPath path) then None
            else parse_stages tokens (S pipe) ends (Some (Sink SinkTee path)) stages
        | _, _, _ => None
        end
      else
        match _parseStage stageTokens with
        | Some s => parse_stages tokens (S pipe) ends snk (stages ++ [s])
        | None => None
        end
  end.

Definition parseSyntheticPostFilterCommand (cmd : jsstr) : parsed :=
  if negb (nonempty cmd) || (negb (includes (js "|") cmd) && negb (includes (js ">") cmd))
  then NotSynthetic
  else if includes (js "`") cmd || includes (js "$(") cmd then Unsupported
  else if test FD_REDIRECT_RE cmd then Unsupported
  else
    let tokens := tokenize cmd in
    if bool_decide (tokens = []) then Unsupported
    else if existsb is_shell_operator tokens then Unsupported
    else
    match parse_redirect tokens with
    | None => Unsupported
    | Some (snk, tokens) =>
        let pipes := indexes (λ t, t ==s js "|") tokens in
        match pipes with
        | [] =>
            match snk with
            | None => Unsupported
            | Some s =>
                Parsed (PostFilter (Some (sink_kind_name (snk_kind s)))
                                   (join (js " ") (map _unquoteToken tokens)) [] snk)
            end
        | p0 :: rest =>
            if bool_decide (p0 = 0%nat) then Unsupported else
            match parse_stages tokens (S p0) (rest ++ [length tokens]) snk [] with
            | None => Unsupported
            | Some (snk, stages) =>
                Parsed (PostFilter
                  (match stages with
                   | s :: _ => Some (stage_kind s)
                   | [] => sink_kind_name ∘ snk_kind <$> snk
                   end)
                  (join (js " ") (map _unquoteToken (take p0 tokens))) stages snk)
            end
        end
    end.

Definition isSyntheticPostFilterCommand (cmd : jsstr) : bool :=
  match parseSyntheticPostFilterCommand cmd with Parsed _ => true | _ => false end.
Definition isSyntheticKind (kind : string) (cmd : jsstr) : bool :=
  match parseSyntheticPostFilterCommand cmd with
  | Parsed p => bool_decide (pf_kind p = Some (js kind))
  | _ => false
  end.
Definition isSyntheticSortCommand := isSyntheticKind "sort".
Definition isSyntheticUniqCommand := isSyntheticKind "uniq".
Definition isSyntheticGrepCommand := isSyntheticKind "grep".
Definition isSyntheticHeadCommand := isSyntheticKind "head".
Definition isSyntheticTailCommand := isSyntheticKind "tail".
Definition isSyntheticWcLineCountCommand := isSyntheticKind "wc_l".
Definition isSyntheticJqCommand := isSyntheticKind "jq".

(** *** Lines *)

Definition textOf (item : jsval) : jsstr :=
  if truthy item && negb (match get item (js "text") with VUndef => true | _ => false end)
  then to_string (get item (js "text")) else str_of item.
Definition plainItem (text : jsstr) : jsval := VObj [(js "text", VStr text); (js "cls", VStr [])].
Definition errorItem (text : jsstr) : jsval :=
  VObj [(js "text", VStr (js "[error] " ++ text)); (js "cls", vstr "exit-fail")].

Definition _syntheticPostFilterLineLimit (options app_config : jsval) : num :=
  let configured :=
    match get options (js "maxOutputLines") with
    | VUndef => get app_config (js "max_output_lines")
    | v => v
    end in
  let limit := parse_int (to_string configured) in
  if is_finite limit && nltb num_zero limit then limit else num_zero.

(** *** jq *)

Definition is_scalar (v : jsval) : bool :=
  match v with VStr _ | VNum _ | VBool _ => true | _ => false end.

Fixpoint parse_jsonl (lines : list jsstr) : option (list jsval) :=
  match lines with
  | [] => Some []
  | line :: lines =>
      match json_parse line with
      | Some v => cons v <$> parse_jsonl lines
      | None => None
      end
  end.
Definition _parseJsonInputItems (items : list jsval) : option (list jsval) :=
  let lines := filterb (λ l, nonempty (trim l)) (map textOf items) in
  match parse_jsonl lines with
  | Some vs => Some vs
  | None => (λ v, [v]) <$> json_parse (join [10] lines)
  end.

Fixpoint _jsonPathValue (value : jsval) (path : list jsstr) : option jsval :=
  match path with
  | [] => Some value
  | part :: path =>
      match value with
      | VObj o => match own o part with Some v => _jsonPathValue v path | None => None end
      | _ => None
      end
  end.

Definition _jsonFilterText (value : option jsval) : jsstr :=
  match value with
  | None => []
  | Some VNull => js "null"
  | Some v => if is_scalar v then to_string v else stringify v
  end.

Definition _selectJsonValues (value : jsval) (s : selector) : list jsval :=
  match s with
  | Identity => [value]
  | Field path => option_list (_jsonPathValue value path)
  | Iterate path =>
      match _jsonPathValue value path with Some (VArr l) => l | _ => [] end
  | FilterHas path => if _jsonPathValue value path is Some _ then [value] else []
  | FilterEq path v => if _jsonFilterText (_jsonPathValue value path) ==s v then [value] else []
  | FilterContains path v =>
      if includes v (_jsonFilterText (_jsonPathValue value path)) then [value] else []
  end.

Definition _formatJsonSelectorValue (value : jsval) (raw compact : bool) : jsstr :=
  if raw && (is_scalar value || match value with VNull => true | _ => false end)
  then to_string value
  else if compact then stringify value else stringify_indent 0 value.

(** The selection loop, stopping above 1000 values. *)
Fixpoint select_loop (values : list jsval) (s : selector) (selected : list jsval)
    : option (list jsval) :=
  match values with
  | [] => Some selected
  | v :: values =>
      let selected := selected ++ _selectJsonValues v s in
      if bool_decide (1000 < length selected)%nat then None else select_loop values s selected
  end.
(** The output loop, stopping above 200000 characters. *)
Fixpoint format_loop (selected : list jsval) (raw compact : bool) (totalChars : nat)
    (out : list jsstr) : option (list jsstr) :=
  match selected with
  | [] => Some out
  | v :: selected =>
      let text := _formatJsonSelectorValue v raw compact in
      let totalChars := (totalChars + length text)%nat in
      if 200000 <? Z.of_nat totalChars then None
      else format_loop selected raw compact totalChars (out ++ split_on 10 text)
  end.

Definition _applyJsonSelectorStage (items : list jsval) (sel : selector) (raw compact : bool)
    : jsstr + list jsval :=
  match _parseJsonInputItems items with
  | None => inl (js "jq expected JSON or JSONL input")
  | Some values =>
      match select_loop values sel [] with
      | None => inl (js "jq output exceeded the 1000-line safety cap")
      | Some selected =>
          match format_loop selected raw compact 0 [] with
          | None => inl (js "jq output exceeded the 200 KB safety cap")
          | Some lines => inr (map plainItem lines)
          end
      end
  end.

(** *** uniq *)

Definition uniq_item (count : bool) (run : nat * jsstr) : jsval :=
  plainItem (if count then pad_start 7 32 (str_of_nat (fst run)) ++ js " " ++ snd run else snd run).
Definition uniq_flush (previous : option jsstr) (count : nat) : list (nat * jsstr) :=
  match previous with Some text => [(count, text)] | None => [] end.
Fixpoint uniq_loop (items : list jsstr) (previous : option jsstr) (count : nat) : list (nat * jsstr) :=
  match items with
  | [] => uniq_flush previous count
  | text :: items =>
      if bool_decide (previous = Some text) then uniq_loop items previous (S count)
      else uniq_flush previous count ++ uniq_loop items (Some text) 1
  end.

(** *** The pipeline *)

Definition LEADING_NUMBER_RE : regexp := Eval vm_compute in lit "^[-+]?\d+\.?\d*" false.
Definition sort_number (text : jsstr) : num :=
  match exec LEADING_NUMBER_RE text with
  | Some m => num_of_str (matched text m)
  | None => Inf true
  end.

Section Apply.
(** [new RegExp(pattern, flags)]: the message of the exception it throws, or
    the [test] of the expression; and [a.localeCompare(b) <= 0]. *)
Context (new_RegExp : jsstr → bool → jsstr + (jsstr → bool)).
Context (locale_leb : jsstr → jsstr → bool).

Definition grep_matcher (pattern : jsstr) (ignoreCase extended : bool)
    : jsstr + (jsstr → bool) :=
  if extended then
    match new_RegExp pattern ignoreCase with
    | inl message => inl (js "Invalid synthetic grep regex: " ++ message)
    | inr t => inr t
    end
  else if ignoreCase then inr (λ line, includes (lower pattern) (lower line))
  else inr (λ line, includes pattern line).

(** The comparator does not order [a] after [b]. *)
Definition sort_leb (numeric : bool) (a b : jsval) : bool :=
  let aText := trim_start (textOf a) in
  let bText := trim_start (textOf b) in
  if numeric then negb (nltb num_zero (nsub (sort_number aText) (sort_number bText)))
  else locale_leb (lower aText) (lower bText).

Definition sort_stage (reverse numeric unique : bool) (items : list jsval) : list jsval :=
  let sorted := isort (sort_leb numeric) items in
  let sorted := if reverse then list.reverse sorted else sorted in
  if unique then dedup_seen textOf [] sorted else sorted.

Definition tail_items (count : num) (items : list jsval) : list jsval :=
  if nltb num_zero count
  then list.reverse (take_num count (list.reverse items)) else [].

Definition apply_stage (lineLimit : num) (s : stage) (items : list jsval) : jsstr + list jsval :=
  match s with
  | Grep pattern ignoreCase invertMatch extended =>
      match grep_matcher pattern ignoreCase extended with
      | inl message => inl message
      | inr matches =>
          inr (filterb (λ item, let m := matches (textOf item) in
                                if invertMatch then negb m else m) items)
      end
  | Head count => inr (take_num (num_max num_zero count) items)
  | Tail count => inr (tail_items (num_max num_zero count) items)
  | WcL => inr [plainItem (str_of_nat (length items))]
  | Sort reverse numeric unique => inr (sort_stage reverse numeric unique items)
  | Uniq count => inr (map (uniq_item count) (uniq_loop (map textOf items) None 0))
  | Jq sel raw compact =>
      if truthy (VNum lineLimit) && nltb lineLimit (num_of_nat (length items))
      then inl (js "jq input exceeded the buffered line safety cap")
      else _applyJsonSelectorStage items sel raw compact
  end.

Fixpoint apply_stages (lineLimit : num) (stages : list stage) (items : list jsval)
    : jsstr + list jsval :=
  match stages with
  | [] => inr items
  | s :: stages =>
      match apply_stage lineLimit s items with
      | inl message => inl message
      | inr items => apply_stages lineLimit stages items
      end
  end.

Definition applySyntheticPostFilterLines (lineItems : jsval) (spec : post_filter)
    (options app_config : jsval) : list jsval :=
  let lineLimit := _syntheticPostFilterLineLimit options app_config in
  match apply_stages lineLimit (pf_stages spec) (items_of lineItems) with
  | inl message => [errorItem message]
  | inr items => items
  end.
End Apply.

(** ** Lemmas: parsing *)

(** A sink path is relative and stays below the directory it is written in. *)
Record sink_path_ok (path : jsstr) : Prop := {
  sp_nonempty : path ≠ [];
  sp_trimmed : trim path = path;
  sp_printable : Forall (λ c, 32 ≤ c) path;
  sp_no_backslash : 92 ∉ path;
  sp_segments : Forall (λ part, part ≠ [] ∧ part ≠ js "." ∧ part ≠ js ".."
                                ∧ (length part ≤ 255)%nat) (split_on 47 path)
}.

Lemma valid_sink_path path : _isValidOutputSinkPath path = true → sink_path_ok path.
Proof.
  unfold _isValidOutputSinkPath. change (js "\") with [92]. rewrite includes_unit.
  destruct (_ || _) eqn:H1; [done|]. destruct (existsb _ _) eqn:H2; [done|].
  rewrite !orb_false_iff, !negb_false_iff, bool_decide_eq_true in H1.
  destruct H1 as [[[Hne Ht] _] Hb]. intros Hp. constructor.
  - by apply nonempty_spec.
  - done.
  - apply Forall_forall. intros c Hc. destruct (Z.ltb_spec c 32); [|done].
    assert (existsb (λ c, c <? 32) path = true) as Hx; [|congruence].
    apply existsb_exists. exists c. split; [by apply list_elem_of_In|lia].
  - by apply has_unit_false.
  - rewrite forallb_forall in Hp. apply Forall_forall. intros part Hin.
    apply list_elem_of_In, Hp in Hin. split_bools.
    match goal with H : nonempty _ = true |- _ => apply nonempty_spec in H end. done.
Qed.

(** The stages the parser builds: counts are natural numbers, selectors name a
    path of non-empty fields. *)
Definition field_ok (f : jsstr) : Prop := f ≠ [].
Definition selector_ok (s : selector) : Prop :=
  match s with
  | Identity => True
  | Field path => path ≠ [] ∧ Forall field_ok path
  | Iterate path | FilterEq path _ | FilterContains path _ => Forall field_ok path
  | FilterHas path => length path = 1%nat
  end.
Definition stage_ok (s : stage) : Prop :=
  match s with
  | Head n | Tail n => n = num_of_Z 10 ∨ ∃ ds, all_digits ds = true ∧ n = num_of_str ds
  | Jq sel _ _ => selector_ok sel
  | _ => True
  end.

Lemma selector_path_ok v : Forall field_ok (_jsonSelectorPath v).
Proof.
  unfold _jsonSelectorPath, field_ok. apply Forall_forall. intros w Hw.
  apply elem_of_filterb in Hw as [Hw _]. by apply nonempty_spec.
Qed.

Lemma parse_count_ok make args s :
  (∀ n, stage_ok (make n) ↔ stage_ok (Head n)) →
  parse_count make args = Some s → stage_ok s.
Proof.
  intros Hm. unfold parse_count. destruct args as [|f [|a [|]]]; [| | |done].
  - intros [= <-]. apply Hm. by left.
  - destruct (dash_digits f) eqn:Hf; [|done]. intros [= <-]. apply Hm. right.
    exists (tl f). split; [|done]. destruct f; [done|]. by apply andb_true_iff in Hf as [_ ?].
  - destruct (negb (f ==s js "-n") || negb (all_digits a)) eqn:Hf; [done|].
    intros [= <-]. apply Hm. right. exists a. split; [|done].
    apply orb_false_iff in Hf as [_ Hf]. by apply negb_false_iff.
Qed.

Lemma selector_expression_ok e sel :
  _parseJsonSelectorExpression e = Some sel → selector_ok sel.
Proof.
  unfold _parseJsonSelectorExpression. set (text := trim _).
  pose proof selector_path_ok as Hp.
  destruct (_ || _); [done|]. destruct (existsb _ _); [done|].
  destruct (exec SELECT_HAS_RE text); [by intros [= <-]|].
  destruct (exec SELECT_EQ_RE text); [intros [= <-]; apply Hp|].
  destruct (exec SELECT_CONTAINS_RE text); [intros [= <-]; apply Hp|].
  case_bool_decide; [by intros [= <-]|]. case_bool_decide; [intros [= <-]; constructor|].
  destruct (exec SELECT_FIELD_RE text) as [m|]; [|done].
  case_bool_decide; [done|]. destruct (nonempty _); intros [= <-]; cbn; auto.
Qed.

Lemma parseStage_ok tokens s : _parseStage tokens = Some s → stage_ok s.
Proof.
  destruct tokens as [|name raws]; [done|]. cbn [_parseStage].
  set (args := map _ raws).
  case_bool_decide; [by intros ([p o] & Ho & ->)%fmap_Some|].
  do 2 (case_bool_decide; [by apply parse_count_ok|]).
  do 3 (case_bool_decide; [intros H'; by branches_in H'|]).
  case_bool_decide; [|done].
  destruct (jq_args _ _ _ _) as [[[e raw] compact]|]; [|done].
  intros (sel & Hsel & ->)%fmap_Some. by eapply selector_expression_ok.
Qed.

Definition sink_ok (snk : option sink) : Prop :=
  match snk with Some s => sink_path_ok (snk_path s) | None => True end.

Lemma parse_redirect_ok tokens snk tokens' :
  parse_redirect tokens = Some (snk, tokens') → sink_ok snk.
Proof.
  unfold parse_redirect. destruct (indexes _ _) as [|i [|]]; [by intros [= <- <-]| |done].
  destruct (_ || _); [done|]. destruct (negb _) eqn:Hv; [done|]. intros [= <- <-].
  apply negb_false_iff in Hv. by apply valid_sink_path.
Qed.

Lemma parse_stages_ok tokens start ends snk stages snk' stages' :
  sink_ok snk → Forall stage_ok stages →
  parse_stages tokens start ends snk stages = Some (snk', stages') →
  sink_ok snk' ∧ Forall stage_ok stages'
  ∧ (ends ≠ [] → stages' ≠ [] ∨ snk' ≠ None).
Proof.
  revert start snk stages. induction ends as [|pipe ends IH]; intros start snk stages Hsnk Hst; cbn.
  { by intros [= <- <-]. }
  set (st := take _ _). case_bool_decide.
  - destruct snk; [done|]. destruct ends; [|done].
    destruct st as [|t0 [|t1 [|]]]; try done.
    destruct (negb _) eqn:Hv; [done|]. intros [= <- <-].
    apply negb_false_iff, valid_sink_path in Hv. split; [done|]. split; [done|]. by right.
  - destruct (_parseStage st) as [s|] eqn:Hs; [|done]. intros Hp.
    assert (Forall stage_ok (stages ++ [s])) as Hst'.
    { apply Forall_app. split; [done|]. constructor; [by eapply parseStage_ok|done]. }
    destruct (IH _ _ _ Hsnk Hst' Hp) as (? & ? & Hne). split; [done|]. split; [done|].
    intros _. destruct ends as [|e ends]; [|by apply Hne].
    injection Hp as <- <-. left. by destruct stages.
Qed.

(** The invariant of every accepted command line. *)
Record post_filter_ok (cmd : jsstr) (p : post_filter) : Prop := {
  pf_no_backtick : 96 ∉ cmd;
  pf_no_substitution : includes (js "$(") cmd = false;
  pf_stages_ok : Forall stage_ok (pf_stages p);
  pf_sink_ok : sink_ok (pf_sink p);
  pf_effect : pf_stages p ≠ [] ∨ pf_sink p ≠ None;
  pf_kind_ok : pf_kind p = match pf_stages p with
                           | s :: _ => Some (stage_kind s)
                           | [] => sink_kind_name ∘ snk_kind <$> pf_sink p
                           end
}.

(** ** Lemmas: the filters *)

(** Stages whose output lines are lines of their input. *)
Definition selects (s : stage) : bool :=
  match s with Grep _ _ _ _ | Head _ | Tail _ | Sort _ _ _ => true | _ => false end.

Lemma reverse_submseteq {A} (l : list A) : reverse l ⊆+ l.
Proof. by rewrite (reverse_Permutation l). Qed.

Lemma tail_items_submseteq n items : tail_items n items ⊆+ items.
Proof.
  unfold tail_items. destruct (nltb _ _); [|apply submseteq_nil_l].
  rewrite reverse_submseteq. rewrite (sublist_submseteq _ _ (take_num_sublist n _)).
  apply reverse_submseteq.
Qed.

Lemma unquote_digits s : Forall (λ c, is_digit c = true) s → _unquoteToken s = s.
Proof.
  intros H. unfold _unquoteToken, _isQuotedToken.
  destruct s as [|c [|d s]]; [done|done|]. apply Forall_cons in H as [Hc _].
  assert (is_quote c = false) as Hq; [|rewrite Hq; by destruct (last _)].
  unfold is_digit, is_quote in *. lia.
Qed.

Lemma all_digits_spec s : all_digits s = true ↔ s ≠ [] ∧ Forall (λ c, is_digit c = true) s.
Proof.
  unfold all_digits. rewrite andb_true_iff, nonempty_spec, forallb_forall, Forall_forall.
  by setoid_rewrite list_elem_of_In.
Qed.

Lemma parse_dash_n make n :
  0 ≤ n → parse_count make (map _unquoteToken [js "-n"; str_of_Z n]) = Some (make (num_of_Z n)).
Proof.
  intros Hn. cbn [map]. rewrite (unquote_digits (str_of_Z n)) by by apply str_of_Z_digits.
  change (_unquoteToken (js "-n")) with (js "-n").
  unfold parse_count. rewrite (bool_decide_true (js "-n" = _)) by done. cbn [negb orb].
  assert (all_digits (str_of_Z n) = true) as ->.
  { apply all_digits_spec. split; [apply str_of_Z_ne|by apply str_of_Z_digits]. }
  cbn [negb]. by rewrite num_of_str_of_Z.
Qed.

Lemma tail_items_of_Z n items :
  0 ≤ n < 2 ^ 53 → tail_items (num_of_Z n) items = drop (length items - Z.to_nat n) items.
Proof.
  intros Hn. unfold tail_items. change num_zero with (num_of_Z 0). rewrite nltb_of_Z by lia.
  destruct (Z.ltb_spec 0 n).
  - rewrite take_num_of_Z by done. by rewrite take_reverse, reverse_involutive.
  - replace n with 0 by lia. by rewrite Nat.sub_0_r, drop_all.
Qed.

(** *** Runs of equal lines *)

(** The lines a list of counted runs stands for. *)
Definition expand_runs (runs : list (nat * jsstr)) : list jsstr :=
  flat_map (λ r, replicate (fst r) (snd r)) runs.

(** Runs are maximal: neighbours differ, and no run is empty. *)
Inductive runs_ok : list (nat * jsstr) → Prop :=
  | runs_nil : runs_ok []
  | runs_cons n t runs :
      (1 ≤ n)%nat → (∀ r, head runs = Some r → snd r ≠ t) → runs_ok runs →
      runs_ok ((n, t) :: runs).

Lemma uniq_loop_some items t n :
  (1 ≤ n)%nat →
  ∃ m runs, uniq_loop items (Some t) n = (m, t) :: runs
    ∧ runs_ok ((m, t) :: runs) ∧ expand_runs ((m, t) :: runs) = replicate n t ++ items.
Proof.
  revert t n. induction items as [|u items IH]; intros t n Hn; cbn [uniq_loop].
  { exists n, []. split; [done|]. split; [by constructor; [| |constructor]|done]. }
  case_bool_decide as Ht.
  - injection Ht as <-. destruct (IH t (S n)) as (m & runs & -> & Hok & Hex); [lia|].
    exists m, runs. split; [done|]. split; [done|]. rewrite Hex.
    by rewrite replicate_S_end, <-(assoc_L (++)).
  - destruct (IH u 1%nat) as (m & runs & -> & Hok & Hex); [lia|].
    exists n, ((m, u) :: runs). split; [done|]. split.
    + constructor; [done| |done]. intros r [= <-]. cbn. congruence.
    + cbn [expand_runs flat_map fst snd] in *. f_equal. done.
Qed.

Lemma uniq_loop_none items :
  runs_ok (uniq_loop items None 0) ∧ expand_runs (uniq_loop items None 0) = items.
Proof.
  destruct items as [|t items]; [by split; [constructor|]|].
  cbn [uniq_loop]. rewrite bool_decide_false by done. cbn [uniq_flush app].
  destruct (uniq_loop_some items t 1) as (m & runs & -> & Hok & Hex); [lia|]. done.
Qed.

(** *** jq loops *)

Definition total_length (texts : list jsstr) : Z :=
  foldr (λ t n, Z.of_nat (length t) + n) 0 texts.

Lemma total_length_nonneg texts : 0 ≤ total_length texts.
Proof. unfold total_length. induction texts; simpl; lia. Qed.

Lemma select_loop_iff values s acc out :
  (length acc ≤ 1000)%nat →
  select_loop values s acc = Some out ↔
  out = acc ++ flat_map (λ v, _selectJsonValues v s) values ∧ (length out ≤ 1000)%nat.
Proof.
  revert acc. induction values as [|v values IH]; intros acc Hacc; cbn [select_loop flat_map].
  { rewrite app_nil_r. naive_solver. }
  case_bool_decide as Hc.
  - split; [done|]. intros [-> Hl]. rewrite !length_app in *. lia.
  - rewrite IH by lia. by rewrite <-(assoc_L (++)).
Qed.

Lemma format_loop_iff selected raw compact n acc out :
  Z.of_nat n ≤ 200000 →
  let texts := map (λ v, _formatJsonSelectorValue v raw compact) selected in
  format_loop selected raw compact n acc = Some out ↔
  out = acc ++ flat_map (split_on 10) texts ∧ Z.of_nat n + total_length texts ≤ 200000.
Proof.
  revert n acc. induction selected as [|v selected IH]; intros n acc Hn; cbn [map].
  { cbn. rewrite app_nil_r. split; [intros [= <-]; split; [done|lia]|naive_solver]. }
  cbn [format_loop flat_map total_length foldr].
  set (text := _formatJsonSelectorValue v raw compact).
  pose proof (total_length_nonneg (map (λ v, _formatJsonSelectorValue v raw compact) selected)) as Ht.
  destruct (Z.ltb_spec 200000 (Z.of_nat (n + length text))).
  - split; [done|]. intros [_ Hl]. unfold total_length in Ht. lia.
  - cbv zeta in IH. rewrite IH by lia. rewrite <-(assoc_L (++)). unfold total_length.
    split; intros [-> ?]; split; try done; lia.
Qed.

(** *** Sorting *)

Lemma StronglySorted_sublist {A} (R : A → A → Prop) l k :
  l `sublist_of` k → StronglySorted R k → StronglySorted R l.
Proof.
  induction 1 as [|x l k Hs IH|x l k Hs IH]; intros H; [done| |].
  - apply StronglySorted_inv in H as [H Hx]. constructor; [auto|].
    rewrite Forall_forall in *. intros y Hy. by eapply Hx, elem_of_sublist.
  - apply StronglySorted_inv in H as [H _]. auto.
Qed.

Lemma StronglySorted_snoc {A} (R : A → A → Prop) l x :
  StronglySorted R l → Forall (λ y, R y x) l → StronglySorted R (l ++ [x]).
Proof.
  induction 1 as [|y l Hs IH Hy]; intros Hx; simpl; [by repeat constructor|].
  apply Forall_cons in Hx as [Hyx Hx]. constructor; [auto|].
  apply Forall_app. split; [done|by constructor].
Qed.

Lemma StronglySorted_reverse {A} (R : A → A → Prop) l :
  StronglySorted R l → StronglySorted (flip R) (reverse l).
Proof.
  induction 1 as [|y l Hs IH Hy]; [constructor|].
  rewrite reverse_cons. apply StronglySorted_snoc; [done|].
  by apply Forall_reverse.
Qed.

Lemma sort_stage_perm leb reverse numeric items :
  sort_stage leb reverse numeric false items ≡ₚ items.
Proof.
  unfold sort_stage. destruct reverse; [|apply isort_perm].
  by rewrite (reverse_Permutation (isort _ items)), isort_perm.
Qed.

Lemma sort_stage_unique leb reverse numeric items :
  sort_stage leb reverse numeric true items
  = dedup_seen textOf [] (sort_stage leb reverse numeric false items).
Proof. done. Qed.

Lemma sort_stage_submseteq leb reverse numeric unique items :
  sort_stage leb reverse numeric unique items ⊆+ items.
Proof.
  transitivity (sort_stage leb reverse numeric false items);
    [|by rewrite sort_stage_perm].
  destruct unique; [|done]. rewrite sort_stage_unique.
  apply sublist_submseteq, dedup_seen_sublist.
Qed.

Lemma apply_stage_selects re leb lim s items out :
  selects s = true → apply_stage re leb lim s items = inr out → out ⊆+ items.
Proof.
  destruct s; cbn; try done; intros _.
  - destruct (grep_matcher _ _ _ _); [done|]. intros [= <-].
    apply sublist_submseteq, filterb_sublist.
  - intros [= <-]. apply sublist_submseteq, take_num_sublist.
  - intros [= <-]. apply tail_items_submseteq.
  - intros [= <-]. apply sort_stage_submseteq.
Qed.

(** Stages that cannot fail: everything but jq and regular expressions. *)
Definition never_fails (s : stage) : bool :=
  match s with Grep _ _ _ true | Jq _ _ _ => false | _ => true end.

Lemma apply_stage_total re leb lim s items :
  never_fails s = true → ∃ out, apply_stage re leb lim s items = inr out.
Proof.
  destruct s as [p i v []| | | | | |]; cbn; try done; eauto.
  unfold grep_matcher. destruct i; eauto.
Qed.

#[export] Hint Resolve valid_sink_path parseStage_ok sort_stage_submseteq : darklab.

(** ** Properties *)

(** C3: Whatever command line the parser accepts, the file it writes to stays
    below the directory it is resolved in: the path is relative, has no
    traversal or empty segment, no backslash and no control character. The
    accepted line substitutes no command, asks for at least one stage or a
    file, and carries only well-formed stages (decimal counts, selectors over
    non-empty fields). *)
Theorem parseSyntheticPostFilterCommand_ok cmd p :
  parseSyntheticPostFilterCommand cmd = Parsed p → post_filter_ok cmd p.
Proof.
  unfold parseSyntheticPostFilterCommand.
  destruct (_ || _); [done|]. destruct (includes (js "`") cmd || _) eqn:Hq; [done|].
  apply orb_false_iff in Hq as [Hb Hd]. change (js "`") with [96] in Hb.
  rewrite includes_unit in Hb. apply has_unit_false in Hb.
  destruct (test _ _); [done|]. case_bool_decide; [done|]. destruct (existsb _ _); [done|].
  destruct (parse_redirect _) as [[snk tokens]|] eqn:Hr; [|done].
  apply parse_redirect_ok in Hr.
  destruct (indexes _ _) as [|p0 rest].
  - destruct snk as [s|]; [|done]. intros [= <-]. constructor; cbn; auto.
  - case_bool_decide; [done|].
    destruct (parse_stages _ _ _ _ _) as [[snk' stages]|] eqn:Hs; [|done].
    intros [= <-]. apply parse_stages_ok in Hs as (? & ? & Hne); [|done|constructor].
    constructor; cbn; auto. apply Hne. by destruct rest.
Qed.

Lemma parseSyntheticPostFilterCommand_ok_witness :
  ∃ p, parseSyntheticPostFilterCommand (js "nmap -sV x | grep -v foo | head -n 5 > out/a.txt") = Parsed p
       ∧ post_filter_ok (js "nmap -sV x | grep -v foo | head -n 5 > out/a.txt") p.
Proof.
  eexists. split; [vm_compute; reflexivity|].
  apply parseSyntheticPostFilterCommand_ok. vm_compute. reflexivity.
Defined.

(** A pipeline of grep, head, tail and sort stages never makes a line up:
    its output is a sub-multiset of its input, and when no stage is a regular
    expression it always produces one. *)
Theorem apply_stages_selects re leb lim stages items :
  Forall (λ s, selects s = true) stages →
  (∀ out, apply_stages re leb lim stages items = inr out → out ⊆+ items)
  ∧ (Forall (λ s, never_fails s = true) stages →
     ∃ out, apply_stages re leb lim stages items = inr out).
Proof.
  intros H. revert items. induction H as [|s stages Hs _ IH]; intros items; cbn.
  { split; [by intros out [= <-]|eauto]. }
  split.
  - intros out. destruct (apply_stage _ _ _ _ _) as [e|items'] eqn:Ha; [done|]. intros Ho.
    apply apply_stage_selects in Ha; [|done]. etrans; [by apply IH|done].
  - intros Hf. apply Forall_cons in Hf as [Hf Hfs].
    destruct (apply_stage_total re leb lim s items Hf) as [out ->]. by apply IH.
Qed.

Lemma apply_stages_selects_witness :
  ∃ out, apply_stages (λ _ _, inl []) (λ _ _, true) num_zero
           [Grep (js "a") true false false; Sort true false true; Tail (num_of_Z 1)]
           [VStr (js "xA"); VStr (js "b"); VStr (js "a")] = inr out.
Proof.
  apply (apply_stages_selects (λ _ _, inl []) (λ _ _, true) num_zero
           [Grep (js "a") true false false; Sort true false true; Tail (num_of_Z 1)]
           [VStr (js "xA"); VStr (js "b"); VStr (js "a")]); repeat constructor.
Defined.

(** From the command words to the lines: [head -n k] keeps exactly the
    first k lines and [tail -n k] exactly the last k, all of them when there
    are fewer, for every k that a JavaScript number counts exactly. *)
Theorem head_tail_lines re leb lim n items :
  0 ≤ n < 2 ^ 53 →
  ∃ h t,
    _parseStage [js "head"; js "-n"; str_of_Z n] = Some h
    ∧ apply_stage re leb lim h items = inr (take (Z.to_nat n) items)
    ∧ _parseStage [js "tail"; js "-n"; str_of_Z n] = Some t
    ∧ apply_stage re leb lim t items = inr (drop (length items - Z.to_nat n) items).
Proof.
  intros Hn. exists (Head (num_of_Z n)), (Tail (num_of_Z n)).
  pose proof (parse_dash_n Head n ltac:(lia)). pose proof (parse_dash_n Tail n ltac:(lia)).
  assert (num_max num_zero (num_of_Z n) = num_of_Z n) as Hmax.
  { change num_zero with (num_of_Z 0). rewrite num_max_of_Z by lia. f_equal. lia. }
  split; [done|]. split; [cbn; by rewrite Hmax, take_num_of_Z|]. split; [done|].
  cbn. by rewrite Hmax, tail_items_of_Z.
Qed.

Lemma head_tail_lines_witness :
  ∃ h t,
    _parseStage [js "head"; js "-n"; str_of_Z 2] = Some h
    ∧ apply_stage (λ _ _, inl []) (λ _ _, true) num_zero h [vstr "a"; vstr "b"; vstr "c"]
      = inr (take (Z.to_nat 2) [vstr "a"; vstr "b"; vstr "c"])
    ∧ _parseStage [js "tail"; js "-n"; str_of_Z 2] = Some t
    ∧ apply_stage (λ _ _, inl []) (λ _ _, true) num_zero t [vstr "a"; vstr "b"; vstr "c"]
      = inr (drop (length [vstr "a"; vstr "b"; vstr "c"] - Z.to_nat 2) [vstr "a"; vstr "b"; vstr "c"]).
Proof. apply head_tail_lines. lia. Defined.

(** [grep] and [grep -v] split the lines: each line is in exactly one of
    the two outputs, in its original order, and the lines [grep] keeps are
    exactly the ones that contain the pattern, case folded under [-i]. *)
Theorem grep_partition re leb lim pattern (icase : bool) items :
  let fold : jsstr → jsstr := if icase then lower else id in
  ∃ yes no,
    apply_stage re leb lim (Grep pattern icase false false) items = inr yes
    ∧ apply_stage re leb lim (Grep pattern icase true false) items = inr no
    ∧ items ≡ₚ yes ++ no ∧ yes `sublist_of` items ∧ no `sublist_of` items
    ∧ ∀ item, item ∈ yes ↔
        item ∈ items ∧ ∃ u v, fold (textOf item) = u ++ fold pattern ++ v.
Proof.
  intros fold. set (m := λ item, includes (fold pattern) (fold (textOf item))).
  exists (filterb m items), (filterb (λ item, negb (m item)) items).
  split; [by destruct icase|]. split; [by destruct icase|].
  split; [apply filterb_perm|]. do 2 (split; [apply filterb_sublist|]).
  intros item. rewrite elem_of_filterb. unfold m. rewrite includes_spec. tauto.
Qed.

(** [sort] reorders and loses nothing, the result is in order (descending
    under [-r]) whenever the collation is a total preorder, and [sort -u]
    keeps exactly one line of each text. *)
Theorem sort_stage_spec leb reverse items :
  (∀ a b, leb a b = false → leb b a = true) →
  (∀ a b c, leb a b = true → leb b c = true → leb a c = true) →
  let key item := lower (trim_start (textOf item)) in
  let out unique := sort_stage leb reverse false unique items in
  out false ≡ₚ items
  ∧ (∀ unique, StronglySorted (λ a b, (if reverse then leb (key b) (key a) else leb (key a) (key b)) = true)
                              (out unique))
  ∧ NoDup (textOf <$> out true)
  ∧ ∀ text, text ∈ textOf <$> out true ↔ text ∈ textOf <$> items.
Proof.
  intros Htot Htr key out.
  assert (out false ≡ₚ items) as Hperm by apply sort_stage_perm.
  split; [done|]. split; [|split].
  - assert (StronglySorted (λ a b, (if reverse then leb (key b) (key a) else leb (key a) (key b)) = true)
                           (out false)) as Hs.
    { assert (StronglySorted (λ a b, sort_leb leb false a b = true) (isort (sort_leb leb false) items)) as Hs.
      { apply isort_Sorted; unfold sort_leb; eauto. }
      unfold out, sort_stage. destruct reverse; [|exact Hs].
      by apply StronglySorted_reverse in Hs. }
    intros []; [|done]. eapply StronglySorted_sublist; [|exact Hs].
    unfold out. rewrite sort_stage_unique. apply dedup_seen_sublist.
  - apply NoDup_dedup_seen.
  - intros text. unfold out. rewrite sort_stage_unique, elem_of_dedup_seen_key.
    unfold out in Hperm. rewrite Hperm. set_solver.
Qed.

Lemma sort_stage_spec_witness :
  NoDup (textOf <$> sort_stage (λ a b, (length a <=? length b)%nat) true false true
                      [vstr "bb"; vstr "a"; vstr "bb"]).
Proof.
  apply (sort_stage_spec (λ a b, (length a <=? length b)%nat) true [vstr "bb"; vstr "a"; vstr "bb"]).
  - intros a b H. apply Nat.leb_le. apply Nat.leb_gt in H. lia.
  - intros a b c H1 H2. apply Nat.leb_le in H1, H2. apply Nat.leb_le. lia.
Defined.

(** [uniq] is a run-length encoding of the lines: its runs are maximal and
    non-empty, and writing every run out again gives the input back. [uniq -c]
    prints exactly those runs with their lengths. *)
Theorem uniq_stage_spec re leb lim count items :
  ∃ runs,
    apply_stage re leb lim (Uniq count) items = inr (map (uniq_item count) runs)
    ∧ runs_ok runs ∧ expand_runs runs = map textOf items.
Proof.
  exists (uniq_loop (map textOf items) None 0). split; [done|]. apply uniq_loop_none.
Qed.

(** A jq stage succeeds exactly when its input is JSON (one document or one
    per line), selects at most 1000 values and prints at most 200000
    characters; it then prints the selected values, in order, one output line
    per line of their text. Nothing larger is ever produced. *)
Theorem applyJsonSelectorStage_iff items sel raw compact out :
  _applyJsonSelectorStage items sel raw compact = inr out ↔
  ∃ values, _parseJsonInputItems items = Some values ∧
    let selected := flat_map (λ v, _selectJsonValues v sel) values in
    let texts := map (λ v, _formatJsonSelectorValue v raw compact) selected in
    (length selected ≤ 1000)%nat ∧ total_length texts ≤ 200000
    ∧ out = map plainItem (flat_map (split_on 10) texts).
Proof.
  unfold _applyJsonSelectorStage.
  destruct (_parseJsonInputItems items) as [values|]; [|split; [done|by intros (? & ? & _)]].
  pose proof (λ o, select_loop_iff values sel [] o (Nat.le_0_l 1000)) as Hsel.
  destruct (select_loop values sel []) as [selected|] eqn:Hs.
  - destruct (proj1 (Hsel selected) eq_refl) as [-> Hlen]. rewrite app_nil_l in *.
    pose proof (λ o, format_loop_iff (flat_map (λ v, _selectJsonValues v sel) values)
                       raw compact 0 [] o ltac:(done)) as Hfmt. cbv zeta in Hfmt.
    destruct (format_loop _ _ _ _ _) as [lines|] eqn:Hf.
    + destruct (proj1 (Hfmt lines) eq_refl) as [-> Htot]. cbn [Z.of_nat] in Htot.
      rewrite app_nil_l. split; [intros [= <-]; exists values; by split_and!|].
      intros (? & [= <-] & _ & _ & ->). done.
    + split; [done|]. intros (? & [= <-] & _ & Htot & _).
      assert (None = Some (flat_map (split_on 10) (map (λ v, _formatJsonSelectorValue v raw compact)
        (flat_map (λ v, _selectJsonValues v sel) values)))) as Hx; [|done].
      apply Hfmt. split; [done|]. cbn. lia.
  - split; [done|]. intros (? & [= <-] & Hlen & _).
    assert (None = Some (flat_map (λ v, _selectJsonValues v sel) values)) as Hx; [|done].
    by apply Hsel.
Qed.
