(* ===== verification/AutocompleteCore.v ===== *)
(** Autocomplete helpers (app/static/js/core/autocomplete_core.js): token
    context, matching and ranking, recent-value normalisation, display limits
    and label markup. *)

From S2P Require Import Prelude JsString JsNumber JsRegExp JsValue JsJson WebApi.

(** ** Definitions *)

Definition RECENT_VALUE_LIMIT : nat := 10.

(** [s.replace(/c/g, r)] for a single unit [c]. *)
Definition replace_unit (c : Z) (r : string) (s : jsstr) : jsstr :=
  flat_map (λ d, if d =? c then js r else [d]) s.

Definition escapeHtmlText (value : jsval) : jsstr :=
  replace_unit 39 "&#39;"
    (replace_unit 34 "&quot;"
      (replace_unit (cu ">") "&gt;"
        (replace_unit (cu "<") "&lt;"
          (replace_unit (cu "&") "&amp;" (str_of_nullish value))))).

(** *** Items: strings or objects *)

Definition first_of (item : jsval) (names : list string) : jsval :=
  fold_right (λ n v, js_or (get item (js n)) v) (VStr []) names.

Definition itemText (item : jsval) : jsstr :=
  if is_objectlike item then trim (to_string (first_of item ["label"; "value"]%string))
  else trim (str_of item).
Definition itemInsertValue (item : jsval) : jsstr :=
  if is_objectlike item
  then trim (to_string (first_of item ["insertValue"; "value"; "label"]%string))
  else trim (str_of item).
Definition itemInsertText (item : jsval) : jsstr :=
  if is_objectlike item then
    if truthy (get item (js "hintOnly")) then [] else
    str_of (js_nullish (get item (js "insertValue"))
              (js_nullish (get item (js "value")) (get item (js "label"))))
  else str_of item.
Definition itemDescription (item : jsval) : jsstr :=
  if is_objectlike item then trim (str_of (get item (js "description"))) else [].
Definition is_hint_only (item : jsval) : bool :=
  is_objectlike item && truthy (get item (js "hintOnly")).

Definition buildItem (value description replaceStart replaceEnd insertValue label hintOnly : jsval)
    : jsval :=
  let resolvedHintOnly := negb (nullish hintOnly) && truthy hintOnly in
  VObj [(js "value", value);
        (js "label", js_or label value);
        (js "description", match description with VUndef => VStr [] | d => d end);
        (js "replaceStart", replaceStart);
        (js "replaceEnd", replaceEnd);
        (js "insertValue", if resolvedHintOnly then VStr [] else js_nullish insertValue value);
        (js "hintOnly", VBool resolvedHintOnly)].

(** *** Token context *)

Record token := Token { tk_value : jsstr; tk_start : nat; tk_end : nat }.

(** The matches of [/\S+/g]. [cur] is the reversed token being read. *)
Fixpoint tokens_from (pos : nat) (cur : jsstr) (s : jsstr) : list token :=
  match s with
  | [] => if nonempty cur then [Token (reverse cur) (pos - length cur) pos] else []
  | c :: s =>
      if is_ws c
      then (if nonempty cur then [Token (reverse cur) (pos - length cur) pos] else [])
           ++ tokens_from (S pos) [] s
      else tokens_from (S pos) (c :: cur) s
  end.
Definition text_tokens (s : jsstr) : list token := tokens_from 0 [] s.

Record token_context := TokenContext
  { tc_text : jsstr; tc_cursor : nat; tc_tokens : list token; tc_currentToken : jsstr;
    tc_tokenStart : Z; tc_tokenEnd : Z; tc_previousToken : option jsstr;
    tc_commandRoot : jsstr; tc_atWhitespace : bool }.

(** [cursorPos] is an integer position, or [None] for a value that is no number. *)
Definition tokenContextFromText (value : jsval) (cursorPos : option Z) (offset : Z) : token_context :=
  let text := str_of value in
  let len := Z.of_nat (length text) in
  let cursor := Z.to_nat (Z.max 0 (Z.min (default len cursorPos) len)) in
  let tokens := text_tokens text in
  let containing :=
    match findb (λ t, bool_decide (tk_start t < cursor)%nat && bool_decide (cursor ≤ tk_end t)%nat) tokens with
    | Some t => Some t
    | None => findb (λ t, (cursor =? tk_start t)%nat && (cursor =? tk_end t)%nat) tokens
    end in
  let tokenStart := match containing with Some t => tk_start t | None => cursor end in
  let tokenEnd := match containing with Some t => tk_end t | None => cursor end in
  let beforeTokens := filterb (λ t, bool_decide (tk_end t ≤ tokenStart)%nat) tokens in
  TokenContext text cursor tokens
    (match containing with Some t => tk_value t | None => [] end)
    (Z.of_nat tokenStart + offset) (Z.of_nat tokenEnd + offset)
    (tk_value <$> last beforeTokens)
    (match tokens with t :: _ => lower (tk_value t) | [] => [] end)
    (negb (bool_decide (is_Some containing))).

(** *** Matching *)

Definition _searchFields (item : jsval) : list jsstr :=
  dedup (filterb nonempty (map trim [itemInsertValue item; itemText item])).

Definition is_boundary_unit (c : Z) : bool := is_ws c || bool_decide (c ∈ js "/\._:@=-").
Definition is_boundary (text : jsstr) (i : nat) : bool :=
  match text !! (i - 1)%nat with
  | Some previous =>
      is_boundary_unit previous
      || ((is_lower previous || is_digit previous)
          && match text !! i with Some current => is_upper current | None => false end)
  | None => false
  end.
Fixpoint boundary_loop (fuel : nat) (text lower_text q : jsstr) (from : nat) : option nat :=
  match fuel with
  | O => None
  | S fuel =>
      match index_of_from q lower_text from with
      | None => None
      | Some i => if is_boundary text i then Some i
                  else boundary_loop fuel text lower_text q (S i)
      end
  end.
(** [None] is -1. *)
Definition boundaryIndex (text query : jsstr) : option nat :=
  let q := lower query in
  if negb (nonempty text) || negb (nonempty q) then None
  else boundary_loop (S (length text)) text (lower text) q 1.

Fixpoint ordered_from (text query : jsstr) (from : nat) (previousFound : option nat)
    : option (list nat) :=
  match query with
  | [] => Some []
  | c :: query =>
      match index_of_from [c] text from with
      | None => None
      | Some found =>
          if match previousFound with
             | Some p => bool_decide (2 < found - p)%nat
             | None => false
             end
          then None
          else cons found <$> ordered_from text query (S found) (Some found)
      end
  end.
Definition _orderedFuzzyMatchIndexes (text query : jsstr) : option (list nat) :=
  ordered_from text query 0 None.

Definition swap_at (i : nat) (q : jsstr) : jsstr :=
  match q !! i, q !! S i with
  | Some a, Some b => take i q ++ b :: a :: drop (i + 2) q
  | _, _ => q
  end.
Definition fuzzyMatchIndexes (text query : jsstr) : option (list nat) :=
  let q := lower query in
  if negb (nonempty text) || bool_decide (length q < 2)%nat then None else
  let low := lower text in
  match _orderedFuzzyMatchIndexes low q with
  | Some ordered => Some ordered
  | None =>
      (* the first transposition of neighbours that matches *)
      head (omap (λ i, if bool_decide (q !! i = q !! S i) then None
                       else _orderedFuzzyMatchIndexes low (swap_at i q))
                 (seq 0 (length q - 1)))
  end.

(** *** Scores: doubles, smaller is better *)

Definition length_penalty (text q : jsstr) : num :=
  ndiv (num_of_nat (length text - length q)) (num_of_Z 100).

Definition _scoreField (value query : jsstr) : option num :=
  let text := trim value in
  let low := lower text in
  let q := lower query in
  if negb (nonempty text) || negb (nonempty q) then None
  else if low ==s q then Some (num_of_Z 0)
  else if starts_with q low then Some (num_of_Z 100)
  else
  match boundaryIndex text q with
  | Some i => Some (nadd (num_of_nat (200 + i)) (length_penalty text q))
  | None =>
  match index_of q low with
  | Some i => Some (nadd (num_of_nat (300 + i)) (length_penalty text q))
  | None =>
  match fuzzyMatchIndexes text q with
  | None => None
  | Some idx =>
      let first := default 0%nat (head idx) in
      let last := default 0%nat (last idx) in
      let span := (last - first + 1)%nat in
      let gapPenalty := (span - length q)%nat in
      Some (nadd (num_of_nat (400 + first + gapPenalty * 2)) (length_penalty text q))
  end end end.

Record scored := Scored { sc_item : jsval; sc_score : num; sc_index : nat }.

Fixpoint field_scores (q : jsstr) (fields : list jsstr) (fieldIndex : Z) : list num :=
  match fields with
  | [] => []
  | f :: fields =>
      match _scoreField f q with
      | Some s => [nadd s (nmul (num_of_Z fieldIndex) (num_of_dec 5 (-1)))]
      | None => []
      end ++ field_scores q fields (fieldIndex + 1)
  end.

Definition scoreItem (item : jsval) (query : jsstr) (originalIndex : nat) : option scored :=
  let q := lower (trim query) in
  if negb (nonempty q) then Some (Scored item (num_of_nat originalIndex) originalIndex) else
  match field_scores q (_searchFields item) 0 with
  | [] => None
  | s :: scores => Some (Scored item (fold_left num_min scores s) originalIndex)
  end.

(** [left.score - right.score || left.index - right.index] is not positive. *)
Definition scored_leb (left right : scored) : bool :=
  let d := nsub (sc_score left) (sc_score right) in
  if truthy (VNum d) then negb (nltb num_zero d)
  else (sc_index left <=? sc_index right)%nat.

Definition filterItems (items : list jsval) (query : jsval) : list jsval :=
  let q := lower (trim (str_of query)) in
  if negb (nonempty q) then items else
  let hintOnly := filterb is_hint_only items in
  let concrete := filterb (λ i, negb (is_hint_only i)) items in
  let scores := omap id (imap (λ i item, scoreItem item q i) concrete) in
  map sc_item (isort scored_leb scores) ++ hintOnly.

(** *** Recent values *)

(** [/^[a-z0-9](?:[a-z0-9-]*[a-z0-9])?$/.test(label)]. *)
Definition is_label_unit (c : Z) : bool := is_digit c || is_lower c.
Definition is_domain_label (label : jsstr) : bool :=
  match label, last label with
  | c :: _, Some l =>
      is_label_unit c && is_label_unit l && forallb (λ d, is_label_unit d || (d =? 45)) label
  | _, _ => false
  end.

Definition isDomainValue (value : jsval) : bool :=
  let text := strip_dot (lower (trim (str_of value))) in
  if negb (nonempty text) || bool_decide (253 < length text)%nat || includes (js "/") text
     || includes (js ":") text || includes (js "@") text then false
  else if negb (includes (js ".") text) then false
  else
    let labels := split_on 46 text in
    if forallb (λ l, nonempty l && forallb is_digit l) labels then false
    else bool_decide (2 ≤ length labels)%nat
         && forallb (λ l, bool_decide (1 ≤ length l)%nat && bool_decide (length l ≤ 63)%nat
                          && is_domain_label l) labels.

Definition IPV4_RE : regexp := Eval vm_compute in lit "^\d{1,3}(?:\.\d{1,3}){3}$" false.
Definition is_octet_text (part : jsstr) : bool :=
  let number := parse_int part in
  is_integer number && nleb num_zero number && nleb number (num_of_Z 255)
  && (num_to_str number ==s part).
Definition isIPv4Address (value : jsval) : bool :=
  let text := trim (str_of value) in
  if negb (test IPV4_RE text) then false else forallb is_octet_text (split_on 46 text).

Record recent_value := RecentValue { rv_kind : jsstr; rv_value : jsstr }.
#[export] Instance recent_value_eq_dec : EqDecision recent_value.
Proof. solve_decision. Defined.

Definition port_digits (s : jsstr) : bool :=
  bool_decide (1 ≤ length s ≤ 5)%nat && forallb is_digit s.
(** [/^\s*(\d{1,5})(?:\s*-\s*(\d{1,5}))?\s*$/]: the two captures. *)
Definition match_ports (part : jsstr) : option (jsstr * option jsstr) :=
  let t := trim part in
  let a := take_while is_digit t in
  match trim_start (drop_while is_digit t) with
  | [] => if port_digits a then Some (a, None) else None
  | 45 :: r =>
      let b := trim_start r in
      if port_digits a && port_digits b then Some (a, Some b) else None
  | _ => None
  end.
Definition port_range_text (start en : num) : jsstr :=
  if neqb start en then num_to_str start else num_to_str start ++ js "-" ++ num_to_str en.
Definition normalize_ports (part : jsstr) : option jsstr :=
  match match_ports part with
  | None => None
  | Some (a, b) =>
      let start := num_of_str a in
      let en := num_of_str (default a b) in
      if negb (is_integer start) || negb (is_integer en)
         || nltb start (num_of_Z 1) || nltb (num_of_Z 65535) start
         || nltb en (num_of_Z 1) || nltb (num_of_Z 65535) en || nltb en start
      then None else Some (port_range_text start en)
  end.
Fixpoint port_set_loop (parts : list jsstr) (normalized : list jsstr) : option (list jsstr) :=
  match parts with
  | [] => Some normalized
  | part :: parts =>
      match normalize_ports part with
      | None => None
      | Some text =>
          port_set_loop parts (if bool_decide (text ∈ normalized) then normalized
                               else normalized ++ [text])
      end
  end.
Definition normalizeRecentPortSet (value : jsval) : jsstr :=
  match port_set_loop (split_on 44 (trim (str_of value))) [] with
  | Some normalized => join (js ",") normalized
  | None => []
  end.

Definition normalizeRecentDomain (value : jsval) : jsstr :=
  let text := strip_dot (lower (trim (str_of value))) in
  if isDomainValue (VStr text) then text else [].

(** [replace(/^\[|\]$/g, '')]. *)
Definition strip_brackets (s : jsstr) : jsstr :=
  let s := match s with 91 :: s' => s' | _ => s end in
  if ends_with (js "]") s then drop_last s else s.

Section Urls.
Context `{U : UrlApi}.

Definition isIPv6Address (value : jsval) : bool :=
  let text := trim (str_of value) in
  if negb (nonempty text) || negb (includes (js ":") text) || existsb is_ws text
     || has_unit 47 text then false
  else match new_URL (js "http://[" ++ text ++ js "]") with
       | Some u => nonempty (url_hostname u)
       | None => false
       end.

Definition normalizeRecentIp (value : jsval) : jsstr :=
  let text := lower (trim (str_of value)) in
  if isIPv4Address (VStr text) then text
  else if negb (isIPv6Address (VStr text)) then []
  else match new_URL (js "http://[" ++ text ++ js "]") with
       | Some u => lower (strip_brackets (url_hostname u))
       | None => []
       end.

Definition normalizeRecentUrl (value : jsval) : jsstr :=
  let text := trim (str_of value) in
  if negb (nonempty text) || existsb is_ws text then [] else
  match new_URL text with
  | None => []
  | Some parsed =>
      if negb ((url_protocol parsed ==s js "http:") || (url_protocol parsed ==s js "https:"))
         || nonempty (url_username parsed) || nonempty (url_password parsed)
         || negb (nonempty (url_hostname parsed))
      then [] else
      let u := url_set_protocol (lower (url_protocol parsed)) parsed in
      let u := url_set_hostname (strip_dot (lower (url_hostname u))) u in
      let u := url_set_search [] u in
      url_toString (url_set_hash [] u)
  end.

Definition normalizeRecentValue (kind value : jsval) : recent_value :=
  let k := lower (trim (str_of kind)) in
  if k ==s js "domain" then RecentValue (js "domain") (normalizeRecentDomain value)
  else if k ==s js "ip" then RecentValue (js "ip") (normalizeRecentIp value)
  else if k ==s js "url" then RecentValue (js "url") (normalizeRecentUrl value)
  else if k ==s js "port_set" then RecentValue (js "port_set") (normalizeRecentPortSet value)
  else RecentValue [] [].

Definition push_recent (next : list recent_value) (item : jsval) : list recent_value :=
  let rawKind := if is_objectlike item then get item (js "kind") else VStr [] in
  let rawValue := if is_objectlike item then get item (js "value") else VStr [] in
  let normalized := normalizeRecentValue rawKind rawValue in
  if negb (nonempty (rv_kind normalized)) || negb (nonempty (rv_value normalized)) then next
  else if bool_decide (normalized ∈ next) then next
  else if bool_decide (RECENT_VALUE_LIMIT
                       ≤ length (filterb (λ e, rv_kind e ==s rv_kind normalized) next))%nat
  then next
  else next ++ [normalized].
Definition normalizeRecentValueList (items : jsval) : list recent_value :=
  fold_left push_recent (items_of items) [].
End Urls.

Definition normalizeWordlistCategories (value : jsval) : list jsstr :=
  if is_array value
  then filterb nonempty (map (λ item, lower (trim (str_of item))) (items_of value))
  else let text := lower (trim (str_of value)) in if nonempty text then [text] else [].

(** *** Display *)

Definition limitItemsForDisplay (items maxItems : jsval) : list jsval :=
  let l := items_of items in
  let maxItems := match maxItems with VUndef => vint 12 | v => v end in
  let limit := num_max num_zero (num_or maxItems 0) in
  if negb (truthy (VNum limit)) then []
  else if nleb (num_of_nat (length l)) limit then l
  else
    let visible := take_num limit l in
    if existsb is_hint_only visible then visible
    else match findb is_hint_only (drop (length visible) l) with
         | None => visible
         | Some hint => take_num (nsub limit (num_of_Z 1)) visible ++ [hint]
         end.

Definition match_span (html : jsstr) : jsstr :=
  js "<span class=" ++ [34] ++ js "ac-match" ++ [34] ++ js ">" ++ html ++ js "</span>".

Definition highlightedLabel (label query : jsval) : jsstr :=
  let text := str_of label in
  let q := str_of query in
  let esc s := escapeHtmlText (VStr s) in
  if negb (nonempty text) || negb (nonempty q) then esc text else
  match index_of (lower q) (lower text) with
  | Some i =>
      esc (take i text) ++ match_span (esc (slice i (i + length q) text))
      ++ esc (drop (i + length q) text)
  | None =>
      match fuzzyMatchIndexes text q with
      | None => esc text
      | Some idx =>
          concat (imap (λ i c, if bool_decide (i ∈ idx) then match_span (esc [c]) else esc [c]) text)
      end
  end.

(** *** Shared prefix *)

Fixpoint common_len (limit : nat) (a b : jsstr) : nat :=
  match limit, a, b with
  | S limit, c :: a, d :: b => if c =? d then S (common_len limit a b) else 0
  | _, _, _ => 0
  end.
Fixpoint shared_end (first_lower : jsstr) (candidates : list jsstr) (en : nat) : nat :=
  match candidates with
  | [] => en
  | c :: candidates =>
      match common_len (en `min` length c) first_lower c with
      | O => 0
      | en => shared_end first_lower candidates en
      end
  end.
Definition completionPrefix (item : jsval) : jsstr :=
  if is_objectlike item then trim (str_of (get item (js "completionPrefix"))) else [].

Definition sharedPrefix (items : jsval) : jsstr :=
  match items_of items with
  | [] => []
  | first_item :: rest =>
      let prefix := completionPrefix first_item in
      if nonempty prefix
         && forallb (λ i, is_objectlike i && (completionPrefix i ==s prefix)) (first_item :: rest)
      then prefix else
      let first := itemInsertValue first_item in
      if negb (nonempty first) then [] else
      take (shared_end (lower first) (map (λ i, lower (itemInsertValue i)) rest) (length first)) first
  end.

(** ** Lemmas: markup *)

(** What a browser reads back from escaped text. *)
Definition entity_of (s : jsstr) : option (Z * jsstr) :=
  findb (λ e, starts_with (snd e) s)
    [(38, js "&amp;"); (60, js "&lt;"); (62, js "&gt;"); (34, js "&quot;"); (39, js "&#39;")].
Fixpoint html_text (fuel : nat) (s : jsstr) : jsstr :=
  match fuel, s with
  | S fuel, c :: s' =>
      match entity_of s with
      | Some (d, e) => d :: html_text fuel (drop (length e) s)
      | None => c :: html_text fuel s'
      end
  | _, _ => []
  end.

Definition escape_unit (c : Z) : jsstr :=
  if c =? 38 then js "&amp;" else if c =? 60 then js "&lt;" else if c =? 62 then js "&gt;"
  else if c =? 34 then js "&quot;" else if c =? 39 then js "&#39;" else [c].

Lemma flat_map_flat_map {A B C} (f : A → list B) (g : B → list C) l :
  flat_map g (flat_map f l) = flat_map (λ x, flat_map g (f x)) l.
Proof. induction l as [|x l IH]; cbn; [done|]. by rewrite flat_map_app, IH. Qed.

(** The five successive replacements act unit by unit. *)
Lemma escapeHtmlText_units v : escapeHtmlText v = flat_map escape_unit (str_of_nullish v).
Proof.
  unfold escapeHtmlText, replace_unit. rewrite !flat_map_flat_map.
  apply flat_map_ext. intros c. unfold escape_unit.
  change (cu "&") with 38; change (cu "<") with 60; change (cu ">") with 62.
  destruct (Z.eqb_spec c 38) as [->|]; [done|].
  cbn [flat_map app].
  destruct (Z.eqb_spec c 60) as [->|]; [done|]. cbn [flat_map app].
  destruct (Z.eqb_spec c 62) as [->|]; [done|]. cbn [flat_map app].
  destruct (Z.eqb_spec c 34) as [->|]; [done|]. cbn [flat_map app].
  destruct (Z.eqb_spec c 39) as [->|]; done.
Qed.

Lemma escape_unit_safe c : Forall (λ d, d ∉ js "<>'" ∧ d ≠ 34) (escape_unit c).
Proof.
  unfold escape_unit.
  repeat case_goal; repeat constructor; try done;
    change (js "<>'") with [60; 62; 39]; try (rewrite !not_elem_of_cons; split_and!; try done; try lia; apply not_elem_of_nil);
    lia.
Qed.

Lemma entity_escape c rest :
  (c = 38 ∨ c = 60 ∨ c = 62 ∨ c = 34 ∨ c = 39) →
  entity_of (escape_unit c ++ rest) = Some (c, escape_unit c).
Proof. intros [->|[->|[->|[->| ->]]]]; done. Qed.

Lemma html_text_escape s fuel :
  (length (flat_map escape_unit s) ≤ fuel)%nat → html_text fuel (flat_map escape_unit s) = s.
Proof.
  revert fuel. induction s as [|c s IH]; intros fuel Hf; [by destruct fuel|].
  cbn [flat_map] in *. rewrite length_app in Hf.
  destruct (decide (c = 38 ∨ c = 60 ∨ c = 62 ∨ c = 34 ∨ c = 39)) as [Hc|Hc].
  - pose proof (entity_escape c (flat_map escape_unit s) Hc) as He.
    assert (∃ d u, escape_unit c = d :: u) as (d & u & Hu)
      by (destruct Hc as [->|[->|[->|[->| ->]]]]; eexists _, _; reflexivity).
    rewrite Hu in *. cbn [length] in Hf. destruct fuel as [|fuel]; [lia|].
    cbn [html_text app] in *. rewrite He. cbn [length drop]. rewrite drop_app_length.
    rewrite IH by lia. done.
  - assert (escape_unit c = [c]) as Hu.
    { unfold escape_unit. repeat (case_goal; [lia|]). done. }
    rewrite Hu in *. cbn [length] in Hf. destruct fuel as [|fuel]; [lia|].
    cbn [html_text app].
    assert (entity_of (c :: flat_map escape_unit s) = None) as ->; [|by rewrite IH by lia].
    assert (∀ p, starts_with (38 :: p) (c :: flat_map escape_unit s) = false) as Hs
      by (intros p; cbn [starts_with]; by rewrite (proj2 (Z.eqb_neq 38 c)) by lia).
    apply findb_None. apply Forall_forall.
    repeat (constructor; [apply Hs|]). constructor.
Qed.

Lemma flat_map_Forall {A B} (P : B → Prop) (f : A → list B) l :
  (∀ x, Forall P (f x)) → Forall P (flat_map f l).
Proof. intros H. induction l; cbn; [constructor|]. apply Forall_app. auto. Qed.

(** ** Lemmas: tokens *)

Definition token_ok (text : jsstr) (t : token) : Prop :=
  (tk_start t < tk_end t ≤ length text)%nat
  ∧ tk_value t = slice (tk_start t) (tk_end t) text
  ∧ no_ws (tk_value t).

(** Tokens in reading order, separated by at least one space. *)
Fixpoint spaced (from : nat) (l : list token) : Prop :=
  match l with
  | [] => True
  | t :: l => (from ≤ tk_start t)%nat ∧ spaced (S (tk_end t)) l
  end.

Lemma spaced_weaken a b l : (a ≤ b)%nat → spaced b l → spaced a l.
Proof. destruct l; cbn; [done|]. intros ? [? ?]. split; [lia|done]. Qed.

Lemma tokens_from_ok pre cur s :
  no_ws (reverse cur) →
  let text := pre ++ reverse cur ++ s in
  let l := tokens_from (length pre + length cur) cur s in
  Forall (token_ok text) l ∧ spaced (length pre) l
  ∧ ∀ i c, text !! i = Some c → (length pre ≤ i)%nat → is_ws c = false →
      ∃ t, t ∈ l ∧ (tk_start t ≤ i < tk_end t)%nat.
Proof.
  revert pre cur. induction s as [|c s IH]; intros pre cur Hcur; cbv zeta; cbn [tokens_from].
  - rewrite app_nil_r. destruct cur as [|d cur]; cbn [nonempty].
    + split; [constructor|]. split; [done|]. intros i c. rewrite reverse_nil, app_nil_r.
      intros Hi%lookup_lt_Some. lia.
    + assert (0 < length (d :: cur))%nat as Hk by (cbn; lia).
        remember (d :: cur) as k eqn:Ek. clear Ek. replace (length pre + length k - length k)%nat with (length pre) by lia.
      assert (token_ok (pre ++ reverse k) (Token (reverse k) (length pre) (length pre + length k))) as Hok.
      { split; cbn [tk_start tk_end tk_value].
        - rewrite length_app, length_reverse. cbn [length]. lia.
        - split; [|done]. pose proof (slice_middle pre (reverse k) []) as Hs.
          by rewrite app_nil_r, length_reverse in Hs. }
      split; [by constructor|]. split; [cbn; split; [lia|done]|].
      intros i c Hi%lookup_lt_Some Hp _. eexists. split; [by left|]. cbn.
      rewrite length_app, length_reverse in Hi. lia.
  - destruct (is_ws c) eqn:Hc.
    + assert (pre ++ reverse cur ++ c :: s = (pre ++ reverse cur ++ [c]) ++ reverse [] ++ s) as Htext
        by (rewrite reverse_nil; cbn; by rewrite <-!(assoc_L (++))).
      assert (length (pre ++ reverse cur ++ [c]) + length (@nil Z) = S (length pre + length cur))%nat as Hlen
        by (rewrite !length_app, length_reverse; cbn; lia).
      destruct (IH (pre ++ reverse cur ++ [c]) []) as (Hok & Hsp & Hcov); [constructor|].
      rewrite Hlen in *. rewrite <-Htext in *.
      assert (length (pre ++ reverse cur ++ [c]) = S (length pre + length cur)) as Hl2
        by (rewrite !length_app, length_reverse; cbn; lia). rewrite Hl2 in *.
      assert (∀ i d, (pre ++ reverse cur ++ c :: s) !! i = Some d → is_ws d = false →
                i ≠ (length pre + length cur)%nat) as Hne.
      { intros i d Hi Hd ->. rewrite (assoc_L (++)) in Hi.
        rewrite lookup_app_r in Hi by (rewrite length_app, length_reverse; lia).
        rewrite length_app, length_reverse, Nat.sub_diag in Hi. simpl in Hi. congruence. }
      destruct cur as [|d cur]; cbn [nonempty app].
      * cbn [length] in *. rewrite Nat.add_0_r in *. split; [done|]. split; [by eapply spaced_weaken; [|done]; lia|].
        intros i d Hi Hp Hd. apply (Hcov i d); [done| |done]. specialize (Hne i d Hi Hd). lia.
      * assert (0 < length (d :: cur))%nat as Hk by (cbn; lia).
        remember (d :: cur) as k eqn:Ek. clear Ek. replace (length pre + length k - length k)%nat with (length pre) by lia.
        split; [|split].
        -- constructor; [|done]. split; cbn [tk_start tk_end tk_value].
           ++ rewrite !length_app, length_reverse. cbn [length]. lia.
           ++ split; [|done]. by rewrite <-(length_reverse k), slice_middle.
        -- cbn. split; [lia|done].
        -- intros i e Hi Hp He. destruct (decide (i < length pre + length k)%nat).
           ++ eexists. split; [by left|]. cbn. lia.
           ++ destruct (Hcov i e Hi) as (t & Ht & ?); [|done|].
              { specialize (Hne i e Hi He). lia. }
              exists t. split; [by right|done].
    + assert (pre ++ reverse cur ++ c :: s = pre ++ reverse (c :: cur) ++ s) as ->
        by (rewrite reverse_cons, <-(assoc_L (++)); done).
      specialize (IH pre (c :: cur)). cbn [length] in IH. rewrite Nat.add_succ_r in IH. apply IH.
      unfold no_ws. rewrite reverse_cons. apply Forall_app. split; [done|by constructor].
Qed.

Lemma text_tokens_ok text :
  Forall (token_ok text) (text_tokens text) ∧ spaced 0 (text_tokens text)
  ∧ ∀ i c, text !! i = Some c → is_ws c = false →
      ∃ t, t ∈ text_tokens text ∧ (tk_start t ≤ i < tk_end t)%nat.
Proof.
  destruct (tokens_from_ok [] [] text) as (H1 & H2 & H3); [constructor|]. cbn in *.
  split; [done|]. split; [done|]. intros i c Hi Hc. apply (H3 i c); [done|lia|done].
Qed.

(** ** Lemmas: fuzzy matches *)

(** Positions in increasing order, neighbours at most [2] apart. *)
Fixpoint close_after (previous : option nat) (l : list nat) : Prop :=
  match l with
  | [] => True
  | i :: l =>
      match previous with Some p => (p < i ≤ p + 2)%nat | None => True end
      ∧ close_after (Some i) l
  end.

Lemma index_of_unit c s i : index_of [c] s = Some i → s !! i = Some c.
Proof.
  intros H. apply index_of_Some in H as (u & v & -> & <-).
  rewrite lookup_app_r by lia. by rewrite Nat.sub_diag.
Qed.

Lemma index_of_from_unit c s from i :
  index_of_from [c] s from = Some i → (from ≤ length s)%nat → (from ≤ i)%nat ∧ s !! i = Some c.
Proof.
  unfold index_of_from. intros H Hf. rewrite Nat.min_l in H by done.
  apply fmap_Some in H as (j & Hj & ->). apply index_of_unit in Hj.
  rewrite lookup_drop in Hj. split; [lia|done].
Qed.

Lemma ordered_from_ok text query from prev idx :
  (from ≤ length text)%nat → (∀ p, prev = Some p → (p < from)%nat) →
  ordered_from text query from prev = Some idx →
  close_after prev idx ∧ Forall2 (λ i c, text !! i = Some c) idx query.
Proof.
  revert from prev idx. induction query as [|c query IH]; intros from prev idx Hf Hp; cbn.
  { intros [= <-]. split; [done|constructor]. }
  destruct (index_of_from [c] text from) as [i|] eqn:Hi; [|done].
  apply index_of_from_unit in Hi as [Hfi Hi]; [|done].
  destruct (match prev with Some p => _ | None => false end) eqn:Hgap; [done|].
  intros (idx' & Hidx & ->)%fmap_Some.
  destruct (IH (S i) (Some i) idx') as [Hc HF].
  - apply lookup_lt_Some in Hi. lia.
  - intros p [= <-]. lia.
  - done.
  - split; [|by constructor]. cbn. split; [|done]. destruct prev as [p|]; [|done].
    apply bool_decide_eq_false in Hgap. specialize (Hp p eq_refl). lia.
Qed.

Lemma head_omap_Some {A B} (f : A → option B) l y :
  head (omap f l) = Some y → ∃ x, x ∈ l ∧ f x = Some y.
Proof.
  induction l as [|x l IH]; cbn; [done|]. destruct (f x) as [z|] eqn:Hx; cbn.
  - intros [= <-]. exists x. split; [by left|done].
  - intros (x' & ? & ?)%IH. exists x'. split; [by right|done].
Qed.

(** ** Lemmas: addresses *)

Lemma octet_text n : 0 ≤ n ≤ 255 → is_octet_text (str_of_Z n) = true.
Proof.
  intros Hn. unfold is_octet_text. rewrite parse_int_str_of_Z by lia.
  rewrite is_integer_of_Z, num_to_str_of_Z by lia.
  change num_zero with (num_of_Z 0). unfold nleb, SFleb. rewrite !compare_of_Z by lia.
  rewrite bool_decide_true by done.
  destruct (Z.compare_spec 0 n), (Z.compare_spec n 255); try done; lia.
Qed.

Lemma parse_int_digits s :
  s ≠ [] → Forall (λ c, is_digit c = true) s → parse_int s = num_of_Z (digits_value s).
Proof.
  intros Hne Hd. unfold parse_int, trim_start. rewrite drop_while_id.
  2:{ intros c Hc. apply digit_not_ws. destruct s; [done|]. injection Hc as <-. by inversion Hd. }
  assert (split_sign s = (false, s)) as ->.
  { destruct s as [|c s]; [done|]. apply Forall_cons in Hd as [Hc _].
    unfold split_sign. unfold is_digit in Hc. branches; lia. }
  assert (take_while is_digit s = s) as ->.
  { clear Hne. induction Hd as [|x l Hx Hl IH]; [done|]. cbn. by rewrite Hx, IH. }
  by destruct s.
Qed.

Lemma digits_value_bound s :
  Forall (λ c, is_digit c = true) s → 0 ≤ digits_value s < 10 ^ Z.of_nat (length s).
Proof.
  induction s as [|d s IH] using rev_ind; intros H; [cbv; split; congruence|].
  apply Forall_app in H as [Hs Hd]. apply Forall_cons in Hd as [Hd _]. specialize (IH Hs).
  rewrite digits_value_app, length_app. cbn [length].
  rewrite Nat.add_1_r, Nat2Z.inj_succ, Z.pow_succ_r by lia. unfold is_digit in Hd. lia.
Qed.

Lemma is_octet_text_iff s :
  (1 ≤ length s ≤ 3)%nat → Forall (λ c, is_digit c = true) s →
  is_octet_text s = true ↔ ∃ n, 0 ≤ n ≤ 255 ∧ s = str_of_Z n.
Proof.
  intros Hl Hd. split; [|intros (n & Hn & ->); by apply octet_text].
  pose proof (digits_value_bound s Hd) as Hb.
  assert (10 ^ Z.of_nat (length s) ≤ 10 ^ 3) by (apply Z.pow_le_mono_r; lia).
  assert (s ≠ []) by (intros ->; cbn in Hl; lia).
  unfold is_octet_text. rewrite parse_int_digits by done.
  intros H'. split_bools. exists (digits_value s).
  rewrite num_to_str_of_Z in * by lia. split; [|done]. split; [lia|].
  match goal with H : nleb _ (num_of_Z 255) = true |- _ => rename H into Hle end.
  unfold nleb, SFleb in Hle. rewrite compare_of_Z in Hle by lia.
  destruct (Z.compare_spec (digits_value s) 255); try done; lia.
Qed.

Definition octet_digits (s : jsstr) : Prop :=
  (1 ≤ length s ≤ 3)%nat ∧ Forall (λ c, is_digit c = true) s.

Lemma digit_cls c : cls_has false false [CDigit false] c = is_digit c.
Proof. unfold cls_has, items_have. cbn. by destruct (is_digit c). Qed.

Lemma lang_octet u : lang false (Rep (Cls false [CDigit false]) 1 (Some 3%nat) true) u ↔ octet_digits u.
Proof.
  rewrite lang_rep_cls. unfold octet_digits, within.
  assert (Forall (λ c, cls_has false false [CDigit false] c = true) u
          ↔ Forall (λ c, is_digit c = true) u) as ->; [|cbn; tauto].
  split; apply Forall_weaken; intros c; by rewrite digit_cls.
Qed.

Lemma lang_dot_octet u :
  lang false (Seq (Cls false [CRange 46 46]) (Rep (Cls false [CDigit false]) 1 (Some 3%nat) true)) u ↔
  ∃ d, u = 46 :: d ∧ octet_digits d.
Proof.
  split.
  - intros (u1 & u2 & -> & (c & -> & Hc) & Hu2). apply lang_octet in Hu2. exists u2.
    split; [|done]. unfold cls_has, items_have in Hc. cbn in Hc. f_equal. cbn. f_equal. lia.
  - intros (d & -> & Hd). exists [46], d. split; [done|]. split; [by exists 46|]. by apply lang_octet.
Qed.

Lemma ipv4_pattern s :
  test IPV4_RE s = true ↔
  ∃ a b c d, Forall octet_digits [a; b; c; d] ∧ s = join [46] [a; b; c; d].
Proof.
  rewrite (test_full IPV4_RE _ _ s eq_refl eq_refl eq_refl eq_refl eq_refl).
  change (rx_icase IPV4_RE) with false. split.
  - intros (u & v & -> & Hu & v' & e & -> & (us & -> & Hus & [Hmn Hmx]) & ->).
    apply lang_octet in Hu.
    assert (Forall (λ u, ∃ d, u = 46 :: d ∧ octet_digits d) us) as Hus'
      by (eapply Forall_weaken; [|exact Hus]; intros w; apply lang_dot_octet).
    clear Hus. destruct us as [|x [|y [|z [|]]]]; cbn in Hmn, Hmx; try lia.
    apply Forall_cons in Hus' as [(b & -> & Hb) Hus']. apply Forall_cons in Hus' as [(c & -> & Hc) Hus'].
    apply Forall_cons in Hus' as [(d & -> & Hd) _].
    exists u, b, c, d. split; [by rewrite !Forall_cons|]. cbn. by rewrite !app_nil_r.
  - intros (a & b & c & d & H & ->).
    apply Forall_cons in H as [Ha H]. apply Forall_cons in H as [Hb H].
    apply Forall_cons in H as [Hc H]. apply Forall_cons in H as [Hd _].
    exists a, (concat [46 :: b; 46 :: c; 46 :: d]). split; [cbn; by rewrite app_nil_r|].
    split; [by apply lang_octet|].
    exists (concat [46 :: b; 46 :: c; 46 :: d]), []. rewrite app_nil_r. split; [done|]. split; [|done].
    exists [46 :: b; 46 :: c; 46 :: d].
    split; [done|]. split; [|split; cbn; lia].
    eapply Forall_weaken; [intros w; apply lang_dot_octet|].
    rewrite !Forall_cons. split_and!; eauto.
Qed.

Lemma octet_digits_str n : 0 ≤ n ≤ 255 → octet_digits (str_of_Z n).
Proof.
  intros Hn. split; [|apply str_of_Z_digits; lia].
  pose proof (str_of_Z_ne n) as Hne.
  assert (length (str_of_Z n) ≤ 3)%nat; [|destruct (str_of_Z n); cbn in *; [done|lia]].
  assert (∀ m, (m ≤ 255)%nat → (length (str_of_Z (Z.of_nat m)) ≤ 3)%nat) as H.
  { assert (forallb (λ m, (length (str_of_Z (Z.of_nat m)) <=? 3)%nat) (seq 0 256) = true) as H
      by (vm_compute; reflexivity).
    intros m Hm. rewrite forallb_forall in H. apply Nat.leb_le, H. apply in_seq. lia. }
  specialize (H (Z.to_nat n)). rewrite Z2Nat.id in H by lia. apply H. lia.
Qed.

Lemma octet_no_dot s : octet_digits s → 46 ∉ s.
Proof.
  intros [_ H] Hin. eapply Forall_forall in H; [|exact Hin]. done.
Qed.

(** ** Lemmas: port sets *)

Definition port_range (r : Z * Z) : Prop := 1 ≤ fst r ≤ snd r ∧ snd r ≤ 65535.
#[export] Instance port_range_dec r : Decision (port_range r).
Proof. unfold port_range. apply _. Defined.
Definition range_text (r : Z * Z) : jsstr :=
  if fst r =? snd r then str_of_Z (fst r) else str_of_Z (fst r) ++ js "-" ++ str_of_Z (snd r).

Lemma port_range_text_of_Z a b :
  0 ≤ a < 2 ^ 53 → 0 ≤ b < 2 ^ 53 → port_range_text (num_of_Z a) (num_of_Z b) = range_text (a, b).
Proof.
  intros Ha Hb. unfold port_range_text, range_text. cbn [fst snd].
  by rewrite neqb_of_Z, !num_to_str_of_Z by done.
Qed.

Lemma port_digits_num s :
  port_digits s = true → num_of_str s = num_of_Z (digits_value s) ∧ 0 ≤ digits_value s < 10 ^ 5.
Proof.
  unfold port_digits. intros H. apply andb_true_iff in H as [Hl Hd].
  apply bool_decide_eq_true in Hl.
  assert (Forall (λ c, is_digit c = true) s) as HF
    by (rewrite Forall_forall; intros c Hc; rewrite forallb_forall in Hd; by apply Hd, list_elem_of_In).
  pose proof (digits_value_bound s HF).
  assert (10 ^ Z.of_nat (length s) ≤ 10 ^ 5) by (apply Z.pow_le_mono_r; lia).
  destruct s as [|c s]; [cbn in Hl; lia|]. split; [by apply num_of_str_digits|lia].
Qed.

Lemma normalize_range a b :
  0 ≤ a < 10 ^ 5 → 0 ≤ b < 10 ^ 5 →
  (let start := num_of_Z a in let en := num_of_Z b in
   if negb (is_integer start) || negb (is_integer en)
      || nltb start (num_of_Z 1) || nltb (num_of_Z 65535) start
      || nltb en (num_of_Z 1) || nltb (num_of_Z 65535) en || nltb en start
   then None else Some (port_range_text start en))
  = if bool_decide (port_range (a, b)) then Some (range_text (a, b)) else None.
Proof.
  intros Ha Hb. cbv zeta. rewrite !is_integer_of_Z, !nltb_of_Z by lia.
  rewrite port_range_text_of_Z by lia. cbn [negb orb].
  case_bool_decide as Hr; unfold port_range in Hr; cbn [fst snd] in Hr.
  - destruct (_ || _) eqn:He; [lia|done].
  - destruct (_ || _) eqn:He; [done|lia].
Qed.

Lemma match_ports_digits part a b :
  match_ports part = Some (a, b) →
  port_digits a = true ∧ port_digits (default a b) = true.
Proof.
  unfold match_ports. intros H.
  destruct (trim_start _) as [|c r]; [branches_in H|].
  destruct (decide (c = 45)) as [->|Hc]; [|by branches_in H].
  destruct (_ && _) eqn:Hp in H; [|done]. injection H as <- <-. by apply andb_true_iff in Hp.
Qed.

Lemma normalize_ports_Some part t :
  normalize_ports part = Some t → ∃ r, port_range r ∧ t = range_text r.
Proof.
  unfold normalize_ports. destruct (match_ports part) as [[a b]|] eqn:Hm; [|done].
  apply match_ports_digits in Hm as [Ha Hb].
  apply port_digits_num in Ha as [-> Ha], Hb as [-> Hb]. cbv zeta.
  pose proof (normalize_range _ _ Ha Hb) as Hn. cbv zeta in Hn. rewrite Hn.
  case_bool_decide; [|done]. intros [= <-]. eauto.
Qed.

Lemma str_of_Z_port n : 0 ≤ n ≤ 65535 → port_digits (str_of_Z n) = true.
Proof.
  intros Hn. unfold port_digits. apply andb_true_iff. split.
  - apply bool_decide_eq_true. pose proof (str_of_Z_ne n) as Hne.
    assert (length (str_of_Z n) ≤ 5)%nat; [|destruct (str_of_Z n); cbn in *; [done|lia]].
    destruct (Nat.leb_spec (length (str_of_Z n)) 5); [done|exfalso].
    destruct (Z.eq_dec n 0) as [->|]; [cbn in *; lia|].
    destruct (str_of_Z_head n ltac:(lia)) as (c & t & Hs & Hc).
    pose proof (digits_value_str_of_Z n ltac:(lia)) as Hv.
    pose proof (str_of_Z_digits n ltac:(lia)) as Hd. rewrite Hs in *.
    apply Forall_cons in Hd as [Hdc Hdt]. pose proof (digits_value_bound t Hdt).
    unfold digits_value in Hv. cbn [fold_left] in Hv. rewrite fold_digits_acc in Hv.
    cbn [length] in *.
    assert (10 ^ 5 ≤ 10 ^ Z.of_nat (length t)) by (apply Z.pow_le_mono_r; lia).
    unfold is_digit in Hdc. nia.
  - apply forallb_forall. intros c Hc. apply list_elem_of_In in Hc.
    pose proof (str_of_Z_digits n ltac:(lia)) as Hd. by eapply Forall_forall in Hd.
Qed.

Lemma digits_split u r :
  Forall (λ c, is_digit c = true) u → (∀ c, head r = Some c → is_digit c = false) →
  take_while is_digit (u ++ r) = u ∧ drop_while is_digit (u ++ r) = r.
Proof.
  intros Hu Hr. induction Hu as [|c u Hc _ [IH1 IH2]]; cbn.
  - destruct r as [|c r]; [done|]. cbn. by rewrite (Hr c).
  - rewrite Hc, IH1, IH2. done.
Qed.

Definition port_text_unit (c : Z) : Prop := is_digit c = true ∨ c = 45.

Lemma range_text_units r : port_range r → Forall port_text_unit (range_text r).
Proof.
  intros Hr. unfold range_text, port_range in *.
  assert (∀ n, 0 ≤ n → Forall port_text_unit (str_of_Z n)) as Hs.
  { intros n Hn. eapply Forall_weaken; [|by apply str_of_Z_digits]. by left. }
  destruct (_ =? _); [apply Hs; lia|]. rewrite !Forall_app. split_and!; [apply Hs; lia| |apply Hs; lia].
  constructor; [by right|constructor].
Qed.

Lemma port_text_no_ws s : Forall port_text_unit s → no_ws s.
Proof. apply Forall_weaken. intros c [H| ->]; [by apply digit_not_ws|done]. Qed.

Lemma normalize_range_text r : port_range r → normalize_ports (range_text r) = Some (range_text r).
Proof.
  intros Hr. pose proof (port_text_no_ws _ (range_text_units r Hr)) as Hws.
  destruct r as [a b]. unfold port_range in Hr. cbn [fst snd] in Hr.
  assert (match_ports (range_text (a, b))
          = Some (str_of_Z a, if a =? b then None else Some (str_of_Z b))) as Hm.
  { unfold match_ports. rewrite (trim_no_ws _ Hws). unfold range_text. cbn [fst snd].
    pose proof (str_of_Z_digits a ltac:(lia)) as Hda. pose proof (str_of_Z_digits b ltac:(lia)) as Hdb.
    destruct (Z.eqb_spec a b) as [->|Hab].
    - destruct (digits_split (str_of_Z b) [] Hdb) as [Ht Hd]; [done|].
      rewrite app_nil_r in Ht, Hd. rewrite Ht, Hd. cbn [trim_start drop_while].
      by rewrite str_of_Z_port by lia.
    - destruct (digits_split (str_of_Z a) (js "-" ++ str_of_Z b) Hda) as [Ht Hd]; [by intros ? [= <-]|].
      rewrite Ht, Hd. change (trim_start (js "-" ++ str_of_Z b)) with (45 :: str_of_Z b).
      cbv iota. rewrite !str_of_Z_port by lia. cbn [andb].
      assert (trim_start (str_of_Z b) = str_of_Z b) as ->; [|by rewrite str_of_Z_port by lia].
      unfold trim_start. apply drop_while_id. intros c Hc. apply digit_not_ws.
      destruct (str_of_Z b); [done|]. injection Hc as <-. by inversion Hdb. }
  unfold normalize_ports. rewrite Hm.
  assert (num_of_str (default (str_of_Z a) (if a =? b then None else Some (str_of_Z b))) = num_of_Z b) as ->.
  { destruct (Z.eqb_spec a b) as [->|]; cbn; apply num_of_str_of_Z; lia. }
  rewrite num_of_str_of_Z by lia.
  pose proof (normalize_range a b ltac:(lia) ltac:(lia)) as Hn. cbv zeta in *. rewrite Hn.
  by rewrite bool_decide_true by (unfold port_range; cbn; lia).
Qed.

Lemma port_set_loop_Some parts acc out :
  NoDup acc → Forall (λ t, ∃ r, port_range r ∧ t = range_text r) acc →
  port_set_loop parts acc = Some out →
  NoDup out ∧ Forall (λ t, ∃ r, port_range r ∧ t = range_text r) out ∧ (parts ≠ [] ∨ acc ≠ [] → out ≠ []).
Proof.
  revert acc. induction parts as [|p parts IH]; intros acc Hnd Hok; cbn.
  { intros [= <-]. naive_solver. }
  destruct (normalize_ports p) as [t|] eqn:Ht; [|done].
  apply normalize_ports_Some in Ht. case_bool_decide as Hin; intros H.
  - destruct (IH acc Hnd Hok H) as (? & ? & Hne). split; [done|]. split; [done|].
    intros _. apply Hne. right. intros ->. by apply not_elem_of_nil in Hin.
  - destruct (IH (acc ++ [t])) as (? & ? & Hne); [| |done|].
    + apply NoDup_app. split; [done|]. split; [set_solver|apply NoDup_singleton].
    + apply Forall_app. split; [done|by constructor].
    + split; [done|]. split; [done|]. intros _. apply Hne. right. by destruct acc.
Qed.

Lemma port_set_loop_id parts acc :
  NoDup (acc ++ parts) → Forall (λ t, ∃ r, port_range r ∧ t = range_text r) parts →
  port_set_loop parts acc = Some (acc ++ parts).
Proof.
  intros Hnd Hok. revert acc Hnd. induction Hok as [|t parts (r & Hr & ->) _ IH]; intros acc Hnd; cbn.
  { by rewrite app_nil_r. }
  rewrite normalize_range_text by done.
  rewrite bool_decide_false by (apply NoDup_app in Hnd as (_ & Hd & _); intros Hin; by apply (Hd _ Hin); left).
  rewrite IH; by rewrite <-(assoc_L (++)).
Qed.

(** ** Lemmas: recent values and shared prefixes *)

Definition of_kind (k : jsstr) (l : list recent_value) : list recent_value :=
  filterb (λ e, rv_kind e ==s k) l.

(** The list the recent values are kept in. *)
Record recents_ok (l : list recent_value) : Prop := {
  ro_nodup : NoDup l;
  ro_limit : ∀ k, (length (of_kind k l) ≤ RECENT_VALUE_LIMIT)%nat;
  ro_kinds : Forall (λ e, rv_kind e ∈ map js ["domain"; "ip"; "url"; "port_set"]%string
                          ∧ rv_value e ≠ []) l
}.

Lemma normalizeRecentValue_kind `{U : UrlApi} kind value :
  let r := normalizeRecentValue kind value in
  rv_kind r = [] ∨ rv_kind r ∈ map js ["domain"; "ip"; "url"; "port_set"]%string.
Proof.
  unfold normalizeRecentValue. cbv zeta.
  repeat (case_bool_decide; [right; cbn; rewrite !elem_of_cons; by eauto 8|]). by left.
Qed.

Lemma push_recent_ok `{U : UrlApi} l item : recents_ok l → recents_ok (push_recent l item).
Proof.
  intros [Hnd Hlim Hk]. unfold push_recent.
  set (n := normalizeRecentValue _ _).
  destruct (_ || _) eqn:Hne; [done|]. case_bool_decide as Hin; [done|].
  case_bool_decide as Hfull; [done|].
  apply orb_false_iff in Hne as [H1 H2]. apply negb_false_iff, nonempty_spec in H1, H2.
  constructor.
  - apply NoDup_app. split; [done|]. split; [set_solver|apply NoDup_singleton].
  - intros k. unfold of_kind. rewrite filterb_app, length_app. cbn [filterb].
    destruct (decide (rv_kind n = k)) as [<-|Hkk].
    + rewrite bool_decide_true by done. cbn [length]. unfold of_kind in Hlim. lia.
    + rewrite bool_decide_false by done. specialize (Hlim k). unfold of_kind in Hlim. cbn [length]. lia.
  - apply Forall_app. split; [done|]. constructor; [|done]. split; [|done].
    destruct (normalizeRecentValue_kind (if is_objectlike item then get item (js "kind") else VStr [])
                (if is_objectlike item then get item (js "value") else VStr [])) as [|]; done.
Qed.

Lemma common_len_spec limit a b :
  (common_len limit a b ≤ limit)%nat
  ∧ take (common_len limit a b) a `prefix_of` b
  ∧ ∀ n, (n ≤ limit)%nat → (n ≤ length a)%nat → take n a `prefix_of` b → (n ≤ common_len limit a b)%nat.
Proof.
  revert a b. induction limit as [|limit IH]; intros a b; cbn [common_len].
  { split; [done|]. split; [apply prefix_nil|lia]. }
  destruct a as [|c a]; [split; [lia|]; split; [apply prefix_nil|cbn; lia]|].
  destruct b as [|d b].
  { split; [lia|]. split; [apply prefix_nil|]. intros [|n] _ _ Hp; [lia|].
    cbn in Hp. by apply prefix_nil_not in Hp. }
  destruct (Z.eqb_spec c d) as [->|Hcd].
  - destruct (IH a b) as (H1 & H2 & H3). split; [lia|]. split; [cbn; by apply prefix_cons|].
    intros [|n] Hn Hl Hp; [lia|]. cbn in Hl, Hp. apply prefix_cons_inv_2 in Hp.
    specialize (H3 n ltac:(lia) ltac:(lia) Hp). lia.
  - split; [lia|]. split; [apply prefix_nil|]. intros [|n] Hn Hl Hp; [lia|].
    cbn in Hp. by apply prefix_cons_inv_1 in Hp.
Qed.

Lemma shared_end_spec a cs en :
  (en ≤ length a)%nat →
  let k := shared_end a cs en in
  (k ≤ en)%nat ∧ Forall (λ c, take k a `prefix_of` c) cs
  ∧ ∀ n, (n ≤ en)%nat → Forall (λ c, take n a `prefix_of` c) cs → (n ≤ k)%nat.
Proof.
  revert en. induction cs as [|c cs IH]; intros en Hen; cbv zeta; cbn [shared_end].
  { split; [done|]. split; [constructor|done]. }
  destruct (common_len_spec (en `min` length c) a c) as (H1 & H2 & H3).
  assert (∀ n, (n ≤ en)%nat → take n a `prefix_of` c →
               (n ≤ common_len (en `min` length c) a c)%nat) as Hmax.
  { intros n Hn Hp. apply H3; [|lia|done].
    pose proof (prefix_length _ _ Hp) as Hl. rewrite length_take in Hl. lia. }
  destruct (common_len _ a c) as [|k] eqn:Hk.
  - split; [lia|]. split; [apply Forall_forall; intros; apply prefix_nil|].
    intros n Hn Hf. apply Forall_cons in Hf as [Hf _]. by apply Hmax.
  - destruct (IH (S k)) as (I1 & I2 & I3); [lia|]. split; [lia|]. split.
    + constructor; [|done]. etrans; [|exact H2].
      set (m := shared_end a cs (S k)) in *.
      replace (take m a) with (take m (take (S k) a)) by (rewrite take_take; f_equal; lia).
      apply prefix_take.
    + intros n Hn Hf. apply Forall_cons in Hf as [Hf1 Hf2]. apply I3; [|done]. by apply Hmax.
Qed.

Lemma lower_take n s : lower (take n s) = take n (lower s).
Proof. apply map_take || (unfold lower; by rewrite <-firstn_map). Qed.

#[export] Hint Resolve push_recent_ok text_tokens_ok : darklab.

(** Filtering only leaves out and reorders. *)
Lemma filterItems_submseteq items query : filterItems items query ⊆+ items.
Proof.
  unfold filterItems. destruct (negb _); [done|]. 
  rewrite (filterb_perm is_hint_only items) at 3. rewrite (Permutation_app_comm (filterb is_hint_only items)).
  apply submseteq_app; [|done]. rewrite (isort_perm scored_leb).
  apply sublist_submseteq. generalize (filterb (λ i, negb (is_hint_only i)) items) as l. intros l.
  enough (∀ n, map sc_item (omap id (imap (λ i item, scoreItem item (lower (trim (str_of query))) (n + i)) l)) `sublist_of` l) as H by apply (H 0%nat).
  induction l as [|x l IH]; intros n; cbn [imap omap list_omap]; [done|].
  assert (∀ y, scoreItem x (lower (trim (str_of query))) (n + 0) = Some y → sc_item y = x) as Hx.
  { intros y. unfold scoreItem. destruct (negb _); [by intros [= <-]|]. destruct (field_scores _ _ _); [done|by intros [= <-]]. }
  specialize (IH (S n)). erewrite imap_ext in IH; [|intros; by rewrite Nat.add_succ_comm].
  destruct (scoreItem x _ _) as [y|] eqn:E; cbn [id]; [|by apply sublist_cons].
  cbn [map]. rewrite (Hx y eq_refl). by apply sublist_skip.
Qed.

(** ** Properties *)

(** Escaping is injective and inert: reading the entities of the result
    back gives the text, and the result has no [<], [>] or quote left to open
    a tag or close an attribute. *)
Theorem escapeHtmlText_safe v :
  let html := escapeHtmlText v in
  html_text (length html) html = str_of_nullish v
  ∧ Forall (λ c, c ∉ js "<>'" ∧ c ≠ 34) html.
Proof.
  cbv zeta. rewrite escapeHtmlText_units. split; [by apply html_text_escape|].
  apply flat_map_Forall, escape_unit_safe.
Qed.

(** The token context locates the cursor: the tokens are exactly the
    maximal space-free pieces of the text, in order; the current token is the
    text between [tokenStart] and [tokenEnd], which enclose the cursor; it is
    empty exactly when the cursor follows no token unit; the previous token is
    the last one that ends before it. *)
Theorem tokenContextFromText_spec value cursorPos offset :
  let tc := tokenContextFromText value cursorPos offset in
  let text := tc_text tc in
  text = str_of value
  ∧ (tc_cursor tc ≤ length text)%nat
  ∧ Forall (token_ok text) (tc_tokens tc) ∧ spaced 0 (tc_tokens tc)
  ∧ (∀ i c, text !! i = Some c → is_ws c = false →
       ∃ t, t ∈ tc_tokens tc ∧ (tk_start t ≤ i < tk_end t)%nat)
  ∧ (∃ a b, tc_tokenStart tc = Z.of_nat a + offset ∧ tc_tokenEnd tc = Z.of_nat b + offset
       ∧ (a ≤ tc_cursor tc ≤ b)%nat ∧ tc_currentToken tc = slice a b text
       ∧ ∀ p, tc_previousToken tc = Some p →
           ∃ t, t ∈ tc_tokens tc ∧ tk_value t = p ∧ (tk_end t ≤ a)%nat)
  ∧ (tc_atWhitespace tc = true ↔ tc_currentToken tc = []).
Proof.
  cbv zeta. set (tc := tokenContextFromText value cursorPos offset).
  destruct (text_tokens_ok (str_of value)) as (Hok & Hsp & Hcov).
  split; [done|]. split; [cbn; lia|]. split; [exact Hok|]. split; [exact Hsp|]. split; [exact Hcov|].
  assert (∀ a p, tk_value <$> last (filterb (λ t, bool_decide (tk_end t ≤ a)%nat)
                                       (text_tokens (str_of value))) = Some p →
           ∃ t, t ∈ text_tokens (str_of value) ∧ tk_value t = p ∧ (tk_end t ≤ a)%nat) as Hprev.
  { intros a p (t & Ht & ->)%fmap_Some. apply last_Some_elem_of in Ht.
    apply elem_of_filterb in Ht as [He Ht]. apply bool_decide_eq_true in He. eauto. }
  subst tc. unfold tokenContextFromText. set (cursor := Z.to_nat _). cbn -[text_tokens str_of].
  destruct (findb (λ t, bool_decide (tk_start t < cursor)%nat && _) _) as [t|] eqn:Hf.
  - apply findb_Some in Hf as [Ht Hb]. apply andb_true_iff in Hb as [H1 H2].
    apply bool_decide_eq_true in H1, H2.
    destruct (proj1 (Forall_forall _ _) Hok _ Ht) as (Hb & Hv & Hw). split.
    + exists (tk_start t), (tk_end t). split_and!; try done; try lia. apply Hprev.
    + rewrite bool_decide_true by eauto. split; [done|]. rewrite Hv. unfold slice. intros Hnil.
      apply (f_equal length) in Hnil. rewrite length_take, length_drop in Hnil. cbn in Hnil. lia.
  - destruct (findb (λ t, (cursor =? tk_start t)%nat && _) _) as [t|] eqn:Hf2.
    + apply findb_Some in Hf2 as [Ht Hb]. destruct (proj1 (Forall_forall _ _) Hok _ Ht) as (Hb' & _).
      apply andb_true_iff in Hb as [H1 H2]. apply Nat.eqb_eq in H1, H2. lia.
    + split.
      * exists cursor, cursor. split_and!; try done; [|apply Hprev].
        unfold slice. by rewrite Nat.sub_diag.
      * rewrite bool_decide_false by (by intros [? ?]). done.
Qed.

(** A fuzzy match is a real one: the indexes increase, neighbours are at
    most two apart, and the units found there, case folded, spell the query or
    the query with one pair of different neighbours exchanged. *)
Theorem fuzzyMatchIndexes_spec text query idx :
  fuzzyMatchIndexes text query = Some idx →
  close_after None idx
  ∧ ∃ q, (q = lower query ∨ ∃ i, (S i < length query)%nat ∧ q = swap_at i (lower query))
         ∧ Forall2 (λ i c, lower text !! i = Some c) idx q.
Proof.
  unfold fuzzyMatchIndexes. destruct (_ || _); [done|].
  assert (∀ q, _orderedFuzzyMatchIndexes (lower text) q = Some idx →
            close_after None idx ∧ Forall2 (λ i c, lower text !! i = Some c) idx q) as Hord.
  { intros q. unfold _orderedFuzzyMatchIndexes. apply ordered_from_ok; [lia|done]. }
  destruct (_orderedFuzzyMatchIndexes (lower text) (lower query)) as [o|] eqn:Ho.
  - intros [= ->]. apply Hord in Ho as [Hc HF]. split; [done|]. exists (lower query). eauto.
  - intros (i & Hi & Hs)%head_omap_Some. apply elem_of_seq in Hi. rewrite lower_length in Hi.
    case_bool_decide; [done|]. apply Hord in Hs as [Hc HF]. split; [done|].
    exists (swap_at i (lower query)). split; [right; exists i; split; [lia|done]|done].
Qed.

Lemma fuzzyMatchIndexes_spec_witness :
  ∃ idx, fuzzyMatchIndexes (js "nMap scan") (js "mna") = Some idx ∧ close_after None idx.
Proof.
  eexists. split; [vm_compute; reflexivity|].
  apply (fuzzyMatchIndexes_spec (js "nMap scan") (js "mna")). vm_compute. reflexivity.
Defined.

(** An IPv4 address is accepted exactly when, spaces trimmed, it is four
    decimal numbers from 0 to 255 joined by dots, without leading zeros. *)
Theorem isIPv4Address_iff v :
  isIPv4Address v = true ↔
  ∃ a b c d, Forall (λ n, 0 ≤ n ≤ 255) [a; b; c; d]
             ∧ trim (str_of v) = join (js ".") (map str_of_Z [a; b; c; d]).
Proof.
  unfold isIPv4Address. change (js ".") with [46]. set (text := trim _).
  destruct (test IPV4_RE text) eqn:Ht; cbn [negb].
  - apply ipv4_pattern in Ht as (a & b & c & d & Hd & ->).
    rewrite split_join; [|done|eapply Forall_weaken; [|exact Hd]; apply octet_no_dot].
    rewrite forallb_forall. split.
    + intros H.
      assert (Forall (λ s, ∃ n, 0 ≤ n ≤ 255 ∧ s = str_of_Z n) [a; b; c; d]) as HF.
      { apply Forall_forall. intros s Hs. destruct (proj1 (Forall_forall _ _) Hd _ Hs) as [Hl Hds].
        apply is_octet_text_iff; [done..|]. by apply H, list_elem_of_In. }
      rewrite !Forall_cons in HF.
      destruct HF as ((n1 & ? & ->) & (n2 & ? & ->) & (n3 & ? & ->) & (n4 & ? & ->) & _).
      exists n1, n2, n3, n4. split; [by rewrite !Forall_cons|done].
    + intros (n1 & n2 & n3 & n4 & Hn & Heq).
      assert ([a; b; c; d] = map str_of_Z [n1; n2; n3; n4]) as ->.
      { apply (f_equal (split_on 46)) in Heq.
        rewrite !split_join in Heq; [done|done| |done|].
        - apply Forall_map. eapply Forall_weaken; [|exact Hn].
          intros n H. apply octet_no_dot, octet_digits_str, H.
        - eapply Forall_weaken; [|exact Hd]. apply octet_no_dot. }
      intros s Hs. apply in_map_iff in Hs as (n & <- & Hin). apply list_elem_of_In in Hin.
      pose proof (proj1 (Forall_forall _ _) Hn _ Hin). by apply octet_text.
  - split; [done|]. intros (n1 & n2 & n3 & n4 & Hn & Heq).
    enough (test IPV4_RE text = true) by congruence.
    apply ipv4_pattern. exists (str_of_Z n1), (str_of_Z n2), (str_of_Z n3), (str_of_Z n4).
    split; [|done]. change (Forall octet_digits (map str_of_Z [n1; n2; n3; n4])).
    apply Forall_map. eapply Forall_weaken; [|exact Hn]. apply octet_digits_str.
Qed.

(** A normalised port set is a comma-separated list of distinct ranges
    within 1..65535, each in canonical decimal, and normalising it again
    changes nothing. *)
Theorem normalizeRecentPortSet_canonical v :
  let s := normalizeRecentPortSet v in
  s ≠ [] →
  (∃ ranges, Forall port_range ranges ∧ NoDup (map range_text ranges)
             ∧ s = join (js ",") (map range_text ranges))
  ∧ normalizeRecentPortSet (VStr s) = s.
Proof.
  cbv zeta. unfold normalizeRecentPortSet.
  destruct (port_set_loop _ []) as [texts|] eqn:Hl; [|done]. intros _.
  apply port_set_loop_Some in Hl as (Hnd & Hok & Hne); [|constructor|constructor].
  specialize (Hne (or_introl (split_on_nonnil _ _))).
  assert (∃ ranges, Forall port_range ranges ∧ texts = map range_text ranges) as (ranges & Hr & ->).
  { clear Hnd Hne. induction Hok as [|t texts (r & Hr & ->) _ (rs & Hrs & ->)]; [by exists []|].
    exists (r :: rs). split; [by constructor|done]. }
  split; [by exists ranges|].
  assert (Forall (Forall port_text_unit) (map range_text ranges)) as Hunits.
  { apply Forall_map. eapply Forall_weaken; [|exact Hr]. apply range_text_units. }
  rewrite str_of_VStr. rewrite trim_no_ws.
  2:{ unfold no_ws. apply join_Forall; [by repeat constructor|].
      eapply Forall_weaken; [|exact Hunits]. apply port_text_no_ws. }
  change (js ",") with [44]. rewrite split_join; [|done|].
  2:{ eapply Forall_weaken; [|exact Hunits]. intros w Hw Hin.
      rewrite Forall_forall in Hw. by destruct (Hw _ Hin). }
  rewrite (port_set_loop_id _ []) by done. done.
Qed.

Lemma normalizeRecentPortSet_canonical_witness :
  normalizeRecentPortSet (VStr (normalizeRecentPortSet (vstr " 80, 0443 ,8000 - 8080,80-80")))
  = js "80,443,8000-8080".
Proof.
  rewrite (proj2 (normalizeRecentPortSet_canonical (vstr " 80, 0443 ,8000 - 8080,80-80")
                    ltac:(vm_compute; discriminate))).
  vm_compute. reflexivity.
Defined.

(** The recent-value list never repeats a value, keeps at most ten values
    of a kind, and holds only non-empty values of the four known kinds,
    whatever was stored. *)
Theorem normalizeRecentValueList_ok `{U : UrlApi} items :
  recents_ok (normalizeRecentValueList items).
Proof.
  unfold normalizeRecentValueList.
  assert (∀ l acc, recents_ok acc → recents_ok (fold_left push_recent l acc)) as H.
  { induction l as [|x l IH]; intros acc Hacc; cbn; [done|]. by apply IH, push_recent_ok. }
  apply H. constructor; [constructor|intros; cbn; lia|constructor].
Qed.

(** The completion offered for several candidates is their longest common
    prefix up to case: it is a prefix of every candidate, and no longer prefix
    of the first candidate is. *)
Theorem sharedPrefix_longest first rest :
  completionPrefix first = [] →
  let p := sharedPrefix (VArr (first :: rest)) in
  p `prefix_of` itemInsertValue first
  ∧ Forall (λ i, lower p `prefix_of` lower (itemInsertValue i)) (first :: rest)
  ∧ ∀ q, q `prefix_of` itemInsertValue first →
      Forall (λ i, lower q `prefix_of` lower (itemInsertValue i)) rest → q `prefix_of` p.
Proof.
  intros Hcp. cbv zeta. unfold sharedPrefix. cbn [items_of]. rewrite Hcp. cbn [nonempty andb].
  set (a := itemInsertValue first).
  assert (∀ k, (k ≤ length a)%nat → take k a `prefix_of` a) as Htk by (intros; apply prefix_take).
  destruct (nonempty a) eqn:Hne; cbn [negb].
  - destruct (shared_end_spec (lower a) (map (λ i, lower (itemInsertValue i)) rest) (length a))
      as (H1 & H2 & H3); [by rewrite lower_length|].
    set (k := shared_end _ _ _) in *. split; [by apply Htk|]. split.
    + rewrite lower_take. constructor; [apply prefix_take|]. exact (proj1 (Forall_map _ _ _) H2).
    + intros q [r Hr] Hq. assert (take (length q) a = q) as Hq' by (rewrite Hr; apply take_app_length).
      assert (length q ≤ k)%nat as Hlen.
      { apply H3; [rewrite Hr, length_app; lia|]. apply Forall_map. eapply Forall_weaken; [|exact Hq].
        intros i Hi. by rewrite <-Hq', lower_take in Hi. }
      rewrite <-Hq'. replace (take (length q) a) with (take (length q) (take k a))
        by (rewrite take_take; f_equal; lia). apply prefix_take.
  - apply nonempty_false in Hne. rewrite Hne. split; [apply prefix_nil|].
    split; [apply Forall_forall; intros; apply prefix_nil|]. by intros q ->%prefix_nil_inv _.
Qed.

Lemma sharedPrefix_longest_witness :
  sharedPrefix (VArr [vstr "Nmap -sV"; vstr "nmap -sC"]) `prefix_of` itemInsertValue (vstr "Nmap -sV")
  ∧ js "Nmap" `prefix_of` sharedPrefix (VArr [vstr "Nmap -sV"; vstr "nmap -sC"]).
Proof.
  destruct (sharedPrefix_longest (vstr "Nmap -sV") [vstr "nmap -sC"]) as (H1 & _ & H3); [reflexivity|].
  split; [exact H1|]. apply H3.
  - by exists (js " -sV").
  - constructor; [by exists (js " -sc")|constructor].
Defined.
