(* ===== verification/SessionCore.v ===== *)
(** Session identity (app/static/js/core/session_core.js): random ids, stored
    identity, public ids of credentials, error texts and identity headers. *)

From stdpp Require Import gmap.
From S2P Require Import Prelude JsString JsNumber JsRegExp JsValue JsJson.

(** ** Definitions *)

(** *** Random ids *)

(** A crypto object: what [randomUUID] returns ([None]: it throws), and the
    sixteen bytes [getRandomValues] writes; each may be missing. *)
Record crypto_api := CryptoApi
  { cr_randomUUID : option (option jsstr); cr_getRandomValues : option (list Z) }.

Definition _cryptoApi (preferred ambient : option crypto_api) : option crypto_api :=
  match preferred with Some c => Some c | None => ambient end.

(** [value.toString(16)] of a byte. *)
Definition byte_hex (b : Z) : jsstr :=
  if b <? 16 then [hex_digit b] else [hex_digit (b / 16); hex_digit (b mod 16)].

Definition stamp (i : nat) (b : Z) : Z :=
  if (i =? 6)%nat then Z.lor (Z.land b 15) 64
  else if (i =? 8)%nat then Z.lor (Z.land b 63) 128 else b.

(** The id spelled by sixteen random bytes. *)
Definition uuid_of_bytes (random : list Z) : jsstr :=
  let bytes := imap stamp random in
  let hex := map (λ b, pad_start 2 48 (byte_hex b)) bytes in
  let part i j := concat (take (j - i) (drop i hex)) in
  part 0%nat 4%nat ++ js "-" ++ part 4%nat 6%nat ++ js "-" ++ part 6%nat 8%nat ++ js "-"
  ++ part 8%nat 10%nat ++ js "-" ++ part 10%nat (length hex).

Inductive crypto_error := RandomUnavailable.

Definition generateUUID (preferredCrypto ambient : option crypto_api) : crypto_error + jsstr :=
  let primary := _cryptoApi preferredCrypto ambient in
  match (primary ≫= cr_randomUUID) ≫= id with
  | Some uuid => inr uuid
  | None =>
      let fallback := match primary ≫= cr_getRandomValues with
                      | Some _ => primary
                      | None => _cryptoApi None ambient
                      end in
      match fallback ≫= cr_getRandomValues with
      | Some random => inr (uuid_of_bytes random)
      | None => inl RandomUnavailable
      end
  end.

(** *** Stored identity *)

Notation storage := (gmap jsstr jsstr).

Definition getOrCreateStorageValue (st : storage) (key created : jsstr) : jsstr * storage :=
  match st !! key with
  | Some value => if nonempty value then (value, st) else (created, <[key := created]> st)
  | None => (created, <[key := created]> st)
  end.

Definition CREDENTIAL_RE : regexp := Eval vm_compute in
  lit "^(?:dlc_v1_(crd_[0-9a-f]{32})|dlp_v1_(pat_[0-9a-f]{32}))_[A-Za-z0-9_-]{43}$" false.

Definition credentialPublicId (secret : jsval) : jsstr :=
  let text := trim (str_of secret) in
  match exec CREDENTIAL_RE text with
  | Some m => lower (str_or (group_or 1 text m) (group_or 2 text m))
  | None => []
  end.

Inductive identity :=
  | Credential (secret publicId : jsstr)
  | Anonymous (anonymousId publicId : jsstr).

Definition resolveBrowserIdentity (st : storage) (anonymousId : jsval) : identity :=
  let secret := default [] (st !! js "access_credential") in
  if nonempty secret then
    let publicId := credentialPublicId (VStr secret) in
    Credential secret (if starts_with (js "crd_") publicId then publicId else js "credential-invalid")
  else Anonymous (str_of anonymousId) (str_of anonymousId).

(** *** Messages and headers *)

Definition describeFetchError (err : jsval) (context : jsstr) : jsstr :=
  let offlineMessage :=
    js "Unable to contact the " ++ context
    ++ js " right now. Please try again in a moment. If this keeps happening, contact the shell operator." in
  let message := match get err (js "message") with VStr s => trim s | _ => [] end in
  if negb (nonempty message) then offlineMessage else
  let low := lower message in
  if includes (js "networkerror") low || includes (js "failed to fetch") low
     || includes (js "network down") low || includes (js "load failed") low
  then offlineMessage
  else js "Request to the " ++ context ++ js " failed: " ++ message.

Definition is_identity_header (name : jsstr) : bool :=
  bool_decide (lower name ∈ map js ["x-darklab-credential"; "x-darklab-anonymous-id"]%string).

(** The request options: their properties, with the new [headers]. *)
Definition identity_headers (headers : props) (ident : option identity) (clientId : jsval) : props :=
  let headers := filterb (λ p, negb (is_identity_header (fst p))) headers in
  let headers :=
    match ident with
    | None => set_prop (js "X-Darklab-Anonymous-ID") (VStr []) headers
    | Some (Anonymous anonymousId _) =>
        set_prop (js "X-Darklab-Anonymous-ID") (VStr anonymousId) headers
    | Some (Credential _ _) => headers
    end in
  set_prop (js "X-Client-ID") clientId headers.
Definition withIdentityHeaders (options : props) (ident : option identity) (clientId : jsval) : props :=
  let headers := spread [] (props_of (get (VObj options) (js "headers"))) in
  set_prop (js "headers") (VObj (identity_headers headers ident clientId)) options.

(** ** Lemmas *)

Definition is_hex (c : Z) : bool := is_digit c || ((97 <=? c) && (c <=? 102)).

Lemma hex_digit_hex n : 0 ≤ n < 16 → is_hex (hex_digit n) = true.
Proof.
  intros Hn. unfold hex_digit, is_hex, is_digit. destruct (Z.ltb_spec n 10); lia.
Qed.

(** Two hexadecimal digits of a byte. *)
Lemma byte_text b :
  0 ≤ b < 256 → pad_start 2 48 (byte_hex b) = [hex_digit (b / 16); hex_digit (b mod 16)].
Proof.
  intros Hb. unfold byte_hex. destruct (Z.ltb_spec b 16); [|done].
  by rewrite Z.div_small, Z.mod_small by lia.
Qed.

Lemma stamp_version b : 0 ≤ b < 256 → 64 ≤ stamp 6 b < 80.
Proof.
  intros Hb. cbn.
  assert (forallb (λ b, let s := Z.lor (Z.land b 15) 64 in (64 <=? s) && (s <? 80))
            (map Z.of_nat (seq 0 256)) = true) as H by (vm_compute; reflexivity).
  rewrite forallb_forall in H. specialize (H b). cbv zeta in H.
  assert (In b (map Z.of_nat (seq 0 256))) as Hin
    by (apply in_map_iff; exists (Z.to_nat b); rewrite in_seq; lia).
  specialize (H Hin). lia.
Qed.

Lemma stamp_variant b : 0 ≤ b < 256 → 128 ≤ stamp 8 b < 192.
Proof.
  intros Hb. cbn.
  assert (forallb (λ b, let s := Z.lor (Z.land b 63) 128 in (128 <=? s) && (s <? 192))
            (map Z.of_nat (seq 0 256)) = true) as H by (vm_compute; reflexivity).
  rewrite forallb_forall in H. specialize (H b). cbv zeta in H.
  assert (In b (map Z.of_nat (seq 0 256))) as Hin
    by (apply in_map_iff; exists (Z.to_nat b); rewrite in_seq; lia).
  specialize (H Hin). lia.
Qed.

Definition hexes (l : list Z) : jsstr := flat_map (λ b, [hex_digit (b / 16); hex_digit (b mod 16)]) l.

Lemma hexes_hex l :
  Forall (λ b, 0 ≤ b < 256) l → Forall (λ c, is_hex c = true) (hexes l).
Proof.
  induction 1 as [|b l Hb _ IH]; cbn; [constructor|].
  constructor; [apply hex_digit_hex; split; [apply Z.div_pos; lia|apply Z.div_lt_upper_bound; lia]|].
  constructor; [apply hex_digit_hex, Z.mod_pos_bound; lia|done].
Qed.

(** The layout of a random id: 8-4-4-4-12 digits, a version and a variant. *)
Definition uuid_v4 (u : jsstr) : Prop :=
  ∃ a b c v d e,
    u = a ++ js "-" ++ b ++ js "-4" ++ c ++ js "-" ++ [v] ++ d ++ js "-" ++ e
    ∧ map length [a; b; c; d; e] = [8; 4; 3; 3; 12]%nat ∧ v ∈ js "89ab"
    ∧ Forall (λ c, is_hex c = true) (a ++ b ++ c ++ d ++ e).

Lemma uuid_of_bytes_v4 random :
  length random = 16%nat → Forall (λ b, 0 ≤ b < 256) random → uuid_v4 (uuid_of_bytes random).
Proof.
  intros Hl Hb.
  destruct random as [|r0 [|r1 [|r2 [|r3 [|r4 [|r5 [|r6 [|r7 [|r8 [|r9 [|r10 [|r11 [|r12 [|r13
    [|r14 [|r15 [|]]]]]]]]]]]]]]]]]; try discriminate Hl.
  rewrite !Forall_cons in Hb. destruct_and!.
  pose proof (stamp_version r6 ltac:(done)). pose proof (stamp_variant r8 ltac:(done)).
  unfold uuid_of_bytes.
  change (imap stamp _) with
    [r0; r1; r2; r3; r4; r5; stamp 6 r6; r7; stamp 8 r8; r9; r10; r11; r12; r13; r14; r15].
  cbn [map]. rewrite !byte_text by lia. generalize dependent (stamp 6 r6). intros s6 Hs6.
  generalize dependent (stamp 8 r8). intros s8 Hs8.
  exists (hexes [r0; r1; r2; r3]), (hexes [r4; r5]),
    (hex_digit (s6 mod 16) :: hexes [r7]), (hex_digit (s8 / 16)),
    (hex_digit (s8 mod 16) :: hexes [r9]), (hexes [r10; r11; r12; r13; r14; r15]).
  assert (s6 / 16 = 4) as Hdiv6 by (symmetry; apply (Z.div_unique _ _ _ (s6 - 64)); lia).
  split; [cbn [take drop concat Nat.sub length]; rewrite Hdiv6; reflexivity|].
  split; [reflexivity|]. split.
  - assert (8 ≤ s8 / 16 < 12) as Hv
      by (split; [apply Z.div_le_lower_bound; lia|apply Z.div_lt_upper_bound; lia]).
    revert Hv. generalize (s8 / 16). intros v Hv.
    assert (v = 8 ∨ v = 9 ∨ v = 10 ∨ v = 11) as [->|[->|[->| ->]]] by lia;
      apply (bool_decide_unpack _); vm_compute; exact I.
  - pose proof (Z.mod_pos_bound s6 16 ltac:(done)). pose proof (Z.mod_pos_bound s8 16 ltac:(done)).
    rewrite !Forall_app. split_and!; try (apply hexes_hex; rewrite !Forall_cons; split_and!; done).
    + constructor; [by apply hex_digit_hex|apply hexes_hex; by rewrite Forall_cons].
    + constructor; [by apply hex_digit_hex|apply hexes_hex; by rewrite Forall_cons].
Qed.

Lemma own_filter_none (P : jsstr → bool) o k :
  P k = false → own (filterb (λ p, P (fst p)) o) k = None.
Proof.
  intros Hk. apply own_None. intros ([k' v] & -> & Hin)%list_elem_of_fmap. cbn in *.
  apply elem_of_filterb in Hin as [Hp _]. cbn in Hp. congruence.
Qed.

Lemma own_filter_keep (P : jsstr → bool) o k :
  P k = true → own (filterb (λ p, P (fst p)) o) k = own o k.
Proof.
  intros Hk. induction o as [|[k' v] o IH]; cbn; [done|].
  destruct (P k') eqn:Hp; cbn.
  - by rewrite IH.
  - rewrite IH, bool_decide_false; [done|]. congruence.
Qed.

#[export] Hint Resolve uuid_of_bytes_v4 : darklab.

(** ** Properties *)

(** When no generator of ids answers (missing, or it throws), the id made
    from sixteen random bytes is a version 4, variant 1 UUID: the two stamped
    fields are right whatever the bytes, and the rest is lower-case hexadecimal
    in the 8-4-4-4-12 layout. *)
Theorem generateUUID_v4 preferred ambient c random :
  _cryptoApi preferred ambient = Some c → cr_randomUUID c ≫= id = None →
  cr_getRandomValues c = Some random →
  length random = 16%nat → Forall (λ b, 0 ≤ b < 256) random →
  ∃ u, generateUUID preferred ambient = inr u ∧ uuid_v4 u.
Proof.
  intros Hc Hp Hr Hl Hb. exists (uuid_of_bytes random). split; [|by apply uuid_of_bytes_v4].
  unfold generateUUID. rewrite Hc. cbn. rewrite Hp, Hr. cbn. by rewrite Hr.
Qed.

Lemma generateUUID_v4_witness :
  ∃ u, generateUUID (Some (CryptoApi (Some None) (Some (repeat 255 16)))) None = inr u ∧ uuid_v4 u.
Proof.
  apply (generateUUID_v4 _ _ (CryptoApi (Some None) (Some (repeat 255 16))) (repeat 255 16));
    [reflexivity..|].
  repeat constructor; lia.
Defined.

(** No request carries a stale identity: whatever headers the caller
    passed, in any letter case, the headers sent hold no credential and the
    anonymous id of the current identity only, the client id is set, and every
    other header and option is left as it was. *)
Theorem withIdentityHeaders_spec options ident clientId :
  let out := withIdentityHeaders options ident clientId in
  let headers := spread [] (props_of (get (VObj options) (js "headers"))) in
  let sent := props_of (get (VObj out) (js "headers")) in
  (∀ k, is_identity_header k = true →
     own sent k = if k ==s js "X-Darklab-Anonymous-ID" then
                    match ident with
                    | None => Some (VStr [])
                    | Some (Anonymous i _) => Some (VStr i)
                    | Some (Credential _ _) => None
                    end
                  else None)
  ∧ own sent (js "X-Client-ID") = Some clientId
  ∧ (∀ k, is_identity_header k = false → k ≠ js "X-Client-ID" → own sent k = own headers k)
  ∧ ∀ k, k ≠ js "headers" → own out k = own options k.
Proof.
  cbv zeta. set (headers := spread [] _). unfold withIdentityHeaders. fold headers.
  assert (∀ h, get (VObj (set_prop (js "headers") (VObj h) options)) (js "headers") = VObj h) as ->.
  { intros h. cbn. unfold table_get. by rewrite own_set_eq. }
  cbn [props_of]. unfold identity_headers.
  set (kept := filterb _ headers).
  assert (is_identity_header (js "X-Darklab-Anonymous-ID") = true) as Hanon by reflexivity.
  assert (is_identity_header (js "X-Client-ID") = false) as Hcl by reflexivity.
  assert (∀ k, is_identity_header k = true → own kept k = None) as Hnone
    by (intros k Hk; unfold kept; rewrite (own_filter_none (λ k, negb (is_identity_header k)));
        [done|by rewrite Hk]).
  assert (∀ k, is_identity_header k = false → own kept k = own headers k) as Hkeep
    by (intros k Hk; unfold kept; rewrite (own_filter_keep (λ k, negb (is_identity_header k)));
        [done|by rewrite Hk]).
  split; [|split; [|split]].
  - intros k Hk. rewrite own_set_ne by congruence. case_bool_decide as Hka.
    + subst k. destruct ident as [[]|]; rewrite ?own_set_eq; auto.
    + destruct ident as [[]|]; rewrite ?own_set_ne by done; auto.
  - apply own_set_eq.
  - intros k Hk Hkc. rewrite own_set_ne by done.
    destruct ident as [[]|]; rewrite ?own_set_ne by congruence; auto.
  - intros k Hk. by rewrite own_set_ne.
Qed.

(** A stored value is stable: the first call may create it, and every later
    call returns it and leaves the storage alone. *)
Theorem getOrCreateStorageValue_stable st key created created' :
  created ≠ [] →
  let '(v, st') := getOrCreateStorageValue st key created in
  getOrCreateStorageValue st' key created' = (v, st')
  ∧ (∀ k, k ≠ key → st' !! k = st !! k) ∧ st' !! key = Some v ∧ v ≠ [].
Proof.
  intros Hc. unfold getOrCreateStorageValue at 1.
  destruct (st !! key) as [v|] eqn:Hv; [destruct (nonempty v) eqn:Hne|].
  - apply nonempty_spec in Hne as Hne'. unfold getOrCreateStorageValue. rewrite Hv, Hne. done.
  - unfold getOrCreateStorageValue. rewrite lookup_insert_eq.
    apply nonempty_spec in Hc as Hc'. rewrite Hc'. split; [done|]. split; [|done].
    intros k Hk. by rewrite lookup_insert_ne.
  - unfold getOrCreateStorageValue. rewrite lookup_insert_eq.
    apply nonempty_spec in Hc as Hc'. rewrite Hc'. split; [done|]. split; [|done].
    intros k Hk. by rewrite lookup_insert_ne.
Qed.

Lemma getOrCreateStorageValue_stable_witness :
  getOrCreateStorageValue (snd (getOrCreateStorageValue ∅ (js "session_id") (js "a"))) (js "session_id") (js "b")
  = (js "a", snd (getOrCreateStorageValue ∅ (js "session_id") (js "a"))).
Proof.
  exact (proj1 (getOrCreateStorageValue_stable ∅ (js "session_id") (js "a") (js "b") ltac:(discriminate))).
Defined.
