(* ===== verification/Utils.v ===== *)
(** Shared text helpers (app/static/js/core/utils.js): escaping, redaction
    rules, omission of raw-only output and the notice markup. *)

From S2P Require Import Prelude JsString JsNumber JsRegExp JsValue.

(** ** Definitions *)

Definition replace_char (c : Z) (r : string) (s : jsstr) : jsstr :=
  flat_map (λ d, if d =? c then js r else [d]) s.
Definition escapeHtml (t : jsstr) : jsstr :=
  replace_char (cu ">") "&gt;" (replace_char (cu "<") "&lt;" (replace_char (cu "&") "&amp;" t)).

(** [/[.*+?^${}()|[\]\\]/g], replaced by [\$&]. *)
Definition is_regex_meta (c : Z) : bool := bool_decide (c ∈ js ".*+?^${}()|[]\").
Definition escapeRegex (s : jsstr) : jsstr :=
  flat_map (λ c, if is_regex_meta c then [92; c] else [c]) s.

(** *** Redaction *)

(** Regular expressions a server configures: compiled, or rejected. *)
Class RegExpEngine := {
  rx_type : Type;
  rx_new : jsstr → jsstr → option rx_type;            (* pattern, flags; [None]: it throws *)
  rx_replace : rx_type → jsstr → jsstr → jsstr        (* [s.replace(regex, replacement)], global *)
}.
(** The expressions of [JsRegExp]. *)
Definition js_engine : RegExpEngine := {|
  rx_type := regexp;
  rx_new p f := mk_regexp p (has_unit (cu "i") f) (has_unit (cu "m") f);
  rx_replace re r s := replace_all re (replace_template r re s) s
|}.

Section Redaction.
Context `{E : RegExpEngine}.

Record redaction_rule := RedactionRule
  { rr_label : jsstr; rr_pattern : jsstr; rr_replacement : jsstr; rr_flags : jsstr;
    rr_regex : rx_type }.

Definition is_rule_flag (c : Z) : bool := (c =? cu "i") || (c =? cu "m").

Definition normalize_rule (rule : jsval) : option redaction_rule :=
  if negb (is_objectlike rule) then None else
  let pattern := default [] (as_string (get rule (js "pattern"))) in
  if negb (nonempty (trim pattern)) then None else
  let replacement := default (js "[redacted]") (as_string (get rule (js "replacement"))) in
  let flags := match as_string (get rule (js "flags")) with
               | Some f => dedup (filterb is_rule_flag (lower f))
               | None => []
               end in
  match rx_new pattern (js "g" ++ flags) with
  | Some regex =>
      Some (RedactionRule (default [] (trim <$> as_string (get rule (js "label"))))
                          pattern replacement flags regex)
  | None => None
  end.
Definition normalizeRedactionRules (rules : jsval) : list redaction_rule :=
  omap normalize_rule (items_of rules).

Definition apply_rule (value : jsstr) (rule : redaction_rule) : jsstr :=
  rx_replace (rr_regex rule) (rr_replacement rule) value.
Definition applyRedactionRules (text rules : jsval) : jsstr :=
  fold_left apply_rule (normalizeRedactionRules rules) (str_of_nullish text).

Definition redact_entry (rules item : jsval) : option jsval :=
  match item with
  | VStr _ =>
      (* an emptied line is dropped by [filter(Boolean)] *)
      let text := applyRedactionRules item rules in
      if nonempty text then Some (VStr text) else None
  | _ =>
      match is_objectlike item, get item (js "text") with
      | true, VStr s =>
          Some (VObj (set_prop (js "text") (VStr (applyRedactionRules (VStr s) rules))
                               (spread_value item)))
      | _, _ => None
      end
  end.
Definition redactLineEntries (entries rules : jsval) : list jsval :=
  omap (redact_entry rules) (items_of entries).
End Redaction.

(** *** Raw-only output *)

Definition RAW_ONLY_INTEL_PLACEHOLDER : jsstr := js "Intel data omitted from share".

Definition _isRawOnlyIntelEntry (item : jsval) : bool :=
  is_objectlike item && (lower (trim (str_of (get item (js "command_root")))) ==s js "intel").

Definition _rawOnlyPlaceholderEntry (source : jsval) : jsval :=
  VObj ([(js "text", VStr RAW_ONLY_INTEL_PLACEHOLDER); (js "cls", vstr "notice");
         (js "raw_only", VBool true); (js "command_root", vstr "intel")]
        ++ (match get source (js "tsC") with VStr s => [(js "tsC", VStr s)] | _ => [] end)
        ++ (match get source (js "tsE") with VStr s => [(js "tsE", VStr s)] | _ => [] end)
        ++ (if is_int (get source (js "line_number"))
            then [(js "line_number", get source (js "line_number"))] else [])).

Definition copy_entry (item : jsval) : list jsval :=
  match item with
  | VStr _ => [item]
  | VObj _ | VArr _ => [VObj (spread_value item)]
  | _ => []
  end.

(** The loop: [in_group] is [inIntelGroup]. *)
Fixpoint omit_loop (in_group : bool) (entries : list jsval) : list jsval :=
  match entries with
  | [] => []
  | item :: entries =>
      if _isRawOnlyIntelEntry item
      then (if in_group then [] else [_rawOnlyPlaceholderEntry item]) ++ omit_loop true entries
      else copy_entry item ++ omit_loop false entries
  end.
Definition omitRawOnlyLineEntries (entries : jsval) : list jsval :=
  omit_loop false (items_of entries).

(** *** The notice *)

Definition MOTD_BOLD_RE : regexp := Eval vm_compute in lit "\*\*(.+?)\*\*" false.
Definition MOTD_CODE_RE : regexp := Eval vm_compute in lit "`([^`]+)`" false.
Definition MOTD_LINK_RE : regexp := Eval vm_compute in lit "\[([^\]]+)\]\((https?:\/\/[^)]+)\)" false.
Definition MOTD_LINK_TEMPLATE : jsstr :=
  js "<a href=" ++ [34] ++ js "$2" ++ [34] ++ js " target=" ++ [34] ++ js "_blank" ++ [34]
  ++ js " rel=" ++ [34] ++ js "noopener" ++ [34] ++ js ">$1</a>".
Definition replace_tpl (re : regexp) (tpl s : jsstr) : jsstr :=
  replace_all re (replace_template tpl re s) s.

Definition renderMotd (text : jsstr) : jsstr :=
  replace_char 10 "<br>"
    (replace_tpl MOTD_LINK_RE MOTD_LINK_TEMPLATE
      (replace_tpl MOTD_CODE_RE (js "<code>$1</code>")
        (replace_tpl MOTD_BOLD_RE (js "<strong>$1</strong>") (escapeHtml text)))).

(** ** Lemmas: escaped patterns are literal *)

Definition unit_rx (c : Z) : rx := Cls false [CRange c c].
Fixpoint literal_rx (s : jsstr) : rx :=
  match s with
  | [] => Eps
  | [c] => unit_rx c
  | c :: s => Seq (unit_rx c) (literal_rx s)
  end.

Definition esc (c : Z) : jsstr := if is_regex_meta c then [92; c] else [c].

Lemma is_regex_meta_spec c :
  is_regex_meta c = true ↔ c ∈ [46; 42; 43; 63; 94; 36; 123; 125; 40; 41; 124; 91; 93; 92].
Proof. unfold is_regex_meta. by rewrite bool_decide_eq_true. Qed.

(** No escaped text starts with a quantifier. *)
Lemma quant_start_escape s : is_quant_start (flat_map esc s) = false.
Proof.
  destruct s as [|c s]; [done|]. cbn [flat_map]. unfold esc at 1.
  destruct (is_regex_meta c) eqn:Hm; [done|].
  assert (c ≠ 42 ∧ c ≠ 43 ∧ c ≠ 63 ∧ c ≠ 123) as (H1 & H2 & H3 & H4).
  { split_and!; intros ->; done. }
  cbn [app is_quant_start]. clear Hm. repeat case_match; congruence || done.
Qed.

Lemma parse_quant_escape r s : parse_quant r (flat_map esc s) = (r, flat_map esc s).
Proof.
  pose proof (quant_start_escape s) as Hq. destruct (flat_map esc s) as [|c t]; [done|].
  unfold parse_quant. unfold is_quant_start in Hq.
  repeat (case_match; try done).
Qed.

Lemma literal_rx_cons c s :
  literal_rx (c :: s) = match literal_rx s with Eps => unit_rx c | r => Seq (unit_rx c) r end.
Proof. destruct s as [|d [|]]; done. Qed.

Definition seq_unit (c : Z) (res : option (rx * nat * jsstr)) : option (rx * nat * jsstr) :=
  match res with
  | Some (Eps, n, s) => Some (unit_rx c, n, s)
  | Some (r, n, s) => Some (Seq (unit_rx c) r, n, s)
  | None => None
  end.

Lemma parse_seq_quantified fuel n r rest :
  is_quant_start rest = false → (∀ r, parse_quant r rest = (r, rest)) →
  (let '(r, s) := parse_quant r rest in
   if is_quant_start s then None else
   match parse_seq fuel n s with
   | Some (Eps, n', s') => Some (r, n', s')
   | Some (r', n', s') => Some (Seq r r', n', s')
   | None => None
   end)
  = match parse_seq fuel n rest with
    | Some (Eps, n', s') => Some (r, n', s')
    | Some (r', n', s') => Some (Seq r r', n', s')
    | None => None
    end.
Proof. intros Hq Hp. rewrite Hp, Hq. done. Qed.

Lemma parse_seq_meta fuel n c rest :
  is_regex_meta c = true → is_quant_start rest = false → (∀ r, parse_quant r rest = (r, rest)) →
  parse_seq (S fuel) n (92 :: c :: rest) = seq_unit c (parse_seq fuel n rest).
Proof.
  intros Hc Hq Hp. apply is_regex_meta_spec in Hc.
  rewrite !elem_of_cons in Hc.
  repeat destruct Hc as [->|Hc]; try (by apply not_elem_of_nil in Hc);
    exact (parse_seq_quantified fuel n (unit_rx _) rest Hq Hp).
Qed.

Lemma parse_seq_plain fuel n c rest :
  is_regex_meta c = false → is_quant_start rest = false → (∀ r, parse_quant r rest = (r, rest)) →
  parse_seq (S fuel) n (c :: rest) = seq_unit c (parse_seq fuel n rest).
Proof.
  intros Hc Hq Hp.
  assert (∀ d, is_regex_meta d = true → c ≠ d) as Hne by (intros d Hd ->; congruence).
  pose proof (parse_seq_quantified fuel n (unit_rx c) rest Hq Hp) as Hgoal.
  assert (is_quant_start (c :: rest) = false) as Hqs.
  { pose proof (quant_start_escape [c]) as H. cbn in H. unfold esc in H. rewrite Hc in H.
    clear -H Hne. pose proof (Hne 123 eq_refl). unfold is_quant_start in *. cbn in H.
    repeat case_match; congruence || done. }
  cbn [parse_seq]. rewrite Hqs.
  pose proof (Hne 94 eq_refl); pose proof (Hne 36 eq_refl); pose proof (Hne 40 eq_refl);
  pose proof (Hne 46 eq_refl); pose proof (Hne 91 eq_refl); pose proof (Hne 92 eq_refl);
  pose proof (Hne 41 eq_refl); pose proof (Hne 124 eq_refl).
  clear Hne Hc Hqs.
  destruct c as [|p|p]; [exact Hgoal| |exact Hgoal].
  do 7 (destruct p as [p|p|]; try solve [congruence | exact Hgoal]).
Qed.

Lemma seq_unit_literal c s n :
  seq_unit c (Some (literal_rx s, n, [])) = Some (literal_rx (c :: s), n, []).
Proof. rewrite literal_rx_cons. cbn. by destruct (literal_rx s). Qed.

Lemma parse_escaped s fuel n :
  (length (flat_map esc s) < fuel)%nat →
  parse_seq fuel n (flat_map esc s) = Some (literal_rx s, n, []).
Proof.
  revert fuel. induction s as [|c s IH]; intros fuel Hf.
  - destruct fuel; [cbn in Hf; lia|done].
  - cbn [flat_map] in *. rewrite length_app in Hf.
    destruct fuel as [|fuel]; [lia|].
    assert (parse_seq fuel n (flat_map esc s) = Some (literal_rx s, n, [])) as Hs.
    { apply IH. unfold esc at 1 in Hf. destruct (is_regex_meta c); cbn in Hf; lia. }
    unfold esc at 1. destruct (is_regex_meta c) eqn:Hc; cbn [app].
    + rewrite parse_seq_meta, Hs by (auto using quant_start_escape, parse_quant_escape).
      apply seq_unit_literal.
    + rewrite parse_seq_plain, Hs by (auto using quant_start_escape, parse_quant_escape).
      apply seq_unit_literal.
Qed.

Lemma mk_regexp_escaped s icase multi :
  mk_regexp (escapeRegex s) icase multi = Some (RegExp (literal_rx s) icase multi).
Proof.
  unfold mk_regexp. change (escapeRegex s) with (flat_map esc s).
  replace (2 * length (flat_map esc s) + 2)%nat
    with (S (S (2 * length (flat_map esc s)))) by lia.
  cbn [parse_alt]. rewrite parse_escaped by lia. done.
Qed.

Lemma literal_rx_plain s : plain_rx (literal_rx s) = true.
Proof. induction s as [|c s IH]; [done|]. rewrite literal_rx_cons. by destruct (literal_rx s). Qed.

Lemma lang_literal s u : lang false (literal_rx s) u ↔ u = s.
Proof.
  assert (∀ c v, lang false (unit_rx c) v ↔ v = [c]) as Hunit.
  { intros c v. cbn [lang unit_rx]. split.
    - intros (d & -> & Hd). unfold cls_has, items_have in Hd. cbn in Hd. f_equal. lia.
    - intros ->. exists c. split; [done|]. unfold cls_has, items_have. cbn. lia. }
  revert u. induction s as [|c s IH]; intros u; [done|].
  assert (lang false (literal_rx (c :: s)) u ↔
          ∃ u1 u2, u = u1 ++ u2 ∧ lang false (unit_rx c) u1 ∧ lang false (literal_rx s) u2) as ->.
  { destruct s as [|d s]; [|done]. cbn [literal_rx]. split.
    - intros H. exists u, []. by rewrite app_nil_r.
    - intros (u1 & u2 & -> & H1 & ->). by rewrite app_nil_r. }
  split.
  - intros (u1 & u2 & -> & ->%Hunit & ->%IH). done.
  - intros ->. exists [c], s. split; [done|]. split; [by apply Hunit|by apply IH].
Qed.

(** ** Lemmas: raw-only output *)

Lemma placeholder_raw src : _isRawOnlyIntelEntry (_rawOnlyPlaceholderEntry src) = true.
Proof. reflexivity. Qed.

Lemma own_indexed l k (i : nat) :
  is_digit (default 48 (head k)) = false → own (imap (λ j x, (str_of_nat (i + j), x)) l) k = None.
Proof.
  intros Hk. apply own_None. intros ([k' v] & -> & Hin)%list_elem_of_fmap. cbn in *.
  apply elem_of_lookup_imap in Hin as (j & y & [= -> ->] & _).
  pose proof (str_of_Z_digits (Z.of_nat (i + j)) ltac:(lia)) as Hd. unfold str_of_nat in Hk.
  pose proof (str_of_Z_ne (Z.of_nat (i + j))).
  destruct (str_of_Z _); [done|]. cbn in Hk. inversion Hd. congruence.
Qed.

Lemma copy_entry_not_raw item e :
  _isRawOnlyIntelEntry item = false → e ∈ copy_entry item → _isRawOnlyIntelEntry e = false.
Proof.
  intros Hr He. destruct item; cbn in He; try (by apply not_elem_of_nil in He);
    apply list_elem_of_singleton in He; subst e; [done| |done].
  unfold _isRawOnlyIntelEntry. cbn [is_objectlike andb get].
  unfold table_get. pose proof (own_indexed l (js "command_root") 0 eq_refl) as Hown.
  cbn [Nat.add spread_value] in *. rewrite Hown. done.
Qed.

(** How many groups of consecutive intel entries there are. *)
Fixpoint intel_groups (in_group : bool) (entries : list jsval) : nat :=
  match entries with
  | [] => 0
  | item :: entries =>
      if _isRawOnlyIntelEntry item
      then (if in_group then 0 else 1) + intel_groups true entries
      else intel_groups false entries
  end.

Lemma omit_loop_spec b entries :
  filterb (λ e, negb (_isRawOnlyIntelEntry e)) (omit_loop b entries)
  = flat_map copy_entry (filterb (λ e, negb (_isRawOnlyIntelEntry e)) entries)
  ∧ length (filterb _isRawOnlyIntelEntry (omit_loop b entries)) = intel_groups b entries.
Proof.
  revert b. induction entries as [|item entries IH]; intros b; [done|]. cbn [omit_loop intel_groups filterb].
  destruct (_isRawOnlyIntelEntry item) eqn:Hr; cbn [negb].
  - destruct (IH true) as [IH1 IH2]. rewrite !filterb_app, IH1, length_app, IH2.
    destruct b; cbn [filterb]; rewrite ?placeholder_raw; done.
  - destruct (IH false) as [IH1 IH2]. rewrite !filterb_app, IH1, length_app, IH2. cbn [flat_map].
    rewrite (filterb_all _ (copy_entry item)) by (intros e He; by rewrite (copy_entry_not_raw item)).
    rewrite (filterb_none _ (copy_entry item)) by (intros e He; by apply (copy_entry_not_raw item)). done.
Qed.

(** ** Properties *)

(** Escaping makes a pattern literal: the expression compiled from an
    escaped text is the text's own, and it is found in a line exactly when the
    line contains the text. *)
Theorem escapeRegex_literal s :
  ∃ re, mk_regexp (escapeRegex s) false false = Some re
        ∧ ∀ line, test re line = true ↔ includes s line = true.
Proof.
  eexists. split; [apply mk_regexp_escaped|]. intros line.
  rewrite test_plain by apply literal_rx_plain. rewrite includes_spec.
  setoid_rewrite lang_literal. naive_solver.
Qed.

(** Sharing without raw output leaks nothing of an intel entry but its time
    and number: two transcripts that differ only inside intel entries give the
    same result, every other entry is kept, in order, and each run of intel
    entries leaves exactly one placeholder. *)
Theorem omitRawOnlyLineEntries_spec entries :
  let out := omitRawOnlyLineEntries (VArr entries) in
  let raw := _isRawOnlyIntelEntry in
  filterb (λ e, negb (raw e)) out = flat_map copy_entry (filterb (λ e, negb (raw e)) entries)
  ∧ length (filterb raw out) = intel_groups false entries
  ∧ ∀ entries',
      Forall2 (λ a b, a = b ∨ raw a = true ∧ raw b = true
                      ∧ _rawOnlyPlaceholderEntry a = _rawOnlyPlaceholderEntry b) entries entries' →
      omitRawOnlyLineEntries (VArr entries') = out.
Proof.
  cbv zeta. unfold omitRawOnlyLineEntries. cbn [items_of].
  destruct (omit_loop_spec false entries) as [H1 H2]. split; [done|]. split; [done|].
  intros entries' HF. clear H1 H2. generalize false. intros b. revert b.
  induction HF as [|a a' l l' Ha _ IH]; intros b; [done|]. cbn [omit_loop].
  destruct Ha as [->|(Hra & Hrb & Hp)].
  - destruct (_isRawOnlyIntelEntry a'); by rewrite IH.
  - rewrite Hra, Hrb, Hp, IH. done.
Qed.

(** The notice's markup trusts the text of a link: a quote inside the
    address of [[text](address)] is not escaped, so it closes the attribute and
    the rest of the address is read as further attributes. *)
Theorem renderMotd_link_attribute :
  ∃ text, includes (js "href=" ++ [34] ++ js "https://a" ++ [34] ++ js " onmouseover=" ++ [34])
                   (renderMotd text) = true.
Proof.
  exists (js "[x](https://a" ++ [34] ++ js " onmouseover=" ++ [34] ++ js "b)"). vm_compute. reflexivity.
Qed.
