(* ===== verification/AppState.v ===== *)
(** Shared UI state and configuration (app/static/js/core/state.js and
    core/config.js): one mutable object of named fields, passed explicitly. *)

From S2P Require Import Prelude JsString JsNumber JsValue JsJson.

(** ** Definitions *)

(** [a === b]; objects are compared by identity, which values here do not have. *)
Definition strict_eq (a b : jsval) : bool :=
  match a, b with
  | VUndef, VUndef | VNull, VNull => true
  | VBool x, VBool y => Bool.eqb x y
  | VNum x, VNum y => neqb x y
  | VStr s, VStr t => s ==s t
  | _, _ => false
  end.

Definition field (k : string) (v : jsval) : jsstr * jsval := (js k, v).

Definition defaults : props :=
  [field "tabs" (VArr []); field "activeTabId" VNull; field "acSuggestions" (VArr []);
   field "acContextRegistry" (VObj []); field "acWordlists" (VArr []);
   field "acSpecialCommands" (VArr []); field "acBuiltinCommandRoots" (VArr []);
   field "sessionVariables" (VArr []); field "acFiltered" (VArr []);
   field "acIndex" (VNum (num_of_dec (-1) 0)); field "acSuppressInputOnce" (VBool false);
   field "searchMatches" (VArr []); field "searchMatchIdx" (VNum (num_of_dec (-1) 0));
   field "searchCaseSensitive" (VBool false); field "searchRegexMode" (VBool false);
   field "searchScope" (vstr "text"); field "searchDiscoverabilityPrompted" (VBool false);
   field "searchSignalCounts" VNull; field "cmdHistory" (VArr []);
   field "recentPreviewHistory" (VArr []); field "_cmdHistoryNavIndex" (VNum (num_of_dec (-1) 0));
   field "_cmdHistoryNavDraft" (VStr []); field "_suspendCmdHistoryNavReset" (VBool false);
   field "pendingHistAction" VNull; field "_welcomeActive" (VBool false);
   field "_welcomeDone" (VBool false); field "_welcomeTabId" VNull; field "_welcomeBanner" VNull;
   field "_welcomeLiveLine" VNull; field "_welcomeHintNode" VNull;
   field "_welcomeStatusNodes" (VArr []); field "_welcomePlan" VNull;
   field "_welcomeNextBlockIndex" (vint 0); field "_welcomeSettleRequested" (VBool false);
   field "_welcomePromptAfterSettle" (VBool false); field "_welcomeBootPending" (VBool true);
   field "_composerValue" (VStr []); field "_composerSelectionStart" (vint 0);
   field "_composerSelectionEnd" (vint 0); field "_composerActiveInput" (vstr "desktop");
   field "_mobileKeyboardOffsetBaseline" VNull; field "_mobileViewportClosedHeight" VNull;
   field "_mobileKeyboardLastOpenOffset" (vint 0); field "timerInterval" VNull;
   field "timerStart" VNull; field "pendingKillTabId" VNull].

(** A missing field gets its default (whose arrays and objects are copied). *)
Definition fill_default (state : props) (d : jsstr * jsval) : props :=
  if has_own state (fst d) then state else set_prop (fst d) (snd d) state.
Definition initSharedState (existing : jsval) : props :=
  fold_left fill_default defaults (props_of existing).

Definition resetAppState (state : props) : props :=
  fold_left (λ st d, set_prop (fst d) (snd d) st) defaults state.

Definition state_get (state : props) (k : string) : jsval := default VUndef (own state (js k)).
Definition state_set (k : string) (v : jsval) (state : props) : props := set_prop (js k) v state.

(** [if (hasOwnProperty(next, name)) state[k] = f(next[name])]. *)
Definition update_from (next : props) (name k : string) (f : jsval → jsval) (state : props) : props :=
  match own next (js name) with
  | Some v => state_set k (f v) state
  | None => state
  end.

(** *** The composer *)

Definition getComposerState (state : props) : props :=
  [field "value" (state_get state "_composerValue");
   field "selectionStart" (state_get state "_composerSelectionStart");
   field "selectionEnd" (state_get state "_composerSelectionEnd");
   field "activeInput" (state_get state "_composerActiveInput")].

Definition selection_offset (v : jsval) : jsval := VNum (num_max num_zero (num_or v 0)).
Definition active_input (v : jsval) : jsval :=
  if is_str v (js "mobile") then vstr "mobile" else vstr "desktop".
Definition setComposerState (next state : props) : props :=
  update_from next "activeInput" "_composerActiveInput" active_input
    (update_from next "selectionEnd" "_composerSelectionEnd" selection_offset
      (update_from next "selectionStart" "_composerSelectionStart" selection_offset
        (update_from next "value" "_composerValue" (λ v, VStr (str_of_nullish v)) state))).
Definition resetComposerState (state : props) : props :=
  state_set "_composerActiveInput" (vstr "desktop")
    (state_set "_composerSelectionEnd" (vint 0)
      (state_set "_composerSelectionStart" (vint 0)
        (state_set "_composerValue" (VStr []) state))).

(** *** Tabs *)

Definition getTabs (state : props) : jsval := state_get state "tabs".
Definition setTabs (v : jsval) (state : props) : props := state_set "tabs" v state.
Definition getActiveTabId (state : props) : jsval := state_get state "activeTabId".
Definition setActiveTabId (v : jsval) (state : props) : props := state_set "activeTabId" v state.
Definition getTab (id : jsval) (state : props) : option jsval :=
  findb (λ t, strict_eq (get t (js "id")) id) (items_of (getTabs state)).
Definition getActiveTab (state : props) : option jsval := getTab (getActiveTabId state) state.

(** *** Autocomplete and welcome *)

Definition getAutocompleteState (state : props) : props :=
  [field "filtered" (state_get state "acFiltered"); field "index" (state_get state "acIndex");
   field "suppressInputOnce" (state_get state "acSuppressInputOnce")].
Definition to_bool (v : jsval) : jsval := VBool (truthy v).
Definition setAutocompleteState (next state : props) : props :=
  update_from next "suppressInputOnce" "acSuppressInputOnce" to_bool
    (update_from next "index" "acIndex"
       (λ v, if is_finite (to_number v) then VNum (to_number v) else VNum (num_of_dec (-1) 0))
       (update_from next "filtered" "acFiltered" (λ v, if is_array v then v else VArr []) state)).

Definition getWelcomeState (state : props) : props :=
  [field "active" (state_get state "_welcomeActive"); field "done" (state_get state "_welcomeDone");
   field "tabId" (state_get state "_welcomeTabId");
   field "settleRequested" (state_get state "_welcomeSettleRequested");
   field "promptAfterSettle" (state_get state "_welcomePromptAfterSettle");
   field "bootPending" (state_get state "_welcomeBootPending")].
Definition setWelcomeState (next state : props) : props :=
  update_from next "bootPending" "_welcomeBootPending" to_bool
    (update_from next "promptAfterSettle" "_welcomePromptAfterSettle" to_bool
      (update_from next "settleRequested" "_welcomeSettleRequested" to_bool
        (update_from next "tabId" "_welcomeTabId" (λ v, if nullish v then VNull else VStr (to_string v))
          (update_from next "done" "_welcomeDone" to_bool
            (update_from next "active" "_welcomeActive" to_bool state))))).

(** *** Configuration *)

(** [node] is the text of the bootstrap element, if the page has one. *)
Definition readBootstrappedAppConfig (node : option jsstr) (global : jsval) : jsval :=
  let parsed := match node with Some t => if nonempty t then json_parse t else None | None => None end in
  match parsed with
  | Some v => if is_plain v then v else if is_plain global then global else VObj []
  | None => if is_plain global then global else VObj []
  end.

Definition _configSourceDetails (config : jsval) (source : jsstr) : props :=
  let urls := get config (js "lazy_asset_urls") in
  [(js "source", VStr source);
   field "workspace_enabled" (VBool (is_true (get config (js "workspace_enabled"))));
   field "lazy_asset_count" (vnat (length (keys (props_of urls))))].

Definition positive_int (v : jsval) : bool := is_int v && gt_int v 0.
Definition nonempty_string (v : jsval) : bool :=
  match v with VStr s => nonempty s | _ => false end.
Definition is_bool (v : jsval) : bool := match v with VBool _ => true | _ => false end.
Definition isUsableAppConfig (config : jsval) : bool :=
  truthy config
  && nonempty_string (get config (js "app_name")) && nonempty_string (get config (js "version"))
  && is_bool (get config (js "workspace_enabled"))
  && is_bool (get config (js "share_redaction_enabled"))
  && is_array (get config (js "share_redaction_rules"))
  && positive_int (get config (js "recent_commands_limit"))
  && positive_int (get config (js "max_tabs"))
  && existsb (λ p, is_str (get config (js "access_profile")) (js p))
       ["open"; "token_required"; "oidc_required"; "mixed"]%string.

Definition setAppConfig (config : jsval) : jsval := if is_plain config then config else VObj [].

(** ** Lemmas *)

Lemma state_get_set_eq k v st : state_get (state_set k v st) k = v.
Proof. unfold state_get, state_set. by rewrite own_set_eq. Qed.

Lemma state_get_set_ne k k' v st : js k ≠ js k' → state_get (state_set k v st) k' = state_get st k'.
Proof. intros. unfold state_get, state_set. by rewrite own_set_ne. Qed.

Lemma update_from_ne next name k f st k' :
  js k ≠ js k' → state_get (update_from next name k f st) k' = state_get st k'.
Proof. intros. unfold update_from. destruct (own _ _); [by apply state_get_set_ne|done]. Qed.

Lemma update_from_eq next name k f st :
  state_get (update_from next name k f st) k
  = match own next (js name) with Some v => f v | None => state_get st k end.
Proof. unfold update_from. destruct (own _ _); [apply state_get_set_eq|done]. Qed.

Lemma fill_default_own state d k :
  own (fill_default state d) k
  = match own state k with Some v => Some v
    | None => if fst d ==s k then Some (snd d) else None end.
Proof.
  unfold fill_default. destruct (has_own state (fst d)) eqn:Hh.
  - apply has_own_Some in Hh as [v Hv]. destruct (own state k) eqn:Hk; [done|].
    rewrite bool_decide_false; [done|]. intros <-. congruence.
  - assert (own state (fst d) = None) as Hn.
    { destruct (own state (fst d)) eqn:E; [|done].
      assert (has_own state (fst d) = true) by (apply has_own_Some; eauto). congruence. }
    case_bool_decide as Hk; [subst; by rewrite own_set_eq, Hn|].
    rewrite own_set_ne by done. by destruct (own state k).
Qed.

Lemma own_fill_defaults l state k :
  own (fold_left fill_default l state) k
  = match own state k with Some v => Some v | None => own l k end.
Proof.
  revert state. induction l as [|[k' v] l IH]; intros state; cbn [fold_left own fst snd].
  { by destruct (own state k). }
  rewrite IH, fill_default_own. cbn [fst snd]. destruct (own state k); [done|].
  case_bool_decide; [by rewrite bool_decide_true|by rewrite bool_decide_false by congruence].
Qed.

Lemma own_reset l state k :
  NoDup (l.*1) →
  own (fold_left (λ st d, set_prop (fst d) (snd d) st) l state) k
  = match own l k with Some v => Some v | None => own state k end.
Proof.
  revert state. induction l as [|[k' v] l IH]; intros state Hnd; cbn [fold_left own fst snd]; [done|].
  apply NoDup_cons in Hnd as [Hk' Hnd]. rewrite IH by done.
  case_bool_decide as Hk.
  - subst k'. rewrite (proj2 (own_None l k)) by done. by rewrite own_set_eq.
  - destruct (own l k); [done|]. by rewrite own_set_ne.
Qed.

Lemma defaults_NoDup : NoDup (defaults.*1).
Proof. apply (bool_decide_unpack _). vm_compute. exact I. Qed.

(** [Math.max(0, x)] of a number that is not NaN is not negative. *)
Lemma num_or_not_nan v d : is_nan (num_of_Z d) = false → is_nan (num_or v d) = false.
Proof. intros Hd. unfold num_or. by destruct (to_number v). Qed.

Lemma num_max_zero_nonneg x : is_nan x = false → nltb (num_max num_zero x) num_zero = false.
Proof.
  intros Hx. unfold num_max. rewrite Hx. cbn [is_nan num_zero orb].
  destruct x as [[]|[]| |[] m e]; (done || by cbn in Hx).
Qed.

#[export] Hint Rewrite state_get_set_eq update_from_eq : darklab.

(** ** Properties *)

(** Initialisation keeps every field a page already has, gives every
    missing one its default and adds nothing else; a reset puts every default
    back, whatever was stored, and touches no other field. *)
Theorem initSharedState_spec existing k :
  own (initSharedState (VObj existing)) k
    = match own existing k with Some v => Some v | None => own defaults k end
  ∧ own (resetAppState existing) k
    = match own defaults k with Some v => Some v | None => own existing k end.
Proof. split; [apply own_fill_defaults|apply own_reset, defaults_NoDup]. Qed.

(** The composer fields after an update that may set any of them. *)
Definition composer_ok (state : props) : Prop :=
  (∃ s, state_get state "_composerValue" = VStr s)
  ∧ (∃ x, state_get state "_composerSelectionStart" = VNum x ∧ nltb x num_zero = false)
  ∧ (∃ x, state_get state "_composerSelectionEnd" = VNum x ∧ nltb x num_zero = false)
  ∧ (state_get state "_composerActiveInput" = vstr "mobile"
     ∨ state_get state "_composerActiveInput" = vstr "desktop").

Lemma selection_offset_ok v : ∃ x, selection_offset v = VNum x ∧ nltb x num_zero = false.
Proof. eexists. split; [done|]. by apply num_max_zero_nonneg, num_or_not_nan. Qed.

Definition composer_fields : list jsstr :=
  map js ["_composerValue"; "_composerSelectionStart"; "_composerSelectionEnd"; "_composerActiveInput"]%string.

(** The composer stays well-formed: whatever properties a caller passes
    (strings, numbers, nothing, garbage), the text stays a string, the
    selection two non-negative numbers and the active input one of the two
    known ones; a property that is not passed keeps its value, and no field
    outside the composer changes. *)
Theorem setComposerState_ok next state :
  composer_ok state →
  composer_ok (setComposerState next state)
  ∧ (own next (js "value") = None →
     state_get (setComposerState next state) "_composerValue" = state_get state "_composerValue")
  ∧ (∀ v, own next (js "value") = Some v →
     state_get (setComposerState next state) "_composerValue" = VStr (str_of_nullish v))
  ∧ ∀ k, k ∉ composer_fields → own (setComposerState next state) k = own state k.
Proof.
  intros (Hv & Hs & He & Ha). unfold setComposerState.
  assert (∀ n k f st k', js k ∈ composer_fields → k' ∉ composer_fields →
            own (update_from next n k f st) k' = own st k') as Hframe.
  { intros n k f st k' Hk Hk'. unfold update_from. destruct (own next _); [|done].
    apply own_set_ne. intros Heq. by rewrite Heq in Hk. }
  split; [|split; [|split]].
  - unfold composer_ok. split; [|split; [|split]].
    + rewrite !update_from_ne, update_from_eq by (vm_compute; discriminate).
      destruct (own next _); [eauto|done].
    + rewrite !(update_from_ne _ _ _ _ _ "_composerSelectionStart"), update_from_eq by (vm_compute; discriminate).
      destruct (own next _); [apply selection_offset_ok|].
      by rewrite update_from_ne by (vm_compute; discriminate).
    + rewrite !(update_from_ne _ _ _ _ _ "_composerSelectionEnd"), update_from_eq by (vm_compute; discriminate).
      destruct (own next _); [apply selection_offset_ok|].
      by rewrite !update_from_ne by (vm_compute; discriminate).
    + rewrite update_from_eq. destruct (own next _) as [v|].
      * unfold active_input. destruct (is_str v _); auto.
      * by rewrite !update_from_ne by (vm_compute; discriminate).
  - intros Hn. rewrite !update_from_ne, update_from_eq by (vm_compute; discriminate). by rewrite Hn.
  - intros v Hn. rewrite !update_from_ne, update_from_eq by (vm_compute; discriminate). by rewrite Hn.
  - intros k Hk. by rewrite !Hframe by (apply (bool_decide_unpack _); vm_compute; exact I) || done.
Qed.

Lemma setComposerState_ok_witness :
  composer_ok (setComposerState [field "value" VNull; field "selectionStart" (vstr "-3")]
                                (initSharedState VUndef)).
Proof.
  apply (setComposerState_ok [field "value" VNull; field "selectionStart" (vstr "-3")]
                             (initSharedState VUndef)).
  split; [by exists []|]. split; [by exists num_zero|]. split; [by exists num_zero|].
  right. vm_compute. reflexivity.
Defined.
