(* ===== verification/CommandLifecycle.v ===== *)
(** Command results and their completion
    (app/static/js/features/runner/command_lifecycle.js): the normal form of a
    result, the execution a local command fills in, and the coordinator that
    settles each result once, as a step relation over interleaved calls. *)

From S2P Require Import Prelude JsString JsNumber JsValue.

(** ** Definitions: results *)

Inductive status := Idle | Ok | Fail | Killed.
#[export] Instance status_eq_dec : EqDecision status.
Proof. solve_decision. Defined.
Definition status_name (s : status) : jsstr :=
  match s with Idle => js "idle" | Ok => js "ok" | Fail => js "fail" | Killed => js "killed" end.
(** [COMMAND_RESULT_STATUSES.has(name)]. *)
Definition parse_status (name : jsstr) : option status :=
  findb (λ s, status_name s ==s name) [Idle; Ok; Fail; Killed].

Inductive persistence := PNone | PClient | PServer.
#[export] Instance persistence_eq_dec : EqDecision persistence.
Proof. solve_decision. Defined.
Definition persistence_name (p : persistence) : jsstr :=
  match p with PNone => js "none" | PClient => js "client" | PServer => js "server" end.
(** [COMMAND_RESULT_PERSISTENCE.has(name) ? name : 'none']. *)
Definition parse_persistence (name : jsstr) : persistence :=
  default PNone (findb (λ p, persistence_name p ==s name) [PNone; PClient; PServer]).

Definition MAX_COMPLETION_KEYS : nat := Z.to_nat 4096.

Record command_line := CommandLine
  { ln_text : jsstr; ln_cls : jsstr; ln_kind : option jsstr; ln_role : option jsstr;
    ln_metadata : option props; ln_rendered : bool }.

Definition nonempty_text (v : jsval) : option jsstr :=
  match v with VStr s => if nonempty s then Some s else None | _ => None end.
Definition plain_props (v : jsval) : option props :=
  match v with VObj o => Some o | _ => None end.

Definition normalizeCommandLine (line : jsval) : command_line :=
  let value := if is_plain line then line else VObj [(js "text", line)] in
  CommandLine (str_of_nullish (get value (js "text"))) (str_of (get value (js "cls")))
    (nonempty_text (get value (js "kind"))) (nonempty_text (get value (js "role")))
    (plain_props (get value (js "metadata"))) (is_true (get value (js "rendered"))).

Definition given (v : jsval) : bool :=
  negb (nullish v) && negb (is_str v []).
Definition explicit_exit (exitCode : jsval) : option num :=
  if given exitCode && is_integer (to_number exitCode) then Some (to_number exitCode) else None.

Definition commandExitCode (st : option status) (exitCode : jsval) : num :=
  match explicit_exit exitCode with
  | Some parsed => parsed
  | None =>
      match st with
      | Some Fail => num_of_Z 1
      | Some Killed => num_of_Z (-15)
      | _ => num_of_Z 0
      end
  end.

Definition commandStatus (st : option status) (exitCode : jsval) : status :=
  match st with
  | Some Killed => Killed
  | Some Fail => Fail
  | Some Ok => Ok
  | _ => if neqb (commandExitCode st exitCode) (num_of_Z 0) then Ok else Fail
  end.

Definition normalizeCommandEffects (effects : jsval) : props :=
  match effects with
  | VObj o => filterb (λ p, is_true (snd p)) (entries o)
  | _ => []
  end.

Record result := Result
  { r_command : jsstr; r_safeCommand : jsstr; r_tabId : jsstr; r_source : jsstr;
    r_completionKey : jsstr; r_lines : list command_line; r_status : status; r_exitCode : num;
    r_persistence : persistence; r_recordRecent : bool; r_renderExit : bool; r_elapsed : jsstr;
    r_suppressExitLine : bool; r_effects : props; r_metadata : props }.

Definition normalizeCommandResult (value defaults : jsval) : result :=
  let source k := get (VObj (props_of value)) (js k) in
  let base k := get (VObj (props_of defaults)) (js k) in
  let either k d := js_or (source k) (js_or (base k) d) in
  let first k d := js_nullish (source k) (js_nullish (base k) d) in
  let rawStatus := parse_status (lower (to_string (either "status" (vstr "idle")))) in
  let rawExitCode := first "exitCode" VNull in
  let st := commandStatus rawStatus rawExitCode in
  let command := trim (to_string (first "command" (VStr []))) in
  let safeCommand := trim (to_string (first "safeCommand" (VStr command))) in
  let tabId := to_string (first "tabId" (VStr [])) in
  let fallbackKey := to_string (either "source" (vstr "command")) ++ js ":" ++ tabId
                     ++ js ":" ++ safeCommand in
  Result command safeCommand tabId
    (to_string (either "source" (vstr "browser")))
    (to_string (first "completionKey" (VStr fallbackKey)))
    (map normalizeCommandLine (if is_array (source "lines") then items_of (source "lines")
                               else items_of (base "lines")))
    st (commandExitCode (Some st) rawExitCode)
    (parse_persistence (lower (to_string (either "persistence" (vstr "none")))))
    (is_true (js_nullish (source "recordRecent") (base "recordRecent")))
    (is_true (js_nullish (source "renderExit") (base "renderExit")))
    (to_string (first "elapsed" (VStr [])))
    (is_true (js_nullish (source "suppressExitLine") (base "suppressExitLine")))
    (normalizeCommandEffects (js_or (source "effects") (base "effects")))
    (if is_plain (source "metadata") then props_of (source "metadata")
     else props_of (base "metadata")).

(** The plain objects the code keeps lines and results in. *)
Definition line_value (l : command_line) : jsval :=
  VObj ([(js "text", VStr (ln_text l)); (js "cls", VStr (ln_cls l))]
        ++ opt_prop "kind" VStr (ln_kind l) ++ opt_prop "role" VStr (ln_role l)
        ++ opt_prop "metadata" VObj (ln_metadata l)
        ++ (if ln_rendered l then [(js "rendered", VBool true)] else [])).
Definition result_props (r : result) : props :=
  [(js "command", VStr (r_command r)); (js "safeCommand", VStr (r_safeCommand r));
   (js "tabId", VStr (r_tabId r)); (js "source", VStr (r_source r));
   (js "completionKey", VStr (r_completionKey r)); (js "lines", VArr (map line_value (r_lines r)));
   (js "status", VStr (status_name (r_status r))); (js "exitCode", VNum (r_exitCode r));
   (js "persistence", VStr (persistence_name (r_persistence r)));
   (js "recordRecent", VBool (r_recordRecent r)); (js "renderExit", VBool (r_renderExit r));
   (js "elapsed", VStr (r_elapsed r)); (js "suppressExitLine", VBool (r_suppressExitLine r));
   (js "effects", VObj (r_effects r)); (js "metadata", VObj (r_metadata r))].

(** ** Definitions: an execution in progress *)

Record execution := Execution
  { ex_command : jsstr; ex_safeCommand : jsstr; ex_tabId : jsstr; ex_source : jsstr;
    ex_completionKey : jsstr; ex_persistence : jsstr; ex_recordRecent : jsval;
    ex_status : status; ex_exitCode : option num; ex_lines : list command_line;
    ex_effects : props; ex_pending : bool; ex_delegated : bool; ex_completed : bool }.

(** [sequence] is the module's counter; the result carries its new value. *)
Definition createCommandExecution (sequence : nat) (command safeCommand tabId source : jsval)
    (persistence : jsstr) (recordRecent : jsval) : nat * execution :=
  let n := S sequence in
  (n, Execution (trim (str_of command)) (trim (to_string (js_or safeCommand (js_or command (VStr [])))))
        (str_of tabId) (to_string (js_or source (vstr "browser"))) (js "client:" ++ str_of_nat n)
        persistence recordRecent Idle None [] [] false false false).

(** Which line callbacks the command was created with. *)
Record streams := Streams { has_streamLine : bool; has_streamPendingLine : bool }.

Definition with_line (l : command_line) (st : execution) : execution :=
  Execution (ex_command st) (ex_safeCommand st) (ex_tabId st) (ex_source st) (ex_completionKey st)
    (ex_persistence st) (ex_recordRecent st) (ex_status st) (ex_exitCode st) (ex_lines st ++ [l])
    (ex_effects st) (ex_pending st) (ex_delegated st) (ex_completed st).
Definition rendered (l : command_line) : command_line :=
  CommandLine (ln_text l) (ln_cls l) (ln_kind l) (ln_role l) (ln_metadata l) true.

(** The lines handed to a callback, and the new state. *)
Definition appendLine (s : streams) (text cls metadata : jsval) (st : execution)
    : list command_line * execution :=
  let line := normalizeCommandLine
                (VObj [(js "text", text); (js "cls", cls); (js "metadata", metadata)]) in
  if has_streamLine s || (ex_pending st && has_streamPendingLine s)
  then ([line], with_line (rendered line) st) else ([], with_line line st).
Definition captureRenderedLine (text cls metadata : jsval) (st : execution) : execution :=
  with_line (normalizeCommandLine
               (VObj [(js "text", text); (js "cls", cls); (js "metadata", metadata);
                      (js "rendered", VBool true)])) st.

Definition setStatus (name : jsstr) (exitCode : jsval) (st : execution) : execution :=
  Execution (ex_command st) (ex_safeCommand st) (ex_tabId st) (ex_source st) (ex_completionKey st)
    (ex_persistence st) (ex_recordRecent st) (default Idle (parse_status name))
    (match explicit_exit exitCode with Some n => Some n | None => ex_exitCode st end)
    (ex_lines st) (ex_effects st) (ex_pending st) (ex_delegated st) (ex_completed st).
Definition setRecordRecent (enabled : jsval) (st : execution) : execution :=
  Execution (ex_command st) (ex_safeCommand st) (ex_tabId st) (ex_source st) (ex_completionKey st)
    (ex_persistence st) (VBool (is_true enabled)) (ex_status st) (ex_exitCode st) (ex_lines st)
    (ex_effects st) (ex_pending st) (ex_delegated st) (ex_completed st).
Definition setSafeCommand (value : jsval) (st : execution) : execution :=
  let safe := trim (str_of value) in
  Execution (ex_command st) (str_or safe (ex_safeCommand st)) (ex_tabId st) (ex_source st)
    (ex_completionKey st) (ex_persistence st) (ex_recordRecent st) (ex_status st) (ex_exitCode st)
    (ex_lines st) (ex_effects st) (ex_pending st) (ex_delegated st) (ex_completed st).
Definition setPersistence (value : jsstr) (st : execution) : execution :=
  Execution (ex_command st) (ex_safeCommand st) (ex_tabId st) (ex_source st) (ex_completionKey st)
    (persistence_name (parse_persistence value)) (ex_recordRecent st) (ex_status st) (ex_exitCode st)
    (ex_lines st) (ex_effects st) (ex_pending st) (ex_delegated st) (ex_completed st).
Definition requestEffect (name enabled : jsval) (st : execution) : execution :=
  let key := trim (str_of name) in
  Execution (ex_command st) (ex_safeCommand st) (ex_tabId st) (ex_source st) (ex_completionKey st)
    (ex_persistence st) (ex_recordRecent st) (ex_status st) (ex_exitCode st) (ex_lines st)
    (if nonempty key then set_prop key (VBool (is_true enabled)) (ex_effects st) else ex_effects st)
    (ex_pending st) (ex_delegated st) (ex_completed st).
Definition setPending (enabled : jsval) (st : execution) : execution :=
  Execution (ex_command st) (ex_safeCommand st) (ex_tabId st) (ex_source st) (ex_completionKey st)
    (ex_persistence st) (ex_recordRecent st) (ex_status st) (ex_exitCode st) (ex_lines st)
    (ex_effects st) (is_true enabled) (ex_delegated st) (ex_completed st).
Definition delegate (st : execution) : execution :=
  Execution (ex_command st) (ex_safeCommand st) (ex_tabId st) (ex_source st) (ex_completionKey st)
    (js "none") (VBool false) (ex_status st) (ex_exitCode st) (ex_lines st)
    (ex_effects st) (ex_pending st) true (ex_completed st).
Definition markCompleted (st : execution) : execution :=
  Execution (ex_command st) (ex_safeCommand st) (ex_tabId st) (ex_source st) (ex_completionKey st)
    (ex_persistence st) (ex_recordRecent st) (ex_status st) (ex_exitCode st) (ex_lines st)
    (ex_effects st) (ex_pending st) (ex_delegated st) true.

Definition execution_props (st : execution) : props :=
  [(js "command", VStr (ex_command st)); (js "safeCommand", VStr (ex_safeCommand st));
   (js "tabId", VStr (ex_tabId st)); (js "source", VStr (ex_source st));
   (js "completionKey", VStr (ex_completionKey st)); (js "persistence", VStr (ex_persistence st));
   (js "recordRecent", ex_recordRecent st); (js "status", VStr (status_name (ex_status st)));
   (js "exitCode", or_null VNum (ex_exitCode st)); (js "lines", VArr (map line_value (ex_lines st)));
   (js "effects", VObj (ex_effects st)); (js "pending", VBool (ex_pending st));
   (js "delegated", VBool (ex_delegated st)); (js "completed", VBool (ex_completed st))].
Definition toResult (overrides : props) (st : execution) : result :=
  let o := VObj overrides in
  normalizeCommandResult
    (VObj (set_prop (js "effects")
             (VObj (spread (spread [] (ex_effects st))
                           (props_of (js_or (get o (js "effects")) (VObj [])))))
            (set_prop (js "lines")
               (if is_array (get o (js "lines")) then get o (js "lines")
                else VArr (map line_value (ex_lines st)))
               (spread (execution_props st) overrides))))
    VUndef.

(** ** Definitions: the completion coordinator *)

(** What the coordinator does for a result, in the order it does it. *)
Inductive event :=
  | RenderLine (l : command_line)
  | RenderExit
  | ApplyStatus
  | PersistClient
  | RecordRecent (safeCommand : jsstr)
  | AfterComplete
  | OnError.
#[export] Instance num_eq_dec : EqDecision num.
Proof. solve_decision. Defined.

(** Which callbacks exist, and which calls throw (or reject). *)
Record callbacks := Callbacks
  { has_renderLine : bool; has_renderExit : bool; has_applyStatus : bool; has_recordRecent : bool;
    has_persistClient : bool; has_afterComplete : bool; has_onError : bool;
    throws : result → event → bool }.

Definition when (b : bool) (e : event) : list event := if b then [e] else [].

(** Run the calls in order, up to and including the first that throws. *)
Fixpoint attempt (bad : event → bool) (calls : list event) : list event * bool :=
  match calls with
  | [] => ([], false)
  | e :: calls =>
      if bad e then ([e], true)
      else let '(done, failed) := attempt bad calls in (e :: done, failed)
  end.
Definition on_error (cb : callbacks) (failed : bool) : list event :=
  if failed then when (has_onError cb) OnError else [].

(** The calls before the coordinator first waits, and whether it waits for
    the client to persist the run. *)
Definition persists (cb : callbacks) (r : result) : bool :=
  bool_decide (r_persistence r = PClient) && has_persistClient cb.
Definition before_wait (cb : callbacks) (r : result) : list event :=
  (if has_renderLine cb
   then map RenderLine (filterb (λ l, negb (ln_rendered l)) (r_lines r)) else [])
  ++ when (r_renderExit r && negb (r_suppressExitLine r) && has_renderExit cb) RenderExit
  ++ when (has_applyStatus cb) ApplyStatus
  ++ when (persists cb r) PersistClient.

(** The saved run replaces the command that is recorded. *)
Definition saved_command (r : result) (saved : jsval) : jsstr :=
  if is_plain saved then str_or (trim (str_of (get saved (js "command")))) (r_safeCommand r)
  else r_safeCommand r.
Definition after_wait (cb : callbacks) (r : result) (saved : jsval) : list event :=
  let safe := saved_command r saved in
  when (r_recordRecent r && nonempty safe && has_recordRecent cb) (RecordRecent safe)
  ++ when (has_afterComplete cb) AfterComplete.

(** The part of a call that runs before it waits; [true] if it now waits. *)
Definition run_before (cb : callbacks) (r : result) : list event * bool :=
  let '(done, failed) := attempt (throws cb r) (before_wait cb r) in
  if failed then (done ++ on_error cb true, false)
  else if persists cb r then (done, true)
  else let '(done', failed') := attempt (throws cb r) (after_wait cb r VNull) in
       (done ++ done' ++ on_error cb failed', false).
(** The part after it: with the saved run, or with a rejection. *)
Definition run_after (cb : callbacks) (r : result) (saved : option jsval) : list event :=
  match saved with
  | None => on_error cb true
  | Some v => let '(done, failed) := attempt (throws cb r) (after_wait cb r v) in
              done ++ on_error cb failed
  end.

(** [completedKeys], a set in insertion order, with its oldest key evicted. *)
Definition add_key (keys : list jsstr) (k : jsstr) : list jsstr :=
  let keys := keys ++ [k] in
  if bool_decide (MAX_COMPLETION_KEYS < length keys)%nat then tl keys else keys.

Record coordinator := Coordinator
  { co_keys : list jsstr;                    (* completedKeys *)
    co_waiting : list result;                (* calls waiting for the client *)
    co_accepted : list jsstr;                (* the keys accepted so far, in order *)
    co_trace : list (jsstr * event) }.       (* every callback called so far, with its key *)

Definition hasCompleted (key : jsval) (s : coordinator) : bool :=
  bool_decide (str_of key ∈ co_keys s).

Definition tagged (r : result) (es : list event) : list (jsstr * event) :=
  map (λ e, (r_completionKey r, e)) es.

(** [complete(value, defaults)], up to its first wait. *)
Definition complete (cb : callbacks) (value defaults : jsval) (s : coordinator)
    : bool * result * coordinator :=
  let r := normalizeCommandResult value defaults in
  if bool_decide (r_completionKey r ∈ co_keys s) then (false, r, s) else
  let '(es, waits) := run_before cb r in
  (true, r,
   Coordinator (add_key (co_keys s) (r_completionKey r))
     (if waits then co_waiting s ++ [r] else co_waiting s)
     (co_accepted s ++ [r_completionKey r]) (co_trace s ++ tagged r es)).

(** Calls interleave with the answers of the server, in any order. *)
Inductive step (cb : callbacks) : coordinator → coordinator → Prop :=
  | step_complete value defaults s s' r ok :
      complete cb value defaults s = (ok, r, s') → step cb s s'
  | step_answer before r after s saved :
      co_waiting s = before ++ r :: after →
      step cb s (Coordinator (co_keys s) (before ++ after) (co_accepted s)
                             (co_trace s ++ tagged r (run_after cb r saved))).
Inductive reachable (cb : callbacks) : coordinator → Prop :=
  | reach_start : reachable cb (Coordinator [] [] [] [])
  | reach_step s s' : reachable cb s → step cb s s' → reachable cb s'.

(** ** Lemmas: results *)

Lemma parse_status_name s : parse_status (status_name s) = Some s.
Proof. by destruct s. Qed.

Lemma lower_status_name s : lower (status_name s) = status_name s.
Proof. by destruct s. Qed.

Lemma parse_persistence_name p : parse_persistence (persistence_name p) = p.
Proof. by destruct p. Qed.

Lemma lower_persistence_name p : lower (persistence_name p) = persistence_name p.
Proof. by destruct p. Qed.

Lemma str_or_empty (s : jsstr) : js_or (VStr s) (VStr []) = VStr s.
Proof. by destruct s. Qed.

(** A line is its own normal form. *)
Definition line_ok (l : command_line) : Prop := ln_kind l ≠ Some [] ∧ ln_role l ≠ Some [].

Lemma normalize_line_ok v : line_ok (normalizeCommandLine v).
Proof.
  assert (∀ v, nonempty_text v ≠ Some []) as H.
  { intros []; cbn; try done. destruct (nonempty s) eqn:Hs; [|done]. intros [= ->]. done. }
  split; apply H.
Qed.

Lemma normalize_line_value l : line_ok l → normalizeCommandLine (line_value l) = l.
Proof.
  intros [Hk Hr]. destruct l as [text cls kind role metadata rend].
  unfold normalizeCommandLine, line_value. cbn in Hk, Hr.
  assert (∀ s, Some s ≠ Some [] → nonempty_text (VStr s) = Some s) as Hs
    by (intros [|]; done).
  destruct kind as [k|], role as [ro|], metadata as [m|], rend;
    cbn -[str_of nonempty_text str_of_nullish];
    f_equal; try apply str_of_VStr; try done; by apply Hs.
Qed.

(** What holds of every result the code builds. *)
Record result_ok (r : result) : Prop := {
  rk_command : trim (r_command r) = r_command r;
  rk_safe : trim (r_safeCommand r) = r_safeCommand r;
  rk_source : r_source r ≠ [];
  rk_lines : Forall line_ok (r_lines r);
  rk_status : r_status r ≠ Idle;
  rk_exit : is_integer (r_exitCode r) = true;
  rk_effects : normalizeCommandEffects (VObj (r_effects r)) = r_effects r
}.

Lemma explicit_exit_num n : is_integer n = true → explicit_exit (VNum n) = Some n.
Proof. intros H. unfold explicit_exit. cbn. by rewrite H. Qed.

Lemma normalize_lines_value l :
  Forall line_ok l → map normalizeCommandLine (map line_value l) = l.
Proof. induction 1 as [|x l Hx _ IH]; [done|]. cbn [map]. by rewrite normalize_line_value, IH. Qed.

Lemma normalize_result_props r defaults :
  result_ok r → normalizeCommandResult (VObj (result_props r)) (VObj defaults) = r.
Proof.
  intros [Hcmd Hsafe Hsrc Hlines Hst Hexit Heff].
  destruct r as [command safe tab source key lines st code pers recent rexit elapsed sup effects meta].
  cbn [r_command r_safeCommand r_source r_lines r_status r_exitCode r_effects] in *.
  assert (∀ b, js_or (VStr source) b = VStr source) as Hsource by (intros; by destruct source).
  unfold normalizeCommandResult. cbn [props_of].
  set (o := result_props _).
  change (get (VObj o) (js "status")) with (VStr (status_name st)).
  change (get (VObj o) (js "exitCode")) with (VNum code).
  change (get (VObj o) (js "command")) with (VStr command).
  change (get (VObj o) (js "safeCommand")) with (VStr safe).
  change (get (VObj o) (js "tabId")) with (VStr tab).
  change (get (VObj o) (js "source")) with (VStr source).
  change (get (VObj o) (js "completionKey")) with (VStr key).
  change (get (VObj o) (js "lines")) with (VArr (map line_value lines)).
  change (get (VObj o) (js "persistence")) with (VStr (persistence_name pers)).
  change (get (VObj o) (js "recordRecent")) with (VBool recent).
  change (get (VObj o) (js "renderExit")) with (VBool rexit).
  change (get (VObj o) (js "elapsed")) with (VStr elapsed).
  change (get (VObj o) (js "suppressExitLine")) with (VBool sup).
  change (get (VObj o) (js "effects")) with (VObj effects).
  change (get (VObj o) (js "metadata")) with (VObj meta).
  assert (∀ b, js_or (VStr (status_name st)) b = VStr (status_name st)) as -> by by destruct st.
  assert (∀ b, js_or (VStr (persistence_name pers)) b = VStr (persistence_name pers)) as ->
    by by destruct pers.
  rewrite !Hsource. cbn [js_nullish nullish to_string is_array items_of is_plain props_of].
  rewrite lower_status_name, parse_status_name, lower_persistence_name, parse_persistence_name.
  rewrite normalize_lines_value by done.
  assert (commandStatus (Some st) (VNum code) = st) as -> by (by destruct st).
  assert (commandExitCode (Some st) (VNum code) = code) as ->
    by (unfold commandExitCode; by rewrite explicit_exit_num).
  assert (∀ b, is_true (VBool b) = b) as Htrue by by intros [].
  rewrite Hcmd, Hsafe, !Htrue. cbn [js_or truthy]. by rewrite Heff.
Qed.

Lemma entries_filter_idemp (p : jsstr * jsval → bool) o :
  entries (filterb p (entries o)) = filterb p (entries o).
Proof.
  unfold entries at 2 3. set (leb := λ x y : jsstr * jsval, _ <=? _).
  set (idx := filterb (λ q, is_index_key (fst q)) o).
  set (rest := filterb (λ q, negb (is_index_key (fst q))) o).
  assert (∀ q, q ∈ isort leb idx → is_index_key (fst q) = true) as Hidx.
  { intros q Hq. rewrite (isort_perm leb idx) in Hq. by apply elem_of_filterb in Hq as [? _]. }
  assert (∀ q, q ∈ rest → is_index_key (fst q) = false) as Hrest.
  { intros q Hq. apply elem_of_filterb in Hq as [Hq _]. by apply negb_true_iff in Hq. }
  rewrite filterb_app. unfold entries.
  rewrite !filterb_app.
  rewrite (filterb_all _ (filterb p (isort leb idx)))
    by (intros q Hq; apply elem_of_filterb in Hq as [_ Hq]; by apply Hidx).
  rewrite (filterb_none _ (filterb p rest))
    by (intros q Hq; apply elem_of_filterb in Hq as [_ Hq]; by apply Hrest).
  rewrite (filterb_none _ (filterb p (isort leb idx)))
    by (intros q Hq; apply elem_of_filterb in Hq as [_ Hq]; by rewrite (Hidx q)).
  rewrite (filterb_all _ (filterb p rest))
    by (intros q Hq; apply elem_of_filterb in Hq as [_ Hq]; by rewrite (Hrest q)).
  rewrite app_nil_r, app_nil_l. f_equal. apply isort_sorted_id.
  assert (StronglySorted (λ a b, leb a b = true) (isort leb idx)) as Hs
    by (apply isort_Sorted; unfold leb; intros; lia).
  assert (∀ l, StronglySorted (λ a b, leb a b = true) l →
               StronglySorted (λ a b, leb a b = true) (filterb p l)) as Hf; [|by apply Hf].
  clear. induction 1 as [|x l Hl IH Hx]; cbn; [constructor|]. destruct (p x); [|done].
  constructor; [done|]. rewrite Forall_forall in *. intros y Hy.
  apply elem_of_filterb in Hy as [_ Hy]. by apply Hx.
Qed.

Lemma effects_idemp o : normalizeCommandEffects (VObj (normalizeCommandEffects o)) = normalizeCommandEffects o.
Proof.
  destruct o; try done. cbn [normalizeCommandEffects]. rewrite entries_filter_idemp. apply filterb_idemp.
Qed.

(** What the normaliser builds is such a result. *)
Lemma commandExitCode_integer st code : is_integer (commandExitCode st code) = true.
Proof.
  unfold commandExitCode, explicit_exit. destruct (given code && is_integer (to_number code)) eqn:He.
  - by apply andb_true_iff in He as [_ He].
  - by destruct st as [[]|].
Qed.

Lemma commandStatus_settled st code : commandStatus st code ≠ Idle.
Proof. destruct st as [[]|]; cbn; try case_goal; done. Qed.

Lemma normalized_result_ok value defaults :
  r_source (normalizeCommandResult value defaults) ≠ [] → result_ok (normalizeCommandResult value defaults).
Proof.
  intros Hsrc. constructor; try done.
  - apply trim_idemp.
  - apply trim_idemp.
  - apply Forall_forall. intros l Hl. cbn in Hl. apply list_elem_of_In, in_map_iff in Hl as (v & <- & _).
    apply normalize_line_ok.
  - apply commandStatus_settled.
  - apply commandExitCode_integer.
  - apply effects_idemp.
Qed.

(** ** Lemmas: the coordinator *)

(** The keys remembered are the last [MAX_COMPLETION_KEYS] accepted. *)
Definition window (accepted : list jsstr) : list jsstr :=
  drop (length accepted - MAX_COMPLETION_KEYS) accepted.

Lemma add_key_window accepted k : add_key (window accepted) k = window (accepted ++ [k]).
Proof.
  unfold add_key, window. rewrite !length_app, length_drop. cbn [length].
  set (m := MAX_COMPLETION_KEYS). assert (1 ≤ m)%nat by (unfold m, MAX_COMPLETION_KEYS; lia).
  case_bool_decide as Hl.
  - assert (length accepted - m < length accepted)%nat by lia.
    rewrite <-drop_app_le by lia.
    replace (length accepted + 1 - m)%nat with (S (length accepted - m)) by lia.
    assert (∀ l : list jsstr, tl l = drop 1 l) as Htl by by intros [].
    rewrite Htl, drop_drop. f_equal. lia.
  - replace (length accepted + 1 - m)%nat with O by lia.
    by replace (length accepted - m)%nat with O by lia.
Qed.

Lemma add_key_last keys k : k ∈ add_key keys k.
Proof.
  unfold add_key. case_bool_decide as Hl; [|apply elem_of_app; right; by left].
  destruct keys as [|x keys]; [|cbn; apply elem_of_app; right; by left].
  cbn in Hl. unfold MAX_COMPLETION_KEYS in Hl. lia.
Qed.

(** After a result was offered its key is known, and it is turned away. *)
Lemma complete_known cb r s :
  result_ok r → r_completionKey r ∈ co_keys (snd (complete cb (VObj (result_props r)) (VObj []) s)).
Proof.
  intros Hr. unfold complete. rewrite normalize_result_props by done. case_bool_decide; [done|].
  destruct (run_before cb r). apply add_key_last.
Qed.
Lemma complete_again cb r s :
  result_ok r → r_completionKey r ∈ co_keys s →
  complete cb (VObj (result_props r)) (VObj []) s = (false, r, s).
Proof. intros Hr Hk. unfold complete. rewrite normalize_result_props by done. by rewrite bool_decide_true. Qed.

Definition spaced_out (accepted : list jsstr) : Prop :=
  ∀ i j k, accepted !! i = Some k → accepted !! j = Some k → (i < j)%nat →
           (MAX_COMPLETION_KEYS < j - i)%nat.

Lemma spaced_out_snoc accepted k :
  spaced_out accepted → k ∉ window accepted → spaced_out (accepted ++ [k]).
Proof.
  intros Hs Hk i j x Hi Hj Hij.
  apply lookup_app_Some in Hj as [Hj|[Hlj Hj]].
  - apply (Hs i j x); [|done|done]. rewrite lookup_app_l in Hi; [done|].
    apply lookup_lt_Some in Hj. lia.
  - assert (j = length accepted) as ->.
    { apply lookup_lt_Some in Hj. cbn in Hj. lia. }
    rewrite Nat.sub_diag in Hj. injection Hj as <-.
    rewrite lookup_app_l in Hi by lia.
    destruct (decide (MAX_COMPLETION_KEYS < length accepted - i)%nat); [done|].
    exfalso. apply Hk. unfold window.
    apply list_elem_of_lookup. exists (i - (length accepted - MAX_COMPLETION_KEYS))%nat.
    rewrite lookup_drop. rewrite <-Hi. f_equal. lia.
Qed.

Lemma spaced_out_NoDup accepted :
  spaced_out accepted → (length accepted ≤ S MAX_COMPLETION_KEYS)%nat → NoDup accepted.
Proof.
  intros Hs Hl. apply NoDup_alt. intros i j k Hi Hj.
  destruct (Nat.lt_total i j) as [Hij|[Hij|Hij]]; [|done|]; exfalso.
  - specialize (Hs i j k Hi Hj Hij). apply lookup_lt_Some in Hj. lia.
  - specialize (Hs j i k Hj Hi Hij). apply lookup_lt_Some in Hi. lia.
Qed.

(** Counting the calls of one kind for one key. *)
Definition count {A} (p : A → bool) (l : list A) : nat := length (filterb p l).
Arguments count : simpl never.
Definition calls (p : event → bool) (k : jsstr) (trace : list (jsstr * event)) : nat :=
  count (λ t, (fst t ==s k) && p (snd t)) trace.
Definition times (k : jsstr) (accepted : list jsstr) : nat := count (λ x, x ==s k) accepted.

Lemma count_app {A} (p : A → bool) l1 l2 : count p (l1 ++ l2) = (count p l1 + count p l2)%nat.
Proof. unfold count. by rewrite filterb_app, length_app. Qed.

Lemma calls_tagged p k r es :
  calls p k (tagged r es) = if r_completionKey r ==s k then count p es else 0%nat.
Proof.
  unfold calls, tagged, count. induction es as [|e es IH]; cbn; [by case_bool_decide|].
  case_bool_decide; cbn; [|done]. destruct (p e); cbn; by rewrite IH.
Qed.

Lemma attempt_prefix bad l : fst (attempt bad l) `prefix_of` l.
Proof.
  induction l as [|e l IH]; cbn; [done|]. destruct (bad e); [by exists l|].
  destruct (attempt bad l). cbn in *. by apply prefix_cons.
Qed.

Lemma attempt_count p bad l : (count p (fst (attempt bad l)) ≤ count p l)%nat.
Proof.
  destruct (attempt_prefix bad l) as [r Hr]. rewrite Hr at 2. rewrite count_app. lia.
Qed.

Lemma attempt_fine l bad : (∀ e, e ∈ l → bad e = false) → attempt bad l = (l, false).
Proof.
  induction l as [|e l IH]; intros H; [done|]. cbn.
  rewrite H by (by left). rewrite IH; [done|]. intros. apply H. by right.
Qed.

(** The four kinds of call that must not be repeated; [late] ones run after
    the wait. *)
Inductive kind := KStatus | KPersist | KRecord | KAfter.
Definition of_kind (kd : kind) (e : event) : bool :=
  match kd, e with
  | KStatus, ApplyStatus | KPersist, PersistClient | KRecord, RecordRecent _ | KAfter, AfterComplete => true
  | _, _ => false
  end.
Definition late (kd : kind) : nat := match kd with KRecord | KAfter => 1%nat | _ => 0%nat end.

Lemma count_when p b e : count p (when b e) = if b && p e then 1%nat else 0%nat.
Proof. unfold count. destruct b; cbn; [|done]. by destruct (p e). Qed.

Lemma count_before cb r kd : (count (of_kind kd) (before_wait cb r) + late kd ≤ 1)%nat.
Proof.
  unfold before_wait. rewrite !count_app, !count_when.
  assert (count (of_kind kd) (if has_renderLine cb
    then map RenderLine (filterb (λ l, negb (ln_rendered l)) (r_lines r)) else []) = 0%nat) as ->.
  { destruct (has_renderLine cb); [|done]. unfold count. rewrite filterb_none; [done|].
    intros e He. apply list_elem_of_In, in_map_iff in He as (l & <- & _). by destruct kd. }
  destruct kd; cbn; repeat case_goal; lia.
Qed.

Lemma count_after cb r v kd : (count (of_kind kd) (after_wait cb r v) ≤ late kd)%nat.
Proof.
  unfold after_wait. rewrite count_app, !count_when. destruct kd; cbn; repeat case_goal; lia.
Qed.

Lemma count_on_error cb b kd : count (of_kind kd) (on_error cb b) = 0%nat.
Proof. unfold on_error. destruct b, (has_onError cb), kd; done. Qed.

Lemma count_run_before cb r kd :
  (count (of_kind kd) (fst (run_before cb r)) + (if snd (run_before cb r) then late kd else 0) ≤ 1)%nat.
Proof.
  unfold run_before. pose proof (count_before cb r kd) as Hb.
  pose proof (attempt_count (of_kind kd) (throws cb r) (before_wait cb r)) as H1.
  destruct (attempt _ (before_wait cb r)) as [es failed]. cbn in H1.
  destruct failed; cbn [fst snd].
  { rewrite count_app, count_on_error. lia. }
  destruct (persists cb r); cbn [fst snd]; [lia|].
  pose proof (attempt_count (of_kind kd) (throws cb r) (after_wait cb r VNull)) as H2.
  pose proof (count_after cb r VNull kd).
  destruct (attempt _ (after_wait cb r VNull)) as [es' failed']. cbn [fst snd] in *.
  rewrite !count_app, count_on_error. lia.
Qed.

Lemma count_run_after cb r saved kd : (count (of_kind kd) (run_after cb r saved) ≤ late kd)%nat.
Proof.
  unfold run_after. destruct saved as [v|]; [|rewrite count_on_error; lia].
  pose proof (attempt_count (of_kind kd) (throws cb r) (after_wait cb r v)) as H2.
  pose proof (count_after cb r v kd).
  destruct (attempt _ _) as [es failed]. cbn in H2. rewrite count_app, count_on_error. lia.
Qed.

(** The invariant of every reachable coordinator. *)
Record coordinator_ok (s : coordinator) : Prop := {
  ok_window : co_keys s = window (co_accepted s);
  ok_spaced : spaced_out (co_accepted s);
  ok_counts : ∀ kd k,
    (calls (of_kind kd) k (co_trace s)
     + late kd * count (λ r, r_completionKey r ==s k) (co_waiting s)
     ≤ times k (co_accepted s))%nat
}.

Lemma complete_ok cb value defaults s ok r s' :
  coordinator_ok s → complete cb value defaults s = (ok, r, s') → coordinator_ok s'.
Proof.
  intros [Hw Hs Hc]. unfold complete. generalize (normalizeCommandResult value defaults). intros r0.
  case_bool_decide as Hin; [by intros [= <- <- <-]|].
  pose proof (count_run_before cb r0) as Hrun.
  destruct (run_before cb r0) as [es waits]. intros [= <- <- <-]. constructor; cbn.
  - by rewrite Hw, add_key_window.
  - apply spaced_out_snoc; [done|]. by rewrite <-Hw.
  - intros kd k. specialize (Hc kd k). specialize (Hrun kd). cbn [fst snd] in Hrun.
    unfold calls, times. rewrite !count_app. fold (calls (of_kind kd) k (tagged r0 es)).
    fold (calls (of_kind kd) k (co_trace s)). fold (times k (co_accepted s)).
    rewrite calls_tagged.
    assert (count (λ x, x ==s k) [r_completionKey r0] = if r_completionKey r0 ==s k then 1%nat else 0%nat)
      as -> by (unfold count; cbn; by case_bool_decide).
    assert (count (λ r, r_completionKey r ==s k) (if waits then co_waiting s ++ [r0] else co_waiting s)
            = (count (λ r, r_completionKey r ==s k) (co_waiting s)
              + if waits && (r_completionKey r0 ==s k) then 1 else 0)%nat) as ->.
    { destruct waits; [|cbn; lia]. rewrite count_app. f_equal. unfold count. cbn.
      by case_bool_decide. }
    case_bool_decide; destruct waits; cbn [andb]; nia.
Qed.

Lemma step_ok cb s s' : coordinator_ok s → step cb s s' → coordinator_ok s'.
Proof.
  intros Hok Hstep. destruct Hstep as [value defaults s s' r ok Hc|bef r aft s saved Hwait].
  { by eapply complete_ok. }
  destruct Hok as [Hw Hs Hc]. constructor; cbn; [done|done|].
  intros kd k. specialize (Hc kd k). rewrite Hwait in Hc.
  change (r :: aft) with ([r] ++ aft) in Hc. rewrite !count_app in Hc. rewrite count_app.
  unfold calls in *. rewrite count_app. fold (calls (of_kind kd) k (tagged r (run_after cb r saved))).
  rewrite calls_tagged. pose proof (count_run_after cb r saved kd) as Hr.
  assert (count (λ r, r_completionKey r ==s k) [r] = if r_completionKey r ==s k then 1%nat else 0%nat)
    as Hone by (unfold count; cbn; by case_bool_decide).
  rewrite Hone in Hc. case_bool_decide; nia.
Qed.

Lemma reachable_ok cb s : reachable cb s → coordinator_ok s.
Proof.
  induction 1 as [|s s' _ IH Hs].
  - constructor; [done| |intros [] k; unfold calls, times, count; cbn; lia]. intros i j k Hi. done.
  - by eapply step_ok.
Qed.

#[export] Hint Resolve reachable_ok step_ok normalize_line_ok : darklab.

(** A run for concrete instances. *)
Definition demo_callbacks : callbacks := Callbacks true true true true true true true (λ _ _, false).
Definition demo_call (s : coordinator) : coordinator :=
  snd (complete demo_callbacks (VObj [(js "command", vstr "ls"); (js "persistence", vstr "client")]) VUndef s).

Lemma demo_call_reachable s : reachable demo_callbacks s → reachable demo_callbacks (demo_call s).
Proof.
  intros Hs. eapply reach_step; [exact Hs|]. unfold demo_call.
  destruct (complete _ _ _ s) as [[ok r] s'] eqn:Hc. by eapply step_complete.
Qed.

(** ** Properties *)

(** C2: However calls and server answers interleave, and whatever callback
    throws, a completion key is settled once: between two acceptances of the
    same key at least 4096 other calls were accepted (the size of the key
    set), each acceptance applies a status, persists, records and finishes at
    most once, and so, until 4097 calls were accepted, no key repeats any of
    them. *)
Theorem completion_at_most_once cb s :
  reachable cb s →
  spaced_out (co_accepted s)
  ∧ (∀ kd k, (calls (of_kind kd) k (co_trace s) ≤ times k (co_accepted s))%nat)
  ∧ ((length (co_accepted s) ≤ S MAX_COMPLETION_KEYS)%nat →
     ∀ kd k, (calls (of_kind kd) k (co_trace s) ≤ 1)%nat).
Proof.
  intros Hr. apply reachable_ok in Hr as [_ Hs Hc]. split; [done|].
  assert (∀ kd k, (calls (of_kind kd) k (co_trace s) ≤ times k (co_accepted s))%nat) as Hle
    by (intros kd k; specialize (Hc kd k); lia).
  split; [done|]. intros Hl kd k. etrans; [apply Hle|].
  apply (spaced_out_NoDup _ Hs) in Hl. unfold times, count. revert Hl. clear.
  induction (co_accepted s) as [|x l IH]; intros Hnd; cbn; [lia|].
  apply NoDup_cons in Hnd as [Hx Hnd]. specialize (IH Hnd).
  case_bool_decide as Hk; [|done]. subst x. rewrite filterb_none; [cbn; lia|].
  intros y Hy. apply bool_decide_eq_false. by intros ->.
Qed.

Lemma completion_at_most_once_witness :
  let s := demo_call (demo_call (Coordinator [] [] [] [])) in
  (calls (of_kind KStatus) (js "command::ls") (co_trace s) ≤ 1)%nat
  ∧ co_accepted s = [js "command::ls"] ∧ calls (of_kind KPersist) (js "command::ls") (co_trace s) = 1%nat.
Proof.
  split; [|split; vm_compute; reflexivity].
  apply (completion_at_most_once demo_callbacks).
  - apply demo_call_reachable, demo_call_reachable, reach_start.
  - vm_compute. lia.
Defined.


(** A result is a normal form: normalising it again, whatever defaults are
    offered, changes nothing (unless its source was given as an empty array).
    Its status is never [idle] and its exit code is
    an integer; without a usable exit code a failure has code 1, a kill -15
    and a success 0; without a known status, the status is a success exactly
    when the code is zero. *)
Theorem normalizeCommandResult_normal value defaults defaults' :
  let r := normalizeCommandResult value defaults in
  let code := js_nullish (get (VObj (props_of value)) (js "exitCode"))
                (js_nullish (get (VObj (props_of defaults)) (js "exitCode")) VNull) in
  (r_source r ≠ [] → normalizeCommandResult (VObj (result_props r)) (VObj defaults') = r)
  ∧ is_integer (r_exitCode r) = true ∧ r_status r ≠ Idle
  ∧ (explicit_exit code = None →
     r_exitCode r = match r_status r with Fail => num_of_Z 1 | Killed => num_of_Z (-15) | _ => num_of_Z 0 end)
  ∧ (parse_status (lower (to_string (js_or (get (VObj (props_of value)) (js "status"))
        (js_or (get (VObj (props_of defaults)) (js "status")) (vstr "idle"))))) = None →
     r_status r = Ok ↔ neqb (r_exitCode r) (num_of_Z 0) = true).
Proof.
  cbv zeta. set (code := js_nullish _ _). set (r := normalizeCommandResult value defaults).
  assert (r_exitCode r = commandExitCode (Some (r_status r)) code) as Hcode by reflexivity.
  split; [|split; [|split; [|split]]].
  - intros Hsrc. by apply normalize_result_props, normalized_result_ok.
  - rewrite Hcode. apply commandExitCode_integer.
  - apply commandStatus_settled.
  - intros Hn. rewrite Hcode. unfold commandExitCode. rewrite Hn. by destruct (r_status r).
  - intros Hn. rewrite Hcode.
    assert (r_status r = commandStatus None code) as -> by (unfold r, normalizeCommandResult; cbn [r_status]; by rewrite Hn).
    unfold commandStatus. destruct (neqb (commandExitCode None code) (num_of_Z 0)) eqn:Hz.
    + unfold commandExitCode in *. destruct (explicit_exit code); [by rewrite Hz|done].
    + split; [done|]. unfold commandExitCode in *. destruct (explicit_exit code); [by rewrite Hz|done].
Qed.
