(* ===== verification/HistoryRecall.v ===== *)
(** Command recall (app/static/js/features/history/history_recall.js): the
    recall lists and the up/down navigation of the prompt, with the composer it
    writes to (app/static/js/ui/ui_helpers.js). *)

From S2P Require Import Prelude JsString JsNumber JsValue HistoryCore.

(** ** Definitions *)

Record tab_recall := TabRecall
  { tr_history : list jsstr; tr_index : Z; tr_draft : jsstr }.

(** The fields of the shared state and of the active tab that recall uses. *)
Record recall := Recall
  { rc_tab : option tab_recall;              (* the active tab, if there is one *)
    rc_running : bool;                       (* it is running a command *)
    rc_history : list jsstr;                 (* cmdHistory *)
    rc_preview : list jsstr;                 (* recentPreviewHistory *)
    rc_index : Z; rc_draft : jsstr;          (* _cmdHistoryNavIndex, _cmdHistoryNavDraft *)
    rc_suspend : bool;                       (* _suspendCmdHistoryNavReset *)
    rc_composer : jsstr;
    rc_search : option jsstr }.              (* reverse search: the draft it started from *)

Definition with_tab (t : option tab_recall) (s : recall) : recall :=
  Recall t (rc_running s) (rc_history s) (rc_preview s) (rc_index s) (rc_draft s)
         (rc_suspend s) (rc_composer s) (rc_search s).
Definition with_nav (i : Z) (d : jsstr) (s : recall) : recall :=
  Recall (rc_tab s) (rc_running s) (rc_history s) (rc_preview s) i d
         (rc_suspend s) (rc_composer s) (rc_search s).
Definition with_suspend (b : bool) (s : recall) : recall :=
  Recall (rc_tab s) (rc_running s) (rc_history s) (rc_preview s) (rc_index s) (rc_draft s)
         b (rc_composer s) (rc_search s).
Definition with_composer (v : jsstr) (s : recall) : recall :=
  Recall (rc_tab s) (rc_running s) (rc_history s) (rc_preview s) (rc_index s) (rc_draft s)
         (rc_suspend s) v (rc_search s).
Definition with_search (q : option jsstr) (s : recall) : recall :=
  Recall (rc_tab s) (rc_running s) (rc_history s) (rc_preview s) (rc_index s) (rc_draft s)
         (rc_suspend s) (rc_composer s) q.
Definition with_lists (h p : list jsstr) (s : recall) : recall :=
  Recall (rc_tab s) (rc_running s) h p (rc_index s) (rc_draft s)
         (rc_suspend s) (rc_composer s) (rc_search s).

(** The navigation in use: the active tab's, or the shared one. *)
Definition nav_index (s : recall) : Z :=
  match rc_tab s with Some t => tr_index t | None => rc_index s end.
Definition nav_draft (s : recall) : jsstr :=
  match rc_tab s with Some t => tr_draft t | None => rc_draft s end.
Definition set_nav (i : Z) (d : jsstr) (s : recall) : recall :=
  match rc_tab s with
  | Some t => with_tab (Some (TabRecall (tr_history t) i d)) s
  | None => with_nav i d s
  end.

(** [setComposerValue]: it refuses a command while the tab runs one. *)
Definition write_text (value : jsstr) (s : recall) : recall :=
  if nonempty (trim value) && rc_running s then s else with_composer value s.

(** [exitHistSearch(false)]: the draft comes back. *)
Definition exit_search (s : recall) : recall :=
  match rc_search s with
  | Some draft => write_text draft (with_search None s)
  | None => s
  end.

Definition resetCmdHistoryNav (s : recall) : recall := exit_search (set_nav (-1) [] s).

(** A write is followed by the composer's input event, whose handler resets the
    navigation unless it was told, once, not to. *)
Definition composer_event (s : recall) : recall :=
  if rc_running s then with_composer [] s
  else if rc_suspend s then with_suspend false s else resetCmdHistoryNav s.
Definition set_composer (value : jsstr) (s : recall) : recall :=
  if nonempty (trim value) && rc_running s then s
  else composer_event (with_composer value s).

Section Config.
Context (config : jsval).

Definition _historyLimit : num := historyLimit config.
Definition tab_value (t : tab_recall) : jsval :=
  VObj [(js "commandHistory", VArr (map VStr (tr_history t)))].
Definition _commandRecallHistory (t : tab_recall) (s : recall) : list jsstr :=
  commandRecallHistory (tab_value t) (VArr (map VStr (rc_history s))) (VNum _historyLimit).
Definition nav_history (s : recall) : list jsstr :=
  match rc_tab s with Some t => _commandRecallHistory t s | None => rc_history s end.
Definition nav_entry (i : Z) (s : recall) : jsstr :=
  if i <? 0 then [] else default [] (nav_history s !! Z.to_nat i).

Definition recall_entry (i : Z) (d : jsstr) (s : recall) : recall :=
  let s := with_suspend true (set_nav i d s) in set_composer (nav_entry i s) s.

Definition navigateCmdHistory (delta : Z) (s : recall) : bool * recall :=
  if bool_decide (nav_history s = []) then (false, s) else
  let current := nav_index s in
  if 0 <? delta then
    if current =? -1 then (true, recall_entry 0 (rc_composer s) s)
    else if current <? Z.of_nat (length (nav_history s)) - 1
    then (true, recall_entry (current + 1) (nav_draft s) s)
    else (true, s)
  else if delta <? 0 then
    if current =? -1 then (false, s)
    else if 0 <? current then (true, recall_entry (current - 1) (nav_draft s) s)
    else let s := with_suspend true s in
         (true, resetCmdHistoryNav (set_composer (nav_draft s) s))
  else (false, s).

(** [[cmd, ...l.filter(c => c !== cmd)].slice(0, limit)]. *)
Definition push_front (limit : num) (cmd : jsstr) (l : list jsstr) : list jsstr :=
  take_num limit (cmd :: filterb (λ c, negb (c ==s cmd)) l).

Definition addToHistory (cmd : jsstr) (s : recall) : recall :=
  let s := with_lists (push_front _historyLimit cmd (rc_history s)) (rc_preview s) s in
  let s := match rc_tab s with
           | Some t => with_tab (Some (TabRecall (push_front _historyLimit cmd (tr_history t))
                                                 (tr_index t) (tr_draft t))) s
           | None => s
           end in
  resetCmdHistoryNav s.

(** [slice(0, limit)] for the raw setting: everything when it is missing, and
    all but the last ones when it is negative. *)
Definition take_setting (limit : jsval) (l : list jsstr) : list jsstr :=
  match limit with
  | VUndef => l
  | v =>
      let x := to_number v in
      if nltb x num_zero then take (length l - length (take_num (SpecFloat.SFopp x) l)) l
      else take_num x l
  end.

Definition addToRecentPreview (cmd : jsstr) (s : recall) : recall :=
  with_lists (rc_history s)
    (take_setting (get config (js "recent_commands_limit"))
       (cmd :: filterb (λ c, negb (c ==s cmd)) (rc_preview s))) s.

Definition run_commands (runs : jsval) : list jsstr :=
  filterb nonempty
    (map (λ run, match get run (js "command") with VStr c => c | _ => [] end) (items_of runs)).
Definition hydrateCmdHistory (runs : jsval) (mergeExisting : bool) (s : recall) : recall :=
  let unique l := take_setting (get config (js "recent_commands_limit")) (dedup l) in
  let commands := run_commands runs in
  let s := with_lists (unique ((if mergeExisting then rc_history s else []) ++ commands))
                      (unique ((if mergeExisting then rc_preview s else []) ++ commands)) s in
  if mergeExisting then s else resetCmdHistoryNav s.
End Config.

(** ** Lemmas *)

(** Navigation away from the draft, and back on it. *)
Definition at_entry (config : jsval) (i : Z) (s : recall) : recall :=
  with_suspend false (with_composer (nav_entry config i s) (set_nav i (rc_composer s) s)).
Definition at_draft (s : recall) : recall :=
  with_suspend false (set_nav (-1) [] s).

(** The prompt is free: nothing runs, and no reverse search is open. *)
Definition free (s : recall) : Prop := rc_running s = false ∧ rc_search s = None.

Definition press (config : jsval) (delta : Z) (s : recall) : recall :=
  snd (navigateCmdHistory config delta s).
Fixpoint presses (config : jsval) (delta : Z) (n : nat) (s : recall) : recall :=
  match n with O => s | S n => press config delta (presses config delta n s) end.

Section Navigation.
Context (config : jsval).

Lemma nav_history_set_nav i d s : nav_history config (set_nav i d s) = nav_history config s.
Proof. unfold nav_history, set_nav. by destruct (rc_tab s) as [[]|] eqn:Ht; cbn; rewrite ?Ht. Qed.

Lemma nav_entry_set_nav j i d s : nav_entry config j (set_nav i d s) = nav_entry config j s.
Proof. unfold nav_entry. by rewrite nav_history_set_nav. Qed.

Lemma set_nav_twice i d j e s : set_nav i d (set_nav j e s) = set_nav i d s.
Proof. unfold set_nav. by destruct s as [[[]|]]. Qed.

Lemma nav_index_set i d s : nav_index (set_nav i d s) = i.
Proof. unfold nav_index, set_nav. by destruct s as [[[]|]]. Qed.
Lemma nav_draft_set i d s : nav_draft (set_nav i d s) = d.
Proof. unfold nav_draft, set_nav. by destruct s as [[[]|]]. Qed.

(** Writing a recalled command keeps the navigation. *)
Lemma recall_entry_free i d s :
  free s → recall_entry config i d s
           = with_suspend false (with_composer (nav_entry config i s) (set_nav i d s)).
Proof.
  intros [Hrun Hsearch]. unfold recall_entry, set_composer.
  assert (nav_entry config i (with_suspend true (set_nav i d s)) = nav_entry config i s) as ->.
  { rewrite <-(nav_entry_set_nav i i d s). done. }
  destruct s as [[[]|] run h p idx dr su c q]; cbn in *; subst run;
    by rewrite andb_false_r.
Qed.

Lemma up_first s :
  free s → nav_index s = -1 → nav_history config s ≠ [] →
  navigateCmdHistory config 1 s = (true, at_entry config 0 s).
Proof.
  intros Hf Hi Hh. unfold navigateCmdHistory. rewrite bool_decide_false by done. rewrite Hi.
  cbn [Z.ltb Z.eqb]. change (-1 =? -1) with true. cbv iota. by rewrite recall_entry_free.
Qed.

Lemma at_entry_free i s : free s → free (at_entry config i s).
Proof. intros [? ?]. unfold free, at_entry, set_nav. by destruct (rc_tab s). Qed.

Lemma at_entry_history i s : nav_history config (at_entry config i s) = nav_history config s.
Proof. rewrite <-(nav_history_set_nav i (rc_composer s) s). done. Qed.

Lemma at_entry_recall i j s :
  with_suspend false (with_composer (nav_entry config j (at_entry config i s))
                                    (set_nav j (rc_composer s) (at_entry config i s)))
  = at_entry config j s.
Proof.
  assert (nav_entry config j (at_entry config i s) = nav_entry config j s) as ->
    by (unfold nav_entry; by rewrite at_entry_history).
  unfold at_entry. by destruct s as [[[]|]].
Qed.

Lemma at_entry_nav i s :
  nav_index (at_entry config i s) = i ∧ nav_draft (at_entry config i s) = rc_composer s.
Proof. unfold at_entry. by destruct s as [[[]|]]. Qed.

Lemma up_next i s :
  free s → 0 ≤ i < Z.of_nat (length (nav_history config s)) - 1 →
  navigateCmdHistory config 1 (at_entry config i s) = (true, at_entry config (i + 1) s).
Proof.
  intros Hf Hi. unfold navigateCmdHistory. destruct (at_entry_nav i s) as [-> ->].
  rewrite at_entry_history. rewrite bool_decide_false by (intros Hn; rewrite Hn in Hi; cbn in Hi; lia).
  rewrite (proj2 (Z.eqb_neq i (-1))) by lia. rewrite (proj2 (Z.ltb_lt i _)) by lia. cbn [Z.ltb].
  change (0 <? 1) with true. cbv iota.
  rewrite recall_entry_free by by apply at_entry_free. by rewrite at_entry_recall.
Qed.

Lemma down_next i s :
  free s → 0 < i → nav_history config s ≠ [] →
  navigateCmdHistory config (-1) (at_entry config i s) = (true, at_entry config (i - 1) s).
Proof.
  intros Hf Hi Hh. unfold navigateCmdHistory. destruct (at_entry_nav i s) as [-> ->].
  rewrite at_entry_history. rewrite bool_decide_false by done.
  change (0 <? -1) with false. change (-1 <? 0) with true. cbv iota.
  rewrite (proj2 (Z.eqb_neq i (-1))) by lia. rewrite (proj2 (Z.ltb_lt 0 i)) by lia.
  rewrite recall_entry_free by by apply at_entry_free. by rewrite at_entry_recall.
Qed.

Lemma down_last s :
  free s → nav_history config s ≠ [] →
  navigateCmdHistory config (-1) (at_entry config 0 s) = (true, at_draft s).
Proof.
  intros [Hrun Hsearch] Hh. unfold navigateCmdHistory. destruct (at_entry_nav 0 s) as [-> Hd].
  rewrite at_entry_history, bool_decide_false by done.
  change (0 <? -1) with false. change (-1 <? 0) with true. change (0 =? -1) with false.
  change (0 <? 0) with false. cbv iota zeta.
  assert (nav_draft (with_suspend true (at_entry config 0 s)) = rc_composer s) as ->
    by (rewrite <-Hd; done).
  destruct s as [[[]|] run h p idx dr su c q]; cbn in Hrun, Hsearch; subst run q;
    unfold set_composer; cbn [rc_running at_entry with_suspend with_composer set_nav with_tab with_nav rc_tab];
    by rewrite andb_false_r.
Qed.

Lemma presses_up k s :
  free s → nav_index s = -1 → (k < length (nav_history config s))%nat →
  presses config 1 (S k) s = at_entry config (Z.of_nat k) s.
Proof.
  intros Hf Hi. induction k as [|k IH]; intros Hk.
  - cbn [presses]. unfold press. rewrite up_first; [done|done|done|].
    by destruct (nav_history config s); cbn in Hk; [lia|].
  - change (presses config 1 (S (S k)) s) with (press config 1 (presses config 1 (S k) s)).
    rewrite IH by lia. unfold press. rewrite up_next by (done || lia). cbn [snd]. f_equal. lia.
Qed.

Lemma presses_S_r n delta s : presses config delta (S n) s = presses config delta n (press config delta s).
Proof. induction n as [|n IH]; [done|]. cbn [presses] in *. by rewrite IH. Qed.

Lemma presses_down k s :
  free s → nav_history config s ≠ [] →
  presses config (-1) (S k) (at_entry config (Z.of_nat k) s) = at_draft s.
Proof.
  intros Hf Hh. induction k as [|k IH].
  - cbn [presses]. unfold press. by rewrite down_last.
  - rewrite presses_S_r. unfold press. rewrite down_next by (done || lia). cbn [snd].
    replace (Z.of_nat (S k) - 1) with (Z.of_nat k) by lia. apply IH.
Qed.
End Navigation.

Lemma NoDup_push_front limit cmd l : NoDup l → NoDup (push_front limit cmd l).
Proof.
  intros H. eapply sublist_NoDup; [|apply take_num_sublist]. constructor; [|by apply NoDup_filterb].
  rewrite elem_of_filterb. rewrite negb_true_iff, bool_decide_eq_false. naive_solver.
Qed.

Lemma take_setting_sublist limit l : take_setting limit l `sublist_of` l.
Proof.
  unfold take_setting. destruct limit; try done;
    (case_goal; [apply sublist_take|apply take_num_sublist]).
Qed.

Record recall_ok (s : recall) : Prop := {
  ro_history : NoDup (rc_history s);
  ro_preview : NoDup (rc_preview s);
  ro_tab : match rc_tab s with Some t => NoDup (tr_history t) | None => True end
}.

Definition same_lists (s s' : recall) : Prop :=
  rc_history s' = rc_history s ∧ rc_preview s' = rc_preview s
  ∧ (tr_history <$> rc_tab s') = (tr_history <$> rc_tab s).

Lemma reset_same_lists s : same_lists s (resetCmdHistoryNav s).
Proof.
  unfold resetCmdHistoryNav, exit_search, write_text, set_nav.
  destruct s as [[[]|] run h p i d su c [q|]]; cbn; try done; by destruct (_ && _).
Qed.

Lemma same_lists_ok s s' : same_lists s s' → recall_ok s → recall_ok s'.
Proof.
  intros (Hh & Hp & Ht) [H1 H2 H3]. constructor; [by rewrite Hh|by rewrite Hp|].
  destruct (rc_tab s'), (rc_tab s); cbn in *; simplify_eq; try done. congruence.
Qed.

#[export] Hint Resolve NoDup_push_front take_setting_sublist : darklab.

(** ** Properties *)

(** Recall walks the history and comes back: from a free prompt, the n-th
    press of Up shows the n-th most recent command, and n presses of Down then
    restore the text that was being typed and leave navigation reset. No list
    changes on the way. *)
Theorem recall_round_trip config s k :
  free s → nav_index s = -1 → (k < length (nav_history config s))%nat →
  let up := presses config 1 (S k) s in
  let back := presses config (-1) (S k) up in
  rc_composer up = default [] (nav_history config s !! k) ∧ nav_index up = Z.of_nat k
  ∧ rc_composer back = rc_composer s ∧ nav_index back = -1
  ∧ same_lists s up ∧ same_lists s back.
Proof.
  intros Hf Hi Hk. cbv zeta. rewrite presses_up by done.
  rewrite presses_down by (done || intros Hn; rewrite Hn in Hk; cbn in Hk; lia).
  destruct (at_entry_nav config (Z.of_nat k) s) as [-> _].
  split; [|split; [done|]].
  - unfold at_entry, nav_entry. cbn. rewrite (proj2 (Z.ltb_ge _ 0)) by lia. by rewrite Nat2Z.id.
  - unfold at_draft, at_entry, same_lists. destruct s as [[[]|]]; done.
Qed.

Lemma recall_round_trip_witness :
  rc_composer (presses VUndef (-1) 2 (presses VUndef 1 2
    (Recall None false [js "ls"; js "dig a.b"] [] (-1) [] false (js "nma") None))) = js "nma".
Proof.
  apply (recall_round_trip VUndef
    (Recall None false [js "ls"; js "dig a.b"] [] (-1) [] false (js "nma") None) 1).
  - split; reflexivity.
  - reflexivity.
  - cbn. lia.
Defined.

(** The recall lists never hold a command twice: adding a command, loading
    the stored runs, resetting and recalling all keep that. After a command is
    added it comes first and the list is within the limit, and every other
    command keeps its place among those that remain. *)
Theorem recall_lists_ok config s :
  recall_ok s →
  (∀ cmd, recall_ok (addToHistory config cmd s) ∧ recall_ok (addToRecentPreview config cmd s))
  ∧ (∀ runs merge, recall_ok (hydrateCmdHistory config runs merge s))
  ∧ recall_ok (resetCmdHistoryNav s)
  ∧ ∀ cmd L, historyLimit config = num_of_Z L → 1 ≤ L < 2 ^ 53 →
      let h := rc_history (addToHistory config cmd s) in
      head h = Some cmd ∧ Z.of_nat (length h) ≤ L ∧ tl h `sublist_of` rc_history s.
Proof.
  intros Hok. pose proof Hok as [Hh Hp Ht]. split; [|split; [|split]].
  - intros cmd. split.
    + unfold addToHistory. set (t := with_lists _ _ s).
      eapply same_lists_ok; [apply reset_same_lists|].
      assert (recall_ok t) as Hok' by (constructor; cbn; auto using NoDup_push_front).
      destruct (rc_tab t) as [tab|] eqn:Htab; [|done]. constructor; cbn; [apply Hok'|apply Hok'|].
      apply NoDup_push_front. destruct Hok' as [_ _ Ht']. by rewrite Htab in Ht'.
    + constructor; cbn; [done| |done]. eapply sublist_NoDup; [|apply take_setting_sublist].
      constructor; [|by apply NoDup_filterb].
      rewrite elem_of_filterb, negb_true_iff, bool_decide_eq_false. naive_solver.
  - intros runs merge. unfold hydrateCmdHistory. set (t := with_lists _ _ s).
    assert (recall_ok t) as Hok'.
    { constructor; cbn; [| |done]; (eapply sublist_NoDup; [|apply take_setting_sublist]); apply NoDup_dedup. }
    destruct merge; [done|]. eapply same_lists_ok; [apply reset_same_lists|done].
  - eapply same_lists_ok; [apply reset_same_lists|done].
  - intros cmd L HL Hb. cbv zeta.
    assert (rc_history (addToHistory config cmd s) = push_front (num_of_Z L) cmd (rc_history s)) as ->.
    { unfold addToHistory, _historyLimit. rewrite HL.
      rewrite (proj1 (reset_same_lists _)). by destruct (rc_tab _). }
    unfold push_front. rewrite take_num_of_Z by lia.
    destruct (Z.to_nat L) as [|n] eqn:Hn; [lia|]. cbn [take head tl length].
    split; [done|]. split; [rewrite length_take; lia|].
    etrans; [apply sublist_take|apply filterb_sublist].
Qed.

Lemma recall_lists_ok_witness :
  recall_ok (addToHistory (VObj [(js "recent_commands_limit", vint 2)]) (js "ls")
    (Recall None false [js "a"; js "ls"; js "b"] [] (-1) [] false [] None)).
Proof.
  apply (recall_lists_ok (VObj [(js "recent_commands_limit", vint 2)])
    (Recall None false [js "a"; js "ls"; js "b"] [] (-1) [] false [] None)).
  constructor; cbn; [|constructor|exact I]. apply (bool_decide_unpack _). vm_compute. exact I.
Defined.
