(* ===== verification/ComposerEditing.v ===== *)
(** Editing keys of the composer
    (app/static/js/features/terminal/composer_editing.js): selections, range
    replacement and word movement. *)

From S2P Require Import Prelude JsString.

(** ** Definitions *)

(** What the shared state, or an input element, says of text and selection. *)
Record composer := Composer
  { cp_value : option jsstr; cp_start : option Z; cp_end : option Z }.

Definition or_else {A} (a b : option A) : option A := match a with Some _ => a | None => b end.
Definition ordered_pair (s e : Z) : Z * Z := if e <? s then (e, s) else (s, e).

Definition field {A} (f : composer → option A) (c : option composer) : option A :=
  match c with Some c => f c | None => None end.

Definition getCmdSelection (value : option jsstr) (state input : option composer) : Z * Z :=
  let source := default [] (or_else value (or_else (field cp_value state) (field cp_value input))) in
  let len := Z.of_nat (length source) in
  let start := default len (or_else (field cp_start state) (field cp_start input)) in
  let en := default len (or_else (field cp_end state) (field cp_end input)) in
  ordered_pair start en.

Definition getInputSelection (input : composer) (value : option jsstr) : Z * Z :=
  let text := default (default [] (cp_value input)) value in
  let len := Z.of_nat (length text) in
  ordered_pair (default len (cp_start input)) (default len (cp_end input)).

(** The new text and caret; positions are in the text. *)
Definition replaceCmdRange (value : jsstr) (start en : nat) (replacement : jsstr) : jsstr * nat :=
  (take start value ++ replacement ++ drop en value, (start + length replacement)%nat).

Definition moveCmdCaret (delta : Z) (value : jsstr) (state input : option composer) : Z :=
  let '(start, en) := getCmdSelection (Some value) state input in
  Z.max 0 (Z.min (Z.of_nat (length value)) ((if delta <? 0 then start else en) + delta)).

(** [/[A-Za-z0-9]/.test(char || '')]. *)
Definition isTerminalWordChar (char : option Z) : bool :=
  match char with Some c => is_alnum c | None => false end.

(** [while (next > 0 && p(value[next - 1])) next--]. *)
Fixpoint skip_left (p : option Z → bool) (value : jsstr) (next : nat) : nat :=
  match next with
  | O => O
  | S n => if p (value !! n) then skip_left p value n else next
  end.
(** [while (next < value.length && p(value[next])) next++], with
    [fuel] at least the units that are left. *)
Fixpoint skip_right (fuel : nat) (p : option Z → bool) (value : jsstr) (next : nat) : nat :=
  match fuel with
  | O => next
  | S fuel =>
      if bool_decide (next < length value)%nat && p (value !! next)
      then skip_right fuel p value (S next) else next
  end.

Definition not_word (c : option Z) : bool := negb (isTerminalWordChar c).
Definition findWordBoundaryLeft (value : jsstr) (index : Z) : nat :=
  skip_left isTerminalWordChar value (skip_left not_word value (Z.to_nat index)).
Definition findWordBoundaryRight (value : jsstr) (index : nat) : nat :=
  let next := (length value `min` index)%nat in
  skip_right (length value) isTerminalWordChar value (skip_right (length value) not_word value next).

Definition moveCmdCaretByWord (direction : Z) (value : jsstr) (state input : option composer) : nat :=
  let '(start, en) := getCmdSelection (Some value) state input in
  if direction <? 0 then findWordBoundaryLeft value start
  else findWordBoundaryRight value (Z.to_nat en).

Record key_event := KeyEvent
  { ke_key : jsstr; ke_alt : bool; ke_ctrl : bool; ke_meta : bool; ke_shift : bool }.
(** The direction the shortcut moves in, [None] when the key is not one. *)
Definition handleComposerWordArrowShortcut (e : key_event) : option Z :=
  if negb (ke_alt e) || ke_ctrl e || ke_meta e || ke_shift e then None
  else if ke_key e ==s js "ArrowLeft" then Some (-1)
  else if ke_key e ==s js "ArrowRight" then Some 1
  else None.

(** ** Lemmas *)

(** Every unit from [a] up to [b] satisfies [p]. *)
Definition all_between (p : option Z → bool) (value : jsstr) (a b : nat) : Prop :=
  ∀ i, (a ≤ i < b)%nat → p (value !! i) = true.

Lemma skip_left_spec p value next :
  let r := skip_left p value next in
  (r ≤ next)%nat ∧ all_between p value r next
  ∧ (∀ n, r = S n → p (value !! n) = false).
Proof.
  cbv zeta. induction next as [|n (IH1 & IH2 & IH3)]; cbn [skip_left].
  - split; [done|]. split; [intros i; lia|done].
  - destruct (p (value !! n)) eqn:Hp.
    + split; [lia|]. split; [|done]. intros i Hi.
      destruct (decide (i = n)) as [->|]; [done|]. apply IH2. lia.
    + split; [done|]. split; [intros i; lia|]. by intros ? [= <-].
Qed.

Lemma skip_right_spec fuel p value next :
  (length value ≤ next + fuel)%nat → (next ≤ length value)%nat →
  let r := skip_right fuel p value next in
  (next ≤ r ≤ length value)%nat ∧ all_between p value next r
  ∧ (r = length value ∨ p (value !! r) = false).
Proof.
  cbv zeta. revert next. induction fuel as [|fuel IH]; intros next Hf Hn; cbn [skip_right].
  - split; [lia|]. split; [intros i; lia|]. left. lia.
  - destruct (_ && _) eqn:Hc.
    + apply andb_true_iff in Hc as [Hl Hp]. apply bool_decide_eq_true in Hl.
      destruct (IH (S next)) as (H1 & H2 & H3); [lia|lia|].
      split; [lia|]. split; [|done]. intros i Hi.
      destruct (decide (i = next)) as [->|]; [done|]. apply H2. lia.
    + split; [lia|]. split; [intros i; lia|].
      apply andb_false_iff in Hc as [Hc|Hc]; [left|by right].
      apply bool_decide_eq_false in Hc. lia.
Qed.

(** ** Properties *)

(** Word movement stops at words: moving right from a position in the text
    skips the units that belong to no word and then exactly one word, to its
    end; moving left skips the same way to the start of a word; neither leaves
    the text nor moves backwards. *)
Theorem word_boundaries value index :
  (index ≤ length value)%nat →
  (∃ m, let r := findWordBoundaryRight value index in
     (index ≤ m ≤ r)%nat ∧ (r ≤ length value)%nat
     ∧ all_between not_word value index m ∧ all_between isTerminalWordChar value m r
     ∧ (r = length value ∨ isTerminalWordChar (value !! r) = false))
  ∧ (∃ m, let l := findWordBoundaryLeft value (Z.of_nat index) in
     (l ≤ m ≤ index)%nat
     ∧ all_between not_word value m index ∧ all_between isTerminalWordChar value l m
     ∧ (∀ n, l = S n → isTerminalWordChar (value !! n) = false)).
Proof.
  intros Hi. split.
  - unfold findWordBoundaryRight. rewrite Nat.min_r by done.
    destruct (skip_right_spec (length value) not_word value index) as (H1 & H2 & _); [lia|lia|].
    set (m := skip_right _ not_word _ _) in *.
    destruct (skip_right_spec (length value) isTerminalWordChar value m) as (H3 & H4 & H5); [lia|lia|].
    exists m. cbv zeta. split; [lia|]. split; [lia|]. done.
  - unfold findWordBoundaryLeft. rewrite Nat2Z.id.
    destruct (skip_left_spec not_word value index) as (H1 & H2 & _).
    set (m := skip_left not_word _ _) in *.
    destruct (skip_left_spec isTerminalWordChar value m) as (H3 & H4 & H5).
    exists m. cbv zeta. split; [lia|]. done.
Qed.

Lemma word_boundaries_witness :
  ∃ m, let r := findWordBoundaryRight (js "ls  -la x") 2 in
     (2 ≤ m ≤ r)%nat ∧ (r ≤ 9)%nat
     ∧ all_between not_word (js "ls  -la x") 2 m ∧ all_between isTerminalWordChar (js "ls  -la x") m r
     ∧ (r = 9%nat ∨ isTerminalWordChar (js "ls  -la x" !! r) = false).
Proof.
  apply (word_boundaries (js "ls  -la x") 2). change (length (js "ls  -la x")) with 9%nat. lia.
Defined.
