(* ===== verification/RunnerPersistence.v ===== *)
(** What is stored about runs
    (app/static/js/features/runner/runner_persistence.js and
    runner_active_restore.js): the command text safe to keep, the request that
    saves a client-side run, and the set of runs a user detached from. *)

From stdpp Require Import gmap.
From S2P Require Import Prelude JsString JsNumber JsRegExp JsValue JsJson.

(** ** Definitions: safe commands *)

(** A prefix, in any letter case. *)
Definition starts_with_ci (p s : jsstr) : bool := starts_with p (lower s).

(** [/^credential(?:\s+([^\s|]+))?/i]: [None] for no match, else the capture. *)
Definition match_credential (value : jsstr) : option (option jsstr) :=
  if starts_with_ci (js "credential") value then
    let rest := drop 10 value in
    let word := take_while (λ c, negb (is_ws c) && negb (c =? cu "|")) (drop_while is_ws rest) in
    Some (if existsb is_ws (take 1 rest) && nonempty word then Some word else None)
  else None.

(** [/^(\s*secret\s+set\s+\S+)(?:\s+.+)$/i]: the first capture. *)
Definition match_secret (value : jsstr) : option jsstr :=
  let r0 := drop_while is_ws value in
  if negb (starts_with_ci (js "secret") r0) then None else
  let r1 := drop 6 r0 in
  let r2 := drop_while is_ws r1 in
  if negb (existsb is_ws (take 1 r1)) || negb (starts_with_ci (js "set") r2) then None else
  let r3 := drop 3 r2 in
  let r4 := drop_while is_ws r3 in
  let name := take_while (λ c, negb (is_ws c)) r4 in
  let r5 := drop_while (λ c, negb (is_ws c)) r4 in
  let body := drop_while is_ws r5 in
  if negb (existsb is_ws (take 1 r3)) || negb (nonempty name)
     || negb (nonempty body) || existsb is_line_end body then None
  else Some (take (length value - length r5) value).

Definition historySafeCommand (cmd : jsval) : jsstr :=
  let value := trim (str_of cmd) in
  if negb (nonempty value) then [] else
  match match_credential value with
  | Some (Some word) => js "credential " ++ lower word
  | Some None => js "credential status"
  | None => match match_secret value with Some prefix => prefix | None => value end
  end.

Definition exitCodeFromStatus (statusValue : jsval) : jsval :=
  if is_str statusValue (js "fail") then vint 1 else vint 0.

Definition nonempty_str_prop (k : string) (v : jsval) : props :=
  match v with VStr s => if nonempty s then [(js k, VStr s)] else [] | _ => [] end.
Definition persisted_line (line : jsval) : jsval :=
  let text := get line (js "text") in
  VObj ([(js "text", VStr (if truthy line && negb (match text with VUndef => true | _ => false end)
                           then to_string text else str_of line));
         (js "cls", VStr (if truthy line then str_of (get line (js "cls")) else []))]
        ++ nonempty_str_prop "kind" (get line (js "kind"))
        ++ nonempty_str_prop "role" (get line (js "role"))).
(** The body of the request, [None] when nothing is sent. *)
Definition persistClientSideRun (command lineItems statusValue tabId : jsval) : option jsstr :=
  let safeCommand := historySafeCommand command in
  if negb (nonempty safeCommand) then None else
  Some (stringify (VObj [(js "command", VStr safeCommand);
                         (js "exit_code", exitCodeFromStatus statusValue);
                         (js "lines", VArr (map persisted_line (items_of lineItems)));
                         (js "tab_id", VStr (str_of tabId))])).
(** The run the server answered with. *)
Definition saved_run (payload : jsval) : jsval :=
  if is_plain (get payload (js "run")) then get payload (js "run") else payload.

(** ** Definitions: detached runs *)

Notation store := (gmap jsstr jsstr).

Section Detached.
Context (session_id : jsval).

Definition _detachedActiveRunsStorageKey : jsstr :=
  js "detached_active_runs:" ++ to_string (js_or session_id (vstr "session")).

Definition _readDetachedActiveRunIds (st : store) : props :=
  let text := default [] (st !! _detachedActiveRunsStorageKey) in
  match json_parse (if nonempty text then text else js "{}") with
  | Some (VObj o) => o
  | _ => []
  end.

Definition _writeDetachedActiveRunIds (detached : props) (st : store) : store :=
  let kept := filterb (λ p, nonempty (trim (fst p))) (entries detached) in
  if bool_decide (kept = []) then delete _detachedActiveRunsStorageKey st
  else <[_detachedActiveRunsStorageKey := stringify (VObj kept)]> st.

(** [detached[id] = now] for a number: assigning a number to the name
    [__proto__] does nothing. *)
Definition assign_number (id : jsstr) (now : Z) (o : props) : props :=
  if id ==s js "__proto__" then o else set_prop id (vint now) o.
(** [now] is [Date.now()]. *)
Definition markActiveRunDetachedForRestore (runId : jsval) (now : Z) (st : store) : store :=
  let normalized := trim (str_of runId) in
  if negb (nonempty normalized) then st
  else _writeDetachedActiveRunIds
         (assign_number normalized now (_readDetachedActiveRunIds st)) st.

Definition clearActiveRunDetachedForRestore (runId : jsval) (st : store) : store :=
  let normalized := trim (str_of runId) in
  if negb (nonempty normalized) then st else
  let detached := _readDetachedActiveRunIds st in
  if negb (has_own detached normalized) then st
  else _writeDetachedActiveRunIds (del_prop normalized detached) st.

Definition _isActiveRunDetachedForRestore (runId : jsval) (st : store) : bool :=
  let normalized := trim (str_of runId) in
  nonempty normalized && has_own (_readDetachedActiveRunIds st) normalized.

Definition _pruneDetachedActiveRunRestoreIds (activeIds : list jsstr) (st : store) : store :=
  let detached := _readDetachedActiveRunIds st in
  let kept := filterb (λ p, bool_decide (fst p ∈ activeIds)) detached in
  if bool_decide (length kept = length detached) then st
  else _writeDetachedActiveRunIds kept st.


(** ** Definitions: a history of operations, and what it means *)

Inductive detached_op :=
  | Mark (runId : jsval) (now : Z)
  | Clear (runId : jsval)
  | Prune (activeIds : list jsstr).
Definition step (st : store) (op : detached_op) : store :=
  match op with
  | Mark id now => markActiveRunDetachedForRestore id now st
  | Clear id => clearActiveRunDetachedForRestore id st
  | Prune ids => _pruneDetachedActiveRunRestoreIds ids st
  end.

(** The set of detached runs, as the operations describe it. *)
Definition spec_step (s : gset jsstr) (op : detached_op) : gset jsstr :=
  match op with
  | Mark id _ => let id := trim (str_of id) in if nonempty id then {[id]} ∪ s else s
  | Clear id => s ∖ {[trim (str_of id)]}
  | Prune ids => s ∩ list_to_set ids
  end.

(** Run ids are not numerals and not the name of the prototype, and the clock
    is a time a number represents. *)
Definition plain_id (id : jsstr) : bool := negb (is_index_key id) && negb (id ==s js "__proto__").
Definition op_ok (op : detached_op) : Prop :=
  match op with
  | Mark id now => plain_id (trim (str_of id)) = true ∧ 0 ≤ now < 2 ^ 53
  | _ => True
  end.

(** ** Lemmas *)

(** The object the storage holds for this session. *)
Definition entry_ok (p : jsstr * jsval) : Prop :=
  is_index_key (fst p) = false ∧ nonempty (trim (fst p)) = true ∧ json_ok (snd p).
Definition well_formed (o : props) : Prop := NoDup o.*1 ∧ Forall entry_ok o.
Definition holds (o : props) (st : store) : Prop :=
  well_formed o
  ∧ st !! _detachedActiveRunsStorageKey
    = if bool_decide (o = []) then None else Some (stringify (VObj o)).

Lemma well_formed_json o : well_formed o → json_ok (VObj o).
Proof.
  intros [Hn Hf]. constructor; [done| |]; eapply Forall_weaken; try exact Hf;
    by intros p (?&?&?).
Qed.

Lemma read_holds o st : holds o st → _readDetachedActiveRunIds st = o.
Proof.
  intros [Hw Hst]. unfold _readDetachedActiveRunIds. rewrite Hst.
  case_bool_decide as Ho; cbn [from_option]; [by subst|]. unfold id.
  assert (nonempty (stringify (VObj o)) = true) as ->.
  { destruct (stringify_head _ (well_formed_json _ Hw)) as (c & t & -> & _). done. }
  by rewrite json_round_trip by apply well_formed_json, Hw.
Qed.

Lemma entries_plain (o : props) :
  Forall (λ p, is_index_key (fst p) = false) o → entries o = o.
Proof.
  intros Hf. unfold entries.
  rewrite (filterb_none (λ p, is_index_key (fst p)))
    by (intros p Hp; exact (proj1 (Forall_forall _ _) Hf _ Hp)).
  apply filterb_all. intros p Hp. by rewrite (proj1 (Forall_forall _ _) Hf _ Hp).
Qed.

Lemma write_holds o st : well_formed o → holds o (_writeDetachedActiveRunIds o st).
Proof.
  intros Hw. split; [done|]. pose proof Hw as [_ Hf]. unfold _writeDetachedActiveRunIds.
  rewrite entries_plain by (eapply Forall_weaken; [|exact Hf]; by intros p (?&?&?)).
  rewrite filterb_all
    by (intros p Hp; by destruct (proj1 (Forall_forall _ _) Hf _ Hp) as (_ & -> & _)).
  case_bool_decide; by simplify_map_eq.
Qed.

Lemma well_formed_sublist o o' : o' `sublist_of` o → well_formed o → well_formed o'.
Proof.
  intros Hs [Hn Hf]. split.
  - eapply sublist_NoDup; [exact Hn|by apply fmap_sublist].
  - apply Forall_forall. intros p Hp. eapply Forall_forall; [exact Hf|].
    by eapply elem_of_sublist.
Qed.

Lemma set_prop_well_formed k v o :
  entry_ok (k, v) → well_formed o → well_formed (set_prop k v o).
Proof.
  intros Hk [Hn Hf]. split; [|by apply set_prop_Forall]. rewrite set_prop_keys.
  destruct (has_own o k) eqn:Ho; [done|]. rewrite <-not_true_iff_false, own_elem_of in Ho.
  apply NoDup_app. split_and!; [done|set_solver|apply NoDup_singleton].
Qed.

Lemma filterb_same_length {A} (p : A → bool) l :
  length (filterb p l) = length l → filterb p l = l.
Proof.
  induction l as [|x l IH]; cbn; [done|]. pose proof (filterb_length p l).
  destruct (p x); cbn; [|lia]. intros [= Hl]. by rewrite IH.
Qed.

(** Each operation does to the stored object what the specification does to
    the set of its keys. *)
Lemma step_holds o st op :
  op_ok op → holds o st →
  ∃ o', holds o' (step st op)
        ∧ (list_to_set (o'.*1) : gset jsstr) = spec_step (list_to_set (o.*1)) op.
Proof.
  intros Hop Hh. pose proof (read_holds _ _ Hh) as Hr. pose proof (proj1 Hh) as Hw.
  destruct op as [id now|id|ids]; cbn [step spec_step].
  - unfold markActiveRunDetachedForRestore. cbv zeta. rewrite Hr.
    destruct Hop as [[Hi Hp]%andb_true_iff Ht].
    destruct (nonempty (trim (str_of id))) eqn:Hn; cbn [negb]; [|by eexists].
    unfold assign_number. apply negb_true_iff in Hi, Hp. rewrite Hp.
    eexists. split.
    + apply write_holds, set_prop_well_formed; [|done].
      split_and!; [done|cbn [fst]; by rewrite trim_idemp|]. constructor. by apply num_ok_of_Z.
    + rewrite set_prop_keys. destruct (has_own o _) eqn:Ho; [|set_solver].
      apply own_elem_of in Ho. set_solver.
  - unfold clearActiveRunDetachedForRestore. cbv zeta. rewrite Hr.
    destruct (nonempty (trim (str_of id))) eqn:Hn; cbn [negb].
    + destruct (has_own o _) eqn:Ho; cbn [negb].
      * eexists. split; [apply write_holds; eapply well_formed_sublist;
                         [apply filterb_sublist|exact Hw]|].
        apply set_eq. intros k. rewrite elem_of_difference, !elem_of_list_to_set, elem_of_singleton.
        unfold del_prop. rewrite !list_elem_of_fmap. setoid_rewrite elem_of_filterb.
        setoid_rewrite bool_decide_eq_true. naive_solver.
      * exists o. split; [done|]. rewrite <-not_true_iff_false, own_elem_of in Ho. set_solver.
    + exists o. split; [done|]. apply nonempty_false in Hn. rewrite Hn.
      enough ([] ∉ o.*1) by set_solver.
      intros (p & Hp & Hin)%list_elem_of_fmap.
      destruct (proj1 (Forall_forall _ _) (proj2 Hw) _ Hin) as (_ & Hx & _).
      by rewrite <-Hp in Hx.
  - unfold _pruneDetachedActiveRunRestoreIds. rewrite Hr. cbv zeta.
    set (kept := filterb (λ p, bool_decide (fst p ∈ ids)) o).
    assert (list_to_set (kept.*1) = (list_to_set (o.*1) ∩ list_to_set ids : gset jsstr)) as Heq.
    { apply set_eq. intros k. rewrite elem_of_intersection, !elem_of_list_to_set.
      unfold kept. rewrite !list_elem_of_fmap. setoid_rewrite elem_of_filterb.
      setoid_rewrite bool_decide_eq_true. naive_solver. }
    case_bool_decide as Hl.
    + exists o. split; [done|]. rewrite <-Heq. unfold kept in *; by rewrite (filterb_same_length _ _ Hl).
    + exists kept. split; [|done]. apply write_holds.
      eapply well_formed_sublist; [apply filterb_sublist|exact Hw].
Qed.

Lemma steps_hold ops o st :
  Forall op_ok ops → holds o st →
  ∃ o', holds o' (fold_left step ops st)
        ∧ (list_to_set (o'.*1) : gset jsstr) = fold_left spec_step ops (list_to_set (o.*1)).
Proof.
  intros Hops. revert o st. induction Hops as [|op ops Hop _ IH]; intros o st Hh; [by exists o|].
  destruct (step_holds o st op Hop Hh) as (o1 & H1 & He). cbn [fold_left].
  rewrite <-He. by apply IH.
Qed.
End Detached.

(** ** Properties *)

(** C24: The stored record of detached runs is a set of run ids: starting from a
    browser that has stored nothing for the session, after any sequence of
    detaching, re-attaching and pruning, a run counts as detached exactly when
    the same sequence of insertions, removals and intersections on a set leaves
    its trimmed id in it, although every operation reads and rewrites a JSON
    text. That is as long as the browser's storage takes the writes (a write
    that fails is swallowed), and for ids that are neither the numeral of an
    index nor [__proto__]. *)
Theorem detached_runs_refine_a_set session_id st ops id :
  st !! _detachedActiveRunsStorageKey session_id = None →
  Forall op_ok ops →
  _isActiveRunDetachedForRestore session_id id (fold_left (step session_id) ops st)
  = bool_decide (trim (str_of id) ∈ fold_left spec_step ops (∅ : gset jsstr)).
Proof.
  intros Hst Hops.
  destruct (steps_hold session_id ops [] st Hops) as (o & Hh & He).
  { split; [split; constructor|done]. }
  cbn [fmap list_fmap list_to_set] in He. rewrite <-He.
  unfold _isActiveRunDetachedForRestore. cbv zeta. rewrite (read_holds _ _ _ Hh).
  destruct (decide (trim (str_of id) ∈ o.*1)) as [Hin|Hin].
  - rewrite bool_decide_true by by apply elem_of_list_to_set.
    rewrite (proj2 (own_elem_of _ _) Hin), andb_true_r. apply nonempty_spec. intros Hn.
    apply list_elem_of_fmap in Hin as (p & Hp & Hin).
    destruct (proj1 (Forall_forall _ _) (proj2 (proj1 Hh)) _ Hin) as (_ & Hx & _).
    by rewrite <-Hp, Hn in Hx.
  - rewrite bool_decide_false by by rewrite elem_of_list_to_set.
    rewrite <-own_elem_of in Hin. apply not_true_iff_false in Hin. by rewrite Hin, andb_false_r.
Qed.

Definition sample_ops : list detached_op :=
  [Mark (vstr " run-a ") 1700000000000; Mark (vstr "run-b") 1700000000001;
   Clear (vstr "run-a"); Prune (map js ["run-b"; "run-c"]%string)].
Lemma detached_runs_refine_a_set_witness :
  _isActiveRunDetachedForRestore (vstr "s1") (vstr "run-b") (fold_left (step (vstr "s1")) sample_ops ∅)
  = bool_decide (js "run-b" ∈ fold_left spec_step sample_ops (∅ : gset jsstr)).
Proof.
  apply (detached_runs_refine_a_set (vstr "s1") ∅ sample_ops (vstr "run-b")); [done|].
  repeat constructor; vm_compute; done.
Defined.

(** ** Safe commands *)

Lemma trim_last s c : last (trim s) = Some c → is_ws c = false.
Proof. apply trim_end_last. Qed.

Lemma lower_unit_ws c : is_ws c = true → lower_unit c = c.
Proof. unfold lower_unit. case_goal; [|done]. unfold is_ws, is_upper in *. split_bools; lia. Qed.

(** A text that starts with something other than a space. *)
Definition starts_ink (s : jsstr) : Prop := ∃ c t, s = c :: t ∧ is_ws c = false.

Lemma lower_starts_ink kw s : starts_ink (lower kw) → starts_ink (kw ++ s).
Proof.
  intros (c & t & Hk & Hc). destruct kw as [|c' t']; [done|]. injection Hk as Hk _.
  exists c', (t' ++ s). split; [done|]. destruct (is_ws c') eqn:He; [|done].
  rewrite (lower_unit_ws _ He) in Hk. congruence.
Qed.

Lemma starts_with_ci_app p kw t : lower kw = p → starts_with_ci p (kw ++ t) = true.
Proof.
  intros <-. unfold starts_with_ci, lower. rewrite map_app. apply starts_with_app.
Qed.

Definition all_ws (s : jsstr) : Prop := s ≠ [] ∧ Forall (λ c, is_ws c = true) s.

Lemma drop_ws_ink ws s : Forall (λ c, is_ws c = true) ws → starts_ink s → drop_while is_ws (ws ++ s) = s.
Proof. intros Hw (c & t & -> & Hc). by apply drop_while_stop. Qed.
Lemma drop_ink s : starts_ink s → drop_while is_ws s = s.
Proof. by apply (drop_ws_ink []). Qed.
Lemma first_ws ws s : all_ws ws → existsb is_ws (take 1 (ws ++ s)) = true.
Proof. intros [Hne Hw]. destruct Hw as [|w ws Hw _]; [done|]. cbn. by rewrite Hw. Qed.

Lemma match_secret_app kw1 ws1 kw2 ws2 name ws3 v :
  lower kw1 = js "secret" → all_ws ws1 → lower kw2 = js "set" → all_ws ws2 →
  name ≠ [] → no_ws name → all_ws ws3 → starts_ink v →
  Forall (λ c, is_line_end c = false) v →
  match_secret (kw1 ++ ws1 ++ kw2 ++ ws2 ++ name ++ ws3 ++ v)
  = Some (kw1 ++ ws1 ++ kw2 ++ ws2 ++ name).
Proof.
  intros Hk1 Hw1 Hk2 Hw2 Hne Hn Hw3 Hv Hl.
  assert (length kw1 = 6%nat ∧ length kw2 = 3%nat) as [Hl1 Hl2]
    by (rewrite <-(lower_length kw1), <-(lower_length kw2), Hk1, Hk2; done).
  assert (∀ s, starts_ink (kw1 ++ s)) as Hi1 by (intros s; apply lower_starts_ink; rewrite Hk1; by eexists _, _).
  assert (∀ s, starts_ink (kw2 ++ s)) as Hi2 by (intros s; apply lower_starts_ink; rewrite Hk2; by eexists _, _).
  assert (∀ s, starts_ink (name ++ s)) as Hi3
    by (intros s; destruct Hn as [|n name Hn1 _]; [done|by eexists _, _]).
  assert (∃ w t, ws3 = w :: t ∧ is_ws w = true) as (w & t & Hws3 & Hw).
  { destruct Hw3 as [Hw3n Hw3]. destruct Hw3 as [|w t Hw _]; [done|by exists w, t]. }
  assert (Forall (λ c, negb (is_ws c) = true) name) as Hn'.
  { eapply Forall_weaken; [|exact Hn]. by intros c ->. }
  unfold match_secret. cbv zeta.
  rewrite (drop_ink (kw1 ++ _)) by apply Hi1.
  rewrite starts_with_ci_app by done. cbn [negb].
  rewrite <-Hl1, drop_app_length.
  rewrite first_ws by done. rewrite (drop_ws_ink ws1) by (apply Hw1 || apply Hi2).
  rewrite starts_with_ci_app by done. cbn [negb orb].
  rewrite <-Hl2, drop_app_length.
  rewrite first_ws by done. rewrite (drop_ws_ink ws2) by (apply Hw2 || apply Hi3).
  assert (drop_while (λ c, negb (is_ws c)) (name ++ ws3 ++ v) = ws3 ++ v) as ->.
  { rewrite Hws3. cbn [app]. apply drop_while_stop; [done|]. by rewrite Hw. }
  assert (take_while (λ c, negb (is_ws c)) (name ++ ws3 ++ v) = name) as ->.
  { rewrite Hws3. cbn [app]. apply take_while_stop; [done|]. by rewrite Hw. }
  rewrite (drop_ws_ink ws3) by (done || apply Hw3).
  rewrite (proj2 (nonempty_spec name)) by done.
  destruct Hv as (c & v' & -> & Hc). cbn [nonempty negb orb].
  assert (existsb is_line_end (c :: v') = false) as ->.
  { apply not_true_iff_false. intros (x & Hx & Hx')%existsb_exists.
    apply list_elem_of_In in Hx. by rewrite (proj1 (Forall_forall _ _) Hl _ Hx) in Hx'. }
  f_equal. rewrite !length_app.
  rewrite !app_assoc. rewrite <-(app_assoc _ ws3). apply take_app_length'.
  rewrite !length_app. lia.
Qed.

Lemma match_credential_word value w :
  match_credential value = Some (Some w) → no_ws w ∧ has_unit (cu "|") w = false.
Proof.
  unfold match_credential. cbv zeta. case_goal; [|done]. case_goal; [|done]. intros [= <-].
  pose proof (take_while_Forall (λ c, negb (is_ws c) && negb (c =? cu "|"))
                (drop_while is_ws (drop 10 value))) as Hf.
  split.
  - eapply Forall_weaken; [|exact Hf]. intros c. cbn. by intros [?%negb_true_iff _]%andb_true_iff.
  - apply has_unit_false. intros Hin.
    pose proof (proj1 (Forall_forall _ _) Hf _ Hin) as H. cbn in H.
    by rewrite andb_false_r in H.
Qed.

(** C1: The command text kept in history and sent with a saved run holds no
    secret: of [secret set NAME VALUE], in any letter case and spacing, exactly
    the text up to the name remains, whatever the (one-line) value is; of a
    [credential] command, only one word remains, without spaces or pipes. *)
Theorem historySafeCommand_hides cmd :
  (∀ kw1 ws1 kw2 ws2 name ws3 v,
     trim (str_of cmd) = kw1 ++ ws1 ++ kw2 ++ ws2 ++ name ++ ws3 ++ v →
     lower kw1 = js "secret" → all_ws ws1 → lower kw2 = js "set" → all_ws ws2 →
     name ≠ [] → no_ws name → all_ws ws3 → starts_ink v →
     Forall (λ c, is_line_end c = false) v →
     historySafeCommand cmd = kw1 ++ ws1 ++ kw2 ++ ws2 ++ name)
  ∧ (starts_with_ci (js "credential") (trim (str_of cmd)) = true →
     ∃ w, historySafeCommand cmd = js "credential " ++ w
          ∧ no_ws w ∧ has_unit (cu "|") w = false).
Proof.
  split.
  - intros kw1 ws1 kw2 ws2 name ws3 v Hc Hk1 Hw1 Hk2 Hw2 Hne Hn Hw3 Hv Hl.
    unfold historySafeCommand. cbv zeta. rewrite Hc.
    destruct kw1 as [|k1 kw1]; [done|]. cbn [nonempty negb app].
    change (k1 :: kw1 ++ ws1 ++ kw2 ++ ws2 ++ name ++ ws3 ++ v)
      with ((k1 :: kw1) ++ ws1 ++ kw2 ++ ws2 ++ name ++ ws3 ++ v).
    rewrite match_secret_app by done. unfold match_credential, starts_with_ci.
    unfold lower at 1. rewrite map_app. fold (lower (k1 :: kw1)). by rewrite Hk1.
  - intros Hs. unfold historySafeCommand. cbv zeta.
    destruct (nonempty _) eqn:Hne; cbn [negb];
      [|apply nonempty_false in Hne; by rewrite Hne in Hs].
    destruct (match_credential (trim (str_of cmd))) as [[w|]|] eqn:Hm.
    + apply match_credential_word in Hm as [Hw Hp]. exists (lower w). split; [done|].
      split.
      * unfold no_ws, lower. apply Forall_map. eapply Forall_weaken; [|exact Hw].
        intros c Hc. cbn. destruct (is_ws (lower_unit c)) eqn:He; [|done].
        unfold lower_unit in He. destruct (_ || _) eqn:Hu in He; [|congruence].
        unfold is_ws, is_upper in *. split_bools; lia.
      * apply has_unit_false in Hp. apply has_unit_false.
        intros (c & Hc & Hin)%list_elem_of_In%in_map_iff. apply Hp.
        apply list_elem_of_In in Hin. unfold lower_unit in Hc. destruct (_ || _) eqn:Hu in Hc; [|by rewrite <-Hc].
        unfold is_upper in *. change (cu "|") with 124 in *. split_bools; lia.
    + exists (js "status"). split_and!; [done| |done]. repeat constructor.
    + unfold match_credential in Hm. by rewrite Hs in Hm; destruct (_ && _) in Hm.
Qed.

Lemma historySafeCommand_hides_witness :
  historySafeCommand (vstr " secret SET token  p4ss word ") = js "secret SET token".
Proof.
  apply (proj1 (historySafeCommand_hides (vstr " secret SET token  p4ss word "))
           (js "secret") (js " ") (js "SET") (js " ") (js "token") (js "  ") (js "p4ss word"));
    try reflexivity; try (split; [done|]); try done; try (by eexists _, _); repeat constructor.
Defined.
