(* ===== verification/CompareCore.v ===== *)
(** Run comparison helpers
    (app/static/js/features/run-comparison/history_compare_core.js): the order
    of the two runs, totals, view modes, context limits and the map from
    compared lines to findings. Arguments are the payload objects; the default
    [{}] stands for a missing one. *)

From S2P Require Import Prelude JsString JsNumber JsRegExp JsValue PreferenceCore.

(** ** Definitions: runs and totals *)

Section Dates.
(** [Date.parse]. *)
Context (date_parse : jsstr → num).

Definition run_ref_id (run : jsval) : jsstr :=
  str_of (js_or (get run (js "id")) (get run (js "value"))).
Definition run_ref_started (run : jsval) : num :=
  date_parse (str_of (js_or (get run (js "started")) (get run (js "created")))).
Definition orderedRunIds (current candidate : jsval) : jsstr * jsstr :=
  let currentStarted := run_ref_started current in
  let candidateStarted := run_ref_started candidate in
  if is_finite currentStarted && is_finite candidateStarted
     && nleb currentStarted candidateStarted
  then (run_ref_id current, run_ref_id candidate)
  else (run_ref_id candidate, run_ref_id current).
End Dates.

(** [Number(o.k || 0)]. *)
Definition count_of (o : jsval) (k : string) : num := to_number (js_or (get o (js k)) (vint 0)).

Definition totalChangedLines (totals : jsval) : num :=
  nadd (nadd (count_of totals "changed_line_count") (count_of totals "added_line_count"))
       (count_of totals "removed_line_count").

Definition omittedTotal (truncated : jsval) : num :=
  let lineOmitted := js_or (get truncated (js "lines_omitted")) (VObj []) in
  nadd (count_of truncated "hunks_omitted") (count_of lineOmitted "total").

Definition lineLimit (limits : jsval) : num :=
  let limit := count_of limits "line_display_truncate" in
  if is_finite limit && nltb num_zero limit then limit else num_of_Z 4000.

(** ** Definitions: view modes *)

Definition coerceViewMode (value : jsval) : jsstr := coerceCompareViewMode value.
Definition coerceContext (value : jsval) : jsstr := coerceCompareContextMode value.

Section View.
(** The stored preferences, whether the shell uses its mobile layout, and
    what [matchMedia('(max-width: 760px)')] says, [None] when it is missing
    or throws. *)
Context (compare_view_preference compare_context_preference : jsval).
Context (mobile : bool) (narrow : option bool).

Definition storedViewMode : jsstr := coerceViewMode compare_view_preference.
Definition storedContext : jsstr := coerceContext compare_context_preference.

Definition viewportMode : jsstr :=
  if mobile then js "unified"
  else if default false narrow then js "unified" else js "side_by_side".
Definition usesMobileLayout : bool := viewportMode ==s js "unified".

Definition resolveViewMode (value : jsval) : jsstr :=
  let mode := coerceViewMode (js_or value (VStr storedViewMode)) in
  let currentViewportMode := viewportMode in
  if mode ==s js "auto" then currentViewportMode
  else if (mode ==s js "side_by_side") && (currentViewportMode ==s js "unified")
  then js "unified" else mode.

Definition view_mode_table : list (jsstr * jsstr) :=
  [(js "side_by_side", js "Side-by-side"); (js "unified", js "Unified");
   (js "changes_only", js "Changes only"); (js "findings_only", js "Findings only")].
Definition viewModeOptions : list (jsstr * jsstr) :=
  if viewportMode ==s js "unified"
  then filterb (λ o, negb (fst o ==s js "side_by_side")) view_mode_table
  else view_mode_table.

(** [None] is [null]: no limit. *)
Definition contextLimit (value : jsval) : option num :=
  let context := coerceContext (js_or value (VStr storedContext)) in
  if context ==s js "all" then None else Some (num_of_str context).
End View.

(** ** Definitions: anchors *)

Definition number (value : jsval) : option num :=
  let parsed := to_number value in if is_finite parsed then Some parsed else None.

(** [css_escape] is [CSS.escape] where the browser has it. *)
Definition cssEscape (css_escape : option (jsstr → jsstr)) (value : jsval) : jsstr :=
  let text := to_string value in
  match css_escape with
  | Some f => f text
  | None => flat_map (λ c, if (c =? 34) || (c =? 92) then [92; c] else [c]) text
  end.

Definition bucketTone (bucket : jsval) : jsstr :=
  let changed := count_of bucket "changed" in
  let added := count_of bucket "added" in
  let removed := count_of bucket "removed" in
  let equal := count_of bucket "equal" in
  let pos := nltb num_zero in
  if pos changed then js "changed"
  else if pos added || pos removed then (if nltb removed added then js "added" else js "removed")
  else if pos equal then js "equal" else js "empty".

(** A [Map] keyed by numbers, which makes no difference between the zeros. *)
#[export] Instance num_eq_dec : EqDecision num.
Proof. solve_decision. Defined.
Definition map_key (x : num) : num := match x with S754_zero _ => num_zero | _ => x end.
Notation anchors := (list (num * list jsval)).
Fixpoint anchors_at (index : num) (m : anchors) : option (list jsval) :=
  match m with
  | [] => None
  | (k, items) :: m => if bool_decide (k = index) then Some items else anchors_at index m
  end.
Fixpoint anchors_set (index : num) (items : list jsval) (m : anchors) : anchors :=
  match m with
  | [] => [(index, items)]
  | (k, old) :: m =>
      if bool_decide (k = index) then (k, items) :: m else (k, old) :: anchors_set index items m
  end.

Definition addAnchor (m : anchors) (item : jsval) : anchors :=
  match number (get item (js "compare_line_index")) with
  | None => m
  | Some index =>
      let existing := default [] (anchors_at (map_key index) m) in
      anchors_set (map_key index) (existing ++ [item]) m
  end.

(** The maps of the two sides: [removed] then [before] on side [a], [added]
    then [after] on side [b]; the sides do not touch each other. *)
Record anchor_map := AnchorMap { am_a : anchors; am_b : anchors }.
Definition add_changed (m : anchor_map) (item : jsval) : anchor_map :=
  AnchorMap (addAnchor (am_a m) (get item (js "before"))) (addAnchor (am_b m) (get item (js "after"))).
Definition buildAnchorMap (data : jsval) : anchor_map :=
  let findingObjects := js_or (get (get data (js "objects")) (js "findings")) (VObj []) in
  let list_at (k : string) := items_of (get findingObjects (js k)) in
  let m := AnchorMap [] [] in
  let m := fold_left (λ m item, AnchorMap (am_a m) (addAnchor (am_b m) item)) (list_at "added"%string) m in
  let m := fold_left (λ m item, AnchorMap (addAnchor (am_a m) item) (am_b m)) (list_at "removed"%string) m in
  fold_left add_changed (list_at "changed"%string) m.

Definition anchorTone (items : list jsval) : jsstr :=
  let severities := map (λ item, lower (str_of (get item (js "severity")))) items in
  if existsb (λ v, (v ==s js "critical") || (v ==s js "high")) severities then js "high"
  else if existsb (λ v, v ==s js "medium") severities then js "medium" else js "info".

(** ** Lemmas *)

Lemma anchors_set_eq k v m : anchors_at k (anchors_set k v m) = Some v.
Proof.
  induction m as [|[k' v'] m IH]; cbn; [by rewrite bool_decide_true|].
  destruct (bool_decide_reflect (k' = k)); cbn; [by rewrite bool_decide_true|].
  by rewrite bool_decide_false.
Qed.

Lemma anchors_set_ne k k' v m : k ≠ k' → anchors_at k' (anchors_set k v m) = anchors_at k' m.
Proof.
  intros Hne. induction m as [|[k2 v2] m IH]; cbn; [by rewrite bool_decide_false|].
  destruct (bool_decide_reflect (k2 = k)) as [->|]; cbn; [by rewrite !bool_decide_false|].
  by rewrite IH.
Qed.

(** The items anchored at a line. *)
Definition anchored_at (index : num) (item : jsval) : bool :=
  match number (get item (js "compare_line_index")) with
  | Some k => bool_decide (map_key k = index)
  | None => false
  end.

Lemma anchors_at_add index m item :
  default [] (anchors_at index (addAnchor m item))
  = default [] (anchors_at index m) ++ filterb (anchored_at index) [item].
Proof.
  unfold addAnchor, anchored_at. cbn [filterb].
  destruct (number _) as [k|]; [|by rewrite app_nil_r].
  destruct (bool_decide_reflect (map_key k = index)) as [->|Hne].
  - by rewrite anchors_set_eq.
  - rewrite anchors_set_ne by done. by rewrite app_nil_r.
Qed.

Lemma anchors_at_fold index l m :
  default [] (anchors_at index (fold_left addAnchor l m))
  = default [] (anchors_at index m) ++ filterb (anchored_at index) l.
Proof.
  revert m. induction l as [|item l IH]; intros m; cbn [fold_left]; [by rewrite app_nil_r|].
  rewrite IH, anchors_at_add, <-app_assoc. f_equal. by rewrite <-filterb_app.
Qed.

Lemma fold_left_am {A} (f g : anchors → A → anchors) l m :
  fold_left (λ m x, AnchorMap (f (am_a m) x) (g (am_b m) x)) l m
  = AnchorMap (fold_left f l (am_a m)) (fold_left g l (am_b m)).
Proof. revert m. induction l as [|x l IH]; intros [a b]; cbn; [done|]. apply IH. Qed.

Lemma fold_left_id {A B} (l : list A) (m : B) : fold_left (λ m _, m) l m = m.
Proof. by induction l. Qed.
Lemma fold_left_get {A} (l : list A) (f : A → jsval) (m : anchors) :
  fold_left (λ m x, addAnchor m (f x)) l m = fold_left addAnchor (map f l) m.
Proof. revert m. induction l as [|x l IH]; intros m; cbn; [done|]. apply IH. Qed.

Lemma coerceCompareViewMode_mem v : coerceCompareViewMode v ∈ COMPARE_VIEW_MODES.
Proof.
  unfold coerceCompareViewMode, coerceMode. assert (js "auto" ∈ COMPARE_VIEW_MODES) by by left.
  destruct v; try done. by case_bool_decide.
Qed.

(** ** Properties *)

(** The view mode a comparison is drawn in is always one of the modes
    offered for the current viewport (never [auto], never side by side on a
    narrow one), and a mode that is offered is kept as asked. *)
Theorem resolveViewMode_offered pref mobile narrow value :
  resolveViewMode pref mobile narrow value ∈ (viewModeOptions mobile narrow).*1
  ∧ (∀ mode, mode ∈ (viewModeOptions mobile narrow).*1 →
       resolveViewMode pref mobile narrow (VStr mode) = mode).
Proof.
  split.
  - unfold resolveViewMode. cbv zeta.
    pose proof (coerceCompareViewMode_mem (js_or value (VStr (storedViewMode pref)))) as Hm.
    unfold coerceViewMode. revert Hm. generalize (coerceCompareViewMode (js_or value (VStr (storedViewMode pref)))).
    intros mode Hm. unfold viewModeOptions, viewportMode.
    destruct mobile, narrow as [[]|]; unfold COMPARE_VIEW_MODES in Hm;
      repeat (apply elem_of_cons in Hm as [->|Hm]; [vm_compute; set_solver|]); by apply elem_of_nil in Hm.
  - intros mode. unfold viewModeOptions, viewportMode, resolveViewMode, viewportMode. cbv zeta.
    destruct mobile, narrow as [[]|]; intros Hm; vm_compute in Hm;
      repeat (apply elem_of_cons in Hm as [->|Hm]; [reflexivity|]); by apply elem_of_nil in Hm.
Qed.

Lemma resolveViewMode_offered_witness :
  resolveViewMode (vstr "side_by_side") true None (vstr "findings_only") = js "findings_only".
Proof.
  apply (proj2 (resolveViewMode_offered (vstr "side_by_side") true None VUndef)).
  vm_compute. set_solver.
Defined.

(** The anchor map sends each compared line to exactly the findings of its
    side with that line index, in the order of the payload: on side [b] the
    added findings and then the new versions of the changed ones, on side [a]
    the removed ones and then the old versions; findings without a numeric line
    index are left out. *)
Theorem buildAnchorMap_spec data index :
  let findings := js_or (get (get data (js "objects")) (js "findings")) (VObj []) in
  let list_at (k : string) := items_of (get findings (js k)) in
  let m := buildAnchorMap data in
  default [] (anchors_at index (am_b m))
  = filterb (anchored_at index)
      (list_at "added"%string ++ map (λ i, get i (js "after")) (list_at "changed"%string))
  ∧ default [] (anchors_at index (am_a m))
    = filterb (anchored_at index)
        (list_at "removed"%string ++ map (λ i, get i (js "before")) (list_at "changed"%string)).
Proof.
  cbv zeta. unfold buildAnchorMap, add_changed. cbv zeta.
  rewrite (fold_left_am (λ a _, a) addAnchor), (fold_left_am addAnchor (λ b _, b)).
  rewrite (fold_left_am (λ a x, addAnchor a (get x (js "before")))
             (λ b x, addAnchor b (get x (js "after")))).
  cbn [am_a am_b]. rewrite !fold_left_id.
  rewrite (fold_left_get _ (λ x, get x (js "before"))).
  rewrite (fold_left_get _ (λ x, get x (js "after"))).
  rewrite !anchors_at_fold, !filterb_app. done.
Qed.
