(* ===== verification/TargetValidation.v ===== *)
(** Project target editing
    (app/static/js/features/projects/project_target_validation.js): the copy of
    the editor and the validation of domains, URLs and addresses. *)

From S2P Require Import Prelude JsString JsNumber JsRegExp JsValue WebApi AutocompleteCore.

(** ** Definitions *)

Definition TARGET_TYPES : list (jsstr * jsstr) :=
  map (λ t, (js t, js t)) ["domain"; "url"; "ip"]%string.
Definition TARGET_NOTES_MAX_LENGTH : nat := Z.to_nat 20000.

Definition DOMAIN_RE : regexp := Eval vm_compute in
  lit "^(?=.{1,253}$)(?:[a-z0-9](?:[a-z0-9-]{0,61}[a-z0-9])?\.)+[a-z]{2,63}$" true.
Definition IPV4_RE : regexp := Eval vm_compute in
  lit "^(?:(?:25[0-5]|2[0-4]\d|1\d\d|[1-9]?\d)\.){3}(?:25[0-5]|2[0-4]\d|1\d\d|[1-9]?\d)$" false.

Record value_help := ValueHelp { vh_placeholder : jsstr; vh_help : jsstr; vh_error : jsstr }.
Definition help_domain : value_help := ValueHelp
  (js "target.example.com")
  (js "Domain name only. Examples: darklab.sh, api.darklab.sh")
  (js "Use a domain name, such as darklab.sh or api.darklab.sh.").
Definition TARGET_VALUE_HELP : list (jsstr * value_help) :=
  [(js "domain", help_domain);
   (js "url", ValueHelp
      (js "https://target.example.com/path")
      (js "Full URL including scheme. Examples: https://darklab.sh, https://api.darklab.sh/login")
      (js "Use a full HTTP or HTTPS URL, such as https://darklab.sh/login."));
   (js "ip", ValueHelp
      (js "192.0.2.10")
      (js "Single IPv4 or IPv6 address. Examples: 192.0.2.10, 2001:db8::10")
      (js "Use a single IPv4 or IPv6 address, such as 192.0.2.10 or 2001:db8::10."))].

(** [table[name] || table.domain]; [None] when the name is a property every
    object inherits, which the sources do not guard against. *)
Fixpoint assoc {A} (k : jsstr) (l : list (jsstr * A)) : option A :=
  match l with [] => None | (k', a) :: l => if k ==s k' then Some a else assoc k l end.
Definition lookup_or_domain {A} (table : list (jsstr * A)) (dflt : A) (name : jsstr) : option A :=
  match assoc name table with
  | Some a => Some a
  | None => match inherited name with VUndef => Some dflt | _ => None end
  end.

Definition normalize_type (type : jsval) : jsstr := trim (to_string (js_or type (vstr "domain"))).
Definition helpForType (type : jsval) : option value_help :=
  lookup_or_domain TARGET_VALUE_HELP help_domain (normalize_type type).

Section Validators.
Context `{UrlApi} (toLocaleString : Z → jsstr).

Definition _isValidIpv6Address (value : jsval) : bool :=
  let candidate := trim (str_of value) in
  if negb (nonempty candidate) || negb (has_unit (cu ":") candidate)
     || existsb (λ c, is_ws c || (c =? cu "/")) candidate then false
  else match new_URL (js "http://[" ++ candidate ++ js "]") with
       | Some u => nonempty (url_hostname u)
       | None => false
       end.

Definition isValidIpAddress (value : jsval) : bool :=
  let candidate := trim (str_of value) in
  test IPV4_RE candidate || _isValidIpv6Address (VStr candidate).

Definition isValidDomain (value : jsval) : bool := test DOMAIN_RE (trim (str_of value)).

Definition isValidUrl (value : jsval) : bool :=
  let candidate := trim (str_of value) in
  if negb (nonempty candidate) || existsb is_ws candidate then false
  else match new_URL candidate with
       | Some parsed =>
           bool_decide (url_protocol parsed ∈ map js ["http:"; "https:"]%string)
           && nonempty (url_hostname parsed)
       | None => false
       end.

Definition validators : list (jsstr * (jsval → bool)) :=
  [(js "domain", isValidDomain); (js "url", isValidUrl); (js "ip", isValidIpAddress)].

Definition valueValidationError (type value : jsval) : option jsstr :=
  let normalized := normalize_type type in
  let candidate := trim (str_of value) in
  if negb (nonempty candidate) then Some (js "Enter a target value before saving.") else
  match lookup_or_domain validators isValidDomain normalized with
  | None => None
  | Some validator =>
      if validator (VStr candidate) then Some [] else
      match helpForType (VStr normalized) with
      | None => None
      | Some copy => Some (js "The target value does not match the selected type. " ++ vh_error copy)
      end
  end.

Definition notesValidationError (notes : jsval) : jsstr :=
  let len := length (trim (str_of notes)) in
  if (len <=? TARGET_NOTES_MAX_LENGTH)%nat then []
  else js "Target notes must be " ++ toLocaleString (Z.of_nat TARGET_NOTES_MAX_LENGTH)
       ++ js " characters or fewer.".
End Validators.

(** ** Lemmas: the IPv4 pattern *)

Definition octet_rx : rx := Eval cbv in
  match rx_body IPV4_RE with Seq _ (Seq _ (Seq r _)) => r | _ => Eps end.

Definition dots : list Z := Eval vm_compute in map Z.of_nat (seq 48 10).
Lemma digit_in_dots c : is_digit c = true → c ∈ dots.
Proof.
  intros H. apply list_elem_of_In. change dots with (map Z.of_nat (seq 48 10)).
  apply in_map_iff. exists (Z.to_nat c). rewrite in_seq. unfold is_digit in H. lia.
Qed.

Lemma lang_cls1 items u :
  lang false (Cls false items) u → ∃ c, u = [c] ∧ existsb (λ it, item_has it c) items = true.
Proof.
  intros (c & -> & H). exists c. split; [done|].
  unfold cls_has, items_have in H. cbn in H. by rewrite orb_false_r in H.
Qed.

(** Every text of one, two or three digits is decided by evaluation. *)
Definition check3 (p : jsstr → bool) : bool :=
  forallb (λ a, p [a] && forallb (λ b, p [a; b] && forallb (λ c, p [a; b; c]) dots) dots) dots.
Lemma check3_spec p u :
  check3 p = true → octet_digits u → p u = true.
Proof.
  unfold check3. intros Hp [Hl Hd]. rewrite forallb_forall in Hp.
  assert (∀ c, c ∈ u → In c dots) as Hin.
  { intros c Hc. apply list_elem_of_In, digit_in_dots. by eapply Forall_forall in Hd. }
  destruct u as [|a [|b [|c [|]]]]; cbn in Hl; try lia;
    specialize (Hp a (Hin a ltac:(set_solver))); split_bools; try done;
    match goal with H : forallb _ dots = true |- _ => rewrite forallb_forall in H;
      specialize (H b (Hin b ltac:(set_solver))) end; split_bools; try done.
  match goal with H : forallb _ dots = true |- _ => rewrite forallb_forall in H;
    exact (H c (Hin c ltac:(set_solver))) end.
Qed.

Definition OCTET_RE : regexp := RegExp (Seq Bol (Seq octet_rx Eol)) false false.
Lemma octet_re_lang u : test OCTET_RE u = true ↔ lang false (Seq octet_rx Eps) u.
Proof. exact (test_full OCTET_RE _ _ u eq_refl eq_refl eq_refl eq_refl eq_refl). Qed.
Lemma lang_seq_eps r u : lang false (Seq r Eps) u ↔ lang false r u.
Proof.
  cbn [lang]. split.
  - intros (u1 & u2 & -> & H & ->). by rewrite app_nil_r.
  - intros H. exists u, []. by rewrite app_nil_r.
Qed.

Lemma octet_rx_digits u : lang false octet_rx u → octet_digits u.
Proof.
  unfold octet_digits.
  assert (∀ items u, forallb (λ it, match it with CRange lo hi => (48 <=? lo) && (hi <=? 57)
                                    | CDigit neg => negb neg | _ => false end) items = true →
          lang false (Cls false items) u → length u = 1%nat ∧ Forall (λ c, is_digit c = true) u) as Hc.
  { intros items w Hi Hw. apply lang_cls1 in Hw as (c & -> & Hw). split; [done|].
    apply Forall_singleton. apply existsb_exists in Hw as (it & Hin & Hit).
    rewrite forallb_forall in Hi. specialize (Hi it Hin). unfold is_digit.
    destruct it; cbn in *; try done; [lia|]. destruct neg; [done|]. exact Hit. }
  intros H. unfold octet_rx in H.
  destruct H as [(a & x & -> & Ha & b & c & -> & Hb & Hcc)|[(a & x & -> & Ha & b & c & -> & Hb & Hcc)
    |[(a & x & -> & Ha & b & c & -> & Hb & Hcc)|(a & b & -> & Ha & Hb)]]];
    try (apply Hc in Ha as [La Da]; [|done]; apply Hc in Hb as [Lb Db]; [|done];
         apply Hc in Hcc as [Lc Dc]; [|done];
         rewrite !length_app, !Forall_app, La, Lb, Lc; split; [lia|done]).
  apply Hc in Hb as [Lb Db]; [|done]. destruct Ha as (us & -> & Hus & [_ Hm]).
  rewrite length_app, Lb, Forall_app.
  destruct Hus as [|u us Hu Hus]; [cbn; split; [lia|done]|].
  destruct Hus; [|cbn in Hm; lia]. apply Hc in Hu as [Lu Du]; [|done].
  cbn. rewrite app_nil_r, Lu. split; [lia|done].
Qed.

Lemma octet_rx_iff u : lang false octet_rx u ↔ ∃ n, 0 ≤ n ≤ 255 ∧ u = str_of_Z n.
Proof.
  assert (check3 (λ u, Bool.eqb (test OCTET_RE u) (is_octet_text u)) = true) as Hk
    by (vm_compute; reflexivity).
  assert (∀ u, octet_digits u → lang false octet_rx u ↔ is_octet_text u = true) as Hd.
  { intros w Hw. pose proof (check3_spec _ w Hk Hw) as He. cbn in He. apply eqb_prop in He.
    by rewrite <-He, octet_re_lang, lang_seq_eps. }
  split.
  - intros Hu. pose proof (octet_rx_digits u Hu) as Ho. apply (Hd u Ho) in Hu.
    destruct Ho as [Hl Hf]. by apply is_octet_text_iff.
  - intros (n & Hn & ->). apply Hd; [by apply octet_digits_str|by apply octet_text].
Qed.

(** Four numbers of a byte each, joined by dots. *)
Definition dotted_quad (s : jsstr) : Prop :=
  ∃ ns, length ns = 4%nat ∧ Forall (λ n, 0 ≤ n ≤ 255) ns ∧ s = join [46] (map str_of_Z ns).

Lemma octet_dot_iff u :
  lang false (Seq octet_rx (Cls false [CRange 46 46])) u ↔
  ∃ n, 0 ≤ n ≤ 255 ∧ u = str_of_Z n ++ [46].
Proof.
  cbn [lang]. split.
  - intros (u1 & u2 & -> & (n & Hn & ->)%octet_rx_iff & (c & -> & Hc)). exists n.
    split; [done|]. unfold cls_has, items_have in Hc. cbn in Hc. do 2 f_equal. lia.
  - intros (n & Hn & ->). exists (str_of_Z n), [46]. split; [done|].
    split; [apply octet_rx_iff; eauto|]. by exists 46.
Qed.

Lemma IPV4_RE_iff s : test IPV4_RE s = true ↔ dotted_quad s.
Proof.
  rewrite (test_full IPV4_RE _ _ s eq_refl eq_refl eq_refl eq_refl eq_refl).
  change (rx_icase IPV4_RE) with false. split.
  - intros (u & v & -> & (us & -> & Hus & [Hmn Hmx]) & Hv).
    change (lang false (Seq octet_rx Eps) v) in Hv. apply lang_seq_eps, octet_rx_iff in Hv as (n & Hn & ->).
    assert (Forall (λ u, ∃ n, 0 ≤ n ≤ 255 ∧ u = str_of_Z n ++ [46]) us) as Hus'
      by (eapply Forall_weaken; [|exact Hus]; intros w; apply octet_dot_iff).
    clear Hus. destruct us as [|x [|y [|z [|]]]]; cbn in Hmn, Hmx; try lia.
    rewrite !Forall_cons in Hus'.
    destruct Hus' as ((n1 & H1 & ->) & (n2 & H2 & ->) & (n3 & H3 & ->) & _).
    exists [n1; n2; n3; n]. split; [done|]. split; [rewrite !Forall_cons; done|].
    cbn. rewrite app_nil_r, <-!app_assoc. done.
  - intros (ns & Hl & Hn & ->). destruct ns as [|n1 [|n2 [|n3 [|n4 [|]]]]]; try done.
    rewrite !Forall_cons in Hn. destruct Hn as (H1 & H2 & H3 & H4 & _).
    exists (concat (map (λ n, str_of_Z n ++ [46]) [n1; n2; n3])), (str_of_Z n4).
    split; [cbn; rewrite app_nil_r, <-!app_assoc; done|]. split.
    + exists (map (λ n, str_of_Z n ++ [46]) [n1; n2; n3]). split; [done|]. split; [|split; cbn; lia].
      apply Forall_map. rewrite !Forall_cons. split_and!; try done; apply octet_dot_iff; eauto.
    + apply (lang_seq_eps octet_rx), octet_rx_iff. eauto.
Qed.

(** ** Lemmas: the domain pattern *)

Definition alnum_items : list citem := [CRange 97 122; CRange 48 57].
Lemma cls_alnum c : cls_has true false alnum_items c = is_alnum c.
Proof.
  unfold cls_has, items_have, alnum_items, is_alnum, lower_unit, upper_unit, is_upper, is_lower, is_digit.
  cbn [existsb item_has xorb andb]. repeat case_goal; lia.
Qed.
Lemma cls_alnum_dash c : cls_has true false (alnum_items ++ [CRange 45 45]) c = is_alnum c || (c =? 45).
Proof.
  unfold cls_has, items_have, alnum_items, is_alnum, lower_unit, upper_unit, is_upper, is_lower, is_digit.
  cbn [existsb item_has xorb andb app]. repeat case_goal; lia.
Qed.
Definition is_letter (c : Z) : bool := is_lower c || is_upper c.
Lemma cls_letter c : cls_has true false [CRange 97 122] c = is_letter c.
Proof.
  unfold cls_has, items_have, is_letter, lower_unit, upper_unit, is_upper, is_lower.
  cbn [existsb item_has xorb andb app]. repeat case_goal; lia.
Qed.

(** A label: up to 63 letters, digits and hyphens, no hyphen at either end. *)
Definition label_ok (l : jsstr) : Prop :=
  (1 ≤ length l ≤ 63)%nat ∧ Forall (λ c, is_alnum c || (c =? 45) = true) l
  ∧ (∀ c, head l = Some c → is_alnum c = true) ∧ (∀ c, last l = Some c → is_alnum c = true).

Definition label_rx : rx :=
  Seq (Cls false alnum_items)
    (Rep (Seq (Rep (Cls false (alnum_items ++ [CRange 45 45])) 0 (Some 61%nat) true)
              (Cls false alnum_items)) 0 (Some 1%nat) true).

Lemma lang_label u : lang true label_rx u ↔ label_ok u.
Proof.
  unfold label_rx. split.
  - intros (u1 & u2 & -> & (c & -> & Hc) & (us & -> & Hus & [_ Hm])).
    rewrite cls_alnum in Hc.
    destruct Hus as [|u us Hu Hus].
    { split; [cbn; lia|]. split; [constructor; [by rewrite Hc|done]|].
      split; intros ? [= <-]; done. }
    destruct Hus; [|cbn in Hm; lia]. cbn [concat]. rewrite app_nil_r.
    destruct Hu as (v & w & -> & Hv & (d & -> & Hd)). rewrite cls_alnum in Hd.
    apply lang_rep_cls in Hv as [Hv [_ Hvl]].
    split; [rewrite !length_app; cbn; lia|]. split; [|split].
    + constructor; [by rewrite Hc|]. apply Forall_app. split.
      * eapply Forall_weaken; [|exact Hv]. intros x; cbv beta; by rewrite cls_alnum_dash.
      * apply Forall_singleton. by rewrite Hd.
    + intros ? [= <-]; done.
    + intros x Hx. change (last ((c :: v) ++ [d]) = Some x) in Hx. rewrite last_snoc in Hx. congruence.
  - intros (Hl & Hf & Hh & Hla). destruct u as [|c u]; [cbn in Hl; lia|].
    exists [c], u. split; [done|]. split; [exists c; rewrite cls_alnum; auto|].
    destruct u as [|d v _] using rev_ind; [exists []; split; [done|]; split; [constructor|split; cbn; lia]|].
    exists [v ++ [d]]. split; [cbn; by rewrite app_nil_r|]. split; [|split; cbn; lia].
    apply Forall_singleton. exists v, [d]. split; [done|]. split.
    + apply lang_rep_cls. apply Forall_cons in Hf as [_ Hf]. apply Forall_app in Hf as [Hf _].
      split; [|split; [lia|cbn in Hl; rewrite length_app in Hl; cbn in Hl; lia]].
      eapply Forall_weaken; [|exact Hf]. intros x; cbv beta; by rewrite cls_alnum_dash.
    + exists d. split; [done|]. rewrite cls_alnum. apply Hla.
      change (last ((c :: v) ++ [d]) = Some d). by rewrite last_snoc.
Qed.

Lemma lang_label_dot u :
  lang true (Seq (Cls false alnum_items)
    (Seq (Rep (Seq (Rep (Cls false (alnum_items ++ [CRange 45 45])) 0 (Some 61%nat) true)
              (Cls false alnum_items)) 0 (Some 1%nat) true) (Cls false [CRange 46 46]))) u ↔
  ∃ l, label_ok l ∧ u = l ++ [46].
Proof.
  split.
  - intros (u1 & u2 & -> & H1 & (v & w & -> & H2 & (c & -> & Hc))). exists (u1 ++ v). split.
    + apply lang_label. exists u1, v. done.
    + rewrite <-app_assoc. do 3 f_equal. unfold cls_has, items_have in Hc. cbn in Hc.
      unfold lower_unit, upper_unit, is_upper, is_lower in Hc. revert Hc. repeat case_goal; lia.
  - intros (l & Hl%lang_label & ->). destruct Hl as (u1 & v & -> & H1 & H2).
    exists u1, (v ++ [46]). split; [by rewrite app_assoc|]. split; [done|].
    exists v, [46]. split; [done|]. split; [done|]. by exists 46.
Qed.

Definition tld_ok (s : jsstr) : Prop :=
  (2 ≤ length s ≤ 63)%nat ∧ Forall (λ c, is_letter c = true) s.

Definition domain_name (s : jsstr) : Prop :=
  (length s ≤ 253)%nat
  ∧ ∃ labels tld, labels ≠ [] ∧ Forall label_ok labels ∧ tld_ok tld
                  ∧ s = join [46] (labels ++ [tld]).

Lemma join_dots labels tld :
  join [46] (labels ++ [tld]) = concat (map (λ l, l ++ [46]) labels) ++ tld.
Proof.
  induction labels as [|l labels IH]; [done|]. cbn [app map concat].
  rewrite join_cons_ne by by destruct labels. rewrite IH, <-!app_assoc. done.
Qed.

Lemma domain_units labels tld :
  Forall label_ok labels → tld_ok tld →
  Forall (λ c, is_line_end c = false) (join [46] (labels ++ [tld])).
Proof.
  intros Hl [_ Ht]. rewrite join_dots. apply Forall_app. split.
  - induction Hl as [|l labels (_ & Hf & _) _ IH]; cbn; [constructor|].
    rewrite !Forall_app. split_and!; [|by repeat constructor|done].
    eapply Forall_weaken; [|exact Hf]. intros c. cbn.
    unfold is_alnum, is_line_end, is_digit, is_lower, is_upper. intros ?. lia.
  - eapply Forall_weaken; [|exact Ht]. intros c. cbn.
    unfold is_letter, is_line_end, is_lower, is_upper. intros ?. lia.
Qed.

Lemma concat_map_parts (P : jsstr → Prop) us :
  Forall (λ u, ∃ l, P l ∧ u = l ++ [46]) us →
  ∃ ls, us = map (λ l, l ++ [46]) ls ∧ Forall P ls.
Proof.
  induction 1 as [|u us (l & Hl & ->) _ (ls & -> & IH)]; [by exists []|].
  exists (l :: ls). split; [done|by constructor].
Qed.

Lemma DOMAIN_RE_iff s : test DOMAIN_RE s = true ↔ domain_name s.
Proof.
  rewrite (test_full_look DOMAIN_RE _ _ _ _ s eq_refl eq_refl eq_refl eq_refl eq_refl eq_refl eq_refl).
  change (rx_icase DOMAIN_RE) with true. split.
  - intros [(u & v & -> & Hu & ->) (x & y & Hx & (us & -> & Hus & [Hn _]) & z & w & -> & Hz & ->)].
    apply lang_rep_cls in Hu as [_ [_ Hu]]. rewrite !app_nil_r in *. split; [done|].
    apply lang_rep_cls in Hz as [Hz [Hz1 Hz2]].
    assert (Forall (λ u, ∃ l, label_ok l ∧ u = l ++ [46]) us) as Hus'
      by (eapply Forall_weaken; [|exact Hus]; intros t; apply lang_label_dot).
    apply concat_map_parts in Hus' as (ls & -> & Hls).
    exists ls, z. split; [intros ->; cbn in Hn; lia|]. split; [done|].
    split; [|by rewrite join_dots].
    split; [lia|]. eapply Forall_weaken; [|exact Hz]. intros c; cbv beta; by rewrite cls_letter.
  - intros (Hl & ls & tld & Hne & Hls & Ht & ->). split.
    + eexists _, []. split; [by rewrite app_nil_r|]. split; [|done]. apply lang_rep_cls. split.
      * eapply Forall_weaken; [|by apply domain_units]. intros c Hc. cbn in Hc.
        unfold cls_has, items_have. rewrite xorb_true_l. cbn [existsb item_has andb].
        unfold is_line_end in Hc. unfold lower_unit, upper_unit, is_upper, is_lower. repeat case_goal; lia.
      * split; [|done]. rewrite join_dots, length_app. destruct Ht. lia.
    + rewrite join_dots. destruct Ht as [Ht1 Ht2].
      exists (concat (map (λ l, l ++ [46]) ls)), tld. split; [done|]. split.
      * exists (map (λ l, l ++ [46]) ls). split; [done|]. split; [|split; [|done]].
        -- apply Forall_map. eapply Forall_weaken; [|exact Hls]. intros l Hl'.
           apply lang_label_dot. eauto.
        -- rewrite length_map. destruct ls; [done|cbn; lia].
      * exists tld, []. rewrite app_nil_r. split; [done|]. split; [|done]. apply lang_rep_cls.
        split; [|split; lia]. eapply Forall_weaken; [|exact Ht2]. intros c; cbv beta; by rewrite cls_letter.
Qed.

(** ** Properties *)

Lemma domain_name_ne s : domain_name s → nonempty s = true.
Proof.
  intros (_ & ls & tld & Hne & _ & _ & ->). apply nonempty_spec. rewrite join_dots.
  destruct ls as [|[|]]; done.
Qed.
Lemma dotted_quad_ne s : dotted_quad s → nonempty s = true.
Proof.
  intros (ns & Hl & _ & ->). destruct ns as [|n1 [|n2 ns]]; [done..|]. apply nonempty_spec.
  cbn [map]. rewrite join_cons_ne by done. intros [H _]%app_eq_nil. by apply str_of_Z_ne in H.
Qed.

Section Accepts.
Context `{UrlApi}.

Lemma isValidUrl_ne s : isValidUrl (VStr s) = true → nonempty (trim s) = true.
Proof. unfold isValidUrl. rewrite str_of_VStr. cbv zeta. by destruct (nonempty (trim s)). Qed.
Lemma isValidIpv6_ne s : _isValidIpv6Address (VStr s) = true → nonempty (trim s) = true.
Proof. unfold _isValidIpv6Address. rewrite str_of_VStr. cbv zeta. by destruct (nonempty (trim s)). Qed.

Lemma isValidIpAddress_iff s :
  trim s = s → isValidIpAddress (VStr s) = true ↔ dotted_quad s ∨ _isValidIpv6Address (VStr s) = true.
Proof.
  intros Hs. unfold isValidIpAddress. rewrite str_of_VStr, Hs. cbv zeta.
  by rewrite orb_true_iff, IPV4_RE_iff.
Qed.
Lemma isValidDomain_iff s : trim s = s → isValidDomain (VStr s) = true ↔ domain_name s.
Proof. intros Hs. unfold isValidDomain. by rewrite str_of_VStr, Hs, DOMAIN_RE_iff. Qed.

Lemma error_not_empty (msg s : jsstr) : msg ≠ [] → Some (msg ++ s) ≠ Some [].
Proof. intros Hm [= [He _]%app_eq_nil]. done. Qed.

(** Which target values the editor accepts. As [ip]: four numbers of at
    most 255 without leading zeros, joined by dots, or what the URL parser
    takes as a bracketed host; as [url]: what the URL parser takes, with an
    HTTP scheme and a host; as [domain], or any unknown type: a name of at
    most 253 units made of labels of at most 63 letters, digits and inner
    hyphens and a final label of letters. In every other case there is an
    error text. *)
Theorem valueValidationError_accepts type value :
  let name := normalize_type type in
  let text := trim (str_of value) in
  valueValidationError type value = Some [] ↔
    (name = js "ip" ∧ (dotted_quad text ∨ _isValidIpv6Address (VStr text) = true))
    ∨ (name = js "url" ∧ isValidUrl (VStr text) = true)
    ∨ (name ≠ js "ip" ∧ name ≠ js "url" ∧ (name = js "domain" ∨ inherited name = VUndef)
       ∧ domain_name text).
Proof.
  cbv zeta. unfold valueValidationError. generalize (normalize_type type) as name. intros name.
  pose proof (trim_idemp (str_of value)) as Ht. revert Ht.
  generalize (trim (str_of value)) as text. intros text Ht. cbv zeta.
  assert ((nonempty text = false → ¬ dotted_quad text ∧ _isValidIpv6Address (VStr text) ≠ true
            ∧ isValidUrl (VStr text) ≠ true ∧ ¬ domain_name text)) as Hemp.
  { intros He. pose proof (domain_name_ne text). pose proof (dotted_quad_ne text).
    pose proof (isValidUrl_ne text). pose proof (isValidIpv6_ne text). rewrite Ht in *.
    rewrite He in *. split_and!; intros Hx; exfalso; by auto using diff_false_true. }
  destruct (nonempty text) eqn:Hne; cbn [negb]; [|split; [done|tauto]].
  clear Hemp. unfold lookup_or_domain, validators. cbn [assoc].
  pose proof (isValidDomain_iff text Ht) as Hdom. pose proof (isValidIpAddress_iff text Ht) as Hip.
  assert (∀ (validator : jsval → bool) (r : option jsstr),
    r ≠ Some [] → (if validator (VStr text) then Some [] else r) = Some [] ↔ validator (VStr text) = true)
    as Hif by (intros validator r Hr; destruct (validator (VStr text)); split; congruence).
  assert (match helpForType (VStr name) with
          | Some copy => Some (js "The target value does not match the selected type. " ++ vh_error copy)
          | None => None end ≠ Some []) as Hmsg.
  { destruct (helpForType _); [by apply error_not_empty|done]. }
  assert (js "domain" ≠ js "ip" ∧ js "domain" ≠ js "url" ∧ js "url" ≠ js "ip") as (N1 & N2 & N3)
    by by vm_compute.
  destruct (bool_decide_reflect (name = js "domain")) as [->|Hd];
    [rewrite Hif by done; rewrite Hdom; intuition congruence|].
  destruct (bool_decide_reflect (name = js "url")) as [->|Hu];
    [rewrite Hif by done; intuition congruence|].
  destruct (bool_decide_reflect (name = js "ip")) as [->|Hi];
    [rewrite Hif by done; rewrite Hip; intuition congruence|].
  destruct (inherited name); try (split; [done|]; intuition congruence).
  rewrite Hif by done. rewrite Hdom. intuition congruence.
Qed.
End Accepts.
