(* ===== verification/WorkflowParams.v ===== *)
(** Workflow parameters
    (app/static/js/features/workflows/workflow_parameters.js and the storage
    key of workflow_catalog.js): what is remembered of the values a user
    entered, the values on offer, and the commands a workflow runs and shows.
    The elements of [inputs], [steps] and the sources are objects. *)

From stdpp Require Import gmap.
From S2P Require Import Prelude JsString JsNumber JsRegExp JsValue JsJson.

(** ** Definitions *)

Definition WORKFLOW_TOKEN_RE : regexp := Eval vm_compute in
  lit "{{\s*([a-z][a-z0-9_]*)\s*}}" false.
Definition WORKFLOW_INPUT_STATE_KEY : jsstr := js "workflow_input_state_v2".
Definition LEGACY_WORKFLOW_INPUT_STATE_KEY : jsstr := js "workflow_input_state_v1".

Notation store := (gmap jsstr jsstr).

Definition workflowStorageKey (workflow : jsval) : jsstr :=
  let id := trim (str_of (get workflow (js "id"))) in
  if nonempty id then id else
  let title := trim (str_of (get workflow (js "title"))) in
  let description := trim (str_of (get workflow (js "description"))) in
  title ++ js "::" ++ description.

(** [o[k] = v] for a primitive [v]: no effect on the prototype. *)
Definition assign (k : jsstr) (v : jsval) (o : props) : props :=
  if k ==s js "__proto__" then o else set_prop k v o.

(** The own properties of an object or an array. *)
Definition own_props (v : jsval) : props :=
  match v with
  | VObj o => o
  | VArr l => imap (λ i x, (str_of_nat i, x)) l
  | _ => []
  end.

Definition inputs_of (workflow : jsval) : list jsval := items_of (get workflow (js "inputs")).
Definition input_id (input : jsval) : jsstr := to_string (get input (js "id")).
Definition sensitive (input : jsval) : bool := truthy (get input (js "sensitive")).

Definition sanitizeWorkflowInputValue (input value : jsval) : jsstr :=
  let raw := trim (to_string (js_nullish value (VStr []))) in
  if negb (truthy input) || negb (nonempty raw) then raw
  else if is_str (get input (js "type")) (js "port") then filterb is_digit raw
  else raw.

Definition getWorkflowInputValues (workflow : jsval) : props :=
  fold_left (λ values input,
    assign (input_id input)
      (VStr (sanitizeWorkflowInputValue input (js_or (get input (js "default")) (VStr [])))) values)
    (inputs_of workflow) [].

Section Storage.
(** The active team and the session. *)
Context (active_team_id session_id : jsval).

Definition workflowInputStorageKey (workflow : jsval) : jsstr :=
  let teamId := trim (str_of (js_or (get workflow (js "team_id")) active_team_id)) in
  let ownerKey :=
    if nonempty teamId then js "team:" ++ teamId
    else js "personal:"
         ++ str_or (trim (to_string (js_or session_id (vstr "anonymous")))) (js "anonymous") in
  ownerKey ++ js "::" ++ workflowStorageKey workflow.

(** The parsed state, and the storage without the legacy entry. *)
Definition readWorkflowInputState (st : store) : jsval * store :=
  let st := delete LEGACY_WORKFLOW_INPUT_STATE_KEY st in
  let raw := default [] (st !! WORKFLOW_INPUT_STATE_KEY) in
  let parsed := if nonempty raw then default (VObj []) (json_parse raw) else VObj [] in
  (if is_objectlike parsed then parsed else VObj [], st).
Definition writeWorkflowInputState (nextState : props) (st : store) : store :=
  <[WORKFLOW_INPUT_STATE_KEY := stringify (VObj nextState)]> st.

(** [nextState[key] = retained], or its removal when nothing is retained. *)
Definition replace_saved (key : jsstr) (retained : props) (state : props) : props :=
  if bool_decide (retained = []) then del_prop key state
  else set_prop key (VObj retained) state.

(** The values kept of those that were saved, in their order. *)
Definition load_step (workflow : jsval) (acc : props * props) (entry : jsstr * jsval) : props * props :=
  let '(next, retained) := acc in
  let '(key, value) := entry in
  match findb (λ item, is_str (get item (js "id")) key) (inputs_of workflow) with
  | None => acc
  | Some input =>
      if sensitive input then acc
      else
        let normalized := VStr (sanitizeWorkflowInputValue input value) in
        (assign key normalized next, assign key normalized retained)
  end.

Definition loadWorkflowInputValues (workflow : jsval) (st : store) : props * store :=
  let base := getWorkflowInputValues workflow in
  let '(state, st) := readWorkflowInputState st in
  let storageKey := workflowInputStorageKey workflow in
  let saved := default VUndef (own (own_props state) storageKey) in
  if negb (is_objectlike saved) then (base, st) else
  let '(next, retained) := fold_left (load_step workflow) (entries (own_props saved)) (base, []) in
  if bool_decide (stringify (VObj retained) = stringify saved) then (next, st)
  else (next, writeWorkflowInputState (replace_saved storageKey retained (own_props state)) st).

Definition retained_values (workflow values : jsval) : props :=
  fold_left (λ retained input,
    if negb (truthy (get input (js "id"))) || sensitive input then retained
    else assign (input_id input)
           (VStr (sanitizeWorkflowInputValue input (get values (input_id input)))) retained)
    (inputs_of workflow) [].

Definition persistWorkflowInputValues (workflow values : jsval) (st : store) : store :=
  let '(state, st) := readWorkflowInputState st in
  writeWorkflowInputState
    (replace_saved (workflowInputStorageKey workflow) (retained_values workflow values)
       (own_props state)) st.
End Storage.

(** ** Definitions: the values on offer *)

Record source_option := SourceOption { so_value : jsval; so_description : jsval }.

Definition allowed_project_types (type : jsstr) : option (list jsstr) :=
  if type ==s js "target"
  then Some (map js ["domain"; "host"; "ip"; "cidr"; "url"; "port_set"; "target"]%string)
  else if type ==s js "domain" then Some (map js ["domain"]%string)
  else if type ==s js "host" then Some (map js ["domain"; "ip"; "host"]%string)
  else if type ==s js "url" then Some (map js ["url"]%string)
  else None.
Definition recent_kinds (type : jsstr) : list jsstr :=
  if type ==s js "target" then map js ["domain"; "ip"; "url"; "port_set"]%string
  else if type ==s js "domain" then map js ["domain"]%string
  else if type ==s js "host" then map js ["domain"; "ip"]%string
  else if type ==s js "url" then map js ["url"]%string
  else if type ==s js "port_set" then map js ["port_set"]%string
  else [].

Section Sources.
Context (projectTargets : list jsval) (recentValues : jsval) (files acWordlists : list jsval).

Definition source_candidates (input : jsval) : list source_option :=
  let type := to_string (js_or (get input (js "type")) (vstr "text")) in
  (match allowed_project_types type with
   | Some allowed =>
       map (λ t, SourceOption (get t (js "value")) (vstr "Project target"))
         (filterb (λ t, bool_decide (to_string (js_or (get t (js "type")) (vstr "target")) ∈ allowed))
            projectTargets)
   | None => []
   end)
  ++ flat_map (λ kind, map (λ v, SourceOption v (vstr "Recent value"))
                         (items_of (get recentValues kind))) (recent_kinds type)
  ++ (if (type ==s js "workspace_path") || (type ==s js "wordlist")
      then map (λ item, SourceOption (get item (js "value")) (vstr "Files")) files else [])
  ++ (if type ==s js "wordlist"
      then map (λ item, SourceOption (get item (js "value"))
                          (js_or (get item (js "description")) (vstr "Packaged wordlist"))) acWordlists
      else []).

Definition option_value (item : source_option) : jsstr := trim (str_of (so_value item)).
Definition option_key (item : source_option) : jsstr := lower (option_value item).
Definition workflowInputSourceOptions (input : jsval) : list source_option :=
  map (λ item, SourceOption (VStr (option_value item)) (so_description item))
    (dedup_seen option_key [] (filterb (λ item, nonempty (option_value item)) (source_candidates input))).
End Sources.

(** ** Definitions: rendering *)

Definition renderWorkflowCommandTemplate (template : jsval) (values : props) : jsstr :=
  let text := str_of template in
  replace_all WORKFLOW_TOKEN_RE
    (λ m, match own values (group_or 1 text m) with
          | Some v => to_string v
          | None => matched text m
          end) text.

Definition workflowTemplateTokens (template : jsval) : list jsstr :=
  let text := str_of template in
  dedup (map (group_or 1 text) (exec_all WORKFLOW_TOKEN_RE text)).

Definition workflowInputsReady (workflow : jsval) (values : props) : bool :=
  forallb (λ input, negb (truthy (get input (js "required")))
                    || nonempty (trim (str_of (table_get values (input_id input)))))
    (inputs_of workflow).

Definition sensitive_names (workflow : jsval) : list jsstr :=
  dedup (map (λ input, str_of (get input (js "id"))) (filterb sensitive (inputs_of workflow))).
(** The values with the sensitive ones masked. *)
Definition display_values (names : list jsstr) (values : props) : props :=
  fold_left (λ o name, if has_own o name then set_prop name (vstr "[hidden]") o else o) names values.

Record rendered_step := RenderedStep
  { rs_step : props; rs_pendingCaptureNames : list jsstr; rs_sensitiveInputNames : list jsstr;
    rs_displayCmd : jsstr; rs_renderedCmd : jsstr }.

Definition step_captures (step : jsval) : list jsstr :=
  map (λ c, to_string (get c (js "name")))
    (filterb (λ c, truthy (get c (js "name"))) (items_of (get step (js "captures")))).

Definition render_step (names : list jsstr) (displayValues renderedValues : props)
    (captureNames : list jsstr) (step : jsval) : rendered_step :=
  let cmd := js_or (get step (js "cmd")) (VStr []) in
  let usedTokens := workflowTemplateTokens cmd in
  RenderedStep (props_of step)
    (filterb (λ t, bool_decide (t ∈ captureNames)) usedTokens)
    (filterb (λ t, bool_decide (t ∈ names)) usedTokens)
    (trim (renderWorkflowCommandTemplate cmd displayValues))
    (trim (renderWorkflowCommandTemplate cmd renderedValues)).

(** Each step sees the captures of the steps before it. *)
Fixpoint render_steps (names : list jsstr) (displayValues renderedValues : props)
    (captureNames : list jsstr) (steps : list jsval) : list rendered_step :=
  match steps with
  | [] => []
  | step :: steps =>
      render_step names displayValues renderedValues captureNames step
      :: render_steps names displayValues renderedValues (captureNames ++ step_captures step) steps
  end.

Record rendered_workflow := RenderedWorkflow { rw_ready : bool; rw_steps : list rendered_step }.
Definition buildRenderedWorkflow (workflow : jsval) (values : props) : rendered_workflow :=
  let sensitiveInputNames := sensitive_names workflow in
  RenderedWorkflow (workflowInputsReady workflow values)
    (render_steps sensitiveInputNames (display_values sensitiveInputNames values) values []
       (items_of (get workflow (js "steps")))).

(** ** Lemmas *)

(** The entries of [o] are values kept for inputs that are not sensitive. *)
Definition kept_only (workflow : jsval) (o : props) : Prop :=
  ∀ k v, own o k = Some v →
    ∃ input value, input ∈ inputs_of workflow ∧ sensitive input = false ∧ input_id input = k
                   ∧ v = VStr (sanitizeWorkflowInputValue input value).

Lemma own_assign k v o k' v' :
  own (assign k v o) k' = Some v' → (k = k' ∧ v = v') ∨ own o k' = Some v'.
Proof.
  unfold assign. case_bool_decide; [auto|]. destruct (decide (k = k')) as [->|].
  - rewrite own_set_eq. intros [= ->]. auto.
  - rewrite own_set_ne by done. auto.
Qed.

Lemma kept_only_assign workflow input value o :
  input ∈ inputs_of workflow → sensitive input = false → kept_only workflow o →
  kept_only workflow (assign (input_id input) (VStr (sanitizeWorkflowInputValue input value)) o).
Proof. intros Hin Hs Ho k v [[<- <-]|Hk]%own_assign; [by exists input, value|by apply Ho]. Qed.

Lemma retained_kept_only workflow values : kept_only workflow (retained_values workflow values).
Proof.
  unfold retained_values. set (l := inputs_of workflow) at 1.
  assert (∀ x, x ∈ l → x ∈ inputs_of workflow) as Hl by done.
  assert (kept_only workflow []) as H0 by (intros k v; done). revert Hl H0.
  generalize l, (@nil (jsstr * jsval)). clear l. intros l.
  induction l as [|input l IH]; intros o Hl Ho; cbn [fold_left]; [done|].
  apply IH; [set_solver|]. destruct (_ || _) eqn:Hc; [done|]. apply orb_false_iff in Hc as [_ Hs].
  apply kept_only_assign; [set_solver|done..].
Qed.

Lemma retained_ext workflow values values' :
  (∀ input, input ∈ inputs_of workflow → sensitive input = false →
     get values (input_id input) = get values' (input_id input)) →
  retained_values workflow values = retained_values workflow values'.
Proof.
  unfold retained_values. generalize (@nil (jsstr * jsval)).
  induction (inputs_of workflow) as [|input l IH]; intros o H; cbn [fold_left]; [done|].
  destruct (negb _ || sensitive input) eqn:Hc.
  - apply IH. set_solver.
  - apply orb_false_iff in Hc as [_ Hs]. rewrite (H input) by (set_solver || done).
    apply IH. set_solver.
Qed.

Lemma load_kept_only workflow l next retained :
  kept_only workflow retained →
  kept_only workflow (snd (fold_left (load_step workflow) l (next, retained))).
Proof.
  revert next retained. induction l as [|[key value] l IH]; intros next retained Hr; cbn [fold_left]; [done|].
  unfold load_step at 2. destruct (findb _ _) as [input|] eqn:Hf; [|by apply IH].
  destruct (sensitive input) eqn:Hs; [by apply IH|]. apply IH.
  apply findb_Some in Hf as [Hin Hid]. apply is_str_spec in Hid.
  replace key with (input_id input) by (unfold input_id; by rewrite Hid).
  by apply kept_only_assign.
Qed.

Lemma own_display names values k :
  own (display_values names values) k
  = if bool_decide (k ∈ names) && has_own values k then Some (vstr "[hidden]") else own values k.
Proof.
  unfold display_values. revert values.
  induction names as [|n names IH]; intros values; cbn [fold_left]; [done|]. rewrite IH.
  destruct (decide (k = n)) as [->|Hne].
  - rewrite (bool_decide_true (n ∈ n :: names)) by by left. cbn [andb].
    destruct (has_own values n) eqn:Hn.
    + assert (has_own (set_prop n (vstr "[hidden]") values) n = true) as ->
        by (apply has_own_Some; rewrite own_set_eq; eauto).
      rewrite own_set_eq. by destruct (bool_decide _).
    + by rewrite Hn, andb_false_r.
  - assert (bool_decide (k ∈ n :: names) = bool_decide (k ∈ names)) as ->
      by (apply bool_decide_ext; set_solver).
    destruct (has_own values n); [|done]. unfold has_own.
    rewrite own_set_ne by done. done.
Qed.

Lemma splice_ext s from ms f g : (∀ m, f m = g m) → splice s from ms f = splice s from ms g.
Proof.
  intros Hfg. revert from. induction ms as [|m ms IH]; intros from; cbn [splice]; [done|].
  by rewrite Hfg, IH.
Qed.

Lemma render_ext template values values' :
  (∀ k, own values k = own values' k) →
  renderWorkflowCommandTemplate template values = renderWorkflowCommandTemplate template values'.
Proof.
  intros H. unfold renderWorkflowCommandTemplate. cbv zeta. unfold replace_all.
  apply splice_ext. intros m. by rewrite H.
Qed.

(** ** Properties *)

(** A sensitive value is never written to the browser's storage. Persisting
    the form is unaffected by the values of the sensitive inputs; what it
    retains, and what loading retains of an older state, are sanitised values
    of inputs that are not sensitive. *)
Theorem sensitive_values_not_stored team session workflow values values' st :
  (∀ input, input ∈ inputs_of workflow → sensitive input = false →
     get values (input_id input) = get values' (input_id input)) →
  persistWorkflowInputValues team session workflow values st
  = persistWorkflowInputValues team session workflow values' st
  ∧ kept_only workflow (retained_values workflow values)
  ∧ (∀ base saved, kept_only workflow (snd (fold_left (load_step workflow) saved (base, [])))).
Proof.
  intros H. split; [|split; [apply retained_kept_only|intros; by apply load_kept_only]].
  unfold persistWorkflowInputValues. by rewrite (retained_ext workflow values values').
Qed.

Definition sample_workflow : jsval :=
  VObj [(js "id", vstr "wf");
        (js "inputs", VArr [VObj [(js "id", vstr "host")];
                            VObj [(js "id", vstr "token"); (js "sensitive", VBool true)]]);
        (js "steps", VArr [VObj [(js "cmd", vstr "curl -H {{token}} {{ host }}")]])].
Definition sample_values (token : string) : props :=
  [(js "host", vstr "example.com"); (js "token", vstr token)].

Lemma sensitive_values_not_stored_witness :
  persistWorkflowInputValues VUndef (vstr "s") sample_workflow (VObj (sample_values "a")) ∅
  = persistWorkflowInputValues VUndef (vstr "s") sample_workflow (VObj (sample_values "b")) ∅.
Proof.
  apply (proj1 (sensitive_values_not_stored VUndef (vstr "s") sample_workflow
           (VObj (sample_values "a")) (VObj (sample_values "b")) ∅
           ltac:(intros input Hin Hs; unfold inputs_of in Hin; cbn in Hin;
                 repeat (apply elem_of_cons in Hin as [->|Hin]; [vm_compute in Hs |- *; congruence|]);
                 by apply elem_of_nil in Hin))).
Defined.

(** The parts of a rendered step that are shown. *)
Definition shown (s : rendered_step) : props * list jsstr * list jsstr * jsstr :=
  (rs_step s, rs_pendingCaptureNames s, rs_sensitiveInputNames s, rs_displayCmd s).

(** C23: The displayed commands of a workflow reveal nothing of its sensitive
    values: two sets of values with the same names that differ only at the
    sensitive inputs give the same displayed steps. *)
Theorem displayed_steps_hide_sensitive workflow values values' :
  (∀ k, has_own values k = has_own values' k) →
  (∀ k, k ∉ sensitive_names workflow → own values k = own values' k) →
  map shown (rw_steps (buildRenderedWorkflow workflow values))
  = map shown (rw_steps (buildRenderedWorkflow workflow values')).
Proof.
  intros Hsame Hrest. cbn [buildRenderedWorkflow rw_steps].
  assert (∀ k, own (display_values (sensitive_names workflow) values) k
             = own (display_values (sensitive_names workflow) values') k) as Hd.
  { intros k. rewrite !own_display, Hsame. destruct (bool_decide_reflect (k ∈ sensitive_names workflow)).
    - cbn [andb]. destruct (has_own values' k) eqn:Hk; [done|].
      pose proof (Hsame k) as Hk'. rewrite Hk in Hk'. unfold has_own in Hk, Hk'.
      apply bool_decide_eq_false, eq_None_not_Some in Hk, Hk'. congruence.
    - by apply Hrest. }
  revert Hd. generalize (display_values (sensitive_names workflow) values),
    (display_values (sensitive_names workflow) values').
  intros d d' Hd. generalize (@nil jsstr).
  induction (items_of _) as [|step steps IH]; intros caps; cbn [render_steps map]; [done|].
  rewrite IH. f_equal. unfold shown, render_step. cbv zeta.
  cbn [rs_step rs_pendingCaptureNames rs_sensitiveInputNames rs_displayCmd].
  by rewrite (render_ext _ d d').
Qed.

Lemma displayed_steps_hide_sensitive_witness :
  map shown (rw_steps (buildRenderedWorkflow sample_workflow (sample_values "a")))
  = map shown (rw_steps (buildRenderedWorkflow sample_workflow (sample_values "b"))).
Proof.
  apply (displayed_steps_hide_sensitive sample_workflow (sample_values "a") (sample_values "b")).
  - intros k. unfold has_own, sample_values. cbn [own].
    by destruct (k ==s js "host"), (k ==s js "token").
  - intros k Hk. unfold sample_values. cbn [own]. destruct (k ==s js "host"); [done|].
    destruct (bool_decide_reflect (k = js "token")) as [->|]; [|done].
    destruct Hk. vm_compute. by left.
Defined.

(** The values on offer for an input are non-empty trimmed texts, no two
    equal up to case, and nothing is lost: every non-empty candidate is offered
    up to case. *)
Theorem source_options_spec targets recent files wordlists input :
  let options := workflowInputSourceOptions targets recent files wordlists input in
  Forall (λ o, ∃ s, so_value o = VStr s ∧ s ≠ [] ∧ trim s = s) options
  ∧ NoDup (map option_key options)
  ∧ ∀ c, c ∈ source_candidates targets recent files wordlists input → option_value c ≠ [] →
      option_key c ∈ map option_key options.
Proof.
  cbv zeta. unfold workflowInputSourceOptions.
  set (l := filterb _ _). 
  assert (∀ k : list source_option, map option_key
      (map (λ item, SourceOption (VStr (option_value item)) (so_description item)) k)
      = map option_key k) as Hk.
  { intros k. rewrite map_map. apply map_ext. intros i. unfold option_key, option_value. cbn.
    by rewrite str_of_VStr, trim_idemp. }
  rewrite Hk. split_and!.
  - apply Forall_map, Forall_forall. intros i Hi. cbn. eexists. split; [done|].
    pose proof (elem_of_sublist _ _ _ Hi (dedup_seen_sublist _ _ _)) as Hl.
    apply elem_of_filterb in Hl as [Hn _]. split; [by apply nonempty_spec|]. apply trim_idemp.
  - apply (NoDup_dedup_seen option_key).
  - intros c Hc Hne. change (option_key c ∈ option_key <$> dedup_seen option_key [] l).
    apply elem_of_dedup_seen_key. split; [|set_solver]. apply list_elem_of_fmap_2.
    apply elem_of_filterb. split; [by apply nonempty_spec|done].
Qed.
