(* ===== verification/TabSession.v ===== *)
(** Tabs across a reload
    (app/static/js/features/tabs/tab_session_state.js): the snapshot of the
    open tabs kept in the browser's session storage, and the tabs it restores.
    Creating a tab, setting its status and drawing its output are calls into
    other parts; only their results appear here. *)

From S2P Require Import Prelude JsString JsNumber JsValue JsJson RunOutputModel OutputCore.

(** ** Definitions: the snapshot *)

(** [Number.isInteger(v) ? v : undefined]. *)
Definition int_or_undef (v : jsval) : jsval := if is_int v then v else VUndef.
(** [Array.isArray(v) ? v.map(s => String(s || '')).filter(Boolean) : []]. *)
Definition string_items (v : jsval) : list jsstr := filterb nonempty (map str_of (items_of v)).
Definition bool_of (v : jsval) : jsval := VBool (truthy v).

Definition snapshot_line (line : jsval) : jsval :=
  let field (k : string) := (js k, VStr (str_of (get line (js k)))) in
  VObj [field "text"%string; field "cls"%string; field "kind"%string; field "role"%string;
        field "tsC"%string; field "tsE"%string;
        (js "signals", VArr (map VStr (string_items (get line (js "signals")))));
        (js "line_index", int_or_undef (get line (js "line_index")));
        (js "line_number", int_or_undef (get line (js "line_number")));
        field "command_root"%string; field "target"%string;
        (js "entities", VArr (map entityToWire (normalizeEntities (get line (js "entities")))))].
Definition _snapshotTabRawLines (rawLines : jsval) : list jsval := map snapshot_line (items_of rawLines).

Definition _snapshotTabCommandOutcomeSummary (summary : jsval) : jsval :=
  match normalizeCommandOutcomeSummary summary with
  | Some o => VObj [(js "title", VStr (oc_title o)); (js "items", VArr (map outcome_item_value (oc_items o)))]
  | None => VNull
  end.

(** [Number.isFinite(Number(v)) ? Number(v) : null]. *)
Definition finite_or_null (v : jsval) : jsval :=
  if is_finite (to_number v) then VNum (to_number v) else VNull.
(** [v == null ? null : Number(v)]. *)
Definition number_or_null (v : jsval) : jsval := if nullish v then VNull else VNum (to_number v).

Definition snapshot_tab (tab : jsval) : jsval :=
  let f (k : string) := get tab (js k) in
  let str (k : string) := (js k, VStr (str_of (f k))) in
  let bool (k : string) := (js k, bool_of (f k)) in
  VObj [str "label"%string; str "command"%string; bool "renamed"%string; str "workspaceCwd"%string;
        str "draftInput"%string;
        (js "commandHistory", VArr (map VStr (string_items (f "commandHistory"%string))));
        (js "st", VStr (to_string (js_or (f "st"%string) (vstr "idle"))));
        (js "exitCode", number_or_null (f "exitCode"%string));
        str "runId"%string; str "historyRunId"%string; str "historyRunKind"%string;
        str "lastEventId"%string; str "attachMode"%string; bool "reconnectedRun"%string;
        (js "runStart", finite_or_null (f "runStart"%string));
        (js "currentRunStartIndex", finite_or_null (f "currentRunStartIndex"%string));
        bool "previewTruncated"%string; bool "fullOutputAvailable"%string; bool "fullOutputLoaded"%string;
        (js "commandOutcomeSummary", _snapshotTabCommandOutcomeSummary (f "commandOutcomeSummary"%string));
        (js "rawLines", VArr (_snapshotTabRawLines (f "rawLines"%string)))].

(** The active tab keeps the composer's text, unless it is running. *)
Definition flush_draft (composer : jsstr) (tab : props) : props :=
  if is_str (get (VObj tab) (js "st")) (js "running") then tab
  else set_prop (js "draftInput") (VStr composer) tab.
Definition is_active (activeTabId : jsval) (tab : props) : bool :=
  match activeTabId, get (VObj tab) (js "id") with
  | VStr a, VStr b => a ==s b
  | _, _ => false
  end.
Definition _flushActiveTabDraftForSessionState (composer : jsstr) (activeTabId : jsval)
    (tabs : list props) : list props :=
  match find_index (is_active activeTabId) tabs with
  | Some i => alter (flush_draft composer) i tabs
  | None => tabs
  end.

Definition open_tabs (tabs : list props) : list props :=
  filterb (λ t, negb (truthy (get (VObj t) (js "closing")))) tabs.

Definition _tabSessionSnapshot (composer : jsstr) (activeTabId : jsval) (tabs : list props)
    : option jsval :=
  let allTabs := open_tabs (_flushActiveTabDraftForSessionState composer activeTabId tabs) in
  let persisted := map (λ t, snapshot_tab (VObj t)) allTabs in
  match persisted with
  | [] => None
  | _ =>
      let activeIndex := find_index (is_active activeTabId) allTabs in
      Some (VObj [(js "version", vint 1); (js "activeIndex", vnat (default O activeIndex));
                  (js "tabs", VArr persisted)])
  end.

(** ** Definitions: storage and restoring *)

Definition _normalizeRestoredWorkspaceCwd (path : jsval) : jsstr :=
  join (js "/") (filterb nonempty (map trim (split_on (cu "/") (str_of path)))).

(** Session storage, in the browser's order of keys. *)
Notation session_storage := (list (jsstr * jsstr)).
Fixpoint storage_get (k : jsstr) (st : session_storage) : option jsstr :=
  match st with [] => None | (k', v) :: st => if k ==s k' then Some v else storage_get k st end.
Fixpoint storage_set (k v : jsstr) (st : session_storage) : session_storage :=
  match st with
  | [] => [(k, v)]
  | (k', v') :: st => if k ==s k' then (k, v) :: st else (k', v') :: storage_set k v st
  end.

(** A restored tab; [r_rawLines] is what is drawn again. *)
Record restored := Restored
  { r_label : jsstr; r_command : jsstr; r_renamed : bool; r_workspaceCwd : jsstr;
    r_draftInput : jsstr; r_commandHistory : list jsstr; r_historyNavIndex : Z;
    r_historyNavDraft : jsstr; r_exitCode : option num; r_runId : jsstr; r_historyRunId : jsstr;
    r_historyRunKind : jsstr; r_lastEventId : jsstr; r_attachMode : jsstr; r_reconnectedRun : bool;
    r_runStart : option num; r_currentRunStartIndex : option num; r_previewTruncated : bool;
    r_fullOutputAvailable : bool; r_fullOutputLoaded : bool; r_commandOutcomeSummary : jsval;
    r_rawLines : jsval; r_st : jsstr }.

(** [Number.isFinite(Number(item && v)) ? Number(v) : null]. *)
Definition finite_opt (v : jsval) : option num :=
  if is_finite (to_number v) then Some (to_number v) else None.
Definition number_opt (v : jsval) : option num := if nullish v then None else Some (to_number v).

Section Session.
(** The session's name for its entry, the default label of the n-th tab, and
    whether one more tab can be created. *)
Context (session_id : jsval) (defaultLabel : nat → jsstr) (createTab : nat → jsstr → bool).

Definition TAB_SESSION_STATE_KEY : jsstr :=
  js "tab_session_state:" ++ to_string (js_or session_id (vstr "session")).

(** Nothing is written while a restore is in progress. *)
Definition persistTabSessionStateNow (restoreInProgress : bool) (composer : jsstr)
    (activeTabId : jsval) (tabs : list props) (st : session_storage) : session_storage :=
  if restoreInProgress then st else
  match _tabSessionSnapshot composer activeTabId tabs with
  | None => filterb (λ p, negb (fst p ==s TAB_SESSION_STATE_KEY)) st
  | Some snapshot => storage_set TAB_SESSION_STATE_KEY (stringify snapshot) st
  end.

Definition _readStoredTabSessionState (st : session_storage) : option jsstr :=
  let direct := default [] (storage_get TAB_SESSION_STATE_KEY st) in
  if nonempty direct then Some direct
  else snd <$> findb (λ p, starts_with (js "tab_session_state:") (fst p) && nonempty (snd p)) st.

Definition restore_item (index : nat) (item : jsval) : restored :=
  let f (k : string) := get item (js k) in
  let str (k : string) := str_of (f k) in
  let st := match f "st"%string with
            | VStr s => if s ==s js "running" then js "idle" else s
            | _ => js "idle"
            end in
  Restored (to_string (js_or (f "label"%string) (VStr (defaultLabel (S index)))))
    (str "command"%string) (truthy (f "renamed"%string))
    (_normalizeRestoredWorkspaceCwd (js_or (f "workspaceCwd"%string) (VStr [])))
    (str "draftInput"%string) (string_items (f "commandHistory"%string)) (-1) []
    (number_opt (f "exitCode"%string)) (str "runId"%string) (str "historyRunId"%string)
    (str "historyRunKind"%string) (str "lastEventId"%string) (str "attachMode"%string)
    (truthy (f "reconnectedRun"%string)) (finite_opt (f "runStart"%string))
    (finite_opt (f "currentRunStartIndex"%string)) (truthy (f "previewTruncated"%string))
    (truthy (f "fullOutputAvailable"%string)) (truthy (f "fullOutputLoaded"%string))
    (js_or (f "commandOutcomeSummary"%string) VNull) (f "rawLines"%string) st.

(** The items whose tab was created, in order; [created] counts the tabs
    so far. *)
Fixpoint restore_tabs (created index : nat) (items : list jsval) : list restored :=
  match items with
  | [] => []
  | item :: items =>
      let r := restore_item index item in
      if createTab created (r_label r) then r :: restore_tabs (S created) (S index) items
      else restore_tabs created (S index) items
  end.

(** [Math.max(0, Math.min(Number(i) || 0, n - 1))], as an index. *)
Definition active_index (v : jsval) (count : nat) : option nat :=
  Z.to_nat <$> num_to_Z (num_max num_zero (num_min (num_or v 0) (num_of_Z (Z.of_nat count - 1)))).

(** The restored tabs and the one that becomes active; [None] when nothing
    is restored. *)
Definition restoreTabSessionState (st : session_storage) : option (list restored * option restored) :=
  match json_parse (default (js "null") (_readStoredTabSessionState st)) with
  | None => None
  | Some parsed =>
      let items := items_of (get parsed (js "tabs")) in
      if negb (truthy parsed) || negb (is_int_eq (get parsed (js "version")) 1)
         || negb (is_array (get parsed (js "tabs"))) || bool_decide (items = []) then None
      else
        let tabs := restore_tabs 0 0 items in
        if bool_decide (tabs = []) then None
        else Some (tabs, active_index (get parsed (js "activeIndex")) (length tabs) ≫= (tabs !!.))
  end.
End Session.

(** ** Lemmas *)

Lemma string_items_VStr l : string_items (VArr (map VStr l)) = filterb nonempty l.
Proof.
  unfold string_items. cbn [items_of]. rewrite map_map. f_equal.
  rewrite <-(map_id l) at 2. apply map_ext. apply str_of_VStr.
Qed.

Lemma normalize_restored_eq path : _normalizeRestoredWorkspaceCwd path = normalizeWorkspaceCwd path.
Proof. done. Qed.

Lemma finite_opt_snapshot v :
  finite_opt (finite_or_null v) = Some (if is_finite (to_number v) then to_number v else num_zero).
Proof.
  unfold finite_or_null. destruct (is_finite (to_number v)) eqn:Hf; [|done].
  unfold finite_opt. cbn [to_number]. by rewrite Hf.
Qed.

Lemma number_opt_snapshot v : number_opt (number_or_null v) = number_opt v.
Proof. unfold number_opt, number_or_null. by destruct (nullish v). Qed.

Lemma js_or_snapshot_summary v :
  js_or (_snapshotTabCommandOutcomeSummary v) VNull = _snapshotTabCommandOutcomeSummary v.
Proof. unfold _snapshotTabCommandOutcomeSummary. by destruct (normalizeCommandOutcomeSummary v). Qed.

Lemma js_or_VStr_nil s : js_or (VStr s) (VStr []) = VStr s.
Proof. by destruct s. Qed.

Lemma snapshot_str k tab :
  own (props_of (snapshot_tab tab)) (js k) = Some (VStr (str_of (get tab (js k)))) →
  get (snapshot_tab tab) (js k) = VStr (str_of (get tab (js k))).
Proof. cbn [get]. unfold table_get, snapshot_tab. cbn [props_of get]. unfold table_get. by intros ->. Qed.

(** The status a restored tab takes: a run is not resumed. *)
Definition status_after_reload (st : jsstr) : jsstr := if st ==s js "running" then js "idle" else st.

(** ** Properties *)

(** C27: A tab comes back from its snapshot as it was: the texts, flags, recall
    list and exit code are those of the tab, the folder normalised, the
    navigation reset, and a running tab idle. The two run marks are never
    [null] after a reload: where the tab had none, they are zero. The JSON text
    the snapshot is stored as in between is left out: [JsJson] has its round
    trip. *)
Theorem snapshot_restores_tab defaultLabel index tab :
  let r := restore_item defaultLabel index (snapshot_tab tab) in
  let f (k : string) := get tab (js k) in
  let mark v := Some (if is_finite (to_number v) then to_number v else num_zero) in
  r_label r = str_or (str_of (f "label"%string)) (defaultLabel (S index))
  ∧ r_command r = str_of (f "command"%string)
  ∧ r_renamed r = truthy (f "renamed"%string)
  ∧ r_workspaceCwd r = normalizeWorkspaceCwd (f "workspaceCwd"%string)
  ∧ r_draftInput r = str_of (f "draftInput"%string)
  ∧ r_commandHistory r = string_items (f "commandHistory"%string)
  ∧ r_historyNavIndex r = -1 ∧ r_historyNavDraft r = []
  ∧ r_exitCode r = number_opt (f "exitCode"%string)
  ∧ (r_runId r, r_historyRunId r, r_historyRunKind r)
    = (str_of (f "runId"%string), str_of (f "historyRunId"%string), str_of (f "historyRunKind"%string))
  ∧ (r_lastEventId r, r_attachMode r, r_reconnectedRun r)
    = (str_of (f "lastEventId"%string), str_of (f "attachMode"%string), truthy (f "reconnectedRun"%string))
  ∧ (r_previewTruncated r, r_fullOutputAvailable r, r_fullOutputLoaded r)
    = (truthy (f "previewTruncated"%string), truthy (f "fullOutputAvailable"%string),
       truthy (f "fullOutputLoaded"%string))
  ∧ r_runStart r = mark (f "runStart"%string)
  ∧ r_currentRunStartIndex r = mark (f "currentRunStartIndex"%string)
  ∧ r_commandOutcomeSummary r = _snapshotTabCommandOutcomeSummary (f "commandOutcomeSummary"%string)
  ∧ r_rawLines r = VArr (_snapshotTabRawLines (f "rawLines"%string))
  ∧ r_st r = status_after_reload (to_string (js_or (f "st"%string) (vstr "idle"))).
Proof.
  cbv zeta. unfold restore_item.
  split_and!; cbn [r_label r_command r_renamed r_workspaceCwd r_draftInput
    r_commandHistory r_historyNavIndex r_historyNavDraft r_exitCode r_runId r_historyRunId
    r_historyRunKind r_lastEventId r_attachMode r_reconnectedRun r_runStart r_currentRunStartIndex
    r_previewTruncated r_fullOutputAvailable r_fullOutputLoaded r_commandOutcomeSummary r_rawLines r_st].
  all: rewrite ?(snapshot_str "label"), ?(snapshot_str "command"), ?(snapshot_str "workspaceCwd"),
    ?(snapshot_str "draftInput"), ?(snapshot_str "runId"), ?(snapshot_str "historyRunId"),
    ?(snapshot_str "historyRunKind"), ?(snapshot_str "lastEventId"), ?(snapshot_str "attachMode"),
    ?str_of_VStr, ?js_or_VStr_nil by reflexivity.
  all: try reflexivity.
  - unfold js_or, str_or. cbn [truthy]. by destruct (nonempty _).
  - rewrite normalize_restored_eq. unfold normalizeWorkspaceCwd. by rewrite str_of_VStr.
  - change (get (snapshot_tab tab) (js "commandHistory"))
      with (VArr (map VStr (string_items (get tab (js "commandHistory"))))).
    rewrite string_items_VStr. apply filterb_idemp.
  - change (get (snapshot_tab tab) (js "exitCode")) with (number_or_null (get tab (js "exitCode"))).
    apply number_opt_snapshot.
  - change (get (snapshot_tab tab) (js "runStart")) with (finite_or_null (get tab (js "runStart"))).
    apply finite_opt_snapshot.
  - change (get (snapshot_tab tab) (js "currentRunStartIndex"))
      with (finite_or_null (get tab (js "currentRunStartIndex"))).
    apply finite_opt_snapshot.
  - apply js_or_snapshot_summary.
Qed.

Lemma storage_get_set k v st : storage_get k (storage_set k v st) = Some v.
Proof.
  induction st as [|[k' v'] st IH]; cbn; [by rewrite bool_decide_true|].
  destruct (bool_decide_reflect (k = k')); cbn; [by rewrite bool_decide_true|].
  by rewrite bool_decide_false.
Qed.

Lemma num_or_nat n : Z.of_nat n < 2 ^ 53 → num_or (vnat n) 0 = num_of_Z (Z.of_nat n).
Proof.
  intros Hn. unfold num_or, vnat, num_of_nat. cbn [to_number truthy].
  destruct (num_of_Z (Z.of_nat n)) eqn:He; try done.
  - pose proof (num_of_Z_not_nan (Z.of_nat n) ltac:(lia)) as H. pose proof (num_to_Z_of_Z (Z.of_nat n) ltac:(lia)) as Hz.
    rewrite He in Hz. cbn in Hz. injection Hz as Hz. rewrite <-Hz in *. by rewrite <-He.
  - pose proof (num_of_Z_not_nan (Z.of_nat n) ltac:(lia)) as H. by rewrite He in H.
Qed.

Lemma active_index_nat i n :
  (i < n)%nat → Z.of_nat n < 2 ^ 53 → active_index (vnat i) n = Some i.
Proof.
  intros Hi Hn. unfold active_index. rewrite num_or_nat by lia.
  change num_zero with (num_of_Z 0).
  rewrite num_min_of_Z, num_max_of_Z, num_to_Z_of_Z by lia. cbn. f_equal. lia.
Qed.

(** What is persisted is what a reload reads: with at least one tab that is
    not closing, the storage entry that is read back is the text of a snapshot
    of exactly those tabs, in order, whose active index is in range, designates
    the active tab when that is open, and is the index restoring activates. *)
Theorem persist_read_back session_id composer activeTabId tabs st :
  let allTabs := open_tabs (_flushActiveTabDraftForSessionState composer activeTabId tabs) in
  (0 < length allTabs)%nat → Z.of_nat (length allTabs) < 2 ^ 53 →
  ∃ i, let snapshot := VObj [(js "version", vint 1); (js "activeIndex", vnat i);
         (js "tabs", VArr (map (λ t, snapshot_tab (VObj t)) allTabs))] in
    _readStoredTabSessionState session_id
      (persistTabSessionStateNow session_id false composer activeTabId tabs st)
    = Some (stringify snapshot)
    ∧ (i < length allTabs)%nat
    ∧ ((∃ t, t ∈ allTabs ∧ is_active activeTabId t = true) →
       ∃ t, allTabs !! i = Some t ∧ is_active activeTabId t = true)
    ∧ active_index (get snapshot (js "activeIndex")) (length allTabs) = Some i.
Proof.
  cbv zeta. intros Hl Hb. unfold persistTabSessionStateNow, _tabSessionSnapshot. cbv zeta.
  revert Hl Hb. generalize (open_tabs (_flushActiveTabDraftForSessionState composer activeTabId tabs)).
  intros all Hl Hb. exists (default O (find_index (is_active activeTabId) all)).
  assert (default O (find_index (is_active activeTabId) all) < length all)%nat as Hi.
  { destruct (find_index _ all) as [i|] eqn:Hf; [|done]. cbn.
    apply find_index_Some in Hf as (x & Hx & _). by eapply lookup_lt_Some. }
  split_and!; [|done| |by apply active_index_nat].
  - destruct all as [|t all]; [cbn in Hl; lia|]. cbn [map].
    unfold _readStoredTabSessionState. rewrite storage_get_set. done.
  - intros (t & Ht & Ha). destruct (find_index _ all) as [i|] eqn:Hf.
    + apply find_index_Some in Hf as (x & Hx & Hxa). by exists x.
    + rewrite find_index_None in Hf. specialize (Hf t Ht). congruence.
Qed.

Definition sample_tab (id : string) (closing : bool) : props :=
  [(js "id", vstr id); (js "label", vstr "shell"); (js "closing", VBool closing)].
Lemma persist_read_back_witness :
  let tabs := [sample_tab "a" true; sample_tab "b" false; sample_tab "c" false] in
  let allTabs := open_tabs (_flushActiveTabDraftForSessionState (js "ls") (vstr "c") tabs) in
  (0 < length allTabs)%nat ∧
  ∃ i, let snapshot := VObj [(js "version", vint 1); (js "activeIndex", vnat i);
         (js "tabs", VArr (map (λ t, snapshot_tab (VObj t)) allTabs))] in
    _readStoredTabSessionState (vstr "s")
      (persistTabSessionStateNow (vstr "s") false (js "ls") (vstr "c") tabs [])
    = Some (stringify snapshot)
    ∧ (i < length allTabs)%nat
    ∧ ((∃ t, t ∈ allTabs ∧ is_active (vstr "c") t = true) →
       ∃ t, allTabs !! i = Some t ∧ is_active (vstr "c") t = true)
    ∧ active_index (get snapshot (js "activeIndex")) (length allTabs) = Some i.
Proof.
  intros tabs allTabs. split; [vm_compute; lia|].
  apply (persist_read_back (vstr "s") (js "ls") (vstr "c") tabs []); vm_compute; [lia|done].
Defined.
