(* ===== verification/RunStream.v ===== *)
(** The live stream of a run (app/static/js/runner.js): server-sent events
    reassembled from chunks, the queue that hands them to the tab in batches,
    and the registry of the tab's streams, which are detached, paused and
    resumed while they run. *)

From S2P Require Import Prelude JsString JsNumber JsRegExp JsValue JsJson JsUri.

(** ** Definitions: events *)

(** [text.split('\n\n')]. *)
Fixpoint split_blank (s : jsstr) : list jsstr :=
  match s with
  | [] => [[]]
  | c :: s' =>
      match s' with
      | d :: t =>
          if (c =? 10) && (d =? 10) then [] :: split_blank t
          else match split_blank s' with [] => [[c]] | w :: l => (c :: w) :: l end
      | [] => [[c]]
      end
  end.

(** [text.split(/\r?\n/)]: one carriage return before a line feed goes with it. *)
Definition strip_cr (w : jsstr) : jsstr := if ends_with [13] w then drop_last w else w.
Fixpoint strip_crs (l : list jsstr) : list jsstr :=
  match l with [] => [] | [w] => [w] | w :: l => strip_cr w :: strip_crs l end.
Definition split_lines (s : jsstr) : list jsstr := strip_crs (split_on 10 s).

(** A message: its value, and what [msg.event_id] reads. *)
Record sse_msg := SseMsg { sm_value : jsval; sm_event_id : jsval }.

Definition sse_line (acc : jsstr * list jsstr) (line : jsstr) : jsstr * list jsstr :=
  let '(eventId, dataLines) := acc in
  if starts_with (js "id: ") line then (trim (slice_from 4 line), dataLines)
  else if starts_with (js "data: ") line then (eventId, dataLines ++ [slice_from 6 line])
  else acc.

(** [msg.event_id = eventId]; an array takes the property without an element. *)
Definition attach_id (eventId : jsstr) (msg : jsval) : sse_msg :=
  if nonempty eventId && is_objectlike msg && negb (truthy (get msg (js "event_id")))
  then SseMsg (match msg with VObj o => VObj (set_prop (js "event_id") (VStr eventId) o) | v => v end)
              (VStr eventId)
  else SseMsg msg (get msg (js "event_id")).

Inductive sse_read := NoMessage | Malformed | Message (m : sse_msg).
Definition _sseMessageFromChunk (part : jsstr) : sse_read :=
  let '(eventId, dataLines) := fold_left sse_line (split_lines part) ([], []) in
  match dataLines with
  | [] => NoMessage
  | _ => match json_parse (join [10] dataLines) with
         | None => Malformed
         | Some msg => Message (attach_id eventId msg)
         end
  end.

(** The messages of a complete event; a malformed one is dropped. *)
Definition chunk_message (part : jsstr) : list sse_msg :=
  match _sseMessageFromChunk part with
  | Message m => if truthy (sm_value m) then [m] else []
  | _ => []
  end.

(** One read: the complete events of the buffer, and what stays in it. *)
Definition take_chunk (buffer chunk : jsstr) : list sse_msg * jsstr :=
  let parts := split_blank (buffer ++ chunk) in
  (flat_map chunk_message (removelast parts), default [] (last parts)).

(** ** Definitions: addresses and lines *)

(** The address of the stream; [None] when the encoding throws. *)
Definition _brokerStreamUrl (runId tabId streamUrl afterId : jsstr) : option jsstr :=
  base ← (if nonempty streamUrl then Some streamUrl
          else run ← encodeURIComponent runId; Some (js "/runs/" ++ run ++ js "/stream"));
  tab ← (if nonempty tabId then t ← encodeURIComponent tabId; Some [js "tab_id=" ++ t] else Some []);
  after ← (if nonempty afterId then a ← encodeURIComponent afterId; Some [js "after=" ++ a] else Some []);
  match tab ++ after with
  | [] => Some base
  | params => Some (base ++ (if includes (js "?") base then js "&" else js "?") ++ join (js "&") params)
  end.

(** The lines a text is shown as. *)
Definition _forEachStreamTextLine (text : jsval) : list jsstr :=
  let raw := str_of_nullish text in
  if negb (nonempty raw) then [[]] else
  let lines := split_on 10 raw in
  match last lines with
  | Some [] => removelast lines
  | _ => lines
  end.

(** ** Definitions: the queue *)

Definition _RUN_STREAM_MESSAGE_BATCH_LIMIT : nat := 750.

(** The queue of a stream. [mb_tasks] counts the callbacks that are scheduled
    and will drain it. *)
Record mailbox := Mailbox
  { mb_buffer : jsstr; mb_queue : list sse_msg; mb_index : nat; mb_scheduled : bool;
    mb_tasks : nat; mb_readDone : bool; mb_sawTerminalEvent : bool }.
Definition new_mailbox : mailbox := Mailbox [] [] 0 false 0 false false.

Definition _runStreamQueueLength (mb : mailbox) : nat := length (mb_queue mb) - mb_index mb.

Definition _scheduleRunStreamMessageDrain (mb : mailbox) : mailbox :=
  if mb_scheduled mb then mb
  else Mailbox (mb_buffer mb) (mb_queue mb) (mb_index mb) true (S (mb_tasks mb))
               (mb_readDone mb) (mb_sawTerminalEvent mb).

Definition _enqueueRunStreamMessages (messages : list sse_msg) (mb : mailbox) : mailbox :=
  match messages with
  | [] => mb
  | _ => _scheduleRunStreamMessageDrain
           (Mailbox (mb_buffer mb) (mb_queue mb ++ messages) (mb_index mb) (mb_scheduled mb)
                    (mb_tasks mb) (mb_readDone mb) (mb_sawTerminalEvent mb))
  end.

Definition set_buffer (buffer : jsstr) (mb : mailbox) : mailbox :=
  Mailbox buffer (mb_queue mb) (mb_index mb) (mb_scheduled mb) (mb_tasks mb) (mb_readDone mb)
          (mb_sawTerminalEvent mb).
Definition set_readDone (mb : mailbox) : mailbox :=
  Mailbox (mb_buffer mb) (mb_queue mb) (mb_index mb) (mb_scheduled mb) (mb_tasks mb) true
          (mb_sawTerminalEvent mb).
(** A read that brings text. *)
Definition receive (chunk : jsstr) (mb : mailbox) : mailbox :=
  let '(messages, buffer) := take_chunk (mb_buffer mb) chunk in
  _enqueueRunStreamMessages messages (set_buffer buffer mb).

(** [['exit', 'error'].includes(String(msg.type || msg.event || ''))]. *)
Definition is_terminal (m : sse_msg) : bool :=
  let type := str_of (js_or (get (sm_value m) (js "type")) (get (sm_value m) (js "event"))) in
  bool_decide (type ∈ map js ["exit"; "error"]%string).

(** Nothing is left to drain and nothing more will come. *)
Definition drained (mb : mailbox) : bool :=
  mb_readDone mb && bool_decide (_runStreamQueueLength mb = 0)%nat && negb (mb_scheduled mb).

Section Drain.
Context {T : Type} (handle : sse_msg → T → T).

(** The loop over the queue: how many messages it handled. [late n]: after
    [n] messages the clock says the batch took its time. *)
Fixpoint drain_loop (late : nat → bool) (processed : nat) (queue : list sse_msg) (saw : bool) (t : T)
    : nat * bool * T :=
  match queue with
  | [] => (processed, saw, t)
  | m :: queue =>
      let processed := S processed in
      let saw := saw || is_terminal m in
      let t := handle m t in
      if bool_decide (_RUN_STREAM_MESSAGE_BATCH_LIMIT ≤ processed)%nat || late processed
      then (processed, saw, t)
      else drain_loop late processed queue saw t
  end.

(** One scheduled callback. *)
Definition _drainRunStreamMessageQueue (late : nat → bool) (mb : mailbox) (t : T) : mailbox * T :=
  let '(processed, saw, t) :=
    drain_loop late 0 (drop (mb_index mb) (mb_queue mb)) (mb_sawTerminalEvent mb) t in
  let index := (mb_index mb + processed)%nat in
  let empty := bool_decide (length (mb_queue mb) ≤ index)%nat in
  let mb' := Mailbox (mb_buffer mb) (if empty then [] else mb_queue mb) (if empty then 0%nat else index)
                     false (pred (mb_tasks mb)) (mb_readDone mb) saw in
  (if bool_decide (0 < _runStreamQueueLength mb')%nat then _scheduleRunStreamMessageDrain mb' else mb', t).

(** Reads and callbacks in any order, from a new stream and the tab [t0]; the
    index is the text received so far. *)
Inductive delivery (t0 : T) : jsstr → mailbox → T → Prop :=
  | delivery_start : delivery t0 [] new_mailbox t0
  | delivery_chunk text chunk mb t :
      delivery t0 text mb t → mb_readDone mb = false →
      delivery t0 (text ++ chunk) (receive chunk mb) t
  | delivery_done text mb t :
      delivery t0 text mb t → delivery t0 text (set_readDone mb) t
  | delivery_drain text late mb t mb' t' :
      delivery t0 text mb t → (0 < mb_tasks mb)%nat →
      _drainRunStreamMessageQueue late mb t = (mb', t') → delivery t0 text mb' t'.

(** The callbacks that are scheduled, run one after the other. *)
Fixpoint run_drains (lates : list (nat → bool)) (mb : mailbox) (t : T) : mailbox * T :=
  match lates with
  | [] => (mb, t)
  | late :: lates =>
      if bool_decide (mb_tasks mb = 0)%nat then (mb, t)
      else let '(mb', t') := _drainRunStreamMessageQueue late mb t in run_drains lates mb' t'
  end.
End Drain.

(** ** Lemmas: chunks *)

(** The messages of a text, read whole, and the incomplete event at its end. *)
Definition stream_messages (text : jsstr) : list sse_msg :=
  flat_map chunk_message (removelast (split_blank text)).
Definition stream_rest (text : jsstr) : jsstr := default [] (last (split_blank text)).

Lemma split_blank_cons c s :
  split_blank (c :: s)
  = match s with
    | d :: t => if (c =? 10) && (d =? 10) then [] :: split_blank t
                else match split_blank s with [] => [[c]] | w :: l => (c :: w) :: l end
    | [] => [[c]]
    end.
Proof. done. Qed.

Lemma split_blank_ne s : split_blank s ≠ [].
Proof. destruct s as [|c [|d t]]; [done..|]. rewrite split_blank_cons. repeat case_match; done. Qed.

Lemma split_blank_one n : ∀ s w, (length s ≤ n)%nat → split_blank s = [w] → w = s.
Proof.
  induction n as [|n IH]; intros [|c [|d t]] w Hn; try (by intros [= <-]); [simpl in Hn; lia|].
  rewrite split_blank_cons. destruct ((c =? 10) && (d =? 10)).
  { intros [= _ H]. by apply split_blank_ne in H. }
  destruct (split_blank (d :: t)) as [|v l] eqn:E; [by apply split_blank_ne in E|].
  intros [= <- ->]. f_equal. apply IH; [simpl in *; lia|done].
Qed.

Lemma split_blank_app n : ∀ s t, (length s ≤ n)%nat →
  split_blank (s ++ t) = removelast (split_blank s) ++ split_blank (stream_rest s ++ t).
Proof.
  unfold stream_rest. induction n as [|n IH]; intros [|c [|d u]] t Hn; try done; [simpl in Hn; lia|].
  rewrite (split_blank_cons c (d :: u)). cbn [app]. rewrite split_blank_cons.
  destruct ((c =? 10) && (d =? 10)) eqn:Hcd.
  - rewrite IH by (simpl in *; lia).
    destruct (split_blank u) as [|w l] eqn:E; [by apply split_blank_ne in E|].
    by rewrite last_cons_cons.
  - rewrite app_comm_cons. rewrite IH by (simpl in *; lia).
    destruct (split_blank (d :: u)) as [|w [|v l]] eqn:E; [by apply split_blank_ne in E| |].
    + apply (split_blank_one (length (d :: u))) in E as ->; [|done].
      change (last [d :: u]) with (Some (d :: u)). change (last [c :: d :: u]) with (Some (c :: d :: u)).
      unfold default.
      cbn [removelast app from_option id]. by rewrite (split_blank_cons c), Hcd.
    + by rewrite !last_cons_cons.
Qed.

Lemma stream_rest_app s t : stream_rest (s ++ t) = stream_rest (stream_rest s ++ t).
Proof.
  unfold stream_rest at 1 2. rewrite (split_blank_app (length s)) by done.
  destruct (split_blank (stream_rest s ++ t)) as [|w l] eqn:E; [by apply split_blank_ne in E|].
  by rewrite last_app_cons.
Qed.

Lemma take_chunk_spec text chunk :
  take_chunk (stream_rest text) chunk
  = (drop (length (stream_messages text)) (stream_messages (text ++ chunk)), stream_rest (text ++ chunk))
  ∧ take (length (stream_messages text)) (stream_messages (text ++ chunk)) = stream_messages text.
Proof.
  assert (stream_messages (text ++ chunk)
          = stream_messages text ++ flat_map chunk_message (removelast (split_blank (stream_rest text ++ chunk))))
    as Heq.
  { unfold stream_messages at 1. rewrite (split_blank_app (length text)) by done.
    by rewrite removelast_app, flat_map_app by apply split_blank_ne. }
  unfold take_chunk. rewrite Heq, drop_app_length, take_app_length, (stream_rest_app text chunk). done.
Qed.

(** ** Lemmas: the queue *)

(** The messages that wait in the queue. *)
Definition pending (mb : mailbox) : list sse_msg := drop (mb_index mb) (mb_queue mb).

Section Delivery.
Context {T : Type} (handle : sse_msg → T → T).

(** The tab after it handled the messages one by one. *)
Definition handle_all (t0 : T) (l : list sse_msg) : T := fold_left (λ t m, handle m t) l t0.

(** What every state of a stream satisfies: [handled] came out of the queue. *)
Record delivered (t0 : T) (text : jsstr) (mb : mailbox) (t : T) (handled : list sse_msg) : Prop := {
  dv_messages : stream_messages text = handled ++ pending mb;
  dv_tab : t = handle_all t0 handled;
  dv_buffer : mb_buffer mb = stream_rest text;
  dv_index : (mb_index mb ≤ length (mb_queue mb))%nat;
  dv_scheduled : mb_scheduled mb = bool_decide (pending mb ≠ []);
  dv_tasks : mb_tasks mb = Nat.b2n (mb_scheduled mb);
  dv_terminal : mb_sawTerminalEvent mb = existsb is_terminal handled }.

Lemma drain_loop_spec late p queue saw t p' saw' t' :
  drain_loop handle late p queue saw t = (p', saw', t') →
  ∃ handled rest, queue = handled ++ rest ∧ p' = (p + length handled)%nat
    ∧ t' = handle_all t handled ∧ saw' = saw || existsb is_terminal handled
    ∧ (queue ≠ [] → handled ≠ []).
Proof.
  revert p saw t. induction queue as [|m queue IH]; intros p saw t; cbn [drain_loop].
  { intros [= <- <- <-]. exists [], []. rewrite Nat.add_0_r, orb_false_r. done. }
  case_match.
  - intros [= <- <- <-]. exists [m], queue. cbn. rewrite orb_false_r. repeat split; [lia|done].
  - intros Hl. apply IH in Hl as (handled & rest & -> & -> & -> & -> & _).
    exists (m :: handled), rest. cbn. rewrite orb_assoc. repeat split; [lia|done].
Qed.

Lemma queue_length_pending mb : _runStreamQueueLength mb = length (pending mb).
Proof. unfold pending. by rewrite length_drop. Qed.

Lemma schedule_pending mb : pending (_scheduleRunStreamMessageDrain mb) = pending mb.
Proof. unfold _scheduleRunStreamMessageDrain. by case_match. Qed.

(** One callback: it handles some of the waiting messages, all in order, at
    least one when one waits. *)
Lemma drain_spec late mb t mb' t' :
  (mb_index mb ≤ length (mb_queue mb))%nat → mb_tasks mb = 1%nat →
  _drainRunStreamMessageQueue handle late mb t = (mb', t') →
  ∃ now, pending mb = now ++ pending mb' ∧ t' = handle_all t now
    ∧ mb_buffer mb' = mb_buffer mb ∧ (mb_index mb' ≤ length (mb_queue mb'))%nat
    ∧ mb_scheduled mb' = bool_decide (pending mb' ≠ []) ∧ mb_tasks mb' = Nat.b2n (mb_scheduled mb')
    ∧ mb_sawTerminalEvent mb' = mb_sawTerminalEvent mb || existsb is_terminal now
    ∧ mb_readDone mb' = mb_readDone mb ∧ (pending mb ≠ [] → now ≠ []).
Proof.
  intros Hi Ht. unfold _drainRunStreamMessageQueue.
  destruct (drain_loop _ _ _ _ _) as [[p saw] t''] eqn:E.
  apply drain_loop_spec in E as (now & rest & Hq & -> & -> & -> & Hne). cbn [Nat.add] in *.
  set (mb1 := Mailbox _ _ _ _ _ _ _).
  assert (pending mb1 = rest ∧ (mb_index mb1 ≤ length (mb_queue mb1))%nat) as [Hr Hi1].
  { assert (drop (mb_index mb + length now) (mb_queue mb) = rest) as Hd.
    { rewrite <-drop_drop. rewrite Hq. apply drop_app_length. }
    assert (length (mb_queue mb) = mb_index mb + length now + length rest)%nat.
    { apply (f_equal length) in Hq. rewrite length_drop, length_app in Hq. lia. }
    unfold pending, mb1. cbn [mb_index mb_queue]. case_bool_decide; [|split; [done|lia]].
    split; [|done]. destruct rest; [done|simpl in *; lia]. }
  assert (mb_buffer mb1 = mb_buffer mb ∧ mb_scheduled mb1 = false ∧ mb_tasks mb1 = 0%nat
          ∧ mb_readDone mb1 = mb_readDone mb
          ∧ mb_sawTerminalEvent mb1 = mb_sawTerminalEvent mb || existsb is_terminal now)
    as (Hb & Hs & Hk & Hd & Hw).
  { unfold mb1. cbn. by rewrite Ht. }
  clearbody mb1. rewrite queue_length_pending. intros H. exists now. fold (pending mb) in Hq, Hne.
  rewrite Hq in *. case_bool_decide; simplify_eq; rewrite ?schedule_pending.
  - unfold _scheduleRunStreamMessageDrain; rewrite Hs. cbn. rewrite Hk. repeat split; try done.
    symmetry. apply bool_decide_eq_true. by destruct (pending mb1); simpl in *; [lia|].
  - destruct (pending mb'); [|simpl in *; lia]. repeat split; try done. by rewrite Hk, Hs.
Qed.

Lemma delivered_start t0 : delivered t0 [] new_mailbox t0 [].
Proof. done. Qed.

Lemma delivered_receive t0 text chunk mb t handled :
  delivered t0 text mb t handled → delivered t0 (text ++ chunk) (receive chunk mb) t handled.
Proof.
  intros []. unfold receive. rewrite dv_buffer0.
  destruct (take_chunk_spec text chunk) as [-> Htake].
  set (new := drop _ _).
  assert (stream_messages (text ++ chunk) = handled ++ pending mb ++ new) as Hnew.
  { pose proof (take_drop (length (stream_messages text)) (stream_messages (text ++ chunk))) as Hn.
    fold new in Hn. rewrite Htake in Hn. by rewrite <-Hn, dv_messages0, (assoc_L (++)). }
  destruct new as [|m new]; [rewrite app_nil_r in Hnew; by constructor|].
  unfold _enqueueRunStreamMessages, _scheduleRunStreamMessageDrain. cbn [mb_scheduled set_buffer].
  assert (drop (mb_index mb) (mb_queue mb ++ m :: new) = pending mb ++ m :: new) as Hp
    by (apply drop_app_le; lia).
  destruct (mb_scheduled mb) eqn:Hs; constructor; cbn; unfold pending; cbn; rewrite ?Hp, ?length_app;
    try done; try lia; rewrite ?dv_tasks0, ?Hs; try done;
    symmetry; apply bool_decide_eq_true; by destruct (pending mb).
Qed.

Lemma delivered_done t0 text mb t handled :
  delivered t0 text mb t handled → delivered t0 text (set_readDone mb) t handled.
Proof. intros []. by constructor. Qed.

Lemma delivered_drain t0 text late mb t mb' t' handled :
  delivered t0 text mb t handled → (0 < mb_tasks mb)%nat →
  _drainRunStreamMessageQueue handle late mb t = (mb', t') →
  ∃ now, delivered t0 text mb' t' (handled ++ now) ∧ pending mb = now ++ pending mb'
         ∧ mb_readDone mb' = mb_readDone mb ∧ (pending mb ≠ [] → now ≠ []).
Proof.
  intros [] Hpos Hd.
  assert (mb_tasks mb = 1%nat) as Ht by (rewrite dv_tasks0 in *; destruct (mb_scheduled mb); simpl in *; lia).
  destruct (drain_spec _ _ _ _ _ dv_index0 Ht Hd) as (now & Hp & -> & Hb & Hi & Hs & Htk & Hsaw & Hr & Hne).
  exists now. split; [|done]. constructor; try done.
  - by rewrite dv_messages0, Hp, (assoc_L (++)).
  - unfold handle_all. by rewrite fold_left_app, dv_tab0.
  - by rewrite Hb.
  - by rewrite Hsaw, dv_terminal0, existsb_app.
Qed.

Lemma delivery_delivered t0 text mb t :
  delivery handle t0 text mb t → ∃ handled, delivered t0 text mb t handled.
Proof.
  induction 1 as [|text chunk mb t _ [handled H] _|text mb t _ [handled H]|text late mb t mb' t' _ [handled H] Hpos Hd].
  - eauto using delivered_start.
  - eauto using delivered_receive.
  - eauto using delivered_done.
  - destruct (delivered_drain _ _ _ _ _ _ _ _ H Hpos Hd) as (now & Hn & _). eauto.
Qed.
End Delivery.

(** ** Lemmas: the text of an event *)

(** An event as a broker writes it: its id and its data on one line each. *)
Definition event_text (e : jsstr * props) : jsstr :=
  js "id: " ++ fst e ++ [10] ++ js "data: " ++ stringify (VObj (snd e)).
Definition stream_text (es : list (jsstr * props)) : jsstr :=
  flat_map (λ e, event_text e ++ [10; 10]) es.
(** The message the tab receives for it. *)
Definition event_message (e : jsstr * props) : sse_msg :=
  SseMsg (VObj (set_prop (js "event_id") (VStr (fst e)) (snd e))) (VStr (fst e)).
(** An id of one line without outer blanks, data that reads back. *)
Definition event_ok (e : jsstr * props) : Prop :=
  fst e ≠ [] ∧ no_break (fst e) ∧ trim (fst e) = fst e ∧ json_ok (VObj (snd e))
  ∧ own (snd e) (js "event_id") = None.

Lemma no_break_not_elem s : no_break s → 10 ∉ s.
Proof. intros H Hin. unfold no_break in H. rewrite Forall_forall in H. by apply H in Hin as []. Qed.

Lemma split_blank_line l r : 10 ∉ l → split_blank (l ++ 10 :: 10 :: r) = l :: split_blank r.
Proof.
  induction l as [|c l IH]; intros H; [done|]. apply not_elem_of_cons in H as [Hc H].
  change ((c :: l) ++ 10 :: 10 :: r) with (c :: (l ++ 10 :: 10 :: r)).
  rewrite split_blank_cons, IH by done.
  destruct (l ++ 10 :: 10 :: r) eqn:E; [by destruct l|].
  by rewrite (proj2 (Z.eqb_neq c 10)).
Qed.

Lemma split_blank_step l c r :
  10 ∉ l → c ≠ 10 →
  split_blank (l ++ 10 :: c :: r)
  = match split_blank (c :: r) with [] => [] | w :: k => (l ++ 10 :: w) :: k end.
Proof.
  intros H Hc. induction l as [|d l IH].
  - change ([] ++ 10 :: c :: r) with (10 :: c :: r). rewrite split_blank_cons.
    rewrite (proj2 (Z.eqb_neq c 10)), andb_false_r by done.
    destruct (split_blank (c :: r)) eqn:E; [by apply split_blank_ne in E|done].
  - apply not_elem_of_cons in H as [Hd H].
    change ((d :: l) ++ 10 :: c :: r) with (d :: (l ++ 10 :: c :: r)).
    rewrite split_blank_cons, IH by done.
    destruct (l ++ 10 :: c :: r) eqn:E; [by destruct l|].
    rewrite (proj2 (Z.eqb_neq d 10)) by done. cbn [andb].
    destruct (split_blank (c :: r)) eqn:E'; [by apply split_blank_ne in E'|done].
Qed.

Lemma split_event e r :
  no_break (fst e) → no_break (stringify (VObj (snd e))) →
  split_blank (event_text e ++ 10 :: 10 :: r) = event_text e :: split_blank r.
Proof.
  intros Hid Hs. unfold event_text.
  assert (10 ∉ js "id: " ++ fst e) as H1.
  { rewrite not_elem_of_app. split; [by apply (bool_decide_unpack _); vm_compute|by apply no_break_not_elem]. }
  assert (10 ∉ js "data: " ++ stringify (VObj (snd e))) as H2.
  { rewrite not_elem_of_app. split; [by apply (bool_decide_unpack _); vm_compute|by apply no_break_not_elem]. }
  rewrite !(assoc_L (++)). rewrite <-!(assoc_L (++) (js "id: " ++ fst e)).
  change (js "data: ") with (100 :: js "ata: "). cbn [app].
  rewrite split_blank_step by done.
  change (100 :: (js "ata: " ++ ?w) ++ ?t) with ((js "data: " ++ w) ++ t).
  by rewrite split_blank_line.
Qed.

Lemma strip_cr_id w : 13 ∉ w → strip_cr w = w.
Proof.
  intros H. unfold strip_cr. destruct (ends_with [13] w) eqn:E; [|done].
  unfold ends_with in E. apply starts_with_spec in E as [k Hk].
  destruct H. apply elem_of_reverse. rewrite Hk. by left.
Qed.

Lemma event_message_back e : event_ok e → _sseMessageFromChunk (event_text e) = Message (event_message e).
Proof.
  intros (Hne & Hid & Ht & Hok & Ho). pose proof (stringify_no_break _ Hok) as Hs.
  unfold _sseMessageFromChunk, split_lines, event_text.
  rewrite (assoc_L (++) (js "id: ")). cbn [app].
  assert (no_break (js "id: " ++ fst e)) as H1
    by (apply no_break_app; split; [repeat constructor; done|done]).
  rewrite split_on_app_sep by by apply no_break_not_elem.
  rewrite split_on_no_sep by (apply no_break_not_elem, no_break_app; split; [repeat constructor; done|done]).
  cbn [strip_crs]. rewrite strip_cr_id
    by (intros Hin; unfold no_break in H1; rewrite Forall_forall in H1; by apply H1 in Hin as []).
  cbn [fold_left]. unfold sse_line at 2. rewrite starts_with_app.
  change (starts_with (js "id: ") (js "data: " ++ stringify (VObj (snd e)))) with false.
  unfold sse_line. change (starts_with (js "id: ") (js "data: " ++ ?t)) with false. cbn match.
  rewrite starts_with_app. unfold slice_from.
  change (drop 4 (js "id: " ++ fst e)) with (fst e).
  change (drop 6 (js "data: " ++ ?t)) with t. cbn [app join]. rewrite json_round_trip by done.
  unfold attach_id, event_message. rewrite Ht, (proj2 (nonempty_spec _) Hne). cbn [is_objectlike].
  unfold get, table_get. rewrite Ho. done.
Qed.

Lemma stream_messages_text es :
  Forall event_ok es → stream_messages (stream_text es) = map event_message es ∧ stream_rest (stream_text es) = [].
Proof.
  unfold stream_messages, stream_rest.
  induction 1 as [|e es He _ [IHm IHr]]; [done|]. cbn [stream_text flat_map map].
  rewrite <-(assoc_L (++)). fold (stream_text es).
  change ([10; 10] ++ stream_text es) with (10 :: 10 :: stream_text es).
  pose proof (event_message_back e He) as Hmsg. destruct He as (? & Hid & ? & Hok & ?).
  rewrite split_event by eauto using stringify_no_break.
  destruct (split_blank (stream_text es)) as [|w l] eqn:E; [by apply split_blank_ne in E|].
  rewrite last_cons_cons. split; [|done].
  change (removelast (event_text e :: w :: l)) with (event_text e :: removelast (w :: l)).
  cbn [flat_map]. rewrite IHm. unfold chunk_message at 1. by rewrite Hmsg.
Qed.

(** What [delivered] says of a stream. *)
Lemma delivery_state {T} (handle : sse_msg → T → T) t0 text mb t :
  delivery handle t0 text mb t →
  ∃ handled,
    stream_messages text = handled ++ pending mb ∧ t = handle_all handle t0 handled
    ∧ mb_tasks mb = (if bool_decide (pending mb = []) then 0 else 1)%nat
    ∧ mb_sawTerminalEvent mb = existsb is_terminal handled
    ∧ drained mb = mb_readDone mb && bool_decide (pending mb = []).
Proof.
  intros [handled []]%delivery_delivered. exists handled. repeat split; try done.
  - rewrite dv_tasks0, dv_scheduled0. by destruct (pending mb).
  - unfold drained. rewrite queue_length_pending, dv_scheduled0.
    destruct (mb_readDone mb), (pending mb); done.
Qed.

(** ** Properties *)

(** C14: Output reaches the tab whole, once and in order. However the text of a
    stream is cut into chunks, whenever the reads and the queue's callbacks
    run and however many messages each callback has time for, the tab is what
    handling the first messages of the text one by one makes of it, and the
    other messages wait in the queue, in order; a callback is scheduled exactly
    when something waits, and never two; the stream counts as ended with a
    result exactly when a handled message was one. *)
Theorem delivery_in_order {T} (handle : sse_msg → T → T) t0 text mb t :
  delivery handle t0 text mb t →
  ∃ handled,
    stream_messages text = handled ++ pending mb
    ∧ t = fold_left (λ t m, handle m t) handled t0
    ∧ mb_tasks mb = (if bool_decide (pending mb = []) then 0 else 1)%nat
    ∧ mb_sawTerminalEvent mb = existsb is_terminal handled
    ∧ drained mb = mb_readDone mb && bool_decide (pending mb = []).
Proof. apply delivery_state. Qed.

(** C15: The queue always empties. Once reading pauses or ends, as many callbacks
    as there are waiting messages, each as slow as it may be, are enough for
    the tab to have handled every message of the text and for nothing to be
    scheduled; after the last read, the stream then counts as drained. *)
Theorem queue_empties {T} (handle : sse_msg → T → T) t0 text mb t lates mb' t' :
  delivery handle t0 text mb t → (length (pending mb) ≤ length lates)%nat →
  run_drains handle lates mb t = (mb', t') →
  t' = fold_left (λ t m, handle m t) (stream_messages text) t0
  ∧ pending mb' = [] ∧ mb_tasks mb' = 0%nat ∧ drained mb' = mb_readDone mb.
Proof.
  revert mb t. induction lates as [|late lates IH]; intros mb t Hd Hn Hr;
    destruct (delivery_state handle t0 text mb t Hd) as (handled & Hm & Ht & Hk & _ & Hdr).
  - cbn in Hr. simplify_eq. destruct (pending mb'); [|simpl in Hn; lia].
    rewrite Hm, Hdr, app_nil_r, andb_true_r. done.
  - cbn [run_drains] in Hr. destruct (decide (pending mb = [])) as [Hp|Hp].
    { rewrite bool_decide_true in Hk, Hdr by done. rewrite Hk in Hr. cbn in Hr. injection Hr as <- <-.
      by rewrite Hm, Hp, Hk, Hdr, app_nil_r, andb_true_r. }
    rewrite bool_decide_false in Hk by done. rewrite Hk in Hr. cbn in Hr.
    destruct (_drainRunStreamMessageQueue handle late mb t) as [mb1 t1] eqn:E.
    destruct (delivery_delivered handle _ _ _ _ Hd) as [h Hdv].
    destruct (delivered_drain handle _ _ _ _ _ _ _ _ Hdv ltac:(lia) E) as (now & _ & Hq & Hread & Hne).
    rewrite <-Hread. apply (IH mb1 t1); [|  |done].
    + eapply delivery_drain; [exact Hd|lia|exact E].
    + rewrite Hq, length_app in Hn. specialize (Hne Hp). destruct now; simpl in *; [done|lia].
Qed.

(** Server-sent events survive the wire. The text of a list of events, each
    with an id line and its data as JSON, gives back exactly their messages, in
    order, with the id of each event, and leaves nothing in the buffer; so a
    tab that has drained a stream cut into any chunks has handled exactly the
    events the broker wrote. *)
Theorem events_round_trip {T} (handle : sse_msg → T → T) t0 es mb t :
  Forall event_ok es →
  delivery handle t0 (stream_text es) mb t → pending mb = [] →
  t = fold_left (λ t m, handle m t) (map event_message es) t0 ∧ mb_buffer mb = [].
Proof.
  intros Hes Hd Hp. destruct (stream_messages_text es Hes) as [Hm Hr].
  destruct (delivery_delivered handle t0 _ mb t Hd) as [handled []].
  rewrite Hm, Hp, app_nil_r in dv_messages0. subst. by rewrite dv_buffer0.
Qed.

(** ** A run: two events in two chunks, one callback *)

Definition sample_events : list (jsstr * props) :=
  [(js "1-0", [(js "type", vstr "output"); (js "text", vstr "hi")]);
   (js "2-0", [(js "type", vstr "exit"); (js "code", VNull)])].
Definition log_message (m : sse_msg) (l : list sse_msg) : list sse_msg := l ++ [m].
Definition sample_fed : mailbox :=
  let text := stream_text sample_events in
  receive (drop 30 text) (receive (take 30 text) new_mailbox).
Definition sample_drained : mailbox * list sse_msg :=
  _drainRunStreamMessageQueue log_message (λ _, false) sample_fed [].

Lemma sample_delivery : delivery log_message [] (stream_text sample_events) sample_fed [].
Proof.
  rewrite <-(take_drop 30 (stream_text sample_events)). unfold sample_fed.
  apply delivery_chunk; [|done]. apply (delivery_chunk _ _ [] (take 30 _)); [constructor|done].
Qed.

Lemma sample_delivery_drained :
  delivery log_message [] (stream_text sample_events) (fst sample_drained) (snd sample_drained).
Proof.
  apply (delivery_drain _ _ _ (λ _, false) sample_fed []); [apply sample_delivery|vm_compute; lia|].
  apply surjective_pairing.
Qed.

Lemma delivery_in_order_witness :
  ∃ handled, stream_messages (stream_text sample_events) = handled ++ pending (fst sample_drained)
             ∧ mb_tasks (fst sample_drained) = 0%nat.
Proof.
  destruct (delivery_in_order log_message [] (stream_text sample_events) (fst sample_drained)
              (snd sample_drained) sample_delivery_drained) as (h & Hm & _ & Hk & _).
  exists h. split; [exact Hm|]. rewrite Hk. vm_compute. reflexivity.
Defined.

Lemma queue_empties_witness :
  ∃ mb t, run_drains log_message [λ _, true; λ _, true] sample_fed [] = (mb, t) ∧ length t = 2%nat
          ∧ pending mb = [].
Proof.
  destruct (run_drains log_message [λ _, true; λ _, true] sample_fed []) as [mb t] eqn:E.
  exists mb, t.
  destruct (queue_empties log_message [] (stream_text sample_events) sample_fed [] [λ _, true; λ _, true] mb t
              sample_delivery ltac:(apply (bool_decide_unpack _); vm_compute; exact I) E) as (Ht & Hp & _).
  split; [reflexivity|]. split; [rewrite Ht; vm_compute; reflexivity|exact Hp].
Defined.

Lemma sample_events_ok : Forall event_ok sample_events.
Proof.
  repeat (apply Forall_cons; split); [| |constructor];
    (split; [discriminate|]; split; [apply (bool_decide_unpack _); vm_compute; exact I|];
     split; [vm_compute; reflexivity|]; split; [|vm_compute; reflexivity];
     constructor; [apply (bool_decide_unpack _); vm_compute; exact I..|repeat constructor]).
Qed.

Lemma events_round_trip_witness :
  snd sample_drained = map event_message sample_events ∧ mb_buffer (fst sample_drained) = [].
Proof.
  destruct (events_round_trip log_message [] sample_events (fst sample_drained) (snd sample_drained)
              sample_events_ok sample_delivery_drained ltac:(vm_compute; reflexivity)) as [Ht Hb].
  split; [rewrite Ht; reflexivity|exact Hb].
Defined.
