(* ===== verification/StreamRegistry.v ===== *)
(** The streams of one tab (app/static/js/runner.js): which one is registered
    in [_runStreamStateByTabId], and how subscribing, detaching, pausing for
    the status monitor, resuming and ending move it. *)

From S2P Require Import Prelude JsString JsValue JsUri RunStream.

(** ** The interface of the tab *)

Inductive stream_error := NetworkError | CannotStream (message : jsstr) | InvalidStream.

(** What the streams ask of the tab they write to. *)
Class StreamTab (T : Type) := {
  tab_handle : sse_msg → T → T;         (* _handleRunStreamMessage *)
  tab_lastEventId : T → jsstr;          (* lastEventId, empty when there is none *)
  tab_running : jsstr → T → bool;       (* _sameTabRunStillActive *)
  tab_recovered : T → T;                (* _recoverStalledRun, _resetStalledTimeout *)
  tab_watch : T → T;                    (* _resetStalledTimeout *)
  tab_unwatch : T → T;                  (* _clearStalledTimeout *)
  tab_ended : T → T;                    (* _handleStreamEndedWithoutExit *)
  tab_error : stream_error → T → T      (* the error line and the failed status *)
}.

(** ** Definitions *)

(** Which promise of the stream is pending: the request, a read, or none. *)
Inductive phase := Requested | Reading | Settled.

Record stream := Stream
  { sr_runId : jsstr; sr_streamUrl : jsstr; sr_after : jsstr; sr_reader : bool; sr_starting : bool;
    sr_pausedForApi : bool; sr_resumeAfterPause : bool; sr_detached : bool;
    sr_phase : phase; sr_box : mailbox }.

Definition set_conn (reader starting : bool) (s : stream) : stream :=
  Stream (sr_runId s) (sr_streamUrl s) (sr_after s) reader starting (sr_pausedForApi s)
         (sr_resumeAfterPause s) (sr_detached s) (sr_phase s) (sr_box s).
Definition set_modes (paused resume detached : bool) (s : stream) : stream :=
  Stream (sr_runId s) (sr_streamUrl s) (sr_after s) (sr_reader s) (sr_starting s) paused
         resume detached (sr_phase s) (sr_box s).
Definition set_phase (p : phase) (s : stream) : stream :=
  Stream (sr_runId s) (sr_streamUrl s) (sr_after s) (sr_reader s) (sr_starting s) (sr_pausedForApi s)
         (sr_resumeAfterPause s) (sr_detached s) p (sr_box s).
Definition set_box (mb : mailbox) (s : stream) : stream :=
  Stream (sr_runId s) (sr_streamUrl s) (sr_after s) (sr_reader s) (sr_starting s) (sr_pausedForApi s)
         (sr_resumeAfterPause s) (sr_detached s) (sr_phase s) mb.

Section Registry.
Context {T : Type} `{StreamTab T} (tabId : jsstr).

(** Every stream ever made, in order; the registered one; the tab; the
    addresses requested ([None]: building the address throws). *)
Record world := World
  { w_streams : list stream; w_current : option nat; w_tab : T; w_requests : list (option jsstr) }.

Definition on_stream (i : nat) (f : stream → stream) (w : world) : world :=
  World (alter f i (w_streams w)) (w_current w) (w_tab w) (w_requests w).
Definition register (c : option nat) (w : world) : world :=
  World (w_streams w) c (w_tab w) (w_requests w).
Definition on_tab (f : T → T) (w : world) : world :=
  World (w_streams w) (w_current w) (f (w_tab w)) (w_requests w).
Definition current (w : world) : option stream := w_current w ≫= (w_streams w !!.).

Definition is_live (s : stream) : bool :=
  (sr_reader s || sr_starting s) && negb (sr_pausedForApi s) && negb (sr_detached s).

Definition _subscribeRunStream (runId streamUrl after : jsstr) (w : world) : world :=
  if negb (nonempty runId) || negb (nonempty tabId) then w
  else if match current w with Some s => is_live s | None => false end then w
  else
    let url := _brokerStreamUrl runId tabId streamUrl after in
    let phase := match url with Some _ => Requested | None => Settled end in
    World (w_streams w ++ [Stream runId streamUrl after false true false false false phase new_mailbox])
          (Some (length (w_streams w))) (w_tab w) (w_requests w ++ [url]).

Definition _streamResumeAfterId (w : world) (s : stream) : jsstr :=
  str_or (tab_lastEventId (w_tab w)) (sr_after s).

(** Leave a paused stream and ask for the rest of its run. *)
Definition resubscribe (s : stream) (w : world) : world :=
  let after := _streamResumeAfterId w s in
  let w := register None w in
  if tab_running (sr_runId s) (w_tab w)
  then _subscribeRunStream (sr_runId s) (sr_streamUrl s) after w else w.

Definition _finishPausedRunStream (i : nat) (w : world) : bool * world :=
  if bool_decide (w_current w ≠ Some i) then (true, w) else
  let w := on_stream i (set_conn false false) w in
  match w_streams w !! i with
  | None => (true, w)
  | Some s =>
      if sr_detached s then (true, register None w)
      else if negb (sr_pausedForApi s) then (false, w)
      else if sr_resumeAfterPause s then (true, resubscribe s w)
      else (true, w)
  end.

Definition _finishRunStreamIfQueueDrained (i : nat) (w : world) : world :=
  match w_streams w !! i with
  | None => w
  | Some s =>
      if negb (drained (sr_box s)) then w else
      let '(paused, w) := _finishPausedRunStream i w in
      if paused then w else
      let w := register None w in
      if mb_sawTerminalEvent (sr_box s) then w else on_tab tab_ended w
  end.

Definition detachRunStreamForTab (w : world) : world :=
  match w_current w with
  | None => w
  | Some i =>
      on_tab tab_unwatch
        (register None
          (on_stream i (λ s, set_conn false (sr_starting s) (set_modes false false true s)) w))
  end.

(** [active]: the tab is the one in front, which is left alone. *)
Definition pauseBackgroundRunStreamsForStatusMonitor (active : bool) (w : world) : world :=
  match w_current w, current w with
  | Some i, Some s =>
      if active || sr_pausedForApi s || sr_detached s then w
      else if negb (tab_running (sr_runId s) (w_tab w)) then detachRunStreamForTab w
      else on_tab tab_unwatch
             (on_stream i (λ s, set_conn false false (set_modes true false (sr_detached s) s)) w)
  | _, _ => w
  end.

Definition resumeBackgroundRunStreamsAfterStatusMonitor (w : world) : world :=
  match w_current w, current w with
  | Some i, Some s =>
      if negb (sr_pausedForApi s) || sr_detached s then w
      else if sr_reader s then on_stream i (λ s, set_modes (sr_pausedForApi s) true (sr_detached s) s) w
      else resubscribe s w
  | _, _ => w
  end.

(** *** The answers of the network, for stream [i] *)

Inductive answer := NoBody | Streaming | Refused (message : jsstr) | Rejected.

Definition _streamRunResponse (i : nat) (s : stream) (w : world) : world :=
  let w := register (Some i) (on_stream i (set_conn true false) w) in
  if sr_pausedForApi s && negb (sr_resumeAfterPause s)
  then on_stream i (set_conn false false) w
  else on_tab tab_watch (on_stream i (set_phase Reading) w).

Definition stream_answer (i : nat) (a : answer) (w : world) : world :=
  match w_streams w !! i with
  | None => w
  | Some s =>
      let w := on_stream i (set_phase Settled) w in
      if sr_detached s then w else
      match a with
      | NoBody => on_tab (tab_error InvalidStream) w
      | Streaming => _streamRunResponse i s w
      | Refused message => on_tab (tab_error (CannotStream message)) (register None w)
      | Rejected => on_tab (tab_error NetworkError) (register None w)
      end
  end.

Definition read_chunk (i : nat) (chunk : jsstr) (w : world) : world :=
  on_stream i (λ s, set_box (receive chunk (sr_box s)) s) (on_tab tab_recovered w).
Definition read_done (i : nat) (w : world) : world :=
  _finishRunStreamIfQueueDrained i
    (on_stream i (λ s, set_phase Settled (set_conn false (sr_starting s) (set_box (set_readDone (sr_box s)) s))) w).
Definition read_error (i : nat) (w : world) : world :=
  let '(paused, w) := _finishPausedRunStream i (on_stream i (set_phase Settled) w) in
  if paused then w else on_tab (tab_error NetworkError) (register None w).
Definition run_drain (i : nat) (late : nat → bool) (w : world) : world :=
  match w_streams w !! i with
  | None => w
  | Some s =>
      let '(mb, t) := _drainRunStreamMessageQueue tab_handle late (sr_box s) (w_tab w) in
      let w := on_stream i (set_box mb) (on_tab (λ _, t) w) in
      if bool_decide (0 < _runStreamQueueLength mb)%nat then w
      else _finishRunStreamIfQueueDrained i w
  end.

(** What can happen next. *)
Inductive event :=
  | Subscribe (runId streamUrl after : jsstr)
  | Detach | Pause (active : bool) | Resume
  | Answer (i : nat) (a : answer)
  | Chunk (i : nat) (chunk : jsstr) | Done (i : nat) | ReadError (i : nat)
  | Drain (i : nat) (late : nat → bool).

Definition in_phase (p : phase) (i : nat) (w : world) : Prop := sr_phase <$> w_streams w !! i = Some p.
Definition enabled (e : event) (w : world) : Prop :=
  match e with
  | Answer i _ => in_phase Requested i w
  | Chunk i _ | Done i | ReadError i => in_phase Reading i w
  | Drain i _ => ∃ s, w_streams w !! i = Some s ∧ (0 < mb_tasks (sr_box s))%nat
  | _ => True
  end.
Definition happen (e : event) (w : world) : world :=
  match e with
  | Subscribe runId streamUrl after => _subscribeRunStream runId streamUrl after w
  | Detach => detachRunStreamForTab w
  | Pause active => pauseBackgroundRunStreamsForStatusMonitor active w
  | Resume => resumeBackgroundRunStreamsAfterStatusMonitor w
  | Answer i a => stream_answer i a w
  | Chunk i chunk => read_chunk i chunk w
  | Done i => read_done i w
  | ReadError i => read_error i w
  | Drain i late => run_drain i late w
  end.

(** The worlds reached by events that [allowed] lets happen. *)
Inductive world_reachable (allowed : event → Prop) (t0 : T) : world → Prop :=
  | world_start : world_reachable allowed t0 (World [] None t0 [])
  | world_step e w :
      world_reachable allowed t0 w → enabled e w → allowed e → world_reachable allowed t0 (happen e w).
End Registry.
#[global] Arguments world : clear implicits.

(** ** Lemmas: what every stream satisfies *)

(** The queue of a stream, whatever the tab: some text was received, the first
    messages of it were handled, the others wait. *)
Definition box_ok (mb : mailbox) : Prop :=
  ∃ text handled, delivered log_message [] text mb handled handled.

Lemma handle_all_log k l : handle_all log_message k l = k ++ l.
Proof.
  unfold handle_all. revert k. induction l as [|m l IH]; intros k; cbn; [by rewrite app_nil_r|].
  rewrite IH. unfold log_message. by rewrite <-(assoc_L (++)).
Qed.

Lemma box_ok_new : box_ok new_mailbox.
Proof. exists [], []. apply delivered_start. Qed.

Lemma box_ok_receive chunk mb : box_ok mb → box_ok (receive chunk mb).
Proof. intros (text & h & H). eexists _, _. by apply delivered_receive. Qed.

Lemma box_ok_done mb : box_ok mb → box_ok (set_readDone mb).
Proof. intros (text & h & H). eexists _, _. by apply delivered_done. Qed.

Lemma receive_readDone chunk mb : mb_readDone (receive chunk mb) = mb_readDone mb.
Proof.
  unfold receive. destruct (take_chunk _ _) as [[|m l] buffer]; [done|].
  unfold _enqueueRunStreamMessages, _scheduleRunStreamMessageDrain. by case_match.
Qed.

(** How much a callback handles does not depend on the tab. *)
Lemma drain_loop_tab {T U} (f : sse_msg → T → T) (g : sse_msg → U → U) late p q saw t u :
  fst (drain_loop f late p q saw t) = fst (drain_loop g late p q saw u).
Proof. revert p saw t u. induction q as [|m q IH]; intros p saw t u; cbn; [done|]. by case_match. Qed.

Lemma drain_tab {T U} (f : sse_msg → T → T) (g : sse_msg → U → U) late mb t u :
  fst (_drainRunStreamMessageQueue f late mb t) = fst (_drainRunStreamMessageQueue g late mb u).
Proof.
  unfold _drainRunStreamMessageQueue.
  pose proof (drain_loop_tab f g late 0 (drop (mb_index mb) (mb_queue mb)) (mb_sawTerminalEvent mb) t u) as H.
  destruct (drain_loop f _ _ _ _ _) as [[p saw] t'], (drain_loop g _ _ _ _ _) as [[p' saw'] u'].
  by simplify_eq/=.
Qed.

Lemma box_ok_drain {T} (handle : sse_msg → T → T) late mb t mb' t' :
  box_ok mb → (0 < mb_tasks mb)%nat → _drainRunStreamMessageQueue handle late mb t = (mb', t') →
  box_ok mb' ∧ mb_readDone mb' = mb_readDone mb.
Proof.
  intros (text & h & H) Hpos E.
  destruct (_drainRunStreamMessageQueue log_message late mb h) as [mb1 l1] eqn:E1.
  assert (mb' = mb1) as ->.
  { pose proof (drain_tab handle log_message late mb t h) as Heq. by rewrite E, E1 in Heq. }
  destruct (delivered_drain log_message [] text late mb h mb1 l1 h H Hpos E1) as (now & Hd & _ & Hr & _).
  split; [|done]. exists text, (h ++ now). destruct Hd. constructor; try done. by rewrite handle_all_log.
Qed.

(** The fields of one stream after a change, from those before. *)
Ltac stream_case :=
  let s := fresh "s" in let Hs := fresh "Hs" in let Hok := fresh "Hok" in
  intros s Hs Hok; simplify_eq; destruct Hok; constructor;
  cbn [sr_reader sr_starting sr_pausedForApi sr_resumeAfterPause sr_detached sr_phase sr_box
       set_conn set_modes set_phase set_box compose] in *; try done; intros;
  repeat match goal with
  | H : ?P → _, H' : ?P |- _ => specialize (H H')
  | H : ?x = ?x → _ |- _ => specialize (H eq_refl)
  | H : _ ∧ _ |- _ => destruct H
  | H : bool_decide _ = true |- _ => apply bool_decide_eq_true in H
  end; try split; try congruence.

Section Sound.
Context {T : Type} `{StreamTab T} (tabId : jsstr).
Implicit Types (w : world T) (s : stream).

(** What holds of a stream; [reg]: it is the registered one, [fin]: its end
    was looked at since its queue last changed. *)
Record stream_ok (reg fin : bool) (s : stream) : Prop := {
  ok_box : box_ok (sr_box s);
  ok_requested : sr_phase s = Requested → sr_reader s = false ∧ mb_readDone (sr_box s) = false;
  ok_reading : sr_phase s = Reading → sr_starting s = false ∧ mb_readDone (sr_box s) = false;
  ok_paused : sr_pausedForApi s = true → sr_reader s = false ∧ sr_starting s = false;
  ok_resume : sr_resumeAfterPause s = false;
  ok_attached : reg = true → sr_detached s = false;
  ok_settled : reg = true → sr_phase s = Settled → sr_reader s = false ∧ sr_starting s = false;
  ok_drained : reg = true → fin = true → drained (sr_box s) = true → sr_pausedForApi s = true }.

Definition registered (w : world T) (i : nat) : bool := bool_decide (w_current w = Some i).
(** [k]: the stream whose end was not looked at yet. *)
Record world_ok (k : option nat) (w : world T) : Prop := {
  ok_streams : ∀ i s, w_streams w !! i = Some s → stream_ok (registered w i) (bool_decide (k ≠ Some i)) s;
  ok_current : ∀ i, w_current w = Some i → is_Some (w_streams w !! i) }.

Lemma stream_ok_mono b fin fin' s : stream_ok b fin s → stream_ok false fin' s.
Proof. intros []. by constructor. Qed.

(** An event that touches stream [i] and keeps the registration of the others. *)
Lemma world_ok_at k k' i f c w t :
  world_ok k w → k = None ∨ k = Some i → k' = None ∨ k' = Some i →
  c = w_current w ∨ c = None ∨ c = Some i ∧ is_Some (w_streams w !! i) →
  (∀ s, w_streams w !! i = Some s → stream_ok (registered w i) (bool_decide (k ≠ Some i)) s →
        stream_ok (bool_decide (c = Some i)) (bool_decide (k' ≠ Some i)) (f s)) →
  world_ok k' (World (alter f i (w_streams w)) c t (w_requests w)).
Proof.
  intros [Hs Hc] Hk Hk' Hcase Hf. constructor; cbn.
  - intros j s Hj. destruct (decide (i = j)) as [<-|Hij].
    + rewrite list_lookup_alter_eq, fmap_Some in Hj. destruct Hj as (s' & Hs' & ->). unfold registered. eauto.
    + rewrite list_lookup_alter_ne in Hj by done. specialize (Hs j s Hj). unfold registered in *. cbn.
      rewrite (bool_decide_true (k ≠ Some j)) in Hs by (destruct Hk as [->| ->]; congruence).
      rewrite (bool_decide_true (k' ≠ Some j)) by (destruct Hk' as [->| ->]; congruence).
      destruct Hcase as [->|[->|[-> _]]]; [done|by eapply stream_ok_mono|].
      rewrite bool_decide_false by congruence. by eapply stream_ok_mono.
  - intros j Hj.
    assert (is_Some (w_streams w !! j)) as Hsome.
    { destruct Hcase as [->|[->|[-> Hi]]]; [by apply Hc|done|by injection Hj as <-]. }
    destruct (decide (i = j)) as [<-|Hij].
    + rewrite list_lookup_alter_eq. by apply fmap_is_Some.
    + by rewrite list_lookup_alter_ne.
Qed.

Lemma world_ok_unregister k w : world_ok k w → world_ok None (register None w).
Proof. intros [Hs _]. constructor; [|done]. intros i s Hi. cbn in Hi. eapply stream_ok_mono. eauto. Qed.

Lemma world_ok_tab k f w : world_ok k w → world_ok k (on_tab f w).
Proof. intros []. by constructor. Qed.

Lemma world_ok_fin k i w :
  world_ok (Some i) w → (∀ s, w_streams w !! i = Some s → registered w i = true → drained (sr_box s) = false) →
  world_ok k w.
Proof.
  intros [Hs Hc] Hd. constructor; [|done]. intros j s Hj. specialize (Hs j s Hj).
  destruct (decide (i = j)) as [<-|Hij].
  - destruct Hs. constructor; try done. intros Hr _. by rewrite (Hd s Hj Hr).
  - rewrite (bool_decide_true (Some i ≠ Some j)) in Hs by congruence. destruct Hs. constructor; try done. eauto.
Qed.

Lemma subscribe_ok runId streamUrl after w :
  world_ok None w → Forall is_Some (w_requests (_subscribeRunStream tabId runId streamUrl after w)) →
  world_ok None (_subscribeRunStream tabId runId streamUrl after w).
Proof.
  intros [Hs Hc]. unfold _subscribeRunStream. destruct (negb _ || _); [done|]. destruct (match _ with Some _ => _ | _ => _ end); [done|].
  cbn [w_requests]. rewrite Forall_app, Forall_singleton. intros [_ [url Hurl]]. rewrite Hurl.
  constructor; cbn.
  - intros j s Hj. destruct (decide (j = length (w_streams w))) as [->|Hne].
    + rewrite lookup_app_r, Nat.sub_diag in Hj by done. injection Hj as <-.
      constructor; try done; [apply box_ok_new|..]; cbn; intros; by try split.
    + apply lookup_lt_Some in Hj as Hlt. rewrite length_app in Hlt. cbn in Hlt.
      rewrite lookup_app_l in Hj by lia. unfold registered. cbn.
      rewrite bool_decide_false by congruence. eapply stream_ok_mono. eauto.
  - intros j [= <-]. rewrite lookup_app_r, Nat.sub_diag by done. by eexists.
Qed.

Lemma resubscribe_ok k s w :
  world_ok k w → Forall is_Some (w_requests (resubscribe tabId s w)) → world_ok None (resubscribe tabId s w).
Proof.
  intros Hw. unfold resubscribe. case_match; [|intros _; by eapply world_ok_unregister].
  apply subscribe_ok. by eapply world_ok_unregister.
Qed.

Lemma finish_ok i w : world_ok (Some i) w → world_ok None (_finishRunStreamIfQueueDrained tabId i w).
Proof.
  intros Hw. unfold _finishRunStreamIfQueueDrained.
  destruct (w_streams w !! i) as [s|] eqn:Hi; [|eapply world_ok_fin; [done|]; intros; simplify_eq].
  destruct (drained (sr_box s)) eqn:Hd; cbn [negb]; [|eapply world_ok_fin; [done|]; intros; by simplify_eq].
  unfold _finishPausedRunStream. case_bool_decide as Hc.
  { eapply world_ok_fin; [done|]. intros s' _ Hr. unfold registered in Hr. by apply bool_decide_eq_true in Hr. }
  cbn [w_streams on_stream]. rewrite list_lookup_alter_eq, Hi. cbn.
  destruct (ok_streams _ _ Hw i s Hi). unfold registered in *. rewrite bool_decide_true in * by done.
  rewrite ok_attached0, ok_resume0 by done.
  destruct (sr_pausedForApi s) eqn:Hp; cbn [negb].
  - apply (world_ok_at (Some i) None i (set_conn false false)); auto.
    stream_case.
  - assert (world_ok None (register None (on_stream i (set_conn false false) w))) as Hn.
    { apply (world_ok_at (Some i) None i (set_conn false false) None w (w_tab w)); auto.
      stream_case. }
    case_match; [done|by apply world_ok_tab].
Qed.

Lemma on_stream_twice i f g (w : world T) : on_stream i f (on_stream i g w) = on_stream i (f ∘ g) w.
Proof. unfold on_stream. cbn. by rewrite list_alter_alter_eq. Qed.

Lemma detach_ok w : world_ok None w → world_ok None (detachRunStreamForTab w).
Proof.
  intros Hw. unfold detachRunStreamForTab. destruct (w_current w) as [i|] eqn:Hc; [|done].
  apply world_ok_tab.
  apply (world_ok_at None None i (λ s, set_conn false (sr_starting s) (set_modes false false true s)) None w (w_tab w)); auto.
  stream_case.
Qed.

Lemma pause_ok active w :
  world_ok None w → world_ok None (pauseBackgroundRunStreamsForStatusMonitor active w).
Proof.
  intros Hw. unfold pauseBackgroundRunStreamsForStatusMonitor.
  destruct (w_current w) as [i|] eqn:Hc; [|done]. destruct (current w) as [s|] eqn:Hs; [|done].
  destruct (active || _ || _); [done|]. destruct (negb _); [by apply detach_ok|].
  apply world_ok_tab.
  apply (world_ok_at None None i (λ s, set_conn false false (set_modes true false (sr_detached s) s)) (w_current w) w (w_tab w)); auto.
  stream_case.
Qed.

Lemma resume_ok w :
  world_ok None w → Forall is_Some (w_requests (resumeBackgroundRunStreamsAfterStatusMonitor tabId w)) →
  world_ok None (resumeBackgroundRunStreamsAfterStatusMonitor tabId w).
Proof.
  intros Hw. unfold resumeBackgroundRunStreamsAfterStatusMonitor.
  destruct (w_current w) as [i|] eqn:Hc; [|done]. destruct (current w) as [s|] eqn:Hs; [|done].
  destruct (negb (sr_pausedForApi s)) eqn:Hp; [done|]. destruct (sr_detached s); [done|]. cbn [orb].
  unfold current in Hs. rewrite Hc in Hs. cbn in Hs.
  destruct (ok_streams _ _ Hw i s Hs). apply negb_false_iff in Hp.
  destruct (ok_paused0 Hp) as [-> _]. by eapply resubscribe_ok.
Qed.

Lemma on_stream_register i f c (w : world T) : on_stream i f (register c w) = register c (on_stream i f w).
Proof. done. Qed.

Lemma answer_ok i a w :
  world_ok None w → in_phase Requested i w → a ≠ NoBody → world_ok None (stream_answer i a w).
Proof.
  intros Hw Hi Ha. apply fmap_Some in Hi as (s & Hs & Hph). unfold stream_answer. rewrite Hs.
  destruct (sr_detached s) eqn:Hd.
  { apply (world_ok_at None None i (set_phase Settled) (w_current w) w (w_tab w)); auto. stream_case. }
  destruct a as [| |m|]; [done| | |].
  - unfold _streamRunResponse. rewrite on_stream_twice, !on_stream_register, !on_stream_twice.
    assert (∀ f, (∀ s', w_streams w !! i = Some s' →
                  stream_ok (registered w i) (bool_decide (None ≠ Some i)) s' → stream_ok true true (f s')) →
                 world_ok None (register (Some i) (on_stream i f w))) as Hat.
    { intros f Hf. apply (world_ok_at None None i f (Some i) w (w_tab w)); eauto.
      rewrite (bool_decide_true (Some i = Some i)), (bool_decide_true (None ≠ Some i)) by done.
      rewrite (bool_decide_true (None ≠ Some i)) in Hf by done. exact Hf. }
    assert (drained (sr_box s) = false) as Hdr.
    { destruct (ok_streams _ _ Hw i s Hs). unfold drained.
      destruct (ok_requested0 (eq_sym Hph)) as [_ ->]. done. }
    destruct (ok_streams _ _ Hw i s Hs). destruct (ok_requested0 (eq_sym Hph)) as [Hr0 Hr1].
    rewrite ok_resume0, andb_true_r. destruct (sr_pausedForApi s) eqn:Hp.
    + apply Hat. stream_case.
    + apply world_ok_tab, Hat. stream_case.
  - apply world_ok_tab.
    apply (world_ok_at None None i (set_phase Settled) None w (w_tab w)); auto. stream_case.
  - apply world_ok_tab.
    apply (world_ok_at None None i (set_phase Settled) None w (w_tab w)); auto. stream_case.
Qed.

Lemma chunk_ok i chunk w :
  world_ok None w → in_phase Reading i w → world_ok None (read_chunk i chunk w).
Proof.
  intros Hw Hi. apply fmap_Some in Hi as (s & Hs & Hph). unfold read_chunk.
  destruct (ok_streams _ _ Hw i s Hs). destruct (ok_reading0 (eq_sym Hph)) as [_ Hr].
  pose proof (box_ok_receive chunk _ ok_box0). pose proof (receive_readDone chunk (sr_box s)).
  assert (drained (receive chunk (sr_box s)) = false).
  { unfold drained. by rewrite receive_readDone, Hr. }
  apply (world_ok_at None None i (λ s, set_box (receive chunk (sr_box s)) s) (w_current w) w (tab_recovered (w_tab w))); auto.
  stream_case.
Qed.

Lemma done_ok i w : world_ok None w → in_phase Reading i w → world_ok None (read_done tabId i w).
Proof.
  intros Hw Hi. apply fmap_Some in Hi as (s & Hs & Hph). unfold read_done. apply finish_ok.
  destruct (ok_streams _ _ Hw i s Hs). destruct (ok_reading0 (eq_sym Hph)) as [? _].
  pose proof (box_ok_done _ ok_box0).
  apply (world_ok_at None (Some i) i
           (λ s, set_phase Settled (set_conn false (sr_starting s) (set_box (set_readDone (sr_box s)) s)))
           (w_current w) w (w_tab w)); auto.
  stream_case.
Qed.

Lemma read_error_ok i w : world_ok None w → in_phase Reading i w → world_ok None (read_error tabId i w).
Proof.
  intros Hw Hi. apply fmap_Some in Hi as (s & Hs & Hph). unfold read_error, _finishPausedRunStream.
  destruct (ok_streams _ _ Hw i s Hs). destruct (ok_reading0 (eq_sym Hph)) as [Hst Hrd].
  assert (∀ f c, c = w_current w ∨ c = None →
            (∀ s', w_streams w !! i = Some s' →
              stream_ok (registered w i) (bool_decide (None ≠ Some i)) s' →
              stream_ok (bool_decide (c = Some i)) (bool_decide (None ≠ Some i)) (f s')) →
            world_ok None (register c (on_stream i f w))) as Hat.
  { intros f c Hc Hf. apply (world_ok_at None None i f c w (w_tab w)); auto. naive_solver. }
  cbn [w_current w_streams on_stream]. destruct (decide (w_current w = Some i)) as [Hc|Hc].
  2: { rewrite (bool_decide_true (w_current w ≠ Some i)) by done.
       apply (Hat (set_phase Settled) (w_current w)); auto. rewrite (bool_decide_false _ Hc). stream_case. }
  - rewrite (bool_decide_false (w_current w ≠ Some i)) by (intros Hn; by apply Hn).
    rewrite list_alter_alter_eq, list_lookup_alter_eq, Hs. cbn.
    unfold registered in *. rewrite (bool_decide_true _ Hc) in *. rewrite ok_attached0, ok_resume0 by done.
    rewrite on_stream_twice. destruct (sr_pausedForApi s) eqn:Hp; cbn [negb].
    + apply (Hat (set_conn false false ∘ set_phase Settled) (w_current w)); auto.
      rewrite (bool_decide_true _ Hc). stream_case.
    + apply world_ok_tab, (Hat (set_conn false false ∘ set_phase Settled) None); auto. stream_case.
Qed.

Lemma drain_ok i late w : world_ok None w → enabled (Drain i late) w → world_ok None (run_drain tabId i late w).
Proof.
  intros Hw (s & Hs & Hpos). unfold run_drain. rewrite Hs.
  destruct (_drainRunStreamMessageQueue tab_handle late (sr_box s) (w_tab w)) as [mb t] eqn:E.
  destruct (ok_streams _ _ Hw i s Hs). destruct (box_ok_drain _ _ _ _ _ _ ok_box0 Hpos E) as [Hb Hrd].
  assert (world_ok (Some i) (on_stream i (set_box mb) (on_tab (λ _, t) w))) as Hat.
  { apply (world_ok_at None (Some i) i (set_box mb) (w_current w) w t); auto. stream_case. }
  destruct (bool_decide (0 < _runStreamQueueLength mb)%nat) eqn:Hq; [|by apply finish_ok].
  apply bool_decide_eq_true in Hq.
  eapply world_ok_fin; [done|]. intros s' Hs' _. cbn in Hs'. rewrite list_lookup_alter_eq, Hs in Hs'.
  simplify_eq/=. unfold drained. rewrite (bool_decide_false (_runStreamQueueLength mb = 0)%nat) by lia. by rewrite andb_false_r.
Qed.

Lemma subscribe_requests r u a w : w_requests w `prefix_of` w_requests (_subscribeRunStream tabId r u a w).
Proof. unfold _subscribeRunStream. repeat (case_match; try done); by eexists. Qed.

Lemma resubscribe_requests s w : w_requests w `prefix_of` w_requests (resubscribe tabId s w).
Proof. unfold resubscribe. case_match; [apply (subscribe_requests _ _ _ (register None w))|done]. Qed.

Lemma finish_paused_requests i w : w_requests w `prefix_of` w_requests (snd (_finishPausedRunStream tabId i w)).
Proof.
  unfold _finishPausedRunStream. repeat (case_match; try done). cbn.
  apply (resubscribe_requests _ (on_stream i (set_conn false false) w)).
Qed.

Lemma finish_requests i w : w_requests w `prefix_of` w_requests (_finishRunStreamIfQueueDrained tabId i w).
Proof.
  unfold _finishRunStreamIfQueueDrained. destruct (w_streams w !! i) as [s|]; [|done].
  case_match; [done|]. pose proof (finish_paused_requests i w) as Hp.
  destruct (_finishPausedRunStream tabId i w) as [[] w']; cbn in Hp; [done|]. by case_match.
Qed.

Lemma requests_grow e w : w_requests w `prefix_of` w_requests (happen tabId e w).
Proof.
  destruct e as [r u a| |active| |i a|i c|i|i|i late]; cbn [happen].
  - apply subscribe_requests.
  - unfold detachRunStreamForTab. by case_match.
  - unfold pauseBackgroundRunStreamsForStatusMonitor, detachRunStreamForTab. by repeat case_match.
  - unfold resumeBackgroundRunStreamsAfterStatusMonitor. repeat (case_match; try done). apply resubscribe_requests.
  - unfold stream_answer, _streamRunResponse. by repeat case_match.
  - done.
  - apply (finish_requests i (on_stream i _ w)).
  - unfold read_error. pose proof (finish_paused_requests i (on_stream i (set_phase Settled) w)) as Hp.
    destruct (_finishPausedRunStream _ _ _) as [[] w']; cbn in *; done.
  - unfold run_drain. repeat (case_match; try done).
    apply (finish_requests i (on_stream i (set_box _) (on_tab _ w))).
Qed.

(** Every event keeps the streams in order. *)
Lemma happen_ok e w :
  world_ok None w → enabled e w → (∀ i, e ≠ Answer i NoBody) → Forall is_Some (w_requests (happen tabId e w)) →
  world_ok None (happen tabId e w).
Proof.
  intros Hw He Ha Hr. destruct e as [r u a| |active| |i a|i c|i|i|i late]; cbn [happen] in *.
  - by apply subscribe_ok.
  - by apply detach_ok.
  - by apply pause_ok.
  - by apply resume_ok.
  - apply answer_ok; [done..|]. intros ->. by apply (Ha i).
  - by apply chunk_ok.
  - by apply done_ok.
  - by apply read_error_ok.
  - by apply drain_ok.
Qed.

Lemma world_reachable_ok t0 w :
  world_reachable tabId (λ e, ∀ i, e ≠ Answer i NoBody) t0 w → Forall is_Some (w_requests w) → world_ok None w.
Proof.
  induction 1 as [|e w _ IH He Ha]; intros Hr; [by constructor|].
  apply happen_ok; try done. apply IH. destruct (requests_grow e w) as [k Hk]. rewrite Hk in Hr.
  by apply Forall_app in Hr as [Hr _].
Qed.
End Sound.

(** ** Properties *)

Section Properties.
Context {T : Type} `{StreamTab T} (tabId : jsstr).

(** A tab is never left on a dead stream. Whatever the order of commands,
    answers, reads, callbacks, pauses and detachments, as long as every answer
    has a body and every address can be built: the registered stream exists
    and was not detached; while it blocks another subscription, its answer or
    its next read is still to come; once everything was read and handled it is
    registered only as long as it is paused; and no stream is ever marked to
    resume by itself. *)
Theorem registered_stream_alive t0 w i s :
  world_reachable tabId (λ e, ∀ i, e ≠ Answer i NoBody) t0 w → Forall is_Some (w_requests w) →
  w_current w = Some i → w_streams w !! i = Some s →
  sr_detached s = false
  ∧ (is_live s = true → sr_phase s ≠ Settled)
  ∧ (drained (sr_box s) = true → sr_pausedForApi s = true)
  ∧ sr_resumeAfterPause s = false
  ∧ (mb_tasks (sr_box s) = 0%nat ↔ pending (sr_box s) = []).
Proof.
  intros Hr Hq Hc Hs. destruct (ok_streams _ _ (world_reachable_ok tabId t0 w Hr Hq) i s Hs) as [(text & h & []) ? ? ? ? ? ? ?].
  unfold registered in *. rewrite (bool_decide_true _ Hc) in *. repeat split; auto.
  - unfold is_live. intros Hl Hp. destruct (ok_settled0 eq_refl Hp) as [Hr1 Hr2].
    by rewrite Hr1, Hr2 in Hl.
  - rewrite dv_tasks, dv_scheduled. by destruct (pending (sr_box s)).
  - rewrite dv_tasks, dv_scheduled. by intros ->.
Qed.

(** An answer without a body blocks the tab. When the answer of the
    registered stream cannot be read, its record stays registered as starting:
    every later subscription of the tab is dropped without a request. *)
Theorem unreadable_answer_blocks w i s runId streamUrl after :
  w_current w = Some i → w_streams w !! i = Some s → sr_starting s = true →
  sr_pausedForApi s = false → sr_detached s = false →
  let w' := happen tabId (Answer i NoBody) w in
  (sr_phase <$> w_streams w' !! i) = Some Settled
  ∧ happen tabId (Subscribe runId streamUrl after) w' = w'.
Proof.
  intros Hc Hs Hst Hp Hd. cbn [happen]. unfold stream_answer. rewrite Hs, Hd. cbn.
  rewrite list_lookup_alter_eq, Hs. split; [done|].
  unfold _subscribeRunStream, current. cbn. rewrite Hc. cbn. rewrite list_lookup_alter_eq, Hs. cbn.
  unfold is_live. cbn. rewrite Hst, Hp, Hd, orb_true_r. by destruct (_ || _).
Qed.
End Properties.

(** *** A tab that keeps what it was given *)

Record log_tab := LogTab { lt_log : list sse_msg; lt_lastEventId : jsstr }.
#[export] Instance log_stream_tab : StreamTab log_tab := {|
  tab_handle m t := LogTab (lt_log t ++ [m]) (str_or (str_of (sm_event_id m)) (lt_lastEventId t));
  tab_lastEventId := lt_lastEventId;
  tab_running _ _ := true;
  tab_recovered t := t; tab_watch t := t; tab_unwatch t := t; tab_ended t := t;
  tab_error _ t := t
|}.

Fixpoint happen_all (tabId : jsstr) (es : list event) (w : world log_tab) : world log_tab :=
  match es with [] => w | e :: es => happen_all tabId es (happen tabId e w) end.

Definition start_world : world log_tab := World [] None (LogTab [] []) [].
Definition output_event (id : string) (text : string) : jsstr * props :=
  (js id, [(js "type", vstr "output"); (js "text", vstr text)]).
Definition three_outputs : list (jsstr * props) :=
  [output_event "1-0" "a"; output_event "2-0" "b"; output_event "3-0" "c"].
Definition hasty_resume : list event :=
  [Subscribe (js "r1") [] []; Answer 0 Streaming; Chunk 0 (stream_text three_outputs);
   Drain 0 (λ _, true); Pause false; Resume; Drain 0 (λ _, false);
   Answer 1 Streaming; Chunk 1 (stream_text (tl three_outputs)); Drain 1 (λ _, false)].

(** A hasty resume repeats output. If the status monitor closes while
    messages of the paused stream still wait in its queue, the new stream asks
    for what follows the last handled message, and the old queue hands its
    messages over as well: the tab is given them twice. *)
Theorem hasty_resume_repeats :
  let w := happen_all (js "t1") hasty_resume start_world in
  world_reachable (js "t1") (λ e, ∀ i, e ≠ Answer i NoBody) (LogTab [] []) w
  ∧ w_requests w = [Some (js "/runs/r1/stream?tab_id=t1"); Some (js "/runs/r1/stream?tab_id=t1&after=1-0")]
  ∧ lt_log (w_tab w) = map event_message three_outputs ++ map event_message (tl three_outputs).
Proof.
  split; [|split; vm_compute; reflexivity].
  unfold happen_all, hasty_resume.
  repeat (apply world_step; [|vm_compute; eauto|by intros]).
  apply world_start.
Qed.

Lemma registered_stream_alive_witness :
  let w := happen_all (js "t1") (take 4 hasty_resume) start_world in
  ∃ s, w_streams w !! 0%nat = Some s ∧ sr_phase s ≠ Settled.
Proof.
  intros w. destruct (w_streams w !! 0%nat) as [s|] eqn:E; [|vm_compute in E; discriminate].
  exists s. split; [reflexivity|].
  destruct (registered_stream_alive (js "t1") (LogTab [] []) w 0 s) as (_ & Hlive & _).
  - unfold w, happen_all. cbn [take hasty_resume].
    repeat (apply world_step; [|vm_compute; eauto|by intros]). apply world_start.
  - vm_compute. repeat constructor; by eexists.
  - vm_compute. reflexivity.
  - exact E.
  - apply Hlive. vm_compute in E. injection E as <-. reflexivity.
Defined.

Lemma unreadable_answer_blocks_witness :
  let w' := happen (js "t1") (Answer 0 NoBody) (happen (js "t1") (Subscribe (js "r1") [] []) start_world) in
  happen (js "t1") (Subscribe (js "r2") [] []) w' = w'.
Proof.
  eapply (unreadable_answer_blocks (js "t1") (happen (js "t1") (Subscribe (js "r1") [] []) start_world) 0);
    vm_compute; reflexivity.
Defined.
