(* ===== verification/RunTab.v ===== *)
(** The tab object a run writes to, and its page: properties set and read as
    the code does, the calls it makes recorded in order (app/static/js/runner.js,
    app/static/js/tabs.js, app/static/js/features/tabs/tab_close_lifecycle.js). *)

From S2P Require Import Prelude JsString JsNumber JsValue CommandLifecycle.

(** ** The calls on the page and the network *)

Inductive effect :=
  | AppendLine (text cls : jsval) (metadata : option props)
  | AppendLines (entries : list jsval)
  | SetStatus (status : jsstr)             (* the status pill *)
  | SetTabStatus (status : jsstr)
  | LastExit (value : jsval)
  | StopTimer | SyncTimer
  | RunButtonDisabled (disabled : bool)
  | ShowKill | HideKill
  | KillRequest (runId : jsval)            (* POST /kill *)
  | CompleteCommand (r : result)           (* the completion coordinator *)
  | FinalizeClosingTab
  | RefreshHistoryPanel
  | MountDeferredPrompt
  | DiscardPendingOutputBatch
  | HighVolumeSummary | ResetHighVolume | DisableResumeControls
  | RecordCoalesced (count : num)
  | RenderOutcomeSummary
  | WatchStream | ClearStalled | ClearRecovery
  | FetchActiveRun (runId : jsval) (includeScheduled : bool)
  | Notify (command : jsval) (code : jsval) (elapsed : option jsstr)
  | NotifyProject (kind : string) (projectId : jsval)
  | UiEvent (name : string) (detail : props)
  | LogUnknown (key : jsstr)
  | SubscribeRun (runId after : jsstr)     (* _subscribeRunStream *)
  | AttachPty (run : jsval)                (* attachInteractivePtyCommand *)
  | RecoveryTimer (delay : num) | StartPolling | StopPolling
  | FetchHistoryRun (runId : jsval)        (* GET /history/<id> *)
  | RestoreHistoryRun (run : jsval)
  | LogKillFailure | ToastKillFailure
  | ClearOutput.
(** Calls on controls the page has once: the status pill (whose change also
    reports the last exit), the run timer and the run button. Recorded with a
    tab, a call names the tab whose handler made it; these reach the page,
    whichever tab is in front. *)
Definition page_control (e : effect) : bool :=
  match e with SetStatus _ | LastExit _ | StopTimer | SyncTimer | RunButtonDisabled _ => true | _ => false end.

(** ** The view: the tab, [None] when it is gone; the unknown values already
    reported for this stream; whether the run counts as stalled; the calls so
    far. *)

Record view := View
  { v_tab : option props; v_unknown : list jsstr; v_stalled : bool; v_effects : list effect }.
Notation act := (view → view).

Definition put (k : string) (v : jsval) : act := λ s,
  View (set_prop (js k) v <$> v_tab s) (v_unknown s) (v_stalled s) (v_effects s).
Definition emit (e : effect) : act := λ s, View (v_tab s) (v_unknown s) (v_stalled s) (v_effects s ++ [e]).
Definition set_stalled (b : bool) : act := λ s, View (v_tab s) (v_unknown s) b (v_effects s).
Definition skip : act := λ s, s.
Definition seq_all (l : list act) : act := λ s, fold_left (λ s f, f s) l s.
Notation "a |> b" := (λ s : view, b (a s)) (at level 61, left associativity) : js_scope.
Definition on (b : bool) (a : act) : act := if b then a else skip.

(** [t && t.key]. *)
Definition field (k : string) (s : view) : jsval :=
  match v_tab s with Some t => get (VObj t) (js k) | None => VUndef end.
Definition flag (k : string) (s : view) : bool := truthy (field k s).
Definition has_tab (s : view) : bool := bool_decide (is_Some (v_tab s)).
Definition is_running (s : view) : bool := is_str (field "st" s) (js "running").

(** What the page says about the tab: its id, whether it is in front, whether
    it is the only one, whether the history panel is open; the client's id. *)
Record page := Page
  { pg_tabId : jsstr; pg_active : bool; pg_single : bool; pg_historyOpen : bool; pg_clientId : jsstr }.

(** ** Operations of the tab object *)

Definition vnull_str : jsval := VStr [].

Definition setTabStatus (st : jsstr) : act :=
  put "st" (VStr st)
  |> on (negb (st ==s js "running")) (put "runningLabel" vnull_str)
  |> emit (SetTabStatus st).

(** [clearTab(id)], with [preserveRunState]. The line numbers and counts of the
    view are cleared in OutputBuffer. *)
Definition clearTab (pg : page) (preserveRunState : bool) : act := λ s,
  let keep := preserveRunState && is_running s in
  (emit ClearOutput
   |> put "suppressOutputScrollTracking" (VBool false) |> put "deferPromptMount" (VBool false)
   |> put "rawLines" (VArr []) |> put "commandOutcomeSummary" VNull
   |> put "followOutput" (VBool true) |> put "closing" (VBool false)
   |> on (negb keep)
        (put "runStart" VNull |> put "currentRunStartIndex" VNull |> put "previewTruncated" (VBool false)
         |> put "fullOutputAvailable" (VBool false) |> put "fullOutputLoaded" (VBool false)
         |> put "historyRunId" VNull |> put "historyRunKind" vnull_str
         |> put "reconnectedRun" (VBool false) |> put "runningLabel" vnull_str
         |> setTabStatus (js "idle") |> on (pg_active pg) (emit (SetStatus (js "idle"))))) s.

(** The tab that stays when the last one is closed. *)
Definition _resetPreservedSingleTabState : act :=
  put "command" vnull_str |> put "runId" VNull |> put "historyRunId" VNull |> put "historyRunKind" vnull_str
  |> put "lastEventId" vnull_str |> put "attachMode" vnull_str |> put "reconnectedRun" (VBool false)
  |> put "runStart" VNull |> put "currentRunStartIndex" VNull |> put "exitCode" VNull
  |> put "previewTruncated" (VBool false) |> put "fullOutputAvailable" (VBool false)
  |> put "fullOutputLoaded" (VBool false) |> put "followOutput" (VBool true)
  |> put "outputUserScrollUntil" (VNum num_zero) |> put "suppressOutputScrollTracking" (VBool false)
  |> put "deferPromptMount" (VBool false) |> put "closing" (VBool false) |> put "killed" (VBool false)
  |> put "pendingKill" (VBool false) |> put "renamed" (VBool false) |> put "workspaceCwd" vnull_str
  |> put "draftInput" vnull_str |> put "commandHistory" (VArr []) |> put "historyNavIndex" (vint (-1))
  |> put "historyNavDraft" vnull_str |> put "_outputLineCounter" (VNum num_zero)
  |> put "runningLabel" vnull_str.

(** What closing a tab for good does to its object: nothing unless it is
    closing; the only tab is reset instead of removed. *)
Definition finalizeClosingTab (pg : page) : act := λ s,
  if negb (flag "closing" s) then s
  else (emit FinalizeClosingTab
        |> on (pg_single pg) (_resetPreservedSingleTabState |> clearTab pg false)) s.

(** ** Lemmas *)

Lemma field_put_eq k v s : has_tab s = true → field k (put k v s) = v.
Proof.
  unfold has_tab, field, put. destruct (v_tab s); cbn; [|done]. intros _. unfold table_get. by rewrite own_set_eq.
Qed.

Lemma field_put_ne k k' v s : js k ≠ js k' → field k' (put k v s) = field k' s.
Proof.
  intros H. unfold field, put. destruct (v_tab s); cbn; [|done]. unfold table_get. by rewrite own_set_ne.
Qed.

Lemma field_emit k e s : field k (emit e s) = field k s.
Proof. done. Qed.
Lemma has_tab_put k v s : has_tab (put k v s) = has_tab s.
Proof. unfold has_tab, put. by destruct (v_tab s). Qed.
Lemma has_tab_emit e s : has_tab (emit e s) = has_tab s.
Proof. done. Qed.
Lemma field_on k b a s : field k (on b a s) = if b then field k (a s) else field k s.
Proof. by destruct b. Qed.
Lemma has_tab_on b a s : has_tab (a s) = has_tab s → has_tab (on b a s) = has_tab s.
Proof. by destruct b. Qed.
Lemma effects_put k v s : v_effects (put k v s) = v_effects s.
Proof. done. Qed.
Lemma effects_emit e s : v_effects (emit e s) = v_effects s ++ [e].
Proof. done. Qed.

(** *** What an action may change

    [changes ks P s s']: from [s] to [s'] only the properties [ks] of the tab
    were set, and every call made satisfies [P]; [tame]: an action does no
    more than that. *)

Definition changes (ks : list string) (P : effect → Prop) (s s' : view) : Prop :=
  has_tab s' = has_tab s
  ∧ (∀ k, js k ∉ map js ks → field k s' = field k s)
  ∧ ∃ es, v_effects s' = v_effects s ++ es ∧ Forall P es.
Definition tame (ks : list string) (P : effect → Prop) (a : act) : Prop := ∀ s, changes ks P s (a s).

Section Tame.
Context (ks : list string) (P : effect → Prop).

Lemma changes_refl s : changes ks P s s.
Proof. repeat split; try done. exists []. by rewrite app_nil_r. Qed.

Lemma changes_trans s1 s2 s3 : changes ks P s1 s2 → changes ks P s2 s3 → changes ks P s1 s3.
Proof.
  intros (Ht & Hf & es & He & Hes) (Ht' & Hf' & es' & He' & Hes').
  split; [congruence|]. split.
  - intros k Hk. by rewrite Hf', Hf.
  - exists (es ++ es'). rewrite He', He, (assoc_L (++)). split; [done|]. by apply Forall_app.
Qed.

Lemma tame_skip : tame ks P skip.
Proof. intros s. apply changes_refl. Qed.

Lemma tame_put k v : k ∈ ks → tame ks P (put k v).
Proof.
  intros Hk s. split; [apply has_tab_put|]. split.
  - intros k' Hk'. apply field_put_ne. intros Heq. apply Hk'. rewrite <-Heq. by apply list_elem_of_fmap_2.
  - exists []. by rewrite app_nil_r.
Qed.

Lemma tame_emit e : P e → tame ks P (emit e).
Proof. intros He s. repeat split; try done. exists [e]. split; [done|]. by constructor. Qed.

Lemma tame_stalled b : tame ks P (set_stalled b).
Proof. intros s. repeat split; try done. exists []. by rewrite app_nil_r. Qed.

Lemma tame_seq a b : tame ks P a → tame ks P b → tame ks P (a |> b).
Proof. intros Ha Hb s. eapply changes_trans; [apply Ha|apply Hb]. Qed.

Lemma tame_on b a : tame ks P a → tame ks P (on b a).
Proof. intros Ha. destruct b; [done|apply tame_skip]. Qed.

Lemma tame_fold {A} (f : view → A → view) l s :
  (∀ x s, x ∈ l → changes ks P s (f s x)) → changes ks P s (fold_left f l s).
Proof.
  revert s. induction l as [|x l IH]; intros s Hf; [apply changes_refl|].
  eapply changes_trans; [apply Hf; by left|]. apply IH. intros y s' Hy. apply Hf. by right.
Qed.
End Tame.

Lemma changes_weaken ks ks' P P' s s' : ks ⊆ ks' → (∀ e, P e → P' e) → changes ks P s s' → changes ks' P' s s'.
Proof.
  intros Hk HP (Ht & Hf & es & He & Hes). split; [done|]. split.
  - intros k Hn. apply Hf. intros Hin. apply Hn. apply list_elem_of_fmap in Hin as (k' & -> & Hin).
    apply list_elem_of_fmap_2. by apply Hk.
  - exists es. split; [done|]. by eapply Forall_impl.
Qed.

(** *** Following the properties through a list of actions *)

Section Follow.
Context (ks : list string) (P : effect → Prop) (s s' : view).

Lemma changes_put k v : k ∈ ks → changes ks P s s' → changes ks P s (put k v s').
Proof. intros Hk H. eapply changes_trans; [done|by apply tame_put]. Qed.
Lemma changes_emit e : P e → changes ks P s s' → changes ks P s (emit e s').
Proof. intros He H. eapply changes_trans; [done|by apply tame_emit]. Qed.
Lemma changes_stalled b : changes ks P s s' → changes ks P s (set_stalled b s').
Proof. intros H. eapply changes_trans; [done|by apply tame_stalled]. Qed.
Lemma changes_on b a : changes ks P s' (a s') → changes ks P s s' → changes ks P s (on b a s').
Proof. destruct b; [|done]. intros. by eapply changes_trans. Qed.

Lemma tab_put k v : has_tab s = true → has_tab (put k v s) = true.
Proof. by rewrite has_tab_put. Qed.
Lemma tab_on b a : has_tab (a s) = true → has_tab s = true → has_tab (on b a s) = true.
Proof. by destruct b. Qed.

Lemma follow_eq k v : has_tab s = true → field k (put k v s) = v.
Proof. apply field_put_eq. Qed.
Lemma follow_ne k k' v v' : js k ≠ js k' → field k' s = v' → field k' (put k v s) = v'.
Proof. intros. by rewrite field_put_ne. Qed.
Lemma follow_emit k e v : field k s = v → field k (emit e s) = v.
Proof. done. Qed.
Lemma follow_stalled k b v : field k s = v → field k (set_stalled b s) = v.
Proof. done. Qed.
Lemma follow_on k b a v : field k (a s) = v → field k s = v → field k (on b a s) = v.
Proof. by destruct b. Qed.
End Follow.

(** The properties set and the calls made are among those named. *)
Ltac tame_steps :=
  cbv beta;
  lazymatch goal with
  | |- changes _ _ ?s ?s => apply changes_refl
  | |- changes _ _ _ (put _ _ _) =>
      apply changes_put; [by apply (bool_decide_unpack _); vm_compute; exact I|tame_steps]
  | |- changes _ _ _ (emit _ _) => apply changes_emit; [first [exact I | reflexivity]|tame_steps]
  | |- changes _ _ _ (set_stalled _ _) => apply changes_stalled; tame_steps
  | |- changes _ _ _ (on _ _ _) => apply changes_on; tame_steps
  | |- changes _ _ _ (skip _) => apply tame_skip
  | _ => idtac
  end.
(** The tab is still there. *)
Ltac tab_steps :=
  cbv beta;
  lazymatch goal with
  | |- has_tab (put _ _ _) = true => apply tab_put; tab_steps
  | |- has_tab (emit _ ?s) = true => change (has_tab s = true); tab_steps
  | |- has_tab (set_stalled _ ?s) = true => change (has_tab s = true); tab_steps
  | |- has_tab (on _ _ _) = true => apply tab_on; tab_steps
  | _ => try assumption
  end.
(** The value a property has after the actions. *)
Ltac field_steps :=
  cbv beta;
  lazymatch goal with
  | |- field ?k (put ?k _ _) = _ => apply follow_eq; tab_steps
  | |- field _ (put _ _ _) = _ => apply follow_ne; [by vm_compute|field_steps]
  | |- field _ (emit _ _) = _ => apply follow_emit; field_steps
  | |- field _ (set_stalled _ _) = _ => apply follow_stalled; field_steps
  | |- field _ (on _ _ _) = _ => apply follow_on; field_steps
  | _ => idtac
  end.

Lemma field_flag k s b : field k s = VBool b → flag k s = b.
Proof. unfold flag. by intros ->. Qed.
