(* ===== verification/RunLifecycle.v ===== *)
(** The life of a run in its tab (app/static/js/runner.js): the messages of its
    stream, its kill requests and its end, over the view of [RunTab]; and the
    tab as the streams of [StreamRegistry] see it. *)

From S2P Require Import Prelude JsString JsNumber JsRegExp JsValue RunOutputModel RunnerCore.
From S2P Require Import AppState CommandLifecycle RunnerPersistence RunTab RunStream StreamRegistry.

(** ** Definitions: lines *)

Definition text_prop (k : string) (v : jsval) : props :=
  match v with VStr s => if nonempty s then [(js k, v)] else [] | _ => [] end.
Definition list_prop (k : string) (v : jsval) : props :=
  match v with VArr (_ :: _) => [(js k, v)] | _ => [] end.

Definition _streamOutputMetadata (msg : jsval) : option props :=
  if negb (is_objectlike msg) then None else
  let f (k : string) := get msg (js k) in
  let metadata :=
    text_prop "kind" (f "kind"%string) ++ text_prop "role" (f "role"%string)
    ++ list_prop "signals" (f "signals"%string)
    ++ (if is_int (f "line_index"%string) then [(js "line_index", f "line_index"%string)] else [])
    ++ text_prop "command_root" (f "command_root"%string) ++ text_prop "target" (f "target"%string)
    ++ list_prop "entities" (f "entities"%string) in
  match metadata with [] => None | _ => Some metadata end.

(** The set of unknown values already reported for the stream. *)
Definition report_unknown (key : jsstr) : act := λ s,
  if bool_decide (key ∈ v_unknown s) then s
  else View (v_tab s) (v_unknown s ++ [key]) (v_stalled s) (v_effects s ++ [LogUnknown key]).
Definition _streamUnknownCollector (u : unknowns) : act :=
  seq_all (map (λ p, report_unknown (fst p ++ js ":" ++ snd p)) u).
Definition _warnRunStreamSchema (family : string) (value : jsval) : act :=
  report_unknown (js "schema:" ++ js family ++ js ":" ++ to_string value).

(** [Number(value || 0) > supported]. *)
Definition newer_schema (v : jsval) : bool :=
  nltb (num_of_Z LINE_EVENT_SCHEMA_VERSION) (to_number (js_or v (VNum num_zero))).

Definition _handleRunStreamSchema (msg : jsval) : act :=
  if negb (is_objectlike msg) then skip else
  on (newer_schema (get msg (js "v"))) (_warnRunStreamSchema "version" (get msg (js "v")))
  |> on (negb (str_of (get msg (js "kind")) ==s js "line_event"))
       (_warnRunStreamSchema "kind" (js_or (get msg (js "kind")) (VStr []))).

Definition entity_value (e : entity) : jsval :=
  VObj [(js "type", VStr (en_type e)); (js "value", VStr (en_value e));
        (js "canonical_value", VStr (en_canonical e)); (js "confidence", VStr (en_confidence e));
        (js "source_line", or_null VNum (en_source_line e)); (js "start", or_null VNum (en_start e));
        (js "end", or_null VNum (en_end e))].

Definition typed_fields (e : RunOutputModel.event) : props :=
  [(js "kind", VStr (str_or (ev_kind e) (js "info"))); (js "role", VStr (str_or (ev_role e) (js "body")));
   (js "signals", VArr (map VStr (ev_signals e))); (js "line_index", or_null VNum (ev_line_index e));
   (js "command_root", VStr (ev_command_root e)); (js "target", VStr (ev_target e));
   (js "entities", VArr (map entity_value (ev_entities e)))].

Definition is_undefined (v : jsval) : bool := match v with VUndef => true | _ => false end.

(** The typed message, and what it reports. A message is an object here: the
    callers build it, or have tested it. *)
Definition _typedRunStreamLineMessage (msg : props) (s : view) : props * view :=
  let f (k : string) := get (VObj msg) (js k) in
  if forallb (λ k, is_undefined (f k)) ["v"; "kind"; "role"; "signals"]%string then (msg, s) else
  let s := on (newer_schema (f "v"%string)) (_warnRunStreamSchema "version" (f "v"%string)) s in
  let '(e, u) := fromWireLineEvent (VObj msg) in
  (spread (spread (spread [] msg) (legacyPayload e)) (typed_fields e), _streamUnknownCollector u s).

Definition HOST_LOOKUP_RE : regexp := Eval vm_compute in lit "^Warning: inverse host lookup failed for " true.
Definition UNSUPPORTED_RE : regexp := Eval vm_compute in lit "^Unsupported built-in command: " false.
Definition VAR_COMMAND_RE : regexp := Eval vm_compute in lit "^var(?:\s|$)" true.

Definition _shouldSuppressStreamOutputLine (s : view) (line : jsstr) : bool :=
  if negb (has_tab s) then false else
  (lower (first_word (str_of (field "command" s))) ==s js "nc")
  && test HOST_LOOKUP_RE line.

Section Lifecycle.
(** [high_volume]: the configuration has a threshold for live output;
    [max_lines]: its [max_output_lines]; [secs]: the run's elapsed time;
    [network_message]: how a failed request is described. *)
Context (pg : page) (high_volume : bool) (max_lines : jsval) (secs : option num) (network_message : jsstr).

Definition _appendStreamLine (text cls msg : jsval) (liveOutput : bool) : act :=
  let metadata := _streamOutputMetadata msg in
  let metadata :=
    if liveOutput && high_volume
    then Some (set_prop (js "live_output") (VBool true) (default [] metadata)) else metadata in
  emit (AppendLine text cls metadata).

Definition _recordRunOutputCoalescing (msg : jsval) : act :=
  let count := num_max num_zero (to_number (js_or (get msg (js "coalesced_line_count")) (VNum num_zero))) in
  on (truthy (VNum count)) (emit (RecordCoalesced count)).

(** Note an unknown command by its message. *)
Definition note_unsupported (text : jsval) : act :=
  match text with
  | VStr t => on (test UNSUPPORTED_RE t) (put "unknownCommand" (VBool true))
  | _ => skip
  end.

Definition _batchedStreamLineEntry (msg : props) (line : jsstr) (s : view) : jsval * view :=
  let '(m, s) :=
    _typedRunStreamLineMessage
      (set_prop (js "text") (VStr line) (set_prop (js "type") (vstr "output") (spread [] msg))) s in
  (VObj (if high_volume then set_prop (js "live_output") (VBool true) m else m), s).

(** The lines of one message of a batch, added to the entries so far. *)
Fixpoint batch_lines (msg : props) (lines : list jsstr) (entries : list jsval) (s : view)
    : list jsval * view :=
  match lines with
  | [] => (entries, s)
  | line :: lines =>
      if _shouldSuppressStreamOutputLine s line then batch_lines msg lines entries s
      else let '(e, s) := _batchedStreamLineEntry msg line s in batch_lines msg lines (entries ++ [e]) s
  end.
Fixpoint batch_messages (rawLines : list jsval) (entries : list jsval) (s : view) : list jsval * view :=
  match rawLines with
  | [] => (entries, s)
  | raw :: rawLines =>
      if negb (is_objectlike raw) then batch_messages rawLines entries s
      else
        let '(m, s) :=
          _typedRunStreamLineMessage (set_prop (js "type") (vstr "output") (spread [] (spread_value raw))) s in
        let text := get (VObj m) (js "text") in
        let '(entries, s) := batch_lines m (_forEachStreamTextLine text) entries (note_unsupported text s) in
        batch_messages rawLines entries s
  end.

Definition _handleRunOutputBatch (msg : jsval) : act := λ s,
  if flag "killed" s then s else
  let s := _recordRunOutputCoalescing msg s in
  match items_of (get msg (js "lines")) with
  | [] => s
  | lines =>
      let '(entries, s) := batch_messages lines [] s in
      on (negb (bool_decide (entries = []))) (emit (AppendLines entries)) s
  end.

(** ** Definitions: silence and recovery *)

Definition _clearStalledTimeout : act := set_stalled false |> emit ClearStalled.
Definition _resetStalledTimeout : act := emit WatchStream.

(** [t && (t.runId || t.historyRunId) || '']. *)
Definition _tabRunGeneration (s : view) : jsval :=
  js_or (js_or (field "runId" s) (field "historyRunId" s)) (VStr []).

(** The run is shown as running. *)
Definition show_running : act :=
  on (pg_active pg) (emit (SetStatus (js "running")) |> emit SyncTimer)
  |> setTabStatus (js "running") |> emit (RunButtonDisabled true).

Definition _recoverStalledRun : act := λ s,
  if negb (v_stalled s) then s else
  let s := (set_stalled false
            |> emit (AppendLine (vstr "[connection re-established — live output resumed]") (vstr "exit-ok") None)) s in
  if negb (has_tab s) || flag "killed" s then s
  else (show_running |> emit ShowKill) s.

Definition notice_line (text : string) : act := emit (AppendLine (vstr text) (vstr "notice") None).
Definition denied_line (text : string) : act := emit (AppendLine (vstr text) (vstr "denied") None).

Definition _markStalledButRunning : act := λ s,
  (set_stalled true
   |> on (negb (v_stalled s))
        (notice_line "[stream quiet — no output or heartbeat reached the browser for 45s]"
         |> notice_line "[process is still running; Kill remains available and live output will continue here if the stream resumes]")
   |> show_running
   |> (λ s, on (has_tab s) (emit ShowKill) s)) s.

Definition settle_failed : act :=
  setTabStatus (js "fail") |> emit StopTimer |> emit (RunButtonDisabled false) |> emit HideKill.

Definition _markStalledAndInactive : act := λ s,
  (set_stalled true
   |> on (negb (v_stalled s))
        (denied_line "[connection stalled — no stream activity arrived from the server for 45s]")
   |> denied_line "[process is no longer listed as active; check the history panel for the final result]"
   |> on (pg_active pg) (emit (SetStatus (js "fail"))) |> settle_failed) s.

(** The stall timer: it asks for the run of the tab; the answer counts only
    while the tab still shows that run. *)
Definition stall_timer : act := λ s,
  if negb (has_tab s) || flag "killed" s || negb (truthy (_tabRunGeneration s)) then s
  else emit (FetchActiveRun (_tabRunGeneration s) false) s.
Definition stall_answer (runGeneration : jsval) (active : bool) : act := λ s,
  if negb (has_tab s) || flag "killed" s || negb (strict_eq (_tabRunGeneration s) runGeneration) then s
  else if active then (_markStalledButRunning |> _resetStalledTimeout) s
  else _markStalledAndInactive s.

Definition _handleStreamEndedWithoutExit : act := λ s,
  let s := _clearStalledTimeout s in
  emit (FetchActiveRun (_tabRunGeneration s) (flag "scheduledRun" s)) s.

Definition stream_failure (error : StreamRegistry.stream_error) : act :=
  match error with
  | NetworkError => emit (AppendLine (VStr (js "[network error] " ++ network_message)) (vstr "exit-fail") None)
                    |> on (pg_active pg) (emit (SetStatus (js "fail")))
  | CannotStream message =>
      emit (AppendLine (VStr (js "[server error] The server could not stream the command."
                              ++ (if nonempty message then js " " ++ message else [])))
              (vstr "exit-fail") None)
      |> on (pg_active pg) (emit (SetStatus (js "fail")))
  | InvalidStream =>
      emit (AppendLine (vstr "[server error] The server returned an invalid streaming response.")
              (vstr "exit-fail") None)
      |> emit (SetStatus (js "fail"))
  end |> settle_failed.

(** ** Definitions: kills and owners *)

Definition _markTabRunStarted (runId : jsval) : act := λ s,
  if negb (has_tab s) || negb (truthy runId) then s else
  let sameRun := strict_eq (field "runId" s) runId || strict_eq (field "historyRunId" s) runId in
  let s := (put "runId" runId |> put "historyRunId" runId |> put "historyRunKind" (vstr "external")
            |> on (negb sameRun)
                 (put "lastEventId" (VStr []) |> put "streamRecoveryAttempts" (VNum num_zero)
                  |> put "streamRecoveryNoticeRunId" (VStr []) |> emit ClearRecovery |> emit ResetHighVolume)
            |> put "unknownCommand" (VBool false) |> put "reconnectedRun" (VBool false)) s in
  if flag "pendingKill" s
  then (put "pendingKill" (VBool false) |> (λ s, emit (KillRequest (field "runId" s)) s) |> put "runId" VNull) s
  else put "killed" (VBool false) s.

Definition elapsed_label : option jsstr := formatElapsed <$> secs.

Definition _markTabKilledByUser (suppressTranscript : bool) : act := λ s,
  if negb (has_tab s) then s else
  (emit ClearRecovery
   |> put "killed" (VBool true) |> put "reconnectedRun" (VBool false) |> put "lastEventId" (VStr [])
   |> put "attachMode" (VStr []) |> put "streamRecoveryAttempts" (VNum num_zero)
   |> put "streamRecoveryNoticeRunId" (VStr []) |> emit StopTimer |> emit DiscardPendingOutputBatch
   |> (λ s, on (negb (flag "closing" s) && negb suppressTranscript)
              (emit (AppendLine
                (VStr (js "[killed by user" ++ match elapsed_label with Some e => js " after " ++ e | None => [] end
                       ++ js "]")) (vstr "exit-fail") None)) s)
   |> (λ s, emit (Notify (field "command" s) (vstr "killed") elapsed_label) s)
   |> emit (LastExit (vstr "killed")) |> setTabStatus (js "killed")
   |> emit DisableResumeControls |> emit HideKill
   |> on (pg_active pg) (emit (SetStatus (js "killed")) |> emit (RunButtonDisabled false))
   |> emit MountDeferredPrompt) s.

(** [doKill]: ask at once when the run's id is known, else when it starts. *)
Definition doKill : act := λ s,
  if negb (has_tab s) || negb (is_running s) then s
  else if truthy (field "runId" s) then emit (KillRequest (field "runId" s)) s
  else (put "pendingKill" (VBool true) |> _markTabKilledByUser (flag "closing" s)) s.

(** The answers to the request of [doKill], which keeps whether the tab was
    closing when it was sent. *)
Inductive kill_answer := KillDone | KillDenied (message : jsstr) | KillFailed (description : jsstr).

Definition _handleKillRequestFailure (description : jsstr) : act :=
  emit LogKillFailure |> emit ToastKillFailure
  |> emit (AppendLine (VStr (js "[kill request failed] " ++ description)) (vstr "notice") None).

Definition _handleKillRequestDenied (message : jsstr) (runId : jsval) : act := λ s,
  ((λ s, on (has_tab s)
      (put "runId" (js_or runId (field "runId" s)) |> put "killed" (VBool false)
       |> put "pendingKill" (VBool false) |> setTabStatus (js "running") |> emit ShowKill) s)
   |> emit (AppendLine (VStr (js "[kill request denied] " ++ str_or message (js "The server could not kill this run.")))
                       (vstr "notice") None)
   |> on (pg_active pg) (emit (SetStatus (js "running")) |> emit (RunButtonDisabled true))) s.

Definition kill_answered (runId : jsval) (wasClosing : bool) (a : kill_answer) : act :=
  match a with
  | KillDone => put "runId" VNull |> _markTabKilledByUser wasClosing
  | KillDenied message => _handleKillRequestDenied message runId
  | KillFailed description => _handleKillRequestFailure description
  end.

Definition _handleRunOwnerChanged (msg : jsval) : act := λ s,
  if negb (has_tab s) then s else
  let ownerClientId := str_of (get msg (js "owner_client_id")) in
  let mode d := put "attachMode" (js_or (field "attachMode" s) (vstr d)) in
  if nonempty ownerClientId && (ownerClientId ==s pg_clientId pg)
  then (mode "origin"%string |> on (is_running s) (emit ShowKill)) s
  else (mode "attached"%string |> put "killed" (VBool false) |> put "pendingKill" (VBool false)
        |> on (is_running s) (emit ShowKill)) s.

Definition _handleRunKilled (msg : jsval) : act := λ s,
  if negb (has_tab s) then s else
  let killerClientId := str_of (get msg (js "killer_client_id")) in
  let killerTabId := str_of (get msg (js "killer_tab_id")) in
  let byThisBrowser := nonempty killerClientId && (killerClientId ==s pg_clientId pg) in
  let byThisTab := byThisBrowser && nonempty killerTabId && (killerTabId ==s pg_tabId pg) in
  (put "killed" (VBool true) |> put "pendingKill" (VBool false) |> emit DiscardPendingOutputBatch
   |> on (negb byThisTab)
        (emit (AppendLine (if byThisBrowser then vstr "[killed from another tab]"
                           else vstr "[killed by another browser]") (vstr "notice") None))
   |> setTabStatus (js "killed") |> emit DisableResumeControls |> emit HideKill
   |> on (pg_active pg) (emit (SetStatus (js "killed")) |> emit (RunButtonDisabled false))) s.

(** ** Definitions: the messages of the stream *)

(** The calls a notice makes about the project it touched. *)
Definition notice_project (msg : jsval) : act :=
  let f (k : string) := get msg (js k) in
  let project := js_or (f "project_id"%string) (VStr []) in
  let count_or (v : jsval) := VNum (num_or v 0) in
  on (truthy (f "project_linked"%string)) (emit (NotifyProject "run-linked" project))
  |> on (truthy (f "project_entities_linked"%string)) (emit (NotifyProject "entities-linked" project))
  |> on (truthy (f "project_auto_promoted"%string))
       (emit (NotifyProject "auto-promoted" project)
        |> emit (UiEvent "app:project-auto-promoted"
             [(js "project_id", project);
              (js "project_ids", VArr (items_of (f "project_ids"%string)));
              (js "count", count_or (js_or (js_or (f "entity_count"%string) (f "count"%string)) (VNum num_zero)));
              (js "promoted_count", count_or (js_or (f "promoted_count"%string) (VNum num_zero)))]))
  |> on (truthy (f "project_targets_discovered"%string))
       (let rawCount := to_number (js_or (js_or (f "target_count"%string) (f "count"%string)) (VNum num_zero)) in
        emit (NotifyProject "target-discovered" project)
        |> emit (UiEvent "app:project-target-discovered"
             [(js "project_id", project); (js "project_name", js_or (f "project_name"%string) (VStr []));
              (js "count", VNum (if is_finite rawCount then rawCount else num_zero))])).

Definition _previewTruncationNotice (outputLineCount fullOutputAvailable : jsval) : jsstr :=
  let shown := js_or (js_or max_lines outputLineCount) (VNum num_zero) in
  let total := js_or outputLineCount shown in
  let head := js "[preview truncated — only the last " ++ to_string shown
              ++ js " lines are shown here, but the full output had " ++ to_string total ++ js " lines. " in
  if truthy fullOutputAvailable
  then head ++ js "To view the full output, use either permalink button now; after another command, use this command's history permalink]"
  else head ++ js "Full output persistence is disabled or unavailable]".

(** The object handed to the normaliser of command results. *)
Definition exit_result (msg : jsval) (s : view) : jsval :=
  let f (k : string) := get msg (js k) in
  let command := str_of (field "command" s) in
  let safeCommand := historySafeCommand (VStr command) in
  let closing := flag "closing" s in
  let zero := neqb (to_number (f "code"%string)) num_zero in
  let key := js "run:" ++ str_of (js_or (js_or (field "historyRunId" s) (f "run_id"%string)) (VStr (pg_tabId pg))) in
  VObj [(js "command", VStr command); (js "safeCommand", VStr safeCommand); (js "tabId", VStr (pg_tabId pg));
        (js "source", vstr "server"); (js "completionKey", VStr key);
        (js "lines", VArr (if truthy (f "preview_truncated"%string)
                           then [VObj [(js "text", VStr (_previewTruncationNotice (f "output_line_count"%string)
                                                           (f "full_output_available"%string)));
                                       (js "cls", vstr "notice")]] else []));
        (js "status", if zero then vstr "ok" else vstr "fail"); (js "exitCode", f "code"%string);
        (js "persistence", vstr "server");
        (js "recordRecent", VBool (nonempty safeCommand && has_tab s && negb (flag "unknownCommand" s)));
        (js "renderExit", VBool true);
        (js "suppressExitLine", VBool (flag "syntheticClear" s && zero));
        (js "elapsed", js_or (f "elapsed"%string) (VStr []));
        (js "effects", VObj
          [(js "refreshProject", VBool (nonempty command));
           (js "refreshVariables", VBool (test VAR_COMMAND_RE command));
           (js "refreshWorkspace", VBool true); (js "notify", VBool true); (js "settleControls", VBool true);
           (js "refreshHistory", VBool (negb closing)); (js "mountDeferredPrompt", VBool (negb closing))])].

Definition handle_exit (msg : jsval) : act := λ s,
  let f (k : string) := get msg (js k) in
  let s :=
    (_clearStalledTimeout |> emit ClearRecovery
     |> put "exitCode" (f "code"%string) |> put "runId" VNull |> put "reconnectedRun" (VBool false)
     |> put "lastEventId" (VStr []) |> put "attachMode" (VStr []) |> put "streamRecoveryAttempts" (VNum num_zero)
     |> put "streamRecoveryNoticeRunId" (VStr []) |> put "deferPromptMount" (VBool true)
     |> put "previewTruncated" (VBool (truthy (f "preview_truncated"%string)))
     |> put "fullOutputAvailable" (VBool (truthy (f "full_output_available"%string)))
     |> put "fullOutputLoaded" (VBool (negb (truthy (f "preview_truncated"%string))))) s in
  if flag "killed" s then
    (put "killed" (VBool false) |> emit DiscardPendingOutputBatch |> emit HighVolumeSummary |> emit StopTimer
     |> emit (RunButtonDisabled false) |> emit HideKill |> emit DisableResumeControls
     |> (λ s, on (flag "closing" s)
                (finalizeClosingTab pg |> on (pg_historyOpen pg) (emit RefreshHistoryPanel)) s)
     |> on (pg_historyOpen pg) (emit RefreshHistoryPanel)
     |> (λ s, on (negb (flag "closing" s)) (emit MountDeferredPrompt) s)) s
  else
    let s := (emit StopTimer |> emit HighVolumeSummary |> emit RenderOutcomeSummary |> emit DisableResumeControls) s in
    let closing := flag "closing" s in
    let r := normalizeCommandResult (exit_result msg s) (VObj []) in
    (put "syntheticClear" (VBool false) |> emit (CompleteCommand r)
     |> on closing (finalizeClosingTab pg |> on (pg_historyOpen pg) (emit RefreshHistoryPanel))) s.

Definition handle_output (msg : props) : act := λ s,
  let s := _recordRunOutputCoalescing (VObj msg) s in
  let '(m, s) := _typedRunStreamLineMessage msg s in
  if flag "killed" s then s else
  let text := get (VObj m) (js "text") in
  let s := on (has_tab s) (note_unsupported text) s in
  fold_left (λ s line,
    if _shouldSuppressStreamOutputLine s line then s
    else _appendStreamLine (VStr line) (js_or (get (VObj m) (js "cls")) (VStr [])) (VObj m) true s)
    (_forEachStreamTextLine text) s.

Definition dispatch_message (msg : jsval) : act := λ s,
  let type := get msg (js "type") in
  let of_type (k : string) := is_str type (js k) in
  if of_type "schema"%string || is_str (get msg (js "event")) (js "schema") then _handleRunStreamSchema msg s
  else if of_type "started"%string then _markTabRunStarted (get msg (js "run_id")) s
  else if of_type "notice"%string then
    let '(t, s) := _typedRunStreamLineMessage (props_of msg) s in
    (_appendStreamLine (get (VObj t) (js "text")) (vstr "notice") (VObj t) false |> notice_project (VObj t)) s
  else if of_type "owner"%string then _handleRunOwnerChanged msg s
  else if of_type "killed"%string then _handleRunKilled msg s
  else if of_type "clear"%string then (clearTab pg false |> put "syntheticClear" (VBool true)) s
  else if of_type "output_batch"%string then _handleRunOutputBatch msg s
  else if of_type "output"%string then handle_output (props_of msg) s
  else if of_type "exit"%string then handle_exit msg s
  else if of_type "error"%string then
    (_clearStalledTimeout |> emit (AppendLine (VStr (js "[error] " ++ to_string (get msg (js "text")))) (vstr "exit-fail") None)
     |> on (pg_active pg) (emit (SetStatus (js "fail"))) |> setTabStatus (js "fail")
     |> emit DisableResumeControls |> emit StopTimer |> emit (RunButtonDisabled false) |> emit HideKill) s
  else s.

Definition _handleRunStreamMessage (m : sse_msg) : act :=
  if negb (is_objectlike (sm_value m)) then skip
  else on (truthy (sm_event_id m)) (put "lastEventId" (VStr (str_of (sm_event_id m))))
       |> dispatch_message (sm_value m).
End Lifecycle.

(** The view as the streams see it. *)
#[export] Instance run_stream_tab (pg : page) (high_volume : bool) (max_lines : jsval) (network_message : jsstr)
    : StreamTab view := {|
  tab_handle := _handleRunStreamMessage pg high_volume max_lines;
  tab_lastEventId s := str_of (field "lastEventId" s);
  tab_running runId s :=
    is_running s && nonempty runId
    && (is_str (field "runId" s) runId || is_str (field "historyRunId" s) runId);
  tab_recovered := _recoverStalledRun pg |> _resetStalledTimeout;
  tab_watch := _resetStalledTimeout;
  tab_unwatch := _clearStalledTimeout;
  tab_ended := _handleStreamEndedWithoutExit;
  tab_error := stream_failure pg network_message
|}.

(** ** Lemmas: what the output of a run may change *)

(** The calls that reading output makes. *)
Definition report_effect (e : effect) : Prop :=
  match e with LogUnknown _ | RecordCoalesced _ => True | _ => False end.
Definition output_effect (e : effect) : Prop :=
  match e with
  | LogUnknown _ | RecordCoalesced _ | AppendLine _ _ _ | AppendLines _ | NotifyProject _ _ | UiEvent _ _ => True
  | _ => False
  end.
Lemma report_output e : report_effect e → output_effect e.
Proof. by destruct e. Qed.

Lemma report_up ks s s' : changes [] report_effect s s' → changes ks output_effect s s'.
Proof. apply changes_weaken; [apply list_subseteq_nil|by intros []]. Qed.

Lemma report_keys ks s s' : changes [] report_effect s s' → changes ks report_effect s s'.
Proof. apply changes_weaken; [apply list_subseteq_nil|done]. Qed.
Lemma report_shows ks s s' : changes ks report_effect s s' → changes ks output_effect s s'.
Proof. apply changes_weaken; [done|by intros []]. Qed.

Lemma tame_report key : tame [] report_effect (report_unknown key).
Proof.
  unfold report_unknown. intros s. case_match; [apply changes_refl|].
  repeat split; try done. exists [LogUnknown key]. by repeat constructor.
Qed.

Lemma tame_collect u : tame [] report_effect (_streamUnknownCollector u).
Proof.
  intros s. apply tame_fold. intros f s' (p & <- & _)%list_elem_of_In%in_map_iff. apply tame_report.
Qed.

(** The typed form of a message depends on the message alone. *)
Definition typed_message (msg : props) : props := fst (_typedRunStreamLineMessage msg (View None [] false [])).
Definition type_reports (msg : props) : act := λ s, snd (_typedRunStreamLineMessage msg s).

Lemma typed_split msg s : _typedRunStreamLineMessage msg s = (typed_message msg, type_reports msg s).
Proof.
  unfold typed_message, type_reports, _typedRunStreamLineMessage.
  destruct (forallb _ _); [done|]. by destruct (fromWireLineEvent (VObj msg)).
Qed.

Lemma tame_type_reports msg : tame [] report_effect (type_reports msg).
Proof.
  intros s. unfold type_reports, _typedRunStreamLineMessage. destruct (forallb _ _); [apply changes_refl|].
  destruct (fromWireLineEvent (VObj msg)) as [e u]. cbn [snd].
  eapply changes_trans; [|apply tame_collect]. apply tame_on, tame_report.
Qed.

Lemma tame_schema msg : tame [] report_effect (_handleRunStreamSchema msg).
Proof.
  unfold _handleRunStreamSchema. case_match; [apply tame_skip|].
  apply tame_seq; apply tame_on, tame_report.
Qed.

Lemma tame_unsupported text : tame ["unknownCommand"] report_effect (note_unsupported text).
Proof. destruct text; try apply tame_skip. apply tame_on, tame_put. by left. Qed.

Lemma type_get o v : own o (js "type") = Some v → get (VObj o) (js "type") = v.
Proof. intros H. cbn. unfold table_get. by rewrite H. Qed.

(** Choose the branch of a message whose type is known. *)
Ltac known_type Hty :=
  unfold dispatch_message; rewrite (type_get _ _ Hty); cbv beta zeta;
  repeat match goal with
  | |- context [is_str (vstr ?a) (js ?b)] =>
      let v := eval vm_compute in (is_str (vstr a) (js b)) in
      replace (is_str (vstr a) (js b)) with v by (vm_compute; reflexivity)
  end; cbn [orb].

Section Output.
Context (pg : page) (high_volume : bool) (max_lines : jsval).

Lemma tame_coalescing msg : tame [] report_effect (_recordRunOutputCoalescing msg).
Proof. unfold _recordRunOutputCoalescing. by apply tame_on, tame_emit. Qed.

Lemma tame_batch_lines msg lines entries s entries' s' :
  batch_lines high_volume msg lines entries s = (entries', s') → changes [] report_effect s s'.
Proof.
  revert entries s. induction lines as [|line lines IH]; intros entries s; cbn [batch_lines].
  { intros [= <- <-]. apply changes_refl. }
  case_match; [apply IH|]. unfold _batchedStreamLineEntry. rewrite typed_split. intros Hb.
  eapply changes_trans; [apply tame_type_reports|by eapply IH].
Qed.

Lemma tame_batch_messages raws entries s entries' s' :
  batch_messages high_volume raws entries s = (entries', s') → changes ["unknownCommand"] report_effect s s'.
Proof.
  revert entries s. induction raws as [|raw raws IH]; intros entries s; cbn [batch_messages].
  { intros [= <- <-]. apply changes_refl. }
  case_match; [apply IH|]. rewrite typed_split. destruct (batch_lines _ _ _ _ _) as [entries1 s1] eqn:E. intros Hb.
  eapply changes_trans; [apply report_keys, tame_type_reports|].
  eapply changes_trans; [apply tame_unsupported|].
  eapply changes_trans; [by eapply report_keys, tame_batch_lines|by eapply IH].
Qed.

Lemma tame_batch msg : tame ["unknownCommand"] output_effect (_handleRunOutputBatch high_volume msg).
Proof.
  intros s. unfold _handleRunOutputBatch. case_match; [apply changes_refl|].
  eapply changes_trans; [apply report_up, (tame_coalescing msg)|].
  destruct (items_of (get msg (js "lines"))) as [|raw raws]; [apply changes_refl|].
  destruct (batch_messages _ _ _ _) as [entries s'] eqn:E.
  eapply changes_trans; [by eapply report_shows, tame_batch_messages|]. by apply tame_on, tame_emit.
Qed.

Lemma tame_output msg : tame ["unknownCommand"] output_effect (handle_output high_volume msg).
Proof.
  intros s. unfold handle_output.
  eapply changes_trans; [apply report_up, (tame_coalescing (VObj msg))|]. rewrite typed_split.
  eapply changes_trans; [apply report_up, tame_type_reports|]. case_match; [apply changes_refl|].
  eapply changes_trans; [apply report_shows, tame_on, tame_unsupported|]. apply tame_fold. intros line s' _.
  case_match; [apply changes_refl|]. by apply tame_emit.
Qed.

Lemma tame_notice_project msg : tame [] output_effect (notice_project msg).
Proof.
  intros s. unfold notice_project. cbn beta zeta.
  assert (∀ e e', output_effect e → output_effect e' → tame [] output_effect (emit e |> emit e')) as H2.
  { intros e e' He He'. apply (tame_seq _ _ (emit e) (emit e')); by apply tame_emit. }
  do 3 (eapply changes_trans; [|apply tame_on; first [by apply tame_emit|by apply H2]]).
  by apply tame_on, tame_emit.
Qed.

(** The messages that only bring output. *)
Definition brings_output (m : sse_msg) : Prop :=
  ∃ o, sm_value m = VObj o
       ∧ Exists (λ k, own o (js "type") = Some (vstr k)) ["schema"; "notice"; "output"; "output_batch"]%string.

Lemma tame_dispatch o :
  Exists (λ k, own o (js "type") = Some (vstr k)) ["schema"; "notice"; "output"; "output_batch"]%string →
  tame ["unknownCommand"] output_effect (dispatch_message pg high_volume max_lines (VObj o)).
Proof.
  rewrite !Exists_cons, Exists_nil. intros Hty s.
  destruct Hty as [Hty|[Hty|[Hty|[Hty|[]]]]]; known_type Hty; try case_match;
    try apply report_up, tame_schema; [|by apply tame_output|by apply tame_batch].
  rewrite typed_split. eapply changes_trans; [apply report_up, tame_type_reports|].
  eapply changes_trans; [|eapply changes_weaken; [apply list_subseteq_nil|done|apply tame_notice_project]].
  by apply tame_emit.
Qed.

(** Reading output leaves the tab as it was, its place in the stream and its
    note of an unknown command apart, and only adds lines and notes. *)
Lemma tame_message m :
  brings_output m →
  tame ["lastEventId"; "unknownCommand"] output_effect (_handleRunStreamMessage pg high_volume max_lines m).
Proof.
  intros (o & Ho & Hty) s. unfold _handleRunStreamMessage. rewrite Ho. cbn [is_objectlike negb].
  eapply changes_trans; [apply tame_on, tame_put; by left|].
  eapply changes_weaken; [|done|by apply tame_dispatch]. by apply list_subseteq_cons.
Qed.
End Output.

(** ** Lemmas: kills and ends *)

(** The requests to kill, the results handed to the coordinator and the lines
    among the calls. *)
Definition kill_target (e : effect) : option jsval := match e with KillRequest r => Some r | _ => None end.
Definition completion (e : effect) : option result := match e with CompleteCommand r => Some r | _ => None end.
Definition shows (e : effect) : bool :=
  match e with AppendLine _ _ _ | AppendLines _ | CompleteCommand _ => true | _ => false end.
Definition no_kill (e : effect) : Prop := kill_target e = None.
Definition no_completion (e : effect) : Prop := completion e = None.
Definition quiet (e : effect) : Prop := shows e = false.

(** A message of a type, which is not a schema. *)
Definition of_type (k : string) (m : sse_msg) (o : props) : Prop :=
  sm_value m = VObj o ∧ own o (js "type") = Some (vstr k) ∧ is_str (get (VObj o) (js "event")) (js "schema") = false.

Lemma omap_none {A B} (f : A → option B) l : Forall (λ x, f x = None) l → omap f l = [].
Proof. induction 1 as [|x l Hx _ IH]; [done|]. cbn. by rewrite Hx. Qed.

Lemma changes_field ks P s s' k : changes ks P s s' → js k ∉ map js ks → field k s' = field k s.
Proof. intros (_ & Hf & _). apply Hf. Qed.

Section Ends.
Context (pg : page) (high_volume : bool) (max_lines : jsval) (secs : option num).
Notation handle := (_handleRunStreamMessage pg high_volume max_lines).

(** The tab after some messages that bring output. *)
Lemma tame_messages msgs s :
  Forall brings_output msgs → changes ["lastEventId"; "unknownCommand"] output_effect s (handle_all handle s msgs).
Proof.
  intros Hm. unfold handle_all. apply tame_fold. intros m s' Hin. apply tame_message.
  rewrite Forall_forall in Hm. by apply Hm.
Qed.

Lemma tame_killed b :
  tame ["killed"; "reconnectedRun"; "lastEventId"; "attachMode"; "streamRecoveryAttempts";
        "streamRecoveryNoticeRunId"; "st"; "runningLabel"] no_kill (_markTabKilledByUser pg secs b).
Proof.
  intros s. unfold _markTabKilledByUser, setTabStatus. case_match; [apply changes_refl|]. tame_steps.
Qed.

Lemma killed_flag b s : has_tab s = true → flag "killed" (_markTabKilledByUser pg secs b s) = true.
Proof.
  intros Ht. apply field_flag. unfold _markTabKilledByUser, setTabStatus. rewrite Ht. cbn [negb]. field_steps.
Qed.

(** A kill before the run has an id. *)
Lemma early_kill s :
  has_tab s = true → is_running s = true → truthy (field "runId" s) = false →
  let s' := doKill pg secs s in
  has_tab s' = true ∧ flag "pendingKill" s' = true ∧ flag "killed" s' = true
  ∧ ∃ es, v_effects s' = v_effects s ++ es ∧ Forall no_kill es.
Proof.
  intros Ht Hr Hi. unfold doKill. rewrite Ht, Hr, Hi. cbn [negb orb]. cbv beta zeta.
  destruct (tame_killed (flag "closing" s) (put "pendingKill" (VBool true) s)) as (Ht' & Hf & es & He & Hes).
  split; [by rewrite Ht', has_tab_put|]. split.
  - apply field_flag. rewrite Hf by (apply (bool_decide_unpack _); vm_compute; exact I). by apply field_put_eq.
  - split; [apply killed_flag; by rewrite has_tab_put|]. by exists es.
Qed.

(** The run starts under a pending kill. *)
Lemma start_pending s runId :
  has_tab s = true → flag "pendingKill" s = true → truthy runId = true →
  let s' := _markTabRunStarted runId s in
  field "runId" s' = VNull ∧ flag "pendingKill" s' = false ∧ field "historyRunId" s' = runId
  ∧ flag "killed" s' = flag "killed" s
  ∧ ∃ es, v_effects s' = v_effects s ++ es ++ [KillRequest runId] ∧ Forall no_kill es.
Proof.
  intros Ht Hp Hr. unfold _markTabRunStarted. rewrite Ht, Hr. cbn [negb orb]. cbv beta zeta.
  set (sameRun := _ || _). set (s1 := put "reconnectedRun" _ _).
  assert (changes ["runId"; "historyRunId"; "historyRunKind"; "lastEventId"; "streamRecoveryAttempts";
                   "streamRecoveryNoticeRunId"; "unknownCommand"; "reconnectedRun"] no_kill s s1) as Hc.
  { unfold s1. tame_steps. }
  assert (field "runId" s1 = runId) as Hi by (unfold s1; field_steps).
  assert (field "historyRunId" s1 = runId) as Hh by (unfold s1; field_steps).
  clearbody s1. destruct Hc as (Ht' & Hf & es & He & Hes).
  assert (flag "pendingKill" s1 = true) as ->.
  { unfold flag in *. rewrite Hf by (apply (bool_decide_unpack _); vm_compute; exact I). done. }
  rewrite Ht in Ht'. split; [field_steps|]. split; [apply field_flag; field_steps|]. split; [by field_steps|].
  split.
  - unfold flag. rewrite (field_put_ne "runId"), field_emit, (field_put_ne "pendingKill") by by vm_compute.
    rewrite Hf by (apply (bool_decide_unpack _); vm_compute; exact I). done.
  - exists es. rewrite (field_put_ne "pendingKill"), Hi by by vm_compute. cbn. rewrite He. by rewrite (assoc_L (++)).
Qed.

(** What closing for good resets. *)
Definition closing_keys : list string :=
  ["command"; "runId"; "historyRunId"; "historyRunKind"; "lastEventId"; "attachMode"; "reconnectedRun"; "runStart";
   "currentRunStartIndex"; "exitCode"; "previewTruncated"; "fullOutputAvailable"; "fullOutputLoaded"; "followOutput";
   "outputUserScrollUntil"; "suppressOutputScrollTracking"; "deferPromptMount"; "closing"; "killed"; "pendingKill";
   "renamed"; "workspaceCwd"; "draftInput"; "commandHistory"; "historyNavIndex"; "historyNavDraft";
   "_outputLineCounter"; "runningLabel"; "rawLines"; "commandOutcomeSummary"; "st"].

Lemma tame_clear b : tame closing_keys quiet (clearTab pg b).
Proof. intros s. unfold clearTab, setTabStatus. tame_steps. Qed.
Lemma tame_reset : tame closing_keys quiet _resetPreservedSingleTabState.
Proof. intros s. unfold _resetPreservedSingleTabState. tame_steps. Qed.

Lemma tame_finalize : tame closing_keys quiet (finalizeClosingTab pg).
Proof.
  intros s. unfold finalizeClosingTab. case_match; [apply changes_refl|].
  cbv beta. apply changes_on; [|by apply changes_emit, changes_refl]. cbv beta. set (s0 := emit _ _). clearbody s0. revert s0.
  intros s0. eapply changes_trans; [apply tame_reset|apply tame_clear].
Qed.

(** Closing for good leaves a tab without a run as it is. *)
Definition no_run : list (string * jsval) := [("killed"%string, VBool false); ("runId"%string, VNull)].

Lemma reset_field k v s : (k, v) ∈ no_run → has_tab s = true → field k (_resetPreservedSingleTabState s) = v.
Proof.
  unfold no_run. rewrite !elem_of_cons, elem_of_nil. unfold _resetPreservedSingleTabState.
  intros [[= -> ->]|[[= -> ->]|[]]] Ht; field_steps.
Qed.
Lemma clear_field k v b s : (k, v) ∈ no_run → field k s = v → field k (clearTab pg b s) = v.
Proof.
  unfold no_run. rewrite !elem_of_cons, elem_of_nil. unfold clearTab, setTabStatus.
  intros [[= -> ->]|[[= -> ->]|[]]] Hv; field_steps; exact Hv.
Qed.
Lemma finalize_field k v s :
  (k, v) ∈ no_run → has_tab s = true → field k s = v → field k (finalizeClosingTab pg s) = v.
Proof.
  intros Hk Ht Hv. unfold finalizeClosingTab. case_match; [done|].
  apply follow_on; [|done]. apply clear_field; [done|]. by apply reset_field.
Qed.

(** The record of the end in the tab, before anything is settled. *)
Definition exit_recorded (msg : jsval) (s : view) : view :=
  let f (k : string) := get msg (js k) in
  (_clearStalledTimeout |> emit ClearRecovery
   |> put "exitCode" (f "code"%string) |> put "runId" VNull |> put "reconnectedRun" (VBool false)
   |> put "lastEventId" (VStr []) |> put "attachMode" (VStr []) |> put "streamRecoveryAttempts" (VNum num_zero)
   |> put "streamRecoveryNoticeRunId" (VStr []) |> put "deferPromptMount" (VBool true)
   |> put "previewTruncated" (VBool (truthy (f "preview_truncated"%string)))
   |> put "fullOutputAvailable" (VBool (truthy (f "full_output_available"%string)))
   |> put "fullOutputLoaded" (VBool (negb (truthy (f "preview_truncated"%string))))) s.
Definition exit_keys : list string :=
  ["exitCode"; "runId"; "reconnectedRun"; "lastEventId"; "attachMode"; "streamRecoveryAttempts";
   "streamRecoveryNoticeRunId"; "deferPromptMount"; "previewTruncated"; "fullOutputAvailable"; "fullOutputLoaded"].

Lemma tame_recorded msg : tame exit_keys quiet (exit_recorded msg).
Proof. intros s. unfold exit_recorded, _clearStalledTimeout. tame_steps. Qed.

Lemma recorded_run msg s : has_tab s = true → field "runId" (exit_recorded msg s) = VNull.
Proof. intros Ht. unfold exit_recorded, _clearStalledTimeout. field_steps. Qed.

(** The end of a killed run. *)
Lemma exit_killed msg s :
  has_tab s = true → flag "killed" s = true →
  let s' := handle_exit pg max_lines msg s in
  field "runId" s' = VNull ∧ flag "killed" s' = false
  ∧ ∃ es, v_effects s' = v_effects s ++ es ∧ Forall quiet es.
Proof.
  intros Ht Hk. unfold handle_exit. cbv beta zeta. fold (exit_recorded msg s).
  pose proof (tame_recorded msg s) as Hc. pose proof (recorded_run msg s Ht) as Hrun.
  set (s1 := exit_recorded msg s) in *. clearbody s1.
  assert (flag "killed" s1 = true) as ->.
  { unfold flag in *. rewrite (changes_field _ _ _ _ _ Hc); [done|]. apply (bool_decide_unpack _). vm_compute. exact I. }
  assert (has_tab s1 = true) as Ht1 by (destruct Hc as [-> _]; done).
  set (s2 := emit DisableResumeControls _).
  assert (changes ["killed"] quiet s1 s2) as Hc2 by (unfold s2; tame_steps).
  assert (field "killed" s2 = VBool false) as Hk2 by (unfold s2; field_steps).
  assert (field "runId" s2 = VNull) as Hr2 by (unfold s2; field_steps; exact Hrun).
  assert (has_tab s2 = true) as Ht2 by (destruct Hc2 as [-> _]; done). clearbody s2.
  assert (∀ k v, (k, v) ∈ no_run → field k s2 = v → field k (finalizeClosingTab pg s2) = v) as Hfin by (intros; by apply finalize_field).
  split; [|split].
  - field_steps; first [exact Hr2 | apply Hfin; [right; by left|exact Hr2]].
  - apply field_flag. field_steps; first [exact Hk2 | apply Hfin; [by left|exact Hk2]].
  - match goal with |- ∃ es, v_effects ?x = _ ∧ _ => set (s3 := x) end.
    assert (changes closing_keys quiet s2 s3) as (_ & _ & es & He & Hes); [unfold s3; tame_steps; apply tame_finalize|].
    { destruct Hc as (_ & _ & es1 & He1 & Hes1), Hc2 as (_ & _ & es2 & He2 & Hes2).
      exists (es1 ++ es2 ++ es). rewrite He, He2, He1, !Forall_app, !(assoc_L (++)). done. }
Qed.

(** The key of the run a tab shows. *)
Definition run_key (s : view) (msg : jsval) : jsstr :=
  js "run:" ++ str_of (js_or (js_or (field "historyRunId" s) (get msg (js "run_id"))) (VStr (pg_tabId pg))).

Lemma exit_result_key msg s :
  r_completionKey (normalizeCommandResult (exit_result pg max_lines msg s) (VObj [])) = run_key s msg.
Proof. reflexivity. Qed.

Lemma exit_result_status msg s :
  r_status (normalizeCommandResult (exit_result pg max_lines msg s) (VObj []))
  = if neqb (to_number (get msg (js "code"))) num_zero then Ok else Fail.
Proof.
  unfold normalizeCommandResult. cbn [r_status]. unfold exit_result. cbv zeta.
  destruct (neqb (to_number (get msg (js "code"))) num_zero); reflexivity.
Qed.

Lemma exit_result_ok msg s :
  result_ok (normalizeCommandResult (exit_result pg max_lines msg s) (VObj [])).
Proof. by apply normalized_result_ok. Qed.

(** The end of a run nobody killed. *)
Lemma exit_settled msg s :
  has_tab s = true → flag "killed" s = false →
  let s' := handle_exit pg max_lines msg s in
  field "runId" s' = VNull
  ∧ (flag "closing" s = false → field "historyRunId" s' = field "historyRunId" s)
  ∧ ∃ s2 es es', field "historyRunId" s2 = field "historyRunId" s ∧ Forall quiet es ∧ Forall quiet es'
      ∧ v_effects s' = v_effects s ++ es
          ++ CompleteCommand (normalizeCommandResult (exit_result pg max_lines msg s2) (VObj [])) :: es'.
Proof.
  intros Ht Hk. unfold handle_exit. cbv beta zeta. fold (exit_recorded msg s).
  pose proof (tame_recorded msg s) as Hc. pose proof (recorded_run msg s Ht) as Hrun.
  set (s1 := exit_recorded msg s) in *. clearbody s1.
  assert (∀ k, js k ∉ map js exit_keys → field k s1 = field k s) as Hf by (intros k; by apply (changes_field _ _ _ _ _ Hc)).
  unfold flag in *. rewrite (Hf "killed"%string), Hk by (apply (bool_decide_unpack _); vm_compute; exact I).
  destruct Hc as (Ht1 & _ & es1 & He1 & Hes1). rewrite Ht in Ht1.
  set (s2 := emit DisableResumeControls _). set (r := normalizeCommandResult _ _).
  set (s3 := emit (CompleteCommand r) _).
  assert (field "historyRunId" s2 = field "historyRunId" s) as Hh
    by (apply Hf, (bool_decide_unpack _); vm_compute; exact I).
  assert (field "runId" s3 = VNull) as Hr3 by (unfold s3; field_steps; exact Hrun).
  assert (has_tab s3 = true) as Ht3 by (unfold s3; tab_steps).
  assert (v_effects s3 = v_effects s ++ (es1 ++ [StopTimer; HighVolumeSummary; RenderOutcomeSummary; DisableResumeControls])
                         ++ [CompleteCommand r]) as He3.
  { unfold s3, s2. cbn. rewrite He1, <-!(assoc_L (++)). done. }
  assert (field "historyRunId" s3 = field "historyRunId" s) as Hh3 by (unfold s3; field_steps; exact Hh).
  assert (truthy (field "closing" s2) = truthy (field "closing" s)) as ->
    by (f_equal; apply Hf, (bool_decide_unpack _); vm_compute; exact I).
  set (s4 := on _ _ _).
  assert (changes closing_keys quiet s3 s4) as (_ & _ & es & He & Hes); [unfold s4; tame_steps; apply tame_finalize|].
  split; [|split].
  - unfold s4. field_steps; first [exact Hr3 | apply finalize_field; [right; by left|done..]].
  - intros Hcl. unfold s4. rewrite Hcl. exact Hh3.
  - exists s2, (es1 ++ [StopTimer; HighVolumeSummary; RenderOutcomeSummary; DisableResumeControls]), es.
    split; [done|]. rewrite Forall_app. split; [by repeat constructor|]. split; [done|].
    rewrite He, He3, <-!(assoc_L (++)). done.
Qed.

(** The place in the stream is noted before a message is handled. *)
Definition noted (m : sse_msg) : act :=
  on (truthy (sm_event_id m)) (put "lastEventId" (VStr (str_of (sm_event_id m)))).

Lemma noted_tab m s : has_tab (noted m s) = has_tab s.
Proof. unfold noted. apply has_tab_on, has_tab_put. Qed.
Lemma noted_field m s k : js k ≠ js "lastEventId" → field k (noted m s) = field k s.
Proof. intros H. unfold noted. rewrite field_on. case_match; [|done]. by apply field_put_ne. Qed.
Lemma noted_effects m s : v_effects (noted m s) = v_effects s.
Proof. unfold noted. by destruct (truthy _). Qed.

Lemma handle_exit_message m o s :
  of_type "exit" m o → handle m s = handle_exit pg max_lines (VObj o) (noted m s).
Proof.
  intros (Hm & Hty & Hev). unfold _handleRunStreamMessage. rewrite Hm. cbn [is_objectlike negb].
  known_type Hty. by rewrite Hev.
Qed.

Lemma handle_started m o s :
  of_type "started" m o → handle m s = _markTabRunStarted (get (VObj o) (js "run_id")) (noted m s).
Proof.
  intros (Hm & Hty & Hev). unfold _handleRunStreamMessage. rewrite Hm. cbn [is_objectlike negb].
  known_type Hty. by rewrite Hev.
Qed.

Lemma handle_output_message m o s :
  of_type "output" m o → handle m s = handle_output high_volume o (noted m s).
Proof.
  intros (Hm & Hty & Hev). unfold _handleRunStreamMessage. rewrite Hm. cbn [is_objectlike negb].
  known_type Hty. by rewrite Hev.
Qed.

Lemma handle_batch_message m o s :
  of_type "output_batch" m o → handle m s = _handleRunOutputBatch high_volume (VObj o) (noted m s).
Proof.
  intros (Hm & Hty & Hev). unfold _handleRunStreamMessage. rewrite Hm. cbn [is_objectlike negb].
  known_type Hty. by rewrite Hev.
Qed.

Lemma of_type_output k m o : of_type k m o → k ∈ ["schema"; "notice"; "output"; "output_batch"]%string → brings_output m.
Proof. intros (Hm & Hty & _) Hk. exists o. split; [done|]. apply Exists_exists. by exists k. Qed.

(** Output that reaches a killed tab. *)
Lemma killed_output m o s :
  (of_type "output" m o ∨ of_type "output_batch" m o) → flag "killed" s = true →
  changes ["lastEventId"] quiet s (handle m s).
Proof.
  assert (js "killed" ≠ js "lastEventId") as Hne by by vm_compute.
  intros Hm Hk. assert (handle m s = dispatch_message pg high_volume max_lines (VObj o) (noted m s)) as ->.
  { destruct Hm as [(Hm & _)|(Hm & _)]; unfold _handleRunStreamMessage; by rewrite Hm. }
  assert (changes ["lastEventId"] quiet s (noted m s)) as Hn by (apply tame_on, tame_put; by left).
  eapply changes_trans; [exact Hn|]. clear Hn.
  assert (flag "killed" (noted m s) = true) as Hk' by (unfold flag in *; by rewrite noted_field).
  set (s1 := noted m s) in *. clearbody s1.
  eapply (changes_weaken [] _ report_effect); [apply list_subseteq_nil|by intros []|].
  destruct Hm as [(_ & Hty & Hev)|(_ & Hty & Hev)]; known_type Hty; rewrite Hev.
  - unfold handle_output. rewrite typed_split.
    assert (changes [] report_effect s1
              (type_reports (props_of (VObj o)) (_recordRunOutputCoalescing (VObj (props_of (VObj o))) s1))) as Hc.
    { eapply changes_trans; [apply (tame_coalescing (VObj o))|apply tame_type_reports]. }
    unfold flag in *. by rewrite (changes_field _ _ _ _ _ Hc), Hk' by apply not_elem_of_nil.
  - unfold _handleRunOutputBatch. rewrite Hk'. apply changes_refl.
Qed.
End Ends.

(** ** Lemmas: typing a message twice *)

Lemma NoDup_set k v o : NoDup o.*1 → NoDup (set_prop k v o).*1.
Proof.
  induction o as [|[k' v'] o IH]; cbn; [constructor; [by apply not_elem_of_nil|constructor]|].
  intros [Hn Hd]%NoDup_cons. case_bool_decide; cbn; [by subst; constructor|]. constructor; [|by apply IH].
  intros Hin. assert (has_own (set_prop k v o) k' = true) as [w Hw]%has_own_Some by by apply own_elem_of.
  rewrite own_set_ne in Hw by congruence. apply Hn, own_elem_of, has_own_Some. by exists w.
Qed.
Lemma NoDup_spread o u : NoDup o.*1 → NoDup (spread o u).*1.
Proof. unfold spread. revert o. induction u as [|[k v] u IH]; intros o Ho; [done|]. cbn. by apply IH, NoDup_set. Qed.
Lemma own_spread_nil o k : NoDup o.*1 → own (spread [] o) k = own o k.
Proof. intros Ho. rewrite own_spread by done. by destruct (own o k). Qed.

Section Typing.
(** The numbers of a decoded event print as decimal integers, as all below
    [10^21] do. *)
Definition numbers_ok (e : RunOutputModel.event) : Prop :=
  opt_int_ok (ev_line_index e)
  ∧ Forall (λ en, opt_int_ok (en_source_line en) ∧ opt_int_ok (en_start en) ∧ opt_int_ok (en_end en)) (ev_entities e).
Definition decoded (o : props) : RunOutputModel.event := fst (fromWireLineEvent (VObj o)).

Lemma decoded_entity p en : entityFromWire p = Some en →
  opt_int_ok (en_source_line en) ∧ opt_int_ok (en_start en) ∧ opt_int_ok (en_end en) → entity_ok en.
Proof.
  unfold entityFromWire. destruct (negb _); [done|]. cbv zeta.
  destruct (negb (nonempty (trim (str_of (get p (js "type"))))) || _) eqn:E; [done|].
  apply orb_false_iff in E as [Ht%negb_false_iff Hc%negb_false_iff].
  assert (∀ s d, text_ok d → text_ok (str_or (trim s) d)) as Hor.
  { intros s d Hd. unfold str_or. destruct (nonempty (trim s)) eqn:En; [|done]. split; [done|apply trim_idemp]. }
  assert (text_ok (trim (str_of (get p (js "canonical_value"))))) as Hcok by (split; [done|apply trim_idemp]).
  destruct (optionalInt (get p (js "start"))), (optionalInt (get p (js "end"))); intros [= <-] (H1 & H2 & H3); split; cbn in *; try done;
    try (split; [done|apply trim_idemp]); try (by apply Hor); split; intros [? [=]]; by eexists.
Qed.
Lemma entity_value_read en : entity_ok en → entityFromWire (entity_value en) = Some en.
Proof.
  intros [[Ht1 Ht2] [Hv1 Hv2] [Hc1 Hc2] [Hf1 Hf2] Hl Hs He Hsp].
  assert (∀ o, opt_int_ok o → optionalInt (or_null VNum o) = o) as Hint by by intros [].
  unfold entityFromWire. cbn [is_objectlike entity_value negb]. cbv zeta.
  change (get (entity_value en) (js "type")) with (VStr (en_type en)). change (get (entity_value en) (js "canonical_value")) with (VStr (en_canonical en)).
  change (get (entity_value en) (js "value")) with (VStr (en_value en)). change (get (entity_value en) (js "confidence")) with (VStr (en_confidence en)).
  change (get (entity_value en) (js "source_line")) with (or_null VNum (en_source_line en)).
  change (get (entity_value en) (js "start")) with (or_null VNum (en_start en)). change (get (entity_value en) (js "end")) with (or_null VNum (en_end en)).
  rewrite !str_of_VStr, Ht2, Hc2, Hv2, Hf2, Ht1, Hc1, !Hint by done. cbn [negb orb]. unfold str_or. rewrite Hv1, Hf1.
  destruct en as [? ? ? ? ? [] []]; cbn in *; try done.
  - destruct (proj1 Hsp); [eauto|done].
  - destruct (proj2 Hsp); [eauto|done].
Qed.

(** The vocabulary of a decoded event. *)
Lemma decoded_known o : let e := decoded o in
  ev_kind e ∈ LINE_KIND_VALUES ∧ ev_role e ∈ LINE_ROLE_VALUES ∧ Forall (λ s, s ∈ LINE_SIGNAL_VALUES) (ev_signals e)
  ∧ ev_entities e = entitiesFromWire (get (VObj o) (js "entities")).
Proof.
  unfold decoded, fromWireLineEvent. cbn [is_objectlike]. cbv zeta. set (cls := js_or _ (VStr [])). clearbody cls.
  pose proof (enumValue_in LINE_KIND_VALUES (get (VObj o) (js "kind")) id (legacyClsToKind cls) "kind") as Hk.
  pose proof (enumValue_in LINE_ROLE_VALUES (get (VObj o) (js "role")) id (legacyClsToRole cls) "role") as Hr.
  destruct (enumValue LINE_KIND_VALUES _ _ _ _), (enumValue LINE_ROLE_VALUES _ _ _ _), (enumValue LINE_NOISE_KIND_VALUES _ _ _ _).
  destruct (signalsFromWire _) as [signals u] eqn:E. cbn [fst ev_kind ev_role ev_signals ev_entities] in *. split_and!; [| | |done].
  - destruct Hk as [->|(x & Hx & ->)]; [apply legacy_kind_known|done].
  - destruct Hr as [->|(x & Hx & ->)]; [apply legacy_role_known|done].
  - unfold signalsFromWire in E. destruct (get (VObj o) (js "signals")); injection E as <- _; try constructor.
    apply Forall_forall. intros x [Hx _]%elem_of_filterb. by apply bool_decide_eq_true in Hx.
Qed.
Lemma decoded_entities o : numbers_ok (decoded o) → Forall entity_ok (ev_entities (decoded o)).
Proof.
  intros [_ Hn]. destruct (decoded_known o) as (_ & _ & _ & He). revert Hn. rewrite He. unfold entitiesFromWire. rewrite !Forall_forall.
  intros Hn en Hen. pose proof (Hn en Hen) as Hi. apply list_elem_of_omap in Hen as (p & _ & Hp). by eapply decoded_entity.
Qed.

(** What decoding depends on. *)
Lemma decoded_fields o e : let f (k : string) := get (VObj o) (js k) in
  ev_kind e ∈ LINE_KIND_VALUES → ev_role e ∈ LINE_ROLE_VALUES → Forall (λ s, s ∈ LINE_SIGNAL_VALUES) (ev_signals e) →
  opt_int_ok (ev_line_index e) → Forall entity_ok (ev_entities e) →
  f "kind"%string = VStr (ev_kind e) → f "role"%string = VStr (ev_role e) → f "signals"%string = VArr (map VStr (ev_signals e)) →
  f "line_index"%string = or_null VNum (ev_line_index e) → f "command_root"%string = VStr (ev_command_root e) →
  f "target"%string = VStr (ev_target e) → f "entities"%string = VArr (map entity_value (ev_entities e)) →
  f "cls"%string = VStr (legacyClsForEvent e) →
  typed_fields (decoded o) = typed_fields e ∧ legacyClsForEvent (decoded o) = legacyClsForEvent e.
Proof.
  intros f Hk Hr Hs Hn Hen Fk Fr Fs Fi Fc Ft Fe Fl. unfold decoded, fromWireLineEvent. cbn [is_objectlike]. cbv zeta.
  unfold f in *. rewrite Fk, Fr, Fs, Fi, Fc, Ft, Fe, Fl.
  rewrite (enumValue_known LINE_KIND_VALUES) by (done || by apply kind_ne).
  rewrite (enumValue_known LINE_ROLE_VALUES) by (done || by apply role_ne).
  destruct (enumValue LINE_NOISE_KIND_VALUES _ _ _ _).
  assert (fst (signalsFromWire (VArr (map VStr (ev_signals e)))) = ev_signals e) as Hsig.
  { pose proof (signals_round_trip _ Hs) as H. destruct (ev_signals e); [done|]. unfold signals_value in H. by rewrite H. }
  destruct (signalsFromWire (VArr _)) as [signals u]. cbn [fst] in *. subst signals.
  assert (str_of (js_or (VStr (legacyClsForEvent e)) (VStr [])) = legacyClsForEvent e) as ->
    by (unfold js_or; cbn; destruct (legacyClsForEvent e); done).
  assert (optionalInt (or_null VNum (ev_line_index e)) = ev_line_index e) as -> by (destruct (ev_line_index e); [exact Hn|done]).
  assert (entitiesFromWire (VArr (map entity_value (ev_entities e))) = ev_entities e) as ->.
  { unfold entitiesFromWire. cbn [items_of]. clear -Hen. induction Hen as [|en l Hen _ IH]; [done|]. cbn [map omap list_omap].
    rewrite entity_value_read by done. by f_equal. }
  rewrite !str_of_VStr. unfold id. split; [done|]. unfold legacyClsForEvent at 1. cbn [ev_legacy_cls ev_kind ev_role].
  destruct (nonempty (legacyClsForEvent e)) eqn:E; [done|]. apply nonempty_false in E. rewrite E. revert E. unfold legacyClsForEvent. cbv zeta.
  destruct (nonempty (ev_legacy_cls e)) eqn:El; [|done]. intros E. by rewrite E in El.
Qed.
End Typing.

(** ** Lemmas: the lines that are shown *)

(** A line as a call hands it to the output: its text, its class and what is
    known of it, with the mark of live output among it. *)
Notation face := (jsval * jsval * props)%type.
Definition marked (live : bool) (metadata : option props) : props :=
  if live then set_prop (js "live_output") (VBool true) (default [] metadata) else default [] metadata.
Definition entry_face (e : jsval) : face :=
  (get e (js "text"), js_or (get e (js "cls")) (VStr []), marked (truthy (get e (js "live_output"))) (_streamOutputMetadata e)).
Definition message_face (high_volume : bool) (m : props) (line : jsstr) : face :=
  (VStr line, js_or (get (VObj m) (js "cls")) (VStr []), marked high_volume (_streamOutputMetadata (VObj m))).
(** The lines a call shows. *)
Definition shown (e : effect) : list face :=
  match e with
  | AppendLine text cls metadata => [(text, cls, default [] metadata)]
  | AppendLines entries => map entry_face entries
  | _ => []
  end.
(** The lines of an output message that the tab is not to suppress. *)
Definition visible (high_volume : bool) (s : view) (o : props) : list face :=
  map (message_face high_volume (typed_message o))
    (filterb (λ line, negb (_shouldSuppressStreamOutputLine s line))
       (_forEachStreamTextLine (get (VObj (typed_message o)) (js "text")))).
(** A line of a batch, as the message it stands for. *)
Definition as_message (raw : jsval) : props := set_prop (js "type") (vstr "output") (spread [] (spread_value raw)).

Lemma suppress_same ks P s s' : changes ks P s s' → js "command" ∉ map js ks →
  _shouldSuppressStreamOutputLine s' = _shouldSuppressStreamOutputLine s.
Proof.
  intros Hc Hk. unfold _shouldSuppressStreamOutputLine. rewrite (changes_field _ _ _ _ _ Hc Hk).
  destruct Hc as [-> _]. done.
Qed.

Lemma visible_same high_volume ks P s s' o : changes ks P s s' → js "command" ∉ map js ks →
  visible high_volume s' o = visible high_volume s o.
Proof.
  intros Hc Hk. unfold visible. f_equal. apply filterb_ext. intros l _. by rewrite (suppress_same _ _ _ _ Hc Hk).
Qed.

Lemma shown_none P es : (∀ e, P e → shown e = []) → Forall P es → flat_map shown es = [].
Proof. intros HP. induction 1 as [|e es He _ IH]; [done|]. cbn. by rewrite HP. Qed.

Lemma shown_report e : report_effect e → shown e = [].
Proof. by destruct e. Qed.

Lemma own_spread_head o k v rest : k ∉ rest.*1 → own (spread o ((k, v) :: rest)) k = Some v.
Proof.
  intros Hk. unfold spread. cbn [fold_left fst snd].
  assert (∀ o', own (fold_left (λ o p, set_prop (fst p) (snd p) o) rest o') k = own o' k) as H;
    [|rewrite H; apply own_set_eq].
  induction rest as [|[k' v'] rest IH]; intros o'; [done|]. cbn [fold_left fst snd].
  apply not_elem_of_cons in Hk as [Hne Hk]. rewrite (IH Hk). apply own_set_ne. cbn in Hne. congruence.
Qed.

Lemma own_spread_other o u k : k ∉ u.*1 → own (spread o u) k = own o k.
Proof.
  unfold spread. revert o. induction u as [|[k' v'] u IH]; intros o Hk; [done|]. cbn [fold_left fst snd].
  apply not_elem_of_cons in Hk as [Hne Hk]. rewrite (IH _ Hk). apply own_set_ne. cbn in Hne. congruence.
Qed.

Lemma legacy_text e : ∃ rest, legacyPayload e = (js "text", VStr (ev_text e)) :: rest ∧ js "text" ∉ rest.*1.
Proof.
  eexists. split; [reflexivity|]. unfold opt_prop, nonempty_prop.
  destruct (ev_signals e), (ev_line_index e), (nonempty (ev_command_root e)), (nonempty (ev_target e)),
    (ev_entities e), (noiseKindForEvent e), (nonempty (ev_noise_reason e));
    apply (bool_decide_unpack _); vm_compute; exact I.
Qed.

(** Typing a message keeps its text. *)
Lemma typed_text o line : own o (js "text") = Some (VStr line) → get (VObj (typed_message o)) (js "text") = VStr line.
Proof.
  intros Ho. unfold typed_message, _typedRunStreamLineMessage. destruct (forallb _ _).
  { cbn. unfold table_get. by rewrite Ho. }
  destruct (fromWireLineEvent (VObj o)) as [e u] eqn:E. cbn [fst get]. unfold table_get.
  rewrite (own_spread_other _ (typed_fields e)) by (apply (bool_decide_unpack _); vm_compute; exact I).
  destruct (legacy_text e) as (rest & -> & Hr). rewrite own_spread_head by done. cbn [default].
  f_equal. assert (ev_text e = str_of (get (VObj o) (js "text"))) as ->.
  { revert E. unfold fromWireLineEvent. cbn [is_objectlike]. cbv zeta.
    destruct (enumValue _ _ _ _ _), (enumValue _ _ _ _ _), (enumValue _ _ _ _ _), (signalsFromWire _).
    by intros [= <- _]. }
  cbn. unfold table_get. rewrite Ho. f_equal. apply str_of_VStr.
Qed.

(** Typing a line of a typed message again changes neither its class nor what is
    known of it. *)
Lemma legacy_keys e : NoDup (legacyPayload e).*1 ∧ js "live_output" ∉ (legacyPayload e).*1.
Proof.
  unfold legacyPayload, opt_prop, nonempty_prop.
  destruct (ev_signals e), (ev_line_index e), (nonempty (ev_command_root e)), (nonempty (ev_target e)),
    (ev_entities e), (noiseKindForEvent e), (nonempty (ev_noise_reason e));
    (split; apply (bool_decide_unpack _); vm_compute; exact I).
Qed.
Definition typed_over (e : RunOutputModel.event) (o : props) : props := spread (spread (spread [] o) (legacyPayload e)) (typed_fields e).
Lemma typed_over_get e o k : NoDup o.*1 →
  own (typed_over e o) k = match own (typed_fields e) k with
                           | Some v => Some v
                           | None => match own (legacyPayload e) k with Some v => Some v | None => own o k end
                           end.
Proof.
  intros Ho. unfold typed_over.
  rewrite (own_spread (typed_fields e)) by (apply (bool_decide_unpack _); vm_compute; exact I).
  rewrite (own_spread (legacyPayload e)) by apply legacy_keys. by rewrite own_spread_nil.
Qed.
Definition untyped (o : props) : bool := forallb (λ k, is_undefined (get (VObj o) (js k))) ["v"; "kind"; "role"; "signals"]%string.
Lemma typed_message_eq o : typed_message o = if untyped o then o else typed_over (decoded o) o.
Proof.
  unfold typed_message, _typedRunStreamLineMessage, untyped, decoded. destruct (forallb _ _); [done|].
  by destruct (fromWireLineEvent (VObj o)).
Qed.
Lemma typed_message_NoDup o : NoDup o.*1 → NoDup (typed_message o).*1.
Proof. intros Ho. rewrite typed_message_eq. destruct (untyped o); [done|]. unfold typed_over. by repeat apply NoDup_spread; constructor. Qed.

Definition face_keys : list string := ["cls"; "kind"; "role"; "signals"; "line_index"; "command_root"; "target"; "entities"].
Lemma metadata_ext a b : (∀ k, k ∈ face_keys → get (VObj a) (js k) = get (VObj b) (js k)) →
  get (VObj a) (js "cls") = get (VObj b) (js "cls") ∧ _streamOutputMetadata (VObj a) = _streamOutputMetadata (VObj b).
Proof.
  intros H. unfold face_keys in H. unfold _streamOutputMetadata. cbn [is_objectlike negb]. cbv zeta.
  rewrite !H by (rewrite !elem_of_cons; tauto). done.
Qed.

Section TypedTwice.
Context (o : props) (line : jsstr) (Ho : NoDup o.*1) (Hn : numbers_ok (decoded o)).
Let m1 := typed_message o.
Let m' := set_prop (js "text") (VStr line) (set_prop (js "type") (vstr "output") (spread [] m1)).
Lemma line_message_own k : k ∉ map js ["text"; "type"]%string → own m' k = own m1 k.
Proof.
  intros Hk. cbn [map] in Hk. rewrite !not_elem_of_cons in Hk. unfold m'.
  rewrite !own_set_ne by naive_solver. by apply own_spread_nil, typed_message_NoDup.
Qed.
Lemma line_message_face k : js k ∈ map js ("v" :: "live_output" :: face_keys)%string → own m' (js k) = own m1 (js k).
Proof.
  intros Hk. apply line_message_own. revert Hk. generalize (js k). apply Forall_forall, (bool_decide_unpack _). vm_compute. exact I.
Qed.
Lemma line_message_untyped : untyped m' = untyped o.
Proof.
  transitivity (untyped m1).
  - unfold untyped. cbn [forallb get]. unfold table_get.
    rewrite !line_message_face by (apply (bool_decide_unpack _); vm_compute; exact I). done.
  - unfold m1. rewrite typed_message_eq. destruct (untyped o) eqn:Hu; [done|]. unfold untyped. cbn [forallb get]. unfold table_get.
    rewrite (typed_over_get _ _ (js "kind")) by done. cbn [own typed_fields]. eval_keys. cbn [default is_undefined].
    by rewrite andb_false_l, andb_false_r.
Qed.
Lemma typed_twice k : js k ∈ map js ("live_output" :: face_keys)%string → get (VObj (typed_message m')) (js k) = get (VObj m1) (js k).
Proof.
  intros Hk. assert (own m' (js k) = own m1 (js k)) as Hsame by (apply line_message_face; by right).
  rewrite typed_message_eq, line_message_untyped. destruct (untyped o) eqn:Hu; [cbn; unfold table_get; by rewrite Hsame|].
  assert (∀ k, own m1 k = own (typed_over (decoded o) o) k) as Hm1 by (intros; unfold m1; by rewrite typed_message_eq, Hu).
  destruct (decoded_known o) as (H1 & H2 & H3 & _).
  destruct (decoded_fields m' (decoded o)) as [Hf Hl]; [done..|apply Hn|by apply decoded_entities| | | | | | | | |].
  1-8: cbn [get]; unfold table_get; rewrite line_message_face, Hm1, typed_over_get by (try done; apply (bool_decide_unpack _); vm_compute; exact I);
    cbn [own typed_fields legacyPayload app]; eval_keys; cbn [default];
    rewrite ?str_or_ne by first [by apply kind_ne|by apply role_ne]; reflexivity.
  assert (NoDup m'.*1) as Hm' by (unfold m'; repeat apply NoDup_set; apply NoDup_spread; constructor).
  cbn [get]. unfold table_get. f_equal. rewrite (typed_over_get (decoded m')), Hf by done.
  destruct (own (typed_fields (decoded o)) (js k)) as [v|] eqn:E; [by rewrite Hm1, typed_over_get, E by done|].
  cbn [map face_keys] in Hk. rewrite !elem_of_cons, elem_of_nil in Hk.
  destruct Hk as [Ek|[Ek|Hk]].
  - rewrite Ek in *. rewrite (proj2 (own_None (legacyPayload _) _)) by apply legacy_keys. done.
  - rewrite Ek in *. rewrite Hm1, typed_over_get, E by done. cbn [own legacyPayload app]. eval_keys. by rewrite Hl.
  - exfalso. revert E. repeat destruct Hk as [Ek|Hk]; try done; rewrite Ek; cbn [own typed_fields]; eval_keys; done.
Qed.
End TypedTwice.

Section Shown.
Context (pg : page) (high_volume : bool) (max_lines : jsval).
Notation handle := (_handleRunStreamMessage pg high_volume max_lines).
Notation vis := (visible high_volume).

(** A line of a batch that is an object, is no schema event, has no mark of live
    output of its own, and has plain numbers. *)
Definition plain_line (raw : jsval) : Prop :=
  is_objectlike raw = true ∧ is_str (get (VObj (as_message raw)) (js "event")) (js "schema") = false
  ∧ get (VObj (as_message raw)) (js "live_output") = VUndef ∧ numbers_ok (decoded (as_message raw)).
Lemma as_message_NoDup raw : NoDup (as_message raw).*1.
Proof. apply NoDup_set, NoDup_spread. constructor. Qed.

Lemma entry_shown o line s : NoDup o.*1 → numbers_ok (decoded o) → get (VObj o) (js "live_output") = VUndef →
  entry_face (fst (_batchedStreamLineEntry high_volume (typed_message o) line s)) = message_face high_volume (typed_message o) line.
Proof.
  intros Ho Hn Hl. unfold _batchedStreamLineEntry. rewrite typed_split. cbn [fst].
  set (m := set_prop (js "text") (VStr line) _).
  assert (get (VObj (typed_message m)) (js "text") = VStr line) as Ht by (apply typed_text, own_set_eq).
  pose proof (typed_twice o line Ho Hn) as Hsame. fold m in Hsame.
  assert (get (VObj (typed_message m)) (js "live_output") = VUndef) as Hl2.
  { rewrite Hsame by (by left). rewrite typed_message_eq. destruct (untyped o); [done|]. cbn [get]. unfold table_get.
    rewrite typed_over_get by done. rewrite (proj2 (own_None (legacyPayload _) _)) by apply legacy_keys.
    cbn [own typed_fields]. eval_keys. exact Hl. }
  set (m2 := if high_volume then _ else _).
  assert (∀ k, k ∈ ("text" :: face_keys)%string → get (VObj m2) (js k) = get (VObj (typed_message m)) (js k)) as Hm2.
  { intros k Hk. unfold m2. destruct high_volume; [|done]. cbn [get]. unfold table_get. rewrite own_set_ne; [done|].
    revert k Hk. apply Forall_forall. repeat constructor; by vm_compute. }
  destruct (metadata_ext m2 (typed_message o)) as [Hc Hmeta].
  { intros k Hk. rewrite Hm2 by (by right). apply Hsame. right. by apply list_elem_of_fmap_2. }
  unfold entry_face, message_face. rewrite Hc, Hmeta, (Hm2 "text"%string), Ht by by left. do 2 f_equal.
  unfold m2. destruct high_volume; [|by rewrite Hl2]. cbn [get]. unfold table_get. by rewrite own_set_eq.
Qed.

Lemma batch_lines_shown o lines entries s entries' s' :
  NoDup o.*1 → numbers_ok (decoded o) → get (VObj o) (js "live_output") = VUndef →
  batch_lines high_volume (typed_message o) lines entries s = (entries', s') →
  map entry_face entries' = map entry_face entries
    ++ map (message_face high_volume (typed_message o)) (filterb (λ l, negb (_shouldSuppressStreamOutputLine s l)) lines).
Proof.
  intros Ho Hn Hl. revert entries s. induction lines as [|line lines IH]; intros entries s; cbn [batch_lines filterb].
  { intros [= <- <-]. by rewrite app_nil_r. }
  destruct (_shouldSuppressStreamOutputLine s line); cbn [negb]; [apply IH|].
  pose proof (entry_shown o line s Ho Hn Hl) as Ht. unfold _batchedStreamLineEntry in *. rewrite typed_split in *.
  intros Hb. apply IH in Hb. rewrite Hb, map_app. cbn [map fst] in *. rewrite Ht, <-(assoc_L (++)).
  by rewrite (suppress_same _ _ _ _ (tame_type_reports _ s)) by by apply not_elem_of_nil.
Qed.

Lemma batch_messages_shown raws entries s entries' s' :
  Forall plain_line raws →
  batch_messages high_volume raws entries s = (entries', s') →
  map entry_face entries' = map entry_face entries ++ flat_map (λ raw, vis s (as_message raw)) raws.
Proof.
  intros Ho. revert entries s. induction Ho as [|raw raws (Hr & _ & Hlive & Hnum) _ IH]; intros entries s; cbn [batch_messages flat_map].
  { intros [= <- <-]. by rewrite app_nil_r. }
  rewrite Hr, typed_split. cbn [negb]. fold (as_message raw).
  destruct (batch_lines _ _ _ _ _) as [entries1 s1] eqn:E. intros Hb.
  assert (changes ["unknownCommand"] report_effect s
            (note_unsupported (get (VObj (typed_message (as_message raw))) (js "text")) (type_reports (as_message raw) s))) as Hc.
  { eapply changes_trans; [apply report_keys, tame_type_reports|apply tame_unsupported]. }
  pose proof (report_keys ["unknownCommand"] _ _ (tame_batch_lines _ _ _ _ _ _ _ E)) as Hc1.
  assert (js "command" ∉ map js ["unknownCommand"%string]) as Hn by (apply (bool_decide_unpack _); vm_compute; exact I).
  rewrite (IH _ _ Hb), (batch_lines_shown _ _ _ _ _ _ (as_message_NoDup raw) Hnum Hlive E), <-(assoc_L (++)). f_equal.
  assert (∀ o, vis s1 o = vis s o) as Hv.
  { intros o. by rewrite (visible_same _ _ _ _ _ o Hc1 Hn), (visible_same _ _ _ _ _ o Hc Hn). }
  f_equal; [|by apply flat_map_ext].
  unfold visible. f_equal. apply filterb_ext. intros l _. by rewrite (suppress_same _ _ _ _ Hc Hn).
Qed.

(** The calls from [s] to [s'] show the lines [l]. *)
Definition showing (l : list face) (s s' : view) : Prop :=
  ∃ es, v_effects s' = v_effects s ++ es ∧ flat_map shown es = l.

Lemma showing_trans l l' s1 s2 s3 : showing l s1 s2 → showing l' s2 s3 → showing (l ++ l') s1 s3.
Proof.
  intros (es & He & <-) (es' & He' & <-). exists (es ++ es').
  by rewrite He', He, <-(assoc_L (++)), flat_map_app.
Qed.

Lemma showing_report ks s s' : changes ks report_effect s s' → showing [] s s'.
Proof. intros (_ & _ & es & He & Hes). exists es. split; [done|]. by apply (shown_none report_effect), Hes; apply shown_report. Qed.

Lemma output_lines_shown m l s : let msg := VObj m in
  showing (map (message_face high_volume m) (filterb (λ line, negb (_shouldSuppressStreamOutputLine s line)) l)) s
    (fold_left (λ s line, if _shouldSuppressStreamOutputLine s line then s
                          else _appendStreamLine high_volume (VStr line) (js_or (get msg (js "cls")) (VStr [])) msg true s) l s).
Proof.
  intros msg. revert s. induction l as [|line l IH]; intros s; cbn [filterb fold_left].
  { exists []. by rewrite app_nil_r. }
  destruct (_shouldSuppressStreamOutputLine s line); cbn [negb map]; [apply IH|].
  apply (showing_trans [message_face high_volume m line] _ _ (_appendStreamLine high_volume (VStr line) (js_or (get msg (js "cls")) (VStr [])) msg true s)).
  - unfold _appendStreamLine. eexists. split; [reflexivity|]. cbn. unfold message_face, marked. by destruct high_volume.
  - exact (IH (_appendStreamLine high_volume (VStr line) (js_or (get msg (js "cls")) (VStr [])) msg true s)).
Qed.

Lemma handle_output_shown o s : flag "killed" s = false → showing (vis s o) s (handle_output high_volume o s).
Proof.
  intros Hk. unfold handle_output. rewrite typed_split.
  assert (changes [] report_effect s (type_reports o (_recordRunOutputCoalescing (VObj o) s))) as Hc.
  { eapply changes_trans; [apply (tame_coalescing (VObj o))|apply tame_type_reports]. }
  set (s1 := type_reports _ _) in *. clearbody s1. unfold flag in *.
  rewrite (changes_field _ _ _ _ _ Hc), Hk by apply not_elem_of_nil.
  set (text := get _ (js "text")). set (s2 := on _ _ s1).
  assert (changes ["unknownCommand"] report_effect s s2) as Hc2.
  { eapply changes_trans; [by apply report_keys|]. apply tame_on, tame_unsupported. }
  apply (showing_trans [] (vis s o) _ s2); [by eapply showing_report|].
  rewrite <-(visible_same _ _ _ _ _ o Hc2) by (apply (bool_decide_unpack _); vm_compute; exact I).
  apply output_lines_shown.
Qed.

Lemma handle_batch_shown msg s :
  flag "killed" s = false → Forall plain_line (items_of (get msg (js "lines"))) →
  showing (flat_map (λ raw, vis s (as_message raw)) (items_of (get msg (js "lines")))) s
          (_handleRunOutputBatch high_volume msg s).
Proof.
  intros Hk Ho. unfold _handleRunOutputBatch. rewrite Hk. set (s1 := _recordRunOutputCoalescing msg s).
  pose proof (tame_coalescing msg s) as Hc. fold s1 in Hc. clearbody s1.
  destruct (items_of (get msg (js "lines"))) as [|raw raws]; [by eapply showing_report|].
  destruct (batch_messages _ _ _ _) as [entries s2] eqn:E.
  pose proof (batch_messages_shown _ _ _ _ _ Ho E) as Ht. cbn [map app] in Ht.
  set (lines := flat_map _ _).
  apply (showing_trans [] lines _ s1); [by eapply showing_report|].
  apply (showing_trans [] lines _ s2); [by eapply showing_report, tame_batch_messages|]. unfold lines.
  assert (∀ l, flat_map (λ raw, vis s (as_message raw)) l = flat_map (λ raw, vis s1 (as_message raw)) l) as ->.
  { intros l. apply flat_map_ext. intros r. by rewrite (visible_same _ _ _ _ _ _ Hc) by apply not_elem_of_nil. }
  rewrite <-Ht. destruct entries as [|e entries]; [by exists []; rewrite app_nil_r|].
  eexists. split; [reflexivity|]. cbn. by rewrite app_nil_r.
Qed.

(** A message changes neither what is visible nor whether the tab is killed. *)
Lemma output_keeps m s o :
  brings_output m → vis (handle m s) o = vis s o ∧ flag "killed" (handle m s) = flag "killed" s.
Proof.
  intros Hm. pose proof (tame_message pg high_volume max_lines m Hm s) as Hc. split.
  - apply (visible_same _ _ _ _ _ _ Hc). apply (bool_decide_unpack _). vm_compute. exact I.
  - unfold flag. rewrite (changes_field _ _ _ _ _ Hc); [done|]. apply (bool_decide_unpack _). vm_compute. exact I.
Qed.

(** Noting the place shows nothing and hides nothing. *)
Lemma noted_same m s :
  showing [] s (noted m s) ∧ (∀ o, vis (noted m s) o = vis s o) ∧ flag "killed" (noted m s) = flag "killed" s.
Proof.
  assert (changes ["lastEventId"] report_effect s (noted m s)) as Hc by (apply tame_on, tame_put; by left).
  split; [by eapply showing_report|]. split.
  - intros o. apply (visible_same _ _ _ _ _ _ Hc). apply (bool_decide_unpack _). vm_compute. exact I.
  - unfold flag. rewrite noted_field; [done|by vm_compute].
Qed.

Lemma messages_shown ms os s :
  Forall2 (of_type "output") ms os → flag "killed" s = false →
  showing (flat_map (vis s) os) s (fold_left (λ s m, handle m s) ms s).
Proof.
  intros Hm. revert s. induction Hm as [|m o ms os Hmo _ IH]; intros s Hk; cbn [fold_left flat_map].
  { exists []. by rewrite app_nil_r. }
  assert (brings_output m) as Hb by (apply (of_type_output _ _ _ Hmo); right; right; by left).
  apply (showing_trans _ _ _ (handle m s)).
  - rewrite (handle_output_message _ _ _ m o s Hmo). destruct (noted_same m s) as (Hn & Hv & Hk').
    apply (showing_trans [] (vis s o) _ (noted m s)); [done|]. rewrite <-Hv.
    apply handle_output_shown. by rewrite Hk'.
  - assert (flat_map (vis s) os = flat_map (vis (handle m s)) os) as ->.
    { apply flat_map_ext. intros o'. by destruct (output_keeps m s o' Hb) as [-> _]. }
    apply IH. by destruct (output_keeps m s o Hb) as [_ ->].
Qed.
End Shown.

(** ** Properties *)

Section Properties.
Context (pg : page) (high_volume : bool) (max_lines : jsval) (secs : option num).
Notation handle := (_handleRunStreamMessage pg high_volume max_lines).

(** The place in the stream after some events that bring output. *)
Lemma last_event_noted s m :
  has_tab s = true → brings_output m → truthy (sm_event_id m) = true →
  field "lastEventId" (handle m s) = VStr (str_of (sm_event_id m)).
Proof.
  intros Ht (o & Ho & Hty) Hid. unfold _handleRunStreamMessage. rewrite Ho, Hid. cbn [is_objectlike negb on].
  rewrite (changes_field _ _ _ _ _ (tame_dispatch pg high_volume max_lines o Hty _))
    by (apply (bool_decide_unpack _); vm_compute; exact I).
  by apply field_put_eq.
Qed.

(** A kill is never lost. When the user kills a run the server has not yet
    named, the tab is killed at once and the request waits; whatever output
    messages come before, the message that names the run sends exactly one
    request to kill that very run; nothing is pending afterwards, and the tab
    stays killed, without a running id but still knowing its run. *)
Theorem early_kill_reaches_run s msgs m o :
  has_tab s = true → is_running s = true → truthy (field "runId" s) = false →
  Forall brings_output msgs → of_type "started" m o → truthy (get (VObj o) (js "run_id")) = true →
  let runId := get (VObj o) (js "run_id") in
  let s' := handle m (fold_left (λ s m, handle m s) msgs (doKill pg secs s)) in
  (∃ es, v_effects s' = v_effects s ++ es ∧ omap kill_target es = [runId])
  ∧ flag "pendingKill" s' = false ∧ flag "killed" s' = true
  ∧ field "runId" s' = VNull ∧ field "historyRunId" s' = runId.
Proof.
  intros Ht Hr Hi Hm Hst Hid runId s'.
  destruct (early_kill pg secs s Ht Hr Hi) as (Ht1 & Hp1 & Hk1 & es1 & He1 & Hes1).
  pose proof (tame_messages pg high_volume max_lines msgs (doKill pg secs s) Hm) as Hc. unfold handle_all in Hc.
  unfold s'. set (s2 := fold_left _ _ _) in *. clearbody s2.
  rewrite (handle_started pg high_volume max_lines m o s2 Hst). fold runId.
  assert (∀ k, k ∈ ["pendingKill"; "killed"]%string → field k (noted m s2) = field k (doKill pg secs s)) as Hf.
  { intros k Hk. rewrite noted_field, (changes_field _ _ _ _ _ Hc); [done| |];
      rewrite !elem_of_cons, elem_of_nil in Hk; destruct Hk as [->|[->|[]]]; apply (bool_decide_unpack _); vm_compute; exact I. }
  destruct Hc as (Ht2 & _ & es2 & He2 & Hes2).
  destruct (start_pending (noted m s2) runId) as (H1 & H2 & H3 & H4 & es3 & He3 & Hes3).
  - rewrite noted_tab, Ht2. exact Ht1.
  - unfold flag. rewrite Hf by by left. exact Hp1.
  - done.
  - split; [|split; [done|split; [|done]]].
    + exists (es1 ++ es2 ++ es3 ++ [KillRequest runId]).
      rewrite He3, noted_effects, He2, He1, !omap_app, <-!(assoc_L (++)). split; [done|].
      assert (Forall no_kill es2) as Hes2' by (eapply Forall_impl; [exact Hes2|]; by intros []).
      by rewrite (omap_none kill_target es1), (omap_none kill_target es2), (omap_none kill_target es3).
    + rewrite H4. unfold flag. rewrite Hf by (right; by left). exact Hk1.
Qed.

(** A killed run falls silent. Whatever output still arrives for a killed
    tab, and then the end of its run, no line is shown and no result is
    completed; with the end the tab has no run any more and is no longer
    killed, so that it can run again. *)
Theorem killed_run_is_silent s msgs m o :
  has_tab s = true → flag "killed" s = true →
  Forall (λ m, ∃ o, of_type "output" m o ∨ of_type "output_batch" m o) msgs → of_type "exit" m o →
  let s' := handle m (fold_left (λ s m, handle m s) msgs s) in
  (∃ es, v_effects s' = v_effects s ++ es ∧ Forall (λ e, shows e = false) es)
  ∧ flag "killed" s' = false ∧ field "runId" s' = VNull.
Proof.
  intros Ht Hk Hm Hx s'.
  assert (changes ["lastEventId"] quiet s (fold_left (λ s m, handle m s) msgs s)) as Hc.
  { clear -Hk Hm. revert s Hk. induction Hm as [|m msgs (o & Ho) _ IH]; intros s Hk; cbn [fold_left]; [apply changes_refl|].
    pose proof (killed_output pg high_volume max_lines m o s Ho Hk) as Hc. eapply changes_trans; [exact Hc|]. apply IH.
    unfold flag in *. rewrite (changes_field _ _ _ _ _ Hc); [done|]. apply (bool_decide_unpack _). vm_compute. exact I. }
  unfold s'. set (s1 := fold_left _ _ _) in *. clearbody s1. rewrite (handle_exit_message pg high_volume max_lines m o s1 Hx).
  destruct (exit_killed pg max_lines (VObj o) (noted m s1)) as (Hr & Hk' & es & He & Hes).
  - rewrite noted_tab. destruct Hc as [-> _]. done.
  - unfold flag in *. rewrite noted_field by by vm_compute. rewrite (changes_field _ _ _ _ _ Hc); [done|].
    apply (bool_decide_unpack _). vm_compute. exact I.
  - split; [|done]. destruct Hc as (_ & _ & es1 & He1 & Hes1). exists (es1 ++ es).
    rewrite He, noted_effects, He1, <-(assoc_L (++)), Forall_app. done.
Qed.

(** C19: A batch hands the output the same lines. From a batch the output gets,
    in order, exactly the lines the messages it stands for would have brought
    one by one: with the same text, class and live mark, and the same kind,
    role, signals, line index, command root, target and entities; the lines to
    suppress are left out of both, and the batch types each line twice, which
    changes none of these. The lines are objects and no schema events, have no
    live mark of their own, and their numbers print as decimal integers. (What
    the output makes of them is another matter: a list and single lines differ
    once the high-volume mode starts. And of a noise kind, its reason and a line
    number only the batch tells the output.) *)
Theorem batches_are_transparent s m o :
  let raws := items_of (get (VObj o) (js "lines")) in
  flag "killed" s = false → of_type "output_batch" m o → Forall plain_line raws →
  let singly := fold_left (λ s m, handle m s) (map (λ raw, SseMsg (VObj (as_message raw)) VUndef) raws) s in
  ∃ es es', v_effects (handle m s) = v_effects s ++ es ∧ v_effects singly = v_effects s ++ es'
    ∧ flat_map shown es = flat_map shown es'
    ∧ flat_map shown es = flat_map (λ raw, visible high_volume s (as_message raw)) raws.
Proof.
  intros raws Hk Hm Hr singly.
  destruct (messages_shown pg high_volume max_lines
              (map (λ raw, SseMsg (VObj (as_message raw)) VUndef) raws) (map as_message raws) s) as (es' & He' & Hs'); [|done|].
  { apply Forall2_fmap_l, Forall2_fmap_r. clearbody raws. induction Hr as [|raw raws (_ & Hev & _) _ IH]; constructor; [|done].
    split; [done|]. split; [apply own_set_eq|done]. }
  destruct (noted_same high_volume m s) as (Hn & Hv & Hk').
  destruct (showing_trans [] (flat_map (λ raw, visible high_volume s (as_message raw)) raws) s (noted m s) (handle m s)) as (es & He & Hs); [done| |].
  { rewrite (handle_batch_message _ _ _ m o s Hm).
    assert (flat_map (λ raw, visible high_volume s (as_message raw)) raws = flat_map (λ raw, visible high_volume (noted m s) (as_message raw)) raws) as ->
      by by apply flat_map_ext.
    apply handle_batch_shown; [by rewrite Hk'|done]. }
  exists es, es'. rewrite (flat_map_concat_map (visible high_volume s)), map_map, <-flat_map_concat_map in Hs'. cbn [app] in Hs. by rewrite Hs, Hs'.
Qed.

(** A run completes once. The end of a run nobody killed hands exactly one
    result to the completion coordinator, under the key of the run, a success
    exactly when the exit code is zero; however often the end of the same run
    is delivered, and whatever else changed the tab in between, the
    coordinator turns the later result away and does nothing. *)
Theorem exit_completes_once s1 m1 o1 s2 m2 o2 runId cb c :
  has_tab s1 = true → flag "killed" s1 = false → of_type "exit" m1 o1 → field "historyRunId" s1 = VStr runId →
  has_tab s2 = true → flag "killed" s2 = false → of_type "exit" m2 o2 → field "historyRunId" s2 = VStr runId →
  runId ≠ [] →
  ∃ es1 es2 r1 r2,
    v_effects (handle m1 s1) = v_effects s1 ++ es1 ∧ omap completion es1 = [r1]
    ∧ v_effects (handle m2 s2) = v_effects s2 ++ es2 ∧ omap completion es2 = [r2]
    ∧ r_completionKey r1 = js "run:" ++ runId
    ∧ r_status r1 = (if neqb (to_number (get (VObj o1) (js "code"))) num_zero then Ok else Fail)
    ∧ field "runId" (handle m1 s1) = VNull
    ∧ let '(_, _, c1) := complete cb (VObj (result_props r1)) (VObj []) c in
      complete cb (VObj (result_props r2)) (VObj []) c1 = (false, r2, c1).
Proof.
  assert (∀ s m o, has_tab s = true → flag "killed" s = false → of_type "exit" m o →
    field "historyRunId" s = VStr runId → runId ≠ [] →
    ∃ es r, v_effects (handle m s) = v_effects s ++ es ∧ omap completion es = [r] ∧ result_ok r
      ∧ r_completionKey r = js "run:" ++ runId
      ∧ r_status r = (if neqb (to_number (get (VObj o) (js "code"))) num_zero then Ok else Fail)
      ∧ field "runId" (handle m s) = VNull) as Hone.
  { intros s m o Ht Hk Hx Hh Hne. rewrite (handle_exit_message pg high_volume max_lines m o s Hx).
    destruct (exit_settled pg max_lines (VObj o) (noted m s)) as (Hr & _ & s' & es & es' & Hh' & Hq & Hq' & He).
    - by rewrite noted_tab.
    - unfold flag in *. rewrite noted_field; [done|by vm_compute].
    - pose proof (exit_result_status pg max_lines (VObj o) s') as Hst.
      pose proof (exit_result_key pg max_lines (VObj o) s') as Hkey.
      pose proof (exit_result_ok pg max_lines (VObj o) s') as Hok.
      set (r := normalizeCommandResult _ _) in *. clearbody r. exists (es ++ CompleteCommand r :: es'), r.
      assert (∀ l, Forall quiet l → omap completion l = []) as Hno.
      { intros l Hl. apply omap_none. eapply Forall_impl; [exact Hl|]. by intros []. }
      rewrite He, noted_effects, omap_app, Hno by done. cbn [omap list_omap completion app]. rewrite Hno by done.
      do 3 (split; [done|]). split; [|by rewrite Hst]. rewrite Hkey.
      unfold run_key. rewrite Hh', noted_field, Hh by by vm_compute.
      destruct runId; [done|]. done. }
  intros Ht1 Hk1 Hx1 Hh1 Ht2 Hk2 Hx2 Hh2 Hne.
  destruct (Hone s1 m1 o1) as (es1 & r1 & He1 & Hr1 & Ho1 & Hkey1 & Hst1 & Hrun1); [done..|].
  destruct (Hone s2 m2 o2) as (es2 & r2 & He2 & Hr2 & Ho2 & Hkey2 & _ & _); [done..|].
  exists es1, es2, r1, r2. do 7 (split; [done|]).
  pose proof (complete_known cb r1 c Ho1) as Hin. destruct (complete _ _ _ c) as [[ok r] c1]. cbn in Hin.
  apply complete_again; [done|]. by rewrite Hkey2, <-Hkey1.
Qed.

(** A paused stream is resumed where it stopped. When a tab has handled
    events that bring output, up to the event [e], and its paused stream is
    resumed with nothing left in its queue, the new request asks for what
    comes after [e]: nothing is skipped and nothing is sent twice. *)
Theorem resume_asks_for_rest network_message tabId (w : world view) i s t0 es e :
  has_tab t0 = true → fst e ≠ [] → Forall brings_output (map event_message (es ++ [e])) →
  w_tab w = fold_left (λ t m, handle m t) (map event_message (es ++ [e])) t0 →
  w_current w = Some i → w_streams w !! i = Some s →
  sr_pausedForApi s = true → sr_detached s = false → sr_reader s = false →
  is_running t0 = true → field "runId" t0 = VStr (sr_runId s) → sr_runId s ≠ [] → tabId ≠ [] →
  w_requests (happen (H := run_stream_tab pg high_volume max_lines network_message) tabId Resume w)
  = w_requests w ++ [_brokerStreamUrl (sr_runId s) tabId (sr_streamUrl s) (fst e)].
Proof.
  intros Ht Hne Hm Hw Hc Hs Hp Hd Hrd Hrun Hid Hrid Htid.
  set (msgs := map event_message (es ++ [e])) in *.
  pose proof (tame_messages pg high_volume max_lines msgs t0 Hm) as Hch. unfold handle_all in Hch. rewrite <-Hw in Hch.
  assert (∀ k, k ∈ ["st"; "runId"]%string → field k (w_tab w) = field k t0) as Hf.
  { intros k Hk. apply (changes_field _ _ _ _ _ Hch). rewrite !elem_of_cons, elem_of_nil in Hk.
    destruct Hk as [->|[->|[]]]; apply (bool_decide_unpack _); vm_compute; exact I. }
  assert (field "lastEventId" (w_tab w) = VStr (fst e)) as Hlast.
  { rewrite Hw. unfold msgs in *. rewrite map_app, fold_left_app in *. apply Forall_app in Hm as [Hm1 Hm2].
    cbn [map fold_left] in *. apply Forall_cons in Hm2 as [Hm2 _].
    assert (truthy (sm_event_id (event_message e)) = true) as Hid' by (cbn; by apply nonempty_spec).
    rewrite last_event_noted; [cbn; f_equal; apply str_of_VStr| |done..].
    destruct (tame_messages pg high_volume max_lines _ t0 Hm1) as [Hts _]. by rewrite <-Ht, <-Hts. }
  cbn [happen]. unfold resumeBackgroundRunStreamsAfterStatusMonitor, current. rewrite Hc. cbn [mbind option_bind].
  rewrite Hs, Hp, Hd, Hrd. cbn [negb orb]. unfold resubscribe. cbn [tab_running run_stream_tab w_tab register].
  unfold is_running in *. rewrite !Hf by (first [by left | by right; left]). rewrite Hid, Hrun.
  assert (nonempty (sr_runId s) = true) as Hn by by apply nonempty_spec.
  assert (nonempty tabId = true) as Hn' by by apply nonempty_spec.
  cbn [is_str]. rewrite Hn, bool_decide_true by done. cbn [andb orb].
  unfold _subscribeRunStream, current. rewrite Hn, Hn'. cbn. unfold _streamResumeAfterId. cbn [tab_lastEventId run_stream_tab].
  rewrite Hlast, str_of_VStr. do 3 f_equal. unfold str_or. by rewrite (proj2 (nonempty_spec _) Hne).
Qed.
End Properties.

(** ** Runs *)

Definition demo_page : page := Page (js "t1") true false false (js "c1").
Definition demo_view (fields : props) : view := View (Some fields) [] false [].
Definition demo_message (o : props) : sse_msg := SseMsg (VObj o) VUndef.
Definition output_of (text : string) : props := [(js "type", vstr "output"); (js "text", vstr text)].
Definition demo_started : props := [(js "type", vstr "started"); (js "run_id", vstr "r1")].
Definition demo_exit : props := [(js "type", vstr "exit"); (js "code", VNum num_zero)].
Definition demo_batch : props :=
  [(js "type", vstr "output_batch");
   (js "lines", VArr [VObj [(js "text", vstr "one")]; VObj [(js "text", vstr "two"); (js "kind", vstr "info")]])].

Lemma demo_output_brings text : brings_output (demo_message (output_of text)).
Proof. exists (output_of text). split; [done|]. right. right. by left. Qed.

Lemma early_kill_reaches_run_witness :
  let s := demo_view [(js "st", vstr "running"); (js "command", vstr "ping host")] in
  let s' := _handleRunStreamMessage demo_page false VUndef (demo_message demo_started)
              (fold_left (λ s m, _handleRunStreamMessage demo_page false VUndef m s)
                 [demo_message (output_of "late")] (doKill demo_page None s)) in
  flag "killed" s' = true ∧ field "historyRunId" s' = vstr "r1".
Proof.
  destruct (early_kill_reaches_run demo_page false VUndef None
              (demo_view [(js "st", vstr "running"); (js "command", vstr "ping host")])
              [demo_message (output_of "late")] (demo_message demo_started) demo_started)
    as (_ & _ & Hk & _ & Hh).
  - reflexivity.
  - vm_compute. reflexivity.
  - vm_compute. reflexivity.
  - constructor; [apply demo_output_brings|constructor].
  - split; [reflexivity|]. split; vm_compute; reflexivity.
  - vm_compute. reflexivity.
  - split; [exact Hk|exact Hh].
Defined.

Lemma killed_run_is_silent_witness :
  let s := demo_view [(js "st", vstr "killed"); (js "killed", VBool true); (js "runId", vstr "r1")] in
  let s' := _handleRunStreamMessage demo_page false VUndef (demo_message demo_exit)
              (fold_left (λ s m, _handleRunStreamMessage demo_page false VUndef m s)
                 [demo_message (output_of "late"); demo_message demo_batch] s) in
  flag "killed" s' = false ∧ field "runId" s' = VNull.
Proof.
  destruct (killed_run_is_silent demo_page false VUndef
              (demo_view [(js "st", vstr "killed"); (js "killed", VBool true); (js "runId", vstr "r1")])
              [demo_message (output_of "late"); demo_message demo_batch] (demo_message demo_exit) demo_exit)
    as (_ & Hk & Hr).
  - reflexivity.
  - vm_compute. reflexivity.
  - constructor; [exists (output_of "late"); left|constructor; [exists demo_batch; right|constructor]];
      (split; [reflexivity|]; split; vm_compute; reflexivity).
  - split; [reflexivity|]. split; vm_compute; reflexivity.
  - split; [exact Hk|exact Hr].
Defined.

Definition typed_batch : props :=
  [(js "type", vstr "output_batch");
   (js "lines", VArr
     [VObj [(js "text", VStr (js "one" ++ [10] ++ js "two")); (js "kind", vstr "notice"); (js "line_index", vint 4);
            (js "noise_kind", vstr "progress")];
      VObj [(js "text", vstr "open 80"); (js "signals", VArr [vstr "findings"]);
            (js "entities", VArr [VObj [(js "type", vstr "port"); (js "canonical_value", vstr "80"); (js "start", vint 5); (js "end", vint 7)]])]])].
(** The noise kind of a line reaches the output from a batch only. *)
Example example_noise_kind :
  let line := VObj [(js "text", vstr "50%"); (js "v", vint 1); (js "noise_kind", vstr "progress")] in
  let s := demo_view [(js "st", vstr "running")] in
  let noise e := match e with
                 | AppendLine _ _ md => [get (VObj (default [] md)) (js "noise_kind")]
                 | AppendLines l => map (λ e, get e (js "noise_kind")) l
                 | _ => []
                 end in
  let after m := flat_map noise (v_effects (_handleRunStreamMessage demo_page false VUndef (demo_message m) s)) in
  after [(js "type", vstr "output_batch"); (js "lines", VArr [line])] = [vstr "progress"]
  ∧ after (as_message line) = [VUndef].
Proof. by vm_compute. Qed.
Lemma batches_are_transparent_witness :
  let s := demo_view [(js "st", vstr "running"); (js "command", vstr "ping host")] in
  ∃ es, v_effects (_handleRunStreamMessage demo_page false VUndef (demo_message typed_batch) s) = v_effects s ++ es
        ∧ map (λ f, (fst (fst f), snd (fst f))) (flat_map shown es) = [(vstr "one", vstr "notice"); (vstr "two", vstr "notice"); (vstr "open 80", vstr "")].
Proof.
  destruct (batches_are_transparent demo_page false VUndef
              (demo_view [(js "st", vstr "running"); (js "command", vstr "ping host")])
              (demo_message typed_batch) typed_batch) as (es & _ & He & _ & _ & Hs).
  - vm_compute. reflexivity.
  - split; [reflexivity|]. split; vm_compute; reflexivity.
  - repeat (constructor; [split; [vm_compute; reflexivity|]; split; [vm_compute; reflexivity|]; split; [vm_compute; reflexivity|];
      split; [vm_compute; first [reflexivity|exact I]|repeat constructor; vm_compute; first [reflexivity|exact I]]|]). constructor.
  - exists es. split; [exact He|]. rewrite Hs. vm_compute. reflexivity.
Defined.

Lemma exit_completes_once_witness :
  let s := demo_view [(js "st", vstr "running"); (js "historyRunId", vstr "r1")] in
  ∃ es r, v_effects (_handleRunStreamMessage demo_page false VUndef (demo_message demo_exit) s) = v_effects s ++ es
          ∧ omap completion es = [r] ∧ r_completionKey r = js "run:r1" ∧ r_status r = Ok.
Proof.
  pose (s := demo_view [(js "st", vstr "running"); (js "historyRunId", vstr "r1")]).
  assert (of_type "exit" (demo_message demo_exit) demo_exit) as Hx
    by (split; [reflexivity|]; split; vm_compute; reflexivity).
  destruct (exit_completes_once demo_page false VUndef s (demo_message demo_exit) demo_exit
              s (demo_message demo_exit) demo_exit (js "r1")
              (Callbacks false false false false false false false (λ _ _, false)) (Coordinator [] [] [] []))
    as (es & _ & r & _ & He & Hr & _ & _ & Hk & Hst & _); try exact Hx; try (vm_compute; reflexivity); [discriminate|].
  exists es, r. split; [exact He|]. split; [exact Hr|]. split; [exact Hk|]. rewrite Hst. vm_compute. reflexivity.
Defined.

Lemma resume_asks_for_rest_witness :
  let t0 := demo_view [(js "st", vstr "running"); (js "runId", vstr "r1")] in
  let t := _handleRunStreamMessage demo_page false VUndef (event_message (js "5-0", output_of "hi")) t0 in
  let s := Stream (js "r1") [] [] false false true false false Reading new_mailbox in
  w_requests (happen (H := run_stream_tab demo_page false VUndef []) (js "t1") Resume (World [s] (Some 0%nat) t []))
  = [Some (js "/runs/r1/stream?tab_id=t1&after=5-0")].
Proof.
  pose (t0 := demo_view [(js "st", vstr "running"); (js "runId", vstr "r1")]).
  pose (t := _handleRunStreamMessage demo_page false VUndef (event_message (js "5-0", output_of "hi")) t0).
  pose (s := Stream (js "r1") [] [] false false true false false Reading new_mailbox).
  etransitivity; [apply (resume_asks_for_rest demo_page false VUndef [] (js "t1") (World [s] (Some 0%nat) t [])
                    0%nat s t0 [] (js "5-0", output_of "hi"));
    lazymatch goal with |- _ = _ => reflexivity | |- _ ≠ _ => discriminate | _ => idtac end|].
  - constructor; [|constructor]. exists (set_prop (js "event_id") (VStr (js "5-0")) (output_of "hi")).
    split; [reflexivity|]. right. right. left. vm_compute. reflexivity.
  - vm_compute. reflexivity.
Defined.
