(* ===== verification/TabList.v ===== *)
(** The list of tabs (app/static/js/tabs.js,
    app/static/js/features/tabs/tab_close_lifecycle.js): opening, switching,
    reordering and closing tabs while their runs go on, with the dialogs that
    ask what to do with a running one. *)

From S2P Require Import Prelude JsString JsNumber JsRegExp JsValue AppState CommandLifecycle RunStream RunTab RunLifecycle.

(** ** Definitions: the world of the tabs *)

(** A tab: its id and the other properties of its object. *)
Record tab := Tab { tb_id : jsstr; tb_obj : props }.

(** A dialog that asks about a running tab keeps the position it had. *)
Record dialog := Dialog { dg_id : jsstr; dg_idx : Z; dg_canDetach : bool }.
Inductive choice := ChooseDetach | ChooseKill | ChooseCancel.

Inductive call :=
  | OnTab (id : jsstr) (e : effect)
  | MarkDetached (runId : jsval)              (* markActiveRunDetachedForRestore *)
  | DetachStream (id : jsstr) | DetachPty (id : jsstr)
  | TabEvent (name : string) (id : jsstr) (active : jsstr)
  | LimitToast.

Record tabs := Tabs
  { ts_list : list tab; ts_active : jsstr; ts_seq : Z; ts_composer : jsstr;
    ts_dialogs : list dialog; ts_calls : list call }.

Definition with_list (l : list tab) (w : tabs) : tabs :=
  Tabs l (ts_active w) (ts_seq w) (ts_composer w) (ts_dialogs w) (ts_calls w).
Definition with_dialogs (l : list dialog) (w : tabs) : tabs :=
  Tabs (ts_list w) (ts_active w) (ts_seq w) (ts_composer w) l (ts_calls w).
Definition with_composer (text : jsstr) (w : tabs) : tabs :=
  Tabs (ts_list w) (ts_active w) (ts_seq w) text (ts_dialogs w) (ts_calls w).
Definition calling (cs : list call) (w : tabs) : tabs :=
  Tabs (ts_list w) (ts_active w) (ts_seq w) (ts_composer w) (ts_dialogs w) (ts_calls w ++ cs).
Definition announce (name : string) (id : jsstr) (w : tabs) : tabs :=
  calling [TabEvent name id (ts_active w)] w.

Definition ids (w : tabs) : list jsstr := map tb_id (ts_list w).
Definition _tabById (id : jsstr) (w : tabs) : option props := tb_obj <$> findb (λ t, tb_id t ==s id) (ts_list w).
(** [list.findIndex(t => t.id === id)]. *)
Definition index_of_tab (id : jsstr) (w : tabs) : Z :=
  match find_index (λ t, tb_id t ==s id) (ts_list w) with Some i => Z.of_nat i | None => -1 end.
(** [list[i]]. *)
Definition at_index {A} (i : Z) (l : list A) : option A := if i <? 0 then None else l !! Z.to_nat i.
(** [list.splice(i, 1)]: a negative position counts from the end. *)
Definition splice_out {A} (i : Z) (l : list A) : list A :=
  let i := if i <? 0 then Z.max 0 (Z.of_nat (length l) + i) else i in
  delete (Z.to_nat i) l.

Definition set_tab (k : string) (v : jsval) (o : props) : props := set_prop (js k) v o.
Definition update_tab (id : jsstr) (f : props → props) (w : tabs) : tabs :=
  with_list (map (λ t, if tb_id t ==s id then Tab (tb_id t) (f (tb_obj t)) else t) (ts_list w)) w.
Definition tab_get (o : props) (k : string) : jsval := get (VObj o) (js k).
Definition running (o : props) : bool := is_str (tab_get o "st") (js "running").

(** ** Definitions: labels *)

Definition SHELL_LABEL_RE : regexp := Eval vm_compute in lit "^shell\s+(\d+)$" true.
(** The numbers of the labels that look like default ones. *)
Definition label_number (o : props) : list num :=
  let label := trim (str_of (tab_get o "label")) in
  match exec SHELL_LABEL_RE label with
  | Some m => let n := num_of_str (group_or 1 label m) in if is_finite n then [n] else []
  | None => []
  end.
Definition _nextDefaultTabNumber (w : tabs) : num :=
  match flat_map (λ t, label_number (tb_obj t)) (ts_list w) with
  | [] => num_of_Z 1
  | n :: l => nadd (fold_left num_max l n) (num_of_Z 1)
  end.
Definition createDefaultTabLabel (index : option Z) (w : tabs) : jsstr :=
  let next := match index with Some n => num_of_Z n | None => _nextDefaultTabNumber w end in
  js "shell " ++ num_to_str (num_max (num_of_Z 1) next).
Definition _truncateTabLabel (label : jsstr) : jsstr :=
  if (28 <? Z.of_nat (length label)) then take 26 label ++ js "…" else label.
Definition _tabDisplayLabel (o : props) : jsval :=
  if running o && truthy (tab_get o "runningLabel") then tab_get o "runningLabel"
  else js_or (tab_get o "label") (VStr []).
Definition setTabLabel (id label : jsstr) : tabs → tabs := update_tab id (set_tab "label" (VStr label)).

(** ** Definitions: switching *)

Section Tabs.
(** [max_tabs]: the configured limit, zero for none; [historyOpen]: whether the
    history panel is open; [clientId]: the id of this browser; [secs]: the
    elapsed time of the run in front. *)
Context (max_tabs : Z) (historyOpen : bool) (clientId : jsstr) (secs : option num).

(** [activateTab(id)], outside the restore of a session. *)
Definition activateTab (id : jsstr) (w : tabs) : tabs :=
  let prevId := ts_active w in
  let w1 :=
    if nonempty prevId && negb (prevId ==s id)
    then update_tab prevId
           (λ o, set_tab "draftInput" (VStr (if running o then [] else ts_composer w)) o) w
    else w in
  let draft := match _tabById id w1 with
               | Some o => if running o then [] else str_of (tab_get o "draftInput")
               | None => []
               end in
  let draft := if negb (nonempty prevId) && negb (nonempty draft) && nonempty (trim (ts_composer w))
               then ts_composer w else draft in
  announce "app:tab-activated" id
    (Tabs (ts_list w1) id (ts_seq w1) draft (ts_dialogs w1) (ts_calls w1)).

Definition new_tab (label : jsstr) : props :=
  [(js "label", VStr label); (js "runningLabel", VStr []); (js "runningLabelTimer", VNull);
   (js "command", VStr []); (js "runId", VNull); (js "historyRunId", VNull); (js "historyRunKind", VStr []);
   (js "lastEventId", VStr []); (js "attachMode", VStr []); (js "reconnectedRun", VBool false);
   (js "runStart", VNull); (js "currentRunStartIndex", VNull); (js "exitCode", VNull);
   (js "commandOutcomeSummary", VNull); (js "rawLines", VArr []); (js "previewTruncated", VBool false);
   (js "fullOutputAvailable", VBool false); (js "fullOutputLoaded", VBool false);
   (js "followOutput", VBool true); (js "outputUserScrollUntil", VNum num_zero);
   (js "suppressOutputScrollTracking", VBool false); (js "deferPromptMount", VBool false);
   (js "closing", VBool false); (js "killed", VBool false); (js "pendingKill", VBool false);
   (js "st", vstr "idle"); (js "renamed", VBool false); (js "workspaceCwd", VStr []);
   (js "draftInput", VStr []); (js "commandHistory", VArr []); (js "historyNavIndex", vint (-1));
   (js "historyNavDraft", VStr [])].

Definition tab_name (n : Z) : jsstr := js "tab-" ++ str_of_Z n.

(** [createTab(label)]: the id of the new tab, [None] at the limit. *)
Definition createTab (label : jsstr) (w : tabs) : option jsstr * tabs :=
  if (0 <? max_tabs) && (max_tabs <=? Z.of_nat (length (ts_list w))) then (None, calling [LimitToast] w) else
  let seq := ts_seq w + 1 in
  let id := tab_name seq in
  let stableLabel := if nonempty label then label else createDefaultTabLabel None w in
  let w := Tabs (ts_list w ++ [Tab id (new_tab stableLabel)]) (ts_active w) seq (ts_composer w)
                (ts_dialogs w) (ts_calls w) in
  (Some id, announce "app:tab-created" id (activateTab id w)).

(** The order of the tab elements on the page. *)
Definition syncTabOrderFromDom (orderedIds : list jsstr) (w : tabs) : tabs :=
  match orderedIds with
  | [] => w
  | _ => calling [TabEvent "app:tab-order-changed" [] (ts_active w)]
           (with_list (flat_map (λ id, match findb (λ t, tb_id t ==s id) (reverse (ts_list w)) with
                                       | Some t => [t] | None => [] end) orderedIds) w)
  end.

(** ** Definitions: what a run does to its tab *)

Definition page_of (id : jsstr) (w : tabs) : page :=
  Page id (ts_active w ==s id) (bool_decide (length (ts_list w) = 1)%nat) historyOpen clientId.

Definition other_tab (closingId : jsstr) (o : option tab) : option jsstr :=
  match o with Some t => if tb_id t ==s closingId then None else Some (tb_id t) | None => None end.
Definition _getNeighborTabIdAfterClose (idx : Z) (closingId : jsstr) (w : tabs) : option jsstr :=
  match other_tab closingId (at_index (idx + 1) (ts_list w)) with
  | Some id => Some id
  | None =>
      match other_tab closingId (at_index (idx - 1) (ts_list w)) with
      | Some id => Some id
      | None => tb_id <$> findb (λ t, negb (tb_id t ==s closingId)) (ts_list w)
      end
  end.

Definition activate_neighbor (idx : Z) (id : jsstr) (w : tabs) : tabs :=
  if negb (ts_active w ==s id) then w else
  match _getNeighborTabIdAfterClose idx id w with Some next => activateTab next w | None => w end.

Definition is_finalize (e : effect) : bool := match e with FinalizeClosingTab => true | _ => false end.

(** An action on the object of tab [id]; when it closes the tab for good and
    others are left, the tab leaves the list. *)
Definition on_tab (id : jsstr) (a : page → act) (w : tabs) : tabs :=
  let s := a (page_of id w) (View (_tabById id w) [] false []) in
  let w := calling (map (OnTab id) (v_effects s))
             (match v_tab s with Some o => update_tab id (λ _, o) w | None => w end) in
  if existsb is_finalize (v_effects s) && bool_decide (1 < length (ts_list w))%nat
     && bool_decide (id ∈ ids w)
  then
    let idx := index_of_tab id w in
    let w := with_list (splice_out idx (ts_list w)) w in
    activate_neighbor (Z.min idx (Z.of_nat (length (ts_list w)))) id w
  else w.

(** ** Definitions: closing *)

Definition _activateNeighborAfterClose (idx : Z) (id : jsstr) (w : tabs) : tabs :=
  activate_neighbor (Z.min idx (Z.of_nat (length (ts_list w)))) id w.
Definition _removeClosedTabView (id : jsstr) (idx : Z) (w : tabs) : tabs :=
  announce "app:tab-closed" id
    (_activateNeighborAfterClose idx id (with_list (splice_out idx (ts_list w)) w)).

(** The only tab is emptied instead. *)
Definition blank_tab (id : jsstr) (w : tabs) : tabs :=
  setTabLabel id (createDefaultTabLabel (Some 1) w) (on_tab id (λ pg, clearTab pg false) w).

Definition detachRunningTabAndClose (id : jsstr) (w : tabs) : tabs :=
  match _tabById id w with
  | None => w
  | Some o =>
      if negb (running o) then w else
      let runId := js_or (js_or (tab_get o "runId") (tab_get o "historyRunId")) (VStr []) in
      let w := update_tab id (set_tab "closing" (VBool false))
                 (calling [MarkDetached runId; DetachStream id; DetachPty id] w) in
      if bool_decide (length (ts_list w) = 1)%nat
      then announce "app:tab-closed" id (announce "app:tab-detached" id
             (blank_tab id (on_tab id (λ _, _resetPreservedSingleTabState) w)))
      else announce "app:tab-detached" id (_removeClosedTabView id (index_of_tab id w) w)
  end.

Definition _deferRunningTabCloseForKill (id : jsstr) (idx : Z) (w : tabs) : tabs :=
  match at_index idx (ts_list w) with
  | None => w
  | Some closingTab =>
      if negb (running (tb_obj closingTab)) then w else
      let w := update_tab (tb_id closingTab) (set_tab "closing" (VBool true)) w in
      let w := on_tab id (λ pg, doKill pg secs) w in
      let w := if bool_decide (1 < length (ts_list w))%nat then activate_neighbor idx id w else w in
      announce "app:tab-closing-deferred" id w
  end.

Definition confirmCloseRunningTab (id : jsstr) (w : tabs) : tabs :=
  match _tabById id w with
  | Some o =>
      if running o
      then with_dialogs (ts_dialogs w ++ [Dialog id (index_of_tab id w)
             (truthy (tab_get o "runId") || truthy (tab_get o "historyRunId"))]) w
      else w
  | None => w
  end.

(** The answer to an open dialog. *)
Definition answer_dialog (i : nat) (c : choice) (w : tabs) : tabs :=
  match ts_dialogs w !! i with
  | None => w
  | Some d =>
      let w := with_dialogs (delete i (ts_dialogs w)) w in
      match c with
      | ChooseDetach => if dg_canDetach d then detachRunningTabAndClose (dg_id d) w else w
      | ChooseKill => _deferRunningTabCloseForKill (dg_id d) (dg_idx d) w
      | ChooseCancel => w
      end
  end.

Definition closeTab (id : jsstr) (w : tabs) : tabs :=
  let idx := index_of_tab id w in
  let w := update_tab id (λ o,
             set_tab "deferPromptMount" (VBool false)
               (set_tab "suppressOutputScrollTracking" (VBool false)
                  (set_tab "_outputFollowToken"
                     (VNum (nadd (to_number (js_or (tab_get o "_outputFollowToken") (VNum num_zero))) (num_of_Z 1))) o))) w in
  if match _tabById id w with Some o => running o | None => false end then confirmCloseRunningTab id w
  else
    match ts_list w with
    | [t] => announce "app:tab-closed" id (blank_tab id (on_tab (tb_id t) (λ _, _resetPreservedSingleTabState) w))
    | _ => _removeClosedTabView id idx w
    end.

(** What can happen. *)
Inductive tab_event :=
  | Create (label : jsstr) | Activate (id : jsstr) | Typed (text : jsstr)
  | Reorder (orderedIds : list jsstr) | CloseTab (id : jsstr)
  | Answered (i : nat) (c : choice) | RunActs (id : jsstr) (a : page → act).
Definition tab_step (e : tab_event) (w : tabs) : tabs :=
  match e with
  | Create label => snd (createTab label w)
  | Activate id => activateTab id w
  | Typed text => with_composer text w
  | Reorder order => syncTabOrderFromDom order w
  | CloseTab id => closeTab id w
  | Answered i c => answer_dialog i c w
  | RunActs id a => on_tab id a w
  end.
Definition tab_steps (es : list tab_event) (w : tabs) : tabs := fold_left (λ w e, tab_step e w) es w.
End Tabs.

(** ** Lemmas: the list *)

Lemma ids_update id f w : ids (update_tab id f w) = ids w.
Proof. unfold ids, update_tab. cbn. rewrite map_map. apply map_ext. intros t. by case_bool_decide. Qed.

Lemma length_ids w : length (ids w) = length (ts_list w).
Proof. apply length_map. Qed.

Lemma find_index_ids id l :
  find_index (λ t, tb_id t ==s id) l = None ↔ id ∉ map tb_id l.
Proof.
  induction l as [|t l IH]; cbn; [split; [intros _; apply not_elem_of_nil|done]|].
  rewrite not_elem_of_cons. case_bool_decide as H; [naive_solver|].
  rewrite fmap_None, IH. naive_solver.
Qed.

Lemma index_lookup id w :
  id ∈ ids w → ∃ i, index_of_tab id w = Z.of_nat i ∧ ids w !! i = Some id ∧ (i < length (ts_list w))%nat.
Proof.
  intros Hin. unfold index_of_tab. destruct (find_index _ _) as [i|] eqn:E.
  - apply find_index_Some in E as (t & Ht & Hid). apply bool_decide_eq_true in Hid. exists i. split; [done|].
    split; [unfold ids; by rewrite list_lookup_fmap, Ht, <-Hid|by eapply lookup_lt_Some].
  - by apply find_index_ids in E.
Qed.

Lemma index_unknown id w : id ∉ ids w → index_of_tab id w = -1.
Proof. intros Hn. unfold index_of_tab. by rewrite (proj2 (find_index_ids _ _) Hn). Qed.

Lemma tabById_Some id w : is_Some (_tabById id w) ↔ id ∈ ids w.
Proof.
  unfold _tabById, ids. induction (ts_list w) as [|t l IH]; cbn.
  - split; [by intros [? ?]|by intros ?%elem_of_nil].
  - rewrite elem_of_cons. case_bool_decide as H; [split; [by left|by eexists]|]. rewrite IH. naive_solver.
Qed.

Lemma tabById_update id id' f w :
  _tabById id (update_tab id' f w) = if bool_decide (id = id') then f <$> _tabById id w else _tabById id w.
Proof.
  unfold _tabById, update_tab. cbn. induction (ts_list w) as [|t l IH]; cbn; [by case_bool_decide|].
  destruct (decide (tb_id t = id')) as [<-|Hne], (decide (tb_id t = id)) as [<-|Hne'];
    repeat (first [rewrite (bool_decide_true (tb_id t = tb_id t)) by done
                  |rewrite (bool_decide_false (tb_id t = id)) in * by done
                  |rewrite (bool_decide_false (tb_id t = id')) by done]; cbn); try done; try exact IH.
Qed.

Lemma splice_ids i w : (i < length (ts_list w))%nat →
  map tb_id (splice_out (Z.of_nat i) (ts_list w)) = delete i (ids w).
Proof.
  intros Hi. unfold splice_out. rewrite (proj2 (Z.ltb_ge (Z.of_nat i) 0)) by lia. rewrite Nat2Z.id.
  unfold ids. clear Hi. revert i. induction (ts_list w) as [|t l IH]; intros [|i]; cbn; try done.
  f_equal. apply IH.
Qed.

Lemma activate_ids id w : ids (activateTab id w) = ids w.
Proof. unfold activateTab. case_match; [|done]. eapply (ids_update (ts_active w)). Qed.
Lemma activate_active id w : ts_active (activateTab id w) = id.
Proof. done. Qed.
Lemma activate_seq id w : ts_seq (activateTab id w) = ts_seq w.
Proof. unfold activateTab. by case_match. Qed.

(** ** Lemmas: the tabs in order *)

(** The names are distinct and old, and one of them is in front. *)
Record tabs_ok (w : tabs) : Prop := {
  ok_ids : NoDup (ids w);
  ok_active : ts_active w ∈ ids w;
  ok_names : Forall (λ id, ∃ n, id = tab_name n ∧ (0 < n ≤ ts_seq w)%Z) (ids w) }.

Lemma tabs_ok_same w w' :
  tabs_ok w → ids w' = ids w → ts_active w' = ts_active w → ts_seq w' = ts_seq w → tabs_ok w'.
Proof. intros [] Hi Ha Hs. constructor; rewrite ?Hi, ?Ha, ?Hs; done. Qed.

Lemma tabs_ok_update id f w : tabs_ok w → tabs_ok (update_tab id f w).
Proof. intros H. apply (tabs_ok_same w); [done|apply ids_update|done..]. Qed.

Lemma tabs_ok_activate id w : tabs_ok w → id ∈ ids w → tabs_ok (activateTab id w).
Proof.
  intros [] Hid. constructor; by rewrite ?activate_ids, ?activate_seq.
Qed.

Lemma delete_ids_elem (l : list jsstr) i id x :
  NoDup l → l !! i = Some id → x ∈ l → x ≠ id → x ∈ delete i l.
Proof.
  intros Hn Hi Hx Hne. apply list_elem_of_lookup in Hx as [j Hj]. apply list_elem_of_lookup.
  destruct (decide (j < i)%nat).
  - exists j. by rewrite list_lookup_delete_lt.
  - destruct (decide (j = i)) as [->|]; [congruence|]. exists (pred j). destruct j as [|j]; [lia|].
    by rewrite list_lookup_delete_ge by (simpl; lia).
Qed.

Lemma delete_not_elem (l : list jsstr) i id : NoDup l → l !! i = Some id → id ∉ delete i l.
Proof.
  intros Hn Hi. rewrite delete_take_drop. rewrite <-(take_drop_middle l i id Hi) in Hn.
  apply NoDup_app in Hn as (_ & Hd & Hn). apply NoDup_cons in Hn as [Hn _].
  rewrite not_elem_of_app. split; [|done]. intros Hin. apply (Hd id Hin). by left.
Qed.

Lemma neighbor_elem idx id w next : _getNeighborTabIdAfterClose idx id w = Some next → next ∈ ids w ∧ next ≠ id.
Proof.
  unfold _getNeighborTabIdAfterClose.
  assert (∀ i x, at_index i (ts_list w) = Some x → tb_id x ∈ ids w) as Hat.
  { intros i x. unfold at_index. case_match; [done|]. intros Hx. unfold ids.
    apply list_elem_of_fmap_2. by eapply list_elem_of_lookup_2. }
  assert (∀ i x, other_tab id (at_index i (ts_list w)) = Some x → x ∈ ids w ∧ x ≠ id) as Ho.
  { intros i x. unfold other_tab. destruct (at_index i (ts_list w)) as [t|] eqn:E; [|done].
    case_bool_decide; [done|]. intros [= <-]. split; [by eapply Hat|done]. }
  destruct (other_tab id (at_index (idx + 1) _)) as [x|] eqn:E1; [intros [= <-]; by eapply Ho|].
  destruct (other_tab id (at_index (idx - 1) _)) as [x|] eqn:E2; [intros [= <-]; by eapply Ho|].
  intros Hf. apply fmap_Some in Hf as (t & Ht & ->). apply findb_Some in Ht as [Hin Hne].
  apply negb_true_iff, bool_decide_eq_false in Hne. split; [|done]. unfold ids. by apply list_elem_of_fmap_2.
Qed.

Lemma neighbor_some idx id x w : x ∈ ids w → x ≠ id → is_Some (_getNeighborTabIdAfterClose idx id w).
Proof.
  intros Hx Hne. unfold _getNeighborTabIdAfterClose. case_match; [by eexists|]. case_match; [by eexists|].
  apply list_elem_of_fmap in Hx as (t & -> & Ht).
  destruct (findb _ (ts_list w)) as [t'|] eqn:E; [by eexists|].
  rewrite findb_None in E. specialize (E t Ht). apply negb_false_iff, bool_decide_eq_true in E. done.
Qed.

(** Leaving the list at its own position, the next tab in front. *)
Lemma tabs_ok_remove id w k :
  tabs_ok w → id ∈ ids w → (1 < length (ts_list w))%nat →
  let w' := activate_neighbor k id (with_list (splice_out (index_of_tab id w) (ts_list w)) w) in
  tabs_ok w' ∧ ids w' ⊆ ids w ∧ id ∉ ids w' ∧ (∀ x, x ∈ ids w → x ≠ id → x ∈ ids w').
Proof.
  intros [Hn Ha Hnm] Hid Hl. destruct (index_lookup id w Hid) as (i & Hi & Hlk & Hlt). rewrite Hi.
  set (w1 := with_list _ w).
  assert (ids w1 = delete i (ids w)) as Hids by by apply splice_ids.
  assert (id ∉ ids w1) as Hout by (rewrite Hids; by eapply delete_not_elem).
  assert (∀ x, x ∈ ids w → x ≠ id → x ∈ ids w1) as Hkeep
    by (intros x Hx Hne; rewrite Hids; by eapply delete_ids_elem).
  assert (ids w1 ⊆ ids w) as Hsub.
  { rewrite Hids. intros x Hx. eapply sublist_subseteq; [apply sublist_delete|done]. }
  assert (∀ y, y ∈ ids w1 → tabs_ok (Tabs (ts_list w1) y (ts_seq w) (ts_composer w1) (ts_dialogs w1) (ts_calls w1))) as Hok.
  { intros y Hy. constructor; [|done|].
    - change (NoDup (ids w1)). rewrite Hids. eapply sublist_NoDup; [|apply sublist_delete]. done.
    - apply Forall_forall. intros z Hz. rewrite Forall_forall in Hnm. apply Hnm, Hsub, Hz. }
  unfold activate_neighbor. change (ts_active w1) with (ts_active w). case_bool_decide as Hact; cbn [negb].
  - assert (∃ x, x ∈ ids w1) as [x Hx].
    { destruct (ids w1) as [|x l] eqn:E; [|exists x; by left]. exfalso.
      apply (f_equal length) in Hids. rewrite length_delete, length_ids in Hids by (by eexists). cbn in Hids. lia. }
    destruct (neighbor_some k id x w1 Hx) as [next Hnext]; [intros ->; done|]. rewrite Hnext.
    apply neighbor_elem in Hnext as [Hin _]. rewrite activate_ids. split; [|done].
    specialize (Hok next Hin). destruct Hok. constructor; by rewrite ?activate_ids, ?activate_seq.
  - split; [|done]. apply Hok, Hkeep; [done|congruence].
Qed.

Section Ok.
Context (max_tabs : Z) (historyOpen : bool) (clientId : jsstr) (secs : option num).

(** What a step may do to the list without breaking it: it drops at most [id]. *)
Definition drops (id : jsstr) (w w' : tabs) : Prop :=
  tabs_ok w' ∧ ids w' ⊆ ids w ∧ ∀ x, x ∈ ids w → x ≠ id → x ∈ ids w'.

Lemma drops_refl id w : tabs_ok w → drops id w w.
Proof. done. Qed.
Lemma drops_trans id w1 w2 w3 : drops id w1 w2 → drops id w2 w3 → drops id w1 w3.
Proof. intros (H1 & Hs1 & Hk1) (H2 & Hs2 & Hk2). split; [done|]. split; [set_solver|naive_solver]. Qed.
Lemma drops_same id w w' :
  tabs_ok w → ids w' = ids w → ts_active w' = ts_active w → ts_seq w' = ts_seq w → drops id w w'.
Proof. intros H Hi Ha Hs. split; [by apply (tabs_ok_same w)|]. by rewrite Hi. Qed.

Lemma drops_update id id' f w : tabs_ok w → drops id w (update_tab id' f w).
Proof. intros H. apply drops_same; [done|apply ids_update|done..]. Qed.
Lemma drops_activate id next w : tabs_ok w → next ∈ ids w → drops id w (activateTab next w).
Proof. intros H Hn. split; [by apply tabs_ok_activate|]. by rewrite activate_ids. Qed.
Lemma drops_neighbor id idx id' w : tabs_ok w → drops id w (activate_neighbor idx id' w).
Proof.
  intros H. unfold activate_neighbor. case_match; [done|]. case_match eqn:E; [|done].
  apply drops_activate; [done|]. by apply neighbor_elem in E as [].
Qed.
Lemma drops_announce id name id' w w' : drops id w w' → drops id w (announce name id' w').
Proof. intros (H & Hs & Hk). split; [|done]. by apply (tabs_ok_same w'). Qed.

Lemma on_tab_before id a w :
  let s := a (page_of historyOpen clientId id w) (View (_tabById id w) [] false []) in
  let w1 := calling (map (OnTab id) (v_effects s))
              (match v_tab s with Some o => update_tab id (λ _, o) w | None => w end) in
  ids w1 = ids w ∧ ts_active w1 = ts_active w ∧ ts_seq w1 = ts_seq w.
Proof. intros s w1. unfold w1. destruct (v_tab s); [|done]. split; [apply (ids_update id (λ _, _) w)|done]. Qed.

Lemma drops_on_tab id a w : tabs_ok w → drops id w (on_tab historyOpen clientId id a w).
Proof.
  intros H. unfold on_tab. cbv zeta. destruct (on_tab_before id a w) as (Hi & Ha & Hs).
  cbv zeta in Hi, Ha, Hs. set (w1 := calling _ _) in *.
  assert (drops id w w1) as Hd by by apply drops_same. clearbody w1.
  case_match eqn:Hc; [|done]. apply andb_true_iff in Hc as [[_ Hl]%andb_true_iff Hin].
  apply bool_decide_eq_true in Hl, Hin. eapply drops_trans; [exact Hd|].
  destruct Hd as (Hok & _). destruct (tabs_ok_remove id w1 (Z.min (index_of_tab id w1) (Z.of_nat (length (splice_out (index_of_tab id w1) (ts_list w1))))) Hok Hin Hl)
    as (H1 & H2 & _ & H4). split; [exact H1|]. split; [exact H2|exact H4].
Qed.

Lemma drops_blank id w : tabs_ok w → drops id w (blank_tab historyOpen clientId id w).
Proof.
  intros H. unfold blank_tab, setTabLabel. pose proof (drops_on_tab id (λ pg, clearTab pg false) w H) as Hd.
  eapply drops_trans; [exact Hd|]. apply drops_update. by destruct Hd.
Qed.

Lemma drops_remove id w : tabs_ok w → id ∈ ids w → (1 < length (ts_list w))%nat →
  drops id w (_removeClosedTabView id (index_of_tab id w) w).
Proof.
  intros H Hin Hl. unfold _removeClosedTabView, _activateNeighborAfterClose. apply drops_announce.
  destruct (tabs_ok_remove id w (Z.min (index_of_tab id w) (Z.of_nat (length (splice_out (index_of_tab id w) (ts_list w))))) H Hin Hl)
    as (H1 & H2 & _ & H4). split; [exact H1|]. split; [exact H2|exact H4].
Qed.

Lemma tabs_ok_nonempty w : tabs_ok w → ts_list w ≠ [].
Proof. intros [_ Ha _] He. unfold ids in Ha. rewrite He in Ha. by apply elem_of_nil in Ha. Qed.

Lemma more_than_one w : tabs_ok w → length (ts_list w) ≠ 1%nat → (1 < length (ts_list w))%nat.
Proof. intros H%tabs_ok_nonempty Hn. destruct (ts_list w) as [|? [|? ?]]; [done..|]. simpl. lia. Qed.

Lemma drops_detach id w : tabs_ok w → drops id w (detachRunningTabAndClose historyOpen clientId id w).
Proof.
  intros H. unfold detachRunningTabAndClose. destruct (_tabById id w) as [o|] eqn:Ho; [|done]. case_match; [done|].
  set (w1 := update_tab id _ _).
  assert (drops id w w1) as Hd.
  { apply drops_same; [done|apply (ids_update id _ (calling _ w))|done..]. }
  assert (id ∈ ids w1) as Hin.
  { unfold w1. rewrite (ids_update id _ (calling _ w)). apply tabById_Some. by eexists. }
  clearbody w1. eapply drops_trans; [exact Hd|]. destruct Hd as (H1 & _). case_bool_decide as Hl.
  - do 2 apply drops_announce. pose proof (drops_on_tab id (λ _, _resetPreservedSingleTabState) w1 H1) as Hd.
    eapply drops_trans; [exact Hd|]. apply drops_blank. by destruct Hd.
  - apply drops_announce, drops_remove; [done..|by apply more_than_one].
Qed.

(** Without closing for good the list stays. *)
Lemma on_tab_ids id a w :
  existsb is_finalize (v_effects (a (page_of historyOpen clientId id w) (View (_tabById id w) [] false []))) = false →
  ids (on_tab historyOpen clientId id a w) = ids w.
Proof.
  intros H. unfold on_tab. cbv zeta. rewrite H. cbn [andb]. by destruct (on_tab_before id a w) as [-> _].
Qed.

(** A kill closes nothing for good. *)
Definition keeps_tab (e : effect) : Prop := is_finalize e = false.
Lemma no_finalize es : Forall keeps_tab es → existsb is_finalize es = false.
Proof. induction 1 as [|e es He _ IH]; [done|]. cbn. by rewrite He. Qed.

Lemma doKill_keeps pg s : v_effects s = [] → existsb is_finalize (v_effects (doKill pg secs s)) = false.
Proof.
  intros He. assert (∃ ks, changes ks keeps_tab s (doKill pg secs s)) as [ks (_ & _ & es & Hes & Hk)].
  { unfold doKill. case_match; [exists []; apply changes_refl|]. case_match.
    - exists []. by apply tame_emit.
    - exists ["pendingKill"; "killed"; "reconnectedRun"; "lastEventId"; "attachMode"; "streamRecoveryAttempts";
              "streamRecoveryNoticeRunId"; "st"; "runningLabel"]%string. cbv beta.
      apply (changes_trans _ _ _ (put "pendingKill" (VBool true) s)); [by apply tame_put; left|].
      set (s1 := put _ _ s). clearbody s1. unfold _markTabKilledByUser, setTabStatus.
      case_match; [apply changes_refl|]. tame_steps. }
  rewrite Hes, He. by apply no_finalize.
Qed.

Lemma drops_defer id idx w : tabs_ok w →
  drops id w (_deferRunningTabCloseForKill historyOpen clientId secs id idx w)
  ∧ ids (_deferRunningTabCloseForKill historyOpen clientId secs id idx w) = ids w.
Proof.
  intros H. unfold _deferRunningTabCloseForKill. destruct (at_index idx _) as [t|]; [|done].
  destruct (negb (running (tb_obj t))); [done|]. set (w1 := update_tab (tb_id t) _ w).
  assert (tabs_ok w1) as H1 by by apply tabs_ok_update. assert (ids w1 = ids w) as Hi1 by apply ids_update.
  set (w2 := on_tab _ _ id _ w1).
  assert (ids w2 = ids w) as Hi2 by (unfold w2; rewrite on_tab_ids; [done|by apply doKill_keeps]).
  assert (tabs_ok w2) as H2 by apply (drops_on_tab id _ w1 H1).
  set (w3 := if bool_decide (1 < length (ts_list w2))%nat then activate_neighbor idx id w2 else w2).
  assert (drops id w2 w3) as Hd by (unfold w3; case_match; [by apply drops_neighbor|done]).
  assert (ids w3 = ids w) as Hi3.
  { unfold w3, activate_neighbor. rewrite <-Hi2. repeat case_match; try done. apply activate_ids. }
  split; [|done]. apply drops_announce. destruct Hd as (H3 & _). split; [done|]. by rewrite Hi3.
Qed.

Lemma drops_confirm id w : tabs_ok w → drops id w (confirmCloseRunningTab id w) ∧ ids (confirmCloseRunningTab id w) = ids w.
Proof. intros H. unfold confirmCloseRunningTab. repeat case_match; try done. split; [by apply drops_same|done]. Qed.

Lemma drops_close id w : tabs_ok w → id ∈ ids w → drops id w (closeTab historyOpen clientId id w).
Proof.
  intros H Hin. unfold closeTab. cbv zeta. set (w1 := update_tab id _ w).
  assert (drops id w w1) as Hd by by apply drops_update. assert (ids w1 = ids w) as Hi by apply ids_update.
  assert (index_of_tab id w = index_of_tab id w1) as ->.
  { destruct (index_lookup id w Hin) as (i & Hi1 & Hl1 & _).
    destruct (index_lookup id w1) as (j & Hj1 & Hl2 & _); [by rewrite Hi|].
    rewrite Hi1, Hj1. f_equal. rewrite Hi in Hl2. destruct H as [Hn _ _]. by eapply NoDup_lookup. }
  clearbody w1. eapply drops_trans; [exact Hd|]. destruct Hd as (H1 & _). rewrite <-Hi in Hin.
  destruct (match _tabById id w1 with Some o => running o | None => false end); [by apply drops_confirm|].
  destruct (decide (length (ts_list w1) = 1%nat)) as [Hl|Hl].
  - destruct (ts_list w1) as [|t [|]] eqn:E; [done| |done].
    assert (tb_id t = id) as ->.
    { unfold ids in Hin. rewrite E in Hin. cbn in Hin. rewrite list_elem_of_singleton in Hin. done. }
    apply drops_announce. pose proof (drops_on_tab id (λ _, _resetPreservedSingleTabState) w1 H1) as Hd.
    eapply drops_trans; [exact Hd|]. apply drops_blank. by destruct Hd.
  - pose proof (more_than_one w1 H1 Hl) as Hl'. destruct (ts_list w1) as [|t [|t' l]] eqn:E; [simpl in Hl'; lia..|].
    apply drops_remove; [done..|]. by rewrite E.
Qed.

Lemma drops_answer i c w d : tabs_ok w → ts_dialogs w !! i = Some d →
  drops (dg_id d) w (answer_dialog historyOpen clientId secs i c w).
Proof.
  intros H Hd. unfold answer_dialog. rewrite Hd. set (w1 := with_dialogs _ w).
  assert (drops (dg_id d) w w1) as Hd1 by by apply drops_same. eapply drops_trans; [exact Hd1|]. destruct Hd1 as (H1 & _).
  clearbody w1. destruct c; [case_match; [by apply drops_detach|done]|by apply drops_defer|done].
Qed.

Lemma tab_name_inj n m : (0 <= n)%Z → (0 <= m)%Z → tab_name n = tab_name m → n = m.
Proof. intros Hn Hm H. unfold tab_name in H. apply app_inv_head in H. by apply str_of_Z_inj. Qed.

Lemma create_ok label w : tabs_ok w → 0 <= ts_seq w →
  tabs_ok (snd (createTab max_tabs label w)) ∧ ids w ⊆ ids (snd (createTab max_tabs label w))
  ∧ ts_seq w ≤ ts_seq (snd (createTab max_tabs label w)).
Proof.
  intros [Hn Ha Hnm] Hseq. unfold createTab. case_match; [done|]. cbn [snd].
  set (id := tab_name (ts_seq w + 1)). set (w1 := Tabs _ _ _ _ _ _).
  assert (ids w1 = ids w ++ [id]) as Hi by (unfold w1, ids; cbn; by rewrite map_app).
  assert (tabs_ok w1) as H1.
  { constructor.
    - rewrite Hi. apply NoDup_app. split; [done|]. split; [|apply NoDup_singleton].
      intros x Hx ->%list_elem_of_singleton. rewrite Forall_forall in Hnm.
      destruct (Hnm _ Hx) as (n & Heq & Hle). apply tab_name_inj in Heq; lia.
    - rewrite Hi. apply elem_of_app. by left.
    - rewrite Hi. apply Forall_app. split; [|apply Forall_singleton; exists (ts_seq w + 1); cbn; split; [done|lia]].
      eapply Forall_impl; [exact Hnm|]. intros x (n & -> & Hle). exists n. cbn. split; [done|lia]. }
  assert (tabs_ok (activateTab id w1)) as H2.
  { apply tabs_ok_activate; [done|]. rewrite Hi. apply elem_of_app. right. by left. }
  split; [by apply (tabs_ok_same (activateTab id w1))|].
  change (ids w ⊆ ids (activateTab id w1) ∧ ts_seq w ≤ ts_seq (activateTab id w1)).
  rewrite activate_ids, activate_seq, Hi. split; [set_solver|]. unfold w1. cbn. lia.
Qed.

Lemma reorder_ids order w : tabs_ok w → order ≡ₚ ids w → ids (syncTabOrderFromDom order w) = order.
Proof.
  intros [Hn Ha _] Hp. unfold syncTabOrderFromDom. destruct order as [|x order].
  { apply Permutation_nil in Hp. unfold ids in *. by rewrite Hp. }
  cbn [ids ts_list calling with_list]. assert (∀ y, y ∈ x :: order → y ∈ ids w) as Hin by (intros y; by rewrite Hp).
  clear Hp. revert Hin. generalize (x :: order). clear x order. intros l. induction l as [|y l IH]; intros Hin; [done|].
  cbn [flat_map]. destruct (findb (λ t, tb_id t ==s y) (reverse (ts_list w))) as [t|] eqn:E.
  - apply findb_Some in E as [_ Ht]. apply bool_decide_eq_true in Ht. unfold ids. cbn. f_equal; [done|].
    apply IH. intros z Hz. apply Hin. by right.
  - exfalso. rewrite findb_None in E. assert (y ∈ ids w) as Hy by (apply Hin; by left).
    apply list_elem_of_fmap in Hy as (t & -> & Ht). specialize (E t). rewrite elem_of_reverse in E.
    specialize (E Ht). by apply bool_decide_eq_false in E.
Qed.
(** Closing a running tab only asks. *)
Lemma close_running id o w :
  _tabById id w = Some o → running o = true → ids (closeTab historyOpen clientId id w) = ids w.
Proof.
  intros Ho Hr. unfold closeTab. cbv zeta. rewrite !tabById_update, bool_decide_true, Ho by done. cbn [fmap option_fmap option_map].
  assert (∀ k v o, js k ≠ js "st" → running (set_tab k v o) = running o) as Hst.
  { intros k v o' Hne. unfold running, tab_get, set_tab, get, table_get. by rewrite own_set_ne. }
  rewrite !Hst, Hr by by vm_compute. unfold confirmCloseRunningTab.
  rewrite tabById_update, bool_decide_true, Ho by done. cbn [fmap option_fmap option_map]. rewrite !Hst, Hr by by vm_compute.
  eapply (ids_update id).
Qed.

Lemma calls_announce name id w : ts_calls (announce name id w) = ts_calls w ++ [TabEvent name id (ts_active w)].
Proof. done. Qed.
Lemma calls_neighbor idx id w : ∃ l, ts_calls (activate_neighbor idx id w) = ts_calls w ++ l.
Proof.
  unfold activate_neighbor. repeat case_match; try (exists []; by rewrite app_nil_r).
  unfold activateTab. case_match; cbn; by eexists.
Qed.

(** What detaching calls. *)
Lemma calls_on_tab id a w : ∃ l, ts_calls (on_tab historyOpen clientId id a w) = ts_calls w ++ l.
Proof.
  unfold on_tab. cbv zeta. set (s := a _ _).
  assert (∀ w', ts_calls (match v_tab s with Some o => update_tab id (λ _, o) w' | None => w' end) = ts_calls w') as Hm
    by (intros; by case_match).
  set (w1 := calling _ _). assert (ts_calls w1 = ts_calls w ++ map (OnTab id) (v_effects s)) as Hc
    by (unfold w1; cbn; by rewrite Hm).
  match goal with |- context [if ?b then _ else _] => destruct b end; [|rewrite Hc; by eexists].
  match goal with |- context [activate_neighbor ?a ?b ?c] => destruct (calls_neighbor a b c) as [l Hl] end.
  rewrite Hl. change (ts_calls (with_list _ w1)) with (ts_calls w1). rewrite Hc, <-(assoc_L (++)). by eexists.
Qed.
Lemma detach_calls id o w :
  _tabById id w = Some o → running o = true →
  ∃ before after, ts_calls (detachRunningTabAndClose historyOpen clientId id w)
    = before ++ [MarkDetached (js_or (js_or (tab_get o "runId") (tab_get o "historyRunId")) (VStr []));
                 DetachStream id; DetachPty id] ++ after.
Proof.
  intros Ho Hr. unfold detachRunningTabAndClose. rewrite Ho, Hr. cbn [negb]. cbv zeta.
  set (w1 := update_tab id _ _).
  assert (ts_calls w1 = ts_calls w ++ [MarkDetached (js_or (js_or (tab_get o "runId") (tab_get o "historyRunId")) (VStr []));
                 DetachStream id; DetachPty id]) as Hc by done. clearbody w1. case_match.
  - destruct (calls_on_tab id (λ _, _resetPreservedSingleTabState) w1) as [l1 Hl1].
    set (w2 := on_tab _ _ id _ w1) in *. destruct (calls_on_tab id (λ pg, clearTab pg false) w2) as [l2 Hl2].
    rewrite !calls_announce. unfold blank_tab. change (ts_calls (setTabLabel _ _ ?w)) with (ts_calls w).
    rewrite Hl2, Hl1, Hc, <-!(assoc_L (++)). by eexists _, _.
  - unfold _removeClosedTabView, _activateNeighborAfterClose. cbn.
    match goal with |- context [activate_neighbor ?a ?b ?c] => destruct (calls_neighbor a b c) as [l Hl] end.
    rewrite Hl. cbn. rewrite Hc, <-!(assoc_L (++)). by eexists _, _.
Qed.
(** *** Choosing to kill *)

Lemma index_tab id w o : _tabById id w = Some o → at_index (index_of_tab id w) (ts_list w) = Some (Tab id o).
Proof.
  unfold _tabById, index_of_tab, at_index. induction (ts_list w) as [|t l IH]; cbn; [done|].
  case_bool_decide as Ht.
  - intros [= <-]. cbn. rewrite <-Ht. by destruct t.
  - intros Ho. specialize (IH Ho). destruct (find_index _ l) as [i|]; [|done]. cbn.
    rewrite (proj2 (Z.ltb_ge _ _)) in IH by lia. rewrite Nat2Z.id in IH.
    replace (Z.pos (Pos.of_succ_nat i)) with (Z.of_nat (S i)) by lia.
    rewrite (proj2 (Z.ltb_ge _ _)) by lia. by rewrite Nat2Z.id.
Qed.

Lemma on_tab_object id a w o : _tabById id w = Some o →
  let s := a (page_of historyOpen clientId id w) (View (Some o) [] false []) in
  existsb is_finalize (v_effects s) = false →
  _tabById id (on_tab historyOpen clientId id a w) = Some (default o (v_tab s))
  ∧ ts_calls (on_tab historyOpen clientId id a w) = ts_calls w ++ map (OnTab id) (v_effects s)
  ∧ ts_active (on_tab historyOpen clientId id a w) = ts_active w.
Proof.
  intros Ho s Hs. unfold on_tab. rewrite Ho. fold s. rewrite Hs. cbv zeta. cbn [andb].
  change (_tabById id (calling _ ?x)) with (_tabById id x).
  destruct (v_tab s) as [o'|]; [|done]. rewrite tabById_update, bool_decide_true, Ho by done. done.
Qed.

(** Leaving a tab touches its draft only. *)
Lemma neighbor_object idx id x w o k : _tabById x w = Some o → js k ≠ js "draftInput" →
  ∃ o', _tabById x (activate_neighbor idx id w) = Some o' ∧ tab_get o' k = tab_get o k.
Proof.
  intros Ho Hk. unfold activate_neighbor. case_match; [by exists o|]. case_match; [|by exists o].
  unfold activateTab. case_match; [|by exists o].
  change (_tabById x (announce _ _ (Tabs (ts_list ?u) _ _ _ _ _))) with (_tabById x u).
  rewrite tabById_update, Ho. match goal with |- context [bool_decide ?P] => destruct (bool_decide P) end; [|by exists o]. eexists. split; [reflexivity|].
  unfold tab_get, set_tab, get, table_get. by rewrite own_set_ne.
Qed.

Lemma set_get k k' v o : js k ≠ js k' → tab_get (set_tab k v o) k' = tab_get o k'.
Proof. intros Hne. unfold tab_get, set_tab, get, table_get. by rewrite own_set_ne. Qed.
Lemma set_get_eq k v o : tab_get (set_tab k v o) k = v.
Proof. unfold tab_get, set_tab, get, table_get. by rewrite own_set_eq. Qed.

(** Killing a run whose id is known sends the request. *)
Lemma kill_known id w o runId :
  _tabById id w = Some o → running o = true → tab_get o "runId" = runId → truthy runId = true →
  let w' := on_tab historyOpen clientId id (λ pg, doKill pg secs) w in
  _tabById id w' = Some o ∧ ts_calls w' = ts_calls w ++ [OnTab id (KillRequest runId)]
  ∧ ∀ x, x ≠ id → _tabById x w' = _tabById x w.
Proof.
  intros Ho Hr Hid Ht. cbv zeta. set (a := λ pg : page, doKill pg secs).
  assert (a (page_of historyOpen clientId id w) (View (Some o) [] false [])
          = View (Some o) [] false [KillRequest runId]) as Ha.
  { unfold a, doKill. change (field "runId" (View (Some o) [] false [])) with (tab_get o "runId").
    change (is_running (View (Some o) [] false [])) with (running o). by rewrite Hr, Hid, Ht. }
  destruct (on_tab_object id a w o Ho) as (Hobj & Hcalls & _); [by rewrite Ha|]. rewrite Ha in Hobj, Hcalls.
  split; [exact Hobj|]. split; [exact Hcalls|]. intros x Hx. unfold on_tab. rewrite Ho, Ha. cbn [v_effects v_tab existsb is_finalize orb andb].
  cbv zeta. change (_tabById x (calling _ ?u)) with (_tabById x u). by rewrite tabById_update, bool_decide_false.
Qed.

Lemma defer_kills id idx t w o runId :
  at_index idx (ts_list w) = Some t → running (tb_obj t) = true → _tabById (tb_id t) w = Some (tb_obj t) →
  _tabById id w = Some o → running o = true → tab_get o "runId" = runId → truthy runId = true →
  let w' := _deferRunningTabCloseForKill historyOpen clientId secs id idx w in
  OnTab id (KillRequest runId) ∈ ts_calls w'
  ∧ (∃ o', _tabById (tb_id t) w' = Some o' ∧ truthy (tab_get o' "closing") = true)
  ∧ (id ≠ tb_id t → ∃ o', _tabById id w' = Some o' ∧ tab_get o' "closing" = tab_get o "closing").
Proof.
  intros Hidx Hrt Hot Ho Hr Hid Ht. cbv zeta. unfold _deferRunningTabCloseForKill. rewrite Hidx, Hrt. cbn [negb]. cbv zeta.
  set (w1 := update_tab (tb_id t) _ w).
  assert (∃ o1, _tabById id w1 = Some o1 ∧ running o1 = true ∧ tab_get o1 "runId" = runId
            ∧ (id ≠ tb_id t → tab_get o1 "closing" = tab_get o "closing")) as (o1 & Ho1 & Hr1 & Hid1 & Hc1).
  { unfold w1. rewrite tabById_update, Ho. case_bool_decide as Heq; cbn [fmap option_fmap option_map].
    - eexists. split; [reflexivity|]. split; [unfold running; by rewrite set_get by by vm_compute|].
      split; [by rewrite set_get by by vm_compute|]. by intros [].
    - exists o. done. }
  assert (∃ o2, _tabById (tb_id t) w1 = Some o2 ∧ truthy (tab_get o2 "closing") = true) as (o2 & Ho2 & Hc2).
  { unfold w1. rewrite tabById_update, bool_decide_true, Hot by done. eexists. split; [reflexivity|]. by rewrite set_get_eq. }
  clearbody w1. destruct (kill_known id w1 o1 runId Ho1 Hr1 Hid1 Ht) as (Hk1 & Hcalls & Hoth).
  set (w2 := on_tab _ _ id _ w1) in *. clearbody w2.
  assert (∃ o2', _tabById (tb_id t) w2 = Some o2' ∧ truthy (tab_get o2' "closing") = true) as (o2' & Ho2' & Hc2').
  { destruct (decide (tb_id t = id)) as [Heq|Hne]; [|exists o2; by rewrite Hoth].
    exists o1. rewrite Heq in *. split; [done|]. by simplify_eq. }
  rewrite calls_announce. change (_tabById ?x (announce _ _ ?u)) with (_tabById x u). case_bool_decide.
  - destruct (calls_neighbor idx id w2) as [l ->]. split; [rewrite Hcalls, !elem_of_app; left; left; right; by left|]. split.
    + destruct (neighbor_object idx id _ w2 _ "closing" Ho2') as (o' & -> & Hc); [by vm_compute|]. exists o'. by rewrite Hc.
    + intros Hne. destruct (neighbor_object idx id _ w2 _ "closing" Hk1) as (o' & -> & Hc); [by vm_compute|]. exists o'. by rewrite Hc, Hc1.
  - split; [rewrite Hcalls, !elem_of_app; left; right; by left|]. split; [by exists o2'|]. intros Hne. exists o1. by rewrite Hc1.
Qed.

End Ok.

(** ** Lemmas: what the messages of a run close *)

Lemma flag_changes ks P s s' k : changes ks P s s' → js k ∉ map js ks → flag k s' = flag k s.
Proof. intros Hc Hk. unfold flag. by rewrite (changes_field _ _ _ _ _ Hc Hk). Qed.

Lemma keeps_changes ks s s' : changes ks keeps_tab s s' →
  existsb is_finalize (v_effects s') = existsb is_finalize (v_effects s).
Proof. intros (_ & _ & es & -> & Hes). by rewrite existsb_app, (no_finalize es Hes), orb_false_r. Qed.

Section Messages.
Context (pg : page) (high_volume : bool) (max_lines : jsval).
Notation handle := (_handleRunStreamMessage pg high_volume max_lines).

(** The two ends of a run, up to the question whether its tab is closing. *)
Lemma exit_shape msg s : has_tab s = true → ∃ s2 tail,
  handle_exit pg max_lines msg s
  = tail (on (flag "closing" s2) (finalizeClosingTab pg |> on (pg_historyOpen pg) (emit RefreshHistoryPanel)) s2)
  ∧ has_tab s2 = true ∧ flag "closing" s2 = flag "closing" s ∧ changes ("killed" :: "syntheticClear" :: exit_keys)%string keeps_tab s s2
  ∧ tame [] keeps_tab tail.
Proof.
  intros Ht. unfold handle_exit. cbv beta zeta. fold (exit_recorded msg s).
  assert (changes exit_keys keeps_tab s (exit_recorded msg s)) as Hc
    by (unfold exit_recorded, _clearStalledTimeout; tame_steps).
  set (s1 := exit_recorded msg s) in *. clearbody s1.
  assert (∀ s2, changes ["killed"; "syntheticClear"]%string keeps_tab s1 s2 →
    has_tab s2 = true ∧ flag "closing" s2 = flag "closing" s
    ∧ changes ("killed" :: "syntheticClear" :: exit_keys)%string keeps_tab s s2) as H2.
  { intros s2 Hc2. assert (changes ("killed" :: "syntheticClear" :: exit_keys)%string keeps_tab s s2) as Hall.
    { eapply changes_trans; (eapply changes_weaken; [|done|]);
        [|exact Hc| |exact Hc2]; apply (bool_decide_unpack _); vm_compute; exact I. }
    split; [by destruct Hall as [-> _]|]. split; [|done].
    apply (flag_changes _ _ _ _ _ Hall). apply (bool_decide_unpack _). vm_compute. exact I. }
  destruct (flag "killed" s1).
  - set (s2 := emit DisableResumeControls _). exists s2.
    exists (λ s3, on (negb (flag "closing" (on (pg_historyOpen pg) (emit RefreshHistoryPanel) s3))) (emit MountDeferredPrompt)
                     (on (pg_historyOpen pg) (emit RefreshHistoryPanel) s3)). split; [reflexivity|].
    destruct (H2 s2) as (H & H' & H''); [unfold s2; tame_steps|]. split; [done|]. split; [done|]. split; [done|].
    intros s3. cbv beta. tame_steps.
  - set (r := normalizeCommandResult _ _). set (s2 := emit (CompleteCommand r) _). exists s2, (λ s, s).
    destruct (H2 s2) as (H & H' & H''); [unfold s2; tame_steps|]. split; [|split; [done|split; [done|split; [done|]]]].
    + f_equal. rewrite H'. destruct (H2 (emit DisableResumeControls (emit RenderOutcomeSummary (emit HighVolumeSummary (emit StopTimer s1)))))
        as (_ & Hcl & _); [tame_steps|exact Hcl].
    + apply tame_skip.
Qed.

Lemma exit_keeps msg s : has_tab s = true → flag "closing" s = false →
  existsb is_finalize (v_effects (handle_exit pg max_lines msg s)) = existsb is_finalize (v_effects s).
Proof.
  intros Ht Hc. destruct (exit_shape msg s Ht) as (s2 & tail & -> & _ & Hc2 & Hch & Htl).
  rewrite Hc2, Hc. cbn [on]. unfold skip. rewrite (keeps_changes _ _ _ (Htl s2)). by eapply keeps_changes.
Qed.

Lemma finalize_closing s : flag "closing" s = true →
  finalizeClosingTab pg s
  = on (pg_single pg) (_resetPreservedSingleTabState |> clearTab pg false) (emit FinalizeClosingTab s).
Proof. intros Hc. unfold finalizeClosingTab. by rewrite Hc. Qed.

Lemma keeps_closing : tame closing_keys keeps_tab (_resetPreservedSingleTabState |> clearTab pg false).
Proof.
  intros s. apply (changes_trans _ _ _ (_resetPreservedSingleTabState s)).
  - unfold _resetPreservedSingleTabState. tame_steps.
  - set (s1 := _resetPreservedSingleTabState s). clearbody s1. unfold clearTab, setTabStatus. tame_steps.
Qed.

Lemma cleared_tab s : has_tab s = true →
  field "st" (clearTab pg false s) = vstr "idle" ∧ field "closing" (clearTab pg false s) = VBool false.
Proof.
  intros Ht. unfold clearTab, setTabStatus, andb, on. change (negb false) with true.
  change (negb (js "idle" ==s js "running")) with true. cbv iota.
  destruct (pg_active pg); split; unfold skip; field_steps.
Qed.

(** The end of the run of a closing tab closes it: the only tab is emptied. *)
Lemma exit_closes msg s : has_tab s = true → flag "closing" s = true →
  existsb is_finalize (v_effects (handle_exit pg max_lines msg s)) = true
  ∧ (pg_single pg = true → is_running (handle_exit pg max_lines msg s) = false
       ∧ flag "closing" (handle_exit pg max_lines msg s) = false).
Proof.
  intros Ht Hc. destruct (exit_shape msg s Ht) as (s2 & tail & -> & Ht2 & Hc2 & Hch & Htl).
  rewrite Hc2, Hc. cbn [on]. cbv beta. rewrite finalize_closing by by rewrite Hc2.
  rewrite (keeps_changes _ _ _ (Htl _)). set (s3 := on (pg_single pg) _ _).
  assert (tame [] keeps_tab (on (pg_historyOpen pg) (emit RefreshHistoryPanel))) as Hh by by apply tame_on, tame_emit.
  split.
  - rewrite (keeps_changes _ _ _ (Hh s3)). unfold s3.
    rewrite (keeps_changes _ _ _ (tame_on _ _ _ _ keeps_closing _)).
    change (v_effects (emit FinalizeClosingTab s2)) with (v_effects s2 ++ [FinalizeClosingTab]).
    rewrite existsb_app. apply orb_true_r.
  - intros Hs. assert (∀ k, field k (tail (on (pg_historyOpen pg) (emit RefreshHistoryPanel) s3)) = field k s3) as Hf.
    { intros k. rewrite (changes_field _ _ _ _ _ (Htl _)) by apply not_elem_of_nil.
      by rewrite (changes_field _ _ _ _ _ (Hh s3)) by apply not_elem_of_nil. }
    unfold is_running, flag. rewrite !Hf. unfold s3. rewrite Hs. cbn [on].
    destruct (cleared_tab (_resetPreservedSingleTabState (emit FinalizeClosingTab s2))) as [-> ->]; [|done].
    destruct (tame_reset (emit FinalizeClosingTab s2)) as [-> _]. done.
Qed.

(** Every property a message may set. *)
Definition message_keys : list string :=
  closing_keys ++ exit_keys ++ ["unknownCommand"; "syntheticClear"; "streamRecoveryAttempts"; "streamRecoveryNoticeRunId"].

Lemma output_keeps_tab ks s s' : ks ⊆ message_keys → changes ks output_effect s s' → changes message_keys keeps_tab s s'.
Proof. intros Hk. apply changes_weaken; [done|by intros []]. Qed.

Lemma started_keeps r : tame message_keys keeps_tab (_markTabRunStarted r).
Proof.
  intros s. unfold _markTabRunStarted. case_match; [apply changes_refl|]. cbv zeta.
  set (s1 := put "reconnectedRun" _ _). assert (changes message_keys keeps_tab s s1) as Hc by (unfold s1; tame_steps).
  clearbody s1. eapply changes_trans; [exact Hc|]. case_match; tame_steps.
Qed.

Lemma owner_keeps msg : tame message_keys keeps_tab (_handleRunOwnerChanged pg msg).
Proof. intros s. unfold _handleRunOwnerChanged. case_match; [apply changes_refl|]. cbv zeta. case_match; tame_steps. Qed.

Lemma killed_keeps msg : tame message_keys keeps_tab (_handleRunKilled pg msg).
Proof. intros s. unfold _handleRunKilled, setTabStatus. case_match; [apply changes_refl|]. cbv zeta. tame_steps. Qed.

Lemma clear_keeps b : tame message_keys keeps_tab (clearTab pg b).
Proof. intros s. unfold clearTab, setTabStatus. tame_steps. Qed.

Lemma dispatch_keeps msg s :
  is_str (get msg (js "type")) (js "exit") = false ∨ is_str (get msg (js "event")) (js "schema") = true →
  changes message_keys keeps_tab s (dispatch_message pg high_volume max_lines msg s).
Proof.
  intros Hx. unfold dispatch_message. cbv zeta.
  case_match eqn:H1; [by eapply output_keeps_tab, report_up, tame_schema; apply list_subseteq_nil|].
  apply orb_false_iff in H1 as [_ H1]. destruct Hx as [Hx|Hx]; [|congruence].
  case_match; [apply started_keeps|].
  case_match.
  { rewrite typed_split.
    eapply changes_trans; [eapply output_keeps_tab, report_up, tame_type_reports; apply list_subseteq_nil|].
    eapply changes_trans; [|eapply output_keeps_tab, tame_notice_project; apply list_subseteq_nil].
    by apply tame_emit. }
  case_match; [apply owner_keeps|]. case_match; [apply killed_keeps|].
  case_match; [cbv beta; apply changes_put; [by apply (bool_decide_unpack _); vm_compute; exact I|apply clear_keeps]|].
  assert (["unknownCommand"%string] ⊆ message_keys) as Hsub by (apply (bool_decide_unpack _); vm_compute; exact I).
  case_match; [eapply output_keeps_tab; [exact Hsub|apply tame_batch]|].
  case_match; [eapply output_keeps_tab; [exact Hsub|apply tame_output]|].
  rewrite Hx. case_match; [|apply changes_refl]. unfold _clearStalledTimeout, setTabStatus. tame_steps.
Qed.

(** A message closes a tab for good only when it is closing. *)
Lemma message_honest m s :
  has_tab s = true → v_effects s = [] → existsb is_finalize (v_effects (handle m s)) = true → flag "closing" s = true.
Proof.
  intros Ht He Hf. destruct (flag "closing" s) eqn:Hc; [done|]. exfalso. revert Hf.
  enough (existsb is_finalize (v_effects (handle m s)) = existsb is_finalize (v_effects s)) as ->; [by rewrite He|].
  unfold _handleRunStreamMessage. case_match; [done|]. cbv beta.
  fold (noted m s). rewrite <-(noted_effects m s).
  destruct (is_str (get (sm_value m) (js "type")) (js "exit")) eqn:Hx.
  2: { eapply keeps_changes, dispatch_keeps. by left. }
  destruct (is_str (get (sm_value m) (js "event")) (js "schema")) eqn:Hs.
  { eapply keeps_changes, dispatch_keeps. by right. }
  unfold dispatch_message. rewrite Hs. apply is_str_spec in Hx. rewrite Hx. cbv zeta.
  repeat match goal with
  | |- context [is_str (VStr (js ?a)) (js ?b)] =>
      let v := eval vm_compute in (is_str (vstr a) (js b)) in
      replace (is_str (VStr (js a)) (js b)) with v by (vm_compute; reflexivity)
  end. cbn [orb]. apply exit_keeps; [by rewrite noted_tab|]. unfold flag in *. by rewrite noted_field by by vm_compute.
Qed.
End Messages.

(** ** Properties *)

(** *** Drafts *)

Lemma activate_leaves y w ox :
  ts_active w ≠ y → ts_active w ≠ [] → _tabById (ts_active w) w = Some ox → running ox = false →
  _tabById (ts_active w) (activateTab y w) = Some (set_tab "draftInput" (VStr (ts_composer w)) ox)
  ∧ ∀ z, z ≠ ts_active w → _tabById z (activateTab y w) = _tabById z w.
Proof.
  intros Hxy Hx Hox Hrx. unfold activateTab.
  rewrite (proj2 (nonempty_spec _) Hx), bool_decide_false by done. cbn [negb andb].
  split; [|intros z Hz].
  - etransitivity; [apply (tabById_update (ts_active w) (ts_active w))|].
    rewrite bool_decide_true, Hox by done. cbn. by rewrite Hrx.
  - etransitivity; [apply (tabById_update z (ts_active w))|]. by rewrite bool_decide_false.
Qed.

Lemma activate_enters y w oy t :
  _tabById y (activateTab y w) = Some oy → running oy = false → tab_get oy "draftInput" = VStr t →
  ts_active w ≠ [] → ts_composer (activateTab y w) = t.
Proof.
  intros Hoy Hry Hd Hn. unfold activateTab in *. rewrite (proj2 (nonempty_spec _) Hn) in *. cbn [negb andb] in *.
  match type of Hoy with context [if ?b then ?u else w] => set (w1 := if b then u else w) in * end.
  change (_tabById y w1 = Some oy) in Hoy.
  cbn [ts_composer announce calling]. rewrite Hoy, Hry, Hd. apply str_of_VStr.
Qed.

Lemma draft_running t o : running (set_tab "draftInput" (VStr t) o) = running o.
Proof. unfold running, tab_get, set_tab, get, table_get. by rewrite own_set_ne by by vm_compute. Qed.
Lemma draft_get t o : tab_get (set_tab "draftInput" (VStr t) o) "draftInput" = VStr t.
Proof. unfold tab_get, set_tab, get, table_get. by rewrite own_set_eq. Qed.

Section Properties.
Context (max_tabs : Z) (historyOpen : bool) (clientId : jsstr) (secs : option num).
Notation step := (tab_step max_tabs historyOpen clientId secs).

(** A run's action closes a tab for good only when it is marked as closing. *)
Definition honest (a : page → act) : Prop := ∀ pg s,
  has_tab s = true → v_effects s = [] → existsb is_finalize (v_effects (a pg s)) = true → flag "closing" s = true.
(** The page names tabs that exist, and shows them all. *)
Definition allowed (e : tab_event) (w : tabs) : Prop :=
  match e with
  | Activate id | CloseTab id => id ∈ ids w
  | Reorder order => order ≡ₚ ids w
  | RunActs _ a => honest a
  | _ => True
  end.
Inductive tabs_reachable : tabs → Prop :=
  | tabs_start label : tabs_reachable (snd (createTab max_tabs label (Tabs [] [] 0 [] [] [])))
  | tabs_next e w : tabs_reachable w → allowed e w → tabs_reachable (step e w).

Lemma drops_length id w w' : drops id w w' → (length (ts_list w') ≤ length (ts_list w))%nat.
Proof.
  intros ([Hn _ _] & Hs & _). rewrite <-!length_ids. by apply submseteq_length, NoDup_submseteq.
Qed.

Lemma tabs_ok_seq w : tabs_ok w → 0 <= ts_seq w.
Proof. intros [_ Ha Hn]. rewrite Forall_forall in Hn. destruct (Hn _ Ha) as (n & _ & Hle). lia. Qed.

(** Every event but a new tab drops at most one tab: the one it is about. *)
Definition about (e : tab_event) (w : tabs) : option jsstr :=
  match e with
  | CloseTab id | RunActs id _ => Some id
  | Answered i _ => dg_id <$> ts_dialogs w !! i
  | _ => None
  end.
Definition is_create (e : tab_event) : bool := match e with Create _ => true | _ => false end.

Lemma step_drops e w : tabs_ok w → allowed e w → is_create e = false →
  match about e w with
  | Some id => drops id w (step e w)
  | None => tabs_ok (step e w) ∧ ids (step e w) ≡ₚ ids w
  end.
Proof.
  intros H Ha Hc. destruct e as [label|id|text|order|id|i c|id a]; cbn [about step allowed is_create] in *.
  - done.
  - split; [by apply tabs_ok_activate|]. by rewrite activate_ids.
  - split; [by apply (tabs_ok_same w)|done].
  - pose proof (reorder_ids order w H Ha) as Hi. rewrite Hi. split; [|done].
    assert (ts_active (syncTabOrderFromDom order w) = ts_active w ∧ ts_seq (syncTabOrderFromDom order w) = ts_seq w) as [Hact Hs]
      by (unfold syncTabOrderFromDom; by case_match).
    destruct H. constructor; rewrite ?Hi, ?Hact, ?Hs; by rewrite Ha.
  - by apply drops_close.
  - destruct (ts_dialogs w !! i) as [d|] eqn:E; cbn [fmap option_fmap option_map]; [by apply drops_answer|].
    unfold answer_dialog. by rewrite E.
  - by apply drops_on_tab.
Qed.

Lemma tab_step_ok e w : tabs_ok w → allowed e w →
  tabs_ok (step e w)
  ∧ (is_create e = false → (length (ts_list (step e w)) ≤ length (ts_list w))%nat).
Proof.
  intros H Ha. destruct (is_create e) eqn:Hc.
  - split; [|done]. destruct e; try done. by apply create_ok, tabs_ok_seq.
  - pose proof (step_drops e w H Ha Hc) as Hd. destruct (about e w) as [id|].
    + split; [by destruct Hd|]. intros _. by eapply drops_length.
    + destruct Hd as [Hok Hp]. split; [done|]. intros _. rewrite <-!length_ids. by rewrite Hp.
Qed.

Lemma reachable_tabs_ok w : tabs_reachable w →
  tabs_ok w ∧ (0 < max_tabs → Z.of_nat (length (ts_list w)) <= max_tabs).
Proof.
  induction 1 as [label|e w _ [Hw Hb] Ha].
  - unfold createTab. rewrite (proj2 (andb_false_iff _ _)) by (destruct (Z.ltb_spec 0 max_tabs); [right; by apply Z.leb_gt|by left]).
    split; [|cbn; lia]. constructor; cbn; [apply NoDup_singleton|by left|].
    apply Forall_singleton. exists 1. cbn. split; [done|lia].
  - destruct (tab_step_ok e w Hw Ha) as [Hok Hl]. split; [done|]. intros Hm. specialize (Hb Hm).
    destruct (is_create e) eqn:Hc; [|specialize (Hl eq_refl); lia]. destruct e; try done.
    cbn [step tab_step]. unfold createTab. case_match eqn:E; [done|]. cbn [snd].
    assert (∀ id w, length (ts_list (activateTab id w)) = length (ts_list w)) as Hlen
      by (intros; by rewrite <-!length_ids, activate_ids).
    cbn [announce calling ts_list]. rewrite Hlen. cbn. rewrite length_app. cbn.
    apply andb_false_iff in E as [E|E]; lia.
Qed.

(** C5: There is always a tab in front. Whatever is opened, switched, moved,
    closed, answered in a dialog or done by runs, the tabs keep distinct ids,
    the active tab is one of them, there is at least one, and never more than
    the configured limit. *)
Theorem tabs_stay_consistent w :
  tabs_reachable w →
  NoDup (ids w) ∧ ts_active w ∈ ids w ∧ (1 ≤ length (ts_list w))%nat
  ∧ (0 < max_tabs → Z.of_nat (length (ts_list w)) <= max_tabs).
Proof.
  intros [Hw Hb]%reachable_tabs_ok. pose proof (tabs_ok_nonempty w Hw). destruct Hw. split; [done|]. split; [done|].
  split; [|done]. destruct (ts_list w); [done|simpl; lia].
Qed.

(** C4: A running tab is never lost. When a step takes a running tab from the
    list, either the user chose to keep its run going, and the run was
    recorded as detached and its stream left; or the tab was marked as closing
    and a message of its run finished the closing. *)
Theorem running_tab_never_lost w e id o :
  tabs_reachable w → allowed e w → _tabById id w = Some o → running o = true → id ∉ ids (step e w) →
  (∃ i d, e = Answered i ChooseDetach ∧ ts_dialogs w !! i = Some d ∧ dg_id d = id
     ∧ ∃ before after, ts_calls (step e w)
         = before ++ [MarkDetached (js_or (js_or (tab_get o "runId") (tab_get o "historyRunId")) (VStr []));
                      DetachStream id; DetachPty id] ++ after)
  ∨ (∃ a, e = RunActs id a) ∧ truthy (tab_get o "closing") = true.
Proof.
  intros [Hw _]%reachable_tabs_ok Ha Ho Hrun Hout.
  assert (id ∈ ids w) as Hin by (apply tabById_Some; by eexists).
  destruct (is_create e) eqn:Hc.
  { destruct e; try done. exfalso. apply Hout. by apply (create_ok max_tabs label w Hw (tabs_ok_seq w Hw)). }
  pose proof (step_drops e w Hw Ha Hc) as Hd. destruct (about e w) as [x|] eqn:Hab.
  2: { exfalso. apply Hout. destruct Hd as [_ ->]. done. }
  assert (x = id) as ->.
  { destruct (decide (x = id)); [done|]. exfalso. apply Hout. destruct Hd as (_ & _ & Hk). by apply Hk. }
  destruct e as [label|y|text|order|y|i c|y a]; cbn [about] in Hab; try done.
  - injection Hab as ->. exfalso. apply Hout. cbn [step tab_step]. by rewrite (close_running historyOpen clientId id o w).
  - destruct (ts_dialogs w !! i) as [d|] eqn:E; [|done]. injection Hab as Hd'. left. exists i, d.
    cbn [step tab_step] in *. unfold answer_dialog in *. rewrite E in *. cbn [step tab_step] in *.
    set (w1 := with_dialogs _ w) in *. assert (tabs_ok w1) as Hw1 by by apply (tabs_ok_same w).
    destruct c.
    + destruct (dg_canDetach d); [|done]. rewrite Hd' in *. split; [done|]. split; [done|]. split; [done|].
      by apply detach_calls.
    + exfalso. apply Hout. by destruct (drops_defer historyOpen clientId secs (dg_id d) (dg_idx d) w1 Hw1) as [_ ->].
    + done.
  - injection Hab as ->. right. split; [by eexists|]. cbn [step tab_step allowed] in *.
    destruct (existsb is_finalize (v_effects (a (page_of historyOpen clientId id w) (View (_tabById id w) [] false [])))) eqn:E.
    + set (v := View _ _ _ _) in E. assert (has_tab v = true) as Ht by (unfold has_tab, v; cbn; by rewrite Ho).
      specialize (Ha _ v Ht eq_refl E). unfold flag, field, v in Ha. cbn [v_tab] in Ha. rewrite Ho in Ha. done.
    + exfalso. apply Hout. by rewrite on_tab_ids.
Qed.

(** Drafts survive switching. What was typed in a tab that is not running
    is back in the composer when the tab is, after typing anything in another
    one; and the other one's text is back after that. *)
Theorem drafts_survive_switching a b text text' w oa ob :
  ts_active w = a → a ≠ b → a ≠ [] → b ≠ [] →
  _tabById a w = Some oa → running oa = false → _tabById b w = Some ob → running ob = false →
  let w1 := step (Activate b) (step (Typed text) w) in
  let w2 := step (Activate a) (step (Typed text') w1) in
  ts_composer w2 = text ∧ ts_composer (step (Activate b) w2) = text'.
Proof.
  intros Ha Hne Hna Hnb Hoa Hra Hob Hrb w1 w2. subst a.
  destruct (activate_leaves b (with_composer text w) oa) as [Ha1 Ho1]; [done..|]. fold w1 in Ha1, Ho1.
  destruct (activate_leaves (ts_active w) (with_composer text' w1) ob) as [Hb2 Ho2];
    [done|done|etransitivity; [apply Ho1|]; done|done|]. fold w2 in Hb2, Ho2.
  assert (_tabById (ts_active w) w2 = Some (set_tab "draftInput" (VStr text) oa)) as Ha2
    by (etransitivity; [apply Ho2; done|exact Ha1]).
  assert (ts_composer w2 = text) as Hc.
  { apply (activate_enters _ (with_composer text' w1) _ text Ha2); [by rewrite draft_running|apply draft_get|done]. }
  split; [done|].
  destruct (activate_leaves b w2 _ Hne Hna Ha2) as [_ Ho3]; [by rewrite draft_running|].
  apply (activate_enters b w2 (set_tab "draftInput" (VStr text') ob)); [|by rewrite draft_running|apply draft_get|done].
  change (tab_step _ _ _ _ (Activate b) w2) with (activateTab b w2). rewrite Ho3 by (apply not_eq_sym, Hne). exact Hb2.
Qed.

(** Choosing to kill a closing tab closes it in the end. The choice sends
    the request to kill the tab's run and marks the tab; whenever, in whatever
    consistent world that follows, the end of its run reaches the tab while it
    is marked, the tab leaves the list, or, when it is the only one, stays as
    an idle tab that is not closing any more. *)
Theorem kill_choice_closes w i id b o runId :
  ts_dialogs w !! i = Some (Dialog id (index_of_tab id w) b) →
  _tabById id w = Some o → running o = true → tab_get o "runId" = runId → truthy runId = true →
  (let w' := step (Answered i ChooseKill) w in
   OnTab id (KillRequest runId) ∈ ts_calls w'
   ∧ ∃ o', _tabById id w' = Some o' ∧ truthy (tab_get o' "closing") = true)
  ∧ ∀ high_volume max_lines m om w' o',
      tabs_reachable w' → of_type "exit" m om → _tabById id w' = Some o' → truthy (tab_get o' "closing") = true →
      let w'' := step (RunActs id (λ pg, _handleRunStreamMessage pg high_volume max_lines m)) w' in
      if bool_decide (length (ts_list w') = 1)%nat
      then ∃ o'', _tabById id w'' = Some o'' ∧ running o'' = false ∧ truthy (tab_get o'' "closing") = false
      else id ∉ ids w''.
Proof.
  intros Hd Ho Hr Hid Ht. split.
  - cbn [step tab_step]. unfold answer_dialog. rewrite Hd. cbn [dg_id dg_idx]. set (w1 := with_dialogs _ w).
    change (index_of_tab id w) with (index_of_tab id w1).
    destruct (defer_kills historyOpen clientId secs id (index_of_tab id w1) (Tab id o) w1 o runId) as (Hk & Hc & _);
      [by apply index_tab|done..].
  - intros hv ml m om w' o' [Hw _]%reachable_tabs_ok Hm Ho' Hc w''.
    set (pg := page_of historyOpen clientId id w'). set (v := View (Some o') [] false []).
    assert (handle_exit pg ml (VObj om) (noted m v) = _handleRunStreamMessage pg hv ml m v) as Hh
      by by rewrite (handle_exit_message pg hv ml m om v Hm).
    destruct (exit_closes pg ml (VObj om) (noted m v)) as [Hf Hone]; [by rewrite noted_tab| |].
    { unfold flag. rewrite noted_field by by vm_compute. exact Hc. }
    assert (has_tab (_handleRunStreamMessage pg hv ml m v) = true) as Htab.
    { rewrite <-Hh. destruct (exit_shape pg ml (VObj om) (noted m v)) as (s2 & tail & -> & Ht2 & _ & _ & Htl); [by rewrite noted_tab|].
      destruct (Htl (on (flag "closing" s2) (finalizeClosingTab pg |> on (pg_historyOpen pg) (emit RefreshHistoryPanel)) s2)) as [-> _].
      apply tab_on; [|done]. cbv beta. destruct (tame_finalize pg s2) as [Hfin _].
      by apply tab_on; rewrite ?has_tab_emit, Hfin. }
    rewrite Hh in Hf, Hone.
    unfold w''. cbn [step tab_step]. unfold on_tab. rewrite Ho'. fold pg v. cbv zeta. rewrite Hf. cbn [andb].
    assert (id ∈ ids w') as Hin by (apply tabById_Some; by eexists).
    set (s := _handleRunStreamMessage pg hv ml m v) in *. unfold has_tab in Htab. destruct (v_tab s) as [o''|] eqn:Hv; [|done].
    set (w1 := calling _ _). assert (ids w1 = ids w') as Hi by apply (ids_update id _ w').
    assert (length (ts_list w1) = length (ts_list w')) as Hl by (by rewrite <-!length_ids, Hi). rewrite Hl.
    assert (tabs_ok w1) as Hw1 by by apply (tabs_ok_same w').
    assert (_tabById id w1 = Some o'') as Ho1.
    { change (_tabById id (update_tab id (λ _, o'') w') = Some o''). by rewrite tabById_update, bool_decide_true, Ho'. }
    rewrite Hi. destruct (decide (length (ts_list w') = 1%nat)) as [H1|H1];
      [rewrite (bool_decide_true (length (ts_list w') = 1%nat)) by done
      |rewrite (bool_decide_false (length (ts_list w') = 1%nat)) by done].
    + rewrite (bool_decide_false (1 < length (ts_list w'))%nat) by lia. cbn [andb]. exists o''. split; [done|].
      unfold is_running, flag, field in Hone. rewrite Hv in Hone. apply Hone. unfold pg. cbn. by apply bool_decide_true.
    + rewrite (bool_decide_true (1 < length (ts_list w'))%nat) by (by apply more_than_one).
      rewrite (bool_decide_true (id ∈ ids w')) by done. cbn [andb].
      destruct (tabs_ok_remove id w1 (Z.min (index_of_tab id w1) (Z.of_nat (length (splice_out (index_of_tab id w1) (ts_list w1)))))
                  Hw1) as (_ & _ & Hout & _); [by rewrite Hi|rewrite Hl; by apply more_than_one|]. exact Hout.
Qed.

(** Closing a tab that is not there takes another one away. When the id is
    unknown and two tabs or more are open, the last tab leaves the list,
    running or not, and nothing is asked or recorded; if it was in front, no
    tab is. *)
Theorem closing_unknown_drops_last id w :
  id ∉ ids w → (1 < length (ts_list w))%nat → ts_active w ≠ id →
  let w' := closeTab historyOpen clientId id w in
  ids w' = removelast (ids w) ∧ ts_active w' = ts_active w ∧ ts_dialogs w' = ts_dialogs w
  ∧ (NoDup (ids w) → last (ids w) = Some (ts_active w) → ts_active w' ∉ ids w').
Proof.
  intros Hid Hl Hact w'.
  assert (∀ o, _tabById id w ≠ Some o) as Hnone by (intros o Ho; apply Hid, tabById_Some; by eexists).
  assert (w' = announce "app:tab-closed" id (with_list (splice_out (-1) (ts_list w)) w)) as ->.
  { unfold w', closeTab. cbv zeta. rewrite (index_unknown id w Hid).
    assert (∀ f, update_tab id f w = w) as ->.
    { intros f. unfold update_tab. destruct w as [l a sq c d cs]. unfold with_list. cbn. f_equal.
      rewrite <-(map_id l) at 2. apply map_ext_in. intros t Ht%list_elem_of_In. case_bool_decide as Heq; [|done].
      exfalso. apply Hid. unfold ids. cbn. rewrite <-Heq. by apply list_elem_of_fmap_2. }
    destruct (_tabById id w) as [o|] eqn:E; [by destruct (Hnone o)|].
    destruct (ts_list w) as [|t [|t' l]] eqn:El; [simpl in Hl; lia..|].
    unfold _removeClosedTabView, _activateNeighborAfterClose, activate_neighbor. rewrite El.
    change (ts_active (with_list _ w)) with (ts_active w). by rewrite bool_decide_false. }
  assert (ids (announce "app:tab-closed" id (with_list (splice_out (-1) (ts_list w)) w)) = removelast (ids w)) as Hr.
  { change (map tb_id (splice_out (-1) (ts_list w)) = removelast (ids w)). unfold splice_out. cbn [Z.ltb Z.compare].
    rewrite Z.max_r by lia. unfold ids. replace (Z.to_nat _) with (pred (length (ts_list w))) by lia.
    clear. induction (ts_list w) as [|t l IH]; [done|]. destruct l as [|t' l]; [done|].
    change (tb_id t :: map tb_id (delete (pred (length (t' :: l))) (t' :: l)) = tb_id t :: removelast (map tb_id (t' :: l))).
    f_equal. exact IH. }
  rewrite Hr. split; [done|]. split; [done|]. split; [done|]. intros Hn Hlast.
  destruct (decide (ids w = [])) as [He|He]; [by rewrite He in Hlast|].
  destruct (exists_last He) as (l & x & Hlx). rewrite Hlx in *. rewrite last_snoc in Hlast. injection Hlast as ->.
  rewrite removelast_last. apply NoDup_app in Hn as (_ & Hn & _). intros Hin. apply (Hn _ Hin). by left.
Qed.

(** A late answer closes the wrong tab. The dialog keeps the position its
    tab had; when another running tab has that position by the time the user
    chooses to kill, the run that was asked about is killed, but the other tab
    is the one marked as closing, and the tab that was asked about is not. *)
Theorem late_answer_marks_other_tab w i id idx b o t runId :
  ts_dialogs w !! i = Some (Dialog id idx b) → _tabById id w = Some o → running o = true →
  tab_get o "runId" = runId → truthy runId = true → tab_get o "closing" = VBool false →
  at_index idx (ts_list w) = Some t → _tabById (tb_id t) w = Some (tb_obj t) → running (tb_obj t) = true → tb_id t ≠ id →
  let w' := step (Answered i ChooseKill) w in
  OnTab id (KillRequest runId) ∈ ts_calls w'
  ∧ (∃ o', _tabById id w' = Some o' ∧ tab_get o' "closing" = VBool false)
  ∧ ∃ o', _tabById (tb_id t) w' = Some o' ∧ truthy (tab_get o' "closing") = true.
Proof.
  intros Hd Ho Hr Hid Ht Hc Hidx Hot Hrt Hne. cbn [step tab_step]. unfold answer_dialog. rewrite Hd. cbn [dg_id dg_idx].
  set (w1 := with_dialogs _ w).
  destruct (defer_kills historyOpen clientId secs id idx t w1 o runId) as (Hk & Hother & Hown); [done..|].
  split; [exact Hk|]. split; [|exact Hother]. destruct Hown as (o' & Ho' & Heq); [auto|]. exists o'. by rewrite Heq.
Qed.
End Properties.

(** ** A session: three tabs, two of them running, one closed while a dialog is open *)

Definition demo_run (r : string) : page → act := λ _, put "runId" (vstr r) |> put "st" (vstr "running").
Definition demo_exit_act : page → act := λ pg, _handleRunStreamMessage pg false VUndef (demo_message demo_exit).
Definition demo_tabs : tabs :=
  tab_steps 0 false [] None
    [Create (js "b"); Create (js "c"); RunActs (tab_name 2) (demo_run "r2"); RunActs (tab_name 3) (demo_run "r3");
     CloseTab (tab_name 2)]
    (snd (createTab 0 (js "a") (Tabs [] [] 0 [] [] []))).
Definition demo_moved : tabs := tab_step 0 false [] None (CloseTab (tab_name 1)) demo_tabs.

Lemma demo_run_honest r : honest (demo_run r).
Proof. intros pg s _ He. cbn. by rewrite He. Qed.
Lemma demo_exit_honest : honest demo_exit_act.
Proof. intros pg s. apply message_honest. Qed.

Fixpoint all_allowed (es : list tab_event) (w : tabs) : Prop :=
  match es with [] => True | e :: es => allowed e w ∧ all_allowed es (tab_step 0 false [] None e w) end.
Lemma steps_reachable es w : tabs_reachable 0 false [] None w → all_allowed es w →
  tabs_reachable 0 false [] None (tab_steps 0 false [] None es w).
Proof.
  revert w. induction es as [|e es IH]; intros w Hw; [done|]. intros [He Hes].
  apply IH; [by constructor|done].
Qed.

Lemma demo_reachable : tabs_reachable 0 false [] None demo_tabs.
Proof.
  apply steps_reachable; [constructor|]. cbn [all_allowed allowed]. repeat split; try apply demo_run_honest.
  apply (bool_decide_unpack _). vm_compute. exact I.
Qed.

Lemma tabs_stay_consistent_witness : NoDup (ids demo_tabs) ∧ ts_active demo_tabs ∈ ids demo_tabs.
Proof. destruct (tabs_stay_consistent 0 false [] None demo_tabs demo_reachable) as (Hn & Ha & _). split; [exact Hn|exact Ha]. Defined.

Lemma running_tab_never_lost_witness :
  let w := tab_step 0 false [] None (Answered 0 ChooseDetach) demo_tabs in
  tab_name 2 ∉ ids w ∧ ∃ before after, ts_calls w = before ++ [MarkDetached (vstr "r2"); DetachStream (tab_name 2); DetachPty (tab_name 2)] ++ after.
Proof.
  assert (∃ o, _tabById (tab_name 2) demo_tabs = Some o ∧ running o = true ∧ tab_get o "runId" = vstr "r2") as (o & Ho & Hr & Hid).
  { eexists. split; [vm_compute; reflexivity|]. split; vm_compute; reflexivity. }
  assert (tab_name 2 ∉ ids (tab_step 0 false [] None (Answered 0 ChooseDetach) demo_tabs)) as Hout
    by (apply (bool_decide_unpack _); vm_compute; exact I).
  split; [exact Hout|].
  destruct (running_tab_never_lost 0 false [] None demo_tabs (Answered 0 ChooseDetach) (tab_name 2) o demo_reachable I Ho Hr Hout)
    as [(i & d & _ & _ & _ & before & after & Hc)|[[a Ha] _]].
  - rewrite Hid in Hc. exists before, after. exact Hc.
  - discriminate.
Defined.

Lemma drafts_survive_switching_witness :
  ts_composer (tab_step 0 false [] None (Activate (tab_name 1))
    (tab_step 0 false [] None (Typed (js "two")) (tab_step 0 false [] None (Activate (tab_name 2))
      (tab_step 0 false [] None (Typed (js "one"))
        (tab_steps 0 false [] None [Create (js "b"); Activate (tab_name 1)] (snd (createTab 0 (js "a") (Tabs [] [] 0 [] [] []))))))))
  = js "one".
Proof.
  pose (w := tab_steps 0 false [] None [Create (js "b"); Activate (tab_name 1)] (snd (createTab 0 (js "a") (Tabs [] [] 0 [] [] [])))).
  assert (∃ o, _tabById (tab_name 1) w = Some o ∧ running o = false) as (oa & Ha & Hra)
    by (eexists; split; vm_compute; reflexivity).
  assert (∃ o, _tabById (tab_name 2) w = Some o ∧ running o = false) as (ob & Hb & Hrb)
    by (eexists; split; vm_compute; reflexivity).
  destruct (drafts_survive_switching 0 false [] None (tab_name 1) (tab_name 2) (js "one") (js "two") w oa ob) as [Hc _];
    [vm_compute; reflexivity|vm_compute; discriminate|vm_compute; discriminate|vm_compute; discriminate|exact Ha|exact Hra|exact Hb|exact Hrb|].
  exact Hc.
Defined.

Lemma kill_choice_closes_witness :
  let w := tab_steps 0 false [] None [Answered 0 ChooseKill; RunActs (tab_name 2) demo_exit_act] demo_tabs in
  ids w = [tab_name 1; tab_name 3] ∧ OnTab (tab_name 2) (KillRequest (vstr "r2")) ∈ ts_calls (tab_step 0 false [] None (Answered 0 ChooseKill) demo_tabs).
Proof.
  split; [vm_compute; reflexivity|].
  assert (∃ o, _tabById (tab_name 2) demo_tabs = Some o ∧ running o = true ∧ tab_get o "runId" = vstr "r2") as (o & Ho & Hr & Hid).
  { eexists. split; [vm_compute; reflexivity|]. split; vm_compute; reflexivity. }
  destruct (kill_choice_closes 0 false [] None demo_tabs 0 (tab_name 2) true o (vstr "r2")) as [[Hk _] _];
    [vm_compute; reflexivity|exact Ho|exact Hr|exact Hid|reflexivity|]. exact Hk.
Defined.

Lemma closing_unknown_drops_last_witness : ids (closeTab false [] (tab_name 9) demo_tabs) = [tab_name 1; tab_name 2].
Proof.
  destruct (closing_unknown_drops_last false [] (tab_name 9) demo_tabs) as [Hi _].
  - apply (bool_decide_unpack _). vm_compute. exact I.
  - apply (bool_decide_unpack _). vm_compute. exact I.
  - vm_compute. discriminate.
  - rewrite Hi. vm_compute. reflexivity.
Defined.

Lemma late_answer_marks_other_tab_witness :
  ∃ o, _tabById (tab_name 3) (tab_step 0 false [] None (Answered 0 ChooseKill) demo_moved) = Some o
       ∧ truthy (tab_get o "closing") = true.
Proof.
  assert (∃ o, _tabById (tab_name 2) demo_moved = Some o ∧ running o = true ∧ tab_get o "runId" = vstr "r2"
            ∧ tab_get o "closing" = VBool false) as (o & Ho & Hr & Hid & Hc).
  { eexists. split; [vm_compute; reflexivity|]. repeat split; vm_compute; reflexivity. }
  assert (∃ t, at_index 1 (ts_list demo_moved) = Some t ∧ tb_id t = tab_name 3 ∧ running (tb_obj t) = true
            ∧ _tabById (tb_id t) demo_moved = Some (tb_obj t)) as (t & Ht & Hti & Hrt & Hto).
  { eexists. split; [vm_compute; reflexivity|]. repeat split; vm_compute; reflexivity. }
  destruct (late_answer_marks_other_tab 0 false [] None demo_moved 0 (tab_name 2) 1 true o t (vstr "r2")) as (_ & _ & o' & Ho' & Hc');
    [vm_compute; reflexivity|exact Ho|exact Hr|exact Hid|reflexivity|exact Hc|exact Ht|exact Hto|exact Hrt| |].
  - rewrite Hti. vm_compute. discriminate.
  - exists o'. rewrite <-Hti. split; [exact Ho'|exact Hc'].
Defined.

(** Closing the active tab skips its right neighbour. *)
Example skips_right_neighbour :
  let w := tab_steps 0 false [] None
             [Create []; Create []; Create []; Create []; Activate (tab_name 2); CloseTab (tab_name 2)]
             (Tabs [] [] 0 [] [] []) in
  ids w = [tab_name 1; tab_name 3; tab_name 4] ∧ ts_active w = tab_name 4.
Proof. split; vm_compute; reflexivity. Qed.
