(* ===== verification/RunRecovery.v ===== *)
(** Finding a run again (app/static/js/runner.js): the recovery of a stream
    that ended without the end of its run, with its growing delays, and the
    reattachment of active runs to their tabs. *)

From S2P Require Import Prelude JsString JsNumber JsValue AppState RunStream RunTab RunLifecycle.

(** ** Definitions: the delays *)

(** [2 ** x], for an integer [x]. *)
Definition pow2 (x : num) : num :=
  match num_to_Z x with
  | Some n => if 1024 <=? n then Inf false else num_scale 1 n
  | None => x
  end.
Definition recovery_delay (attempts : num) : num :=
  num_min (nmul (num_of_Z 1000) (pow2 (num_max num_zero (nsub attempts (num_of_Z 2))))) (num_of_Z 5000).

(** ** Definitions: reattaching *)

Definition _activeRunIsInteractivePty (run : jsval) : bool :=
  if negb (is_objectlike run) then false
  else is_str (get run (js "run_type")) (js "pty") || is_true (get run (js "interactive")).

(** The command of a running tab; its label follows after a delay. *)
Definition setTabRunningCommand (command : jsval) : act :=
  let next := trim (str_of command) in
  on (nonempty next) (put "command" (VStr next) |> put "runningLabel" (VStr [])).
Definition running_label_due (next : jsstr) : act := λ s,
  if negb (is_running s) || negb (is_str (field "command" s) next) then s else put "runningLabel" (VStr next) s.

Definition command_echo (command : jsval) : act := emit (AppendLine command (vstr "prompt-echo") None).

Definition _activeRunReattachNotice (startedLabel : jsstr) (afterStreamRecovery : bool) : list jsstr :=
  [if afterStreamRecovery then js "[reattached to active run after stream recovery]"
   else js "[reattached to active run after reload]";
   js "[active run started at " ++ startedLabel ++ js "]";
   js "[live output will continue here]"].

(** What the browser's clock and calendar say of a run: [Date.parse] of its
    start, the local form of that date, and the time now. *)
Record when_started := WhenStarted { ws_parsed : num; ws_label : jsstr; ws_now : num }.
Definition run_start (ws : when_started) : num := if is_nan (ws_parsed ws) then ws_now ws else ws_parsed ws.

Section Recovery.
Context (pg : page).

Definition shown_running : act :=
  setTabStatus (js "running") |> on (pg_active pg) (emit (SetStatus (js "running")) |> emit SyncTimer)
  |> emit ShowKill |> emit (RunButtonDisabled true).

(** The object of the tab that shows the run. *)
Definition reattach_object (run : jsval) (ws : when_started) (mode : jsval) : act :=
  let f (k : string) := get run (js k) in
  let runId := str_of (f "run_id"%string) in
  setTabRunningCommand (f "command"%string)
  |> put "runId" (VStr runId) |> put "historyRunId" (VStr runId) |> put "historyRunKind" (vstr "external")
  |> put "scheduledRun" (VBool (truthy (f "scheduled"%string)))
  |> put "scheduleId" (VStr (str_of (f "schedule_id"%string)))
  |> put "reconnectedRun" (VBool true) |> put "attachMode" mode |> put "killed" (VBool false)
  |> put "pendingKill" (VBool false) |> put "previewTruncated" (VBool false)
  |> put "fullOutputAvailable" (VBool false) |> put "fullOutputLoaded" (VBool false)
  |> put "runStart" (VNum (run_start ws)).
Definition reattach_place : act := λ s,
  let index := to_number (field "currentRunStartIndex" s) in
  (put "currentRunStartIndex"
     (VNum (if is_finite index then index else num_of_nat (length (items_of (field "rawLines" s)))))
   |> put "followOutput" (VBool true)) s.
(** The echo and the notice, and the controls of a running tab. *)
Definition reattach_lines (run : jsval) (ws : when_started) (afterStreamRecovery preserveTranscript : bool) : act := λ s,
  let runId := str_of (get run (js "run_id")) in
  let s := on (negb preserveTranscript || bool_decide (items_of (field "rawLines" s) = []))
             (command_echo (get run (js "command"))) s in
  let noticeShown := afterStreamRecovery && is_str (field "streamRecoveryNoticeRunId" s) runId in
  let s := on (negb noticeShown)
             (seq_all (map (λ line, emit (AppendLine (VStr line) (vstr "notice") None))
                        (_activeRunReattachNotice (ws_label ws) afterStreamRecovery))) s in
  (on afterStreamRecovery (put "streamRecoveryNoticeRunId" (VStr runId)) |> shown_running) s.

Definition _reattachActiveRunToTab (run : jsval) (ws : when_started) (after : jsval)
    (afterStreamRecovery : bool) (mode : jsval) (preserveTranscript : bool) : act := λ s,
  if negb (truthy run) || negb (nonempty (pg_tabId pg)) then s else
  let s := on (negb preserveTranscript) (clearTab pg false) s in
  if negb (has_tab s) then s else
  let s := reattach_place (reattach_object run ws mode s) in
  let resumeAfter := str_of (js_or after (js_or (field "lastEventId" s) (get run (js "last_event_id")))) in
  (on (negb (nonempty resumeAfter)) (put "lastEventId" (VStr []))
   |> reattach_lines run ws afterStreamRecovery preserveTranscript
   |> emit (SubscribeRun (str_of (get run (js "run_id"))) resumeAfter) |> emit StartPolling) s.

(** [_attachActiveRunToTab]: take over a run in a fresh tab; that its run is
    not detached any more is recorded by the caller's store. *)
Definition _attachActiveRunToTab (run : jsval) (ws : when_started) (mode : jsval) : act := λ s,
  if negb (truthy run) || negb (nonempty (pg_tabId pg)) then s else
  let s := clearTab pg false s in
  if negb (has_tab s) then s else
  let f (k : string) := get run (js k) in
  (setTabRunningCommand (f "command"%string)
   |> put "runId" (f "run_id"%string) |> put "historyRunId" (f "run_id"%string)
   |> put "historyRunKind" (vstr "external") |> put "scheduledRun" (VBool (truthy (f "scheduled"%string)))
   |> put "scheduleId" (VStr (str_of (f "schedule_id"%string))) |> put "lastEventId" (VStr [])
   |> put "attachMode" mode |> put "reconnectedRun" (VBool true) |> put "killed" (VBool false)
   |> put "pendingKill" (VBool false) |> put "previewTruncated" (VBool false)
   |> put "fullOutputAvailable" (VBool false) |> put "fullOutputLoaded" (VBool false)
   |> put "runStart" (VNum (run_start ws)) |> put "currentRunStartIndex" (VNum num_zero)
   |> put "followOutput" (VBool true) |> command_echo (f "command"%string)
   |> emit (AppendLine (VStr (js "[attached to active run started at " ++ ws_label ws ++ js "]")) (vstr "notice") None)
   |> emit (AppendLine (vstr "[restored available output; live output will continue here]") (vstr "notice") None)
   |> shown_running
   |> emit (SubscribeRun (str_of (f "run_id"%string)) (str_of (f "last_event_id"%string)))) s.

(** ** Definitions: recovering a stream *)

(** A timer keeps the run, the place and the mode it was set with. *)
Record pending := Pending { pe_run : jsval; pe_when : when_started; pe_after : jsval; pe_mode : jsval }.
Record recovery := Recovery { rc_view : view; rc_timer : option pending }.
Definition on_view (a : act) (st : recovery) : recovery := Recovery (a (rc_view st)) (rc_timer st).

(** [recover], called at once or by the timer. *)
Definition recover (p : pending) (st : recovery) : recovery :=
  let s := rc_view st in
  if negb (has_tab s) || flag "killed" s
     || negb (strict_eq (_tabRunGeneration s) (VStr (str_of (get (pe_run p) (js "run_id"))))) then Recovery s None
  else
    let after := js_or (field "lastEventId" s) (js_or (pe_after p) (get (pe_run p) (js "last_event_id"))) in
    Recovery (_reattachActiveRunToTab (pe_run p) (pe_when p) after true (pe_mode p) true s) None.

Definition _scheduleActiveRunStreamRecovery (p : pending) (st : recovery) : recovery :=
  let s := rc_view st in
  if negb (has_tab s) || negb (truthy (pe_run p)) || negb (truthy (get (pe_run p) (js "run_id"))) then st else
  match rc_timer st with
  | Some _ => st
  | None =>
      let attempts := nadd (to_number (js_or (field "streamRecoveryAttempts" s) (VNum num_zero))) (num_of_Z 1) in
      let s := put "streamRecoveryAttempts" (VNum attempts) s in
      if nleb attempts (num_of_Z 1) then recover p (Recovery s None)
      else Recovery (emit (RecoveryTimer (recovery_delay attempts)) s) (Some p)
  end.

(** The timer fires. *)
Definition timer_fires (st : recovery) : recovery :=
  match rc_timer st with Some p => recover p st | None => st end.

(** The answer to the question [_handleStreamEndedWithoutExit] asked: the
    active run of the tab, or none. *)
Definition stream_ended_answer (activeRun : option (jsval * when_started)) (st : recovery) : recovery :=
  let s := rc_view st in
  if negb (has_tab s) || flag "killed" s then st else
  match activeRun with
  | Some (run, ws) =>
      if _activeRunIsInteractivePty run then on_view (emit (AttachPty run)) st
      else _scheduleActiveRunStreamRecovery
             (Pending run ws (js_or (field "lastEventId" s) (js_or (get run (js "last_event_id")) (VStr [])))
                      (js_or (field "attachMode" s) (vstr "reconnected"))) st
  | None =>
      Recovery ((emit ClearRecovery |> put "streamRecoveryAttempts" (VNum num_zero) |> emit StopTimer
                 |> emit (RunButtonDisabled false) |> emit HideKill) s) None
  end.

Definition is_clear (e : effect) : bool := match e with ClearRecovery => true | _ => false end.
(** Anything else that happens to the tab; it may clear the timer. *)
Definition tab_acts (a : act) (st : recovery) : recovery :=
  let s := a (View (v_tab (rc_view st)) (v_unknown (rc_view st)) (v_stalled (rc_view st)) []) in
  Recovery (View (v_tab s) (v_unknown s) (v_stalled s) (v_effects (rc_view st) ++ v_effects s))
           (if existsb is_clear (v_effects s) then None else rc_timer st).

(** ** Definitions: reconnected runs that ended elsewhere *)

Definition _markReconnectedRunUnavailable : act :=
  emit (AppendLine (vstr "[reconnected run is no longer active]") (vstr "denied") None)
  |> emit (AppendLine (vstr "[no saved result is available; the app may have restarted while the command was running]")
             (vstr "denied") None)
  |> setTabStatus (js "fail")
  |> put "reconnectedRun" (VBool false) |> put "runId" VNull
  |> on (pg_active pg) (emit (SetStatus (js "fail")) |> emit StopTimer)
  |> emit (RunButtonDisabled false) |> emit HideKill.

(** The two outcomes of restoring a saved run into its tab. *)
Definition restored_reconnected : act :=
  put "reconnectedRun" (VBool false) |> on (pg_active pg) (emit StopTimer).
Definition restore_failed : act :=
  emit (AppendLine (vstr "[reconnected run finished, but the saved result could not be restored automatically]")
          (vstr "notice") None)
  |> emit (AppendLine (vstr "[open the history panel to load the completed run]") (vstr "notice") None)
  |> setTabStatus (js "fail") |> put "reconnectedRun" (VBool false) |> on (pg_active pg) (emit StopTimer).

(** The reconnect poll looks at running, reconnected tabs that know their run. *)
Definition polls (s : view) : bool := is_running s && flag "reconnectedRun" s && flag "historyRunId" s.
End Recovery.

(** ** Lemmas *)

(** A call that opens no stream and closes no tab. *)
Definition plain_effect (e : effect) : Prop := match e with SubscribeRun _ _ | FinalizeClosingTab => False | _ => True end.

(** What reattaching sets. *)
Definition reattach_keys : list string :=
  ["command"; "runningLabel"; "runId"; "historyRunId"; "historyRunKind"; "scheduledRun"; "scheduleId"; "reconnectedRun";
   "attachMode"; "killed"; "pendingKill"; "previewTruncated"; "fullOutputAvailable"; "fullOutputLoaded"; "runStart";
   "currentRunStartIndex"; "followOutput"; "lastEventId"; "streamRecoveryNoticeRunId"; "st"].

(** What clearing a tab sets. *)
Definition clear_keys : list string :=
  ["suppressOutputScrollTracking"; "deferPromptMount"; "rawLines"; "commandOutcomeSummary"; "followOutput"; "closing";
   "runStart"; "currentRunStartIndex"; "previewTruncated"; "fullOutputAvailable"; "fullOutputLoaded"; "historyRunId";
   "historyRunKind"; "reconnectedRun"; "runningLabel"; "st"].

Section Reattach.
Context (pg : page).

Lemma object_changes run ws mode s : changes reattach_keys plain_effect s (reattach_object run ws mode s).
Proof. unfold reattach_object, setTabRunningCommand. tame_steps. Qed.
Lemma place_changes s : changes reattach_keys plain_effect s (reattach_place s).
Proof. unfold reattach_place. tame_steps. Qed.
Lemma lines_changes run ws recovering preserve s :
  changes reattach_keys plain_effect s (reattach_lines pg run ws recovering preserve s).
Proof.
  unfold reattach_lines, shown_running, setTabStatus, command_echo, _activeRunReattachNotice, seq_all.
  cbn [map fold_left]. tame_steps.
Qed.

Lemma lines_keep run ws recovering preserve k s :
  k ∈ ["runId"; "historyRunId"; "killed"; "currentRunStartIndex"; "rawLines"]%string →
  field k (reattach_lines pg run ws recovering preserve s) = field k s.
Proof.
  intros Hk. unfold reattach_lines, shown_running, setTabStatus, command_echo, _activeRunReattachNotice, seq_all.
  cbn [map fold_left]. rewrite !elem_of_cons, elem_of_nil in Hk.
  destruct Hk as [->|[->|[->|[->|[->|[]]]]]]; field_steps; reflexivity.
Qed.
Lemma lines_running run ws recovering preserve s :
  has_tab s = true → field "st" (reattach_lines pg run ws recovering preserve s) = vstr "running".
Proof.
  intros Ht. unfold reattach_lines, shown_running, setTabStatus, command_echo, _activeRunReattachNotice, seq_all.
  cbn [map fold_left]. field_steps.
Qed.

(** The object and the place together. *)
Definition reattached (run : jsval) (ws : when_started) (mode : jsval) (s : view) : view :=
  reattach_place (reattach_object run ws mode s).
Lemma reattached_fields run ws mode s :
  has_tab s = true →
  let s1 := reattached run ws mode s in
  let runId := str_of (get run (js "run_id")) in
  field "runId" s1 = VStr runId ∧ field "historyRunId" s1 = VStr runId ∧ field "killed" s1 = VBool false
  ∧ field "lastEventId" s1 = field "lastEventId" s ∧ field "rawLines" s1 = field "rawLines" s
  ∧ field "currentRunStartIndex" s1
    = VNum (if is_finite (to_number (field "currentRunStartIndex" s)) then to_number (field "currentRunStartIndex" s)
            else num_of_nat (length (items_of (field "rawLines" s)))).
Proof.
  intros Ht. set (s1 := reattach_object run ws mode s).
  assert (∀ k, k ∈ ["currentRunStartIndex"; "rawLines"; "lastEventId"]%string → field k s1 = field k s) as Hf.
  { intros k Hk. rewrite !elem_of_cons, elem_of_nil in Hk. unfold s1, reattach_object, setTabRunningCommand.
    destruct Hk as [->|[->|[->|[]]]]; field_steps; reflexivity. }
  assert (has_tab s1 = true) as Ht1 by (destruct (object_changes run ws mode s) as [E _]; exact (eq_trans E Ht)).
  cbv zeta. unfold reattached, reattach_place. cbv zeta. fold s1.
  rewrite <-(Hf "currentRunStartIndex"%string), <-(Hf "rawLines"%string), <-(Hf "lastEventId"%string)
    by (apply (bool_decide_unpack _); vm_compute; exact I).
  repeat split; field_steps; try reflexivity; unfold s1, reattach_object, setTabRunningCommand; field_steps.
Qed.

Lemma clear_changes b s : changes clear_keys plain_effect s (clearTab pg b s).
Proof. unfold clearTab, setTabStatus. tame_steps. Qed.

(** The view the run is attached to. *)
Definition prepared (preserve : bool) (s : view) : view := on (negb preserve) (clearTab pg false) s.
Lemma prepared_changes preserve s : changes clear_keys plain_effect s (prepared preserve s).
Proof. unfold prepared. destruct preserve; [apply changes_refl|apply clear_changes]. Qed.

Lemma reattach_shape run ws after recovering mode preserve s :
  truthy run = true → pg_tabId pg ≠ [] → has_tab s = true →
  let s1 := reattached run ws mode (prepared preserve s) in
  let resumeAfter := str_of (js_or after (js_or (field "lastEventId" s) (get run (js "last_event_id")))) in
  _reattachActiveRunToTab pg run ws after recovering mode preserve s
  = emit StartPolling (emit (SubscribeRun (str_of (get run (js "run_id"))) resumeAfter)
      (reattach_lines pg run ws recovering preserve
         (on (negb (nonempty resumeAfter)) (put "lastEventId" (VStr [])) s1))).
Proof.
  intros Hr Hid Ht. destruct (prepared_changes preserve s) as (Htp & Hfp & _). rewrite Ht in Htp.
  rewrite <-(Hfp "lastEventId"%string) by (apply (bool_decide_unpack _); vm_compute; exact I).
  destruct (reattached_fields run ws mode (prepared preserve s) Htp) as (_ & _ & _ & <- & _).
  cbv zeta. unfold _reattachActiveRunToTab. rewrite Hr, (proj2 (nonempty_spec _) Hid). cbn [negb orb].
  change (on (negb preserve) (clearTab pg false) s) with (prepared preserve s). cbv zeta. rewrite Htp. reflexivity.
Qed.

(** Reattaching: one subscription, to the rest of the run. *)
Lemma reattach_subscribes run ws after recovering mode preserve s :
  truthy run = true → pg_tabId pg ≠ [] → has_tab s = true →
  let runId := str_of (get run (js "run_id")) in
  let resumeAfter := str_of (js_or after (js_or (field "lastEventId" s) (get run (js "last_event_id")))) in
  let s' := _reattachActiveRunToTab pg run ws after recovering mode preserve s in
  (∃ es, v_effects s' = v_effects s ++ es ++ [SubscribeRun runId resumeAfter; StartPolling] ∧ Forall plain_effect es)
  ∧ has_tab s' = true ∧ field "runId" s' = VStr runId ∧ field "historyRunId" s' = VStr runId
  ∧ flag "killed" s' = false ∧ is_running s' = true
  ∧ field "rawLines" s' = field "rawLines" (prepared preserve s).
Proof.
  intros Hr Hid Ht. cbv zeta. rewrite (reattach_shape run ws after recovering mode preserve s Hr Hid Ht).
  pose proof (prepared_changes preserve s) as Hc0. set (s0 := prepared preserve s) in *. clearbody s0.
  assert (has_tab s0 = true) as Ht0 by (destruct Hc0 as [E _]; exact (eq_trans E Ht)).
  destruct (reattached_fields run ws mode s0 Ht0) as (Hrun & Hh & Hk & Hl & Hraw & _).
  assert (changes reattach_keys plain_effect s0 (reattached run ws mode s0)) as Hc1
    by (eapply changes_trans; [apply object_changes|apply place_changes]).
  set (s1 := reattached run ws mode s0) in *. set (resumeAfter := str_of (js_or after _)).
  set (s2 := on _ (put "lastEventId" _) s1).
  assert (changes reattach_keys plain_effect s0 s2) as Hc2 by (eapply changes_trans; [exact Hc1|unfold s2; tame_steps]).
  assert (∀ k, js "lastEventId" ≠ js k → field k s2 = field k s1) as Hf2
    by (intros k Hne; unfold s2; destruct (negb _); [cbn [on]; by rewrite field_put_ne|done]).
  assert (has_tab s2 = true) as Ht2 by (destruct Hc2 as [E _]; exact (eq_trans E Ht0)). clearbody s1 s2.
  destruct (changes_trans _ _ _ _ _ Hc2 (lines_changes run ws recovering preserve s2)) as (Ht3 & _ & es & He & Hes).
  assert (∀ k, k ∈ ["runId"; "historyRunId"; "killed"; "currentRunStartIndex"; "rawLines"]%string →
    js "lastEventId" ≠ js k → field k (reattach_lines pg run ws recovering preserve s2) = field k s1) as Hf.
  { intros k Hin Hne. rewrite lines_keep by done. by apply Hf2. }
  pose proof (lines_running run ws recovering preserve s2 Ht2) as Hst.
  set (s3 := reattach_lines pg run ws recovering preserve s2) in *. clearbody s3.
  destruct Hc0 as (_ & _ & es0 & He0 & Hes0).
  split; [exists (es0 ++ es); split; [cbn; by rewrite He, He0, <-!app_assoc|by apply Forall_app]|].
  assert (∀ k, field k (emit StartPolling (emit (SubscribeRun (str_of (get run (js "run_id"))) resumeAfter) s3)) = field k s3) as Hem by done.
  unfold flag, is_running. rewrite !Hem, Hst. split; [exact (eq_trans Ht3 Ht0)|].
  rewrite !Hf by (apply (bool_decide_unpack _); vm_compute; exact I).
  rewrite Hrun, Hh, Hk, Hraw. repeat split.
Qed.
End Reattach.

(** ** The delays *)

Lemma small_delays :
  map (λ n, num_min (nmul (num_of_Z 1000) (num_scale 1 (Z.of_nat n))) (num_of_Z 5000)) (seq 0 1024)
  = map (λ n, num_of_Z (Z.min (1000 * 2 ^ Z.of_nat n) 5000)) (seq 0 1024).
Proof. vm_compute. reflexivity. Qed.

Lemma delay_at k : 2 ≤ k < 2 ^ 53 → recovery_delay (num_of_Z k) = num_of_Z (Z.min (1000 * 2 ^ (k - 2)) 5000).
Proof.
  intros Hk. unfold recovery_delay. rewrite nsub_of_Z by lia. change num_zero with (num_of_Z 0).
  rewrite num_max_of_Z, Z.max_r by lia. unfold pow2. rewrite num_to_Z_of_Z by lia.
  destruct (Z.leb_spec 1024 (k - 2)) as [Hbig|Hsmall].
  - rewrite Z.min_r; [vm_compute; reflexivity|].
    pose proof (Z.pow_le_mono_r 2 3 (k - 2)). change (2 ^ 3) with 8 in *. lia.
  - pose proof (f_equal (λ l, l !! Z.to_nat (k - 2)) small_delays) as H. cbv beta in H.
    change (@map nat num) with (@fmap list _ nat num) in H.
    rewrite !list_lookup_fmap, lookup_seq_lt, Nat.add_0_l in H by lia. cbn [fmap option_fmap option_map] in H.
    injection H as H. rewrite Z2Nat.id in H by lia. exact H.
Qed.

Lemma attempts_at k s :
  1 ≤ k → k < 2 ^ 53 →
  field "streamRecoveryAttempts" s = VNum (num_of_Z (k - 1)) →
  nadd (to_number (js_or (field "streamRecoveryAttempts" s) (VNum num_zero))) (num_of_Z 1) = num_of_Z k.
Proof.
  intros H1 Hk ->. assert (to_number (js_or (VNum (num_of_Z (k - 1))) (VNum num_zero)) = num_of_Z (k - 1)) as ->.
  { destruct (k - 1) as [|p|p] eqn:E; [done| |lia].
    by destruct (num_of_Z_finite p ltac:(lia)) as (m & e & ->). }
  rewrite nadd_of_Z by lia. f_equal. lia.
Qed.

(** ** Theorems *)

Section Claims.
Context (pg : page) (Hid : pg_tabId pg ≠ []).

Definition run_id_of (run : jsval) : jsstr := str_of (get run (js "run_id")).
(** Where a recovery asks to go on: after the last event the tab has seen. *)
Definition resume_point (p : pending) (s : view) : jsstr :=
  str_of (js_or (field "lastEventId" s) (js_or (pe_after p) (get (pe_run p) (js "last_event_id")))).
(** The tab shows the run of [p]. *)
Definition shows_run (p : pending) (s : view) : Prop :=
  has_tab s = true ∧ flag "killed" s = false
  ∧ strict_eq (_tabRunGeneration s) (VStr (run_id_of (pe_run p))) = true.
(** From [s] to [s'] one stream was opened, to the rest of the run. *)
Definition resubscribed (p : pending) (s s' : view) : Prop :=
  (∃ es, v_effects s' = v_effects s ++ es ++ [SubscribeRun (run_id_of (pe_run p)) (resume_point p s); StartPolling]
         ∧ Forall plain_effect es)
  ∧ is_running s' = true ∧ field "runId" s' = VStr (run_id_of (pe_run p)) ∧ flag "killed" s' = false.

Lemma js_or_twice a b c : str_of (js_or (js_or a (js_or b c)) (js_or a c)) = str_of (js_or a (js_or b c)).
Proof. unfold js_or. destruct (truthy a) eqn:Ha, (truthy b) eqn:Hb, (truthy c) eqn:Hc; by rewrite ?Ha, ?Hb, ?Hc. Qed.

Lemma recover_subscribes p st :
  truthy (pe_run p) = true → shows_run p (rc_view st) →
  rc_timer (recover pg p st) = None ∧ resubscribed p (rc_view st) (rc_view (recover pg p st)).
Proof.
  intros Hr (Ht & Hk & Hg). unfold recover. cbv zeta. unfold run_id_of in Hg. rewrite Ht, Hk, Hg. cbn [negb orb rc_timer rc_view].
  split; [done|].
  destruct (reattach_subscribes pg (pe_run p) (pe_when p) (js_or (field "lastEventId" (rc_view st))
    (js_or (pe_after p) (get (pe_run p) (js "last_event_id")))) true (pe_mode p) true (rc_view st) Hr Hid Ht)
    as (Hes & _ & Hrun & _ & Hkl & Hst & _).
  rewrite js_or_twice in Hes. done.
Qed.

Lemma recover_quiet p st : ¬ shows_run p (rc_view st) → recover pg p st = Recovery (rc_view st) None.
Proof.
  intros Hn. unfold recover. cbv zeta. case_match eqn:E; [done|]. exfalso. apply Hn.
  rewrite !orb_false_iff, !negb_false_iff in E. destruct E as [[? ?] ?]. done.
Qed.

Definition counted (n : num) (s : view) : view := put "streamRecoveryAttempts" (VNum n) s.
Lemma counted_field n k s : js "streamRecoveryAttempts" ≠ js k → field k (counted n s) = field k s.
Proof. apply field_put_ne. Qed.
Lemma counted_generation n s : _tabRunGeneration (counted n s) = _tabRunGeneration s.
Proof. unfold _tabRunGeneration. by rewrite !counted_field by by vm_compute. Qed.
Lemma counted_shows n p s : shows_run p (counted n s) ↔ shows_run p s.
Proof.
  unfold shows_run, flag. rewrite counted_generation, counted_field by by vm_compute.
  unfold counted. by rewrite has_tab_put.
Qed.
Lemma counted_resubscribed n p s s' : resubscribed p (counted n s) s' → resubscribed p s s'.
Proof. unfold resubscribed, resume_point. by rewrite counted_field by by vm_compute. Qed.

(** What the answer schedules: the run, from the last event seen. *)
Definition answered (run : jsval) (ws : when_started) (s : view) : pending :=
  Pending run ws (js_or (field "lastEventId" s) (js_or (get run (js "last_event_id")) (VStr [])))
    (js_or (field "attachMode" s) (vstr "reconnected")).
Definition attempt (s : view) : num :=
  nadd (to_number (js_or (field "streamRecoveryAttempts" s) (VNum num_zero))) (num_of_Z 1).

Lemma answer_schedules run ws st :
  has_tab (rc_view st) = true → flag "killed" (rc_view st) = false → _activeRunIsInteractivePty run = false →
  truthy run = true → truthy (get run (js "run_id")) = true → rc_timer st = None →
  let p := answered run ws (rc_view st) in
  let s := counted (attempt (rc_view st)) (rc_view st) in
  stream_ended_answer pg (Some (run, ws)) st
  = if nleb (attempt (rc_view st)) (num_of_Z 1) then recover pg p (Recovery s None)
    else Recovery (emit (RecoveryTimer (recovery_delay (attempt (rc_view st)))) s) (Some p).
Proof.
  intros Ht Hk Hp Hr Hrid Hno. cbv zeta. unfold stream_ended_answer. cbv zeta. rewrite Ht, Hk, Hp. cbn [negb orb].
  unfold _scheduleActiveRunStreamRecovery. cbn [pe_run]. rewrite Ht, Hr, Hrid, Hno. reflexivity.
Qed.

Definition acts_in_turn (acts : list act) (st : recovery) : recovery := fold_left (λ st a, tab_acts a st) acts st.
Lemma acts_keep_timer acts st : rc_timer (acts_in_turn acts st) = rc_timer st ∨ rc_timer (acts_in_turn acts st) = None.
Proof.
  revert st. induction acts as [|a acts IH]; intros st; [by left|].
  change (acts_in_turn (a :: acts) st) with (acts_in_turn acts (tab_acts a st)).
  destruct (IH (tab_acts a st)) as [->| ->]; [|by right]. unfold tab_acts. cbn. case_match; auto.
Qed.

(** C10: A stream that ended without the end of its run is taken up again. When
    the server says the tab's run is still active, the tab subscribes to it at
    once or a timer is set; and whatever happens to the tab before the timer
    fires, if it did not take the timer away and the tab still shows that run
    and was not killed, firing subscribes. The subscription asks for the events
    after the last one the tab has seen by then, and the tab shows the run as
    running. *)
Theorem ended_stream_resubscribes run ws st :
  has_tab (rc_view st) = true → flag "killed" (rc_view st) = false → _activeRunIsInteractivePty run = false →
  truthy run = true → truthy (get run (js "run_id")) = true → rc_timer st = None →
  strict_eq (_tabRunGeneration (rc_view st)) (VStr (run_id_of run)) = true →
  let p := answered run ws (rc_view st) in
  let st1 := stream_ended_answer pg (Some (run, ws)) st in
  (rc_timer st1 = None ∧ resubscribed p (rc_view st) (rc_view st1))
  ∨ (∃ delay, v_effects (rc_view st1) = v_effects (rc_view st) ++ [RecoveryTimer delay])
    ∧ ∀ acts, let st2 := acts_in_turn acts st1 in
      rc_timer st2 ≠ None → shows_run p (rc_view st2) →
      rc_timer (timer_fires pg st2) = None ∧ resubscribed p (rc_view st2) (rc_view (timer_fires pg st2)).
Proof.
  intros Ht Hk Hp Hr Hrid Hno Hg. cbv zeta. rewrite answer_schedules by done.
  set (p := answered run ws (rc_view st)). set (s := counted _ (rc_view st)).
  assert (shows_run p s) as Hs by by apply counted_shows. case_match.
  - left. destruct (recover_subscribes p (Recovery s None) Hr Hs) as [Hno' Hsub]. split; [done|].
    eapply counted_resubscribed, Hsub.
  - right. split; [by eexists|]. intros acts Htm Hsh.
    destruct (acts_keep_timer acts (Recovery (emit (RecoveryTimer (recovery_delay (attempt (rc_view st)))) s) (Some p)))
      as [E|E]; [|done].
    unfold timer_fires. rewrite E. cbn [rc_timer]. by apply recover_subscribes.
Qed.

(** Recovery backs off. On the [k]-th end in a row the wait is
    [min(1000 * 2^(k-2), 5000)] milliseconds, exactly, for every count a
    double holds; the count is kept, and a second end while the timer runs
    changes nothing. *)
Theorem recovery_backs_off run ws k st :
  2 ≤ k < 2 ^ 53 →
  has_tab (rc_view st) = true → flag "killed" (rc_view st) = false → _activeRunIsInteractivePty run = false →
  truthy run = true → truthy (get run (js "run_id")) = true → rc_timer st = None →
  field "streamRecoveryAttempts" (rc_view st) = VNum (num_of_Z (k - 1)) →
  let st1 := stream_ended_answer pg (Some (run, ws)) st in
  v_effects (rc_view st1) = v_effects (rc_view st) ++ [RecoveryTimer (num_of_Z (Z.min (1000 * 2 ^ (k - 2)) 5000))]
  ∧ field "streamRecoveryAttempts" (rc_view st1) = VNum (num_of_Z k)
  ∧ stream_ended_answer pg (Some (run, ws)) st1 = st1.
Proof.
  intros Hk Ht Hkl Hp Hr Hrid Hno Ha. cbv zeta. rewrite answer_schedules by done.
  assert (attempt (rc_view st) = num_of_Z k) as -> by (apply attempts_at; [lia|lia|done]).
  assert (nleb (num_of_Z k) (num_of_Z 1) = false) as ->.
  { unfold nleb, SFleb. rewrite compare_of_Z by lia. by destruct (Z.compare_spec k 1); try lia. }
  rewrite delay_at by done. split; [done|]. split; [by apply field_put_eq|].
  unfold stream_ended_answer. cbn [rc_view].
  set (s := counted _ (rc_view st)).
  assert (has_tab s = true) as Ht1 by (unfold s, counted; by rewrite has_tab_put).
  assert (flag "killed" s = false) as Hk1 by (unfold flag, s; by rewrite counted_field by by vm_compute).
  change (has_tab (emit ?e s)) with (has_tab s). change (flag "killed" (emit ?e s)) with (flag "killed" s).
  rewrite Ht1, Hk1, Hp. cbn [negb orb]. unfold _scheduleActiveRunStreamRecovery. cbn [rc_view rc_timer pe_run].
  by case_match.
Qed.

(** What recovery does by itself: an answer arrives, the timer fires. *)
Definition recovery_step (fires : bool) (answer : option (jsval * when_started)) (st : recovery) : recovery :=
  if fires then timer_fires pg st else stream_ended_answer pg answer st.

Lemma plain_elem es r a : Forall plain_effect es → SubscribeRun r a ∉ es.
Proof. intros H Hin. rewrite Forall_forall in H. by apply H in Hin. Qed.

Lemma recover_only_shown p st r a es :
  truthy (pe_run p) = true →
  v_effects (rc_view (recover pg p st)) = v_effects (rc_view st) ++ es → SubscribeRun r a ∈ es →
  r = run_id_of (pe_run p) ∧ shows_run p (rc_view st).
Proof.
  intros Hr He Hin. destruct (decide (shows_run p (rc_view st))) as [Hs|Hs].
  - destruct (recover_subscribes p st Hr Hs) as (_ & (es' & He' & Hes') & _).
    rewrite He in He'. apply app_inv_head in He' as ->. split; [|done].
    apply elem_of_app in Hin as [Hin|Hin]; [by apply plain_elem in Hin|].
    rewrite !elem_of_cons, elem_of_nil in Hin. destruct Hin as [[= -> _]|[[=]|[]]]. done.
  - rewrite recover_quiet in He by done. cbn in He. rewrite <-(app_nil_r (v_effects (rc_view st))) in He at 1.
    apply app_inv_head in He as <-. by apply not_elem_of_nil in Hin.
Qed.

(** Recovery never revives what was killed or replaced. Whenever an answer
    or a timer opens a stream to a run, the tab is there, it was not killed,
    and it shows that very run; for every timer, however old. *)
Theorem recovery_needs_its_run fires answer st r a es :
  (∀ p, rc_timer st = Some p → truthy (pe_run p) = true) →
  v_effects (rc_view (recovery_step fires answer st)) = v_effects (rc_view st) ++ es → SubscribeRun r a ∈ es →
  has_tab (rc_view st) = true ∧ flag "killed" (rc_view st) = false
  ∧ strict_eq (_tabRunGeneration (rc_view st)) (VStr r) = true.
Proof.
  intros Htm He Hin.
  assert (∀ es', v_effects (rc_view st) ++ es' = v_effects (rc_view st) ++ es → SubscribeRun r a ∈ es') as Hes
    by (intros es' E; by apply app_inv_head in E as ->).
  assert (v_effects (rc_view st) ++ [] = v_effects (rc_view st) ++ es → False) as Hnil
    by (intros E; by apply Hes, not_elem_of_nil in E).
  rewrite app_nil_r in Hnil. destruct fires; cbn [recovery_step] in He.
  - unfold timer_fires in He. destruct (rc_timer st) as [p|] eqn:E; [|by apply Hnil in He].
    destruct (recover_only_shown p st r a es (Htm p eq_refl) He Hin) as [-> Hs]. exact Hs.
  - unfold stream_ended_answer in He. cbv zeta in He.
    destruct (negb (has_tab (rc_view st)) || flag "killed" (rc_view st)) eqn:Hok; [by apply Hnil in He|].
    destruct answer as [[run ws]|].
    2:{ specialize (Hes [ClearRecovery; StopTimer; RunButtonDisabled false; HideKill]). cbn in He.
        rewrite <-!app_assoc in He. specialize (Hes He). repeat (apply elem_of_cons in Hes as [[=]|Hes]). by apply not_elem_of_nil in Hes. }
    destruct (_activeRunIsInteractivePty run).
    { specialize (Hes [AttachPty run] He). apply list_elem_of_singleton in Hes. done. }
    unfold _scheduleActiveRunStreamRecovery in He. cbn [pe_run] in He.
    destruct (negb (has_tab _) || negb (truthy run) || negb (truthy (get run (js "run_id")))) eqn:Hg; [by apply Hnil in He|].
    destruct (rc_timer st) eqn:Ht; [by apply Hnil in He|]. apply orb_false_iff in Hg as [[_ Hr%negb_false_iff]%orb_false_iff _].
    destruct (nleb _ _).
    + destruct (recover_only_shown (answered run ws (rc_view st)) (Recovery (counted (attempt (rc_view st)) (rc_view st)) None)
                  r a es Hr He Hin) as [-> Hs]. by eapply counted_shows.
    + specialize (Hes [RecoveryTimer _] He). apply list_elem_of_singleton in Hes. done.
Qed.

(** A stream that ended with its run gone leaves a running tab behind. The
    server says the run is not active any more; the timer is dropped, the
    clock stops, the run button is free and the kill button gone, but the tab
    keeps its running status, and nothing else is asked or shown. *)
Theorem ended_run_stays_running st :
  has_tab (rc_view st) = true → flag "killed" (rc_view st) = false → is_running (rc_view st) = true →
  let st1 := stream_ended_answer pg None st in
  is_running (rc_view st1) = true ∧ rc_timer st1 = None
  ∧ v_effects (rc_view st1) = v_effects (rc_view st) ++ [ClearRecovery; StopTimer; RunButtonDisabled false; HideKill]
  ∧ field "streamRecoveryAttempts" (rc_view st1) = VNum num_zero.
Proof.
  intros Ht Hk Hr. cbv zeta. unfold stream_ended_answer. cbv zeta. rewrite Ht, Hk. cbn [negb orb rc_view rc_timer].
  split; [|split; [done|split]].
  - unfold is_running in *. cbv beta. by rewrite !field_emit, field_put_ne, field_emit by by vm_compute.
  - cbn. by rewrite <-!app_assoc.
  - cbv beta. rewrite !field_emit. by apply field_put_eq.
Qed.
End Claims.

(** ** Concrete runs *)

Definition demo_active : jsval :=
  VObj [(js "run_id", vstr "r1"); (js "command", vstr "ping darklab.sh"); (js "last_event_id", vstr "3")].
Definition demo_when : when_started := WhenStarted (num_of_Z 5) (js "today") (num_of_Z 9).
Definition demo_pg : page := Page (js "tab-1") true true false (js "c").
Definition demo_recovery (attempts : Z) : recovery :=
  Recovery (View (Some [(js "id", vstr "tab-1"); (js "st", vstr "running"); (js "runId", vstr "r1");
                        (js "killed", VBool false); (js "lastEventId", vstr "7"); (js "rawLines", VArr []);
                        (js "streamRecoveryAttempts", vint attempts)]) [] false []) None.

Lemma ended_stream_resubscribes_witness :
  v_effects (rc_view (timer_fires demo_pg (acts_in_turn [put "lastEventId" (vstr "9")]
    (stream_ended_answer demo_pg (Some (demo_active, demo_when)) (demo_recovery 1)))))
  !! 10%nat = Some (SubscribeRun (js "r1") (js "9"))
  ∧ is_running (rc_view (stream_ended_answer demo_pg (Some (demo_active, demo_when)) (demo_recovery 0))) = true.
Proof.
  split; [vm_compute; reflexivity|].
  destruct (ended_stream_resubscribes demo_pg ltac:(discriminate) demo_active demo_when (demo_recovery 0)) as [[_ (_ & Hst & _)]|[[delay Hd] _]];
    [vm_compute; reflexivity|vm_compute; reflexivity|vm_compute; reflexivity|vm_compute; reflexivity|vm_compute; reflexivity
    |reflexivity|vm_compute; reflexivity|exact Hst|vm_compute in Hd; discriminate].
Defined.

Lemma recovery_backs_off_witness :
  v_effects (rc_view (stream_ended_answer demo_pg (Some (demo_active, demo_when)) (demo_recovery 3)))
  = [RecoveryTimer (num_of_Z 4000)].
Proof.
  destruct (recovery_backs_off demo_pg demo_active demo_when 4 (demo_recovery 3)) as [He _];
    [lia|vm_compute; reflexivity|vm_compute; reflexivity|vm_compute; reflexivity|vm_compute; reflexivity|vm_compute; reflexivity
    |reflexivity|vm_compute; reflexivity|]. exact He.
Defined.

Definition demo_waiting : recovery := stream_ended_answer demo_pg (Some (demo_active, demo_when)) (demo_recovery 1).
Definition demo_opened : list effect := drop 1 (v_effects (rc_view (recovery_step demo_pg true None demo_waiting))).
Lemma recovery_needs_its_run_witness :
  SubscribeRun (js "r1") (js "7") ∈ demo_opened
  ∧ flag "killed" (rc_view demo_waiting) = false ∧ strict_eq (_tabRunGeneration (rc_view demo_waiting)) (vstr "r1") = true.
Proof.
  assert (SubscribeRun (js "r1") (js "7") ∈ demo_opened) as Hin by (apply (list_elem_of_lookup_2 _ 9); vm_compute; reflexivity).
  split; [exact Hin|].
  destruct (recovery_needs_its_run demo_pg ltac:(discriminate) true None demo_waiting (js "r1") (js "7") demo_opened) as (_ & Hk & Hg);
    [intros p Hp; vm_compute in Hp; injection Hp as <-; reflexivity|vm_compute; reflexivity|exact Hin|split; [exact Hk|exact Hg]].
Defined.

Lemma ended_run_stays_running_witness : is_running (rc_view (stream_ended_answer demo_pg None (demo_recovery 2))) = true.
Proof. destruct (ended_run_stays_running demo_pg (demo_recovery 2)) as [H _]; [vm_compute; reflexivity..|exact H]. Defined.

(** A tab without a start index starts its run at line zero: [Number(null)] is
    finite, so the number of its lines is never taken. *)
Example null_index_is_zero :
  let s := View (Some [(js "id", vstr "tab-1"); (js "currentRunStartIndex", VNull); (js "rawLines", VArr [VStr (js "a"); VStr (js "b")])])
             [] false [] in
  field "currentRunStartIndex" (reattach_place s) = VNum num_zero.
Proof. vm_compute. reflexivity. Qed.
