(* ===== verification/RunRestore.v ===== *)
(** Active runs after a reload (app/static/js/runner.js,
    [restoreActiveRunsAfterReload]): which of the runs the server still works
    on are shown again, in which tab, and the record of the runs the user
    detached on purpose. *)

From S2P Require Import Prelude JsString JsNumber JsValue WebApi RunnerPersistence AppState RunStream RunTab RunLifecycle TabList RunRecovery.

(** ** Definitions *)

Section Restore.
(** [starts] says what the browser's calendar makes of the start of a run;
    [session_id] is [window.SESSION_ID]. *)
Context (max_tabs : Z) (historyOpen : bool) (clientId : jsstr) (starts : jsval → when_started) (session_id : jsval).

Definition rget (run : jsval) (k : string) : jsval := get run (js k).

(** [typeof attachInteractivePtyCommand === 'function']: runner.js binds the
    name to an adapter of its own, so the test always holds there; what the
    adapter finds to call is [AttachPty]'s business. *)
Definition attachInteractivePtyCommand_is_function : bool := true.

Definition _shouldAutoRestoreActiveRun (run : jsval) (st : store) : bool :=
  if negb (is_objectlike run) then false
  else if truthy (rget run "scheduled") then false
  else if _isActiveRunDetachedForRestore session_id (rget run "run_id") st then false
  else if _activeRunIsInteractivePty run && negb attachInteractivePtyCommand_is_function then false
  else if truthy (rget run "owned_by_this_client") then true
  else if truthy (rget run "owner_stale") then true
  else negb (truthy (rget run "has_live_owner")).

(** [tab.runId === id || tab.historyRunId === id]. *)
Definition has_run (runId : jsstr) (o : props) : bool :=
  is_str (tab_get o "runId") runId || is_str (tab_get o "historyRunId") runId.
Definition _tabForActiveRunId (runId : jsval) (w : tabs) : option tab :=
  let normalized := str_of runId in
  if negb (nonempty normalized) then None else findb (λ t, has_run normalized (tb_obj t)) (ts_list w).

Definition _activeRunTabForRestore (run : jsval) (w : tabs) : option tab :=
  let runId := str_of (rget run "run_id") in
  if negb (nonempty runId) then None else
  match _tabForActiveRunId (VStr runId) w with
  | Some t => Some t
  | None =>
      let ownerTabId := str_of (rget run "owner_tab_id") in
      if truthy (rget run "owned_by_this_client") && nonempty ownerTabId
      then findb (λ t, tb_id t ==s ownerTabId) (ts_list w) else None
  end.

(** An idle, untouched tab. *)
Definition blank (o : props) : bool :=
  is_str (tab_get o "st") (js "idle") && negb (truthy (tab_get o "renamed")) && negb (truthy (tab_get o "command"))
  && negb (truthy (tab_get o "historyRunId")) && negb (truthy (tab_get o "draftInput"))
  && match tab_get o "rawLines" with VArr [] => true | _ => false end.
Definition bootstrap_tab (index : nat) (w : tabs) : option jsstr :=
  match index, ts_list w with
  | O, [t] => if blank (tb_obj t) then Some (tb_id t) else None
  | _, _ => None
  end.

Definition attach_pty (id : jsstr) (run : jsval) : tabs → tabs := on_tab historyOpen clientId id (λ _, emit (AttachPty run)).
Definition reattach (id : jsstr) (run : jsval) (after mode : jsval) (preserve : bool) : tabs → tabs :=
  on_tab historyOpen clientId id (λ pg, _reattachActiveRunToTab pg run (starts run) after false mode preserve).
Definition show_run (id : jsstr) (run : jsval) (after mode : jsval) (preserve : bool) (w : tabs) : tabs :=
  if _activeRunIsInteractivePty run && attachInteractivePtyCommand_is_function
  then attach_pty id run w else reattach id run after mode preserve w.

(** One turn of the loop: the tab that shows the run, if any, and the world. *)
Definition restore_run (index : nat) (run : jsval) (w : tabs) : option jsstr * tabs :=
  match _activeRunTabForRestore run w with
  | Some t =>
      (Some (tb_id t),
       show_run (tb_id t) run (js_or (tab_get (tb_obj t) "lastEventId") (js_or (rget run "last_event_id") (VStr [])))
         (js_or (tab_get (tb_obj t) "attachMode") (vstr "reconnected")) true w)
  | None =>
      let '(tabId, w) := match bootstrap_tab index w with Some id => (Some id, w) | None => createTab max_tabs [] w end in
      match tabId with
      | None => (None, w)
      | Some id => (Some id, show_run id run (js_or (rget run "last_event_id") (VStr [])) (vstr "reconnected") false w)
      end
  end.
Fixpoint restore_runs (index : nat) (items : list jsval) (first : option jsstr) (w : tabs) : option jsstr * tabs :=
  match items with
  | [] => (first, w)
  | run :: items =>
      let '(tabId, w) := restore_run index run w in
      restore_runs (S index) items (match first with Some _ => first | None => tabId end) w
  end.

Definition active_ids (runs : list jsval) : list jsstr :=
  flat_map (λ run, match rget run "run_id" with VStr s => if nonempty s then [s] else [] | _ => [] end) runs.
Definition restorable (runs : list jsval) (st : store) : list jsval :=
  filterb (λ run, _shouldAutoRestoreActiveRun run st) runs.

Definition restoreActiveRunsAfterReload (runs : list jsval) (w : tabs) (st : store) : bool * tabs * store :=
  let st := _pruneDetachedActiveRunRestoreIds session_id (active_ids runs) st in
  match restorable runs st with
  | [] => (false, calling [OnTab [] StopPolling] w, st)
  | items =>
      match restore_runs 0 items None w with
      | (None, w) => (false, calling [OnTab [] StopPolling] w, st)
      | (Some id, w) => (true, calling [OnTab id SyncTimer] (activateTab id w), st)
      end
  end.
End Restore.

(** ** Lemmas: names *)

(** The tabs have distinct, old names; there may be none. *)
Definition names_ok (w : tabs) : Prop :=
  NoDup (ids w) ∧ Forall (λ id, ∃ n, id = tab_name n ∧ (0 < n ≤ ts_seq w)%Z) (ids w) ∧ 0 <= ts_seq w.
Lemma tabs_names_ok w : tabs_ok w → names_ok w.
Proof. intros H. pose proof (tabs_ok_seq w H). by destruct H. Qed.
Lemma name_nonempty w id : names_ok w → id ∈ ids w → id ≠ [].
Proof. intros (_ & H & _) Hin. rewrite Forall_forall in H. by destruct (H id Hin) as (n & -> & _). Qed.

Lemma tabById_elem id w o : _tabById id w = Some o → id ∈ ids w.
Proof. intros H. apply tabById_Some. by eexists. Qed.

(** Two objects that differ in their drafts at most. *)
Definition same_run (o o' : props) : Prop := ∀ k, js k ≠ js "draftInput" → tab_get o' k = tab_get o k.
Definition same_runs (w w' : tabs) : Prop := ∀ x, option_Forall2 same_run (_tabById x w) (_tabById x w').

Lemma same_run_refl o : same_run o o.
Proof. done. Qed.
Lemma same_runs_refl w : same_runs w w.
Proof. intros x. destruct (_tabById x w); by constructor. Qed.
Lemma same_runs_activate id w : same_runs w (activateTab id w).
Proof.
  intros x. unfold activateTab. case_match; [|exact (same_runs_refl w x)].
  change (_tabById x (announce _ _ (Tabs (ts_list ?u) _ _ _ _ _))) with (_tabById x u).
  rewrite tabById_update. match goal with |- context [bool_decide ?P] => destruct (bool_decide P) end; [|exact (same_runs_refl w x)].
  destruct (_tabById x w); constructor. intros k Hk. by apply set_get.
Qed.
Lemma same_runs_forward w w' x o : same_runs w w' → _tabById x w = Some o → ∃ o', _tabById x w' = Some o' ∧ same_run o o'.
Proof. intros H Ho. specialize (H x). rewrite Ho in H. inversion H; subst. eauto. Qed.
Lemma same_runs_back w w' x o' : same_runs w w' → _tabById x w' = Some o' → ∃ o, _tabById x w = Some o ∧ same_run o o'.
Proof. intros H Ho. specialize (H x). rewrite Ho in H. inversion H; subst. eauto. Qed.

Lemma tabById_in t w : NoDup (ids w) → t ∈ ts_list w → _tabById (tb_id t) w = Some (tb_obj t).
Proof.
  unfold ids, _tabById. induction (ts_list w) as [|t' l IH]; [by intros _ ?%not_elem_of_nil|].
  cbn. intros [Hn Hnd]%NoDup_cons [->|Hin]%elem_of_cons; [by rewrite bool_decide_true|].
  rewrite bool_decide_false; [by apply IH|]. intros E. apply Hn. rewrite E. by apply list_elem_of_fmap_2.
Qed.

(** ** Lemmas: a run shown in a tab *)

Definition shown (id runId : jsstr) (w : tabs) : Prop :=
  ∃ o, _tabById id w = Some o ∧ running o = true ∧ tab_get o "runId" = VStr runId ∧ tab_get o "historyRunId" = VStr runId.

Lemma shown_same id runId w w' : same_runs w w' → shown id runId w → shown id runId w'.
Proof.
  intros Hs (o & Ho & Hr & Hid & Hh). destruct (same_runs_forward w w' id o Hs Ho) as (o' & Ho' & Heq).
  exists o'. unfold running in *. rewrite !Heq by by vm_compute. done.
Qed.

(** The streams the calls opened from [w] to [w']. *)
Definition opened (w w' : tabs) (runs : list jsstr) : Prop :=
  ∃ cs, ts_calls w' = ts_calls w ++ cs ∧ ∀ id r a, OnTab id (SubscribeRun r a) ∈ cs → r ∈ runs.
Lemma opened_none w rs : opened w w rs.
Proof. exists []. rewrite app_nil_r. split; [done|]. by intros ??? ?%not_elem_of_nil. Qed.
Lemma opened_refl w : opened w w [].
Proof. apply opened_none. Qed.
Lemma opened_call c w w' rs : match c with OnTab _ (SubscribeRun _ _) => False | _ => True end →
  opened w w' rs → opened w (calling [c] w') rs.
Proof.
  intros Hc (cs & Hcs & Hall). exists (cs ++ [c]). split; [cbn; by rewrite Hcs, <-app_assoc|].
  intros x r0 a0 [Hin|Hin]%elem_of_app; [by eapply Hall|]. by apply list_elem_of_singleton in Hin as <-.
Qed.
Lemma opened_trans w1 w2 w3 l1 l2 : opened w1 w2 l1 → opened w2 w3 l2 → opened w1 w3 (l1 ++ l2).
Proof.
  intros (c1 & H1 & Hc1) (c2 & H2 & Hc2). exists (c1 ++ c2). split; [by rewrite H2, H1, app_assoc|].
  intros id r a [Hin|Hin]%elem_of_app; apply elem_of_app; [left|right]; eauto.
Qed.
Lemma opened_activate id w : opened w (activateTab id w) [].
Proof.
  exists [TabEvent "app:tab-activated" id id]. split; [unfold activateTab; by case_match|].
  by intros ??? ?%list_elem_of_singleton.
Qed.

Section Restoring.
Context (max_tabs : Z) (historyOpen : bool) (clientId : jsstr) (starts : jsval → when_started) (session_id : jsval).
Notation reattach := (reattach historyOpen clientId starts).
Notation show_run := (show_run historyOpen clientId starts).

Lemma on_tab_others id a w x : x ≠ id →
  existsb is_finalize (v_effects (a (page_of historyOpen clientId id w) (View (_tabById id w) [] false []))) = false →
  _tabById x (on_tab historyOpen clientId id a w) = _tabById x w
  ∧ ts_seq (on_tab historyOpen clientId id a w) = ts_seq w.
Proof.
  intros Hx Hf. unfold on_tab. cbv zeta. rewrite Hf. cbn [andb].
  change (_tabById x (calling _ ?u)) with (_tabById x u). change (ts_seq (calling _ ?u)) with (ts_seq u).
  destruct (v_tab _); [|done]. rewrite tabById_update, bool_decide_false by done. done.
Qed.

(** What showing a run in a tab does: the list stays, the other tabs too. *)
Definition touches (id : jsstr) (w w' : tabs) : Prop :=
  ids w' = ids w ∧ ts_seq w' = ts_seq w ∧ ts_active w' = ts_active w ∧ ∀ x, x ≠ id → _tabById x w' = _tabById x w.

Lemma on_tab_touches id a w o : _tabById id w = Some o →
  existsb is_finalize (v_effects (a (page_of historyOpen clientId id w) (View (_tabById id w) [] false []))) = false →
  touches id w (on_tab historyOpen clientId id a w).
Proof.
  intros Ho Hf. split; [by apply on_tab_ids|].
  split; [unfold on_tab; cbv zeta; rewrite Hf; cbn [andb]; by destruct (on_tab_before historyOpen clientId id a w) as (_ & _ & ?)|].
  rewrite Ho in Hf. destruct (on_tab_object historyOpen clientId id a w o Ho Hf) as (_ & _ & Ha). split; [done|].
  intros x Hx. apply on_tab_others; [done|]. by rewrite Ho.
Qed.

Lemma plain_keeps es : Forall plain_effect es → existsb is_finalize es = false.
Proof. intros H. apply no_finalize. eapply Forall_impl; [exact H|]. by intros []. Qed.
Lemma existsb_false_app {A} (p : A → bool) l k : existsb p l = false → existsb p k = false → existsb p (l ++ k) = false.
Proof. intros. by rewrite existsb_app, orb_false_iff. Qed.

Lemma reattach_shows id run after mode preserve w o :
  _tabById id w = Some o → id ≠ [] → truthy run = true →
  let w' := reattach id run after mode preserve w in
  touches id w w' ∧ shown id (run_id_of run) w' ∧ opened w w' [run_id_of run]
  ∧ ∃ a, OnTab id (SubscribeRun (run_id_of run) a) ∈ ts_calls w'.
Proof.
  intros Ho Hid Hr. unfold RunRestore.reattach.
  set (a := λ pg : page, _reattachActiveRunToTab pg run (starts run) after false mode preserve).
  destruct (reattach_subscribes (page_of historyOpen clientId id w) run (starts run) after false mode preserve
              (View (Some o) [] false []) Hr Hid eq_refl) as ((es & He & Hes) & Ht & Hrun & Hh & _ & Hst & _).
  cbn [v_effects app] in He. set (ra := str_of (js_or after _)) in He. fold (run_id_of run) in He, Hrun, Hh.
  change (_reattachActiveRunToTab _ run (starts run) after false mode preserve)
    with (a (page_of historyOpen clientId id w)) in He, Ht, Hrun, Hh, Hst.
  assert (existsb is_finalize (v_effects (a (page_of historyOpen clientId id w) (View (Some o) [] false []))) = false) as Hf
    by (rewrite He; apply existsb_false_app; [by apply plain_keeps|done]).
  destruct (on_tab_object historyOpen clientId id a w o Ho Hf) as (Hobj & Hcalls & _).
  assert (touches id w (on_tab historyOpen clientId id a w)) as Htouch by (eapply on_tab_touches; [exact Ho|by rewrite Ho]).
  set (s := a _ _) in *. clearbody s. unfold is_running, has_tab, field in *. destruct (v_tab s) as [o'|]; [|done].
  cbn [default] in Hobj. split; [exact Htouch|]. split; [exists o'; exact (conj Hobj (conj Hst (conj Hrun Hh)))|].
  rewrite He in Hcalls. split.
  - exists (map (OnTab id) (es ++ [SubscribeRun (run_id_of run) ra; StartPolling])). split; [exact Hcalls|].
    intros id' r a' Hin. apply list_elem_of_fmap in Hin as (e & [= -> <-] & Hin).
    apply elem_of_app in Hin as [Hin|Hin]; [rewrite Forall_forall in Hes; by apply Hes in Hin|].
    rewrite !elem_of_cons, elem_of_nil in Hin. destruct Hin as [[= -> _]|[[=]|[]]]. by left.
  - exists ra. rewrite Hcalls, map_app. rewrite !elem_of_app. right. right. by left.
Qed.

Lemma show_run_eq id run after mode preserve w : show_run id run after mode preserve w
  = if _activeRunIsInteractivePty run then attach_pty historyOpen clientId id run w else reattach id run after mode preserve w.
Proof. unfold RunRestore.show_run, attachInteractivePtyCommand_is_function. by rewrite andb_true_r. Qed.

(** Showing a run, or handing it to the terminal that attaches to it. *)
Lemma show_run_touches id run after mode preserve w o :
  _tabById id w = Some o → id ≠ [] → truthy run = true →
  let w' := show_run id run after mode preserve w in
  touches id w w' ∧ opened w w' [run_id_of run].
Proof.
  intros Ho Hid Hr w'. subst w'. rewrite show_run_eq. case_match.
  - assert (existsb is_finalize (v_effects (emit (AttachPty run) (View (Some o) [] false []))) = false) as Hf by done.
    split; [eapply on_tab_touches; [exact Ho|by rewrite Ho]|].
    destruct (on_tab_object historyOpen clientId id (λ _, emit (AttachPty run)) w o Ho Hf) as (_ & Hc & _).
    exists [OnTab id (AttachPty run)]. split; [exact Hc|]. by intros ??? ?%list_elem_of_singleton.
  - destruct (reattach_shows id run after mode preserve w o Ho Hid Hr) as (? & _ & ? & _). done.
Qed.

(** *** A new tab *)

Lemma tabById_app id l k w : _tabById id (with_list (l ++ k) w)
  = match _tabById id (with_list l w) with Some o => Some o | None => _tabById id (with_list k w) end.
Proof.
  unfold _tabById. cbn. induction l as [|t l IH]; cbn; [done|]. by case_bool_decide.
Qed.

Lemma create_new w : names_ok w → max_tabs <= 0 ∨ Z.of_nat (length (ts_list w)) < max_tabs →
  ∃ id w', createTab max_tabs [] w = (Some id, w') ∧ id ∉ ids w ∧ ids w' = ids w ++ [id] ∧ names_ok w'
    ∧ opened w w' [] ∧ (∃ o, _tabById id w' = Some o ∧ same_run (new_tab (createDefaultTabLabel None w)) o)
    ∧ ∀ x, x ≠ id → option_Forall2 same_run (_tabById x w) (_tabById x w').
Proof.
  intros (Hn & Hnm & Hseq) Hroom. unfold createTab.
  rewrite (proj2 (andb_false_iff _ _)) by (destruct Hroom; [left; by apply Z.ltb_ge|right; by apply Z.leb_gt]).
  change (nonempty []) with false. cbv iota zeta.
  set (id := tab_name (ts_seq w + 1)). set (w1 := Tabs _ _ _ _ _ _).
  assert (ids w1 = ids w ++ [id]) as Hi by (unfold w1, ids; cbn; by rewrite map_app).
  assert (id ∉ ids w) as Hfresh.
  { intros Hin. rewrite Forall_forall in Hnm. destruct (Hnm _ Hin) as (n & Heq & Hle). apply tab_name_inj in Heq; lia. }
  assert (names_ok w1) as H1.
  { split; [rewrite Hi; apply NoDup_app; split; [done|]; split; [by intros x Hx ->%list_elem_of_singleton|apply NoDup_singleton]|].
    split; [|cbn; lia]. rewrite Hi. apply Forall_app. split; [|apply Forall_singleton; exists (ts_seq w + 1); cbn; split; [done|lia]].
    eapply Forall_impl; [exact Hnm|]. intros x (n & -> & Hle). exists n. cbn. split; [done|lia]. }
  assert (∀ x, _tabById x w1 = match _tabById x w with Some o => Some o | None =>
            _tabById x (with_list [Tab id (new_tab (createDefaultTabLabel None w))] w) end) as Hby
    by (intros x; exact (tabById_app x (ts_list w) _ w)).
  exists id, (announce "app:tab-created" id (activateTab id w1)). split; [done|]. split; [done|].
  split; [exact (eq_trans (activate_ids id w1) Hi)|].
  split. { destruct H1 as (Ha & Hb & Hc). unfold names_ok. change (ids (announce _ _ ?u)) with (ids u).
           change (ts_seq (announce _ _ ?u)) with (ts_seq u). by rewrite activate_ids, activate_seq. }
  split. { destruct (opened_activate id w1) as (cs & Hcs & Hop). exists (cs ++ [TabEvent "app:tab-created" id id]).
           split; [cbn; cbn in Hcs; by rewrite Hcs, <-app_assoc|]. intros x r a [Hin|Hin]%elem_of_app; [by eapply Hop|].
           by apply list_elem_of_singleton in Hin. }
  pose proof (same_runs_activate id w1) as Hs. split.
  - destruct (same_runs_forward _ _ id (new_tab (createDefaultTabLabel None w)) Hs) as (o & Ho & Heq).
    + rewrite Hby. destruct (_tabById id w) eqn:E; [by apply tabById_elem in E|]. cbn. by rewrite bool_decide_true.
    + by exists o.
  - intros x Hx. specialize (Hs x). rewrite Hby in Hs. destruct (_tabById x w); [exact Hs|].
    cbn in Hs. by rewrite bool_decide_false in Hs.
Qed.

(** *** One run *)

(** A tab with a run knows it by both names; the tabs do. *)
Definition settled (o : props) : Prop :=
  ∀ r, r ≠ [] → tab_get o "runId" = VStr r → tab_get o "historyRunId" = VStr r.
Definition all_settled (w : tabs) : Prop := ∀ x o, _tabById x w = Some o → settled o.
Definition known (r : jsstr) (w : tabs) : Prop := ∃ x o, _tabById x w = Some o ∧ tab_get o "historyRunId" = VStr r.
(** The run names a tab of this browser to go to. *)
Definition falls_back (run : jsval) : bool :=
  truthy (rget run "owned_by_this_client") && nonempty (str_of (rget run "owner_tab_id")).
(** The tab [id] has been given the run: it shows the run as running and
    subscribes to it, or, for an interactive terminal, it is the tab the
    terminal is told to attach to. *)
Definition appears (run : jsval) (id : jsstr) (w : tabs) : Prop :=
  if _activeRunIsInteractivePty run then id ∈ ids w ∧ OnTab id (AttachPty run) ∈ ts_calls w
  else shown id (run_id_of run) w ∧ ∃ a, OnTab id (SubscribeRun (run_id_of run) a) ∈ ts_calls w.
(** The tabs of other runs are left as they are. *)
Definition undisturbed (r : jsstr) (w w' : tabs) : Prop :=
  ∀ x o r', _tabById x w = Some o → r' ≠ [] → r' ≠ r → tab_get o "historyRunId" = VStr r' →
  ∃ o', _tabById x w' = Some o' ∧ same_run o o'.

Lemma same_run_settled o o' : same_run o o' → settled o → settled o'.
Proof. intros Hs H r Hr. rewrite !Hs by by vm_compute. by apply H. Qed.

Lemma show_step id run after mode preserve w o :
  _tabById id w = Some o → id ≠ [] → truthy run = true → all_settled w →
  let w' := show_run id run after mode preserve w in
  touches id w w' ∧ opened w w' [run_id_of run] ∧ all_settled w' ∧ appears run id w'.
Proof.
  intros Ho Hid Hr Hs w'. subst w'. destruct (show_run_touches id run after mode preserve w o Ho Hid Hr) as [Ht Hop].
  split; [done|]. split; [done|].
  assert (∀ o', _tabById id (show_run id run after mode preserve w) = Some o' → settled o') as Hset.
  { rewrite show_run_eq. case_match.
    - destruct (on_tab_object historyOpen clientId id (λ _, emit (AttachPty run)) w o Ho eq_refl) as (Hobj & _).
      unfold attach_pty. rewrite Hobj. intros o' [= <-]. by eapply Hs.
    - destruct (reattach_shows id run after mode preserve w o Ho Hid Hr) as (_ & (o1 & Ho1 & _ & H1 & H2) & _).
      rewrite Ho1. intros o' [= <-] r Hne. by rewrite H1, H2. }
  split.
  2:{ unfold appears. rewrite show_run_eq. destruct (_activeRunIsInteractivePty run).
      - unfold attach_pty. rewrite on_tab_ids by (by rewrite Ho). split; [by eapply tabById_elem|].
        destruct (on_tab_object historyOpen clientId id (λ _, emit (AttachPty run)) w o Ho eq_refl) as (_ & -> & _).
        apply elem_of_app. right. by left.
      - by destruct (reattach_shows id run after mode preserve w o Ho Hid Hr) as (_ & ? & _ & ?). }
  intros x o' Hx. destruct (decide (x = id)) as [->|Hne]; [by apply Hset|].
  destruct Ht as (_ & _ & _ & Hoth). rewrite Hoth in Hx by done. by eapply Hs.
Qed.

Lemma has_run_settled r o : r ≠ [] → settled o → has_run r o = is_str (tab_get o "historyRunId") r.
Proof.
  intros Hr Hs. unfold has_run. destruct (is_str (tab_get o "runId") r) eqn:E; [|done].
  apply is_str_spec in E. symmetry. cbn [orb]. by apply is_str_spec, Hs.
Qed.

Lemma find_run r w : names_ok w → all_settled w → r ≠ [] →
  match _tabForActiveRunId (VStr r) w with
  | Some t => _tabById (tb_id t) w = Some (tb_obj t) ∧ tab_get (tb_obj t) "historyRunId" = VStr r
  | None => ¬ known r w
  end.
Proof.
  intros (Hn & _) Hs Hr. unfold _tabForActiveRunId. rewrite str_of_VStr, (proj2 (nonempty_spec _) Hr). cbn [negb].
  destruct (findb _ _) as [t|] eqn:E.
  - apply findb_Some in E as [Hin Ht]. pose proof (tabById_in t w Hn Hin) as Ho. split; [done|].
    rewrite has_run_settled in Ht by (first [done|by eapply Hs]). by apply is_str_spec in Ht.
  - intros (x & o & Ho & Hh). rewrite findb_None in E. unfold _tabById in Ho. apply fmap_Some in Ho as (t & Ht & ->).
    apply findb_Some in Ht as [Hin _]. specialize (E t Hin). cbv beta in E.
    rewrite has_run_settled in E by (first [done|eapply Hs, tabById_in; done]). by rewrite (proj2 (is_str_spec _ _) Hh) in E.
Qed.

Lemma target_of run w : names_ok w → all_settled w → run_id_of run ≠ [] →
  known (run_id_of run) w ∨ falls_back run = false →
  match _activeRunTabForRestore run w with
  | Some t => _tabById (tb_id t) w = Some (tb_obj t) ∧ tab_get (tb_obj t) "historyRunId" = VStr (run_id_of run)
  | None => True
  end.
Proof.
  intros Hn Hs Hr Hk. unfold _activeRunTabForRestore. change (str_of (rget run "run_id")) with (run_id_of run).
  rewrite (proj2 (nonempty_spec _) Hr). cbn [negb]. pose proof (find_run (run_id_of run) w Hn Hs Hr) as H.
  destruct (_tabForActiveRunId _ w); [done|]. fold (falls_back run). destruct Hk as [?| ->]; [done|]. done.
Qed.

(** The run found a tab, and nothing else happened. *)
Definition restored (run : jsval) (id : jsstr) (w w' : tabs) : Prop :=
  id ∈ ids w' ∧ names_ok w' ∧ all_settled w' ∧ ids w ⊆ ids w' ∧ (length (ts_list w') ≤ S (length (ts_list w)))%nat
  ∧ opened w w' [run_id_of run] ∧ undisturbed (run_id_of run) w w' ∧ appears run id w'.

Lemma restored_here run id after mode preserve w o :
  names_ok w → all_settled w → truthy run = true → _tabById id w = Some o →
  (∀ r, r ≠ [] → tab_get o "historyRunId" = VStr r → r = run_id_of run) →
  restored run id w (show_run id run after mode preserve w).
Proof.
  intros Hn Hs Hr Ho Hh. pose proof (tabById_elem id w o Ho) as Hin.
  destruct (show_step id run after mode preserve w o Ho (name_nonempty w id Hn Hin) Hr Hs) as ((Hi & Hq & _ & Hoth) & Hop & Hs' & Hsh).
  unfold restored. rewrite Hi. split; [done|]. split; [by destruct Hn as (?&?&?); unfold names_ok; rewrite Hi, Hq|].
  split; [done|]. split; [done|]. split; [rewrite <-(length_ids (show_run _ _ _ _ _ w)), Hi, length_ids; lia|].
  split; [done|]. split; [|done]. intros x ox r' Hx Hr' Hne Hhx.
  destruct (decide (x = id)) as [->|Hxid]; [rewrite Ho in Hx; injection Hx as <-; by apply Hh in Hhx|].
  exists ox. rewrite Hoth by done. done.
Qed.

Lemma blank_tab_run o r : blank o = true → r ≠ [] → tab_get o "historyRunId" = VStr r → False.
Proof.
  unfold blank. intros Hb Hr Hh. rewrite Hh in Hb. cbn [truthy] in Hb. rewrite (proj2 (nonempty_spec _) Hr) in Hb.
  cbn [negb] in Hb. by rewrite andb_false_r, !andb_false_l in Hb.
Qed.

Lemma restore_run_spec index run w :
  names_ok w → all_settled w → truthy run = true → run_id_of run ≠ [] →
  max_tabs <= 0 ∨ Z.of_nat (length (ts_list w)) < max_tabs →
  known (run_id_of run) w ∨ falls_back run = false →
  ∃ id w', restore_run max_tabs historyOpen clientId starts index run w = (Some id, w') ∧ restored run id w w'.
Proof.
  intros Hn Hs Hr Hid Hroom Hk. unfold restore_run. pose proof (target_of run w Hn Hs Hid Hk) as Ht.
  destruct (_activeRunTabForRestore run w) as [t|].
  { destruct Ht as [Ho Hh]. eexists _, _. split; [reflexivity|]. apply (restored_here _ _ _ _ _ _ (tb_obj t)); try done.
    intros r _ Hh'. rewrite Hh in Hh'. by injection Hh'. }
  destruct (bootstrap_tab index w) as [id|] eqn:Hb.
  { eexists _, _. split; [reflexivity|]. unfold bootstrap_tab in Hb.
    destruct index, (ts_list w) as [|t []] eqn:Hl; try done. destruct (blank (tb_obj t)) eqn:Hbl; [|done]. injection Hb as <-.
    apply (restored_here _ _ _ _ _ _ (tb_obj t)); try done; [apply tabById_in; [by destruct Hn|rewrite Hl; by left]|].
    intros r Hne Hh. exfalso. by eapply blank_tab_run. }
  destruct (create_new w Hn Hroom) as (id & w1 & -> & Hfresh & Hi & Hn1 & Hop1 & (o & Ho & Hnew) & Hold).
  assert (∀ r, r ≠ [] → tab_get o "historyRunId" ≠ VStr r) as Hnone
    by (intros r _ E; rewrite Hnew in E by (vm_compute; discriminate); discriminate).
  assert (all_settled w1) as Hs1.
  { intros x ox Hx. destruct (decide (x = id)) as [->|Hne].
    - rewrite Ho in Hx. injection Hx as <-. intros r Hr0 E. rewrite Hnew in E by (vm_compute; discriminate). discriminate.
    - specialize (Hold x Hne). rewrite Hx in Hold. inversion Hold as [o0 ? Hsame E|]; subst.
      eapply same_run_settled; [exact Hsame|]. by eapply Hs. }
  eexists id, _. split; [reflexivity|].
  destruct (restored_here run id (js_or (rget run "last_event_id") (VStr [])) (vstr "reconnected") false w1 o Hn1 Hs1 Hr Ho)
    as (Hin & Hn' & Hs' & Hsub & Hlen & Hop & Hun & Hsh); [intros r Hne E; by apply Hnone in E|].
  split; [done|]. split; [done|]. split; [done|]. split; [rewrite Hi in Hsub; set_solver|].
  split.
  { rewrite <-!length_ids in *. unfold RunRestore.show_run in *. assert (length (ids w1) = S (length (ids w))) by (rewrite Hi, length_app; cbn; lia).
    destruct (show_step id run (js_or (rget run "last_event_id") (VStr [])) (vstr "reconnected") false w1 o Ho
      (name_nonempty w1 id Hn1 (tabById_elem _ _ _ Ho)) Hr Hs1) as ((Hi' & _) & _). unfold RunRestore.show_run in Hi'. rewrite Hi'. lia. }
  split; [exact (opened_trans _ _ _ _ _ Hop1 Hop)|]. split; [|done].
  intros x ox r' Hx Hr' Hne Hh. destruct (decide (x = id)) as [->|Hxid]; [by apply tabById_elem in Hx|].
  specialize (Hold x Hxid). rewrite Hx in Hold. inversion Hold as [? o1 Hsame E1 E2|]; subst.
  destruct (Hun x o1 r' (eq_sym E2) Hr' Hne) as (o2 & Ho2 & Hsame2); [by rewrite Hsame by by vm_compute|].
  exists o2. split; [done|]. intros k Hkd. by rewrite Hsame2, Hsame.
Qed.

(** *** All of them *)

Definition restorable_here (w : tabs) (run : jsval) : Prop :=
  truthy run = true ∧ run_id_of run ≠ [] ∧ (known (run_id_of run) w ∨ falls_back run = false).
Definition followed (r : jsstr) (w : tabs) : Prop :=
  ∃ id, shown id r w ∧ ∃ a, OnTab id (SubscribeRun r a) ∈ ts_calls w.
Definition undisturbed_by (rs : list jsstr) (w w' : tabs) : Prop :=
  ∀ x o r', _tabById x w = Some o → r' ≠ [] → r' ∉ rs → tab_get o "historyRunId" = VStr r' →
  ∃ o', _tabById x w' = Some o' ∧ same_run o o'.

Lemma opened_calls w w' rs c : opened w w' rs → c ∈ ts_calls w → c ∈ ts_calls w'.
Proof. intros (cs & -> & _) Hc. apply elem_of_app. by left. Qed.

Lemma shown_undisturbed id r rs w w' : undisturbed_by rs w w' → r ≠ [] → r ∉ rs → shown id r w → shown id r w'.
Proof.
  intros Hu Hr Hin (o & Ho & Hst & Hid & Hh). destruct (Hu id o r Ho Hr Hin Hh) as (o' & Ho' & Hs).
  exists o'. unfold running in *. rewrite !Hs by by vm_compute. done.
Qed.

Lemma appears_later run id rs w w' : opened w w' rs → undisturbed_by rs w w' → ids w ⊆ ids w' →
  run_id_of run ≠ [] → run_id_of run ∉ rs → appears run id w → appears run id w'.
Proof.
  unfold appears. intros Hop Hun Hsub Hid Hn. destruct (_activeRunIsInteractivePty run).
  - intros [Hin Hc]. split; [by apply Hsub|]. by eapply opened_calls.
  - intros [Hsh (a & Ha)]. split; [by eapply shown_undisturbed|]. exists a. by eapply opened_calls.
Qed.
Lemma restorable_later run r w w' :
  undisturbed r w w' → run_id_of run ≠ r → restorable_here w run → restorable_here w' run.
Proof.
  intros Hu Hne (Ht & Hid & Hk). split; [done|]. split; [done|]. destruct Hk as [(x & o & Ho & Hh)|?]; [left|by right].
  destruct (Hu x o (run_id_of run) Ho Hid Hne Hh) as (o' & Ho' & Hs). exists x, o'. split; [done|].
  by rewrite Hs by by vm_compute.
Qed.

Lemma restore_runs_spec items index first w :
  names_ok w → all_settled w → Forall (restorable_here w) items → NoDup (map run_id_of items) →
  max_tabs <= 0 ∨ Z.of_nat (length (ts_list w)) + Z.of_nat (length items) <= max_tabs →
  (∀ id, first = Some id → id ∈ ids w) →
  ∃ first' w', restore_runs max_tabs historyOpen clientId starts index items first w = (first', w')
    ∧ (items ≠ [] → is_Some first') ∧ (∀ id, first' = Some id → id ∈ ids w')
    ∧ names_ok w' ∧ all_settled w' ∧ ids w ⊆ ids w'
    ∧ (length (ts_list w') ≤ length (ts_list w) + length items)%nat
    ∧ opened w w' (map run_id_of items) ∧ undisturbed_by (map run_id_of items) w w'
    ∧ ∀ run, run ∈ items → ∃ id, appears run id w'.
Proof.
  revert index first w. induction items as [|run items IH]; intros index first w Hn Hs Hall Hnd Hroom Hfirst.
  { exists first, w. split; [done|]. split; [done|]. split; [done|]. split; [done|]. split; [done|]. split; [done|]. split; [lia|].
    split; [apply opened_refl|]. split; [intros x o r' Ho; eauto using same_run_refl|]. by intros run ?%not_elem_of_nil. }
  apply Forall_cons in Hall as [(Ht & Hid & Hk) Hall]. cbn [map] in Hnd. apply NoDup_cons in Hnd as [Hnot Hnd].
  cbn [length] in Hroom.
  destruct (restore_run_spec index run w Hn Hs Ht Hid ltac:(lia) Hk) as (id & w1 & E & Hin & Hn1 & Hs1 & Hsub & Hlen & Hop & Hun & Hsh).
  destruct (IH (S index) (match first with Some _ => first | None => Some id end) w1) as
    (first' & w' & E' & Hsome & Hf' & Hn' & Hs' & Hsub' & Hlen' & Hop' & Hun' & Hsh'); try done.
  - rewrite Forall_forall in Hall |- *. intros run' Hrun'. eapply restorable_later; [exact Hun| |by apply Hall].
    intros E'. apply Hnot. rewrite <-E'. by apply list_elem_of_fmap_2.
  - lia.
  - intros id' Hid'. destruct first as [f|]; [by apply Hsub, Hfirst|by injection Hid' as <-].
  - exists first', w'. cbn [restore_runs]. rewrite E, E'. split; [done|].
    split. { intros _. destruct items; [|by apply Hsome]. cbn in E'. injection E' as <- _. by destruct first. }
    split; [done|]. split; [done|]. split; [done|]. split; [set_solver|]. split; [cbn; lia|].
    split; [exact (opened_trans _ _ _ _ _ Hop Hop')|]. split.
    + intros x o r' Ho Hr' Hni Hh. cbn [map] in Hni. apply not_elem_of_cons in Hni as [Hne Hni].
      destruct (Hun x o r' Ho Hr' Hne Hh) as (o1 & Ho1 & Hsame).
      destruct (Hun' x o1 r' Ho1 Hr' Hni) as (o2 & Ho2 & Hsame2); [by rewrite Hsame by by vm_compute|].
      exists o2. split; [done|]. intros k Hkd. by rewrite Hsame2, Hsame.
    + intros run' [->|Hrun']%elem_of_cons; [|by apply Hsh'].
      exists id. by eapply appears_later.
Qed.

(** *** What restoring may open, in any world *)

Lemma reattach_effects pg run ws after mode preserve s :
  ∃ es, v_effects (_reattachActiveRunToTab pg run ws after false mode preserve s) = v_effects s ++ es
        ∧ existsb is_finalize es = false ∧ ∀ r a, SubscribeRun r a ∈ es → r = run_id_of run.
Proof.
  destruct (negb (truthy run) || negb (nonempty (pg_tabId pg))) eqn:Hg.
  { exists []. unfold _reattachActiveRunToTab. rewrite Hg, app_nil_r. split; [done|]. split; [done|]. by intros ?? ?%not_elem_of_nil. }
  apply orb_false_iff in Hg as [Hr%negb_false_iff Hid%negb_false_iff]. apply nonempty_spec in Hid.
  assert (∀ es r a, Forall plain_effect es → SubscribeRun r a ∈ es → False) as Hplain
    by (intros es r a H Hin; rewrite Forall_forall in H; by apply H in Hin).
  destruct (has_tab s) eqn:Ht.
  - destruct (reattach_subscribes pg run ws after false mode preserve s Hr Hid Ht) as ((es & He & Hes) & _).
    eexists. split; [exact He|]. split; [apply existsb_false_app; [by apply plain_keeps|done]|].
    intros r a [Hin|Hin]%elem_of_app; [by eapply Hplain in Hin|].
    rewrite !elem_of_cons, elem_of_nil in Hin. by destruct Hin as [[= -> _]|[[=]|[]]].
  - destruct (prepared_changes pg preserve s) as (Hp & _ & es & He & Hes). exists es.
    split; [|split; [by apply plain_keeps|intros r a Hin; by eapply Hplain in Hin]].
    rewrite <-He. unfold _reattachActiveRunToTab. rewrite Hr, (proj2 (nonempty_spec _) Hid). cbn [negb orb].
    change (on (negb preserve) (clearTab pg false) s) with (prepared pg preserve s). cbv zeta. by rewrite Hp, Ht.
Qed.

Lemma on_tab_opens id a w rs :
  (∃ es, v_effects (a (page_of historyOpen clientId id w) (View (_tabById id w) [] false [])) = es
         ∧ existsb is_finalize es = false ∧ ∀ r a', SubscribeRun r a' ∈ es → r ∈ rs) →
  opened w (on_tab historyOpen clientId id a w) rs.
Proof.
  intros (es & He & Hf & Hr). exists (map (OnTab id) es). split.
  - unfold on_tab. cbv zeta. rewrite He, Hf. cbn [andb]. by destruct (v_tab _).
  - intros id' r a' Hin. apply list_elem_of_fmap in Hin as (e & [= -> <-] & Hin). by eapply Hr.
Qed.

Lemma show_run_opens id run after mode preserve w : opened w (show_run id run after mode preserve w) [run_id_of run].
Proof.
  rewrite ?show_run_eq. case_match; apply on_tab_opens.
  - exists [AttachPty run]. split; [done|]. split; [done|]. by intros r a' ?%list_elem_of_singleton.
  - destruct (reattach_effects (page_of historyOpen clientId id w) run (starts run) after mode preserve
                (View (_tabById id w) [] false [])) as (es & He & Hf & Hr).
    exists es. split; [exact He|]. split; [done|]. intros r a' Hin. apply Hr in Hin as ->. by left.
Qed.

Lemma create_opens w : opened w (snd (createTab max_tabs [] w)) [].
Proof.
  unfold createTab. case_match; [exists [LimitToast]; split; [done|]; by intros ??? ?%list_elem_of_singleton|].
  cbn [snd]. set (w1 := Tabs _ _ _ _ _ _). destruct (opened_activate (tab_name (ts_seq w + 1)) w1) as (cs & Hcs & Hop).
  eexists (cs ++ [_]). split; [cbn; cbn in Hcs; rewrite Hcs, <-app_assoc; reflexivity|].
  intros x r a [Hin|Hin]%elem_of_app; [by eapply Hop|]. by apply list_elem_of_singleton in Hin.
Qed.

Lemma restore_run_opens index run w :
  opened w (snd (restore_run max_tabs historyOpen clientId starts index run w)) [run_id_of run].
Proof.
  unfold restore_run. destruct (_activeRunTabForRestore run w); [apply show_run_opens|].
  destruct (bootstrap_tab index w); [apply show_run_opens|].
  pose proof (create_opens w) as Hc. destruct (createTab max_tabs [] w) as [[id|] w1]; cbn [snd] in *.
  - exact (opened_trans _ _ _ [] _ Hc (show_run_opens _ _ _ _ _ _)).
  - exact (opened_trans _ _ _ [] _ Hc (opened_none _ _)).
Qed.

Lemma restore_runs_open items index first w :
  opened w (snd (restore_runs max_tabs historyOpen clientId starts index items first w)) (map run_id_of items).
Proof.
  revert index first w. induction items as [|run items IH]; intros index first w; [apply opened_refl|].
  cbn [restore_runs]. pose proof (restore_run_opens index run w) as H.
  destruct (restore_run _ _ _ _ _ _ _) as [tabId w1]. exact (opened_trans _ _ _ _ _ H (IH _ _ _)).
Qed.

(** ** Theorems *)

Notation restore := (restoreActiveRunsAfterReload max_tabs historyOpen clientId starts session_id).
Notation pruned runs st := (_pruneDetachedActiveRunRestoreIds session_id (active_ids runs) st).

Lemma restorable_truthy runs st run : run ∈ restorable session_id runs st → truthy run = true.
Proof.
  unfold restorable. intros [H _]%elem_of_filterb. unfold _shouldAutoRestoreActiveRun in H.
  by destruct run.
Qed.

(** C8: After a reload every active run is followed again. Of the runs the
    server reports, those that may be restored (not scheduled, not detached,
    and owned by this browser or by nobody alive) each end up in a tab: a
    plain run in one that shows it as running and subscribes to it, an
    interactive terminal in one that the terminal is told to attach to (what
    the terminal does there is not part of this). The tabs keep distinct
    names, none is lost, and none but those needed is opened. This holds for
    any number of runs that fits the limit of tabs, provided the runs have
    distinct ids, each is known to a tab or names no tab to go to, and the
    tabs found after the reload have distinct names and know a run they name
    as running ([runId]) also as the one to restore ([historyRunId]). *)
Theorem active_runs_followed runs w st :
  let items := restorable session_id runs (pruned runs st) in
  names_ok w → all_settled w → NoDup (map run_id_of items) →
  Forall (λ run, run_id_of run ≠ [] ∧ (known (run_id_of run) w ∨ falls_back run = false)) items →
  max_tabs <= 0 ∨ Z.of_nat (length (ts_list w)) + Z.of_nat (length items) <= max_tabs →
  let '(shows, w', st') := restore runs w st in
  shows = negb (bool_decide (items = [])) ∧ st' = pruned runs st
  ∧ NoDup (ids w') ∧ ids w ⊆ ids w' ∧ (length (ts_list w') ≤ length (ts_list w) + length items)%nat
  ∧ (items ≠ [] → ts_active w' ∈ ids w')
  ∧ ∀ run, run ∈ items → ∃ id, appears run id w'.
Proof.
  intros items Hn Hs Hnd Hall Hroom. unfold restoreActiveRunsAfterReload. cbv zeta. fold items.
  assert (Forall (restorable_here w) items) as Hall'.
  { rewrite Forall_forall in Hall |- *. intros run Hin. destruct (Hall run Hin) as [Hid Hk].
    split; [by eapply restorable_truthy|done]. }
  destruct (restore_runs_spec items 0 None w Hn Hs Hall' Hnd Hroom ltac:(done)) as
    (first & w' & E & Hsome & Hf & Hn' & _ & Hsub & Hlen & _ & _ & Hfol).
  clearbody items. destruct items as [|run items].
  { split; [done|]. split; [done|]. cbn. split; [by destruct Hn|]. split; [done|]. split; [lia|]. split; [done|].
    by intros ? ?%not_elem_of_nil. }
  rewrite E. destruct (Hsome ltac:(done)) as [id ->]. specialize (Hf id eq_refl).
  assert (ids (calling [OnTab id SyncTimer] (activateTab id w')) = ids w') as Hi by exact (activate_ids id w').
  split; [done|]. split; [done|]. rewrite Hi. split; [by destruct Hn'|]. split; [done|].
  split; [by rewrite <-(length_ids (calling _ _)), Hi, length_ids|]. split; [done|].
  intros run' Hrun'. destruct (Hfol run' Hrun') as (x & Hx). exists x. revert Hx. unfold appears. rewrite Hi.
  assert (∀ c, c ∈ ts_calls w' → c ∈ ts_calls (calling [OnTab id SyncTimer] (activateTab id w'))) as Hc
    by (intros c Hc; apply elem_of_app; left; eapply opened_calls; [apply opened_activate|exact Hc]).
  destruct (_activeRunIsInteractivePty run'); [by intros [? ?%Hc]|].
  intros [Hsh (a & Ha)]. split; [exact (shown_same x _ _ _ (same_runs_activate id w') Hsh)|]. exists a. by apply Hc.
Qed.

(** Nothing else is opened. Whatever the tabs and the runs are, every
    stream that restoring opens belongs to a run of the report that is not
    scheduled, is not recorded as detached, and is owned by this browser, has
    a stale owner or has no live owner. *)
Theorem only_restorable_runs_open runs w st id r a :
  let '(_, w', _) := restore runs w st in
  OnTab id (SubscribeRun r a) ∈ drop (length (ts_calls w)) (ts_calls w') →
  ∃ run, run ∈ runs ∧ r = run_id_of run ∧ truthy (rget run "scheduled") = false
    ∧ _isActiveRunDetachedForRestore session_id (rget run "run_id") (pruned runs st) = false
    ∧ (truthy (rget run "owned_by_this_client") = true ∨ truthy (rget run "owner_stale") = true
       ∨ truthy (rget run "has_live_owner") = false).
Proof.
  set (items := restorable session_id runs (pruned runs st)).
  assert (∀ w', opened w w' (map run_id_of items) →
    OnTab id (SubscribeRun r a) ∈ drop (length (ts_calls w)) (ts_calls w') → ∃ run, run ∈ items ∧ r = run_id_of run) as Hop.
  { intros w' (cs & -> & Hcs) Hin. rewrite drop_app_length in Hin. apply Hcs in Hin.
    apply list_elem_of_fmap in Hin as (run & -> & Hrun). by exists run. }
  assert (∀ w', opened w w' (map run_id_of items) →
    OnTab id (SubscribeRun r a) ∈ drop (length (ts_calls w)) (ts_calls w') →
    ∃ run, run ∈ runs ∧ r = run_id_of run ∧ truthy (rget run "scheduled") = false
    ∧ _isActiveRunDetachedForRestore session_id (rget run "run_id") (pruned runs st) = false
    ∧ (truthy (rget run "owned_by_this_client") = true ∨ truthy (rget run "owner_stale") = true
       ∨ truthy (rget run "has_live_owner") = false)) as Hall.
  { intros w' Ho Hin. destruct (Hop w' Ho Hin) as (run & Hrun & ->). apply elem_of_filterb in Hrun as [Hs Hrun].
    exists run. split; [done|]. split; [done|]. unfold _shouldAutoRestoreActiveRun in Hs.
    destruct (negb (is_objectlike run)); [done|]. destruct (truthy (rget run "scheduled")); [done|].
    destruct (_isActiveRunDetachedForRestore _ _ _); [done|]. split; [done|]. split; [done|].
    rewrite andb_false_r in Hs. destruct (truthy (rget run "owned_by_this_client")); [by left|]. destruct (truthy (rget run "owner_stale")); [by right; left|].
    right; right. by apply negb_true_iff in Hs. }
  unfold restoreActiveRunsAfterReload. cbv zeta. fold items.
  pose proof (restore_runs_open items 0 None w) as Hopen. destruct items as [|run items]; [apply Hall, opened_call, opened_none; exact I|].
  destruct (restore_runs _ _ _ _ _ _ _ _) as [[first|] w1]; apply Hall, opened_call; try exact I; try exact Hopen.
  pose proof (opened_trans _ _ _ _ _ Hopen (opened_activate first w1)) as H. by rewrite app_nil_r in H.
Qed.

(** A run can take the tab of another one. A run that no tab knows goes to
    the tab it names as its owner's, without a look at what that tab shows:
    when the name, given anew after the reload, belongs to a tab that shows
    another active run, that run is in no tab any more. *)
Theorem owner_name_takes_tab_over index run w id r :
  names_ok w → shown id r w → (∀ x, shown x r w → x = id) →
  truthy run = true → run_id_of run ≠ [] → run_id_of run ≠ r → _activeRunIsInteractivePty run = false →
  _tabForActiveRunId (VStr (run_id_of run)) w = None →
  truthy (rget run "owned_by_this_client") = true → rget run "owner_tab_id" = VStr id →
  let w' := snd (restore_run max_tabs historyOpen clientId starts index run w) in
  followed (run_id_of run) w' ∧ ids w' = ids w ∧ ∀ x, ¬ shown x r w'.
Proof.
  intros Hn Hsh Honly Hr Hne Hner Hp Hnone Hown Hotab. destruct Hsh as (o & Ho & Hst).
  pose proof (tabById_elem id w o Ho) as Hin. pose proof (name_nonempty w id Hn Hin) as Hid.
  assert (∃ t, _activeRunTabForRestore run w = Some t ∧ tb_id t = id) as (t & Ht & Hti).
  { unfold _activeRunTabForRestore. change (str_of (rget run "run_id")) with (run_id_of run).
    rewrite (proj2 (nonempty_spec _) Hne), Hnone, Hown, Hotab, str_of_VStr, (proj2 (nonempty_spec _) Hid). cbn [negb andb].
    unfold _tabById in Ho. destruct (findb _ _) as [t|] eqn:E; [|done]. exists t. split; [done|].
    apply findb_Some in E as [_ E]. by apply bool_decide_eq_true in E. }
  cbv zeta. unfold restore_run. rewrite Ht, Hti. cbn [snd]. rewrite show_run_eq, Hp.
  match goal with |- context [reattach id run ?a ?m ?p w] =>
    destruct (reattach_shows id run a m p w o Ho Hid Hr) as ((Hi & _ & _ & Hoth) & Hs' & _ & Hc); set (w' := reattach id run a m p w) in * end.
  split; [exists id; split; [done|exact Hc]|]. split; [done|]. intros x (ox & Hox & Hrx & Hidx & Hhx).
  destruct (decide (x = id)) as [->|Hx].
  - destruct Hs' as (o' & Ho' & _ & Hid' & _). rewrite Hox in Ho'. injection Ho' as <-. rewrite Hidx in Hid'. injection Hid' as E. by rewrite E in Hner.
  - apply Hx, Honly. exists ox. rewrite <-Hoth by done. done.
Qed.
End Restoring.

(** ** Concrete reloads *)

Definition demo_report (runId : string) (owner : jsval) : jsval :=
  VObj [(js "run_id", VStr (js runId)); (js "command", vstr "ping darklab.sh"); (js "owned_by_this_client", VBool true);
        (js "owner_tab_id", owner); (js "has_live_owner", VBool true)].
Definition demo_terminal : jsval :=
  VObj [(js "run_id", vstr "r8"); (js "command", vstr "mtr --interactive darklab.sh"); (js "run_type", vstr "pty")].
Definition demo_runs : list jsval := [demo_report "r2" (vstr "tab-9"); demo_report "r7" VNull; demo_terminal].
Definition idle_with (runId : string) : page → act := λ _, put "runId" (VStr (js runId)) |> put "historyRunId" (VStr (js runId)).
Definition demo_session : tabs :=
  tab_steps 0 false [] None [Create []; Create []; RunActs (tab_name 2) (idle_with "r2")] (Tabs [] [] 0 [] [] []).
Notation demo_restore := (restoreActiveRunsAfterReload 0 false [] (λ _, demo_when) VUndef).

Lemma settled_list w :
  Forall (λ t, tab_get (tb_obj t) "historyRunId" = tab_get (tb_obj t) "runId") (ts_list w) → all_settled w.
Proof.
  intros H x o Ho r _ E. unfold _tabById in Ho. apply fmap_Some in Ho as (t & Ht & ->).
  apply findb_Some in Ht as [Hin _]. rewrite Forall_forall in H. by rewrite (H t Hin).
Qed.
Lemma demo_session_ok : names_ok demo_session ∧ all_settled demo_session.
Proof.
  split.
  - split; [apply (bool_decide_unpack _); vm_compute; exact I|]. split; [|vm_compute; discriminate].
    change (ids demo_session) with [tab_name 1; tab_name 2].
    repeat constructor; eexists; (split; [reflexivity|vm_compute; split; [reflexivity|discriminate]]).
  - apply settled_list. repeat (apply Forall_cons; split; [vm_compute; reflexivity|]). apply Forall_nil. exact I.
Qed.

Lemma active_runs_followed_witness :
  let w := snd (fst (demo_restore demo_runs demo_session ∅)) in
  (∃ id, shown id (js "r2") w) ∧ (∃ id, shown id (js "r7") w) ∧ ∃ id, OnTab id (AttachPty demo_terminal) ∈ ts_calls w.
Proof.
  destruct demo_session_ok as [Hn Hs].
  pose proof (active_runs_followed 0 false [] (λ _, demo_when) VUndef demo_runs demo_session ∅ Hn Hs) as H.
  assert (restorable VUndef demo_runs (_pruneDetachedActiveRunRestoreIds VUndef (active_ids demo_runs) ∅) = demo_runs) as E
    by (vm_compute; reflexivity).
  rewrite E in H. specialize (H ltac:(apply (bool_decide_unpack _); vm_compute; exact I)).
  assert (known (run_id_of (demo_report "r2" (vstr "tab-9"))) demo_session) as Hk
    by (exists (tab_name 2); eexists; split; vm_compute; reflexivity).
  specialize (H ltac:(apply Forall_cons; split; [split; [discriminate|left; exact Hk]|];
    repeat (apply Forall_cons; split; [split; [discriminate|right; vm_compute; reflexivity]|]); apply Forall_nil; exact I)).
  specialize (H ltac:(left; lia)). cbv zeta.
  destruct (demo_restore demo_runs demo_session ∅) as [[shows w'] st']. destruct H as (_ & _ & _ & _ & _ & _ & H).
  destruct (H (demo_report "r2" (vstr "tab-9"))) as (x & Hx & _); [left; reflexivity|].
  destruct (H (demo_report "r7" VNull)) as (y & Hy & _); [right; left; reflexivity|].
  destruct (H demo_terminal) as (z & _ & Hz); [right; right; left; reflexivity|].
  split; [exists x; exact Hx|]. split; [exists y; exact Hy|]. exists z. exact Hz.
Defined.

Lemma only_restorable_runs_open_witness :
  ∃ run, run ∈ demo_runs ∧ js "r7" = run_id_of run ∧ truthy (rget run "scheduled") = false.
Proof.
  pose proof (only_restorable_runs_open 0 false [] (λ _, demo_when) VUndef demo_runs demo_session ∅ (tab_name 3) (js "r7") []) as H.
  assert (OnTab (tab_name 3) (SubscribeRun (js "r7") [])
    ∈ drop (length (ts_calls demo_session)) (ts_calls (snd (fst (demo_restore demo_runs demo_session ∅))))) as Hin
    by (apply (list_elem_of_lookup_2 _ 25); vm_compute; reflexivity).
  destruct (demo_restore demo_runs demo_session ∅) as [[shows w'] st']. destruct (H Hin) as (run & Hrun & Hid & Hsch & _).
  exists run. exact (conj Hrun (conj Hid Hsch)).
Defined.

Definition demo_one : tabs := snd (fst (demo_restore [demo_report "r1" (vstr "tab-3")] (Tabs [] [] 0 [] [] []) ∅)).
Lemma owner_name_takes_tab_over_witness :
  ¬ shown (tab_name 1) (js "r1") (snd (restore_run 0 false [] (λ _, demo_when) 1 (demo_report "r5" (vstr "tab-1")) demo_one)).
Proof.
  assert (names_ok demo_one) as Hn.
  { split; [apply (bool_decide_unpack _); vm_compute; exact I|]. split; [|vm_compute; discriminate].
    change (ids demo_one) with [tab_name 1].
    repeat constructor; eexists; (split; [reflexivity|vm_compute; split; [reflexivity|discriminate]]). }
  assert (shown (tab_name 1) (js "r1") demo_one) as Hsh by (eexists; split; [vm_compute; reflexivity|repeat split; vm_compute; reflexivity]).
  assert (∀ x, shown x (js "r1") demo_one → x = tab_name 1) as Honly.
  { intros x (o & Ho & _). apply tabById_elem in Ho. change (ids demo_one) with [tab_name 1] in Ho. by apply list_elem_of_singleton in Ho. }
  destruct (owner_name_takes_tab_over 0 false [] (λ _, demo_when) 1 (demo_report "r5" (vstr "tab-1")) demo_one (tab_name 1) (js "r1") Hn Hsh Honly)
    as (_ & _ & H); [reflexivity|discriminate|discriminate|reflexivity|vm_compute; reflexivity|reflexivity|reflexivity|exact (H (tab_name 1))].
Defined.

(** Two runs without a known tab, the second of which names the tab that was
    opened for the first. *)
Example taken_over :
  let w := snd (fst (demo_restore [demo_report "r1" (vstr "tab-3"); demo_report "r5" (vstr "tab-1")] (Tabs [] [] 0 [] [] []) ∅)) in
  map (λ t, tab_get (tb_obj t) "runId") (ts_list w) = [vstr "r5"].
Proof. vm_compute. reflexivity. Qed.
