(* ===== verification/WorkspaceCommands.v ===== *)
(** The file commands of the terminal
    (app/static/js/features/runner/runner_workspace.js,
    app/static/js/features/workspace/workspace_autocomplete_cache.js): their
    words and options, paths below the current folder, and glob patterns over
    the files that are known. *)

From S2P Require Import Prelude JsString JsNumber JsRegExp JsValue WorkspaceCore Utils.

(** ** Definitions: words *)

Definition WORD_RE : regexp := Eval vm_compute in lit "\x22[^\x22]*\x22|'[^']*'|\S+" false.
(** A quoted word without its quotes. *)
Definition unquote (token : jsstr) : jsstr :=
  let quoted q := bool_decide (head token = Some q) && bool_decide (last token = Some q) in
  if (2 <=? Z.of_nat (length token)) && (quoted 34 || quoted 39) then drop_last (drop 1 token) else token.
Definition _workspaceCommandTokens (cmd : jsstr) : list jsstr :=
  let text := trim cmd in map (λ m, unquote (matched text m)) (exec_all WORD_RE text).

Definition word (i : nat) (parts : list jsstr) : jsstr := default [] (parts !! i).
Definition root_of (parts : list jsstr) : jsstr := lower (word 0 parts).
Definition action_of (parts : list jsstr) : jsstr := lower (word 1 parts).
Definition one_of (names : list string) (s : jsstr) : bool := bool_decide (s ∈ map js names).

(** ** Definitions: the commands *)

Definition RF_RE : regexp := Eval vm_compute in lit "^-[rf]+$" false.
Definition LR_RE : regexp := Eval vm_compute in lit "^-[lR]+$" false.
Definition dashed (s : jsstr) : bool := starts_with (js "-") s.

Record delete_command := DeleteCommand
  { dc_target : jsstr; dc_recursive : bool; dc_force : bool; dc_usage : jsstr; dc_invalid : bool }.
Definition _workspaceDeleteCommand (cmd : jsstr) : option delete_command :=
  let parts := _workspaceCommandTokens cmd in
  let root := root_of parts in
  let fileAction := lower (str_or (word 1 parts) (js "delete")) in
  let usage := if root ==s js "file" then js "Usage: file " ++ fileAction ++ js " [-r|-f|-rf] <file-or-folder>"
               else js "Usage: rm [-r|-f|-rf] <file-or-folder>" in
  let start := if root ==s js "file" then 2%nat else 1%nat in
  if (root ==s js "file") && negb (one_of ["rm"; "delete"]%string (action_of parts)) then None
  else if negb (root ==s js "rm") && negb (root ==s js "file") then None
  else
    let args := drop start parts in
    let flags := filterb (test RF_RE) args in
    let targets := filterb (λ part, negb (test RF_RE part)) args in
    let invalid := negb (bool_decide (length targets = 1%nat))
                   || existsb (λ part, dashed part && negb (test RF_RE part)) args in
    Some (DeleteCommand (if invalid then [] else default [] (head targets))
            (existsb (includes (js "r")) flags) (existsb (includes (js "f")) flags) usage invalid).
Definition _workspaceDeleteTarget (cmd : jsstr) : jsstr :=
  match _workspaceDeleteCommand cmd with
  | Some parsed => if dc_invalid parsed then [] else dc_target parsed
  | None => []
  end.

Record two_paths := TwoPaths { tp_source : jsstr; tp_destination : jsstr; tp_usage : jsstr; tp_invalid : bool }.
(** [mv]/[cp] and [file move]/[file copy]. *)
Definition two_path_command (short action : string) (cmd : jsstr) : option two_paths :=
  let parts := _workspaceCommandTokens cmd in
  let from (i : nat) usage :=
    let ok := bool_decide (length parts = i + 2)%nat in
    Some (TwoPaths (if ok then word i parts else []) (if ok then word (S i) parts else []) usage (negb ok)) in
  if root_of parts ==s js short then from 1%nat (js "Usage: " ++ js short ++ js " <source> <destination>")
  else if negb (root_of parts ==s js "file") || negb (action_of parts ==s js action) then None
  else from 2%nat (js "Usage: file " ++ js action ++ js " <source> <destination>").
Definition _workspaceMoveCommand : jsstr → option two_paths := two_path_command "mv" "move".
Definition _workspaceCopyCommand : jsstr → option two_paths := two_path_command "cp" "copy".

Record one_path := OnePath { op_target : jsstr; op_usage : jsstr; op_invalid : bool }.
Definition _workspaceTouchCommand (cmd : jsstr) : option one_path :=
  let parts := _workspaceCommandTokens cmd in
  let from (i : nat) usage :=
    let ok := bool_decide (length parts = i + 1)%nat in
    Some (OnePath (if ok then word i parts else []) usage (negb ok)) in
  if root_of parts ==s js "touch" then from 1%nat (js "Usage: touch <file>")
  else if negb (root_of parts ==s js "file") || negb (action_of parts ==s js "touch") then None
  else from 2%nat (js "Usage: file touch <file>").

Record list_command := ListCommand
  { lc_target : jsstr; lc_long : bool; lc_recursive : bool; lc_usage : jsstr; lc_invalid : bool }.
Definition parseListArgs (args : list jsstr) (usage : jsstr) : list_command :=
  let flags := filterb (test LR_RE) args in
  let rest := filterb (λ value, negb (test LR_RE value)) args in
  let targets := filterb (λ value, negb (dashed value)) rest in
  ListCommand (default [] (head targets)) (existsb (includes (js "l")) flags) (existsb (includes (js "R")) flags)
    usage (existsb dashed rest || bool_decide (1 < length targets)%nat).
Definition _workspaceListCommand (parts : list jsstr) : option list_command :=
  let root := root_of parts in
  if root ==s js "ll" then
    let parsed := parseListArgs (drop 1 parts) (js "Usage: ll [-R] [folder]") in
    Some (ListCommand (lc_target parsed) true (lc_recursive parsed) (lc_usage parsed) (lc_invalid parsed))
  else if (root ==s js "file") && negb (one_of ["list"; "ls"]%string (action_of parts)) then None
  else Some (parseListArgs (drop (if root ==s js "file" then 2%nat else 1%nat) parts)
               (if root ==s js "file" then js "Usage: file list [-lR] [folder]" else js "Usage: ls [-lR] [folder]")).
Definition _workspaceListTarget (parts : list jsstr) : jsstr :=
  match _workspaceListCommand parts with
  | Some parsed => if lc_invalid parsed then [] else lc_target parsed
  | None => []
  end.

Record editor_command := EditorCommand { ec_action : jsstr; ec_target : jsstr; ec_invalid : bool }.
Definition _workspaceEditorCommand (cmd : jsstr) : option editor_command :=
  let parts := _workspaceCommandTokens cmd in
  if negb (root_of parts ==s js "file") || negb (one_of ["add"; "edit"]%string (action_of parts)) then None
  else Some (EditorCommand (action_of parts) (if bool_decide (length parts = 3%nat) then word 2 parts else [])
               (bool_decide (3 < length parts)%nat)).
Definition _workspaceDownloadTarget (cmd : jsstr) : jsstr :=
  let parts := _workspaceCommandTokens cmd in
  if (root_of parts ==s js "file") && (action_of parts ==s js "download") && bool_decide (length parts = 3%nat)
  then word 2 parts else [].

Inductive diff_mode := DiffNormal | DiffBrief | DiffUnified | DiffSideBySide.
#[export] Instance diff_mode_eq : EqDecision diff_mode. Proof. solve_decision. Defined.
Definition diff_modes (part : jsstr) : option diff_mode :=
  if one_of ["-q"; "--brief"]%string part then Some DiffBrief
  else if one_of ["-u"; "--unified"]%string part then Some DiffUnified
  else if one_of ["-y"; "--side-by-side"]%string part then Some DiffSideBySide
  else None.
Record diff_state := DiffState
  { ds_mode : diff_mode; ds_selected : bool; ds_options : bool; ds_invalid : bool; ds_last : bool; ds_operands : list jsstr }.
Definition diff_part (s : diff_state) (part : jsstr) : diff_state :=
  if ds_options s && (part ==s js "--") then
    DiffState (ds_mode s) (ds_selected s) false (ds_invalid s) (ds_last s) (ds_operands s)
  else if ds_options s && dashed part then
    if part ==s js "--last" then
      DiffState (ds_mode s) (ds_selected s) (ds_options s) (ds_invalid s || ds_last s) true (ds_operands s)
    else
      match diff_modes part with
      | Some selected =>
          if ds_selected s && negb (bool_decide (selected = ds_mode s))
          then DiffState (ds_mode s) (ds_selected s) (ds_options s) true (ds_last s) (ds_operands s)
          else DiffState selected true (ds_options s) (ds_invalid s) (ds_last s) (ds_operands s)
      | None => DiffState (ds_mode s) (ds_selected s) (ds_options s) true (ds_last s) (ds_operands s)
      end
  else DiffState (ds_mode s) (ds_selected s) (ds_options s) (ds_invalid s) (ds_last s) (ds_operands s ++ [part]).
Record diff_command := DiffCommand
  { df_mode : diff_mode; df_last : bool; df_left : option jsstr; df_right : option jsstr; df_usage : jsstr; df_invalid : bool }.
(** [left] and [right] are [undefined] for [--last]. *)
Definition _workspaceDiffCommand (cmd : jsstr) : option diff_command :=
  let parts := _workspaceCommandTokens cmd in
  let isFileCommand := root_of parts ==s js "file" in
  if isFileCommand && negb (action_of parts ==s js "diff") then None
  else if negb isFileCommand && negb (root_of parts ==s js "diff") then None
  else
    let usage := (if isFileCommand then js "Usage: file diff" else js "Usage: diff")
      ++ js " [-q|--brief|-u|--unified|-y|--side-by-side] [--last | <source1> <source2>]" in
    let s := fold_left diff_part (drop (if isFileCommand then 2%nat else 1%nat) parts)
               (DiffState DiffNormal false true false false []) in
    let invalid := ds_invalid s || (ds_last s && negb (bool_decide (ds_operands s = [])))
                   || (negb (ds_last s) && negb (bool_decide (length (ds_operands s) = 2%nat))) in
    Some (DiffCommand (ds_mode s) (ds_last s) (if invalid then Some [] else ds_operands s !! 0%nat)
            (if invalid then Some [] else ds_operands s !! 1%nat) usage invalid).

(** ** Definitions: which command it is *)

Section Recognise.
Context (enabled : bool).   (* workspace_enabled *)
Definition _isWorkspaceDeleteCommand (cmd : jsstr) : bool :=
  let parts := _workspaceCommandTokens cmd in
  enabled && ((root_of parts ==s js "rm") || (root_of parts ==s js "file") && one_of ["rm"; "delete"]%string (action_of parts)).
Definition _isWorkspaceEditorCommand (cmd : jsstr) : bool :=
  let parts := _workspaceCommandTokens cmd in
  enabled && (root_of parts ==s js "file") && one_of ["add"; "edit"]%string (action_of parts).
Definition _isWorkspaceDownloadCommand (cmd : jsstr) : bool :=
  let parts := words (trim cmd) in
  enabled && (root_of parts ==s js "file") && (action_of parts ==s js "download").
Definition _isWorkspaceMoveCommand (cmd : jsstr) : bool := enabled && bool_decide (is_Some (_workspaceMoveCommand cmd)).
Definition _isWorkspaceCopyCommand (cmd : jsstr) : bool := enabled && bool_decide (is_Some (_workspaceCopyCommand cmd)).
Definition _isWorkspaceTerminalCommand (cmd : jsstr) : bool :=
  let parts := _workspaceCommandTokens cmd in
  (root_of parts ==s js "diff")
  || enabled && (one_of ["cd"; "pwd"; "ls"; "ll"; "cat"; "mkdir"; "touch"; "grep"; "head"; "tail"; "wc"; "sort"; "uniq"]%string
                   (root_of parts)
                 || (root_of parts ==s js "file")
                    && one_of ["list"; "ls"; "show"; "diff"; "touch"; "add-dir"; "mkdir"]%string (action_of parts)).
End Recognise.

(** ** Definitions: paths *)

Definition segments_of (path : jsstr) : list jsstr := filterb nonempty (split_on 47 path).
(** [String(path).split('/').filter(Boolean).join('/')]. *)
Definition plain_path (path : jsstr) : jsstr := join (js "/") (segments_of path).
Definition _normalizeWorkspaceTerminalPath (path : jsstr) : jsstr :=
  join (js "/") (filterb nonempty (map trim (split_on 47 path))).
Definition _workspaceDisplayPath (path : jsstr) : jsstr := displayPath (VStr (_normalizeWorkspaceTerminalPath path)).
Definition _resolveWorkspaceCommandPath (rawPath cwd : jsstr) (defaultToCwd : bool) : path_error + jsstr :=
  let text := trim rawPath in
  let normalizedCwd := _normalizeWorkspaceTerminalPath cwd in
  if negb (nonempty text) && defaultToCwd then inr normalizedCwd
  else
    match normalizeCommandPath (VStr (str_or text (js "."))) (VStr normalizedCwd) with
    | inl e => inl e
    | inr p => inr (_normalizeWorkspaceTerminalPath p)
    end.

Inductive entry_kind := AFile | ADirectory.
Inductive wanted := WantFile | WantDirectory | WantAny.
#[export] Instance entry_kind_eq : EqDecision entry_kind. Proof. solve_decision. Defined.
Definition wants_dirs (kind : wanted) : bool := match kind with WantFile => false | _ => true end.
Definition wants_files (kind : wanted) : bool := match kind with WantDirectory => false | _ => true end.

Section Known.
(** The paths the cache holds, and the browser's [localeCompare(a, b) <= 0]. *)
Context (dirs files : list jsstr) (locale_le : jsstr → jsstr → bool).

(** The hints of the cache: the trimmed, non-empty paths. *)
Definition hints (paths : list jsstr) : list jsstr := filterb nonempty (map trim paths).
Definition getWorkspaceAutocompleteDirectoryHints : list jsstr := hints dirs.
Definition getWorkspaceAutocompleteFileHints : list jsstr := hints files.

Definition _workspacePathExists (path : jsstr) (kind : wanted) : bool :=
  let target := plain_path path in
  if negb (nonempty target) then wants_dirs kind
  else wants_dirs kind && bool_decide (target ∈ getWorkspaceAutocompleteDirectoryHints)
       || wants_files kind && bool_decide (target ∈ getWorkspaceAutocompleteFileHints).

Definition _workspacePathHasGlob (path : jsstr) : bool := has_unit 42 path.
(** Everything special in a pattern but the star. *)
Definition is_glob_meta (c : Z) : bool := is_regex_meta c && negb (c =? 42).
Definition glob_escape (segment : jsstr) : jsstr := flat_map (λ c, if is_glob_meta c then [92; c] else [c]) segment.
Definition _workspaceGlobSegmentToRegExp (segment : jsstr) : option regexp :=
  let escaped := flat_map (λ c, if c =? 42 then js "[^/]*" else [c]) (glob_escape segment) in
  mk_regexp (js "^" ++ escaped ++ js "$") false false.
(** A pattern that does not compile would throw; [glob_compiles] shows none does. *)
Definition glob_test (part s : jsstr) : bool :=
  match _workspaceGlobSegmentToRegExp part with Some re => test re s | None => false end.
Definition _workspaceGlobMatches (pattern path : jsstr) : bool :=
  let patternParts := segments_of pattern in
  let pathParts := segments_of path in
  bool_decide (length patternParts = length pathParts)
  && forallb (λ p, glob_test (fst p) (snd p)) (zip patternParts pathParts).

Definition entry : Type := jsstr * entry_kind.
Definition _workspaceEntryHints (kind : wanted) : list entry :=
  let listed k (l : list jsstr) := map (λ path, (path, k)) (filterb nonempty (map plain_path l)) in
  isort (λ a b, locale_le (fst a) (fst b))
    ((if wants_dirs kind then listed ADirectory getWorkspaceAutocompleteDirectoryHints else [])
     ++ (if wants_files kind then listed AFile getWorkspaceAutocompleteFileHints else [])).
Definition _workspaceExpandPathPattern (rawPath cwd : jsstr) (kind : wanted) (defaultToCwd : bool) : path_error + list entry :=
  match _resolveWorkspaceCommandPath rawPath cwd defaultToCwd with
  | inl e => inl e
  | inr target =>
      if negb (_workspacePathHasGlob target) then
        if negb (_workspacePathExists target kind) then inr []
        else inr [match findb (λ item, fst item ==s target) (_workspaceEntryHints kind) with
                  | Some item => item
                  | None => (target, if nonempty target && _workspacePathExists target WantFile then AFile else ADirectory)
                  end]
      else inr (filterb (λ item, _workspaceGlobMatches target (fst item)) (_workspaceEntryHints kind))
  end.
Definition _resolveExistingWorkspaceCommandPath (rawPath cwd : jsstr) (kind : wanted) (defaultToCwd : bool) : path_error + jsstr :=
  let text := trim rawPath in
  match _resolveWorkspaceCommandPath text cwd defaultToCwd with
  | inl e => inl e
  | inr target =>
      if _workspacePathExists target kind then inr target
      else
        let normalizedRaw := plain_path text in
        if nonempty text && negb (starts_with (js "/") text) && nonempty normalizedRaw
           && negb (normalizedRaw ==s target) && _workspacePathExists normalizedRaw kind
        then inr normalizedRaw else inr target
  end.
End Known.

(** ** Lemmas: glob patterns *)

(** What a pattern means: a star stands for any text without a slash. *)
Inductive glob_match : jsstr → jsstr → Prop :=
  | glob_nil : glob_match [] []
  | glob_star p u s : 47 ∉ u → glob_match p s → glob_match (42 :: p) (u ++ s)
  | glob_unit c p s : c ≠ 42 → glob_match p s → glob_match (c :: p) (c :: s).

Definition star_rx : rx := Rep (Cls true [CRange 47 47]) 0 None true.
Fixpoint glob_rx (p : jsstr) : rx :=
  match p with
  | [] => Eol
  | c :: p => Seq (if c =? 42 then star_rx else unit_rx c) (glob_rx p)
  end.
Fixpoint glob_lang (p : jsstr) : rx :=
  match p with
  | [] => Eps
  | c :: p => Seq (if c =? 42 then star_rx else unit_rx c) (glob_lang p)
  end.
Definition glob_text (p : jsstr) : jsstr :=
  flat_map (λ c, if c =? 42 then js "[^/]*" else [c]) (glob_escape p) ++ [36].

Lemma glob_text_cons c p :
  glob_text (c :: p) = (if c =? 42 then js "[^/]*" else esc c) ++ glob_text p.
Proof.
  unfold glob_text, glob_escape. cbn [flat_map]. rewrite flat_map_app, <-app_assoc. f_equal.
  unfold is_glob_meta, esc. destruct (Z.eqb_spec c 42) as [->|Hc]; [reflexivity|].
  rewrite andb_true_r. destruct (is_regex_meta c); cbn [flat_map app]; by rewrite (proj2 (Z.eqb_neq c 42)).
Qed.

Lemma glob_text_start p : is_quant_start (glob_text p) = false ∧ ∀ r, parse_quant r (glob_text p) = (r, glob_text p).
Proof.
  destruct p as [|c p]; [done|]. rewrite glob_text_cons. destruct (Z.eqb_spec c 42) as [->|Hc]; [done|].
  unfold esc. destruct (is_regex_meta c) eqn:Hm; [done|].
  assert (c ≠ 43 ∧ c ≠ 63 ∧ c ≠ 123) as (H1 & H2 & H3) by (split_and!; intros ->; done).
  cbn [app is_quant_start parse_quant]. clear Hm. split; [|intros r]; repeat case_match; congruence || done.
Qed.

Lemma glob_rx_not_eps p : glob_rx p ≠ Eps.
Proof. by destruct p. Qed.
Lemma seq_continue r p (rest : jsstr) (n : nat) :
  match Some (glob_rx p, n, rest) with
  | Some (Eps, n', s') => Some (r, n', s')
  | Some (r', n', s') => Some (Seq r r', n', s')
  | None => None
  end = Some (Seq r (glob_rx p), n, rest).
Proof. by destruct p. Qed.

Lemma parse_star fuel n rest :
  is_quant_start rest = false → (∀ r, parse_quant r rest = (r, rest)) →
  parse_seq (S fuel) n (js "[^/]*" ++ rest)
  = match parse_seq fuel n rest with
    | Some (Eps, n', s') => Some (star_rx, n', s')
    | Some (r', n', s') => Some (Seq star_rx r', n', s')
    | None => None
    end.
Proof.
  intros Hq Hp. change (js "[^/]*" ++ rest) with (91 :: 94 :: 47 :: 93 :: 42 :: rest). cbn [parse_seq is_quant_start].
  cbn [length parse_class].
  assert (parse_quant (Cls true [CRange 47 47]) (42 :: rest) = (star_rx, rest)) as ->.
  { cbn [parse_quant]. destruct rest as [|d rest]; [done|]. cbn [is_quant_start] in Hq. repeat case_match; done. }
  by rewrite Hq.
Qed.

Lemma parse_glob p fuel n :
  (length (glob_text p) < fuel)%nat → parse_seq fuel n (glob_text p) = Some (glob_rx p, n, []).
Proof.
  revert fuel. induction p as [|c p IH]; intros fuel Hf.
  - destruct fuel as [|[|fuel]]; [cbn in Hf; lia|cbn in Hf; lia|done].
  - rewrite glob_text_cons in *. rewrite length_app in Hf. destruct fuel as [|fuel]; [lia|].
    destruct (glob_text_start p) as [Hq Hp]. cbn [glob_rx].
    assert (parse_seq fuel n (glob_text p) = Some (glob_rx p, n, [])) as Hs.
    { apply IH. destruct (c =? 42); [change (length (js "[^/]*")) with 5%nat in Hf; lia|]. unfold esc in Hf. destruct (is_regex_meta c); cbn in Hf; lia. }
    destruct (Z.eqb_spec c 42) as [->|Hc]; [rewrite parse_star, Hs by done; apply seq_continue|].
    assert (seq_unit c (Some (glob_rx p, n, [])) = Some (Seq (unit_rx c) (glob_rx p), n, [])) as Hu by by destruct p.
    unfold esc. destruct (is_regex_meta c) eqn:Hm; cbn [app].
    + by rewrite parse_seq_meta, Hs.
    + by rewrite parse_seq_plain, Hs.
Qed.

Lemma parse_glob_alt p fuel :
  (length (glob_text p) < fuel)%nat →
  parse_alt (S (S fuel)) 0 (94 :: glob_text p) = Some (Seq Bol (glob_rx p), 0%nat, []).
Proof.
  intros Hf. cbn [parse_alt parse_seq is_quant_start]. rewrite parse_glob by done. by destruct p.
Qed.
Lemma glob_pattern p :
  js "^" ++ flat_map (λ c, if c =? 42 then js "[^/]*" else [c]) (glob_escape p) ++ js "$" = 94 :: glob_text p.
Proof. reflexivity. Qed.
Lemma glob_compiles p : _workspaceGlobSegmentToRegExp p = Some (RegExp (Seq Bol (glob_rx p)) false false).
Proof.
  unfold _workspaceGlobSegmentToRegExp. rewrite glob_pattern. unfold mk_regexp.
  replace (2 * length (94%Z :: glob_text p) + 2)%nat with (S (S (2 * length (glob_text p) + 2))) by (cbn [length]; lia).
  by rewrite parse_glob_alt by lia.
Qed.

Lemma glob_lang_plain p : plain_rx (glob_lang p) = true.
Proof. induction p as [|c p IH]; [done|]. cbn. rewrite IH. by case_match. Qed.
Lemma glob_before p : before_eol (glob_rx p) = Some (glob_lang p).
Proof. induction p as [|c p IH]; [done|]. cbn [glob_rx before_eol]. by rewrite IH. Qed.
Lemma glob_rx_ok p : rx_ok (glob_rx p) = true.
Proof. induction p as [|c p IH]; [done|]. cbn. rewrite IH. by case_match. Qed.

Lemma star_lang u : lang false star_rx u ↔ 47 ∉ u.
Proof.
  unfold star_rx. rewrite lang_rep_cls. split.
  - intros [H _] Hin. rewrite Forall_forall in H. specialize (H 47 Hin). vm_compute in H. discriminate.
  - intros H. split; [|split; [lia|done]]. apply Forall_forall. intros c Hc. unfold cls_has, items_have. cbn.
    destruct (Z.eqb_spec c 47) as [->|]; [done|]. apply negb_true_iff. lia.
Qed.
Lemma unit_lang c u : lang false (unit_rx c) u ↔ u = [c].
Proof. exact (lang_literal [c] u). Qed.

Lemma glob_lang_match p s : lang false (glob_lang p) s ↔ glob_match p s.
Proof.
  revert s. induction p as [|c p IH]; intros s; cbn [glob_lang lang].
  - split; [intros ->; constructor|by inversion 1].
  - split.
    + intros (u1 & u2 & -> & H1 & H2%IH). destruct (Z.eqb_spec c 42) as [->|Hc].
      * apply star_lang in H1. by constructor.
      * apply unit_lang in H1 as ->. by constructor.
    + inversion 1; subst.
      * eexists _, _. split; [done|]. rewrite Z.eqb_refl. split; [by apply star_lang|by apply IH].
      * exists [c], s0. split; [done|]. rewrite (proj2 (Z.eqb_neq _ _)) by done. split; [by apply unit_lang|by apply IH].
Qed.

(** A segment matches its compiled pattern exactly when it matches the glob. *)
Lemma glob_test_spec p s : glob_test p s = true ↔ glob_match p s.
Proof.
  unfold glob_test. rewrite glob_compiles, <-glob_lang_match.
  apply (test_full (RegExp (Seq Bol (glob_rx p)) false false) (glob_rx p) (glob_lang p) s);
    auto using glob_rx_ok, glob_before, glob_lang_plain.
Qed.

Lemma glob_segments ps ss :
  bool_decide (length ps = length ss) && forallb (λ p, glob_test (fst p) (snd p)) (zip ps ss) = true ↔ Forall2 glob_match ps ss.
Proof.
  rewrite andb_true_iff, bool_decide_eq_true. split.
  - intros [Hl HF]. revert ss Hl HF. induction ps as [|p ps IH]; intros [|s ss] Hl; try done.
    cbn. rewrite andb_true_iff, glob_test_spec. intros [Hp HF]. constructor; [done|]. apply IH; [by injection Hl|done].
  - induction 1 as [|p s ps ss Hp _ [Hl HF]]; [done|]. cbn. rewrite HF, Hl.
    split; [done|]. rewrite andb_true_r. by apply glob_test_spec.
Qed.

(** ** Lemmas: words *)

Section Words.
(** What a word is, unit by unit: a quoted text when its quote closes, and
    otherwise a run without white space. *)
Definition ink (s : jsstr) : jsstr := take_while (λ c, negb (is_ws c)) s.
Definition quoted_word (q : Z) (rest : jsstr) : option jsstr :=
  let inner := take_while (λ c, negb (c =? q)) rest in
  if bool_decide (length inner < length rest)%nat then Some (q :: inner ++ [q]) else None.
Definition next_word (s : jsstr) : option jsstr :=
  match s with
  | [] => None
  | c :: rest =>
      let plain := if is_ws c then None else Some (c :: ink rest) in
      if c =? 34 then match quoted_word 34 rest with Some w => Some w | None => plain end
      else if c =? 39 then match quoted_word 39 rest with Some w => Some w | None => plain end
      else plain
  end.

Lemma take_while_prefix {A} (p : A → bool) l : ∃ r, l = take_while p l ++ r ∧ ∀ x, head r = Some x → p x = false.
Proof.
  induction l as [|x l (r & Hr & Hh)]; [by exists []|]. cbn. destruct (p x) eqn:E.
  - exists r. split; [by rewrite <-app_comm_cons, <-Hr|done].
  - exists (x :: l). split; [done|]. by intros ? [= <-].
Qed.

Lemma take_while_ext {A} (p p' : A → bool) l : (∀ x, p x = p' x) → take_while p l = take_while p' l.
Proof. intros H. induction l as [|x l IH]; [done|]. cbn. by rewrite H, IH. Qed.

Lemma cls_unit q c : cls_has false false [CRange q q] c = (c =? q).
Proof.
  unfold cls_has, items_have. cbn. destruct (Z.eqb_spec c q) as [->|Hc]; [by rewrite Z.leb_refl|].
  destruct (Z.leb_spec q c), (Z.leb_spec c q); try done; lia.
Qed.
Lemma cls_not_unit q c : cls_has false true [CRange q q] c = negb (c =? q).
Proof.
  unfold cls_has, items_have. cbn. destruct (Z.eqb_spec c q) as [->|Hc]; [by rewrite Z.leb_refl|].
  destruct (Z.leb_spec q c), (Z.leb_spec c q); try done; lia.
Qed.

(** A quoted text, then success. *)
Definition quote_rx (q : Z) : rx :=
  Seq (Cls false [CRange q q]) (Seq (Rep (Cls true [CRange q q]) 0 None true) (Cls false [CRange q q])).
Lemma quoted_word_split q rest : 
  (∃ inner t, rest = inner ++ q :: t ∧ q ∉ inner ∧ take_while (λ c, negb (c =? q)) rest = inner
              ∧ quoted_word q rest = Some (q :: inner ++ [q]))
  ∨ (q ∉ rest ∧ take_while (λ c, negb (c =? q)) rest = rest ∧ quoted_word q rest = None).
Proof.
  unfold quoted_word. set (p := λ c, negb (c =? q)).
  destruct (take_while_prefix p rest) as (r & Hr & Hh). pose proof (take_while_Forall p rest) as HF.
  assert (q ∉ take_while p rest) as Hq.
  { intros Hin. rewrite Forall_forall in HF. specialize (HF q Hin). unfold p in HF. by rewrite Z.eqb_refl in HF. }
  destruct r as [|c t].
  - right. rewrite app_nil_r in Hr. rewrite <-Hr in *. split; [done|]. split; [done|].
    rewrite bool_decide_false by lia. done.
  - left. specialize (Hh c eq_refl). apply negb_false_iff, Z.eqb_eq in Hh as ->. exists (take_while p rest), t.
    split; [done|]. split; [done|]. split; [done|].
    rewrite bool_decide_true; [done|]. rewrite Hr at 2. rewrite length_app. cbn. lia.
Qed.

Lemma run_quote {X} q c rest st (k : mstate → option X) :
  m_rest st = c :: rest → (∀ st', is_Some (k st')) →
  run false false (quote_rx q) st k
  = if c =? q then match quoted_word q rest with
                   | Some w => k (advance_by w (drop (length w) (m_rest st)) st)
                   | None => None
                   end
    else None.
Proof.
  intros Hr Hk. set (k' := λ st', run false false (Cls false [CRange q q]) st' k).
  change (run false false (quote_rx q) st k)
    with (match m_rest st with
          | c :: rest => if cls_has false false [CRange q q] c
                         then run false false (Rep (Cls true [CRange q q]) 0 None true) (advance c rest st) k' else None
          | [] => None end).
  rewrite Hr, cls_unit. destruct (Z.eqb_spec c q) as [->|]; [|done].
  rewrite run_star. cbn [m_rest advance].
  rewrite (take_while_ext _ (λ c, negb (c =? q))) by (intros; apply cls_not_unit).
  destruct (quoted_word_split q rest) as [(inner & t & Hrest & Hq & Ht & ->)|(Hq & Ht & ->)]; rewrite Ht.
  - set (w := q :: inner ++ [q]). replace (drop (length w) (q :: rest)) with t.
    2:{ rewrite Hrest. replace (q :: inner ++ q :: t) with (w ++ t) by (unfold w; cbn; by rewrite <-app_assoc).
        by rewrite drop_app_length. }
    assert (k' (advance_by inner (q :: t) (advance q rest st)) = k (advance_by w t st)) as Hk'.
    { unfold k'. cbn [run advance_by m_rest]. rewrite cls_unit, Z.eqb_refl. f_equal.
      unfold w. rewrite advance_by_cons, <-app_assoc, Hrest, (advance_by_app inner [q] t), (advance_by_cons q []).
      symmetry. exact (advance_by_nil (advance q t _)). }
    destruct (Hk (advance_by w t st)) as [x Hx]. rewrite Hx in *.
    by apply (backoff_longest k' inner (q :: t)).
  - apply (backoff_none k' rest []); [by rewrite app_nil_r|]. intros v w ->. unfold k'. cbn [run advance_by m_rest].
    rewrite app_nil_r. destruct w as [|d w]; [done|]. rewrite cls_unit.
    destruct (Z.eqb_spec d q) as [->|]; [|done]. exfalso. apply Hq, elem_of_app. right. by left.
Qed.

Lemma quoted_word_head q rest w : quoted_word q rest = Some w → ∃ t, q :: rest = w ++ t.
Proof.
  destruct (quoted_word_split q rest) as [(inner & t & -> & _ & _ & ->)|(_ & _ & ->)]; [|done].
  intros [= <-]. exists t. cbn. by rewrite <-app_assoc.
Qed.
Lemma next_word_prefix s w : next_word s = Some w → w ≠ [] ∧ ∃ t, s = w ++ t.
Proof.
  destruct s as [|c rest]; [done|]. cbn. set (plain := if is_ws c then None else Some (c :: ink rest)).
  assert (∀ v, plain = Some v → v ≠ [] ∧ ∃ t, c :: rest = v ++ t) as Hplain.
  { unfold plain. destruct (is_ws c); [done|]. intros v [= <-]. split; [done|].
    destruct (take_while_prefix (λ c, negb (is_ws c)) rest) as (r & Hr & _). exists r. cbn. f_equal. exact Hr. }
  assert (∀ q, (if c =? q then match quoted_word q rest with Some w => Some w | None => plain end else None) = Some w →
          w ≠ [] ∧ ∃ t, c :: rest = w ++ t) as Hq.
  { intros q. destruct (Z.eqb_spec c q) as [->|]; [|done]. destruct (quoted_word q rest) as [v|] eqn:E; [|apply Hplain].
    intros [= ->]. split; [|by apply quoted_word_head]. intros ->. by destruct (quoted_word_split q rest) as [(? & ? & _ & _ & _ & H)|(_ & _ & H)]; rewrite H in E. }
  specialize (Hq 34) as H34. specialize (Hq 39). destruct (c =? 34); [done|]. destruct (c =? 39); [done|]. apply Hplain.
Qed.

Lemma word_here rest pos prev :
  match_here WORD_RE (MState rest pos prev []) = (λ w, RMatch pos (pos + length w) []) <$> next_word rest.
Proof.
  unfold match_here. set (k := λ st', Some _).
  assert (∀ st, is_Some (k st)) as Hk by by eexists.
  change (run _ _ _ _ k) with
    (match run false false (quote_rx 34) (MState rest pos prev []) k with
     | Some x => Some x
     | None => match run false false (quote_rx 39) (MState rest pos prev []) k with
               | Some x => Some x
               | None => run false false (Rep (Cls false [CSpace true]) 1 None true) (MState rest pos prev []) k
               end
     end).
  destruct rest as [|c rest]; [done|].
  rewrite !(run_quote _ c rest _ k) by done. rewrite (run_plus _ _ _ _ _ c rest) by done.
  assert (∀ d, cls_has false false [CSpace true] d = negb (is_ws d)) as Hw.
  { intros d. unfold cls_has, items_have. cbn. by destruct (is_ws d). }
  rewrite Hw, (take_while_ext _ _ _ Hw). fold (ink rest).
  assert ((if negb (is_ws c) then backoff k (ink rest) (advance c rest (MState (c :: rest) pos prev [])) else None)
          = (λ w, RMatch pos (pos + length w) []) <$> (if is_ws c then None else Some (c :: ink rest))) as ->.
  { destruct (is_ws c); [done|]. destruct (take_while_prefix (λ c, negb (is_ws c)) rest) as (r & Hr & _).
    cbn [negb fmap option_fmap option_map]. apply (backoff_longest k (ink rest) r); [done|]. unfold k. cbn. do 2 f_equal. lia. }
  cbn [next_word]. cbv zeta. destruct (Z.eqb_spec c 34) as [->|_]; [destruct (quoted_word 34 rest); reflexivity|].
  destruct (c =? 39); [destruct (quoted_word 39 rest)|]; reflexivity.
Qed.

(** The words of a text, read from the left. *)
Fixpoint scan_words (fuel : nat) (s : jsstr) : list jsstr :=
  match fuel, s with
  | S fuel, c :: rest =>
      match next_word s with
      | Some w => w :: scan_words fuel (drop (length w) s)
      | None => scan_words fuel rest
      end
  | _, _ => []
  end.
Lemma scan_words_fuel f f' s : (length s ≤ f)%nat → (length s ≤ f')%nat → scan_words f s = scan_words f' s.
Proof.
  revert f' s. induction f as [|f IH]; intros [|f'] [|c s] H1 H2; try done; try (cbn in *; lia).
  cbn [scan_words]. destruct (next_word (c :: s)) as [w|] eqn:E.
  - f_equal. apply next_word_prefix in E as [Hw _]. destruct w as [|d w]; [done|].
    assert (length (drop (length (d :: w)) (c :: s)) ≤ length s)%nat by (cbn; rewrite length_drop; lia).
    apply IH; cbn [length] in *; lia.
  - apply IH; cbn in *; lia.
Qed.

(** The first word of a text, after how many units. *)
Fixpoint find_word (s : jsstr) : option (nat * jsstr) :=
  match next_word s with
  | Some w => Some (O, w)
  | None => match s with [] => None | _ :: s => (λ p, (S (fst p), snd p)) <$> find_word s end
  end.
Lemma scan_find rest pos prev :
  scan WORD_RE rest pos prev = (λ p, RMatch (pos + fst p) (pos + fst p + length (snd p)) []) <$> find_word rest.
Proof.
  revert pos prev. induction rest as [|c rest IH]; intros pos prev; cbn [scan find_word]; rewrite word_here.
  - done.
  - destruct (next_word (c :: rest)) as [w|]; cbn [fmap option_fmap option_map fst snd]; [by rewrite Nat.add_0_r|].
    rewrite IH. destruct (find_word rest) as [[i w]|]; [|done]. cbn. do 2 f_equal; lia.
Qed.
Lemma find_word_split s i w : find_word s = Some (i, w) → w ≠ [] ∧ ∃ u t, s = u ++ w ++ t ∧ length u = i.
Proof.
  revert i. induction s as [|c s IH]; intros i; cbn [find_word]; [done|].
  destruct (next_word (c :: s)) as [v|] eqn:E.
  - intros [= <- ->]. apply next_word_prefix in E as [Hw [t Ht]]. split; [done|]. by exists [], t.
  - destruct (find_word s) as [[j v]|]; [|done]. intros [= <- ->].
    destruct (IH j eq_refl) as (Hw & u & t & -> & Hu). split; [done|]. exists (c :: u), t. cbn. by rewrite Hu.
Qed.
Lemma scan_words_find s :
  scan_words (length s) s
  = match find_word s with
    | Some (i, w) => let t := drop (i + length w) s in w :: scan_words (length t) t
    | None => []
    end.
Proof.
  induction s as [|c s IH]; [done|]. cbn [length scan_words find_word].
  destruct (next_word (c :: s)) as [w|] eqn:E; cbv zeta.
  - change (0 + length w)%nat with (length w). f_equal. apply next_word_prefix in E as [Hw _]. apply scan_words_fuel; [|lia].
    rewrite length_drop. destruct w; [done|]. cbn. lia.
  - rewrite IH. destruct (find_word s) as [[i w]|]; [|done]. done.
Qed.

Lemma scan_all_words fuel pre rest prev :
  (length rest < fuel)%nat →
  map (matched (pre ++ rest)) (scan_all fuel WORD_RE rest (length pre) prev) = scan_words (length rest) rest.
Proof.
  revert pre rest prev. induction fuel as [|fuel IH]; intros pre rest prev Hf; [lia|].
  cbn [scan_all]. rewrite scan_find, scan_words_find.
  destruct (find_word rest) as [[i w]|] eqn:E; [|done]. cbn [fmap option_fmap option_map fst snd rm_start rm_end].
  apply find_word_split in E as (Hw & u & t & -> & <-).
  assert (0 < length w)%nat as Hl by (destruct w; [done|cbn; lia]).
  rewrite (bool_decide_false (_ = _)) by lia.
  replace (length pre + length u + length w - length pre)%nat with (length u + length w)%nat by lia.
  rewrite bool_decide_false by (rewrite !length_app; lia).
  replace (drop (length u + length w) (u ++ w ++ t)) with t
    by (by rewrite app_assoc, <-length_app, drop_app_length).
  cbn [map]. f_equal.
  - unfold matched. cbn [rm_start rm_end]. rewrite app_assoc, <-length_app. apply slice_middle.
  - replace (pre ++ u ++ w ++ t) with ((pre ++ u ++ w) ++ t) by by rewrite <-!app_assoc.
    replace (length pre + (length u + length w))%nat with (length (pre ++ u ++ w)) by (rewrite !length_app; lia).
    apply IH. rewrite !length_app in Hf. lia.
Qed.

(** The words of a command, without regular expressions. *)
Lemma tokens_scan cmd :
  _workspaceCommandTokens cmd = map unquote (let text := trim cmd in scan_words (length text) text).
Proof.
  unfold _workspaceCommandTokens. cbv zeta. rewrite <-(scan_all_words (S (length (trim cmd))) [] (trim cmd) None) by lia.
  by rewrite map_map.
Qed.

(** Words in quotes, with one blank between them. *)
Definition quote (w : jsstr) : jsstr := 34 :: w ++ [34].
Definition command_line (ws : list jsstr) : jsstr := join (js " ") (map quote ws).
Lemma next_quoted w t : 34 ∉ w → next_word (quote w ++ t) = Some (quote w).
Proof.
  intros Hw. unfold quote. cbn [app next_word]. rewrite Z.eqb_refl.
  destruct (quoted_word_split 34 ((w ++ [34]) ++ t)) as [(i & r & Hr & Hi & Ht & ->)|(Hq & _)].
  - rewrite <-app_assoc in Hr. cbn in Hr.
    assert (take_while (λ c, negb (c =? 34)) (w ++ 34 :: t) = w) as Hw'.
    { clear -Hw. induction w as [|c w IH]; [done|]. apply not_elem_of_cons in Hw as [Hc Hw]. cbn.
      rewrite (proj2 (Z.eqb_neq c 34)) by done. cbn. by rewrite IH. }
    rewrite <-app_assoc in Ht. cbn in Ht. rewrite Hw' in Ht. by subst i.
  - exfalso. apply Hq. apply elem_of_app. left. apply elem_of_app. right. by left.
Qed.
Lemma unquote_quote w : unquote (quote w) = w.
Proof.
  unfold unquote, quote. rewrite app_comm_cons, last_snoc. cbn [head app].
  rewrite !bool_decide_true by done. rewrite (proj2 (Z.leb_le _ _)).
  - cbn [andb orb]. change (drop 1 (34 :: w ++ [34])) with (w ++ [34]). unfold drop_last. rewrite length_app. cbn.
    rewrite Nat.add_sub. apply take_app_length.
  - cbn. rewrite length_app. cbn. lia.
Qed.
Lemma command_line_cons w ws : command_line (w :: ws) = quote w ++ (if ws is [] then [] else 32 :: command_line ws).
Proof. destruct ws; [symmetry; apply app_nil_r|done]. Qed.
Lemma scan_command_line ws fuel :
  Forall (λ w, 34 ∉ w) ws → (length (command_line ws) ≤ fuel)%nat → scan_words fuel (command_line ws) = map quote ws.
Proof.
  intros HF. revert fuel. induction HF as [|w ws Hw HF IH]; intros fuel Hf; [by destruct fuel|].
  rewrite command_line_cons in *. destruct fuel as [|fuel]; [cbn in Hf; lia|].
  set (t := match ws with [] => [] | _ => 32 :: command_line ws end) in *.
  change (scan_words (S fuel) (quote w ++ t))
    with (match next_word (quote w ++ t) with
          | Some w' => w' :: scan_words fuel (drop (length w') (quote w ++ t))
          | None => scan_words fuel ((w ++ [34]) ++ t) end).
  rewrite next_quoted by done. rewrite drop_app_length. cbn [map]. f_equal.
  rewrite length_app in Hf. unfold quote in Hf. cbn [length] in Hf. unfold t in *. clear t.
  destruct ws as [|v ws]; [by destruct fuel|]. cbn [length] in Hf.
  destruct fuel as [|fuel]; [lia|]. cbn [scan_words next_word is_ws]. 
  apply IH. lia.
Qed.

(** Words without quotes or blanks are read as they are; what follows the last
    blank is one word when it holds none. *)
Definition opens_plain (w : jsstr) : bool := match w with c :: _ => negb (is_ws c) && negb (c =? 34) && negb (c =? 39) | [] => false end.
Definition plain_word (w : jsstr) : Prop := opens_plain w = true ∧ no_ws w.
Lemma unquote_plain w : opens_plain w = true → unquote w = w.
Proof.
  destruct w as [|c w]; [done|]. intros [[_ H1%negb_true_iff%Z.eqb_neq]%andb_true_iff H2%negb_true_iff%Z.eqb_neq]%andb_true_iff.
  unfold unquote. cbn [head]. rewrite !(bool_decide_false (Some c = _)) by congruence. cbn [andb orb]. by rewrite andb_false_r.
Qed.
Lemma next_plain w : opens_plain w = true → next_word w = Some (ink w).
Proof.
  destruct w as [|c w]; [done|]. intros [[H0 H1%negb_true_iff]%andb_true_iff H2%negb_true_iff]%andb_true_iff.
  unfold ink. cbn [next_word take_while]. rewrite H0, H1, H2. apply negb_true_iff in H0. by rewrite H0.
Qed.
Lemma ink_no_ws w t : no_ws w → ink (w ++ 32 :: t) = w.
Proof. unfold ink. induction 1 as [|c w Hc _ IH]; [done|]. cbn. by rewrite Hc, IH. Qed.
Lemma ink_all w : ink w = w ↔ no_ws w.
Proof.
  unfold ink. split; [intros <-|].
  - eapply Forall_impl; [apply take_while_Forall|]. intros c. apply negb_true_iff.
  - induction 1 as [|c w Hc _ IH]; [done|]. cbn. by rewrite Hc, IH.
Qed.
Lemma scan_plain s : opens_plain s = true →
  scan_words (length s) s = ink s :: scan_words (length (drop (length (ink s)) s)) (drop (length (ink s)) s).
Proof. intros Hs. rewrite scan_words_find. destruct s as [|c s]; [done|]. cbn [find_word]. by rewrite next_plain. Qed.
Lemma scan_before w s : plain_word w → scan_words (length (w ++ 32 :: s)) (w ++ 32 :: s) = w :: scan_words (length s) s.
Proof.
  intros [Ho Hw]. rewrite scan_plain by (by destruct w). rewrite ink_no_ws, drop_app_length by done. done.
Qed.
Lemma blank_line_cons (w : jsstr) ws : ws ≠ [] → join (js " ") (w :: ws) = w ++ 32 :: join (js " ") ws.
Proof. intros H. by rewrite join_cons_ne. Qed.
Lemma scan_blank_line ws v : Forall plain_word ws →
  scan_words (length (join (js " ") (ws ++ [v]))) (join (js " ") (ws ++ [v])) = ws ++ scan_words (length v) v.
Proof.
  induction 1 as [|w ws Hw _ IH]; [done|]. cbn [app]. rewrite blank_line_cons by by destruct ws. rewrite scan_before by done. by rewrite IH.
Qed.
(** The words in front are read as they are, and so is the last one exactly when
    it holds no blank. *)
Lemma plain_line_words ws v : Forall plain_word ws → opens_plain v = true → (∀ c, last v = Some c → is_ws c = false) →
  _workspaceCommandTokens (join (js " ") (ws ++ [v])) = ws ++ [v] ↔ no_ws v.
Proof.
  intros Hws Hv Hl. rewrite tokens_scan. cbv zeta.
  assert (trim (join (js " ") (ws ++ [v])) = join (js " ") (ws ++ [v])) as ->.
  { apply trim_id.
    - intros c. destruct ws as [|w ws]; cbn [app].
      + destruct v as [|d v]; [done|]. cbn. intros [= <-]. apply andb_true_iff in Hv as [[Hv _]%andb_true_iff _]. by apply negb_true_iff.
      + rewrite blank_line_cons by by destruct ws. apply Forall_cons in Hws as [[Hw _] _]. destruct w as [|d w]; [done|]. cbn. intros [= <-].
        apply andb_true_iff in Hw as [[Hw _]%andb_true_iff _]. by apply negb_true_iff.
    - intros c. destruct ws as [|w ws]; [apply Hl|]. rewrite join_app by done. cbn [join]. rewrite app_assoc, last_app.
      destruct (last v) as [d|] eqn:E; [intros [= <-]; by apply Hl|]. apply last_None in E. by subst. }
  rewrite scan_blank_line by done. rewrite map_app, scan_plain by done. cbn [map].
  assert (map unquote ws = ws) as ->.
  { rewrite <-(map_id ws) at 2. apply map_ext_Forall. eapply Forall_impl; [exact Hws|]. intros w [Hw _]. by apply unquote_plain. }
  rewrite (unquote_plain (ink v)).
  - rewrite <-ink_all. split; [intros H%app_inv_head; by injection H|intros ->; by rewrite drop_all].
  - destruct v as [|c v]; [done|]. unfold ink. cbn [take_while].
    destruct (negb (is_ws c)) eqn:E; [exact Hv|]. cbn [opens_plain] in Hv. by rewrite E in Hv.
Qed.
End Words.

(** ** Lemmas: paths *)

Lemma normalizeTerminal_dir path : _normalizeWorkspaceTerminalPath path = normalizeDir (VStr path).
Proof. unfold normalizeDir. by rewrite str_of_VStr. Qed.

Lemma resolve_parts rawPath cwd d target :
  Forall clean (segments_of (_normalizeWorkspaceTerminalPath cwd)) →
  _resolveWorkspaceCommandPath rawPath cwd d = inr target →
  ∃ parts, Forall clean parts ∧ target = join (js "/") parts.
Proof.
  intros Hc. unfold _resolveWorkspaceCommandPath. rewrite normalizeTerminal_dir in *.
  destruct (normalizeDir_segments (VStr cwd)) as (l & Hl & Hn & Hs). unfold segments_of in Hc. rewrite Hs in Hc.
  destruct (negb _ && d); [intros [= <-]; eauto|].
  destruct (normalizeCommandPath _ _) as [e|p] eqn:E; [done|]. intros [= <-].
  apply command_path_parts in E as (parts & Hp & ->).
  - exists parts. split; [done|]. rewrite normalizeTerminal_dir. apply normalizeDir_joined. auto with darklab.
  - rewrite Hn, normalizeDir_joined, <-Hn, Hs; done.
Qed.
Lemma segments_joined l : Forall segment l → segments_of (join (js "/") l) = l.
Proof. apply split_joined. Qed.
Lemma plain_joined l : Forall segment l → plain_path (join (js "/") l) = join (js "/") l.
Proof. intros H. unfold plain_path. by rewrite segments_joined. Qed.

(** Without a star a pattern matches itself only. *)
Lemma glob_plain p s : 42 ∉ p → glob_match p s → s = p.
Proof.
  intros Hp H. induction H as [|p u s _ _ _|c p s _ _ IH]; [done| |].
  - exfalso. apply Hp. by left.
  - f_equal. apply IH. intros Hin. apply Hp. by right.
Qed.
Lemma glob_refl p : 42 ∉ p → glob_match p p.
Proof.
  induction p as [|c p IH]; [constructor|]. intros [Hc Hp]%not_elem_of_cons. constructor; [congruence|auto].
Qed.

(** The entries a command may name, as paths. *)
Definition listed (kind : wanted) (dirs files : list jsstr) : list jsstr :=
  filterb nonempty (map plain_path ((if wants_dirs kind then hints dirs else []) ++ (if wants_files kind then hints files else []))).
Lemma entries_listed dirs files locale_le kind :
  map fst (_workspaceEntryHints dirs files locale_le kind) ≡ₚ listed kind dirs files.
Proof.
  unfold _workspaceEntryHints, listed. rewrite isort_perm, map_app, map_app, filterb_app.
  assert (∀ k (l : list jsstr), map fst (map (λ path, (path, k) : entry) l) = l) as Hf.
  { intros k l. rewrite map_map. apply map_id. }
  unfold getWorkspaceAutocompleteDirectoryHints, getWorkspaceAutocompleteFileHints.
  destruct (wants_dirs kind), (wants_files kind); cbn [map filterb]; rewrite ?Hf; done.
Qed.
Lemma elem_listed kind dirs files p :
  p ∈ listed kind dirs files
  ↔ nonempty p = true ∧ ∃ h, p = plain_path h ∧ (wants_dirs kind = true ∧ h ∈ hints dirs ∨ wants_files kind = true ∧ h ∈ hints files).
Proof.
  unfold listed. rewrite elem_of_filterb, list_elem_of_In, in_map_iff. setoid_rewrite <-list_elem_of_In.
  setoid_rewrite elem_of_app. split.
  - intros [Hn (h & <- & H)]. split; [done|]. exists h. split; [done|].
    destruct (wants_dirs kind), (wants_files kind); set_solver.
  - intros [Hn (h & -> & H)]. split; [done|]. exists h. split; [done|].
    destruct H as [[-> H]|[-> H]]; auto.
Qed.

(** ** Lemmas: deletions *)

Section Deletions.
(** A flag of a deletion: a dash, then letters r and f. *)
Definition rf_flag (w : jsstr) : Prop := ∃ body, w = 45 :: body ∧ body ≠ [] ∧ Forall (λ c, c = 114 ∨ c = 102) body.
Lemma rf_flag_test w : test RF_RE w = true ↔ rf_flag w.
Proof.
  set (r := Seq (unit_rx 45) (Seq (Rep (Cls false [CRange 114 114; CRange 102 102]) 1 None true) Eps)).
  rewrite (test_full RF_RE (Seq (unit_rx 45) (Seq (Rep (Cls false [CRange 114 114; CRange 102 102]) 1 None true) Eol)) r w)
    by reflexivity.
  change (rx_icase RF_RE) with false. unfold r, rf_flag. cbn [lang]. setoid_rewrite unit_lang.
  setoid_rewrite (lang_rep_cls _ _ _ _ _ true).
  assert (∀ c, cls_has false false [CRange 114 114; CRange 102 102] c = true ↔ c = 114 ∨ c = 102) as Hc.
  { intros c. unfold cls_has, items_have. cbn. rewrite orb_false_r, orb_false_r. lia. }
  split.
  - intros (u1 & u & -> & -> & u2 & ? & -> & [HF [Hlen _]] & ->). rewrite app_nil_r. exists u2. split; [done|]. split; [by intros ->; cbn in Hlen; lia|].
    eapply Forall_impl; [exact HF|]. intros c. apply Hc.
  - intros (body & -> & Hne & HF). exists [45], body. split; [done|]. split; [done|]. exists body, [].
    split; [by rewrite app_nil_r|]. split; [|done]. split.
    + eapply Forall_impl; [exact HF|]. intros c. apply Hc.
    + split; [|done]. destruct body; [done|cbn; lia].
Qed.
Lemma rf_flag_dashed w : rf_flag w → dashed w = true.
Proof. by intros (body & -> & _). Qed.
Lemma dashed_head w : dashed w = true ↔ head w = Some 45.
Proof.
  unfold dashed. rewrite starts_with_spec. split; [by intros [k ->]|].
  destruct w as [|c w]; [done|]. intros [= ->]. by exists w.
Qed.
End Deletions.

(** ** Properties *)

(** C28: Every list of words without double quotes can be written on a command
    line: put in quotes and joined by blanks, the command reads the same words
    back, whatever blanks, globs or single quotes they hold. *)
Theorem command_words_round_trip ws :
  Forall (λ w, 34 ∉ w) ws → _workspaceCommandTokens (command_line ws) = ws.
Proof.
  intros HF. rewrite tokens_scan. cbv zeta.
  assert (trim (command_line ws) = command_line ws) as ->.
  { destruct ws as [|w ws]; [done|]. rewrite command_line_cons. apply trim_id; [by intros ? [= <-]|].
    rewrite <-command_line_cons. destruct (@exists_last _ (w :: ws) ltac:(done)) as (l & v & ->).
    assert (∃ u, command_line (l ++ [v]) = u ++ [34]) as [u ->].
    { unfold command_line, quote. rewrite map_app. destruct l as [|x l].
      - exists (34 :: v). reflexivity.
      - rewrite join_app by done. generalize (join (js " ") (map (λ w, 34 :: w ++ [34]) (x :: l))). intros u.
        exists (u ++ js " " ++ 34 :: v). cbn [map join]. by rewrite <-!app_assoc. }
    intros c. rewrite last_snoc. by intros [= <-]. }
  rewrite scan_command_line by done. rewrite map_map. rewrite (map_ext _ id); [apply map_id|]. intros w. apply unquote_quote.
Qed.
Lemma command_words_round_trip_witness :
  _workspaceCommandTokens (command_line [js "rm"; js "my file"; js "it's"; []]) = [js "rm"; js "my file"; js "it's"; []].
Proof.
  apply (command_words_round_trip [js "rm"; js "my file"; js "it's"; []]).
  repeat constructor; apply (bool_decide_unpack _); vm_compute; exact I.
Defined.

(** C29: A path matches a glob pattern exactly when it has as many segments and
    each matches its part of the pattern, where a star stands for any text
    inside the segment: no pattern reaches across a slash. *)
Theorem glob_matches_iff pattern path :
  _workspaceGlobMatches pattern path = true ↔ Forall2 glob_match (segments_of pattern) (segments_of path).
Proof. apply glob_segments. Qed.
Example star_stops_at_slash : _workspaceGlobMatches (js "*") (js "scans/a.txt") = false.
Proof. reflexivity. Qed.

(** The words after the name of a deletion. *)
Inductive delete_words : list jsstr → list jsstr → Prop :=
  | delete_rm root args : lower root = js "rm" → delete_words (root :: args) args
  | delete_file root act args :
      lower root = js "file" → lower act = js "rm" ∨ lower act = js "delete" → delete_words (root :: act :: args) args.
(** One name among flags. *)
Definition one_target (args pre : list jsstr) (t : jsstr) (post : list jsstr) : Prop :=
  args = pre ++ t :: post ∧ Forall rf_flag (pre ++ post) ∧ head t ≠ Some 45.
Definition delete_bad (args : list jsstr) : bool :=
  negb (bool_decide (length (filterb (λ part, negb (test RF_RE part)) args) = 1%nat))
  || existsb (λ part, dashed part && negb (test RF_RE part)) args.

Lemma flags_only args : Forall rf_flag args → filterb (test RF_RE) args = args ∧ filterb (λ part, negb (test RF_RE part)) args = []
                                            ∧ existsb (λ part, dashed part && negb (test RF_RE part)) args = false.
Proof.
  induction 1 as [|w ws Hw _ (IH1 & IH2 & IH3)]; [done|]. cbn.
  rewrite (proj2 (rf_flag_test w) Hw). cbn [negb]. by rewrite IH1, IH2, IH3, andb_false_r.
Qed.
Lemma plain_not_flag t : head t ≠ Some 45 → dashed t = false ∧ test RF_RE t = false.
Proof.
  intros Ht. assert (dashed t = false) as Hd by (apply not_true_iff_false; by rewrite dashed_head).
  split; [done|]. apply not_true_iff_false. intros H%rf_flag_test%rf_flag_dashed. congruence.
Qed.
Lemma one_target_read args pre t post :
  one_target args pre t post →
  delete_bad args = false ∧ filterb (test RF_RE) args = pre ++ post ∧ filterb (λ part, negb (test RF_RE part)) args = [t].
Proof.
  intros (-> & [Hpre Hpost]%Forall_app & Ht). destruct (plain_not_flag t Ht) as [Hd Hf].
  destruct (flags_only pre Hpre) as (E1 & E2 & E3), (flags_only post Hpost) as (F1 & F2 & F3).
  unfold delete_bad. rewrite !filterb_app, existsb_app. cbn [filterb existsb]. rewrite Hd, Hf. cbn [negb andb orb].
  rewrite E1, E2, E3, F1, F2, F3. done.
Qed.
Lemma good_one_target args : delete_bad args = false → ∃ pre t post, one_target args pre t post.
Proof.
  unfold delete_bad. intros [Hl He]%orb_false_iff. apply negb_false_iff, bool_decide_eq_true in Hl.
  revert Hl He. induction args as [|w args IH]; [done|]. cbn [filterb existsb]. intros Hl [Hw He]%orb_false_iff.
  destruct (test RF_RE w) eqn:E; cbn [negb] in *.
  - destruct (IH Hl He) as (pre & t & post & -> & HF & Ht). exists (w :: pre), t, post. split; [done|].
    split; [|done]. constructor; [by apply rf_flag_test|done].
  - rewrite andb_true_r in Hw. exists [], w, args. split; [done|]. split.
    + cbn [app]. injection Hl as Hl. apply Forall_forall. intros v Hv. apply rf_flag_test.
      destruct (test RF_RE v) eqn:Ev; [done|]. exfalso.
      assert (v ∈ filterb (λ part, negb (test RF_RE part)) args) as Hin by (apply elem_of_filterb; by rewrite Ev).
      apply nil_length_inv in Hl. rewrite Hl in Hin. by apply not_elem_of_nil in Hin.
    + rewrite <-dashed_head. congruence.
Qed.
Lemma some_flag c ws : existsb (includes [c]) ws = true ↔ Exists (λ w, c ∈ w) ws.
Proof.
  rewrite existsb_exists, Exists_exists. setoid_rewrite includes_unit. setoid_rewrite has_unit_spec.
  setoid_rewrite list_elem_of_In. naive_solver.
Qed.

Lemma delete_words_read cmd args :
  delete_words (_workspaceCommandTokens cmd) args →
  ∃ usage, _workspaceDeleteCommand cmd =
    Some (DeleteCommand (if delete_bad args then [] else default [] (head (filterb (λ part, negb (test RF_RE part)) args)))
            (existsb (includes (js "r")) (filterb (test RF_RE) args)) (existsb (includes (js "f")) (filterb (test RF_RE) args))
            usage (delete_bad args)).
Proof.
  unfold _workspaceDeleteCommand. cbv zeta. generalize (_workspaceCommandTokens cmd). intros parts H.
  destruct H as [root args Hr|root act args Hr Ha]; unfold root_of, action_of, one_of.
  - change (word 0 (root :: args)) with root. rewrite Hr. eexists. reflexivity.
  - change (word 0 (root :: act :: args)) with root. change (word 1 (root :: act :: args)) with act. rewrite Hr.
    assert (bool_decide (lower act ∈ map js ["rm"; "delete"]%string) = true) as ->.
    { apply bool_decide_eq_true. destruct Ha as [-> | ->]; [left|right; left]. }
    eexists. reflexivity.
Qed.

(** A deletion is accepted exactly when one word among its flags names what
    to delete, in any order: it then takes that word, and recursion and force
    from the letters of the flags; in any other case (no name, two names, an
    unknown option) it names nothing. *)
Theorem delete_needs_one_target cmd args :
  delete_words (_workspaceCommandTokens cmd) args →
  ∃ c, _workspaceDeleteCommand cmd = Some c ∧
    (dc_invalid c = true ∧ dc_target c = [] ∧ (∀ pre t post, ¬ one_target args pre t post)
     ∨ dc_invalid c = false ∧ ∃ pre t post, one_target args pre t post ∧ dc_target c = t
       ∧ (dc_recursive c = true ↔ Exists (λ w, 114 ∈ w) (pre ++ post))
       ∧ (dc_force c = true ↔ Exists (λ w, 102 ∈ w) (pre ++ post))).
Proof.
  intros H. destruct (delete_words_read _ _ H) as [usage ->]. eexists. split; [done|]. cbn.
  destruct (delete_bad args) eqn:E; [left|right]; (split; [done|]).
  - split; [done|]. intros pre t post H1. destruct (one_target_read _ _ _ _ H1) as (H2 & _). congruence.
  - destruct (good_one_target args E) as (pre & t & post & H1). exists pre, t, post.
    destruct (one_target_read _ _ _ _ H1) as (_ & -> & ->). split; [done|]. split; [done|].
    split; apply some_flag.
Qed.
Lemma delete_needs_one_target_witness :
  delete_words (_workspaceCommandTokens (js "file rm -r 'old scans' -f")) [js "-r"; js "old scans"; js "-f"]
  ∧ ∃ c, _workspaceDeleteCommand (js "file rm -r 'old scans' -f") = Some c.
Proof.
  assert (delete_words (_workspaceCommandTokens (js "file rm -r 'old scans' -f")) [js "-r"; js "old scans"; js "-f"]) as H
    by (apply (delete_file (js "file") (js "rm")); [reflexivity|left; reflexivity]).
  split; [exact H|]. destruct (delete_needs_one_target _ _ H) as (c & Hc & _). exists c. exact Hc.
Defined.
Example delete_flags :
  (λ c, (dc_target c, dc_recursive c, dc_force c, dc_invalid c)) <$> _workspaceDeleteCommand (js "rm -r 'old scans' -f")
  = Some (js "old scans", true, true, false).
Proof. reflexivity. Qed.
Example delete_two :
  (λ c, (dc_target c, dc_invalid c)) <$> _workspaceDeleteCommand (js "rm -rf a b") = Some ([], true).
Proof. reflexivity. Qed.

Section Expansion.
Context (dirs files : list jsstr) (locale_le : jsstr → jsstr → bool).
(** The cache holds canonical paths. *)
Context (Hplain : Forall (λ h, plain_path h = h) (hints dirs ++ hints files)).

Lemma elem_listed_plain kind p :
  p ∈ listed kind dirs files
  ↔ nonempty p = true ∧ (wants_dirs kind = true ∧ p ∈ hints dirs ∨ wants_files kind = true ∧ p ∈ hints files).
Proof.
  apply Forall_app in Hplain as [Hd Hf]. rewrite Forall_forall in Hd, Hf. rewrite elem_listed. split.
  - intros (Hn & h & -> & H). split; [done|].
    destruct H as [[Hw H]|[Hw H]]; [rewrite (Hd h H)|rewrite (Hf h H)]; auto.
  - intros (Hn & H). split; [done|]. exists p. split; [|done].
    destruct H as [[Hw H]|[Hw H]]; symmetry; auto.
Qed.
Lemma path_exists_listed kind parts :
  Forall segment parts → parts ≠ [] →
  _workspacePathExists dirs files (join (js "/") parts) kind = true ↔ join (js "/") parts ∈ listed kind dirs files.
Proof.
  intros Hs Hn. unfold _workspacePathExists. rewrite plain_joined by done.
  assert (nonempty (join (js "/") parts) = true) as Hne.
  { destruct parts as [|w [|v l]]; [done| |]; apply Forall_cons in Hs as [[Hw _] _]; apply nonempty_spec; cbn; [done|].
    by destruct w. }
  rewrite elem_listed_plain, Hne. cbn [negb]. rewrite orb_true_iff, !andb_true_iff, !bool_decide_eq_true. tauto.
Qed.
End Expansion.

Lemma segments_of_plain p : segments_of (plain_path p) = segments_of p.
Proof.
  unfold plain_path, segments_of at 1.
  assert (Forall (λ w, nonempty w = true ∧ 47 ∉ w) (segments_of p)) as HF.
  { apply Forall_forall. intros w Hw. apply elem_of_filterb in Hw as [Hn Hw]. split; [done|].
    by eapply Forall_forall in Hw; [|apply split_on_parts]. }
  destruct (segments_of p) as [|w l]; [done|]. change (js "/") with [47].
  rewrite split_join; [|done|by eapply Forall_impl; [exact HF|by intros ? []]].
  apply filterb_all. intros v Hv. rewrite Forall_forall in HF. by apply HF.
Qed.
Lemma has_glob_parts parts :
  _workspacePathHasGlob (join (js "/") parts) = false → Forall (λ w, 42 ∉ w) parts.
Proof.
  unfold _workspacePathHasGlob. intros H. apply Forall_forall. intros w Hw Hin.
  assert (42 ∈ join (js "/") parts) as Hj.
  { revert Hw. clear H. induction parts as [|v l IH]; [by intros ?%not_elem_of_nil|].
    intros [->|Hw]%elem_of_cons; destruct l as [|u l]; cbn [join]; [done|set_solver|by apply not_elem_of_nil in Hw|].
    rewrite !elem_of_app. right. right. by apply IH. }
  apply has_unit_spec in Hj. congruence.
Qed.
Lemma listed_segments kind dirs files p : p ∈ listed kind dirs files → plain_path p = p ∧ segments_of p ≠ [].
Proof.
  intros (Hn & h & -> & _)%elem_listed.
  assert (plain_path (plain_path h) = plain_path h) as Hp by (unfold plain_path at 1 3; by rewrite segments_of_plain).
  split; [done|]. intros Hs. unfold plain_path at 1 in Hp. rewrite Hs in Hp. by rewrite <-Hp in Hn.
Qed.
Lemma elem_entry_paths dirs files locale_le kind p :
  p ∈ map fst (_workspaceEntryHints dirs files locale_le kind) ↔ p ∈ listed kind dirs files.
Proof. by rewrite entries_listed. Qed.

Lemma elem_map_filterb {A B} (f : A → B) (p : A → bool) l y : y ∈ map f (filterb p l) ↔ ∃ x, f x = y ∧ p x = true ∧ x ∈ l.
Proof. rewrite list_elem_of_In, in_map_iff. setoid_rewrite <-list_elem_of_In. by setoid_rewrite elem_of_filterb. Qed.

(** What an expansion names, for a path that was resolved. *)
Lemma expand_parts dirs files locale_le rawPath cwd kind d parts items :
  Forall (λ h, plain_path h = h) (hints dirs ++ hints files) → Forall clean parts →
  _resolveWorkspaceCommandPath rawPath cwd d = inr (join (js "/") parts) →
  _workspaceExpandPathPattern dirs files locale_le rawPath cwd kind d = inr items →
  ∀ path, path ∈ map fst items
    ↔ parts = [] ∧ path = [] ∧ wants_dirs kind = true
      ∨ path ∈ listed kind dirs files ∧ Forall2 glob_match parts (segments_of path).
Proof.
  intros Hplain Hc Hr. pose proof (clean_segments _ Hc) as Hs. unfold _workspaceExpandPathPattern. rewrite Hr.
  set (target := join (js "/") parts). set (entries := _workspaceEntryHints dirs files locale_le kind).
  destruct (_workspacePathHasGlob target) eqn:Hg; cbn [negb].
  - intros [= <-] path. rewrite elem_map_filterb. split.
    + intros (e & <- & Hm & He). right. split.
      * apply (proj1 (elem_entry_paths _ _ locale_le _ _)), list_elem_of_In, in_map, list_elem_of_In, He.
      * rewrite <-(segments_joined parts) by done. by apply glob_segments.
    + intros [(-> & _)|[Hl Hm]]; [done|]. apply (proj2 (elem_entry_paths _ _ locale_le _ _)) in Hl.
      apply list_elem_of_In, in_map_iff in Hl as (e & <- & He). exists e. split; [done|].
      split; [|by apply list_elem_of_In]. apply glob_segments. unfold target. by rewrite segments_joined.
  - assert (∀ path, path ∈ listed kind dirs files → Forall2 glob_match parts (segments_of path) ↔ path = target) as Heq.
    { intros path [Hp _]%listed_segments. pose proof (has_glob_parts parts Hg) as HF. split.
      - intros HF2. rewrite <-Hp. unfold plain_path, target. f_equal. clear -HF HF2.
        induction HF2 as [|p s ps ss Hps _ IH]; [done|]. apply Forall_cons in HF as [H1 H2].
        f_equal; [by apply glob_plain|by apply IH].
      - intros ->. unfold target. rewrite segments_joined by done. clear -HF. induction HF; constructor; auto using glob_refl. }
    destruct (_workspacePathExists dirs files target kind) eqn:He; cbn [negb]; intros [= <-] path; cbn [map].
    + assert (∀ e : entry, fst e = target → (path ∈ [fst e] ↔ path = target)) as Hone
        by (intros e ->; by rewrite list_elem_of_singleton).
      assert (path ∈ [fst (match findb (λ item, fst item ==s target) entries with
                           | Some item => item
                           | None => (target, if nonempty target && _workspacePathExists dirs files target WantFile then AFile else ADirectory)
                           end)] ↔ path = target) as ->.
      { apply Hone. destruct (findb _ _) as [e|] eqn:Hf; [|done]. by apply findb_Some in Hf as [_ Hf%bool_decide_eq_true]. }
      destruct (decide (parts = [])) as [->|Hn].
      * change (wants_dirs kind = true) in He. split; [intros ->; by left|].
        intros [(_ & -> & _)|[[_ Hl]%listed_segments HF]]; [done|]. by apply Forall2_nil_inv_l in HF.
      * apply (path_exists_listed _ _ Hplain) in He; [|done|done]. split.
        -- intros ->. right. split; [done|]. by apply Heq.
        -- intros [(-> & _)|[Hl HF]]; [done|]. by apply Heq.
    + split; [by intros ?%not_elem_of_nil|]. intros [(-> & _ & Hw)|[Hl HF]].
      * change (wants_dirs kind = false) in He. congruence.
      * exfalso. apply Heq in HF; [|done]. subst path. destruct (decide (parts = [])) as [->|Hn].
        -- by apply listed_segments in Hl as [_ Hl].
        -- pose proof (proj2 (path_exists_listed _ _ Hplain kind parts Hs Hn) Hl) as Ht. fold target in Ht. congruence.
Qed.

(** What a path or pattern on a command line stands for. Below a clean
    folder, and when the cache holds canonical paths, an accepted pattern
    resolves to clean segments, and names exactly the known entries of the
    wanted kind whose segments match those of the pattern one by one, or the
    workspace itself for the empty path. So no pattern names anything above
    the workspace or anything the cache does not list. *)
Theorem expansion_exact dirs files locale_le rawPath cwd kind d items :
  Forall clean (segments_of (_normalizeWorkspaceTerminalPath cwd)) →
  Forall (λ h, plain_path h = h) (hints dirs ++ hints files) →
  _workspaceExpandPathPattern dirs files locale_le rawPath cwd kind d = inr items →
  ∃ target, _resolveWorkspaceCommandPath rawPath cwd d = inr target ∧ Forall clean (segments_of target)
    ∧ ∀ path, path ∈ map fst items
        ↔ target = [] ∧ path = [] ∧ wants_dirs kind = true
          ∨ path ∈ listed kind dirs files ∧ Forall2 glob_match (segments_of target) (segments_of path).
Proof.
  intros Hcwd Hplain Hi.
  destruct (_resolveWorkspaceCommandPath rawPath cwd d) as [e|target] eqn:Hr.
  { unfold _workspaceExpandPathPattern in Hi. by rewrite Hr in Hi. }
  destruct (resolve_parts _ _ _ _ Hcwd Hr) as (parts & Hc & ->). exists (join (js "/") parts). split; [done|].
  rewrite segments_joined by auto with darklab. split; [done|]. intros path.
  rewrite (expand_parts _ _ _ _ _ _ _ _ _ Hplain Hc Hr Hi).
  assert (join (js "/") parts = [] ↔ parts = []) as ->; [|done]. split; [|by intros ->].
  intros Hj. pose proof (segments_joined parts (clean_segments _ Hc)) as Hs. by rewrite Hj in Hs.
Qed.
Lemma expansion_exact_witness :
  ∃ items, _workspaceExpandPathPattern [js "scans"] [js "scans/a.txt"; js "scans/b.log"] (λ a b, true)
             (js "*.txt") (js "scans") WantFile false = inr items
           ∧ js "scans/a.txt" ∈ map fst items.
Proof.
  eexists. split; [reflexivity|].
  edestruct (expansion_exact [js "scans"] [js "scans/a.txt"; js "scans/b.log"] (λ a b, true)
    (js "*.txt") (js "scans") WantFile false) as (target & Hr & _ & H).
  - apply Forall_cons. split; [|constructor]. split; [split; [discriminate|split; [|reflexivity]]|split; [discriminate|split; [discriminate|split]]];
      apply (bool_decide_unpack _); vm_compute; exact I.
  - repeat constructor.
  - reflexivity.
  - apply H. right. injection Hr as <-. split; [apply (bool_decide_unpack _); vm_compute; exact I|].
    apply (glob_segments [js "scans"; js "*.txt"] [js "scans"; js "a.txt"]). reflexivity.
Defined.
