(* ===== verification/WorkspaceFiles.v ===== *)
(** The files of a workspace as the page keeps them
    (app/static/js/workspace.js, app/static/js/runner.js): the cache of paths
    the server sent, what lies directly in a folder, and the listings of the
    terminal, down through all folders. *)

From S2P Require Import Prelude JsString JsNumber JsRegExp JsValue WorkspaceCore Utils WorkspaceCommands.

(** ** Definitions: entries *)

(** A file or folder object, as the server or a listing made it. *)
Notation item := props (only parsing).
Definition item_get (o : item) (k : string) : jsval := get (VObj o) (js k).
Definition path_of (o : item) : jsstr := plain_path (str_of (item_get o "path")).
(** [String(o && o.name || o && o.path || '')]. *)
Definition name_of (o : item) : jsstr :=
  to_string (js_or (item_get o "name") (js_or (item_get o "path") (VStr []))).
Definition folder_item (name path : jsstr) : item := [(js "name", VStr name); (js "path", VStr path)].
(** [{ ...o, path, name }]. *)
Definition renamed (o : item) (path name : jsstr) : item :=
  set_prop (js "name") (VStr name) (set_prop (js "path") (VStr path) (spread [] o)).

Record listing := Listing { li_folders : list item; li_files : list item }.

(** [map.set(key, value)] on a Map, in insertion order. *)
Fixpoint map_set {A} (k : jsstr) (v : A) (m : list (jsstr * A)) : list (jsstr * A) :=
  match m with
  | [] => [(k, v)]
  | (k', v') :: m => if k ==s k' then (k, v) :: m else (k', v') :: map_set k v m
  end.
Notation folder_map := (list (jsstr * item)).

Section Files.
(** The cache: the folders and files the server sent; the browser's
    [localeCompare(a, b) <= 0]. *)
Context (dirs files : list item) (locale_le : jsstr → jsstr → bool).

Definition by_name (l : list item) : list item := 
  isort (λ a b, locale_le (str_of (item_get a "name")) (str_of (item_get b "name"))) l.

(** The path of an entry below [current]: [None] when it lies elsewhere. *)
Definition below (current path : jsstr) : option jsstr :=
  if negb (nonempty current) then Some path
  else if path ==s current then Some []
  else if starts_with (current ++ [47]) path then Some (slice_from (length current + 1) path)
  else None.
Definition child_path (current name : jsstr) : jsstr :=
  if nonempty current then current ++ 47 :: name else name.
Definition add_folder (current name : jsstr) (m : folder_map) : folder_map :=
  map_set (child_path current name) (folder_item name (child_path current name)) m.

Definition add_directory (current : jsstr) (m : folder_map) (directory : item) : folder_map :=
  let path := path_of directory in
  if negb (nonempty path) || (path ==s current) then m else
  match below current path with
  | Some relative => match segments_of relative with [] => m | name :: _ => add_folder current name m end
  | None => m
  end.
Definition add_file (current : jsstr) (acc : folder_map * list item) (file : item) : folder_map * list item :=
  let '(m, l) := acc in
  let path := path_of file in
  if negb (nonempty path) then acc else
  match below current path with
  | Some relative =>
      match segments_of relative with
      | [] => acc
      | [name] => (m, l ++ [renamed file path name])
      | name :: _ => (add_folder current name m, l)
      end
  | None => acc
  end.
Definition _workspaceDirectEntries (dir : jsstr) : listing :=
  let current := normalizeDir (VStr dir) in
  let '(m, l) := fold_left (add_file current) files (fold_left (add_directory current) dirs [], []) in
  Listing (by_name (map snd m)) (by_name l).

Definition _workspaceFolderFileCount (path : jsstr) : nat :=
  let normalized := normalizeDir (VStr path) in
  if negb (nonempty normalized) then 0%nat
  else length (filterb (λ file, starts_with (normalized ++ [47]) (path_of file)) files).

Definition _workspaceFileByPath (path : jsstr) : option item :=
  let target := plain_path path in
  if negb (nonempty target) then None else findb (λ file, path_of file ==s target) files.
Definition _workspaceViewerFileSize (path : jsstr) : option num :=
  let target := plain_path path in
  let size := match findb (λ file, path_of file ==s target) files with
              | Some file => to_number (item_get file "size") | None => NaN end in
  if is_finite size then Some size else None.
(** [maxFileBytes]: the limit of the server. *)
Definition _workspaceFileReadBlockedReason (maxFileBytes : jsval) (path : jsstr) : jsstr :=
  let limit := to_number maxFileBytes in
  match _workspaceViewerFileSize path with
  | Some size => if nltb num_zero limit && nltb limit size then js "file exceeds workspace max file size" else []
  | None => []
  end.

(** ** Definitions: listings of the terminal *)

Definition SLASHES_RE : regexp := Eval vm_compute in lit "\/+$" false.
Definition strip_slashes (s : jsstr) : jsstr := replace_first SLASHES_RE (λ _, []) s.

Definition _workspaceRelativeListName (path base : jsstr) (isDirectory : bool) : jsstr :=
  let normalized := plain_path path in
  let normalizedBase := plain_path base in
  let relative :=
    if nonempty normalizedBase && starts_with (normalizedBase ++ [47]) normalized
    then slice_from (length normalizedBase + 1) normalized else normalized in
  let relative := plain_path relative in
  if negb (nonempty relative) then []
  else if isDirectory then strip_slashes relative ++ [47] else relative.

Definition direct_folder (base : jsstr) (m : folder_map) (path fallbackName : jsstr) : folder_map :=
  let relative := str_or (_workspaceRelativeListName path base false) (strip_slashes fallbackName) in
  match segments_of relative with
  | [name] => add_folder base name m
  | _ => m
  end.
Definition direct_file (base : jsstr) (acc : folder_map * list item) (file : item) : folder_map * list item :=
  let '(m, l) := acc in
  let path := path_of file in
  match segments_of (_workspaceRelativeListName path base false) with
  | [] => acc
  | [name] => (m, l ++ [renamed file path name])
  | name :: _ => (direct_folder base m (child_path base name) name, l)
  end.
Definition _workspaceDirectListEntries (e : listing) (base : jsstr) : listing :=
  let base := plain_path base in
  let m := fold_left (λ m f, direct_folder base m (str_of (item_get f "path")) (str_of (item_get f "name"))) (li_folders e) [] in
  let '(m, l) := fold_left (direct_file base) (li_files e) (m, []) in
  Listing (by_name (map snd m)) (by_name l).

(** The walk through all folders: the queue, the folders seen, what was found. *)
Record walk := Walk { wk_queue : list jsstr; wk_seen : list jsstr; wk_folders : list item; wk_files : list item }.
Definition walk_folder (base : jsstr) (w : walk) (folder : item) : walk :=
  let path := path_of folder in
  if negb (nonempty path) || bool_decide (path ∈ wk_seen w) then w
  else Walk (wk_queue w ++ [path]) (wk_seen w ++ [path])
         (wk_folders w ++ [renamed folder path (strip_slashes (_workspaceRelativeListName path base true))]) (wk_files w).
Definition walk_file (base : jsstr) (w : walk) (file : item) : walk :=
  let path := path_of file in
  if negb (nonempty path) then w
  else Walk (wk_queue w) (wk_seen w) (wk_folders w)
         (wk_files w ++ [renamed file path (_workspaceRelativeListName path base false)]).
Definition walk_step (base : jsstr) (w : walk) : walk :=
  match wk_queue w with
  | [] => w
  | current :: queue =>
      let e := _workspaceDirectEntries current in
      let w := fold_left (walk_folder base) (li_folders e) (Walk queue (wk_seen w) (wk_folders w) (wk_files w)) in
      fold_left (walk_file base) (li_files e) w
  end.
(** One step for the start and one for each folder there can be is enough
    ([listing_ends]). *)
Definition walk_fuel : nat := S (length (flat_map (λ o, segments_of (path_of o)) (dirs ++ files))).
Definition walked (base : jsstr) : walk := Nat.iter walk_fuel (walk_step base) (Walk [plain_path base] [] [] []).
Definition _workspaceRecursiveEntries (base : jsstr) : listing := Listing (wk_folders (walked base)) (wk_files (walked base)).
End Files.

(** ** Definitions: the lines of a listing *)

Definition pad_end (n : nat) (s : jsstr) : jsstr := s ++ replicate (n - length s) 32.
Definition _workspacePlainLine (text : jsstr) : props := [(js "text", VStr text); (js "cls", VStr [])].
Definition _workspaceFormatBytes (size : jsval) : jsstr :=
  str_or (formatBytes size) (num_to_str (let n := to_number size in if truthy (VNum n) then n else num_zero) ++ js " B").
Definition modified_of (o : item) : jsstr :=
  let m := item_get o "mtime" in if truthy m then to_string m else [].

Record row := Row { rw_name : jsstr; rw_type : jsstr; rw_size : jsstr; rw_modified : jsstr }.
Definition list_rows (e : listing) (target : jsstr) : list row :=
  (if nonempty target then [Row (js "../") (js "dir") (js "-") []] else [])
  ++ map (λ o, Row (strip_slashes (name_of o) ++ [47]) (js "dir") (js "-") (modified_of o)) (li_folders e)
  ++ map (λ o, Row (name_of o) (js "file") (_workspaceFormatBytes (item_get o "size")) (modified_of o)) (li_files e).
Definition column (f : row → jsstr) (rows : list row) : nat := fold_left Nat.max (map (λ r, length (f r)) rows) 4%nat.
Definition row_line (rows : list row) (r : row) : jsstr :=
  trim_end (join (js "  ") ([pad_end (column rw_name rows) (rw_name r); pad_end (column rw_type rows) (rw_type r);
                             pad_end (column rw_size rows) (rw_size r)]
                            ++ (if nonempty (rw_modified r) then [rw_modified r] else []))).
Definition _workspaceListLines (e : listing) (target : jsstr) : list props :=
  match list_rows e target with
  | [] => [_workspacePlainLine (js "(empty)")]
  | rows => map (λ r, _workspacePlainLine (row_line rows r)) rows
  end.
Definition _workspaceListNames (e : listing) : list jsstr :=
  flat_map (λ o, let name := strip_slashes (name_of o) in if nonempty name then [name ++ [47]] else []) (li_folders e)
  ++ filterb nonempty (map name_of (li_files e)).
Definition _workspaceShortListLines (e : listing) : list props :=
  match _workspaceListNames e with
  | [] => [_workspacePlainLine (js "(empty)")]
  | names => [_workspacePlainLine (join (js " ") names)]
  end.

(** [\r\n] and [\r] become [\n]. *)
Fixpoint unix_lines (s : jsstr) : jsstr :=
  match s with
  | 13 :: 10 :: s => 10 :: unix_lines s
  | 13 :: s => 10 :: unix_lines s
  | c :: s => c :: unix_lines s
  | [] => []
  end.
Definition split_lines (raw : jsstr) : list jsstr :=
  if negb (nonempty raw) then [] else
  let lines := split_on 10 (unix_lines raw) in
  if bool_decide (last lines = Some []) then removelast lines else lines.
Definition _workspaceSplitLines (text : jsstr) : list props := map _workspacePlainLine (split_lines text).
(** The text an output redirection writes. *)
Definition sink_text (lines : list jsstr) : jsstr :=
  match lines with [] => [] | _ => join [10] lines ++ [10] end.

(** ** Lemmas: paths *)

Notation path_at := (join [47]).

Lemma split_on_app c a b : split_on c (a ++ c :: b) = split_on c a ++ split_on c b.
Proof.
  induction a as [|d a IH]; cbn; [by rewrite Z.eqb_refl|]. destruct (c =? d); [by rewrite IH|].
  rewrite IH. pose proof (split_on_nonnil c a) as Hn. by destruct (split_on c a).
Qed.
Lemma segments_of_slash a b : segments_of (a ++ 47 :: b) = segments_of a ++ segments_of b.
Proof. unfold segments_of. by rewrite split_on_app, filterb_app. Qed.
Lemma path_at_app c x : c ≠ [] → x ≠ [] → path_at (c ++ x) = path_at c ++ 47 :: path_at x.
Proof. intros. by rewrite join_app. Qed.
Lemma segments_at l : Forall segment l → segments_of (path_at l) = l.
Proof. apply segments_joined. Qed.
Lemma path_at_inj l k : Forall segment l → Forall segment k → path_at l = path_at k → l = k.
Proof. intros Hl Hk H. by rewrite <-(segments_at l), H, segments_at. Qed.
Lemma path_at_nonempty l : Forall segment l → nonempty (path_at l) = true ↔ l ≠ [].
Proof.
  intros Hl. split; [by intros H ->|]. intros Hn. apply nonempty_spec. intros H. apply Hn.
  by apply (path_at_inj l []).
Qed.
Lemma path_at_empty l : Forall segment l → nonempty (path_at l) = bool_decide (l ≠ []).
Proof.
  intros Hl. apply eq_true_iff_eq. rewrite bool_decide_eq_true. by apply path_at_nonempty.
Qed.

Lemma below_app c x : Forall segment (c ++ x) → below (path_at c) (path_at (c ++ x)) = Some (path_at x).
Proof.
  intros H. pose proof H as [Hc Hx]%Forall_app. unfold below. rewrite path_at_empty by done.
  destruct (decide (c = [])) as [->|Hne]; [done|]. rewrite bool_decide_true by done. cbn [negb].
  destruct (decide (x = [])) as [->|Hnx].
  - rewrite app_nil_r. by rewrite bool_decide_true.
  - rewrite bool_decide_false.
    2:{ intros Heq. apply path_at_inj in Heq; [|done|done]. by rewrite <-(app_nil_r c) in Heq at 2; apply app_inv_head in Heq. }
    rewrite path_at_app by done. replace (path_at c ++ 47 :: path_at x) with ((path_at c ++ [47]) ++ path_at x) by by rewrite <-app_assoc.
    rewrite starts_with_app. f_equal. unfold slice_from.
    replace (length (path_at c) + 1)%nat with (length (path_at c ++ [47])) by (rewrite length_app; done).
    apply drop_app_length.
Qed.
Lemma below_Some c p r :
  Forall segment c → Forall segment p → below (path_at c) (path_at p) = Some r → ∃ x, p = c ++ x ∧ r = path_at x.
Proof.
  intros Hc Hp H. assert (∃ x, p = c ++ x) as [x ->].
  { unfold below in H. rewrite path_at_empty in H by done. destruct (decide (c = [])) as [->|Hn]; [by exists p|].
    rewrite bool_decide_true in H by done. cbn [negb] in H. case_bool_decide as Heq.
    - exists []. rewrite app_nil_r. by apply path_at_inj.
    - destruct (starts_with _ _) eqn:Hs; [|done]. apply starts_with_spec in Hs as [t Ht]. exists (segments_of t).
      rewrite <-(segments_at p), Ht, <-app_assoc by done. cbn [app]. by rewrite segments_of_slash, segments_at. }
  exists x. split; [done|]. rewrite below_app in H by done. by injection H.
Qed.
Lemma child_path_at c n : Forall segment c → child_path (path_at c) n = path_at (c ++ [n]).
Proof.
  intros Hc. unfold child_path. rewrite path_at_empty by done. destruct (decide (c = [])) as [->|Hn]; [done|].
  rewrite bool_decide_true by done. by rewrite path_at_app.
Qed.

(** *** Maps of folders *)

(** The folders of a map, by name. *)
Definition folders_at (c : list jsstr) (names : list jsstr) : folder_map :=
  map (λ n, (path_at (c ++ [n]), folder_item n (path_at (c ++ [n])))) names.
Definition add_name (n : jsstr) (names : list jsstr) : list jsstr :=
  if bool_decide (n ∈ names) then names else names ++ [n].
Lemma elem_add_name n m names : m ∈ add_name n names ↔ m = n ∨ m ∈ names.
Proof. unfold add_name. case_bool_decide; [naive_solver|]. rewrite elem_of_app, list_elem_of_singleton. tauto. Qed.
Lemma NoDup_add_name n names : NoDup names → NoDup (add_name n names).
Proof.
  intros H. unfold add_name. case_bool_decide as Hn; [done|]. apply NoDup_app. split; [done|]. split; [|apply NoDup_singleton].
  intros m Hm ->%list_elem_of_singleton. done.
Qed.
Lemma add_folder_at c n names :
  Forall segment c → Forall segment (n :: names) →
  add_folder (path_at c) n (folders_at c names) = folders_at c (add_name n names).
Proof.
  intros Hc [Hn Hns]%Forall_cons. unfold add_folder. rewrite child_path_at by done. unfold add_name.
  assert (∀ m, segment m → path_at (c ++ [n]) = path_at (c ++ [m]) → n = m) as Hinj.
  { intros m Hm Heq%path_at_inj; [|by apply Forall_app_2; [|apply Forall_singleton]..].
    apply app_inv_head in Heq. by injection Heq. }
  induction Hns as [|m names Hm Hns IH]; [by case_bool_decide as H; [apply not_elem_of_nil in H|]|].
  cbn [folders_at map map_set]. destruct (decide (n = m)) as [<-|Hne].
  - rewrite !bool_decide_true; [done|by left|done].
  - rewrite bool_decide_false by auto. fold (folders_at c names). rewrite IH.
    destruct (decide (n ∈ names)) as [Hin|Hin].
    + rewrite !bool_decide_true; [done|by right|done].
    + rewrite !bool_decide_false; [done| |done]. intros [|]%elem_of_cons; done.
Qed.

(** *** What lies directly in a folder *)

Definition parts (o : item) : list jsstr := segments_of (path_of o).
Definition normal_item (o : item) : Prop := Forall segment (parts o).
#[export] Instance segment_dec s : Decision (segment s).
Proof. unfold segment. apply _. Defined.
#[export] Instance normal_item_dec o : Decision (normal_item o).
Proof. unfold normal_item. apply _. Defined.
(** The rest of [p] after the prefix [c]. *)
Definition strip (c p : list jsstr) : option (list jsstr) :=
  if bool_decide (take (length c) p = c) then Some (drop (length c) p) else None.
Definition dir_child (c : list jsstr) (o : item) : option jsstr :=
  match strip c (parts o) with Some (n :: _) => Some n | _ => None end.
Definition file_child (c : list jsstr) (o : item) : option jsstr :=
  match strip c (parts o) with Some (n :: _ :: _) => Some n | _ => None end.
Definition direct_in (c : list jsstr) (o : item) : bool :=
  match strip c (parts o) with Some [_] => true | _ => false end.
Definition collect (f : item → option jsstr) (l : list item) (names : list jsstr) : list jsstr :=
  fold_left (λ names o, match f o with Some n => add_name n names | None => names end) l names.

Lemma path_of_at o : path_of o = path_at (parts o).
Proof. unfold parts, path_of. by rewrite segments_of_plain. Qed.
Lemma strip_Some c p x : strip c p = Some x ↔ p = c ++ x.
Proof.
  unfold strip. case_bool_decide as H.
  - split; [intros [= <-]|intros ->; by rewrite drop_app_length]. rewrite <-H at 1. by rewrite take_drop.
  - split; [done|]. intros ->. by rewrite take_app_length in H.
Qed.
Lemma strip_None c p : strip c p = None → ∀ x, p ≠ c ++ x.
Proof. intros H x Hx%strip_Some. congruence. Qed.
Lemma below_strip c p : Forall segment c → Forall segment p → below (path_at c) (path_at p) = path_at <$> strip c p.
Proof.
  intros Hc Hp. destruct (strip c p) as [x|] eqn:E.
  - apply strip_Some in E as ->. by apply below_app.
  - destruct (below _ _) as [r|] eqn:Hb; [|done]. apply below_Some in Hb as (x & -> & _); [|done|done].
    by apply strip_None with (x := x) in E.
Qed.
Lemma strip_segment c o x : normal_item o → strip c (parts o) = Some x → Forall segment x.
Proof. intros Ho Hs%strip_Some. unfold normal_item in Ho. rewrite Hs in Ho. by apply Forall_app in Ho as [_ ?]. Qed.

Lemma elem_collect f l names n : n ∈ collect f l names ↔ n ∈ names ∨ ∃ o, o ∈ l ∧ f o = Some n.
Proof.
  revert names. induction l as [|o l IH]; intros names; cbn [collect fold_left].
  - split; [by left|]. intros [H|(o & H & _)]; [done|by apply not_elem_of_nil in H].
  - fold (collect f l (match f o with Some n => add_name n names | None => names end)). rewrite IH.
    setoid_rewrite elem_of_cons. destruct (f o) as [m|] eqn:E; [rewrite elem_add_name|]; naive_solver.
Qed.
Lemma NoDup_collect f l names : NoDup names → NoDup (collect f l names).
Proof.
  revert names. induction l as [|o l IH]; intros names H; [done|]. apply IH. destruct (f o); [by apply NoDup_add_name|done].
Qed.

Section Direct.
Context (dirs files : list item) (locale_le : jsstr → jsstr → bool).
Context (Hdirs : Forall normal_item dirs) (Hfiles : Forall normal_item files).
Context (c : list jsstr) (Hc : Forall segment c).

Lemma add_directory_at o names :
  normal_item o → Forall segment names →
  add_directory (path_at c) (folders_at c names) o
  = folders_at c (match dir_child c o with Some n => add_name n names | None => names end).
Proof.
  intros Ho Hn. unfold add_directory, dir_child. rewrite path_of_at, path_at_empty, below_strip by done.
  destruct (decide (parts o = [])) as [Hp|Hp].
  { rewrite Hp. cbn [bool_decide negb orb]. rewrite bool_decide_false by auto. cbn [negb orb].
    destruct (strip c []) as [x|] eqn:E; [|done]. apply strip_Some in E. symmetry in E. by apply app_nil in E as [_ ->]. }
  rewrite bool_decide_true by done. cbn [negb orb].
  destruct (strip c (parts o)) as [x|] eqn:E; cbn [fmap option_fmap option_map]; [|by case_bool_decide].
  pose proof (strip_segment _ _ _ Ho E) as Hx. rewrite segments_at by done. apply strip_Some in E. rewrite E.
  case_bool_decide as Heq.
  - apply path_at_inj in Heq; [|by rewrite <-E|done]. rewrite <-(app_nil_r c) in Heq at 2. apply app_inv_head in Heq as ->. done.
  - destruct x as [|n x]; [done|]. apply add_folder_at; [done|]. apply Forall_cons in Hx as [Hx _]. by constructor.
Qed.
Lemma add_file_at o names l :
  normal_item o → Forall segment names →
  add_file (path_at c) (folders_at c names, l) o
  = (folders_at c (match file_child c o with Some n => add_name n names | None => names end),
     if direct_in c o then l ++ [renamed o (path_of o) (default [] (last (parts o)))] else l).
Proof.
  intros Ho Hn. unfold add_file, file_child, direct_in. rewrite path_of_at, path_at_empty, below_strip by done.
  destruct (decide (parts o = [])) as [Hp|Hp].
  { rewrite Hp. rewrite bool_decide_false by auto. cbn [negb].
    destruct (strip c []) as [x|] eqn:E; [|done]. apply strip_Some in E. symmetry in E. by apply app_nil in E as [_ ->]. }
  rewrite bool_decide_true by done. cbn [negb].
  destruct (strip c (parts o)) as [x|] eqn:E; cbn [fmap option_fmap option_map]; [|done].
  pose proof (strip_segment _ _ _ Ho E) as Hx. rewrite segments_at by done. apply strip_Some in E.
  destruct x as [|n [|m x]]; [done| |].
  - assert (default [] (last (parts o)) = n) as -> by by rewrite E, last_snoc. done.
  - rewrite add_folder_at; [done|done|]. apply Forall_cons in Hx as [Hx _]. by constructor.
Qed.
Lemma collect_segments f l names :
  (∀ o n, o ∈ l → f o = Some n → segment n) → Forall segment names → Forall segment (collect f l names).
Proof.
  intros Hf Hn. apply Forall_forall. intros n [H|(o & Ho & H)]%elem_collect; [by eapply Forall_forall in Hn|eauto].
Qed.
Lemma child_segment f o n :
  (f = dir_child c ∨ f = file_child c) → normal_item o → f o = Some n → segment n.
Proof.
  intros Hf Ho Hn. unfold dir_child, file_child in Hf.
  destruct (strip c (parts o)) as [x|] eqn:E; [|by destruct Hf as [-> | ->]; rewrite E in Hn].
  pose proof (strip_segment _ _ _ Ho E) as Hx.
  destruct Hf as [-> | ->]; rewrite E in Hn; destruct x as [|m [|k x]]; try done; injection Hn as <-;
    by apply Forall_cons in Hx as [Hx _].
Qed.
Lemma fold_directories l names :
  Forall normal_item l → Forall segment names →
  fold_left (add_directory (path_at c)) l (folders_at c names) = folders_at c (collect (dir_child c) l names).
Proof.
  intros Hl. revert names. induction Hl as [|o l Ho Hl IH]; intros names Hn; [done|]. cbn [fold_left collect].
  rewrite add_directory_at by done. apply IH. destruct (dir_child c o) as [n|] eqn:E; [|done].
  apply Forall_forall. intros m [->|Hm]%elem_add_name; [by apply (child_segment (dir_child c) o); [left| |]|by eapply Forall_forall in Hn].
Qed.
Lemma fold_files fs names l :
  Forall normal_item fs → Forall segment names →
  fold_left (add_file (path_at c)) fs (folders_at c names, l)
  = (folders_at c (collect (file_child c) fs names),
     l ++ map (λ o, renamed o (path_of o) (default [] (last (parts o)))) (filterb (direct_in c) fs)).
Proof.
  intros Hl. revert names l. induction Hl as [|o fs Ho Hl IH]; intros names l Hn; cbn [fold_left collect filterb].
  - by rewrite app_nil_r.
  - rewrite add_file_at by done. rewrite IH.
    + destruct (direct_in c o); [|done]. cbn [map]. by rewrite <-app_assoc.
    + destruct (file_child c o) as [n|] eqn:E; [|done].
      apply Forall_forall. intros m [->|Hm]%elem_add_name; [by apply (child_segment (file_child c) o); [right| |]|by eapply Forall_forall in Hn].
Qed.

(** The names of the folders directly in [c]. *)
Definition child_names : list jsstr := collect (file_child c) files (collect (dir_child c) dirs []).

Lemma path_renamed o n : path_of (renamed o (path_of o) n) = path_of o.
Proof.
  assert (item_get (renamed o (path_of o) n) "path" = VStr (path_of o)) as H.
  { unfold renamed, item_get, get, table_get. rewrite own_set_ne by (by vm_compute). by rewrite own_set_eq. }
  unfold path_of at 1. rewrite H, str_of_VStr. symmetry. apply path_of_at.
Qed.
Lemma path_folder n p : Forall segment p → path_of (folder_item n (path_at p)) = path_at p.
Proof. intros Hp. change (path_of _) with (plain_path (str_of (VStr (path_at p)))). rewrite str_of_VStr. by apply plain_joined. Qed.

Lemma direct_entries_at :
  let e := _workspaceDirectEntries dirs files locale_le (path_at c) in
  map path_of (li_folders e) ≡ₚ map (λ n, path_at (c ++ [n])) child_names
  ∧ map path_of (li_files e) ≡ₚ map path_of (filterb (direct_in c) files).
Proof.
  unfold _workspaceDirectEntries. change (join [47] c) with (join (js "/") c). rewrite normalizeDir_joined by done.
  change (fold_left (add_directory (join (js "/") c)) dirs []) with (fold_left (add_directory (path_at c)) dirs (folders_at c [])).
  rewrite fold_directories, fold_files; [|done| |done|by constructor].
  2:{ apply collect_segments; [|done]. intros o n Ho Hn. eapply child_segment; [by left| |done]. by eapply Forall_forall in Hdirs. }
  fold child_names. cbn [li_folders li_files]. unfold by_name. rewrite !isort_perm. split.
  - unfold folders_at. rewrite !map_map. cbn [snd].
    assert (Forall segment child_names) as Hs.
    { apply collect_segments.
      - intros o n Ho Hn. eapply child_segment; [by right| |done]. by eapply Forall_forall in Hfiles.
      - apply collect_segments; [|done]. intros o n Ho Hn. eapply child_segment; [by left| |done]. by eapply Forall_forall in Hdirs. }
    rewrite (map_ext_in _ (λ n, path_at (c ++ [n]))); [done|]. intros n Hn%list_elem_of_In. apply path_folder.
    apply Forall_app_2; [done|]. apply Forall_singleton. by eapply Forall_forall in Hs.
  - rewrite app_nil_l, map_map. rewrite (map_ext _ path_of); [done|]. intros o. apply path_renamed.
Qed.
End Direct.

(** ** Lemmas: the walk *)

Lemma fold_walk_folder base l w :
  (∀ o, o ∈ l → nonempty (path_of o) = true ∧ path_of o ∉ wk_seen w) → NoDup (map path_of l) →
  ∃ fs, fold_left (walk_folder base) l w
        = Walk (wk_queue w ++ map path_of l) (wk_seen w ++ map path_of l) (wk_folders w ++ fs) (wk_files w)
        ∧ map path_of fs = map path_of l.
Proof.
  revert w. induction l as [|o l IH]; intros w Hl Hd.
  - exists []. rewrite !app_nil_r. by destruct w.
  - cbn [map] in Hd. apply NoDup_cons in Hd as [Ho Hd]. destruct (Hl o ltac:(by left)) as [Hne Hseen]. cbn [fold_left].
    assert (∃ f, path_of f = path_of o
                 ∧ walk_folder base w o = Walk (wk_queue w ++ [path_of o]) (wk_seen w ++ [path_of o]) (wk_folders w ++ [f]) (wk_files w))
      as (f & Hf & ->).
    { eexists. split; [|unfold walk_folder; rewrite Hne, bool_decide_false by done; reflexivity]. apply path_renamed. }
    destruct (IH (Walk (wk_queue w ++ [path_of o]) (wk_seen w ++ [path_of o]) (wk_folders w ++ [f]) (wk_files w))) as (fs & -> & Hfs);
      [|done|].
    + intros o' Ho'. destruct (Hl o' ltac:(by right)) as [Hne' Hs']. split; [done|]. cbn [wk_seen].
      intros [Hin|Hin%list_elem_of_singleton]%elem_of_app; [done|]. apply Ho. rewrite <-Hin.
      apply list_elem_of_In, in_map, list_elem_of_In, Ho'.
    + exists (f :: fs). cbn [wk_queue wk_seen wk_folders wk_files map]. rewrite <-!app_assoc. cbn [app].
      by rewrite Hf, Hfs.
Qed.
Lemma fold_walk_file base l w :
  (∀ o, o ∈ l → nonempty (path_of o) = true) →
  ∃ fs, fold_left (walk_file base) l w = Walk (wk_queue w) (wk_seen w) (wk_folders w) (wk_files w ++ fs)
        ∧ map path_of fs = map path_of l.
Proof.
  revert w. induction l as [|o l IH]; intros w Hl.
  - exists []. rewrite !app_nil_r. by destruct w.
  - cbn [fold_left]. unfold walk_file at 2. rewrite (Hl o) by by left. cbn [negb].
    destruct (IH (Walk (wk_queue w) (wk_seen w) (wk_folders w) (wk_files w ++ [renamed o (path_of o) (_workspaceRelativeListName (path_of o) base false)])))
      as (fs & -> & Hfs); [intros; apply Hl; by right|].
    eexists (_ :: fs). cbn [wk_queue wk_seen wk_folders wk_files map]. rewrite <-app_assoc. split; [reflexivity|].
    by rewrite path_renamed, Hfs.
Qed.

Section Walk.
Context (dirs files : list item) (locale_le : jsstr → jsstr → bool).
Context (Hdirs : Forall normal_item dirs) (Hfiles : Forall normal_item files).
Context (b : list jsstr) (Hb : Forall segment b).

Lemma elem_child_names c n :
  n ∈ child_names dirs files c
  ↔ ∃ o r, o ∈ dirs ∧ parts o = c ++ n :: r ∨ o ∈ files ∧ parts o = c ++ n :: r ∧ r ≠ [].
Proof.
  unfold child_names. rewrite !elem_collect.
  assert (∀ o, dir_child c o = Some n ↔ ∃ r, parts o = c ++ n :: r) as Hd.
  { intros o. unfold dir_child. setoid_rewrite <-strip_Some. destruct (strip c (parts o)) as [[|m x]|]; naive_solver. }
  assert (∀ o, file_child c o = Some n ↔ ∃ r, parts o = c ++ n :: r ∧ r ≠ []) as Hf.
  { intros o. unfold file_child. setoid_rewrite <-strip_Some. destruct (strip c (parts o)) as [[|m [|k x]]|]; naive_solver. }
  setoid_rewrite Hd. setoid_rewrite Hf. split.
  - intros [[H|(o & Ho & r & Hr)]|(o & Ho & r & Hr)]; [by apply not_elem_of_nil in H|eauto 6|eauto 6].
  - intros (o & r & [[Ho Hr]|(Ho & Hr & Hn)]); [left; right; eauto|right; eauto].
Qed.
Lemma child_names_segment c n : n ∈ child_names dirs files c → segment n.
Proof.
  intros (o & r & H)%elem_child_names. rewrite Forall_forall in Hdirs, Hfiles.
  assert (∀ o, normal_item o → parts o = c ++ n :: r → segment n) as Hs.
  { intros o' Ho' Hp. unfold normal_item in Ho'. rewrite Hp in Ho'. by apply Forall_app in Ho' as [_ [? _]%Forall_cons]. }
  destruct H as [[Ho Hp]|(Ho & Hp & _)]; eauto.
Qed.
Lemma child_names_NoDup c : NoDup (child_names dirs files c).
Proof. apply NoDup_collect, NoDup_collect, NoDup_nil. constructor. Qed.

Record walk_inv (w : walk) (dn q ds : list (list jsstr)) : Prop := WalkInv {
  wi_queue : wk_queue w = map path_at q;
  wi_order : dn ++ q = b :: ds;
  wi_seen : wk_seen w = map path_at ds;
  wi_folders : map path_of (wk_folders w) = map path_at ds;
  wi_files : map path_of (wk_files w) ≡ₚ flat_map (λ p, map path_of (filterb (direct_in p) files)) dn;
  wi_nodup : NoDup (b :: ds);
  wi_under : ∀ d, d ∈ ds → ∃ x, x ≠ [] ∧ d = b ++ x;
  wi_segment : Forall (Forall segment) (b :: ds);
  wi_from : ∀ d, d ∈ ds → ∃ p n, p ∈ dn ∧ d = p ++ [n] ∧ n ∈ child_names dirs files p;
  wi_to : ∀ p n, p ∈ dn → n ∈ child_names dirs files p → p ++ [n] ∈ ds }.

Lemma walk_start : walk_inv (Walk [plain_path (path_at b)] [] [] []) [] [b] [].
Proof.
  split; try done; cbn.
  - by rewrite plain_joined.
  - apply NoDup_singleton.
  - by intros d ?%not_elem_of_nil.
  - by constructor.
  - by intros d ?%not_elem_of_nil.
  - by intros p n ?%not_elem_of_nil.
Qed.

Lemma names_in_order c :
  Forall segment c →
  let e := _workspaceDirectEntries dirs files locale_le (path_at c) in
  ∃ names, names ≡ₚ child_names dirs files c ∧ map path_of (li_folders e) = map path_at (map (λ n, c ++ [n]) names).
Proof.
  intros Hc e. destruct (direct_entries_at dirs files locale_le Hdirs Hfiles c Hc) as [H _]. fold e in H.
  apply Permutation_map_inv in H as (names & Hm & Hp). exists names. split; [by symmetry|]. by rewrite Hm, map_map.
Qed.

Lemma queue_segments w dn q ds : walk_inv w dn q ds → Forall (Forall segment) (dn ++ q).
Proof. intros I. rewrite (wi_order _ _ _ _ I). apply I. Qed.

Lemma child_fresh w dn c q ds n : walk_inv w dn (c :: q) ds → c ++ [n] ∉ b :: ds.
Proof.
  intros I [H|H]%elem_of_cons.
  - assert (c ∈ b :: ds) as Hin by (rewrite <-(wi_order _ _ _ _ I); set_solver).
    apply elem_of_cons in Hin as [->|Hin].
    + apply (f_equal length) in H. rewrite length_app in H. cbn in H. lia.
    + destruct (wi_under _ _ _ _ I _ Hin) as (x & _ & ->). apply (f_equal length) in H. rewrite !length_app in H. cbn in H. lia.
  - destruct (wi_from _ _ _ _ I _ H) as (p & m & Hp & Heq & _). apply app_inj_tail in Heq as [-> _].
    pose proof (wi_nodup _ _ _ _ I) as Hd. rewrite <-(wi_order _ _ _ _ I) in Hd.
    apply NoDup_app in Hd as (_ & Hd & _). apply (Hd p Hp). by left.
Qed.
Lemma path_at_map_inj l : Forall (Forall segment) l → NoDup l → NoDup (map path_at l).
Proof.
  intros Hs. induction 1 as [|x l Hx _ IH]; [constructor|]. apply Forall_cons in Hs as [H1 H2]. cbn. constructor; [|by apply IH].
  intros Hin. apply list_elem_of_In, in_map_iff in Hin as (y & Heq & Hy%list_elem_of_In). apply Hx.
  rewrite Forall_forall in H2. apply path_at_inj in Heq as <-; [done|by apply H2|done].
Qed.

Lemma walk_step_inv w dn c q ds :
  walk_inv w dn (c :: q) ds →
  ∃ news, walk_inv (walk_step dirs files locale_le (path_at b) w) (dn ++ [c]) (q ++ news) (ds ++ news).
Proof.
  intros I. pose proof (queue_segments _ _ _ _ I) as Hseg. apply Forall_app in Hseg as [Hdn [Hc Hq]%Forall_cons].
  destruct (names_in_order c Hc) as (names & Hp & Hm).
  destruct (direct_entries_at dirs files locale_le Hdirs Hfiles c Hc) as [_ Hf].
  unfold walk_step. rewrite (wi_queue _ _ _ _ I). cbn [map]. set (e := _workspaceDirectEntries dirs files locale_le (path_at c)) in *.
  set (news := map (λ n, c ++ [n]) names) in *.
  assert (∀ d, d ∈ news ↔ ∃ n, d = c ++ [n] ∧ n ∈ child_names dirs files c) as Hnews.
  { intros d. unfold news. rewrite list_elem_of_In, in_map_iff. setoid_rewrite <-list_elem_of_In. setoid_rewrite Hp. naive_solver. }
  assert (Forall (Forall segment) news) as Hns.
  { apply Forall_forall. intros d (n & -> & Hn)%Hnews. apply Forall_app_2; [done|]. apply Forall_singleton. by eapply child_names_segment. }
  assert (NoDup news) as Hnd.
  { assert (Inj (=) (=) (λ n : jsstr, c ++ [n])) as Hinj by (intros n m H; by apply app_inj_tail in H as [_ ->]).
    apply (NoDup_fmap_2 (λ n, c ++ [n])). rewrite Hp. apply child_names_NoDup. }
  destruct (fold_walk_folder (path_at b) (li_folders e) (Walk (map path_at q) (wk_seen w) (wk_folders w) (wk_files w)))
    as (fs & -> & Hfs).
  { intros o Ho. assert (path_of o ∈ map path_at news) as Hin by (rewrite <-Hm; apply list_elem_of_In, in_map, list_elem_of_In, Ho).
    apply list_elem_of_In, in_map_iff in Hin as (d & <- & Hd%list_elem_of_In). pose proof Hd as (n & -> & Hn)%Hnews.
    rewrite Forall_forall in Hns. split; [apply path_at_nonempty; [by apply Hns|by destruct c]|]. cbn [wk_seen].
    rewrite (wi_seen _ _ _ _ I). intros Hin. apply list_elem_of_In, in_map_iff in Hin as (d' & Heq & Hd'%list_elem_of_In).
    apply (child_fresh _ _ _ _ _ n I). right. pose proof (wi_segment _ _ _ _ I) as [_ Hds]%Forall_cons. rewrite Forall_forall in Hds.
    apply path_at_inj in Heq as <-; [done|by apply Hds|by apply Hns]. }
  { rewrite Hm. by apply path_at_map_inj. }
  cbn [wk_queue wk_seen wk_folders wk_files].
  destruct (fold_walk_file (path_at b) (li_files e)
              (Walk (map path_at q ++ map path_of (li_folders e)) (wk_seen w ++ map path_of (li_folders e)) (wk_folders w ++ fs) (wk_files w)))
    as (gs & -> & Hgs).
  { intros o Ho. assert (path_of o ∈ map path_of (filterb (direct_in c) files)) as Hin
      by (rewrite <-Hf; apply list_elem_of_In, in_map, list_elem_of_In, Ho).
    apply elem_map_filterb in Hin as (o' & <- & Hd & Ho'). rewrite path_of_at. apply path_at_nonempty; [by eapply Forall_forall in Hfiles|].
    unfold direct_in in Hd. intros Hnil. rewrite Hnil in Hd. destruct (strip c []) as [x|] eqn:E; [|done].
    apply strip_Some in E. symmetry in E. by apply app_nil in E as [_ ->]. }
  exists news. cbn [wk_queue wk_seen wk_folders wk_files]. split; cbn [wk_queue wk_seen wk_folders wk_files].
  - by rewrite Hm, map_app.
  - rewrite <-app_assoc. cbn [app]. rewrite app_comm_cons, (app_assoc dn). by rewrite (wi_order _ _ _ _ I).
  - by rewrite Hm, map_app, (wi_seen _ _ _ _ I).
  - by rewrite map_app, Hfs, Hm, map_app, (wi_folders _ _ _ _ I).
  - rewrite map_app, Hgs, flat_map_app, (wi_files _ _ _ _ I), Hf. cbn [flat_map]. by rewrite app_nil_r.
  - rewrite app_comm_cons. apply NoDup_app. split; [apply I|]. split; [|done].
    intros d Hd (n & -> & _)%Hnews. by apply (child_fresh _ _ _ _ _ n I).
  - intros d [Hd|(n & -> & _)%Hnews]%elem_of_app; [by apply I|].
    assert (c ∈ b :: ds) as Hin by (rewrite <-(wi_order _ _ _ _ I); set_solver). apply elem_of_cons in Hin as [->|Hin]; [by exists [n]|].
    destruct (wi_under _ _ _ _ I _ Hin) as (x & _ & ->). exists (x ++ [n]). rewrite <-app_assoc. split; [by destruct x|done].
  - rewrite app_comm_cons. apply Forall_app_2; [apply I|done].
  - intros d [Hd|(n & -> & Hn)%Hnews]%elem_of_app.
    + destruct (wi_from _ _ _ _ I _ Hd) as (p & n & Hin & -> & Hn). exists p, n. set_solver.
    + exists c, n. set_solver.
  - intros p n [Hin|Hin%list_elem_of_singleton]%elem_of_app Hn; apply elem_of_app; [left; by apply I|right].
    subst p. apply Hnews. eauto.
Qed.

(** Every folder found is a prefix of a path in the cache. *)
Definition prefixes (p : list jsstr) : list (list jsstr) := map (λ i, take (S i) p) (seq 0 (length p)).
Lemma length_prefixes l : length (flat_map (λ o, prefixes (parts o)) l) = length (flat_map (λ o, segments_of (path_of o)) l).
Proof.
  induction l as [|o l IH]; [done|]. cbn [flat_map]. rewrite !length_app, IH. f_equal.
  unfold prefixes. by rewrite length_map, length_seq.
Qed.
Lemma elem_prefixes p d : d ≠ [] → (∃ r, p = d ++ r) → d ∈ prefixes p.
Proof.
  intros Hd [r ->]. unfold prefixes. apply list_elem_of_In, in_map_iff. exists (length d - 1)%nat.
  assert (0 < length d)%nat by (destruct d; [done|cbn; lia]). split.
  - replace (S (length d - 1)) with (length d) by lia. apply take_app_length.
  - apply in_seq. rewrite length_app. lia.
Qed.
Lemma found_bound w dn q ds : walk_inv w dn q ds → (length ds < walk_fuel dirs files)%nat.
Proof.
  intros I. unfold walk_fuel. rewrite <-length_prefixes. apply Nat.lt_succ_r. apply submseteq_length, NoDup_submseteq.
  - pose proof (wi_nodup _ _ _ _ I) as Hd. by apply NoDup_cons in Hd as [_ ?].
  - intros d Hd. destruct (wi_from _ _ _ _ I _ Hd) as (p & n & _ & -> & (o & r & Ho)%elem_child_names).
    apply list_elem_of_In, in_flat_map. exists o. split.
    + apply in_app_iff. destruct Ho as [[? _]|[? _]]; [left|right]; by apply list_elem_of_In.
    + apply list_elem_of_In, elem_prefixes; [by destruct p|]. exists r. rewrite <-app_assoc. by destruct Ho as [[_ ?]|(_ & ? & _)].
Qed.

Lemma walk_iter n :
  ∃ dn q ds, walk_inv (Nat.iter n (walk_step dirs files locale_le (path_at b)) (Walk [plain_path (path_at b)] [] [] [])) dn q ds
             ∧ (q = [] ∨ length dn = n).
Proof.
  induction n as [|n (dn & q & ds & I & Hq)]; [exists [], [b], []; split; [apply walk_start|by right]|].
  cbn [Nat.iter nat_rect]. set (w := nat_rect _ _ _ n) in *. change (nat_rect _ _ _ n) with w.
  destruct q as [|c q].
  - exists dn, [], ds. split; [|by left]. change (Nat.iter n _ _) with w in I. unfold walk_step. by rewrite (wi_queue _ _ _ _ I).
  - destruct Hq as [|Hn]; [done|]. destruct (walk_step_inv _ _ _ _ _ I) as [news I']. exists (dn ++ [c]), (q ++ news), (ds ++ news).
    split; [exact I'|]. right. rewrite length_app, Hn. cbn. lia.
Qed.
Lemma walk_ends : ∃ dn ds, walk_inv (walked dirs files locale_le (path_at b)) dn [] ds ∧ dn = b :: ds.
Proof.
  destruct (walk_iter (walk_fuel dirs files)) as (dn & q & ds & I & Hq). change (Nat.iter _ _ _) with (walked dirs files locale_le (path_at b)) in I.
  destruct q as [|c q].
  - exists dn, ds. split; [done|]. pose proof (wi_order _ _ _ _ I) as Ho. by rewrite app_nil_r in Ho.
  - destruct Hq as [|Hn]; [done|]. pose proof (found_bound _ _ _ _ I) as Hl. pose proof (wi_order _ _ _ _ I) as Ho.
    apply (f_equal length) in Ho. rewrite length_app in Ho. cbn in Ho. lia.
Qed.

(** A folder the cache implies: a listed one, or one on the way to a path. *)
Definition has_folder (d : list jsstr) : Prop :=
  ∃ o r, o ∈ dirs ∧ parts o = d ++ r ∨ o ∈ files ∧ parts o = d ++ r ∧ r ≠ [].
Lemma child_has_folder c n : n ∈ child_names dirs files c ↔ has_folder (c ++ [n]).
Proof.
  rewrite elem_child_names. unfold has_folder. setoid_rewrite <-app_assoc. done.
Qed.
Lemma has_folder_prefix d r : has_folder (d ++ r) → has_folder d.
Proof.
  intros (o & r' & H). exists o, (r ++ r'). rewrite app_assoc. destruct H as [?|(? & ? & Hr)]; [by left|right].
  split_and!; [done|done|]. by destruct r.
Qed.
Lemma found_iff w dn ds d :
  walk_inv w dn [] ds → dn = b :: ds → d ∈ ds ↔ (∃ x, x ≠ [] ∧ d = b ++ x) ∧ has_folder d.
Proof.
  intros I ->. split.
  - intros Hd. split; [by apply I|]. destruct (wi_from _ _ _ _ I _ Hd) as (p & n & _ & -> & Hn). by apply child_has_folder.
  - intros [(x & Hx & ->) Hf]. induction x as [|n x IH] using rev_ind; [done|].
    rewrite app_assoc. rewrite app_assoc in Hf. apply (wi_to _ _ _ _ I); [|by apply child_has_folder].
    destruct (decide (x = [])) as [->|Hne]; [rewrite app_nil_r; by left|right].
    apply IH; [done|]. by apply has_folder_prefix in Hf.
Qed.
End Walk.

Lemma filterb_or_perm {A} (p q : A → bool) l :
  (∀ x, x ∈ l → p x = true → q x = false) → filterb (λ x, p x || q x) l ≡ₚ filterb p l ++ filterb q l.
Proof.
  induction l as [|x l IH]; intros H; [done|]. cbn [filterb].
  assert (filterb (λ x, p x || q x) l ≡ₚ filterb p l ++ filterb q l) as Hl by (apply IH; intros; apply H; [by right|done]).
  destruct (p x) eqn:Hp; cbn [orb].
  - rewrite (H x) by (done || by left). by rewrite Hl.
  - destruct (q x); [|done]. rewrite Hl. by rewrite Permutation_middle.
Qed.
(** Files sorted into the folders they lie in. *)
Lemma partition_by {A B} `{EqDecision A} (key : B → option A) ds l :
  NoDup ds →
  flat_map (λ d, filterb (λ o, bool_decide (key o = Some d)) l) ds
  ≡ₚ filterb (λ o, match key o with Some d => bool_decide (d ∈ ds) | None => false end) l.
Proof.
  induction 1 as [|d ds Hd _ IH]; cbn [flat_map].
  - rewrite filterb_none; [done|]. intros o _. destruct (key o); [|done]. apply bool_decide_false. apply not_elem_of_nil.
  - rewrite IH, <-filterb_or_perm.
    + rewrite (filterb_ext _ (λ o, match key o with Some d' => bool_decide (d' ∈ d :: ds) | None => false end)); [done|].
      intros o _. destruct (key o) as [d'|]; [|by rewrite bool_decide_false].
      apply eq_true_iff_eq. rewrite orb_true_iff, !bool_decide_eq_true, elem_of_cons.
      split; (intros [H|H]; [left; congruence|by right]).
    + intros o _ Ho%bool_decide_eq_true. rewrite Ho. by apply bool_decide_false.
Qed.
Definition folder_key (o : item) : option (list jsstr) := if bool_decide (parts o = []) then None else Some (removelast (parts o)).
Lemma folder_key_Some o d : folder_key o = Some d ↔ ∃ n, parts o = d ++ [n].
Proof.
  unfold folder_key. case_bool_decide as Hn; [split; [done|]; intros [n H]; rewrite Hn in H; by destruct d|].
  destruct (exists_last Hn) as (l & n & Hl). rewrite Hl, removelast_last. split.
  - intros [= <-]. by exists n.
  - intros [m Hm]. by apply app_inj_tail in Hm as [-> _].
Qed.
Lemma direct_in_key d o : direct_in d o = bool_decide (folder_key o = Some d).
Proof.
  apply eq_true_iff_eq. rewrite bool_decide_eq_true, folder_key_Some. unfold direct_in. setoid_rewrite <-strip_Some.
  destruct (strip d (parts o)) as [[|n [|m x]]|]; naive_solver.
Qed.
(** The files below a folder, at any depth. *)
Definition under (b : list jsstr) (o : item) : bool :=
  match strip b (parts o) with Some (_ :: _) => true | _ => false end.
Lemma under_iff b o : under b o = true ↔ ∃ x, x ≠ [] ∧ parts o = b ++ x.
Proof.
  unfold under. setoid_rewrite <-strip_Some. destruct (strip b (parts o)) as [[|n x]|].
  - split; [done|]. by intros (x & Hx & [= <-]).
  - split; [|done]. intros _. by exists (n :: x).
  - split; [done|]. by intros (x & _ & Hx).
Qed.

Lemma flat_map_map {A B C} (f : A → list B) (g : B → C) l : flat_map (λ x, map g (f x)) l = map g (flat_map f l).
Proof. induction l as [|x l IH]; cbn; [done|]. by rewrite map_app, IH. Qed.

Lemma found_files dirs files b w dn ds :
  walk_inv dirs files b w dn [] ds → dn = b :: ds → map path_of (wk_files w) ≡ₚ map path_of (filterb (under b) files).
Proof.
  intros I Hdn. rewrite (wi_files _ _ _ _ _ _ _ I), flat_map_map. apply Permutation_map.
  erewrite flat_map_ext; [|intros p; apply filterb_ext; intros o _; apply direct_in_key].
  rewrite partition_by by (rewrite Hdn; apply (wi_nodup _ _ _ _ _ _ _ I)).
  rewrite (filterb_ext _ (under b)); [done|]. intros o Ho. apply eq_true_iff_eq. rewrite under_iff.
  destruct (folder_key o) as [d|] eqn:Hk.
  - apply folder_key_Some in Hk as [n Hn]. rewrite bool_decide_eq_true, Hn, Hdn, elem_of_cons. split.
    + intros [->|Hd]; [by exists [n]|]. destruct (wi_under _ _ _ _ _ _ _ I _ Hd) as (x & _ & ->). exists (x ++ [n]).
      rewrite <-app_assoc. split; [by destruct x|done].
    + intros (x & Hx & Heq). destruct (exists_last Hx) as (y & m & ->). rewrite app_assoc in Heq. apply app_inj_tail in Heq as [-> _].
      destruct (decide (y = [])) as [->|Hy]; [left; apply app_nil_r|right].
      apply (found_iff dirs files (λ _ _, true) b w dn ds (b ++ y) I Hdn). split; [by exists y|]. exists o, [n]. right. done.
  - split; [done|]. intros (x & Hx & Heq). exfalso. destruct (exists_last Hx) as (y & m & ->). rewrite app_assoc in Heq.
    assert (folder_key o = Some (b ++ y)) by (apply folder_key_Some; by exists m). congruence.
Qed.

(** ** Lemmas: lines *)

Definition one_line (s : jsstr) : Prop := 10 ∉ s ∧ 13 ∉ s.

Lemma unix_id s : 13 ∉ s → unix_lines s = s.
Proof.
  induction s as [|c s IH]; [done|]. intros [Hc Hs]%not_elem_of_cons.
  assert (unix_lines (c :: s) = c :: unix_lines s) as ->; [|by rewrite IH].
  cbn [unix_lines]. destruct c as [|p|p]; try done. repeat (destruct p as [p|p|]; try done).
Qed.
Lemma not_elem_joined c sep lines : c ∉ sep → Forall (λ s, c ∉ s) lines → c ∉ join sep lines.
Proof.
  intros Hs. induction 1 as [|w l Hw Hl IH]; [apply not_elem_of_nil|]. destruct l as [|v l]; [done|].
  rewrite join_cons_ne by done. rewrite !not_elem_of_app. done.
Qed.

(** ** Properties *)

(** C36: The recursive listing of the terminal is exact. When the paths of the
    cache are normal, listing a folder names, once each, the folders below it
    that the cache has or implies, and exactly the cached files below it, at
    any depth. *)
Theorem recursive_listing_exact dirs files locale_le b :
  Forall normal_item dirs → Forall normal_item files → Forall segment b →
  let e := _workspaceRecursiveEntries dirs files locale_le (join (js "/") b) in
  NoDup (map path_of (li_folders e))
  ∧ (∀ p, p ∈ map path_of (li_folders e) ↔ ∃ x, x ≠ [] ∧ p = join (js "/") (b ++ x) ∧ has_folder dirs files (b ++ x))
  ∧ map path_of (li_files e) ≡ₚ map path_of (filterb (under b) files).
Proof.
  intros Hd Hf Hb e. destruct (walk_ends dirs files locale_le Hd Hf b Hb) as (dn & ds & I & Hdn).
  unfold e, _workspaceRecursiveEntries. cbn [li_folders li_files]. change (join (js "/")) with path_at.
  pose proof (wi_nodup _ _ _ _ _ _ _ I) as [_ Hnd]%NoDup_cons. pose proof (wi_segment _ _ _ _ _ _ _ I) as [_ Hseg]%Forall_cons.
  rewrite (wi_folders _ _ _ _ _ _ _ I). split; [by apply path_at_map_inj|]. split; [|by apply (found_files _ _ _ _ _ _ I)].
  intros p. rewrite list_elem_of_In, in_map_iff. setoid_rewrite <-list_elem_of_In.
  setoid_rewrite (found_iff dirs files (λ _ _, true) b _ dn ds _ I Hdn). naive_solver.
Qed.
Lemma recursive_listing_exact_witness :
  map path_of (li_files (_workspaceRecursiveEntries [folder_item [] (js "empty")] [folder_item [] (js "a/b/c.txt"); folder_item [] (js "d.txt")]
    (λ _ _, true) (js "a"))) ≡ₚ [js "a/b/c.txt"].
Proof.
  destruct (recursive_listing_exact [folder_item [] (js "empty")] [folder_item [] (js "a/b/c.txt"); folder_item [] (js "d.txt")]
              (λ _ _, true) [js "a"]) as (_ & _ & H).
  - apply (bool_decide_unpack _). vm_compute. exact I.
  - apply (bool_decide_unpack _). vm_compute. exact I.
  - apply (bool_decide_unpack _). vm_compute. exact I.
  - exact H.
Defined.

(** The walk through the folders ends: however the cached paths nest, the
    queue is empty after one step for the start and one for each folder there
    can be. *)
Theorem listing_ends dirs files locale_le b :
  Forall normal_item dirs → Forall normal_item files → Forall segment b →
  wk_queue (walked dirs files locale_le (join (js "/") b)) = [].
Proof.
  intros Hd Hf Hb. destruct (walk_ends dirs files locale_le Hd Hf b Hb) as (dn & ds & I & _).
  exact (wi_queue _ _ _ _ _ _ _ I).
Qed.
Lemma listing_ends_witness :
  wk_queue (walked [folder_item [] (js "a")] [folder_item [] (js "a/b")] (λ _ _, true) (join (js "/") [])) = [].
Proof.
  apply listing_ends.
  - apply (bool_decide_unpack _). vm_compute. exact I.
  - apply (bool_decide_unpack _). vm_compute. exact I.
  - constructor.
Defined.

(** What an output redirection writes to a file reads back as the same
    lines, empty ones and a last empty one included. *)
Theorem written_lines_read_back lines :
  Forall one_line lines → _workspaceSplitLines (sink_text lines) = map _workspacePlainLine lines.
Proof.
  intros H. unfold _workspaceSplitLines. f_equal. destruct (decide (lines = [])) as [->|Hn]; [done|].
  assert (sink_text lines = join [10] lines ++ 10 :: []) as -> by by destruct lines.
  unfold split_lines. assert (nonempty (join [10] lines ++ [10]) = true) as ->
    by (apply nonempty_spec; by destruct (join [10] lines)).
  cbn [negb]. rewrite unix_id.
  2:{ rewrite not_elem_of_app. split; [|by intros ?%list_elem_of_singleton]. apply not_elem_joined.
      - by intros ?%list_elem_of_singleton.
      - eapply Forall_impl; [exact H|]. by intros s [_ ?]. }
  rewrite split_on_app, split_join; [|done|eapply Forall_impl; [exact H|by intros s [? _]]].
  cbn [split_on]. rewrite last_snoc, bool_decide_true by done. apply removelast_last.
Qed.
Lemma written_lines_read_back_witness :
  _workspaceSplitLines (sink_text [js "one"; []; js "three"; []]) = map _workspacePlainLine [js "one"; []; js "three"; []].
Proof.
  apply written_lines_read_back. repeat constructor; apply (bool_decide_unpack _); vm_compute; exact I.
Defined.
