(* ===== verification/WorkspaceHandlers.v ===== *)
(** The handlers of the file and credential commands
    (app/static/js/runner.js): programs that read the cache of paths, ask the
    server, and tell the running command what to show. A program is a tree of
    calls; what the server and the rest of the page answer is free, so every
    statement holds for all answers, in the order they come. *)

From S2P Require Import Prelude JsString JsNumber JsRegExp JsValue JsJson JsUri WorkspaceCore RunnerCore SessionCore Utils WorkspaceCommands WorkspaceFiles.

(** ** Definitions: programs *)

(** What the page keeps of the workspace, after a refresh. *)
Record cache := Cache { ca_dirs : list props; ca_files : list props }.

(** Requests through [apiFetch], answered by a response, and calls of the
    workspace module, answered by data. *)
Inductive request :=
  | FileInfo (path : jsstr) | DeletePath (path : jsstr)
  | DiffSources (left right : jsstr) (last : bool) (mode : diff_mode)
  | Principal | Credentials.
Inductive work :=
  | MovePath (source destination : jsstr) | CopyPath (source destination : jsstr) | TouchPath (path : jsstr)
  | CreateDirectory (path : jsstr) | ReadFile (path : jsstr) | DownloadFile (path : jsstr)
  | OpenEditor (action target : jsstr).
(** A response: its status, and its body unless it is no JSON. *)
Record response := Response { rs_ok : bool; rs_status : num; rs_body : option jsval }.

(** The question a deletion asks before it does anything. *)
Record delete_question := DeleteQuestion { dq_infos : list props; dq_multi : bool; dq_directory : bool }.

Inductive action :=
  | Line (text cls : jsstr) (metadata : jsval)
  | PublishIfPending
  | Status (status : string) | Recent (enabled : bool) | Effect (name : string) | Persist (kind : string)
  | SetCwd (path : jsstr) | RefreshCache | OpenAccess (sub : jsstr) | LogError (what : string).

Inductive prog (A : Type) :=
  | Ret (a : A)
  | Throw (message : jsstr)
  | Ensure (k : jsstr + cache → prog A)
  | Fetch (r : request) (k : jsstr + response → prog A)
  | Work (w : work) (k : jsstr + jsval → prog A)
  | Ask (q : delete_question) (k : option jsstr → prog A)   (* the message when a question is open already *)
  | Act (a : action) (p : prog A).
Arguments Ret {A}. Arguments Throw {A}. Arguments Ensure {A}. Arguments Fetch {A}. Arguments Work {A}.
Arguments Ask {A}. Arguments Act {A}.

Fixpoint bind {A B} (p : prog A) (f : A → prog B) : prog B :=
  match p with
  | Ret a => f a
  | Throw m => Throw m
  | Ensure k => Ensure (λ r, bind (k r) f)
  | Fetch r k => Fetch r (λ x, bind (k x) f)
  | Work w k => Work w (λ x, bind (k x) f)
  | Ask q k => Ask q (λ x, bind (k x) f)
  | Act a p => Act a (bind p f)
  end.
(** [try { p } catch (err) { h(err.message) }]. *)
Fixpoint catch {A} (p : prog A) (h : jsstr → prog A) : prog A :=
  match p with
  | Ret a => Ret a
  | Throw m => h m
  | Ensure k => Ensure (λ r, catch (k r) h)
  | Fetch r k => Fetch r (λ x, catch (k x) h)
  | Work w k => Work w (λ x, catch (k x) h)
  | Ask q k => Ask q (λ x, catch (k x) h)
  | Act a p => Act a (catch p h)
  end.
Notation "x <~ p ;; q" := (bind p (λ x, q)) (at level 62, p at next level, right associativity) : js_scope.
Notation "p ~> q" := (bind p (λ _, q)) (at level 62, right associativity) : js_scope.

Definition acts (l : list action) : prog () := fold_right Act (Ret tt) l.
Definition lift {A} (r : jsstr + A) : prog A := match r with inl m => Throw m | inr a => Ret a end.
Definition ensure_cache : prog cache := Ensure lift.
Definition fetch (r : request) : prog response := Fetch r lift.
Definition call (w : work) : prog jsval := Work w lift.
Definition guard (ok : bool) (message : jsstr) : prog () := if ok then Ret tt else Throw message.
Fixpoint each {A B} (f : A → prog B) (l : list A) : prog (list B) :=
  match l with
  | [] => Ret []
  | x :: l => y <~ f x ;; ys <~ each f l ;; Ret (y :: ys)
  end.

(** ** Definitions: the pieces *)

Definition path_message (e : path_error) : jsstr :=
  match e with
  | PathEscapesWorkspace => js "path escapes the session workspace"
  | UnsupportedCharacters => js "file name contains unsupported characters"
  end.
Definition path_ok {A} (r : path_error + A) : prog A := lift (match r with inl e => inl (path_message e) | inr a => inr a end).
(** [resp.json().catch(() => ({}))]. *)
Definition body_or_empty (r : response) : jsval := default (VObj []) (rs_body r).
(** [data && data.error ? data.error : fallback], as a message. *)
Definition error_or (data : jsval) (fallback : jsstr) : jsstr :=
  if truthy (get data (js "error")) then to_string (get data (js "error")) else fallback.
Definition status_text (what : string) (r : response) : jsstr := js what ++ js " (" ++ num_to_str (rs_status r) ++ js ")".
Definition line (text cls : jsstr) : action := Line text cls VNull.
Definition error_line (m : jsstr) (fallback : string) : action := line (js "[error] " ++ str_or m (js fallback)) (js "exit-fail").
(** [data && data[k] && data[k].j ? data[k].j : fallback], in a text. *)
Definition answered (data : jsval) (k j : string) (fallback : jsstr) : jsstr :=
  let v := get (get data (js k)) (js j) in if truthy v then to_string v else fallback.

Section Handlers.
(** The folder of the tab; who may write, and what is said otherwise; which
    optional modules are loaded; the browser's order of names and regular
    expressions; the configuration; the browser's messages for a malformed
    address, a body that is no JSON, a property of null. *)
Context (cwd : jsstr) (can_write : string → bool) (denied : string → jsstr) (loaded : string → bool)
        (locale_le : jsstr → jsstr → bool) (new_RegExp : jsstr → bool → jsstr + (jsstr → bool)) (app_config : jsval)
        (malformed : string → jsstr).

Definition hint_paths (l : list props) : list jsstr := map (λ o, str_of (item_get o "path")) l.
Definition expand (c : cache) (raw : jsstr) (kind : wanted) (d : bool) : prog (list entry) :=
  path_ok (_workspaceExpandPathPattern (hint_paths (ca_dirs c)) (hint_paths (ca_files c)) locale_le raw cwd kind d).
Definition resolve_existing (c : cache) (raw : jsstr) (kind : wanted) (d : bool) : prog jsstr :=
  path_ok (_resolveExistingWorkspaceCommandPath (hint_paths (ca_dirs c)) (hint_paths (ca_files c)) raw cwd kind d).
Definition resolve (raw : jsstr) : prog jsstr := path_ok (_resolveWorkspaceCommandPath raw cwd false).
Definition exists_path (c : cache) (path : jsstr) (kind : wanted) : bool :=
  _workspacePathExists (hint_paths (ca_dirs c)) (hint_paths (ca_files c)) path kind.
(** A path in an address: [encodeURIComponent] refuses a lone surrogate. *)
Definition fetch_path (mk : jsstr → request) (path : jsstr) : prog response :=
  match encodeURIComponent path with Some _ => fetch (mk path) | None => Throw (malformed "uri") end.

(** ** Definitions: listings *)

Definition glob_listing (matches : list entry) : listing :=
  Listing
    (flat_map (λ e, match snd e with
                    | ADirectory => [folder_item (strip_slashes (_workspaceRelativeListName (fst e) cwd true)) (fst e)]
                    | AFile => [] end) matches)
    (flat_map (λ e, match snd e with
                    | AFile => [folder_item (_workspaceRelativeListName (fst e) cwd false) (fst e)]
                    | ADirectory => [] end) matches).
Definition entries_of (c : cache) (recursive : bool) (target : jsstr) : listing :=
  if recursive then _workspaceRecursiveEntries (ca_dirs c) (ca_files c) locale_le target
  else _workspaceDirectListEntries locale_le (_workspaceDirectEntries (ca_dirs c) (ca_files c) locale_le target) target.

Definition _runWorkspaceListCommand (parts : list jsstr) : prog (list props) :=
  match _workspaceListCommand parts with
  | None => Throw (js "Usage: ls [-l] [folder]")
  | Some parsed =>
      if lc_invalid parsed then Throw (lc_usage parsed) else
      let rawTarget := lc_target parsed in
      c <~ ensure_cache ;;
      if _workspacePathHasGlob rawTarget then
        matches <~ expand c rawTarget WantAny true ;;
        if bool_decide (matches = []) then Throw (js "no matches: " ++ rawTarget)
        else Ret (if lc_long parsed then _workspaceListLines (glob_listing matches) []
                  else _workspaceShortListLines (glob_listing matches))
      else
        target <~ resolve_existing c rawTarget WantDirectory true ;;
        let directoryExists := negb (nonempty target) || exists_path c target WantDirectory in
        if negb directoryExists && bool_decide (target ∈ hints (hint_paths (ca_files c)))
        then Ret [_workspacePlainLine target]
        else if negb directoryExists then Throw (js "folder not found: " ++ _workspaceDisplayPath target)
        else
          let e := entries_of c (lc_recursive parsed) target in
          Ret (if lc_long parsed then _workspaceListLines e target else _workspaceShortListLines e)
  end.

Definition is_listing (root action : jsstr) : bool :=
  one_of ["ls"; "ll"]%string root || (root ==s js "file") && one_of ["list"; "ls"]%string action.
(** The lines a filter after a short listing sees: one name per line. *)
Definition _workspacePipeInputLinesForCommand (c : cache) (baseCommand : jsstr) (captured : list props) : list props :=
  let parts := _workspaceCommandTokens baseCommand in
  if negb (is_listing (root_of parts) (action_of parts)) then captured else
  match _workspaceListCommand parts with
  | None => captured
  | Some parsed =>
      if lc_invalid parsed || lc_long parsed then captured else
      let hd := hint_paths (ca_dirs c) in let hf := hint_paths (ca_files c) in
      if _workspacePathHasGlob (lc_target parsed) then
        match _workspaceExpandPathPattern hd hf locale_le (lc_target parsed) cwd WantAny true with
        | inr (e :: matches) =>
            map (λ e, match snd e with
                      | ADirectory => _workspacePlainLine (strip_slashes (_workspaceRelativeListName (fst e) cwd true) ++ [47])
                      | AFile => _workspacePlainLine (_workspaceRelativeListName (fst e) cwd false) end) (e :: matches)
        | _ => captured
        end
      else
        match _resolveExistingWorkspaceCommandPath hd hf (lc_target parsed) cwd WantDirectory true with
        | inl _ => captured
        | inr target =>
            let directoryExists := negb (nonempty target) || exists_path c target WantDirectory in
            if negb directoryExists || bool_decide (target ∈ hints hf) then captured
            else match _workspaceListNames (entries_of c (lc_recursive parsed) target) with
                 | [] => captured
                 | names => map _workspacePlainLine names
                 end
        end
  end.

(** ** Definitions: filters over a file *)

Definition IVE_RE : regexp := Eval vm_compute in lit "^-[ivE]+$" false.
Inductive filter_spec := FilterError (message : jsstr) | FilterFile (path : jsstr) (spec : parsed).
Fixpoint take_flags (parts : list jsstr) : list jsstr * list jsstr :=
  match parts with
  | p :: rest =>
      if bool_decide (2 ≤ length rest)%nat && test IVE_RE p
      then let '(fs, r) := take_flags rest in (p :: fs, r) else ([], parts)
  | [] => ([], [])
  end.
(** The file is the last word, the option what stands between. *)
Definition last_and_option (parts : list jsstr) : jsstr * jsstr :=
  (default [] (last parts), join (js " ") (removelast (drop 1 parts))).
(** A stage of a pipeline, as the parser of pipelines reads it. *)
Definition stage_of (root option : jsstr) : parsed :=
  parseSyntheticPostFilterCommand (js "cat x | " ++ root ++ (if nonempty option then 32 :: option else [])).
Definition usable (p : parsed) (path message : jsstr) : filter_spec :=
  match p with Parsed _ => FilterFile path p | _ => FilterError message end.
Definition _workspaceStandaloneFilterSpec (parts : list jsstr) : option filter_spec :=
  let root := root_of parts in
  let n := length parts in
  let '(file, option) := last_and_option parts in
  if root ==s js "grep" then
    let usage := js "Usage: grep [-i|-v|-E] <search> <file>" in
    Some (if bool_decide (n < 3)%nat then FilterError usage else
          match take_flags (drop 1 parts) with
          | (flags, [search; path]) =>
              usable (parseSyntheticPostFilterCommand (js "cat x | grep " ++ join (js " ") flags ++ 32 :: stringify (VStr search)))
                path (js "grep supports only -i, -v, and -E.")
          | _ => FilterError usage
          end)
  else if one_of ["head"; "tail"]%string root then
    let usage := js "Usage: " ++ root ++ js " [-n N] <file>" in
    Some (if bool_decide (n < 2)%nat then FilterError usage else usable (stage_of root option) file usage)
  else if root ==s js "wc" then
    Some (match parts with
          | [_; flag; path] => if flag ==s js "-l" then FilterFile path (stage_of (js "wc") (js "-l")) else FilterError (js "Usage: wc -l <file>")
          | _ => FilterError (js "Usage: wc -l <file>")
          end)
  else if root ==s js "sort" then
    Some (if bool_decide (n < 2)%nat || bool_decide (3 < n)%nat then FilterError (js "Usage: sort [-r|-n|-u|-rn] <file>")
          else usable (stage_of root option) file (js "sort supports only -r, -n, and -u flags."))
  else if root ==s js "uniq" then
    Some (if bool_decide (n < 2)%nat || bool_decide (3 < n)%nat then FilterError (js "Usage: uniq [-c] <file>")
          else usable (stage_of root option) file (js "uniq supports only -c."))
  else None.

(** ** Definitions: the terminal commands *)

Definition _workspaceReadLines (path : jsstr) : prog (list props) :=
  data <~ call (ReadFile path) ;;
  Ret (_workspaceSplitLines (str_of_nullish (js_or (get data (js "text")) (VStr [])))).
Definition filtered (spec : parsed) (lines : list props) : list props :=
  match spec with
  | Parsed p => map props_of (applySyntheticPostFilterLines new_RegExp locale_le (VArr (map VObj lines)) p (VObj []) app_config)
  | _ => lines
  end.
(** The source of a comparison as the server names it. *)
Definition sourceReference (c : cache) (source : jsstr) : prog jsstr :=
  if starts_with (js "run:") source then Ret source else
  let rawPath := if starts_with (js "file:") source then slice_from 5 source else source in
  path <~ resolve_existing c rawPath WantFile false ;; Ret (js "file:" ++ path).
Definition plain_lines (v : list jsval) : list props := map (λ x, _workspacePlainLine (to_string x)) v.

Definition run_cd (parts : list jsstr) : prog (list props) :=
  guard (negb (bool_decide (2 < length parts)%nat)) (js "Usage: cd [folder]") ~>
  (c <~ ensure_cache ;;
   target <~ resolve_existing c (str_or (word 1 parts) (js "/")) WantDirectory false ;;
   guard (negb (nonempty target) || exists_path c target WantDirectory)
     (js "folder not found: " ++ _workspaceDisplayPath target) ~>
   Act (SetCwd target) (Ret [_workspacePlainLine (_workspaceDisplayPath target)])).
Definition run_show (root : jsstr) (parts : list jsstr) : prog (list props) :=
  let is_cat := root ==s js "cat" in
  let rawTarget := word (if is_cat then 1 else 2) parts in
  guard (nonempty rawTarget && bool_decide (length parts = if is_cat then 2 else 3)%nat)
    (js (if is_cat then "Usage: cat <file>" else "Usage: file show <file>")) ~>
  (c <~ ensure_cache ;; target <~ resolve_existing c rawTarget WantFile false ;; _workspaceReadLines target).
Definition run_diff (cmd : jsstr) : prog (list props) :=
  match _workspaceDiffCommand cmd with
  | None => Throw (js "Usage: diff <source1> <source2>")
  | Some parsed =>
      if df_invalid parsed then Throw (df_usage parsed) else
      let left := default [] (df_left parsed) in let right := default [] (df_right parsed) in
      let requiresFiles := negb (df_last parsed) && existsb (λ s, negb (starts_with (js "run:") s)) [left; right] in
      c <~ (if requiresFiles then ensure_cache else Ret (Cache [] [])) ;;
      l <~ (if df_last parsed then Ret [] else sourceReference c left) ;;
      r <~ (if df_last parsed then Ret [] else sourceReference c right) ;;
      resp <~ fetch (DiffSources l r (df_last parsed) (df_mode parsed)) ;;
      let data := body_or_empty resp in
      guard (rs_ok resp) (error_or data (status_text "diff failed" resp)) ~>
      Ret (plain_lines (items_of (get data (js "notices")) ++ items_of (get data (js "lines"))))
  end.
Definition run_mkdir (root : jsstr) (parts : list jsstr) : prog (list props) :=
  let short := root ==s js "mkdir" in
  guard (can_write "create folders in Files") (denied "create folders in Files") ~>
  let rawTarget := word (if short then 1 else 2) parts in
  guard (nonempty rawTarget && bool_decide (length parts = if short then 2 else 3)%nat)
    (js (if short then "Usage: mkdir <folder>" else "Usage: file add-dir <folder>")) ~>
  (target <~ resolve rawTarget ;; data <~ call (CreateDirectory target) ;;
   Ret [_workspacePlainLine (js "file: created folder " ++ answered data "directory" "path" target)]).
Definition run_touch (cmd : jsstr) : prog (list props) :=
  guard (can_write "touch Files") (denied "touch Files") ~>
  match _workspaceTouchCommand cmd with
  | None => Throw (js "Usage: touch <file>")
  | Some parsed =>
      guard (negb (op_invalid parsed) && nonempty (op_target parsed)) (op_usage parsed) ~>
      (target <~ resolve (op_target parsed) ;; data <~ call (TouchPath target) ;;
       Act RefreshCache (Ret [_workspacePlainLine (js "file: touched " ++ answered data "file" "path" target)]))
  end.
Definition run_filter (parts : list jsstr) : prog (list props) :=
  match _workspaceStandaloneFilterSpec parts with
  | None => Throw (js "unsupported workspace command")
  | Some (FilterError m) => Throw m
  | Some (FilterFile path spec) =>
      c <~ ensure_cache ;; target <~ resolve_existing c path WantFile false ;;
      lines <~ _workspaceReadLines target ;; Ret (filtered spec lines)
  end.

Definition terminal_output (cmd : jsstr) : prog (list props) :=
  let parts := _workspaceCommandTokens cmd in
  let root := root_of parts in let action := action_of parts in
  let is_file names := (root ==s js "file") && one_of names action in
  if root ==s js "pwd" then Ret [_workspacePlainLine (_workspaceDisplayPath cwd)]
  else if root ==s js "cd" then run_cd parts
  else if is_listing root action then _runWorkspaceListCommand parts
  else if (root ==s js "cat") || is_file ["show"]%string then run_show root parts
  else if (root ==s js "diff") || is_file ["diff"]%string then run_diff cmd
  else if (root ==s js "mkdir") || is_file ["add-dir"; "mkdir"]%string then run_mkdir root parts
  else if (root ==s js "touch") || is_file ["touch"]%string then run_touch cmd
  else run_filter parts.
Definition show_line (l : props) : action :=
  Line (str_of_nullish (get (VObj l) (js "text"))) (str_of (get (VObj l) (js "cls")))
       (js_or (get (VObj l) (js "metadata")) VNull).
Definition _handleWorkspaceTerminalCommand (cmd : jsstr) : prog () :=
  catch (lines <~ terminal_output cmd ;; acts (map show_line lines ++ [Recent true; Status "ok"]))
    (λ m, acts [error_line m "workspace command failed"; Recent false; Status "fail"; LogError "workspace terminal command"]).

(** ** Definitions: deletions *)

Definition failing (m : jsstr) : prog () := acts [line m (js "exit-fail"); Status "fail"].
(** A line that shows at once while the question is open. *)
Definition shown (text cls : jsstr) : list action := [line text cls; PublishIfPending].
(** [{ ...info, path: info && info.path ? String(info.path) : path }]. *)
Definition info_of (path : jsstr) (resp : response) : props :=
  let info := body_or_empty resp in
  set_prop (js "path") (VStr (if truthy (get info (js "path")) then to_string (get info (js "path")) else path))
    (spread [] (spread_value info)).
Definition target_info (entry : jsstr) : prog props :=
  let path := plain_path entry in
  resp <~ fetch_path FileInfo path ;;
  if negb (rs_ok resp) then Throw (error_or (body_or_empty resp) (status_text "file or folder was not found" resp))
  else Ret (info_of path resp).
Definition delete_targets (target : jsstr) : prog (list props) :=
  c <~ ensure_cache ;;
  paths <~ (if _workspacePathHasGlob target then es <~ expand c target WantAny false ;; Ret (map fst es)
            else p <~ resolve_existing c target WantAny false ;; Ret [p]) ;;
  if bool_decide (paths = []) then Throw (js "no matches: " ++ target) else each target_info paths.
Definition info_path (info : props) : jsval := get (VObj info) (js "path").
Definition is_folder_info (info : props) : bool := is_str (get (VObj info) (js "kind")) (js "directory").
Definition sum_counts (infos : list props) : num :=
  fold_left (λ n info, nadd n (let c := to_number (get (VObj info) (js "file_count")) in if truthy (VNum c) then c else num_zero))
    infos num_zero.

Definition ask_deletion (recursive : bool) (target : jsstr) (infos : list props) : prog () :=
  let multi := bool_decide (1 < length infos)%nat in
  let first := match infos with i :: _ => to_string (js_or (info_path i) (VStr target)) | [] => target end in
  let target := if bool_decide (length infos = 1)%nat then first else target in
  let folders := filterb is_folder_info infos in
  let isDirectory := match infos with i :: _ => is_folder_info i | [] => false end in
  let fileCount := sum_counts infos in
  if negb (bool_decide (folders = [])) && negb recursive then
    let label := match folders with
                 | [f] => to_string (js_or (info_path f) (VStr target))
                 | _ => str_of_nat (length folders) ++ js " folders" end in
    let matched := if multi then label ++ js " matched" else label ++ js " is a folder" in
    acts (shown (js "[error] " ++ matched ++ js "; use rm -r " ++ target ++ js " or file delete -r " ++ target) (js "exit-fail")
          ++ [Status "fail"])
  else
    acts (shown (if multi then js "delete " ++ str_of_nat (length infos) ++ js " matched session items for '" ++ target ++ js "'?"
                 else js "delete session " ++ js (if isDirectory then "folder" else "file") ++ js " '" ++ target ++ js "'?") []
          ++ (if negb (bool_decide (folders = [])) && nltb num_zero fileCount
              then shown (js "warning: this will also delete " ++ num_to_str fileCount ++ js " "
                          ++ js (if neqb fileCount (num_of_Z 1) then "file" else "files") ++ js " in this folder.") (js "warning")
              else [])) ~>
    Ask (DeleteQuestion infos multi isDirectory) (λ r, match r with Some m => Throw m | None => acts [Status "idle"] end).

Definition _handleWorkspaceDeleteCommand (cmd : jsstr) : prog () :=
  let parsed := _workspaceDeleteCommand cmd in
  let target := _workspaceDeleteTarget cmd in
  if negb (can_write "delete Files")
  then acts (shown (js "[error] " ++ denied "delete Files") (js "exit-fail") ++ [Status "fail"])
  else if negb (nonempty target)
  then acts (shown (match parsed with Some p => str_or (dc_usage p) (js "Usage: rm [-r|-f|-rf] <file-or-folder>")
                    | None => js "Usage: rm [-r|-f|-rf] <file-or-folder>" end) (js "exit-fail") ++ [Status "fail"])
  else
    infos <~ catch (is_ <~ delete_targets target ;; Ret (Some is_))
               (λ m, acts (shown (js "[error] " ++ str_or m (js "file or folder was not found")) (js "exit-fail")
                           ++ [LogError "file rm validate"; Status "fail"]) ~> Ret None) ;;
    match infos with
    | Some infos => ask_deletion (match parsed with Some p => dc_recursive p | None => false end) target infos
    | None => Ret tt
    end.

(** The answers to the question. *)
Definition delete_one (info : props) : prog () :=
  let path := plain_path (str_of (info_path info)) in
  resp <~ fetch_path DeletePath path ;;
  if negb (rs_ok resp) then Throw (error_or (body_or_empty resp) (status_text "file delete failed" resp))
  else acts (shown (js (if is_folder_info info then "file: removed folder " else "file: removed ") ++ path) []).
Definition delete_confirmed (q : delete_question) : prog () :=
  catch (each delete_one (dq_infos q) ~> acts [Effect "refreshWorkspace"; Recent true; Status "ok"])
    (λ m, acts (shown (js "[error] " ++ str_or m (js "network error")) (js "exit-fail") ++ [LogError "file rm"; Status "fail"])).
Definition delete_declined (q : delete_question) : prog () :=
  acts (shown (js "Session " ++ js (if dq_multi q then "items" else if dq_directory q then "folder" else "file") ++ js " delete canceled.") []
        ++ [Persist "none"; Recent false; Status "idle"]).

(** ** Definitions: moves, copies, the editor, downloads *)

(** A handler that shows one line when it succeeds. *)
Definition finishing (p : prog (list action)) (fallback what : string) : prog () :=
  catch (last_ <~ p ;; acts (last_ ++ [Recent true; Status "ok"]))
    (λ m, acts [error_line m fallback; Status "fail"; LogError what]).
Definition denial (what : string) : prog () := failing (js "[error] " ++ denied what).
Definition valid_paths (parsed : option two_paths) : option two_paths :=
  match parsed with
  | Some p => if tp_invalid p || negb (nonempty (tp_source p)) || negb (nonempty (tp_destination p)) then None else Some p
  | None => None
  end.
Definition usage_or (parsed : option two_paths) (fallback : string) : jsstr :=
  match parsed with Some p => tp_usage p | None => js fallback end.
Definition both (data : jsval) (k : string) (verb : string) (source destination : jsstr) : action :=
  line (js "file: " ++ js verb ++ js " " ++ answered data k "source" source ++ js " to "
        ++ answered data k "destination" destination) [].

Definition move_one (destination entry : jsstr) : prog () :=
  let source := plain_path entry in
  data <~ call (MovePath source destination) ;; acts [both data "moved" "moved" source destination].
Definition move_sources (p : two_paths) : prog (list action) :=
  c <~ ensure_cache ;;
  sources <~ (if _workspacePathHasGlob (tp_source p) then es <~ expand c (tp_source p) WantAny false ;; Ret (map fst es)
              else s <~ resolve_existing c (tp_source p) WantAny false ;; Ret [s]) ;;
  guard (negb (bool_decide (sources = []))) (js "no matches: " ++ tp_source p) ~>
  (destination <~ resolve (tp_destination p) ;;
   guard (negb (bool_decide (1 < length sources)%nat) || exists_path c destination WantDirectory)
     (js "destination must be an existing folder when moving multiple matches") ~>
   (each (move_one destination) sources ~> Ret [Effect "refreshWorkspace"])).
Definition _handleWorkspaceMoveCommand (cmd : jsstr) : prog () :=
  let parsed := _workspaceMoveCommand cmd in
  if negb (can_write "move Files") then denial "move Files"
  else match valid_paths parsed with
       | None => failing (usage_or parsed "Usage: file move <source> <destination>")
       | Some p =>
           if negb (loaded "moveWorkspacePath") then failing (js "[error] Files move is not ready — reload the page and try again")
           else finishing (move_sources p) "file move failed" "file move"
       end.

Definition copy_source (p : two_paths) : prog (list action) :=
  c <~ ensure_cache ;;
  source <~ resolve_existing c (tp_source p) WantFile false ;;
  destination <~ resolve (tp_destination p) ;;
  data <~ call (CopyPath source destination) ;;
  Ret [both data "copied" "copied" source destination; Effect "refreshWorkspace"].
Definition _handleWorkspaceCopyCommand (cmd : jsstr) : prog () :=
  let parsed := _workspaceCopyCommand cmd in
  if negb (can_write "copy Files") then denial "copy Files"
  else match valid_paths parsed with
       | None => failing (usage_or parsed "Usage: file copy <source> <destination>")
       | Some p => finishing (copy_source p) "file copy failed" "file copy"
       end.

Definition open_editor (writeAction : string) (p : editor_command) : prog (list action) :=
  let editing := ec_action p ==s js "edit" in
  c <~ (if editing then ensure_cache else Ret (Cache [] [])) ;;
  target <~ (if negb (nonempty (ec_target p)) then Ret []
             else if editing then resolve_existing c (ec_target p) WantFile false else resolve (ec_target p)) ;;
  opened <~ call (OpenEditor (ec_action p) target) ;;
  guard (negb (match opened with VBool false => true | _ => false end)) (denied writeAction) ~>
  Ret [line (js "file: opened" ++ (if nonempty target then 32 :: target else []) ++ js " in the file editor") []].
Definition _handleWorkspaceEditorCommand (cmd : jsstr) : prog () :=
  let parsed := _workspaceEditorCommand cmd in
  let edits := match parsed with Some p => ec_action p ==s js "edit" | None => false end in
  let writeAction := if edits then "edit Files"%string else "create Files"%string in
  if negb (can_write writeAction) then denial writeAction
  else
    let usage := let action := match parsed with Some p => ec_action p | None => js "add" end in
                 js "Usage: file " ++ action ++ js " " ++ js (if action ==s js "add" then "[file]" else "<file>") in
    match parsed with
    | None => failing usage
    | Some p =>
        if ec_invalid p || edits && negb (nonempty (ec_target p)) then failing usage
        else if negb (loaded "openWorkspaceEditorFromCommand")
        then failing (js "[error] Files panel is not ready — reload the page and try again")
        else finishing (open_editor writeAction p) "network error" (if edits then "file edit" else "file add")
    end.

Definition download_target (raw : jsstr) : prog (list action) :=
  c <~ ensure_cache ;; target <~ resolve_existing c raw WantFile false ;;
  downloaded <~ call (DownloadFile target) ;;
  guard (truthy downloaded) (js "file download failed") ~> Ret [line (js "file: downloading " ++ target) []].
Definition _handleWorkspaceDownloadCommand (cmd : jsstr) : prog () :=
  let target := _workspaceDownloadTarget cmd in
  if negb (nonempty target) then failing (js "Usage: file download <file>")
  else if negb (loaded "downloadWorkspaceFile")
  then failing (js "[error] Files download is not ready — reload the page and try again")
  else finishing (download_target target) "network error" "file download".

(** ** Definitions: credentials *)

Definition or_text (v : jsval) (fallback : string) : jsstr := if truthy v then to_string v else js fallback.
Definition credential_line (item : jsval) : action :=
  let f k := get item (js k) in
  let state := if truthy (f "revoked_at"%string) then js "revoked"
               else if truthy (f "expires_at"%string) then js "expires " ++ to_string (f "expires_at"%string) else js "active" in
  line (to_string (f "id"%string) ++ js "  " ++ to_string (f "credential_type"%string) ++ js "  "
        ++ or_text (f "label"%string) "(unlabeled)" ++ js "  " ++ state) (js "builtin-kv").
(** The payload of a successful request; a failed one is described as if its
    response were an error, which has no message. *)
Definition payload (r : request) (context : string) : prog jsval :=
  resp <~ fetch r ;;
  if negb (rs_ok resp) then Throw (describeFetchError (VObj []) (js context))
  else match rs_body resp with Some v => Ret v | None => Throw (malformed "json") end.
Definition credential_status : prog () :=
  catch (v <~ payload Principal "unable to load access status" ;;
         let p := js_or (get v (js "principal")) (VObj []) in
         let a := js_or (get v (js "authentication")) (VObj []) in
         acts [line (js "principal      " ++ or_text (get p (js "id")) "(none)") (js "builtin-kv");
               line (js "workspace      " ++ or_text (get p (js "personal_workspace_id")) "(none)") (js "builtin-kv");
               line (js "authentication " ++ or_text (get a (js "authentication_method")) "(none)") (js "builtin-kv");
               Status "ok"])
    (λ m, acts [error_line m "unable to load access status"; Status "fail"]).
Definition credential_list : prog () :=
  catch (v <~ payload Credentials "unable to list credentials" ;;
         let credentials := items_of (get v (js "credentials")) in
         acts (if bool_decide (credentials = []) then [line (js "No access credentials found.") (js "builtin-note")] else []) ~>
         (each (λ item, if nullish item then Throw (malformed "null") else acts [credential_line item]) credentials ~>
          acts [Status "ok"]))
    (λ m, acts [error_line m "unable to list credentials"; Status "fail"]).
Definition _handleCredentialCommand (cmd : jsstr) : prog () :=
  let parts := words (trim cmd) in
  let sub := lower (str_or (word 1 parts) (js "status")) in
  if bool_decide (2 < length parts)%nat then
    acts [line (js "[error] credential values aren't accepted in shell commands") (js "exit-fail");
          line (js "Use the Access panel so reusable secrets never enter command history.") (js "notice");
          OpenAccess sub; Status "fail"]
  else if sub ==s js "status" then credential_status
  else if sub ==s js "list" then credential_list
  else if negb (one_of ["create"; "use"; "expiry"; "rotate"; "revoke"; "recover"]%string sub) then
    acts [line (js "credential: unknown subcommand '" ++ sub ++ js "'") (js "exit-fail");
          line (js "usage: credential [status | list | create | use | expiry | rotate | revoke | recover]") [];
          Status "fail"]
  else acts [line (js "Opening Access for credential " ++ sub ++ js "…") (js "builtin-note"); OpenAccess sub; Status "ok"].

(** Which handler a command line has; it is given the line without the
    filters and the redirection behind it. *)
Definition file_command (enabled : bool) (cmd base : jsstr) : option (prog ()) :=
  if _isWorkspaceTerminalCommand enabled cmd then Some (_handleWorkspaceTerminalCommand base)
  else if _isWorkspaceDeleteCommand enabled cmd then Some (_handleWorkspaceDeleteCommand base)
  else if _isWorkspaceMoveCommand enabled cmd then Some (_handleWorkspaceMoveCommand base)
  else if _isWorkspaceCopyCommand enabled cmd then Some (_handleWorkspaceCopyCommand base)
  else if _isWorkspaceEditorCommand enabled cmd then Some (_handleWorkspaceEditorCommand base)
  else if _isWorkspaceDownloadCommand enabled cmd then Some (_handleWorkspaceDownloadCommand base)
  else None.
End Handlers.

(** ** Traces

    What a program did: the calls it made with their answers, in order. *)

Inductive event :=
  | EEnsure (r : jsstr + cache) | EFetch (r : request) (x : jsstr + response) | EWork (w : work) (x : jsstr + jsval)
  | EAsk (q : delete_question) (r : option jsstr) | EAct (a : action).
Inductive outcome (A : Type) := Returned (a : A) | Raised (message : jsstr).
Arguments Returned {A}. Arguments Raised {A}.

Inductive traces {A} : prog A → list event → outcome A → Prop :=
  | tr_ret a : traces (Ret a) [] (Returned a)
  | tr_throw m : traces (Throw m) [] (Raised m)
  | tr_ensure k r tr o : traces (k r) tr o → traces (Ensure k) (EEnsure r :: tr) o
  | tr_fetch r k x tr o : traces (k x) tr o → traces (Fetch r k) (EFetch r x :: tr) o
  | tr_work w k x tr o : traces (k x) tr o → traces (Work w k) (EWork w x :: tr) o
  | tr_ask q k x tr o : traces (k x) tr o → traces (Ask q k) (EAsk q x :: tr) o
  | tr_act a p tr o : traces p tr o → traces (Act a p) (EAct a :: tr) o.

(** The case of a program that goes on after a call. *)
Ltac after_call IH H t1 t2 :=
  inversion H; subst;
  match goal with Ht : traces (_ _ _) _ _ |- _ => apply IH in Ht as [(? & -> & ?)|(? & t1 & t2 & -> & ? & ?)] end.

Lemma traces_bind {A B} (p : prog A) (f : A → prog B) tr o :
  traces (bind p f) tr o →
  (∃ m, o = Raised m ∧ traces p tr (Raised m))
  ∨ ∃ a tr1 tr2, tr = tr1 ++ tr2 ∧ traces p tr1 (Returned a) ∧ traces (f a) tr2 o.
Proof.
  revert tr o. induction p as [a|m|k IH|r k IH|w k IH|q k IH|a p IH]; intros tr o H; cbn [bind] in H.
  { right. exists a, [], tr. split; [done|]. split; [constructor|done]. }
  { inversion H; subst. left. exists m. split; [done|constructor]. }
  all: after_call IH H t1 t2; [left; eexists; split; [done|by constructor]|right].
  all: eexists _, (_ :: t1), t2; split; [reflexivity|]; split; [by constructor|done].
Qed.
Lemma traces_catch {A} (p : prog A) h tr o :
  traces (catch p h) tr o →
  (∃ a, o = Returned a ∧ traces p tr (Returned a))
  ∨ ∃ m tr1 tr2, tr = tr1 ++ tr2 ∧ traces p tr1 (Raised m) ∧ traces (h m) tr2 o.
Proof.
  revert tr o. induction p as [a|m|k IH|r k IH|w k IH|q k IH|a p IH]; intros tr o H; cbn [catch] in H.
  { inversion H; subst. left. exists a. split; [done|constructor]. }
  { right. exists m, [], tr. split; [done|]. split; [constructor|done]. }
  all: after_call IH H t1 t2; [left; eexists; split; [done|by constructor]|right].
  all: eexists _, (_ :: t1), t2; split; [reflexivity|]; split; [by constructor|done].
Qed.
Lemma traces_acts l tr o : traces (acts l) tr o → tr = map EAct l ∧ o = Returned tt.
Proof.
  revert tr. induction l as [|a l IH]; intros tr H; inversion H; subst; [done|].
  match goal with Ht : traces _ _ _ |- _ => by apply IH in Ht as [-> ->] end.
Qed.
Lemma traces_lift {A} (r : jsstr + A) tr o :
  traces (lift r) tr o → tr = [] ∧ o = match r with inl m => Raised m | inr a => Returned a end.
Proof. destruct r; intros H; by inversion H. Qed.

(** *** What a program may do, whatever it is answered

    [wp As G p Q]: as long as the answers satisfy [As], every call satisfies
    [G], and what the program returns satisfies [Q]. *)
Fixpoint wp (As G : event → Prop) {A} (p : prog A) (Q : A → Prop) : Prop :=
  match p with
  | Ret a => Q a
  | Throw _ => True
  | Ensure k => ∀ r, As (EEnsure r) → G (EEnsure r) ∧ wp As G (k r) Q
  | Fetch r k => ∀ x, As (EFetch r x) → G (EFetch r x) ∧ wp As G (k x) Q
  | Work w k => ∀ x, As (EWork w x) → G (EWork w x) ∧ wp As G (k x) Q
  | Ask q k => ∀ x, As (EAsk q x) → G (EAsk q x) ∧ wp As G (k x) Q
  | Act a p => As (EAct a) → G (EAct a) ∧ wp As G p Q
  end.

Section Logic.
Context (As G : event → Prop).

Lemma wp_sound {A} (p : prog A) Q tr o :
  wp As G p Q → traces p tr o → Forall As tr → Forall G tr ∧ ∀ a, o = Returned a → Q a.
Proof.
  intros Hp Ht. revert Hp. induction Ht; cbn [wp]; intros Hp HAs.
  - split; [constructor|]. by intros ? [= <-].
  - by split; [constructor|].
  - apply Forall_cons in HAs as [H1 H2]. destruct (Hp _ H1) as [HG Hk]. destruct (IHHt Hk H2). split; [by constructor|done].
  - apply Forall_cons in HAs as [H1 H2]. destruct (Hp _ H1) as [HG Hk]. destruct (IHHt Hk H2). split; [by constructor|done].
  - apply Forall_cons in HAs as [H1 H2]. destruct (Hp _ H1) as [HG Hk]. destruct (IHHt Hk H2). split; [by constructor|done].
  - apply Forall_cons in HAs as [H1 H2]. destruct (Hp _ H1) as [HG Hk]. destruct (IHHt Hk H2). split; [by constructor|done].
  - apply Forall_cons in HAs as [H1 H2]. destruct (Hp H1) as [HG Hk]. destruct (IHHt Hk H2). split; [by constructor|done].
Qed.
Lemma wp_mono {A} (p : prog A) (Q Q' : A → Prop) : (∀ a, Q a → Q' a) → wp As G p Q → wp As G p Q'.
Proof. intros H. induction p; cbn [wp]; intuition; naive_solver. Qed.
Lemma wp_bind {A B} (p : prog A) (f : A → prog B) Q : wp As G p (λ a, wp As G (f a) Q) → wp As G (bind p f) Q.
Proof. induction p; cbn [wp bind]; naive_solver. Qed.
Lemma wp_catch {A} (p : prog A) h Q : wp As G p Q → (∀ m, wp As G (h m) Q) → wp As G (catch p h) Q.
Proof. intros Hp Hh. revert Hp. induction p; cbn [wp catch]; naive_solver. Qed.
Lemma wp_lift {A} (r : jsstr + A) (Q : A → Prop) : (∀ a, r = inr a → Q a) → wp As G (lift r) Q.
Proof. destruct r; cbn; naive_solver. Qed.
Lemma wp_guard b m (Q : () → Prop) : (b = true → Q tt) → wp As G (guard b m) Q.
Proof. destruct b; cbn; auto. Qed.
Lemma wp_each {A B} (f : A → prog B) l (R : B → Prop) :
  (∀ x, x ∈ l → wp As G (f x) R) → wp As G (each f l) (Forall R).
Proof.
  induction l as [|x l IH]; intros H; cbn [each]; [constructor|]. apply wp_bind. eapply wp_mono; [|apply H; by left].
  intros y Hy. apply wp_bind. eapply wp_mono; [|apply IH; intros; apply H; by right]. intros ys Hys. by constructor.
Qed.
Lemma wp_acts l (Q : () → Prop) : (∀ a, a ∈ l → G (EAct a)) → Q tt → wp As G (acts l) Q.
Proof.
  intros H HQ. induction l as [|a l IH]; cbn [acts fold_right wp]; [done|]. intros _. split; [apply H; by left|].
  apply IH. intros. apply H. by right.
Qed.
End Logic.

(** ** Lemmas: who may change files *)

(** The calls that change the workspace, and the question before one. *)
Definition changing (e : event) : bool :=
  match e with
  | EFetch (DeletePath _) _ | EAsk _ _ => true
  | EWork (MovePath _ _ | CopyPath _ _ | TouchPath _ | CreateDirectory _ | OpenEditor _ _) _ => true
  | _ => false
  end.
Notation calm := (wp (λ _, True) (λ e, changing e = false)).

(** Walks through a program whose calls are seen to be allowed by computation. *)
Ltac wp_steps :=
  cbv beta zeta;
  lazymatch goal with
  | |- True => exact I
  | |- _ = false => reflexivity
  | |- wp _ _ (Ret ?a) ?Q => change (Q a); wp_steps
  | |- wp _ _ (Throw _) _ => exact I
  | |- wp _ _ (bind _ _) _ => apply wp_bind; wp_steps
  | |- wp _ _ (acts _) _ => apply wp_acts; [intros ? _; reflexivity|wp_steps]
  | |- wp _ _ (lift _) _ => apply wp_lift; intros ? _; wp_steps
  | |- wp _ _ (guard false _) _ => exact I
  | |- wp _ _ (guard _ _) _ => apply wp_guard; intros _; wp_steps
  | |- wp _ _ (catch _ _) _ => apply wp_catch; [|intros ?]; wp_steps
  | |- wp _ _ (path_ok _) _ => apply wp_lift; intros ? _; wp_steps
  | |- wp _ _ ensure_cache _ => intros ? _; split; [reflexivity|wp_steps]
  | |- wp _ _ (fetch _) _ => intros ? _; split; [reflexivity|wp_steps]
  | |- wp _ _ (call _) _ => intros ? _; split; [reflexivity|wp_steps]
  | |- wp _ _ (Ask _ _) _ => intros ? _; split; [reflexivity|wp_steps]
  | |- wp _ _ (Act _ _) _ => intros _; split; [reflexivity|wp_steps]
  | |- wp _ _ (each _ _) _ => eapply wp_mono; [|apply (wp_each _ _ _ _ (λ _, True))]; [intros ? _|intros ? _]; wp_steps
  | |- wp _ _ (if ?b then _ else _) _ => destruct b; wp_steps
  | |- wp _ _ (match ?x with _ => _ end) _ => destruct x; wp_steps
  | _ => idtac
  end.

Section Changes.
Context (cwd : jsstr) (can_write : string → bool) (denied : string → jsstr) (loaded : string → bool)
        (locale_le : jsstr → jsstr → bool) (new_RegExp : jsstr → bool → jsstr + (jsstr → bool)) (app_config : jsval)
        (malformed : string → jsstr).
Context (Hro : ∀ a, can_write a = false).

Lemma calm_list parts : calm (_runWorkspaceListCommand cwd locale_le parts) (λ _, True).
Proof. unfold _runWorkspaceListCommand, expand, resolve_existing. wp_steps. Qed.
Lemma calm_read path : calm (_workspaceReadLines path) (λ _, True).
Proof. unfold _workspaceReadLines. wp_steps. Qed.
Lemma calm_source c s : calm (sourceReference cwd c s) (λ _, True).
Proof. unfold sourceReference, resolve_existing. wp_steps. Qed.
Lemma calm_terminal cmd : calm (terminal_output cwd can_write denied locale_le new_RegExp app_config cmd) (λ _, True).
Proof.
  unfold terminal_output. cbv zeta. repeat case_match.
  - wp_steps.
  - unfold run_cd, resolve_existing. wp_steps.
  - apply calm_list.
  - unfold run_show, resolve_existing. wp_steps. apply calm_read.
  - unfold run_diff. wp_steps.
    all: try (eapply wp_mono; [|apply calm_source]; intros; wp_steps).
    all: try (eapply wp_mono; [|apply calm_source]; intros; wp_steps).
  - unfold run_mkdir. rewrite Hro. wp_steps.
  - unfold run_touch. rewrite Hro. wp_steps.
  - unfold run_filter, resolve_existing. wp_steps. eapply wp_mono; [|apply calm_read]. intros. wp_steps.
Qed.
End Changes.

(** *** Nothing is deleted by a handler *)

(** The deletions asked of the server, and whether it did them. *)
Definition deletion (e : event) : option (jsstr * bool) :=
  match e with
  | EFetch (DeletePath p) x => Some (p, match x with inr r => rs_ok r | inl _ => false end)
  | _ => None
  end.
Definition deletes (e : event) : bool := bool_decide (is_Some (deletion e)).
Definition deletions (tr : list event) : list (jsstr * bool) := omap deletion tr.
Notation quiet := (wp (λ _, True) (λ e, deletes e = false)).
Lemma deletions_app tr tr' : deletions (tr ++ tr') = deletions tr ++ deletions tr'.
Proof. apply omap_app. Qed.
Lemma deletions_acts l : deletions (map EAct l) = [].
Proof. induction l; done. Qed.
Lemma deletions_quiet tr : Forall (λ e, deletes e = false) tr → deletions tr = [].
Proof.
  induction 1 as [|e tr He _ IH]; [done|]. apply bool_decide_eq_false in He. unfold deletions in *. cbn.
  destruct (deletion e); [destruct He; eauto|done].
Qed.

Section Quiet.
Context (cwd : jsstr) (can_write : string → bool) (denied : string → jsstr) (loaded : string → bool)
        (locale_le : jsstr → jsstr → bool) (new_RegExp : jsstr → bool → jsstr + (jsstr → bool)) (app_config : jsval)
        (malformed : string → jsstr).
Lemma quiet_terminal cmd :
  quiet (_handleWorkspaceTerminalCommand cwd can_write denied locale_le new_RegExp app_config cmd) (λ _, True).
Proof.
  unfold _handleWorkspaceTerminalCommand, terminal_output. wp_steps.
  - unfold run_cd, resolve_existing. wp_steps.
  - unfold _runWorkspaceListCommand, expand, resolve_existing. wp_steps.
  - unfold run_show, _workspaceReadLines, resolve_existing. wp_steps.
  - unfold run_diff, sourceReference, resolve_existing. wp_steps.
  - unfold run_mkdir, resolve. wp_steps.
  - unfold run_touch, resolve. wp_steps.
  - unfold run_filter, _workspaceReadLines, resolve_existing. wp_steps.
Qed.
Lemma quiet_delete cmd : quiet (_handleWorkspaceDeleteCommand cwd can_write denied locale_le malformed cmd) (λ _, True).
Proof.
  unfold _handleWorkspaceDeleteCommand, delete_targets, target_info, fetch_path, expand, resolve_existing, ask_deletion. wp_steps.
Qed.
Lemma quiet_move cmd : quiet (_handleWorkspaceMoveCommand cwd can_write denied loaded locale_le cmd) (λ _, True).
Proof.
  unfold _handleWorkspaceMoveCommand, denial, failing, finishing, move_sources, move_one, expand, resolve, resolve_existing.
  wp_steps.
Qed.
Lemma quiet_copy cmd : quiet (_handleWorkspaceCopyCommand cwd can_write denied cmd) (λ _, True).
Proof. unfold _handleWorkspaceCopyCommand, denial, failing, finishing, copy_source, resolve, resolve_existing. wp_steps. Qed.
Lemma quiet_editor cmd : quiet (_handleWorkspaceEditorCommand cwd can_write denied loaded cmd) (λ _, True).
Proof.
  unfold _handleWorkspaceEditorCommand, denial, failing, finishing, open_editor, resolve, resolve_existing. wp_steps.
Qed.
Lemma quiet_download cmd : quiet (_handleWorkspaceDownloadCommand cwd loaded cmd) (λ _, True).
Proof. unfold _handleWorkspaceDownloadCommand, failing, finishing, download_target, resolve_existing. wp_steps. Qed.
End Quiet.

(** *** Confined paths *)

Definition confined (p : jsstr) : Prop := Forall clean (segments_of p).
(** The answers of a server that lists confined paths only. *)
Definition honest (e : event) : Prop :=
  match e with
  | EEnsure (inr c) => Forall confined (hints (hint_paths (ca_dirs c)) ++ hints (hint_paths (ca_files c)))
  | EFetch (FileInfo _) (inr resp) =>
      truthy (get (body_or_empty resp) (js "path")) = true → confined (to_string (get (body_or_empty resp) (js "path")))
  | _ => True
  end.
#[export] Instance confined_dec p : Decision (confined p).
Proof. unfold confined. apply _. Defined.
#[export] Instance honest_dec e : Decision (honest e).
Proof. destruct e as [[]|[] []| | |]; cbn [honest]; apply _. Defined.
(** A source of a comparison: nothing, a run, or a confined file. *)
Definition confined_source (s : jsstr) : Prop :=
  s = [] ∨ starts_with (js "run:") s = true ∨ ∃ p, s = js "file:" ++ p ∧ confined p.
Definition stays_inside (e : event) : Prop :=
  match e with
  | EFetch (FileInfo p) _ | EFetch (DeletePath p) _ => confined p
  | EFetch (DiffSources l r _ _) _ => confined_source l ∧ confined_source r
  | EWork (MovePath s d) _ | EWork (CopyPath s d) _ => confined s ∧ confined d
  | EWork (TouchPath p) _ | EWork (CreateDirectory p) _ | EWork (ReadFile p) _ | EWork (DownloadFile p) _
  | EWork (OpenEditor _ p) _ => confined p
  | EAsk q _ => Forall (λ info, confined (str_of (info_path info))) (dq_infos q)
  | EAct (SetCwd p) => confined p
  | _ => True
  end.

Section Confined.
Context (cwd : jsstr) (locale_le : jsstr → jsstr → bool) (Hcwd : confined (_normalizeWorkspaceTerminalPath cwd)).
Context (c : cache) (Hcache : Forall confined (hints (hint_paths (ca_dirs c)) ++ hints (hint_paths (ca_files c)))).
Notation hd := (hint_paths (ca_dirs c)).
Notation hf := (hint_paths (ca_files c)).

Lemma confined_at parts : Forall clean parts → confined (join (js "/") parts).
Proof. intros H. unfold confined. rewrite segments_joined by auto with darklab. done. Qed.
Lemma confined_plain p : confined p → confined (plain_path p).
Proof. unfold confined. by rewrite segments_of_plain. Qed.
Lemma resolve_confined raw d p : _resolveWorkspaceCommandPath raw cwd d = inr p → confined p.
Proof. intros H. destruct (resolve_parts _ _ _ _ Hcwd H) as (parts & Hp & ->). by apply confined_at. Qed.
Lemma exists_confined p kind : _workspacePathExists hd hf p kind = true → confined (plain_path p).
Proof.
  unfold _workspacePathExists. destruct (nonempty (plain_path p)) eqn:E; cbn [negb].
  - intros [H|H]%orb_true_iff; apply andb_true_iff in H as [_ H%bool_decide_eq_true];
      eapply Forall_forall in Hcache; try exact Hcache; apply elem_of_app; auto.
  - intros _. destruct (plain_path p); [constructor|done].
Qed.
Lemma resolve_existing_confined raw kind d p :
  _resolveExistingWorkspaceCommandPath hd hf raw cwd kind d = inr p → confined p.
Proof.
  unfold _resolveExistingWorkspaceCommandPath. destruct (_resolveWorkspaceCommandPath _ _ _) as [e|target] eqn:E; [done|].
  apply resolve_confined in E. destruct (_workspacePathExists _ _ target kind); [by intros [= <-]|].
  destruct (_ && _) eqn:Hx; intros [= <-]; [|done]. apply andb_true_iff in Hx as [_ Hx%exists_confined].
  revert Hx. unfold confined. by rewrite !segments_of_plain.
Qed.
Lemma expand_confined raw kind d items :
  _workspaceExpandPathPattern hd hf locale_le raw cwd kind d = inr items → Forall (λ e, confined (fst e)) items.
Proof.
  unfold _workspaceExpandPathPattern. destruct (_resolveWorkspaceCommandPath _ _ _) as [e|target] eqn:E; [done|].
  apply resolve_confined in E.
  assert (∀ e, e ∈ _workspaceEntryHints hd hf locale_le kind → confined (fst e)) as Hent.
  { intros e He. assert (fst e ∈ listed kind hd hf) as Hl
      by (apply (elem_entry_paths _ _ locale_le), list_elem_of_In, in_map, list_elem_of_In, He).
    apply elem_listed in Hl as (_ & h & -> & Hh). apply confined_plain. rewrite Forall_forall in Hcache. apply Hcache.
    apply elem_of_app. destruct Hh as [[_ ?]|[_ ?]]; auto. }
  destruct (negb (_workspacePathHasGlob target)).
  - destruct (negb (_workspacePathExists _ _ target kind)); intros [= <-]; [constructor|]. apply Forall_singleton.
    destruct (findb _ _) as [e|] eqn:Hf; [|done]. apply findb_Some in Hf as [Hf _]. by apply Hent.
  - intros [= <-]. apply Forall_forall. intros e [_ He]%elem_of_filterb. by apply Hent.
Qed.
End Confined.

Notation inside := (wp honest stays_inside).
Definition good_cache (c : cache) : Prop := Forall confined (hints (hint_paths (ca_dirs c)) ++ hints (hint_paths (ca_files c))).

Section Inside.
Context (cwd : jsstr) (can_write : string → bool) (denied : string → jsstr) (loaded : string → bool)
        (locale_le : jsstr → jsstr → bool) (new_RegExp : jsstr → bool → jsstr + (jsstr → bool)) (app_config : jsval)
        (malformed : string → jsstr).
Context (Hcwd : confined (_normalizeWorkspaceTerminalPath cwd)).

Lemma inside_ensure (Q : cache → Prop) : (∀ c, good_cache c → Q c) → inside ensure_cache Q.
Proof. intros H r Hr. split; [done|]. apply wp_lift. intros c ->. apply H, Hr. Qed.
Lemma inside_resolve raw (Q : jsstr → Prop) : (∀ p, confined p → Q p) → inside (resolve cwd raw) Q.
Proof.
  intros H. apply wp_lift. intros p. destruct (_resolveWorkspaceCommandPath raw cwd false) eqn:E; intros [= <-].
  apply H. by apply (resolve_confined cwd) in E.
Qed.
Lemma inside_existing c raw kind d (Q : jsstr → Prop) :
  good_cache c → (∀ p, confined p → Q p) → inside (resolve_existing cwd c raw kind d) Q.
Proof.
  intros Hc H. apply wp_lift. intros p. destruct (_resolveExistingWorkspaceCommandPath _ _ raw cwd kind d) eqn:E; intros [= <-].
  apply H. by apply (resolve_existing_confined cwd Hcwd c Hc) in E.
Qed.
Lemma inside_expand c raw kind d (Q : list entry → Prop) :
  good_cache c → (∀ es, Forall (λ e, confined (fst e)) es → Q es) → inside (expand cwd locale_le c raw kind d) Q.
Proof.
  intros Hc H. apply wp_lift. intros es. destruct (_workspaceExpandPathPattern _ _ _ raw cwd kind d) eqn:E; intros [= <-].
  apply H. by apply (expand_confined cwd locale_le Hcwd c Hc) in E.
Qed.
Lemma inside_acts l (Q : () → Prop) : (∀ a, a ∈ l → stays_inside (EAct a)) → Q tt → inside (acts l) Q.
Proof. apply wp_acts. Qed.
Lemma inside_failing m (Q : () → Prop) : Q tt → inside (failing m) Q.
Proof. intros H. apply wp_acts; [|done]. intros a Ha. repeat (apply elem_of_cons in Ha as [->|Ha]; [exact I|]). by apply not_elem_of_nil in Ha. Qed.
Lemma empty_cache_good : good_cache (Cache [] []).
Proof. constructor. Qed.

(** Lists of actions that set no folder. *)
Ltac plain_actions :=
  let a := fresh in let Ha := fresh in
  intros a Ha;
  repeat lazymatch type of Ha with
    | _ ∈ _ ++ _ => apply elem_of_app in Ha as [Ha|Ha]
    | _ ∈ _ :: _ => apply elem_of_cons in Ha as [->|Ha]; [exact I|]
    | _ ∈ [] => by apply not_elem_of_nil in Ha
    | _ ∈ shown _ _ => unfold shown in Ha
    | _ ∈ (if ?b then _ else _) => destruct b
    end.
Ltac inside_steps :=
  cbv beta zeta;
  lazymatch goal with
  | |- True => exact I
  | |- inside (Ret ?a) ?Q => change (Q a); inside_steps
  | |- inside (Throw _) _ => exact I
  | |- inside (bind _ _) _ => apply wp_bind; inside_steps
  | |- inside (failing _) _ => apply inside_failing; inside_steps
  | |- inside (denial _ _) _ => apply inside_failing; inside_steps
  | |- inside (acts _) _ => apply inside_acts; [plain_actions|inside_steps]
  | |- inside ensure_cache _ => apply inside_ensure; intros ? ?; inside_steps
  | |- inside (resolve _ _) _ => apply inside_resolve; intros ? ?; inside_steps
  | |- inside (resolve_existing _ _ _ _ _) _ =>
      apply inside_existing; [first [assumption|apply empty_cache_good]|intros ? ?; inside_steps]
  | |- inside (expand _ _ _ _ _ _) _ => apply inside_expand; [assumption|intros ? ?; inside_steps]
  | |- inside (guard _ _) _ => apply wp_guard; intros _; inside_steps
  | |- inside (catch _ _) _ => apply wp_catch; [|intros ?]; inside_steps
  | |- inside (lift _) _ => apply wp_lift; intros ? _; inside_steps
  | |- inside (call (OpenEditor _ _)) _ => intros ? _; split; [|inside_steps]
  | |- inside (call _) _ => intros ? _; split; [repeat split; assumption|inside_steps]
  | |- inside (Act (SetCwd _) _) _ => intros _; split; [assumption|inside_steps]
  | |- inside (Act _ _) _ => intros _; split; [exact I|inside_steps]
  | |- inside (if ?b then _ else _) _ => destruct b; inside_steps
  | |- inside (match ?x with _ => _ end) _ => destruct x; inside_steps
  | _ => idtac
  end.

Lemma inside_source c s (Q : jsstr → Prop) :
  good_cache c → (∀ r, confined_source r → Q r) → inside (sourceReference cwd c s) Q.
Proof.
  intros Hc H. unfold sourceReference. destruct (starts_with (js "run:") s) eqn:E; inside_steps.
  - apply H. right. by left.
  - apply H. right. right. eauto.
Qed.
Lemma show_line_inside l a : a ∈ map show_line l → stays_inside (EAct a).
Proof. intros H. apply list_elem_of_In, in_map_iff in H as (x & <- & _). exact I. Qed.

Lemma inside_terminal cmd :
  inside (_handleWorkspaceTerminalCommand cwd can_write denied locale_le new_RegExp app_config cmd) (λ _, True).
Proof.
  unfold _handleWorkspaceTerminalCommand. apply wp_catch; [|intros ?; inside_steps].
  apply wp_bind. apply wp_mono with (Q := λ _, True).
  { intros lines _. apply inside_acts; [|exact I]. intros a [Ha|Ha]%elem_of_app; [by apply show_line_inside in Ha|].
    revert a Ha. plain_actions. }
  unfold terminal_output. cbv zeta. repeat case_match.
  - inside_steps.
  - unfold run_cd. inside_steps.
  - unfold _runWorkspaceListCommand. inside_steps.
  - unfold run_show, _workspaceReadLines. inside_steps.
  - unfold run_diff. inside_steps.
    all: try (apply inside_source; [first [assumption|apply empty_cache_good]|intros ? ?]).
    all: inside_steps.
    all: try (apply inside_source; [first [assumption|apply empty_cache_good]|intros ? ?]).
    all: try (intros ? _; split; [split; first [assumption|by left]|inside_steps]).
  - unfold run_mkdir. inside_steps.
  - unfold run_touch. inside_steps.
  - unfold run_filter, _workspaceReadLines. inside_steps.
Qed.

Lemma inside_finishing p fallback what :
  inside p (λ l, ∀ a, a ∈ l → stays_inside (EAct a)) → inside (finishing p fallback what) (λ _, True).
Proof.
  intros H. unfold finishing. apply wp_catch; [|intros ?; inside_steps]. apply wp_bind. eapply wp_mono; [|exact H].
  intros l Hl. apply inside_acts; [|exact I]. intros a [Ha|Ha]%elem_of_app; [by apply Hl|]. revert a Ha. plain_actions.
Qed.
(** The paths a pattern or a name stands for. *)
Lemma inside_paths c raw kind (Q : list jsstr → Prop) :
  good_cache c → (∀ ps, Forall confined ps → Q ps) →
  inside (if _workspacePathHasGlob raw then es <~ expand cwd locale_le c raw kind false ;; Ret (map fst es)
          else p <~ resolve_existing cwd c raw kind false ;; Ret [p]) Q.
Proof.
  intros Hc H. inside_steps; apply H; [|by apply Forall_singleton].
  match goal with He : Forall _ _ |- _ => clear -He; induction He; constructor; auto end.
Qed.

Lemma inside_move cmd : inside (_handleWorkspaceMoveCommand cwd can_write denied loaded locale_le cmd) (λ _, True).
Proof.
  unfold _handleWorkspaceMoveCommand. destruct (negb (can_write "move Files")); [inside_steps|].
  destruct (valid_paths _) as [p|]; [|inside_steps]. destruct (negb (loaded _)); [inside_steps|]. apply inside_finishing.
  unfold move_sources. apply wp_bind, inside_ensure. intros c Hc. apply wp_bind, inside_paths; [done|]. intros ps Hps.
  inside_steps. eapply wp_mono; [|apply (wp_each _ _ _ _ (λ _, True))].
  - intros _ _. cbn. intros a Ha. revert a Ha. plain_actions.
  - intros x Hx. unfold move_one. assert (confined (plain_path x)) as Hx' by (apply confined_plain; by eapply Forall_forall in Hps).
    inside_steps.
Qed.
Lemma inside_copy cmd : inside (_handleWorkspaceCopyCommand cwd can_write denied cmd) (λ _, True).
Proof.
  unfold _handleWorkspaceCopyCommand. destruct (negb (can_write "copy Files")); [inside_steps|].
  destruct (valid_paths _) as [p|]; [|inside_steps]. apply inside_finishing. unfold copy_source. inside_steps. plain_actions.
Qed.
Lemma inside_editor cmd : inside (_handleWorkspaceEditorCommand cwd can_write denied loaded cmd) (λ _, True).
Proof.
  unfold _handleWorkspaceEditorCommand. cbv zeta. destruct (negb (can_write _)); [inside_steps|].
  destruct (_workspaceEditorCommand cmd) as [p|]; [|inside_steps]. destruct (_ || _); [inside_steps|].
  destruct (negb (loaded _)); [inside_steps|]. apply inside_finishing. unfold open_editor. inside_steps; try plain_actions.
  all: first [assumption | constructor].
Qed.
Lemma inside_download cmd : inside (_handleWorkspaceDownloadCommand cwd loaded cmd) (λ _, True).
Proof.
  unfold _handleWorkspaceDownloadCommand. cbv zeta. destruct (negb (nonempty _)); [inside_steps|].
  destruct (negb (loaded _)); [inside_steps|]. apply inside_finishing. unfold download_target. inside_steps. plain_actions.
Qed.

Definition confined_info (info : props) : Prop := confined (str_of (info_path info)).
Lemma info_path_set o v : info_path (set_prop (js "path") v o) = v.
Proof. unfold info_path, get, table_get. by rewrite own_set_eq. Qed.
Lemma inside_target_info path : confined path → inside (target_info malformed path) confined_info.
Proof.
  intros Hp. unfold target_info, fetch_path. apply wp_bind. destruct (encodeURIComponent _); [|exact I].
  intros x Hx. split; [by apply confined_plain|]. apply wp_lift. intros resp ->. destruct (negb (rs_ok resp)); [exact I|].
  cbn [wp]. unfold confined_info, info_of. cbv zeta. rewrite info_path_set, str_of_VStr.
  cbn [honest] in Hx. destruct (truthy _) eqn:E; [by apply Hx|by apply confined_plain].
Qed.
Lemma inside_ask recursive target infos : Forall confined_info infos → inside (ask_deletion recursive target infos) (λ _, True).
Proof.
  intros H. unfold ask_deletion. cbv zeta. destruct (_ && negb recursive); [inside_steps|]. apply wp_bind, inside_acts; [plain_actions|].
  intros x _. split; [exact H|]. destruct x; inside_steps.
Qed.
Lemma inside_delete cmd : inside (_handleWorkspaceDeleteCommand cwd can_write denied locale_le malformed cmd) (λ _, True).
Proof.
  unfold _handleWorkspaceDeleteCommand. cbv zeta. destruct (negb (can_write _)); [inside_steps|].
  destruct (negb (nonempty _)); [inside_steps|]. apply wp_bind.
  apply wp_mono with (Q := λ o, ∀ infos, o = Some infos → Forall confined_info infos).
  { intros [infos|] Ho; [apply inside_ask; by apply Ho|exact I]. }
  apply wp_catch; [|intros m; apply wp_bind, inside_acts; [plain_actions|by intros ? ?]].
  apply wp_bind. unfold delete_targets. apply wp_bind, inside_ensure. intros c Hc. apply wp_bind, inside_paths; [done|].
  intros ps Hps. destruct (bool_decide _); [exact I|]. eapply wp_mono; [|apply (wp_each _ _ _ _ confined_info)].
  - intros infos Hi is_ [= <-]. exact Hi.
  - intros x Hx. apply inside_target_info. by eapply Forall_forall in Hps.
Qed.
Lemma inside_confirmed q : Forall confined_info (dq_infos q) → inside (delete_confirmed malformed q) (λ _, True).
Proof.
  intros Hq. unfold delete_confirmed. apply wp_catch; [|intros m; inside_steps]. apply wp_bind.
  eapply wp_mono; [|apply (wp_each _ _ _ _ (λ _, True))]; [intros _ _; inside_steps|]. intros info Hi.
  unfold delete_one, fetch_path. cbv zeta. apply wp_bind. destruct (encodeURIComponent _); [|exact I].
  intros x _. split; [apply confined_plain; by eapply Forall_forall in Hq|]. apply wp_lift. intros resp _. inside_steps.
Qed.
End Inside.

(** ** Lemmas: deletions *)

Section Deletions.
Context (malformed : string → jsstr).
Definition delete_path (info : props) : jsstr := plain_path (str_of (info_path info)).

Lemma delete_one_trace info tr o :
  traces (delete_one malformed info) tr o →
  deletions tr = [] ∧ (∃ m, o = Raised m)
  ∨ deletions tr = [(delete_path info, false)] ∧ (∃ m, o = Raised m)
  ∨ deletions tr = [(delete_path info, true)] ∧ o = Returned tt.
Proof.
  unfold delete_one, fetch_path. cbv zeta. fold (delete_path info).
  destruct (encodeURIComponent _); [|intros H; inversion H; subst; left; eauto].
  cbn [bind fetch]. intros H. inversion H; subst. right.
  match goal with Ht : traces (bind (lift ?x) _) _ _ |- _ => destruct x as [m|resp]; cbn [lift bind] in Ht end.
  - left. match goal with Ht : traces _ _ _ |- _ => inversion Ht; subst end. eauto.
  - match goal with Ht : traces (if _ then _ else _) _ _ |- _ => rename Ht into Hk end.
    destruct (rs_ok resp) eqn:E; cbn [negb] in Hk.
    + right. apply (traces_acts (shown _ _)) in Hk as [-> ->]. split; [|done]. unfold deletions. cbn. by rewrite E.
    + left. inversion Hk; subst. cbn. rewrite E. eauto.
Qed.
Definition deleted (infos : list props) : list (jsstr * bool) := map (λ i, (delete_path i, true)) infos.
Lemma delete_each_trace infos tr o :
  traces (each (delete_one malformed) infos) tr o →
  map fst (deletions tr) `prefix_of` map delete_path infos ∧ Forall (λ d, snd d = true) (removelast (deletions tr))
  ∧ ((∃ m, o = Raised m) ∧ deletions tr ≠ deleted infos ∨ (∃ ys, o = Returned ys) ∧ deletions tr = deleted infos).
Proof.
  revert tr o. induction infos as [|info infos IH]; intros tr o H; cbn [each] in H.
  { inversion H; subst. split; [done|]. split; [constructor|right]. split; [eauto|done]. }
  apply traces_bind in H as [(m & -> & H)|(u & t1 & t2 & -> & H1 & H2)].
  - apply delete_one_trace in H as [[-> _]|[[-> _]|[_ ?]]]; [| |done].
    + split; [apply prefix_nil|]. split; [constructor|left; eauto].
    + split; [|split; [constructor|left; eauto]]. cbn. apply prefix_cons, prefix_nil.
  - apply delete_one_trace in H1 as [[_ [? ?]]|[[_ [? ?]]|[Hd _]]]; [done|done|]. rewrite deletions_app, Hd.
    assert (∀ tr', Forall (λ d, snd d = true) (removelast (deletions tr')) →
      Forall (λ d, snd d = true) (removelast ((delete_path info, true) :: deletions tr'))) as Hrm.
    { intros tr' Hr. cbn. destruct (deletions tr'); [constructor|by constructor]. }
    apply traces_bind in H2 as [(m & -> & H)|(ys & t3 & t4 & -> & H3 & H4)].
    + destruct (IH _ _ H) as (Hp & Hr & [[_ Hne]|[[? ?] _]]); [|done]. split; [cbn; by apply prefix_cons|].
      split; [by apply Hrm|left]. split; [eauto|]. cbn. by intros [= ?].
    + inversion H4; subst. rewrite app_nil_r. destruct (IH _ _ H3) as (Hp & Hr & [[[? ?] _]|[_ Ha]]); [done|].
      split; [cbn; by apply prefix_cons|]. split; [by apply Hrm|right]. split; [eauto|]. cbn. by rewrite Ha.
Qed.
Lemma each_no_ok infos : wp (λ _, True) (λ e, e ≠ EAct (Status "ok")) (each (delete_one malformed) infos) (λ _, True).
Proof.
  eapply wp_mono; [|apply (wp_each _ _ _ _ (λ _, True))]; [done|]. intros x _. unfold delete_one, fetch_path. cbv zeta.
  apply wp_bind. destruct (encodeURIComponent _); [|exact I]. intros y _. split; [done|]. apply wp_lift. intros resp _.
  destruct (negb (rs_ok resp)); [exact I|]. apply wp_acts; [|exact I].
  intros a Ha. repeat (apply elem_of_cons in Ha as [->|Ha]; [done|]). by apply not_elem_of_nil in Ha.
Qed.
End Deletions.

Lemma each_Returned {A B} (f : A → prog B) l tr ys y :
  traces (each f l) tr (Returned ys) → y ∈ ys →
  ∃ x tr', x ∈ l ∧ traces (f x) tr' (Returned y) ∧ ∀ e, e ∈ tr' → e ∈ tr.
Proof.
  revert tr ys. induction l as [|x l IH]; intros tr ys H Hy; cbn [each] in H.
  { inversion H; subst. by apply not_elem_of_nil in Hy. }
  apply traces_bind in H as [(m & Hm & _)|(z & t1 & t2 & -> & H1 & H2)]; [done|].
  apply traces_bind in H2 as [(m & Hm & _)|(zs & t3 & t4 & -> & H3 & H4)]; [done|]. inversion H4; subst.
  apply elem_of_cons in Hy as [->|Hy].
  - exists x, t1. split; [by left|]. split; [done|]. intros e He. apply elem_of_app. by left.
  - destruct (IH _ _ H3 Hy) as (x' & t' & Hx & Ht & Hin). exists x', t'. split; [by right|]. split; [done|].
    intros e He. apply elem_of_app. right. apply elem_of_app. left. auto.
Qed.
Lemma each_length {A B} (f : A → prog B) l tr ys : traces (each f l) tr (Returned ys) → length ys = length l.
Proof.
  revert tr ys. induction l as [|x l IH]; intros tr ys H; cbn [each] in H; [by inversion H|].
  apply traces_bind in H as [(m & Hm & _)|(z & t1 & t2 & -> & H1 & H2)]; [done|].
  apply traces_bind in H2 as [(m & Hm & _)|(zs & t3 & t4 & -> & H3 & H4)]; [done|]. inversion H4; subst. cbn. f_equal. eauto.
Qed.
Lemma target_info_trace malformed entry tr info :
  traces (target_info malformed entry) tr (Returned info) →
  ∃ path resp, EFetch (FileInfo path) (inr resp) ∈ tr ∧ rs_ok resp = true ∧ info = info_of path resp.
Proof.
  unfold target_info, fetch_path. cbv zeta. destruct (encodeURIComponent _); [|intros H; inversion H].
  cbn [bind fetch]. intros H. inversion H; subst.
  match goal with Ht : traces (bind (lift ?x) _) _ _ |- _ => destruct x as [m|resp]; cbn [lift bind] in Ht; rename Ht into Hk end;
    [inversion Hk|].
  destruct (rs_ok resp) eqn:E; cbn [negb] in Hk; inversion Hk; subst.
  eexists _, resp. split; [by left|]. done.
Qed.

(** *** Questions *)

Definition asks (e : event) : bool := match e with EAsk _ _ => true | _ => false end.
Notation silent := (wp (λ _, True) (λ e, asks e = false)).
Lemma no_question {A} (p : prog A) tr o q r : silent p (λ _, True) → traces p tr o → EAsk q r ∉ tr.
Proof.
  intros Hp Ht Hq. destruct (wp_sound _ _ _ _ _ _ Hp Ht (Forall_true _ _ (λ _, I))) as [HG _].
  eapply Forall_forall in HG; [|exact Hq]. done.
Qed.

Section Questions.
Context (cwd : jsstr) (can_write : string → bool) (denied : string → jsstr) (locale_le : jsstr → jsstr → bool)
        (malformed : string → jsstr).

Lemma silent_targets target : silent (delete_targets cwd locale_le malformed target) (λ _, True).
Proof. unfold delete_targets, target_info, fetch_path, expand, resolve_existing. wp_steps. Qed.
Lemma delete_targets_infos target tr infos :
  traces (delete_targets cwd locale_le malformed target) tr (Returned infos) →
  infos ≠ [] ∧ ∀ info, info ∈ infos →
    ∃ path resp, EFetch (FileInfo path) (inr resp) ∈ tr ∧ rs_ok resp = true ∧ info = info_of path resp.
Proof.
  unfold delete_targets. intros H. apply traces_bind in H as [(m & ? & _)|(c & t1 & t2 & -> & _ & H)]; [done|].
  apply traces_bind in H as [(m & ? & _)|(ps & t3 & t4 & -> & _ & H)]; [done|].
  destruct (bool_decide (ps = [])) eqn:E; [inversion H|]. apply bool_decide_eq_false in E. split.
  - apply each_length in H. intros ->. by destruct ps.
  - intros info Hi. destruct (each_Returned _ _ _ _ _ H Hi) as (x & t' & _ & Ht & Hin).
    destruct (target_info_trace _ _ _ _ Ht) as (path & resp & He & Hok & ->). exists path, resp.
    split; [|done]. apply elem_of_app. right. apply elem_of_app. right. auto.
Qed.
Lemma ask_asked recursive target infos tr o q r :
  traces (ask_deletion recursive target infos) tr o → EAsk q r ∈ tr →
  dq_infos q = infos ∧ (Exists (λ i, is_folder_info i = true) infos → recursive = true).
Proof.
  unfold ask_deletion. cbv zeta. intros H Hq. destruct (_ && negb recursive) eqn:E.
  { exfalso. revert Hq. eapply no_question; [|exact H]. by apply wp_acts. }
  apply traces_bind in H as [(m & -> & H)|(u & t1 & t2 & -> & H1 & H2)]; [by apply traces_acts in H as [_ ?]|].
  apply elem_of_app in Hq as [Hq|Hq].
  { exfalso. revert Hq. eapply no_question; [|exact H1]. by apply wp_acts. }
  inversion H2; subst. split.
  - apply elem_of_cons in Hq as [[= -> _]|Hq]; [done|]. exfalso. revert Hq.
    eapply no_question; [|eassumption]. wp_steps.
  - intros (i & Hi & Hd)%Exists_exists. destruct recursive; [done|]. rewrite andb_true_r in E.
    apply negb_false_iff, bool_decide_eq_true in E. exfalso.
    assert (i ∈ filterb is_folder_info infos) as Hm by (by apply elem_of_filterb). rewrite E in Hm. by apply not_elem_of_nil in Hm.
Qed.
Lemma delete_asked cmd tr o q r :
  traces (_handleWorkspaceDeleteCommand cwd can_write denied locale_le malformed cmd) tr o → EAsk q r ∈ tr →
  can_write "delete Files" = true ∧ nonempty (_workspaceDeleteTarget cmd) = true
  ∧ ∃ t1 t2 infos, tr = t1 ++ t2 ∧ traces (delete_targets cwd locale_le malformed (_workspaceDeleteTarget cmd)) t1 (Returned infos)
    ∧ traces (ask_deletion (match _workspaceDeleteCommand cmd with Some p => dc_recursive p | None => false end)
                (_workspaceDeleteTarget cmd) infos) t2 o ∧ EAsk q r ∈ t2.
Proof.
  unfold _handleWorkspaceDeleteCommand. cbv zeta. intros H Hq.
  destruct (can_write _); cbn [negb] in H; [|exfalso; revert Hq; eapply no_question; [|exact H]; by apply wp_acts].
  destruct (nonempty _) eqn:E; cbn [negb] in H; [|exfalso; revert Hq; eapply no_question; [|exact H]; by apply wp_acts].
  split; [done|]. split; [done|].
  match type of H with traces (bind ?v _) _ _ => assert (silent v (λ _, True)) as Hv end.
  { apply wp_catch; [|intros m; wp_steps]. apply wp_bind. eapply wp_mono; [|apply silent_targets]. done. }
  apply traces_bind in H as [(m & _ & H)|(x & t1 & t2 & -> & H1 & H2)]; [by destruct (no_question _ _ _ _ _ Hv H Hq)|].
  apply elem_of_app in Hq as [Hq|Hq]; [by destruct (no_question _ _ _ _ _ Hv H1 Hq)|].
  destruct x as [infos|]; [|inversion H2; subst; by apply not_elem_of_nil in Hq].
  apply traces_catch in H1 as [(a & [= <-] & H1)|(m & t3 & t4 & -> & _ & H1)].
  - apply traces_bind in H1 as [(m & ? & _)|(is_ & t3 & t4 & -> & H3 & H4)]; [done|]. inversion H4; subst.
    rewrite app_nil_r. eauto 10.
  - apply traces_bind in H1 as [(? & ? & _)|(? & ? & ? & _ & _ & H1)]; [done|]. inversion H1.
Qed.
Lemma delete_confirmed_trace q tr o :
  traces (delete_confirmed malformed q) tr o →
  o = Returned tt ∧ map fst (deletions tr) `prefix_of` map delete_path (dq_infos q)
  ∧ Forall (λ d, snd d = true) (removelast (deletions tr))
  ∧ (EAct (Status "ok") ∈ tr ↔ deletions tr = map (λ i, (delete_path i, true)) (dq_infos q)).
Proof.
  unfold delete_confirmed. intros H. apply traces_catch in H as [([] & -> & H)|(m & t1 & t2 & -> & H1 & H2)].
  - split; [done|]. apply traces_bind in H as [(m & ? & _)|(ys & t1 & t2 & -> & H1 & H2)]; [done|].
    apply traces_acts in H2 as [-> _]. rewrite deletions_app, deletions_acts, app_nil_r.
    destruct (delete_each_trace _ _ _ _ H1) as (Hp & Hr & [[[? ?] _]|[_ Ha]]); [done|].
    split; [done|]. split; [done|]. split; [done|]. intros _. apply elem_of_app. right. cbn. right. right. by left.
  - apply traces_acts in H2 as [-> ->]. split; [done|]. rewrite deletions_app, deletions_acts, app_nil_r.
    apply traces_bind in H1 as [(m' & _ & H1)|(ys & t3 & t4 & -> & _ & H4)]; [|by apply traces_acts in H4 as [_ ?]].
    destruct (delete_each_trace _ _ _ _ H1) as (Hp & Hr & [[_ Hne]|[[? ?] _]]); [|done]. split; [done|]. split; [done|].
    split; [|intros He; by destruct Hne]. intros [Hok|Hok]%elem_of_app; exfalso.
    + destruct (wp_sound _ _ _ _ _ _ (each_no_ok malformed (dq_infos q)) H1 (Forall_true _ _ (λ _, I))) as [HG _].
      eapply Forall_forall in HG; [|exact Hok]. done.
    + repeat (apply elem_of_cons in Hok as [Hok|Hok]; [done|]). by apply not_elem_of_nil in Hok.
Qed.
End Questions.

Section Theorems.
Context (cwd : jsstr) (can_write : string → bool) (denied : string → jsstr) (loaded : string → bool)
        (locale_le : jsstr → jsstr → bool) (new_RegExp : jsstr → bool → jsstr + (jsstr → bool)) (app_config : jsval)
        (malformed : string → jsstr).
Notation handler := (file_command cwd can_write denied loaded locale_le new_RegExp app_config malformed).

(** The handlers one by one. *)
Ltac each_handler H :=
  unfold file_command in H; repeat (destruct (_ : bool) in H); simplify_eq.
Lemma handler_cases (P : prog () → Prop) enabled cmd base p :
  handler enabled cmd base = Some p →
  P (_handleWorkspaceTerminalCommand cwd can_write denied locale_le new_RegExp app_config base) →
  P (_handleWorkspaceDeleteCommand cwd can_write denied locale_le malformed base) →
  P (_handleWorkspaceMoveCommand cwd can_write denied loaded locale_le base) →
  P (_handleWorkspaceCopyCommand cwd can_write denied base) →
  P (_handleWorkspaceEditorCommand cwd can_write denied loaded base) →
  P (_handleWorkspaceDownloadCommand cwd loaded base) → P p.
Proof. unfold file_command. intros H. repeat case_match; simplify_eq; auto. Qed.

(** C35: Who may not write changes nothing: whatever the command, the cache and
    the answers, no handler deletes, moves, copies, touches, creates a folder,
    opens the editor or asks for a deletion. *)
Theorem read_only_changes_nothing enabled cmd base p tr o :
  (∀ a, can_write a = false) → handler enabled cmd base = Some p → traces p tr o →
  Forall (λ e, changing e = false) tr.
Proof.
  intros Hro Hp Ht. cut (calm p (λ _, True)).
  { intros Hw. by apply (wp_sound _ _ _ _ _ _ Hw Ht), Forall_true. }
  apply (handler_cases (λ p, calm p (λ _, True)) _ _ _ _ Hp); clear Hp Ht.
  - unfold _handleWorkspaceTerminalCommand. apply wp_catch; [|intros m; wp_steps]. apply wp_bind.
    eapply wp_mono; [|by apply calm_terminal]. intros. wp_steps.
  - unfold _handleWorkspaceDeleteCommand. cbv zeta. rewrite Hro. cbn [negb]. wp_steps.
  - unfold _handleWorkspaceMoveCommand, denial, failing. cbv zeta. rewrite Hro. cbn [negb]. wp_steps.
  - unfold _handleWorkspaceCopyCommand, denial, failing. cbv zeta. rewrite Hro. cbn [negb]. wp_steps.
  - unfold _handleWorkspaceEditorCommand, denial, failing. cbv zeta. rewrite Hro. cbn [negb]. wp_steps.
  - unfold _handleWorkspaceDownloadCommand, failing, finishing, download_target, resolve_existing. wp_steps.
Qed.

(** C34: The paths a command names stay inside the workspace: with a confined
    folder, and as long as the server lists confined paths, every path asked
    of the server, handed to the editor, put in a question or made the folder
    of the tab is confined, whatever was typed. *)
Theorem requests_stay_confined enabled cmd base p tr o :
  confined (_normalizeWorkspaceTerminalPath cwd) → handler enabled cmd base = Some p → traces p tr o →
  Forall honest tr → Forall stays_inside tr.
Proof.
  intros Hcwd Hp Ht Hh. cut (inside p (λ _, True)).
  { intros Hw. by apply (wp_sound _ _ _ _ _ _ Hw Ht). }
  apply (handler_cases (λ p, inside p (λ _, True)) _ _ _ _ Hp); clear Hp Ht.
  - by apply inside_terminal.
  - by apply inside_delete.
  - by apply inside_move.
  - by apply inside_copy.
  - by apply inside_editor.
  - by apply inside_download.
Qed.

(** C33: A deletion is only asked for what the server described: the writer may
    delete, the command is well formed and names one target, there is something
    to delete, every item of the question is the server's answer for its path,
    and folders need the recursive flag. *)
Theorem deletion_is_checked cmd tr o q r :
  traces (_handleWorkspaceDeleteCommand cwd can_write denied locale_le malformed cmd) tr o → EAsk q r ∈ tr →
  can_write "delete Files" = true
  ∧ (∃ c, _workspaceDeleteCommand cmd = Some c ∧ dc_invalid c = false ∧ nonempty (dc_target c) = true
          ∧ (Exists (λ i, is_folder_info i = true) (dq_infos q) → dc_recursive c = true))
  ∧ dq_infos q ≠ []
  ∧ ∀ info, info ∈ dq_infos q →
      ∃ path resp, EFetch (FileInfo path) (inr resp) ∈ tr ∧ rs_ok resp = true ∧ info = info_of path resp.
Proof.
  intros H Hq. destruct (delete_asked _ _ _ _ _ _ _ _ _ _ H Hq) as (Hw & Hn & t1 & t2 & infos & -> & H1 & H2 & Hq2).
  destruct (ask_asked _ _ _ _ _ _ _ H2 Hq2) as [Hi Hf]. destruct (delete_targets_infos _ _ _ _ _ _ H1) as [Hne Hin]. rewrite Hi.
  split; [done|]. split; [|split; [done|]].
  - unfold _workspaceDeleteTarget in Hn. destruct (_workspaceDeleteCommand cmd) as [c|]; [|done].
    exists c. destruct (dc_invalid c); [done|]. auto.
  - intros info (path & resp & He & Hok & ->)%Hin. exists path, resp. split; [|done]. apply elem_of_app. by left.
Qed.

(** Only a confirmed question deletes: no handler and no refusal deletes
    anything; a confirmation asks for the deletion of the items of its question
    in their order, stops at the first the server refuses, and always ends, with
    the status ok exactly when every item was deleted. *)
Theorem only_confirmed_deletions :
  (∀ enabled cmd base p tr o, handler enabled cmd base = Some p → traces p tr o → deletions tr = [])
  ∧ (∀ q tr o, traces (delete_declined q) tr o → deletions tr = [])
  ∧ ∀ q tr o, traces (delete_confirmed malformed q) tr o →
      o = Returned tt ∧ map fst (deletions tr) `prefix_of` map delete_path (dq_infos q)
      ∧ Forall (λ d, snd d = true) (removelast (deletions tr))
      ∧ (EAct (Status "ok") ∈ tr ↔ deletions tr = map (λ i, (delete_path i, true)) (dq_infos q)).
Proof.
  split; [|split].
  - intros enabled cmd base p tr o Hp Ht. apply deletions_quiet. cut (quiet p (λ _, True)).
    { intros Hw. by apply (wp_sound _ _ _ _ _ _ Hw Ht), Forall_true. }
    apply (handler_cases (λ p, quiet p (λ _, True)) _ _ _ _ Hp);
      auto using quiet_terminal, quiet_delete, quiet_move, quiet_copy, quiet_editor, quiet_download.
  - intros q tr o [-> _]%traces_acts. apply deletions_acts.
  - apply delete_confirmed_trace.
Qed.
End Theorems.

(** ** Running a program

    With fixed answers a program is a function: it always ends. *)

Record replies := Replies
  { on_ensure : jsstr + cache; on_fetch : request → jsstr + response; on_work : work → jsstr + jsval;
    on_ask : delete_question → option jsstr }.
Fixpoint play {A} (R : replies) (p : prog A) : list event * outcome A :=
  let and (e : event) (x : list event * outcome A) := (e :: fst x, snd x) in
  match p with
  | Ret a => ([], Returned a)
  | Throw m => ([], Raised m)
  | Ensure k => and (EEnsure (on_ensure R)) (play R (k (on_ensure R)))
  | Fetch r k => and (EFetch r (on_fetch R r)) (play R (k (on_fetch R r)))
  | Work w k => and (EWork w (on_work R w)) (play R (k (on_work R w)))
  | Ask q k => and (EAsk q (on_ask R q)) (play R (k (on_ask R q)))
  | Act a p => and (EAct a) (play R p)
  end.
Lemma play_traces {A} R (p : prog A) : traces p (fst (play R p)) (snd (play R p)).
Proof. induction p; cbn; constructor; auto. Qed.

(** *** Examples *)

(** A workspace with the folder [old] and the files [a.txt] and [old/b.txt]. *)
Definition example_info (path : jsstr) : response :=
  Response true (num_of_Z 200)
    (Some (VObj [(js "path", VStr path); (js "kind", vstr (if path ==s js "old" then "directory" else "file"));
                 (js "file_count", VNum (num_of_Z 1))])).
Definition example_replies : replies :=
  {| on_ensure := inr (Cache [folder_item (js "old") (js "old")]
                             [folder_item (js "a.txt") (js "a.txt"); folder_item (js "b.txt") (js "old/b.txt")]);
     on_fetch := λ r, match r with
                      | FileInfo p => inr (example_info p)
                      | DeletePath p => inr (Response (negb (p ==s js "old")) (num_of_Z 409) (Some (VObj [])))
                      | _ => inl (js "offline") end;
     on_work := λ w, match w with ReadFile _ => inr (VObj [(js "text", vstr "one
two
")]) | _ => inr VNull end;
     on_ask := λ _, None |}.
Definition example_command (may : bool) (cwd cmd : string) : option (prog ()) :=
  file_command (js cwd) (λ _, may) (λ a, js "You may not " ++ js a) (λ _, true) (λ _ _, true) (λ _ _, inl []) VNull (λ m, js m)
    true (js cmd) (js cmd).
Definition played (may : bool) (cwd cmd : string) : option (list event * outcome ()) :=
  play example_replies <$> example_command may cwd cmd.
Definition example_deletion (cmd : string) : prog () :=
  _handleWorkspaceDeleteCommand (js "/") (λ _, true) (λ a, js "You may not " ++ js a) (λ _ _, true) (λ m, js m) (js cmd).
Definition texts (x : option (list event * outcome ())) : list jsstr :=
  match x with Some (tr, _) => omap (λ e, match e with EAct (Line t _ _) => Some t | _ => None end) tr | None => [] end.
Definition questions (x : option (list event * outcome ())) : list delete_question :=
  match x with Some (tr, _) => omap (λ e, match e with EAsk q _ => Some q | _ => None end) tr | None => [] end.

Example reading_a_file : texts (played true "/old" "cat b.txt") = [js "one"; js "two"].
Proof. vm_compute. reflexivity. Qed.
Example listing_a_folder : texts (played false "/" "ls") = [js "old/ a.txt"].
Proof. vm_compute. reflexivity. Qed.
Example leaving_the_workspace : texts (played true "/" "cat ../secret") = [js "[error] path escapes the session workspace"].
Proof. vm_compute. reflexivity. Qed.
Example folders_need_the_flag :
  texts (played true "/" "rm old") = [js "[error] old is a folder; use rm -r old or file delete -r old"].
Proof. vm_compute. reflexivity. Qed.
Example asking_for_a_folder :
  texts (played true "/" "rm -r old")
  = [js "delete session folder 'old'?"; js "warning: this will also delete 1 file in this folder."].
Proof. vm_compute. reflexivity. Qed.
Example read_only_removal : texts (played false "/" "rm a.txt") = [js "[error] You may not delete Files"].
Proof. vm_compute. reflexivity. Qed.
(** The long listing of a pattern knows nothing but the paths: every file has
    the size 0 and no date. *)
Example long_listing_of_a_pattern : texts (played true "/" "ls -l *.txt") = [js "a.txt  file  0 B"].
Proof. vm_compute. reflexivity. Qed.
(** A failed status request is described by the name of the service alone: the
    response is taken for an error, and has no message. *)
Example failed_status_request :
  (λ tr, omap (λ e, match e with EAct (Line t _ _) => Some t | _ => None end) tr)
    (fst (play {| on_ensure := inl []; on_fetch := λ _, inr (Response false (num_of_Z 401) None); on_work := λ _, inl []; on_ask := λ _, None |}
            (credential_status (λ m, js m))))
  = [js "[error] Unable to contact the unable to load access status right now. Please try again in a moment. If this keeps happening, contact the shell operator."].
Proof. vm_compute. reflexivity. Qed.

Lemma asks_found tr : existsb asks tr = true → ∃ q r, EAsk q r ∈ tr.
Proof.
  intros ([] & He & Ha)%existsb_exists; try done. eexists _, _. by apply list_elem_of_In.
Qed.
Lemma questions_asked q tr o r : EAsk q r ∈ tr → q ∈ questions (Some (tr, o)).
Proof. intros H. apply list_elem_of_omap. by exists (EAsk q r). Qed.

Lemma read_only_changes_nothing_witness :
  ∃ p, example_command false "/" "mkdir out" = Some p ∧ Forall (λ e, changing e = false) (fst (play example_replies p)).
Proof.
  eexists. split; [reflexivity|].
  eapply (read_only_changes_nothing (js "/") (λ _, false) _ (λ _, true) (λ _ _, true) (λ _ _, inl []) VNull (λ m, js m) true
            (js "mkdir out") (js "mkdir out")); [done|reflexivity|apply play_traces].
Defined.
Lemma example_answers_honest : Forall honest (fst (play example_replies (example_deletion "rm -r old"))).
Proof. apply (bool_decide_unpack _). vm_compute. exact I. Qed.
Lemma requests_stay_confined_witness :
  ∃ p, example_command true "/" "rm -r old" = Some p ∧ Forall stays_inside (fst (play example_replies p)).
Proof.
  exists (example_deletion "rm -r old"). split; [reflexivity|].
  eapply (requests_stay_confined (js "/") (λ _, true) (λ a, js "You may not " ++ js a) (λ _, true) (λ _ _, true) (λ _ _, inl []) VNull (λ m, js m) true
            (js "rm -r old") (js "rm -r old") _ _ (snd (play example_replies (example_deletion "rm -r old"))));
    [constructor|reflexivity|apply play_traces|].
  exact example_answers_honest.
Defined.
Lemma deletion_is_checked_witness :
  ∃ q, q ∈ questions (played true "/" "rm -r *") ∧ dq_infos q ≠ [].
Proof.
  assert (∃ q r, EAsk q r ∈ fst (play example_replies (example_deletion "rm -r *"))) as (q & r & Hq)
    by (apply asks_found; vm_compute; reflexivity).
  exists q. split; [by apply (questions_asked _ _ _ r)|].
  apply (deletion_is_checked (js "/") (λ _, true) (λ a, js "You may not " ++ js a) (λ _ _, true) (λ m, js m) (js "rm -r *") _ _ q r
           (play_traces example_replies _) Hq).
Defined.
(** Three items of which the server refuses the second. *)
Definition example_question : delete_question :=
  DeleteQuestion (map (λ p, info_of (js p) (example_info (js p))) ["a.txt"; "old"; "c.txt"]%string) true false.
Lemma only_confirmed_deletions_witness :
  deletions (fst (play example_replies (delete_confirmed (λ m, js m) example_question))) = [(js "a.txt", true); (js "old", false)]
  ∧ EAct (Status "ok") ∉ fst (play example_replies (delete_confirmed (λ m, js m) example_question)).
Proof.
  split; [vm_compute; reflexivity|]. intros Hok.
  destruct (only_confirmed_deletions (js "/") (λ _, true) (λ a, js a) (λ _, true) (λ _ _, true) (λ _ _, inl []) VNull (λ m, js m))
    as (_ & _ & H).
  destruct (H _ _ _ (play_traces example_replies (delete_confirmed _ example_question))) as (_ & _ & _ & Hiff).
  apply Hiff in Hok. vm_compute in Hok. discriminate.
Defined.

