(* ===== verification/BrowserCommands.v ===== *)
(** Commands that run in the browser, and the questions they ask
    (app/static/js/runner.js): the handlers of several tabs run at the same time
    as threads, collect their lines, ask for an answer in the tab they started
    in, filter or write their output, and hand their result over once. What a
    handler does, what is typed, what the server answers and which tab is active
    are events, in any order. *)

From S2P Require Import Prelude JsString JsNumber JsRegExp JsValue JsJson JsUri WorkspaceCore RunnerCore RunnerPersistence WorkspaceCommands WorkspaceFiles WorkspaceHandlers CommandLifecycle.

(** ** Definitions: the state *)

Inductive question_kind := QConfirm | QProbe | QText | QSecret.
Inductive callback := OnYes | OnNo | OnAnswer | OnCancel | OnComplete.
#[export] Instance question_kind_eq_dec : EqDecision question_kind.
Proof. solve_decision. Defined.
#[export] Instance callback_eq_dec : EqDecision callback.
Proof. solve_decision. Defined.
(** What a handler hands to [_setPendingTerminalConfirm]: its kind, and which
    functions it gives. *)
Record question := Question { qu_kind : question_kind; qu_callbacks : list callback }.
(** A question of a tab; the number is not in the code, it names the question. *)
Record pending := Pending { pe_number : nat; pe_exec : nat; pe_tabId : jsstr; pe_question : question }.

(** How a command was started: with its output collected, or streamed. *)
Inductive plan := Buffered (base : jsstr) (spec : parsed) (safe : jsstr) (echoAfterHandler : bool) | Streaming (safe : jsstr).
Record command := Command { cm_exec : execution; cm_plan : plan }.

(** What waits for the completion of a command. *)
Inductive waiter := NobodyWaits | ConfirmWaits (tab : jsstr) (track : bool) (onComplete : option nat).
(** Where a thread waits: in the handler of a command, in a callback of a
    question, for the file of a redirection, for the completion, in [onComplete]. *)
Inductive thread :=
  | TBase (x : nat)
  | TConfirm (x : nat) (tab : jsstr) (track : bool) (onComplete : option nat)
  | TWrite (x : nat) (safe : jsstr) (spec : parsed) (output : list props) (k : waiter)
  | TComplete (x : nat) (k : waiter)
  | TOnComplete (x : nat) (tab : jsstr) (track : bool).

(** What the page is told. *)
Inductive page_call :=
  | Echo (text tab : jsstr) | Show (x : nat) (line : command_line) (tab : jsstr) | Note (text cls tab : jsstr)
  | StatusLine (status : string) | TabStatus (tab : jsstr) (status : string) | TabCommand (tab command : jsstr)
  | EmptyInput (tab : jsstr) | NewCommand (cmd : jsstr) | Refocus
  | Handle (number : nat) (c : callback) (answer : option jsstr)
  | WriteFile (path text : jsstr) (append : bool)
  | Complete (x : nat) (collected : list command_line) (r : result).   (* with the lines collected so far *)

Record page := Page
  { pg_active : jsstr;                       (* the active tab *)
    pg_cache : cache; pg_cwd : jsstr → jsstr; pg_may_write : bool }.
Inductive prompt_mode := PromptNone | PromptConfirm | PromptSecret.
Record world := World
  { bw_sequence : nat;                       (* commandExecutionSequence *)
    bw_commands : list command;
    bw_pendings : list (jsstr * pending);    (* _pendingTerminalConfirms *)
    bw_settling : list jsstr;                (* _settlingTerminalConfirmTabs *)
    bw_threads : list (nat * thread);
    bw_next : nat;                           (* fresh numbers of threads and questions *)
    bw_page : page;
    bw_mode : prompt_mode;                   (* the mode of the composer *)
    bw_log : list page_call }.

Definition with_commands (f : list command → list command) (w : world) : world :=
  World (bw_sequence w) (f (bw_commands w)) (bw_pendings w) (bw_settling w) (bw_threads w) (bw_next w) (bw_page w) (bw_mode w) (bw_log w).
Definition with_pendings (f : list (jsstr * pending) → list (jsstr * pending)) (w : world) : world :=
  World (bw_sequence w) (bw_commands w) (f (bw_pendings w)) (bw_settling w) (bw_threads w) (bw_next w) (bw_page w) (bw_mode w) (bw_log w).
Definition with_settling (f : list jsstr → list jsstr) (w : world) : world :=
  World (bw_sequence w) (bw_commands w) (bw_pendings w) (f (bw_settling w)) (bw_threads w) (bw_next w) (bw_page w) (bw_mode w) (bw_log w).
Definition with_threads (f : list (nat * thread) → list (nat * thread)) (w : world) : world :=
  World (bw_sequence w) (bw_commands w) (bw_pendings w) (bw_settling w) (f (bw_threads w)) (bw_next w) (bw_page w) (bw_mode w) (bw_log w).
Definition with_next (w : world) : world :=
  World (bw_sequence w) (bw_commands w) (bw_pendings w) (bw_settling w) (bw_threads w) (S (bw_next w)) (bw_page w) (bw_mode w) (bw_log w).
Definition with_mode (m : prompt_mode) (w : world) : world :=
  World (bw_sequence w) (bw_commands w) (bw_pendings w) (bw_settling w) (bw_threads w) (bw_next w) (bw_page w) m (bw_log w).
Definition with_page (p : page) (w : world) : world :=
  World (bw_sequence w) (bw_commands w) (bw_pendings w) (bw_settling w) (bw_threads w) (bw_next w) p (bw_mode w) (bw_log w).
Definition tell (l : list page_call) (w : world) : world :=
  World (bw_sequence w) (bw_commands w) (bw_pendings w) (bw_settling w) (bw_threads w) (bw_next w) (bw_page w) (bw_mode w) (bw_log w ++ l).

Definition is_active (w : world) (tab : jsstr) : bool := tab ==s pg_active (bw_page w).
Definition spawn (t : thread) (w : world) : world := with_next (with_threads (λ l, l ++ [(bw_next w, t)]) w).
Definition resume (i : nat) (t : thread) (w : world) : world := with_threads (λ l, l ++ [(i, t)]) w.
Definition update_exec (x : nat) (f : execution → execution) (w : world) : world :=
  with_commands (alter (λ c, Command (f (cm_exec c)) (cm_plan c)) x) w.
Definition exec_of (w : world) (x : nat) : option execution := cm_exec <$> bw_commands w !! x.

(** ** Definitions: questions *)

Definition _pendingTerminalConfirmForTab (w : world) (tab : jsstr) : option pending :=
  snd <$> findb (λ p, fst p ==s tab) (bw_pendings w).
Definition mode_of (p : option pending) : prompt_mode :=
  match p with
  | Some p => if bool_decide (qu_kind (pe_question p) = QSecret) then PromptSecret else PromptConfirm
  | None => PromptNone
  end.
Definition syncPendingTerminalConfirmPromptMode (tab : jsstr) (w : world) : world :=
  with_mode (mode_of (_pendingTerminalConfirmForTab w tab)) w.
Definition sync_if_active (tab : jsstr) (w : world) : world :=
  if is_active w tab then syncPendingTerminalConfirmPromptMode tab w else w.
Definition tab_idle (tab : jsstr) (w : world) : world :=
  tell ((if is_active w tab then [StatusLine "idle"] else []) ++ [TabStatus tab "idle"]) w.

Definition render_lines (st : execution) : execution :=
  Execution (ex_command st) (ex_safeCommand st) (ex_tabId st) (ex_source st) (ex_completionKey st)
    (ex_persistence st) (ex_recordRecent st) (ex_status st) (ex_exitCode st) (map rendered (ex_lines st))
    (ex_effects st) (ex_pending st) (ex_delegated st) (ex_completed st).
Definition _publishPendingExecutionLines (x : nat) (w : world) : world :=
  match exec_of w x with
  | Some st =>
      update_exec x render_lines
        (tell (map (λ l, Show x l (ex_tabId st)) (filterb (λ l, negb (ln_rendered l)) (ex_lines st))) w)
  | None => w
  end.

(** [_setPendingTerminalConfirm(config)]; [None] when it throws. Every caller
    names the tab of its execution. *)
Definition _setPendingTerminalConfirm (q : question) (x : nat) (w : world) : option world :=
  match exec_of w x with
  | Some st =>
      let tab := ex_tabId st in
      if negb (nonempty tab) || bool_decide (is_Some (_pendingTerminalConfirmForTab w tab)) then None
      else
        let w := with_next (with_pendings (λ l, l ++ [(tab, Pending (bw_next w) x tab q)]) w) in
        let w := update_exec x (setPending (VBool true)) w in
        Some (sync_if_active tab (tab_idle tab (_publishPendingExecutionLines x w)))
  | None => None
  end.
(** [_setPendingTerminalConfirm(null, tabId)]. *)
Definition clear_pending (tab : jsstr) (w : world) : world :=
  sync_if_active tab (with_pendings (filterb (λ p, negb (fst p ==s tab))) w).

(** The start of [_runPendingTerminalConfirmHandler]. *)
Definition _runPendingTerminalConfirmHandler (c : option callback) (answer : option jsstr) (p : pending) (onComplete track : bool)
    (w : world) : world :=
  let tab := pe_tabId p in
  let w := if track then with_settling (λ l, if bool_decide (tab ∈ l) then l else l ++ [tab]) w else w in
  let w := match c with Some c => tell [Handle (pe_number p) c answer] w | None => w end in
  spawn (TConfirm (pe_exec p) tab track (if onComplete && bool_decide (OnComplete ∈ qu_callbacks (pe_question p))
                                         then Some (pe_number p) else None)) w.
Definition given_callback (p : pending) (c : callback) : option callback :=
  if bool_decide (c ∈ qu_callbacks (pe_question p)) then Some c else None.

Definition cancelPendingTerminalConfirm (tab : jsstr) (refocus : bool) (w : world) : world :=
  match _pendingTerminalConfirmForTab w tab with
  | None => w
  | Some p =>
      let cancelHandler := match given_callback p OnCancel with Some c => Some c | None => given_callback p OnNo end in
      let w := _runPendingTerminalConfirmHandler cancelHandler None p false false (clear_pending (pe_tabId p) w) in
      if refocus then tell [Refocus] w else w
  end.
Definition cancelAllPendingTerminalConfirms (refocus : bool) (w : world) : world :=
  let tabIds := map fst (bw_pendings w) in
  let w := fold_left (λ w tab, cancelPendingTerminalConfirm tab false w) tabIds w in
  if refocus && negb (bool_decide (tabIds = [])) then tell [Refocus] w else w.
Definition _cancelPendingTerminalConfirmsByKind (k : question_kind) (w : world) : world :=
  let tabIds := map fst (filterb (λ p, bool_decide (qu_kind (pe_question (snd p)) = k)) (bw_pendings w)) in
  fold_left (λ w tab, cancelPendingTerminalConfirm tab false w) tabIds w.

(** ** Definitions: what is typed *)

(** The start of [submitCommand], up to where the text is a new command. *)
Definition submit (rawCmd : jsstr) (w : world) : world :=
  let cmd := trim rawCmd in
  let tab := pg_active (bw_page w) in
  if bool_decide (tab ∈ bw_settling w)
  then tell [Note (js "[pending] The confirmed action is still starting.") (js "notice") tab] w
  else if negb (nonempty cmd) then tell [EmptyInput tab] w
  else match _pendingTerminalConfirmForTab w tab with
  | None => tell [NewCommand cmd] w
  | Some p =>
      let kind := qu_kind (pe_question p) in
      let w := if bool_decide (kind = QSecret) then w else tell [Echo cmd (pe_tabId p)] w in
      if bool_decide (kind = QText) || bool_decide (kind = QSecret)
      then _runPendingTerminalConfirmHandler (given_callback p OnAnswer) (Some cmd) p true true (clear_pending (pe_tabId p) w)
      else
        let answer := lower (trim cmd) in
        if negb (one_of ["yes"; "y"; "no"; "n"]%string answer)
        then tell [Note (js "please answer yes or no") (js "notice") (pe_tabId p)] w
        else if one_of ["yes"; "y"]%string answer
        then _runPendingTerminalConfirmHandler (given_callback p OnYes) None p true true (clear_pending (pe_tabId p) w)
        else _runPendingTerminalConfirmHandler (given_callback p OnNo) None p false false (clear_pending (pe_tabId p) w)
  end.

(** ** Definitions: the end of a command *)

Section Commands.
(** The browser's order of names, its regular expressions, the configuration,
    and what is said when files may not be written. *)
Context (locale_le : jsstr → jsstr → bool) (new_RegExp : jsstr → bool → jsstr + (jsstr → bool)) (app_config : jsval)
        (denied : jsstr).

(** [_setPendingTerminalConfirm] and the completion read the execution of a
    command by its place in the list of all commands. *)
Definition safe_or (st : execution) (fallback : jsstr) : jsstr := str_or (ex_safeCommand st) fallback.
Definition line_props (l : command_line) : props := props_of (line_value l).
Definition text_of (l : props) : jsstr :=
  match get (VObj l) (js "text") with VUndef => to_string (VObj l) | v => to_string v end.
Definition sink_of (spec : parsed) : option sink := match spec with Parsed p => pf_sink p | _ => None end.
(** The lines a command shows: filtered, when it has filters. *)
Definition output_lines (pg : page) (tab base : jsstr) (spec : parsed) (captured : list props) : list props :=
  match spec with
  | Parsed _ =>
      filtered locale_le new_RegExp app_config spec
        (_workspacePipeInputLinesForCommand (pg_cwd pg tab) locale_le (pg_cache pg) base captured)
  | _ => captured
  end.
Definition sink_error (m : jsstr) : props :=
  [(js "text", VStr (js "[error] output redirection failed: " ++ str_or m (js "workspace write failed"))); (js "cls", vstr "exit-fail")].
Definition suppresses (spec : parsed) : bool :=
  match sink_of spec with Some s => match snk_kind s with SinkTee => false | _ => true end | None => false end.
Definition persisted_lines (spec : parsed) (output errors : list props) : list props :=
  map (λ l, set_prop (js "rendered") (VBool (is_true (get (VObj l) (js "rendered")) || suppresses spec)) (spread [] l)) output
  ++ map (λ l, set_prop (js "rendered") (VBool (is_true (get (VObj l) (js "rendered")))) (spread [] l)) errors.
(** [execution.state.recordRecent && execution.state.status !== 'fail']. *)
Definition recent_unless_failed (st : execution) : jsval :=
  if truthy (ex_recordRecent st) then VBool (negb (bool_decide (ex_status st = Fail))) else ex_recordRecent st.
Definition fail_with (st : execution) : execution := setRecordRecent (VBool false) (setStatus (js "fail") VUndef st).

(** [toResult], [markCompleted], and the hand-over. *)
Definition hand_over (x : nat) (overrides : execution → props) (i : nat) (k : waiter) (w : world) : world :=
  match exec_of w x with
  | Some st =>
      resume i (TComplete x k) (tell [Complete x (ex_lines st) (toResult (overrides st) st)] (update_exec x markCompleted w))
  | None => w
  end.
Definition finish_completion (x : nat) (safe : jsstr) (spec : parsed) (output errors : list props) (i : nat) (k : waiter) (w : world) : world :=
  hand_over x
    (λ st, [(js "command", VStr safe); (js "safeCommand", VStr (safe_or st safe));
            (js "lines", VArr (map VObj (persisted_lines spec output errors)));
            (js "recordRecent", recent_unless_failed st)]) i k w.
Definition sink_failed (x : nat) (safe : jsstr) (spec : parsed) (output : list props) (m : jsstr) (i : nat) (k : waiter) (w : world) : world :=
  finish_completion x safe spec output [sink_error m] i k (update_exec x fail_with w).

Definition _completeBufferedBrowserCommand (x : nat) (base : jsstr) (spec : parsed) (safe : jsstr) (i : nat) (k : waiter) (w : world) : world :=
  match exec_of w x with
  | None => w
  | Some st =>
      let pg := bw_page w in let tab := ex_tabId st in
      let output := output_lines pg tab base spec (map line_props (ex_lines st)) in
      match sink_of spec with
      | None => finish_completion x safe spec output [] i k w
      | Some s =>
          if negb (pg_may_write pg) then sink_failed x safe spec output denied i k w
          else match _resolveWorkspaceCommandPath (snk_path s) (pg_cwd pg tab) false with
               | inl e => sink_failed x safe spec output (path_message e) i k w
               | inr destination =>
                   resume i (TWrite x safe spec output k)
                     (tell [WriteFile destination (sink_text (map text_of output))
                              (match snk_kind s with SinkAppend => true | _ => false end)] w)
               end
      end
  end.

(** What follows an awaited completion. *)
Definition settle (tab : jsstr) (track : bool) (w : world) : world :=
  if track then with_settling (filterb (λ t, negb (t ==s tab))) w else w.
Definition uncaught (m : jsstr) (tab : jsstr) (w : world) : world :=
  tell [Note (js "[error] " ++ str_or m (js "network error")) (js "exit-fail") tab; StatusLine "fail"] w.
Definition after_completion (x : nat) (k : waiter) (r : option jsstr) (i : nat) (w : world) : world :=
  match k with
  | NobodyWaits => w
  | ConfirmWaits tab track onComplete =>
      match r, onComplete with
      | None, Some n => resume i (TOnComplete x tab track) (tell [Handle n OnComplete None] w)
      | None, None => settle tab track w
      | Some m, _ => uncaught m tab (settle tab track w)
      end
  end.
(** [execution.completePending()]: nothing once the command is completed. *)
Definition completePending (x : nat) (i : nat) (k : waiter) (w : world) : world :=
  match bw_commands w !! x with
  | Some (Command st (Buffered base spec safe _)) =>
      if ex_completed st then after_completion x k None i w
      else _completeBufferedBrowserCommand x base spec safe i k w
  | _ => after_completion x k None i w
  end.

(** ** Definitions: the threads *)

(** The calls a handler makes on its execution. [captureRenderedLine], which
    only the tour makes, is left out. *)
Inductive act :=
  | ALine (text cls metadata : jsval) | AStatus (name : jsstr) (exitCode : jsval) | ARecent (v : jsval)
  | ASafe (v : jsval) | APersistence (v : jsstr) | AEffect (name v : jsval) | ADelegate
  | AAsk (q : question).
Definition streams_of (p : plan) : streams := match p with Buffered _ _ _ _ => Streams false true | Streaming _ => Streams true false end.
Definition append_line (x : nat) (text cls metadata : jsval) (w : world) : world :=
  match bw_commands w !! x with
  | Some c =>
      let '(shown, st) := appendLine (streams_of (cm_plan c)) text cls metadata (cm_exec c) in
      update_exec x (λ _, st) (tell (map (λ l, Show x l (ex_tabId (cm_exec c))) shown) w)
  | None => w
  end.
Definition perform (x : nat) (a : act) (w : world) : world :=
  match a with
  | ALine text cls metadata => append_line x text cls metadata w
  | AStatus name exitCode => update_exec x (setStatus name exitCode) w
  | ARecent v => update_exec x (setRecordRecent v) w
  | ASafe v => update_exec x (setSafeCommand v) w
  | APersistence v => update_exec x (setPersistence v) w
  | AEffect name v => update_exec x (requestEffect name v) w
  | ADelegate => update_exec x delegate w
  | AAsk q => default w (_setPendingTerminalConfirm q x w)
  end.
(** A handler that throws. *)
Definition handler_failed (x : nat) (m : jsstr) (fallback : string) (w : world) : world :=
  update_exec x fail_with (append_line x (VStr (js "[error] " ++ str_or m (js fallback))) (vstr "exit-fail") VNull w).
Definition failed_with (x : nat) (r : option jsstr) (fallback : string) (w : world) : world :=
  match r with Some m => handler_failed x m fallback w | None => w end.

(** The start of a command in the active tab. *)
Definition start_command (p : plan) (cmd : jsstr) (safe : jsstr) (calls : list page_call) (w : world) : world :=
  let tab := pg_active (bw_page w) in
  let '(sequence, st) := createCommandExecution (bw_sequence w) (VStr cmd) (VStr safe) (VStr tab) VUndef (js "client") (VBool false) in
  let x := length (bw_commands w) in
  let w := World sequence (bw_commands w ++ [Command st p]) (bw_pendings w) (bw_settling w) (bw_threads w) (bw_next w) (bw_page w)
             (bw_mode w) (bw_log w) in
  spawn (TBase x) (tell ([TabCommand tab safe; StatusLine "running"; TabStatus tab "running"] ++ calls) w).
Definition first_word_is (name : string) (cmd : jsstr) : bool := lower (first_word cmd) ==s js name.
Definition _runBufferedBrowserCommandWithOptionalPipe (cmd : jsstr) (w : world) : world :=
  let spec := parseSyntheticPostFilterCommand cmd in
  let base := match spec with Parsed p => str_or (pf_baseCommand p) cmd | _ => cmd end in
  let safe := historySafeCommand (VStr cmd) in
  let echoAfterHandler := first_word_is "workflow" base in
  start_command (Buffered base spec safe echoAfterHandler) cmd safe
    (if echoAfterHandler then [] else [Echo safe (pg_active (bw_page w))]) w.
Definition _runStreamingBrowserCommand (cmd : jsstr) (w : world) : world :=
  let safe := historySafeCommand (VStr cmd) in
  start_command (Streaming safe) cmd safe [Echo safe (pg_active (bw_page w))] w.

Definition base_returns (x : nat) (r : option jsstr) (i : nat) (w : world) : world :=
  match cm_plan <$> bw_commands w !! x with
  | None => w
  | Some (Buffered base spec safe echoAfterHandler) =>
      let w := failed_with x r "browser command failed" w in
      match exec_of w x with
      | None => w
      | Some st =>
          let tab := ex_tabId st in let shown := safe_or st safe in
          let w := tell (TabCommand tab shown :: (if echoAfterHandler then [Echo shown tab] else [])) w in
          if ex_delegated st then update_exec x markCompleted (_publishPendingExecutionLines x w)
          else if ex_pending st then tab_idle tab (_publishPendingExecutionLines x w)
          else completePending x i NobodyWaits w
      end
  | Some (Streaming safe) =>
      hand_over x (λ st, [(js "safeCommand", VStr safe); (js "recordRecent", recent_unless_failed st)]) i NobodyWaits
        (failed_with x r "browser command failed" w)
  end.
Definition confirm_returns (x : nat) (tab : jsstr) (track : bool) (onComplete : option nat) (r : option jsstr) (i : nat) (w : world) : world :=
  let w := failed_with x r "network error" w in
  if bool_decide (pe_exec <$> _pendingTerminalConfirmForTab w tab = Some x)
  then settle tab track (tell [TabStatus tab "idle"] (_publishPendingExecutionLines x w))
  else completePending x i (ConfirmWaits tab track (match r with Some _ => None | None => onComplete end))
         (update_exec x (setPending (VBool false)) w).
(** A thread goes on after what it waited for: [None], or the message of an
    error. *)
Definition returns (i : nat) (t : thread) (r : option jsstr) (w : world) : world :=
  let w := with_threads (filterb (λ p, negb (Nat.eqb (fst p) i))) w in
  match t with
  | TBase x => base_returns x r i w
  | TConfirm x tab track onComplete => confirm_returns x tab track onComplete r i w
  | TWrite x safe spec output k =>
      match r with
      | None => finish_completion x safe spec output [] i k (update_exec x (requestEffect (vstr "refreshWorkspace") (VBool true)) w)
      | Some m => sink_failed x safe spec output m i k w
      end
  | TComplete x k => after_completion x k r i w
  | TOnComplete x tab track => match r with None => settle tab track w | Some m => uncaught m tab (settle tab track w) end
  end.

(** ** Definitions: what happens *)

Inductive event :=
  | Submit (rawCmd : jsstr)
  | Start (streaming : bool) (cmd : jsstr)
  | Does (i : nat) (a : act) | Returns (i : nat) (r : option jsstr)
  | Cancel (tab : jsstr) (refocus : bool) | CancelAll (refocus : bool) | CancelKind (k : question_kind)
  | PageChanges (p : page).
(** The command a thread acts on, while it runs a handler. *)
Definition acting (t : thread) : option nat :=
  match t with TBase x | TConfirm x _ _ _ | TOnComplete x _ _ => Some x | _ => None end.
Definition thread_at (w : world) (i : nat) : option thread := snd <$> findb (λ p, Nat.eqb (fst p) i) (bw_threads w).
(** What an event does; [None] when it cannot happen. *)
Definition happen (e : event) (w : world) : option world :=
  match e with
  | Submit rawCmd => Some (submit rawCmd w)
  | Start streaming cmd => Some ((if streaming then _runStreamingBrowserCommand else _runBufferedBrowserCommandWithOptionalPipe) cmd w)
  | Does i a => match thread_at w i with
                | Some t => match acting t with Some x => Some (perform x a w) | None => None end
                | None => None end
  | Returns i r => match thread_at w i with Some t => Some (returns i t r w) | None => None end
  | Cancel tab refocus => Some (cancelPendingTerminalConfirm tab refocus w)
  | CancelAll refocus => Some (cancelAllPendingTerminalConfirms refocus w)
  | CancelKind k => Some (_cancelPendingTerminalConfirmsByKind k w)
  | PageChanges p => Some (syncPendingTerminalConfirmPromptMode (pg_active p) (with_page p w))
  end.
Definition start_world (p : page) : world := World 0 [] [] [] [] 0 p PromptNone [].
Inductive reachable : world → Prop :=
  | reach_start p : reachable (start_world p)
  | reach_step e w w' : reachable w → happen e w = Some w' → reachable w'.
End Commands.

(** ** Lemmas: the state *)

(** The tab whose settling mark a thread holds. *)
Definition waiter_tracks (k : waiter) : list jsstr := match k with ConfirmWaits tab true _ => [tab] | _ => [] end.
Definition tracks (t : thread) : list jsstr :=
  match t with
  | TConfirm _ tab true _ | TOnComplete _ tab true => [tab]
  | TWrite _ _ _ _ k | TComplete _ k => waiter_tracks k
  | _ => []
  end.
Definition thread_exec (t : thread) : nat :=
  match t with TBase x | TConfirm x _ _ _ | TWrite x _ _ _ _ | TComplete x _ | TOnComplete x _ _ => x end.
Definition thread_tab (t : thread) : option jsstr := match t with TConfirm _ tab _ _ => Some tab | _ => None end.
(** The questions that were answered or canceled, in order. *)
Definition handled (log : list page_call) : list nat :=
  omap (λ c, match c with Handle n OnComplete _ => None | Handle n _ _ => Some n | _ => None end) log.

Definition thread_ok (w : world) (t : thread) : Prop :=
  ∃ st, exec_of w (thread_exec t) = Some st ∧ ∀ tab, thread_tab t = Some tab → ex_tabId st = tab.
Definition pending_ok (w : world) (p : jsstr * pending) : Prop :=
  pe_tabId (snd p) = fst p ∧ fst p ≠ [] ∧ (pe_number (snd p) < bw_next w)%nat ∧ pe_number (snd p) ∉ handled (bw_log w)
  ∧ ∃ st, exec_of w (pe_exec (snd p)) = Some st ∧ ex_tabId st = fst p ∧ ex_pending st = true.

(** The marks of [o] are held by the thread that is running. *)
Record ok (o : list jsstr) (w : world) : Prop := Ok_
  { ok_ids : NoDup (map fst (bw_threads w));
    ok_fresh : Forall (λ i, i < bw_next w)%nat (map fst (bw_threads w));
    ok_threads : Forall (λ t, thread_ok w (snd t)) (bw_threads w);
    ok_marks : NoDup (bw_settling w);
    ok_settling : bw_settling w ≡ₚ o ++ flat_map (λ t, tracks (snd t)) (bw_threads w);
    ok_tabs : NoDup (map fst (bw_pendings w));
    ok_pendings : Forall (pending_ok w) (bw_pendings w);
    ok_numbers : NoDup (map (λ p, pe_number (snd p)) (bw_pendings w));
    ok_handled : Forall (λ n, n < bw_next w)%nat (handled (bw_log w));
    ok_once : NoDup (handled (bw_log w));
    ok_mode : bw_mode w = mode_of (_pendingTerminalConfirmForTab w (pg_active (bw_page w))) }.

(** *** Steps that only touch commands and the log *)

Definition exec_face (st : execution) : jsstr * bool := (ex_tabId st, ex_pending st).
Record frame (w w' : world) : Prop := Frame
  { fr_pendings : bw_pendings w' = bw_pendings w; fr_settling : bw_settling w' = bw_settling w;
    fr_threads : bw_threads w' = bw_threads w; fr_next : bw_next w' = bw_next w; fr_page : bw_page w' = bw_page w;
    fr_mode : bw_mode w' = bw_mode w; fr_handled : handled (bw_log w') = handled (bw_log w);
    fr_exec : ∀ x, exec_face <$> exec_of w' x = exec_face <$> exec_of w x }.

Lemma frame_refl w : frame w w.
Proof. by constructor. Qed.
Lemma frame_trans w1 w2 w3 : frame w1 w2 → frame w2 w3 → frame w1 w3.
Proof. intros [] []. constructor; etrans; eauto. Qed.
Lemma handled_app l l' : handled (l ++ l') = handled l ++ handled l'.
Proof. apply omap_app. Qed.
#[local] Arguments handled : simpl never.
Lemma frame_tell l w : handled l = [] → frame w (tell l w).
Proof. intros H. constructor; try done. cbn. by rewrite handled_app, H, app_nil_r. Qed.
Lemma exec_of_update w x f y : exec_of (update_exec x f w) y = if bool_decide (x = y) then f <$> exec_of w y else exec_of w y.
Proof.
  unfold exec_of, update_exec. cbn. case_bool_decide as E.
  - subst. rewrite list_lookup_alter_eq. by destruct (bw_commands w !! y).
  - by rewrite list_lookup_alter_ne.
Qed.
Lemma frame_update x f w : (∀ st, exec_face (f st) = exec_face st) → frame w (update_exec x f w).
Proof.
  intros H. constructor; try done. intros y. rewrite exec_of_update. case_bool_decide; [|done].
  destruct (exec_of w y); cbn; [by rewrite H|done].
Qed.
Lemma face_Some w w' x st : frame w w' → exec_of w x = Some st → ∃ st', exec_of w' x = Some st' ∧ exec_face st' = exec_face st.
Proof.
  intros F H. pose proof (fr_exec _ _ F x) as E. rewrite H in E. destruct (exec_of w' x) as [st'|]; [|done].
  exists st'. split; [done|]. apply (inj Some), E.
Qed.
Lemma ok_frame o w w' : frame w w' → ok o w → ok o w'.
Proof.
  intros F H. pose proof F as []. destruct H. constructor; rewrite ?fr_threads0, ?fr_next0, ?fr_settling0, ?fr_pendings0, ?fr_handled0; try done.
  - eapply Forall_impl; [exact ok_threads0|]. intros [i t] (st & Hs & Ht). destruct (face_Some _ _ _ _ F Hs) as (st' & Hs' & [= Hf _]).
    exists st'. split; [done|]. intros tab Htab. rewrite Hf. auto.
  - eapply Forall_impl; [exact ok_pendings0|]. intros [t p] (H1 & H2 & H3 & H4 & st & Hs & Ht & Hp).
    destruct (face_Some _ _ _ _ F Hs) as (st' & Hs' & [= Hf Hg]). unfold pending_ok. rewrite fr_next0, fr_handled0.
    split_and!; try done. exists st'. by rewrite Hf, Hg.
  - rewrite fr_mode0, fr_page0, ok_mode0. unfold _pendingTerminalConfirmForTab. by rewrite fr_pendings0.
Qed.

Lemma publish_frame x w : frame w (_publishPendingExecutionLines x w).
Proof.
  unfold _publishPendingExecutionLines. destruct (exec_of w x) as [st|]; [|apply frame_refl].
  eapply frame_trans; [apply frame_tell|by apply frame_update]. unfold handled.
  induction (filterb _ (ex_lines st)); [done|]. cbn. done.
Qed.
Lemma appendLine_face s text cls metadata st : exec_face (snd (appendLine s text cls metadata st)) = exec_face st.
Proof. unfold appendLine. cbv zeta. by destruct (_ || _). Qed.
Lemma append_line_frame x text cls metadata w : frame w (append_line x text cls metadata w).
Proof.
  unfold append_line. destruct (bw_commands w !! x) as [c|] eqn:E; [|apply frame_refl].
  pose proof (appendLine_face (streams_of (cm_plan c)) text cls metadata (cm_exec c)) as Hf.
  destruct (appendLine _ _ _ _ _) as [shown st]. cbn [snd] in Hf.
  eapply frame_trans; [apply (frame_tell (map (λ l, Show x l (ex_tabId (cm_exec c))) shown))|].
  { unfold handled. induction shown; [done|]. cbn. done. }
  constructor; try done. intros y. rewrite exec_of_update. case_bool_decide as Ex; [|done]. subst y.
  change (exec_of (tell _ w) x) with (exec_of w x). unfold exec_of. rewrite E. cbn. by rewrite Hf.
Qed.
Lemma failed_frame x r fallback w : frame w (failed_with x r fallback w).
Proof.
  destruct r as [m|]; [|apply frame_refl]. cbn. unfold handler_failed. eapply frame_trans; [apply append_line_frame|].
  by apply frame_update.
Qed.
Lemma perform_frame x a w : (∀ q, a ≠ AAsk q) → frame w (perform x a w).
Proof.
  intros H. destruct a; cbn [perform]; try (by apply frame_update); [apply append_line_frame|by destruct (H q)].
Qed.

(** *** Threads *)

Definition free (i : nat) (w : world) : Prop := i ∉ map fst (bw_threads w) ∧ (i < bw_next w)%nat.
Lemma free_frame i w w' : frame w w' → free i w → free i w'.
Proof. intros [] [? ?]. split; [by rewrite fr_threads0|by rewrite fr_next0]. Qed.

Lemma NoDup_map_filterb {A B} (f : A → B) p l : NoDup (map f l) → NoDup (map f (filterb p l)).
Proof.
  induction l as [|x l IH]; cbn; [done|]. intros [Hx Hl]%NoDup_cons. destruct (p x); [|auto]. cbn. apply NoDup_cons. split; [|auto].
  intros (y & Hy & Hin)%list_elem_of_In%in_map_iff. apply Hx. rewrite <-Hy. apply list_elem_of_In, in_map.
  apply list_elem_of_In in Hin. by apply elem_of_filterb in Hin as [_ Hin%list_elem_of_In].
Qed.
Lemma in_keys {A B} (k : A) (v : B) l : (k, v) ∈ l → k ∈ map fst l.
Proof. intros H%list_elem_of_In. apply list_elem_of_In. exact (in_map fst _ _ H). Qed.
Lemma thread_at_In w i t : thread_at w i = Some t → (i, t) ∈ bw_threads w.
Proof.
  unfold thread_at. destruct (findb _ _) as [[j t']|] eqn:E; [|done]. intros [= <-].
  apply findb_Some in E as [Hin Hj]. apply Nat.eqb_eq in Hj. cbn in Hj. by subst.
Qed.
Lemma remove_marks l i t :
  NoDup (map fst l) → (i, t) ∈ l →
  flat_map (λ t, tracks (snd t)) l ≡ₚ tracks t ++ flat_map (λ t : nat * thread, tracks (snd t)) (filterb (λ p, negb (Nat.eqb (fst p) i)) l).
Proof.
  induction l as [|[j u] l IH]; intros Hnd Hin; [by apply not_elem_of_nil in Hin|].
  cbn [map fst] in Hnd. apply NoDup_cons in Hnd as [Hj Hnd]. apply elem_of_cons in Hin as [[= <- <-]|Hin].
  - cbn [filterb fst flat_map snd]. rewrite Nat.eqb_refl. cbn [negb]. f_equiv.
    rewrite (filterb_all (λ p : nat * thread, negb (Nat.eqb (fst p) i))); [done|].
    intros [k v] Hk. apply negb_true_iff, Nat.eqb_neq. cbn. intros ->. by apply Hj, (in_keys _ v).
  - assert (j ≠ i) as Hne. { intros ->. by apply Hj, (in_keys _ t). }
    cbn [filterb fst flat_map snd]. apply Nat.eqb_neq in Hne. rewrite Hne. cbn [negb flat_map snd]. rewrite (IH Hnd Hin).
    rewrite !app_assoc. f_equiv. apply Permutation_app_comm.
Qed.
Lemma ok_remove w i t :
  ok [] w → thread_at w i = Some t →
  let w' := with_threads (filterb (λ p, negb (Nat.eqb (fst p) i))) w in ok (tracks t) w' ∧ free i w' ∧ thread_ok w' t.
Proof.
  intros [] Ht%thread_at_In. cbn.
  assert (Forall (λ p, p ∈ bw_threads w) (filterb (λ p, negb (Nat.eqb (fst p) i)) (bw_threads w))) as Hsub.
  { apply Forall_forall. by intros p [_ Hp]%elem_of_filterb. }
  split; [|split].
  - constructor; cbn; try done.
    + by apply NoDup_map_filterb.
    + apply Forall_forall. intros j Hj. apply list_elem_of_In, in_map_iff in Hj as (p & <- & Hp).
      eapply Forall_forall in ok_fresh0; [exact ok_fresh0|]. apply list_elem_of_In, in_map, list_elem_of_In.
      eapply Forall_forall in Hsub; [exact Hsub|]. by apply list_elem_of_In.
    + apply Forall_forall. intros p Hp. eapply Forall_forall in Hsub; [|exact Hp].
      by eapply Forall_forall in ok_threads0.
    + rewrite ok_settling0. cbn. by apply remove_marks.
  - split; cbn.
    + intros Hi. apply list_elem_of_In, in_map_iff in Hi as (p & Hp & Hin). apply list_elem_of_In, elem_of_filterb in Hin as [Hn _].
      rewrite Hp, Nat.eqb_refl in Hn. done.
    + eapply Forall_forall in ok_fresh0; [exact ok_fresh0|]. by apply (in_keys _ t).
  - eapply Forall_forall in ok_threads0; [|exact Ht]. exact ok_threads0.
Qed.

Lemma ok_resume i t w : ok (tracks t) w → free i w → thread_ok w t → ok [] (resume i t w).
Proof.
  intros [] [Hi Hlt] Ht. constructor; cbn; try done.
  - rewrite map_app. cbn. apply NoDup_app. split_and!; [done| |apply NoDup_singleton].
    intros j Hj Hx. apply list_elem_of_singleton in Hx as ->. done.
  - rewrite map_app. apply Forall_app. split; [done|]. by repeat constructor.
  - apply Forall_app. split; [done|]. by repeat constructor.
  - rewrite ok_settling0, flat_map_app. cbn. rewrite app_nil_r. apply Permutation_app_comm.
Qed.
Lemma settle_frame w : settle [] false w = w.
Proof. done. Qed.
Lemma ok_settle tab (track : bool) w : ok (if track then [tab] else []) w → ok [] (settle tab track w).
Proof.
  destruct track; [|done]. intros []. constructor; cbn; try done.
  - by apply NoDup_filterb.
  - rewrite ok_settling0 in ok_marks0. rewrite (filterb_Permutation _ _ _ ok_settling0).
    cbn. rewrite (bool_decide_true (tab = tab) eq_refl). cbn. rewrite filterb_all; [done|].
    intros t Ht. apply negb_true_iff, bool_decide_eq_false. intros ->. cbn in ok_marks0. by apply NoDup_cons in ok_marks0 as [? _].
Qed.
(** A thread that hands a mark on, or gives it back. *)
Definition owes (k : waiter) (x i : nat) (w : world) : Prop := ok (waiter_tracks k) w ∧ free i w ∧ is_Some (exec_of w x).
Lemma owes_frame k x i w w' : frame w w' → owes k x i w → owes k x i w'.
Proof.
  intros F (H1 & H2 & st & H3). split; [by apply (ok_frame _ w)|]. split; [by apply (free_frame _ w)|].
  destruct (face_Some _ _ _ _ F H3) as (st' & Hs & _). eauto.
Qed.
Lemma owes_resume t x i w : owes (match t with TWrite _ _ _ _ k | TComplete _ k => k | _ => NobodyWaits end) x i w →
  match t with TWrite y _ _ _ _ | TComplete y _ => y = x | _ => False end → ok [] (resume i t w).
Proof. intros (H1 & H2 & st & H3). destruct t; try done; intros ->; (apply ok_resume; [done|done|by exists st]). Qed.
Lemma hand_over_ok x f i k w : owes k x i w → ok [] (hand_over x f i k w).
Proof.
  intros H. pose proof H as (_ & _ & st & Hs). unfold hand_over. rewrite Hs. apply (owes_resume _ x); [|done].
  eapply owes_frame; [|exact H]. eapply frame_trans; [by apply (frame_update x markCompleted)|by apply frame_tell].
Qed.
Lemma finish_completion_ok x safe spec output errors i k w : owes k x i w → ok [] (finish_completion x safe spec output errors i k w).
Proof. apply hand_over_ok. Qed.
Lemma sink_failed_ok x safe spec output m i k w : owes k x i w → ok [] (sink_failed x safe spec output m i k w).
Proof. intros H. apply finish_completion_ok. eapply owes_frame; [|exact H]. by apply frame_update. Qed.
Lemma after_completion_ok x k r i w : owes k x i w → ok [] (after_completion x k r i w).
Proof.
  intros (H1 & H2 & st & H3). destruct k as [|tab track [n|]]; cbn [after_completion waiter_tracks] in *; [done|..].
  - destruct r as [m|].
    + apply (ok_frame _ (settle tab track w)); [by apply frame_tell|apply ok_settle]. by destruct track.
    + apply ok_resume.
      * apply (ok_frame _ w); [by apply frame_tell|]. by destruct track.
      * exact H2.
      * by exists st.
  - destruct r as [m|]; [apply (ok_frame _ (settle tab track w)); [by apply frame_tell|]|]; apply ok_settle; by destruct track.
Qed.

Section Steps.
Context (locale_le : jsstr → jsstr → bool) (new_RegExp : jsstr → bool → jsstr + (jsstr → bool)) (app_config : jsval)
        (denied : jsstr).
Lemma completeBuffered_ok x base spec safe i k w :
  owes k x i w → ok [] (_completeBufferedBrowserCommand locale_le new_RegExp app_config denied x base spec safe i k w).
Proof.
  intros H. pose proof H as (_ & _ & st & Hs). unfold _completeBufferedBrowserCommand. rewrite Hs. cbv zeta.
  destruct (sink_of spec) as [s|]; [|by apply finish_completion_ok]. destruct (negb (pg_may_write _)); [by apply sink_failed_ok|].
  destruct (_resolveWorkspaceCommandPath _ _ _); [by apply sink_failed_ok|]. apply (owes_resume _ x); [|done].
  eapply owes_frame; [|exact H]. by apply frame_tell.
Qed.
Lemma completePending_ok x i k w :
  owes k x i w → ok [] (completePending locale_le new_RegExp app_config denied x i k w).
Proof.
  intros H. unfold completePending. destruct (bw_commands w !! x) as [[st [base spec safe echo|safe]]|]; try by apply after_completion_ok.
  destruct (ex_completed st); [by apply after_completion_ok|by apply completeBuffered_ok].
Qed.
End Steps.

(** *** Questions *)

Lemma pending_In w tab p : _pendingTerminalConfirmForTab w tab = Some p → (tab, p) ∈ bw_pendings w.
Proof.
  unfold _pendingTerminalConfirmForTab. destruct (findb _ _) as [[t q]|] eqn:E; [|done]. intros [= <-].
  apply findb_Some in E as [Hin Ht%bool_decide_eq_true]. cbn in Ht. by subst.
Qed.
Lemma pending_found w tab p : NoDup (map fst (bw_pendings w)) → (tab, p) ∈ bw_pendings w → _pendingTerminalConfirmForTab w tab = Some p.
Proof.
  unfold _pendingTerminalConfirmForTab. induction (bw_pendings w) as [|[t q] l IH]; [by intros _ ?%not_elem_of_nil|].
  cbn [map fst findb]. intros [Ht Hnd]%NoDup_cons [[= <- <-]|Hin]%elem_of_cons.
  - by rewrite (bool_decide_true (tab = tab) eq_refl).
  - rewrite bool_decide_false; [by apply IH|]. intros ->. by apply Ht, (in_keys _ p).
Qed.
Lemma pending_other w tab tab' :
  tab ≠ tab' → findb (λ p : jsstr * pending, fst p ==s tab) (filterb (λ p, negb (fst p ==s tab')) (bw_pendings w))
               = findb (λ p, fst p ==s tab) (bw_pendings w).
Proof.
  intros Hne. induction (bw_pendings w) as [|[t q] l IH]; [done|]. cbn [filterb findb fst].
  destruct (bool_decide_reflect (t = tab')) as [->|Ht]; cbn [negb].
  - rewrite bool_decide_false by done. apply IH.
  - cbn [findb fst]. by rewrite IH.
Qed.
Lemma ok_clear o tab w : ok o w → ok o (clear_pending tab w).
Proof.
  intros []. unfold clear_pending, sync_if_active. cbn.
  assert (Forall (pending_ok w) (filterb (λ p, negb (fst p ==s tab)) (bw_pendings w))) as Hp.
  { apply Forall_forall. intros p [_ Hp]%elem_of_filterb. by eapply Forall_forall in ok_pendings0. }
  destruct (is_active _ tab) eqn:E; constructor; cbn; try done; try by apply NoDup_map_filterb.
  - apply bool_decide_eq_true in E. cbn in E. by rewrite <-E.
  - apply bool_decide_eq_false in E. cbn in E. rewrite ok_mode0. unfold _pendingTerminalConfirmForTab. cbn.
    by rewrite pending_other by done.
Qed.
Lemma cleared_pending o tab w p : ok o w → (tab, p) ∈ bw_pendings w →
  pe_number p ∉ map (λ p, pe_number (snd p)) (bw_pendings (clear_pending tab w)).
Proof.
  intros [] Hin. assert (bw_pendings (clear_pending tab w) = filterb (λ p, negb (fst p ==s tab)) (bw_pendings w)) as ->.
  { unfold clear_pending, sync_if_active. by destruct (is_active _ _). }
  clear -ok_tabs0 ok_numbers0 Hin. induction (bw_pendings w) as [|[t q] l IH]; [by apply not_elem_of_nil in Hin|].
  cbn [map fst snd filterb] in *. apply NoDup_cons in ok_tabs0 as [Ht ?]. apply NoDup_cons in ok_numbers0 as [Hn ?].
  apply elem_of_cons in Hin as [[= <- <-]|Hin].
  - rewrite (bool_decide_true (tab = tab) eq_refl). cbn [negb]. intros H'. apply Hn.
    apply list_elem_of_In, in_map_iff in H' as (x & <- & Hx). apply list_elem_of_In, elem_of_filterb in Hx as [_ Hx].
    by apply list_elem_of_In, (in_map (λ p : jsstr * pending, pe_number (snd p))), list_elem_of_In.
  - destruct (negb _); [|by apply IH]. cbn [map snd]. intros [H'|H']%elem_of_cons; [|by apply IH].
    apply Hn. rewrite <-H'. by apply list_elem_of_In, (in_map (λ p : jsstr * pending, pe_number (snd p)) _ (tab, p)), list_elem_of_In.
Qed.

Lemma ok_track o tab w : ok o w → tab ∉ bw_settling w →
  ok (tab :: o) (with_settling (λ l, if bool_decide (tab ∈ l) then l else l ++ [tab]) w).
Proof.
  intros [] Hn. constructor; cbn; try done; rewrite bool_decide_false by done.
  - apply NoDup_app. split_and!; [done| |apply NoDup_singleton]. intros t Ht Hx. apply list_elem_of_singleton in Hx as ->. done.
  - rewrite ok_settling0. apply Permutation_app_comm.
Qed.
Lemma ok_handle o n c a w : ok o w → (n < bw_next w)%nat → n ∉ handled (bw_log w) →
  n ∉ map (λ p, pe_number (snd p)) (bw_pendings w) → ok o (tell [Handle n c a] w).
Proof.
  intros [] Hn Hh Hp.
  assert (handled (bw_log w ++ [Handle n c a]) = handled (bw_log w) ++ (if bool_decide (c = OnComplete) then [] else [n])) as Hl.
  { rewrite handled_app. by destruct c. }
  assert (∀ m, m ∈ (if bool_decide (c = OnComplete) then [] else [n]) → m = n) as Hm.
  { intros m Hm. case_bool_decide; [by apply not_elem_of_nil in Hm|by apply list_elem_of_singleton in Hm]. }
  constructor; cbn; rewrite ?Hl; try done.
  - apply Forall_forall. intros q Hq. eapply Forall_forall in ok_pendings0; [|exact Hq].
    destruct ok_pendings0 as (H1 & H2 & H3 & H4 & H5). unfold pending_ok. cbn. rewrite Hl. split_and!; try done.
    intros [|Hx%Hm]%elem_of_app; [done|]. apply Hp. rewrite <-Hx.
    by apply list_elem_of_In, (in_map (λ p : jsstr * pending, pe_number (snd p)) _ q), list_elem_of_In.
  - apply Forall_app. split; [done|]. case_bool_decide; by repeat constructor.
  - apply NoDup_app. split_and!; [done| |case_bool_decide; repeat constructor; by apply not_elem_of_nil].
    intros m Hin Hx%Hm. by subst.
Qed.
Lemma ok_spawn o t w : ok (tracks t ++ o) w → thread_ok w t → ok o (spawn t w).
Proof.
  intros [] Ht. constructor; cbn; try done.
  - rewrite map_app. cbn. apply NoDup_app. split_and!; [done| |apply NoDup_singleton].
    intros j Hj Hx. apply list_elem_of_singleton in Hx as ->. eapply Forall_forall in ok_fresh0; [|exact Hj]. lia.
  - rewrite map_app. apply Forall_app. split; [|repeat constructor; cbn; lia].
    eapply Forall_impl; [exact ok_fresh0|]. cbn. lia.
  - apply Forall_app. split; [done|]. by repeat constructor.
  - rewrite ok_settling0, flat_map_app. cbn. rewrite app_nil_r, <-app_assoc, (Permutation_app_comm (tracks t)), <-app_assoc. done.
  - eapply Forall_impl; [exact ok_pendings0|]. intros p (H1 & H2 & H3 & H4 & H5). unfold pending_ok. cbn. split_and!; try done. lia.
  - eapply Forall_impl; [exact ok_handled0|]. cbn. lia.
Qed.

Lemma tab_idle_frame tab w : frame w (tab_idle tab w).
Proof. apply frame_tell. by destruct (is_active w tab). Qed.
Lemma sync_frame tab w w' : frame w w' → bw_mode (sync_if_active tab w') = bw_mode (sync_if_active tab w) →
  frame (with_mode (bw_mode (sync_if_active tab w)) w) (sync_if_active tab w').
Proof.
  intros [] Hm. unfold sync_if_active in *. destruct (is_active w' tab), (is_active w tab); constructor; cbn in *; try done.
Qed.
Lemma sync_mode tab w w' : frame w w' → bw_mode (sync_if_active tab w') = bw_mode (sync_if_active tab w).
Proof.
  intros []. unfold sync_if_active, is_active, syncPendingTerminalConfirmPromptMode, _pendingTerminalConfirmForTab.
  rewrite fr_page0. case_bool_decide; cbn; [by rewrite fr_pendings0|done].
Qed.
Lemma ok_set_pending o q x w w' : ok o w → _setPendingTerminalConfirm q x w = Some w' → ok o w'.
Proof.
  intros H. unfold _setPendingTerminalConfirm. destruct (exec_of w x) as [st|] eqn:E; [|done]. cbv zeta.
  destruct (nonempty (ex_tabId st)) eqn:Hne; cbn [negb orb]; [|done].
  destruct (bool_decide _) eqn:Hp; [done|]. apply bool_decide_eq_false in Hp. intros [= <-].
  set (wa := update_exec x _ _). set (wb := tab_idle _ _). set (tab := ex_tabId st) in *.
  assert (frame wa wb) as F by (eapply frame_trans; [apply publish_frame|apply tab_idle_frame]).
  eapply ok_frame; [apply (sync_frame tab wa wb F), sync_mode, F|]. clear F wb. destruct H.
  assert (∀ p, p ∈ bw_pendings w → fst p ≠ tab) as Hfree.
  { intros [t p] Hin. cbn. intros ->. apply Hp. rewrite (pending_found w tab p); eauto. }
  assert (∀ y sy, exec_of w y = Some sy → ∃ sy', exec_of wa y = Some sy' ∧ ex_tabId sy' = ex_tabId sy ∧ (ex_pending sy = true → ex_pending sy' = true)
            ∧ (y = x → ex_pending sy' = true)) as Hx.
  { intros y sy Hy. unfold wa. rewrite exec_of_update. case_bool_decide as Ey.
    - subst y. change (exec_of _ x) with (exec_of w x). rewrite Hy. cbn. eexists. split; [reflexivity|]. done.
    - exists sy. split; [exact Hy|]. split_and!; try done. }
  constructor; cbn; try done.
  - eapply Forall_impl; [exact ok_fresh0|]. cbn. lia.
  - eapply Forall_impl; [exact ok_threads0|]. intros [i t] (sy & Hy & Ht). destruct (Hx _ _ Hy) as (sy' & Hy' & Htab & _).
    exists sy'. split; [exact Hy'|]. intros t' Ht'. rewrite Htab. by apply Ht.
  - rewrite map_app. cbn. apply NoDup_app. split_and!; [done| |apply NoDup_singleton].
    intros t Ht Hs. apply list_elem_of_singleton in Hs as ->. apply list_elem_of_In, in_map_iff in Ht as (p & Hpt & Hin).
    apply list_elem_of_In in Hin. by apply (Hfree p Hin).
  - apply Forall_app. split.
    + eapply Forall_impl; [exact ok_pendings0|]. intros p (H1 & H2 & H3 & H4 & sy & Hy & Ht & Hpd).
      destruct (Hx _ _ Hy) as (sy' & Hy' & Htab & Hpd' & _). unfold pending_ok. cbn. split_and!; try done; [lia|].
      exists sy'. rewrite Htab. auto.
    + constructor; [|constructor]. destruct (Hx _ _ E) as (sy' & Hy' & Htab & _ & Hpd). unfold pending_ok. cbn. split_and!; try done.
      * intros Hnil. rewrite Hnil in Hne. done.
      * lia.
      * intros Hin. eapply Forall_forall in ok_handled0; [|exact Hin]. lia.
      * exists sy'. rewrite Htab. auto.
  - rewrite map_app. cbn. apply NoDup_app. split_and!; [done| |apply NoDup_singleton].
    intros n Hn Hs. apply list_elem_of_singleton in Hs as ->. apply list_elem_of_In, in_map_iff in Hn as (p & Hpn & Hin).
    apply list_elem_of_In in Hin. eapply Forall_forall in ok_pendings0; [|exact Hin]. destruct ok_pendings0 as (_ & _ & Hlt & _). lia.
  - eapply Forall_impl; [exact ok_handled0|]. cbn. lia.
  - unfold sync_if_active. destruct (is_active wa tab) eqn:Ea.
    + apply bool_decide_eq_true in Ea. change (bw_page wa) with (bw_page w) in Ea. by rewrite <-Ea.
    + apply bool_decide_eq_false in Ea. cbn. rewrite ok_mode0. unfold _pendingTerminalConfirmForTab. cbn.
      rewrite findb_app. destruct (findb _ (bw_pendings w)); [done|]. cbn. by rewrite bool_decide_false.
Qed.

(** *** Events *)

Lemma clear_face tab w : bw_log (clear_pending tab w) = bw_log w ∧ bw_next (clear_pending tab w) = bw_next w
  ∧ bw_commands (clear_pending tab w) = bw_commands w ∧ bw_settling (clear_pending tab w) = bw_settling w
  ∧ bw_threads (clear_pending tab w) = bw_threads w ∧ bw_page (clear_pending tab w) = bw_page w.
Proof. unfold clear_pending, sync_if_active. by destruct (is_active _ _). Qed.
(** A question is answered or canceled: its mark is gone, its callback starts. *)
Lemma ok_run w tab p c answer onComplete track :
  ok [] w → (tab, p) ∈ bw_pendings w → (track = true → tab ∉ bw_settling w) →
  ok [] (_runPendingTerminalConfirmHandler c answer p onComplete track (clear_pending (pe_tabId p) w)).
Proof.
  intros H Hin Hset. assert (pending_ok w (tab, p)) as (Htab & Hne & Hn & Hh & st & Hs & Hst & _).
  { pose proof (ok_pendings _ _ H) as Hp. by eapply Forall_forall in Hp. }
  cbn [fst snd] in *. rewrite Htab. destruct (clear_face tab w) as (Hlog & Hnext & Hcmd & Hmk & _).
  pose proof (cleared_pending _ _ _ _ H Hin) as Hc. apply (ok_clear _ tab) in H.
  unfold _runPendingTerminalConfirmHandler. rewrite Htab.
  set (wc := clear_pending tab w) in *. clearbody wc.
  set (wt := if track then _ else wc).
  assert (bw_log wt = bw_log w ∧ bw_next wt = bw_next w ∧ bw_commands wt = bw_commands w ∧ bw_pendings wt = bw_pendings wc) as (Hl & Hx & Hm & Hp)
    by (unfold wt; by destruct track).
  assert (ok (if track then [tab] else []) wt) as Hok.
  { unfold wt. destruct track; [|done]. apply ok_track; [done|]. rewrite Hmk. auto. }
  clearbody wt. set (wh := match c with Some c => _ | None => wt end).
  assert (ok (if track then [tab] else []) wh ∧ bw_commands wh = bw_commands w) as [Hoh Hch].
  { unfold wh. destruct c as [c|]; [|done]. split; [|done]. apply ok_handle; [done|by rewrite Hx|by rewrite Hl|by rewrite Hp]. }
  clearbody wh. apply ok_spawn.
  - cbn. by destruct track; rewrite ?app_nil_r.
  - exists st. cbn. unfold exec_of. rewrite Hch. split; [exact Hs|]. intros t [= <-]. exact Hst.
Qed.
Lemma ok_cancel tab refocus w : ok [] w → ok [] (cancelPendingTerminalConfirm tab refocus w).
Proof.
  intros H. unfold cancelPendingTerminalConfirm. destruct (_pendingTerminalConfirmForTab w tab) as [p|] eqn:E; [|done].
  apply pending_In in E. cbv zeta. destruct refocus; [eapply ok_frame; [by apply frame_tell|]|]; by eapply ok_run.
Qed.
Lemma ok_cancel_list l w : ok [] w → ok [] (fold_left (λ w tab, cancelPendingTerminalConfirm tab false w) l w).
Proof. revert w. induction l as [|tab l IH]; intros w H; [done|]. cbn. by apply IH, ok_cancel. Qed.
Lemma ok_submit rawCmd w : ok [] w → ok [] (submit rawCmd w).
Proof.
  intros H. unfold submit. cbv zeta. case_bool_decide as Hs; [by eapply ok_frame; [apply frame_tell|]|].
  destruct (negb _); [by eapply ok_frame; [apply frame_tell|]|].
  destruct (_pendingTerminalConfirmForTab w _) as [p|] eqn:E; [|by eapply ok_frame; [apply frame_tell|]].
  apply pending_In in E. set (we := if bool_decide _ then w else _).
  assert (ok [] we ∧ bw_pendings we = bw_pendings w ∧ bw_settling we = bw_settling w) as (He & Hp & Hm).
  { unfold we. case_bool_decide; [done|]. split; [|done]. by eapply ok_frame; [apply frame_tell|]. }
  clearbody we. rewrite <-Hp in E. rewrite <-Hm in Hs.
  destruct (_ || _); [by eapply ok_run|]. destruct (negb _); [by eapply ok_frame; [apply frame_tell|]|].
  destruct (one_of _ _); by eapply ok_run.
Qed.
Lemma ok_page p w : ok [] w → ok [] (syncPendingTerminalConfirmPromptMode (pg_active p) (with_page p w)).
Proof. intros []. by constructor. Qed.
Lemma exec_of_app l w x st : exec_of w x = Some st → cm_exec <$> (bw_commands w ++ l) !! x = Some st.
Proof. unfold exec_of. intros (c & Hc & ->)%fmap_Some. by rewrite lookup_app_l, Hc by (by eapply lookup_lt_Some). Qed.
Lemma ok_start_command p cmd safe calls w : handled calls = [] → ok [] w → ok [] (start_command p cmd safe calls w).
Proof.
  intros Hc H. unfold start_command. cbv zeta. destruct (createCommandExecution _ _ _ _ _ _ _) as [n st].
  apply ok_spawn.
  - eapply ok_frame; [apply frame_tell; rewrite handled_app, Hc; done|]. destruct H. constructor; cbn; try done.
    + eapply Forall_impl; [exact ok_threads0|]. intros [i t] (sy & Hy & Ht). exists sy. split; [by apply exec_of_app|done].
    + eapply Forall_impl; [exact ok_pendings0|]. intros q (H1 & H2 & H3 & H4 & sy & Hy & Ht). unfold pending_ok. cbn. split_and!; try done.
      exists sy. split; [by apply exec_of_app|done].
  - exists st. split; [|done]. unfold exec_of. cbn. by rewrite list_lookup_middle.
Qed.
Lemma ok_unpend o x w : ok o w → (∀ p, p ∈ bw_pendings w → pe_exec (snd p) ≠ x) → ok o (update_exec x (setPending (VBool false)) w).
Proof.
  intros [] Hx. constructor; cbn; try done.
  - eapply Forall_impl; [exact ok_threads0|]. intros [i t] (st & Hs & Ht). unfold thread_ok. rewrite exec_of_update, Hs.
    case_bool_decide; eexists; (split; [reflexivity|done]).
  - apply Forall_forall. intros p Hp. pose proof (Hx p Hp) as Hne. eapply Forall_forall in ok_pendings0; [|exact Hp].
    destruct ok_pendings0 as (H1 & H2 & H3 & H4 & st & Hs & Ht). unfold pending_ok. cbn. split_and!; try done.
    exists st. by rewrite exec_of_update, bool_decide_false.
Qed.

Section Events.
Context (locale_le : jsstr → jsstr → bool) (new_RegExp : jsstr → bool → jsstr + (jsstr → bool)) (app_config : jsval)
        (denied : jsstr).
Notation happens := (happen locale_le new_RegExp app_config denied).

Lemma base_returns_ok x r i w :
  ok [] w → free i w → is_Some (exec_of w x) → ok [] (base_returns locale_le new_RegExp app_config denied x r i w).
Proof.
  intros H Hf Hx. assert (owes NobodyWaits x i w) as Ho by done. clear H Hf Hx. unfold base_returns.
  destruct (bw_commands w !! x) as [[st0 [base spec safe echo|safe]]|]; [|apply hand_over_ok; eapply owes_frame; [apply failed_frame|done]|apply Ho].
  cbn [fmap option_fmap option_map cm_plan]. apply (owes_frame _ _ _ _ _ (failed_frame x r "browser command failed" w)) in Ho.
  set (w1 := failed_with _ _ _ _) in *. clearbody w1. destruct (exec_of w1 x) as [st|]; [|apply Ho]. cbv zeta.
  set (w2 := tell _ w1). assert (owes NobodyWaits x i w2) as Ho2.
  { eapply owes_frame; [|exact Ho]. apply frame_tell. by destruct echo. }
  clearbody w2. destruct (ex_delegated st).
  { eapply ok_frame; [|apply Ho2]. eapply frame_trans; [apply publish_frame|by apply frame_update]. }
  destruct (ex_pending st); [|by apply completePending_ok]. eapply ok_frame; [|apply Ho2].
  eapply frame_trans; [apply publish_frame|apply tab_idle_frame].
Qed.
Lemma confirm_returns_ok x tab (track : bool) onComplete r i w st :
  ok (if track then [tab] else []) w → free i w → exec_of w x = Some st → ex_tabId st = tab →
  ok [] (confirm_returns locale_le new_RegExp app_config denied x tab track onComplete r i w).
Proof.
  intros H Hf Hs Ht. unfold confirm_returns. pose proof (failed_frame x r "network error" w) as F.
  destruct (face_Some _ _ _ _ F Hs) as (st' & Hs' & [= Ht' _]). rewrite Ht in Ht'. clear Hs Ht.
  apply (ok_frame _ _ _ F) in H. apply (free_frame _ _ _ F) in Hf. set (w1 := failed_with _ _ _ _) in *. clearbody w1. clear F.
  case_bool_decide as Hp.
  - apply ok_settle. eapply ok_frame; [|exact H]. eapply frame_trans; [apply publish_frame|by apply frame_tell].
  - apply completePending_ok. split; [|split].
    + cbn. destruct track; (apply ok_unpend; [exact H|]);
        (intros [t p] Hin Hx; cbn in Hx; apply Hp;
         pose proof (ok_pendings _ _ H) as Hps; eapply Forall_forall in Hps; [|exact Hin];
         destruct Hps as (_ & _ & _ & _ & sy & Hy & Hty & _); cbn in *; rewrite Hx, Hs' in Hy; injection Hy as <-;
         rewrite Ht' in Hty; subst t; rewrite (pending_found _ _ _ (ok_tabs _ _ H) Hin); cbn; by rewrite Hx).
    + exact Hf.
    + rewrite exec_of_update, bool_decide_true, Hs' by done. eauto.
Qed.
Lemma returns_ok i t r w : ok [] w → thread_at w i = Some t → ok [] (returns locale_le new_RegExp app_config denied i t r w).
Proof.
  intros H Ht. destruct (ok_remove _ _ _ H Ht) as (Ho & Hf & st & Hs & Htab). unfold returns. cbv zeta.
  set (wr := with_threads _ w) in *. clearbody wr. destruct t as [x|x tab track oc|x safe spec output k|x k|x tab track]; cbn in *.
  - apply base_returns_ok; eauto.
  - eapply confirm_returns_ok; eauto.
  - assert (owes k x i wr) as Hw by (split; [exact Ho|split; [exact Hf|eauto]]).
    destruct r; [by apply sink_failed_ok|]. apply finish_completion_ok. eapply owes_frame; [|exact Hw]. by apply frame_update.
  - apply after_completion_ok. split; [exact Ho|split; [exact Hf|eauto]].
  - destruct r; [eapply ok_frame; [by apply frame_tell|]|]; apply ok_settle; by destruct track.
Qed.
Lemma event_keeps_ok e w w' : ok [] w → happens e w = Some w' → ok [] w'.
Proof.
  intros H. destruct e as [raw|streaming cmd|i a|i r|tab rf|rf|k|p]; cbn [happen].
  - intros [= <-]. by apply ok_submit.
  - intros Hw%(inj Some); rewrite <-Hw; destruct streaming;
      [unfold _runStreamingBrowserCommand|unfold _runBufferedBrowserCommandWithOptionalPipe]; cbv zeta; apply ok_start_command; try done. by destruct (first_word_is _ _).
  - destruct (thread_at w i) as [t|]; [|done]. destruct (acting t) as [x|]; [|done]. intros [= <-].
    destruct a; try (eapply ok_frame; [by apply perform_frame|done]). cbn [perform].
    destruct (_setPendingTerminalConfirm q x w) eqn:E; cbn; [by eapply ok_set_pending|done].
  - destruct (thread_at w i) as [t|] eqn:E; [|done]. intros [= <-]. by apply returns_ok.
  - intros [= <-]. by apply ok_cancel.
  - intros [= <-]. unfold cancelAllPendingTerminalConfirms. cbv zeta.
    destruct (_ && _); [eapply ok_frame; [by apply frame_tell|]|]; by apply ok_cancel_list.
  - intros [= <-]. by apply ok_cancel_list.
  - intros [= <-]. by apply ok_page.
Qed.
Lemma commands_reachable_ok w : reachable locale_le new_RegExp app_config denied w → ok [] w.
Proof.
  induction 1 as [p|e w w' _ IH Hs]; [|by eapply event_keeps_ok]. constructor; cbn; try done; constructor.
Qed.
End Events.

(** ** Lemmas: the lines of a command *)

(** What the log says about a command: lines shown, results handed over. *)
Definition trace (x : nat) (log : list page_call) : list (command_line + list command_line * result) :=
  omap (λ c, match c with
             | Show y l _ => if Nat.eqb y x then Some (inl l) else None
             | Complete y ls r => if Nat.eqb y x then Some (inr (ls, r)) else None
             | _ => None end) log.
Definition shows (tr : list (command_line + list command_line * result)) : list command_line :=
  omap (λ e, match e with inl l => Some l | inr _ => None end) tr.
Definition results (tr : list (command_line + list command_line * result)) : list (list command_line * result) :=
  omap (λ e, match e with inr r => Some r | inl _ => None end) tr.
Definition unrendered (l : command_line) : Prop := ln_rendered l = false.
Definition unfiltered (p : plan) : Prop := match p with Buffered _ (Parsed _) _ _ => False | _ => True end.
Definition once_plan (p : plan) : Prop := match p with Buffered _ spec _ _ => sink_of spec = None | Streaming _ => False end.
(** The lines are those shown and, behind them, those not shown yet. *)
Definition shown_first (shown lines : list command_line) : Prop :=
  ∃ b, lines = map rendered shown ++ b ∧ Forall unrendered b.

Record command_ok (p : plan) (st : execution) (tr : list (command_line + list command_line * result)) : Prop := CommandOk
  { co_lines : shown_first (shows tr) (ex_lines st);
    co_normal : Forall line_ok (ex_lines st);
    co_streamed : ex_pending st = true ∨ (∃ safe, p = Streaming safe) → ex_lines st = map rendered (shows tr);
    co_once : once_plan p → (length (results tr) ≤ 1)%nat ∧ (ex_completed st = false → results tr = []);
    co_results : unfiltered p → ∀ t1 ls r t2, tr = t1 ++ inr (ls, r) :: t2 → r_lines r = ls ∧ shown_first (shows t1) ls }.
Definition command_inv (w : world) (x : nat) : Prop :=
  match bw_commands w !! x with
  | Some c => command_ok (cm_plan c) (cm_exec c) (trace x (bw_log w))
  | None => trace x (bw_log w) = []
  end.
Definition write_ok (w : world) (t : thread) : Prop :=
  match t with
  | TWrite x safe spec _ _ =>
      (∃ base echo, cm_plan <$> bw_commands w !! x = Some (Buffered base spec safe echo)) ∧ sink_of spec ≠ None
  | _ => True
  end.
Definition lines_ok (w : world) : Prop := (∀ x, command_inv w x) ∧ ∀ i t, (i, t) ∈ bw_threads w → write_ok w t.

Lemma trace_app x l l' : trace x (l ++ l') = trace x l ++ trace x l'.
Proof. apply omap_app. Qed.
Lemma shows_app t t' : shows (t ++ t') = shows t ++ shows t'.
Proof. apply omap_app. Qed.
Lemma results_app t t' : results (t ++ t') = results t ++ results t'.
Proof. apply omap_app. Qed.
#[local] Arguments trace : simpl never.
#[local] Arguments shows : simpl never.
#[local] Arguments results : simpl never.

(** *** Steps that change no line *)

Record eases (st st' : execution) : Prop := Eases
  { ea_lines : ex_lines st' = ex_lines st; ea_pending : ex_pending st' = true → ex_pending st = true;
    ea_completed : ex_completed st' = false → ex_completed st = false }.
Lemma command_ok_eases p st st' tr : command_ok p st tr → eases st st' → command_ok p st' tr.
Proof.
  intros [] []. constructor; rewrite ?ea_lines0; try done.
  - intros [H|H]; apply co_streamed0; auto.
  - intros Hp. destruct (co_once0 Hp) as [H1 H2]. auto.
Qed.
Record calm (w w' : world) : Prop := Calm
  { ca_trace : ∀ x, trace x (bw_log w') = trace x (bw_log w);
    ca_none : ∀ x, bw_commands w !! x = None → bw_commands w' !! x = None;
    ca_some : ∀ x c, bw_commands w !! x = Some c → ∃ st, bw_commands w' !! x = Some (Command st (cm_plan c)) ∧ eases (cm_exec c) st;
    ca_threads : ∀ i t, (i, t) ∈ bw_threads w' → (i, t) ∈ bw_threads w ∨ ∀ w, write_ok w t }.
Lemma lines_calm w w' : calm w w' → lines_ok w → lines_ok w'.
Proof.
  intros [] [Hc Hw]. split.
  - intros x. specialize (Hc x). unfold command_inv in *. rewrite ca_trace0. destruct (bw_commands w !! x) as [c|] eqn:E.
    + destruct (ca_some0 _ _ E) as (st & -> & He). by eapply command_ok_eases.
    + by rewrite (ca_none0 _ E).
  - intros i t Hin. destruct (ca_threads0 _ _ Hin) as [H|H]; [|apply H]. specialize (Hw _ _ H).
    destruct t; try done. destruct Hw as ((base & echo & Hp) & Hs). split; [|done]. exists base, echo.
    apply fmap_Some in Hp as (c & Hcx & Hp). destruct (ca_some0 _ _ Hcx) as (st & -> & _). cbn. by rewrite Hp.
Qed.
Lemma eases_refl st : eases st st.
Proof. done. Qed.
Lemma calm_same w w' : bw_commands w' = bw_commands w → (∀ x, trace x (bw_log w') = trace x (bw_log w)) →
  (∀ i t, (i, t) ∈ bw_threads w' → (i, t) ∈ bw_threads w ∨ ∀ w, write_ok w t) → calm w w'.
Proof.
  intros Hc Ht Hth. constructor; [done|by intros x; rewrite Hc| |done]. intros x [st p] H. exists st. by rewrite Hc.
Qed.
Lemma calm_trans w1 w2 w3 : calm w1 w2 → calm w2 w3 → calm w1 w3.
Proof.
  intros [] []. constructor.
  - intros x. by rewrite ca_trace1.
  - auto.
  - intros x c H. destruct (ca_some0 _ _ H) as (st & H2 & []). destruct (ca_some1 _ _ H2) as (st' & H3 & []). exists st'.
    split; [exact H3|]. cbn in *. constructor; [congruence|auto|auto].
  - intros i t [H|H]%ca_threads1; auto.
Qed.
Lemma calm_tell l w : (∀ x, trace x l = []) → calm w (tell l w).
Proof. intros H. apply calm_same; [done| |auto]. intros x. cbn. by rewrite trace_app, H, app_nil_r. Qed.
Lemma calm_update x f w : (∀ st, eases st (f st)) → calm w (update_exec x f w).
Proof.
  intros H. constructor; cbn; [done| | |auto].
  - intros y Hy. rewrite list_lookup_alter. case_decide as E; [subst y; by rewrite Hy|done].
  - intros y [st p] Hy. rewrite list_lookup_alter. case_decide as E; [subst y; rewrite Hy; by exists (f st)|by exists st].
Qed.

Lemma calm_sync tab w : calm w (sync_if_active tab w).
Proof. unfold sync_if_active. destruct (is_active _ _); apply calm_same; auto. Qed.
Lemma calm_clear tab w : calm w (clear_pending tab w).
Proof. eapply calm_trans; [|apply calm_sync]. apply calm_same; auto. Qed.
Lemma calm_settle tab track w : calm w (settle tab track w).
Proof. destruct track; apply calm_same; auto. Qed.
Lemma calm_tab_idle tab w : calm w (tab_idle tab w).
Proof. apply calm_tell. by destruct (is_active w tab). Qed.
Lemma calm_spawn t w : (∀ w, write_ok w t) → calm w (spawn t w).
Proof.
  intros H. apply calm_same; [done|done|]. cbn. intros i u [Hi|Hi]%elem_of_app; [by left|right].
  by apply list_elem_of_singleton in Hi as [= -> ->].
Qed.
Lemma calm_resume i t w : (∀ w, write_ok w t) → calm w (resume i t w).
Proof.
  intros H. apply calm_same; [done|done|]. cbn. intros j u [Hi|Hi]%elem_of_app; [by left|right].
  by apply list_elem_of_singleton in Hi as [= -> ->].
Qed.
Lemma calm_run c answer p onComplete track w : calm w (_runPendingTerminalConfirmHandler c answer p onComplete track w).
Proof.
  unfold _runPendingTerminalConfirmHandler. cbv zeta. eapply calm_trans; [|by apply calm_spawn].
  set (wt := if track then _ else w). assert (calm w wt) as Ht by (unfold wt; destruct track; apply calm_same; auto).
  destruct c; [|done]. eapply calm_trans; [exact Ht|by apply calm_tell].
Qed.
Lemma calm_cancel tab refocus w : calm w (cancelPendingTerminalConfirm tab refocus w).
Proof.
  unfold cancelPendingTerminalConfirm. destruct (_pendingTerminalConfirmForTab w tab); [|apply calm_same; auto]. cbv zeta.
  eapply calm_trans; [apply calm_clear|]. eapply calm_trans; [apply calm_run|]. destruct refocus; [by apply calm_tell|apply calm_same; auto].
Qed.
Lemma calm_cancel_list l w : calm w (fold_left (λ w tab, cancelPendingTerminalConfirm tab false w) l w).
Proof.
  revert w. induction l as [|tab l IH]; intros w; cbn; [apply calm_same; auto|]. eapply calm_trans; [apply calm_cancel|apply IH].
Qed.
Lemma calm_submit rawCmd w : calm w (submit rawCmd w).
Proof.
  unfold submit. cbv zeta. case_bool_decide; [by apply calm_tell|]. destruct (negb _); [by apply calm_tell|].
  destruct (_pendingTerminalConfirmForTab w _) as [p|]; [|by apply calm_tell].
  set (we := if bool_decide _ then w else _).
  assert (calm w we) as He by (unfold we; case_bool_decide; [apply calm_same; auto|by apply calm_tell]).
  eapply calm_trans; [exact He|]. clearbody we.
  destruct (_ || _); [eapply calm_trans; [apply calm_clear|apply calm_run]|]. destruct (negb _); [by apply calm_tell|].
  destruct (one_of _ _); (eapply calm_trans; [apply calm_clear|apply calm_run]).
Qed.
Lemma calm_after x k r i w : calm w (after_completion x k r i w).
Proof.
  destruct k as [|tab track [n|]]; cbn [after_completion]; [apply calm_same; auto| |]; destruct r;
    try (eapply calm_trans; [apply calm_settle|by apply calm_tell]); [|apply calm_settle].
  apply (calm_trans _ (tell [Handle n OnComplete None] w)); [by apply calm_tell|by apply calm_resume].
Qed.

(** *** Steps that show lines *)

Definition grows (x : nat) (w w' : world) : Prop :=
  (∀ y, y ≠ x → bw_commands w' !! y = bw_commands w !! y ∧ trace y (bw_log w') = trace y (bw_log w))
  ∧ ∀ y, cm_plan <$> bw_commands w' !! y = cm_plan <$> bw_commands w !! y.
Lemma lines_grow x w w' :
  grows x w w' → command_inv w' x → (∀ i t, (i, t) ∈ bw_threads w' → (i, t) ∈ bw_threads w ∨ ∀ w, write_ok w t) →
  lines_ok w → lines_ok w'.
Proof.
  intros [Hy Hp] Hx Ht [Hc Hw]. split.
  - intros y. destruct (decide (y = x)) as [->|Hne]; [done|]. specialize (Hc y). unfold command_inv in *.
    destruct (Hy y Hne) as [-> ->]. exact Hc.
  - intros i t [H|H]%Ht; [|apply H]. specialize (Hw _ _ H). destruct t; try done. cbn in *. by rewrite Hp.
Qed.
(** The usual case: the log grows by entries of one command, which changes. *)
Lemma grows_update x f l w : (∀ y, y ≠ x → trace y l = []) → grows x w (update_exec x f (tell l w)).
Proof.
  intros Hl. split.
  - intros y Hne. cbn. rewrite list_lookup_alter_ne by done. split; [done|]. by rewrite trace_app, Hl, app_nil_r.
  - intros y. cbn. rewrite list_lookup_alter. case_decide as E; [subst y|done]. by destruct (bw_commands w !! x).
Qed.
Lemma command_inv_update x f l w c :
  bw_commands w !! x = Some c → command_ok (cm_plan c) (f (cm_exec c)) (trace x (bw_log w) ++ trace x l) →
  command_inv (update_exec x f (tell l w)) x.
Proof.
  intros Hc H. unfold command_inv. cbn. rewrite list_lookup_alter, decide_True, Hc, trace_app by done. exact H.
Qed.
Lemma trace_shown x y (ls : list command_line) tab :
  trace y (map (λ l, Show x l tab) ls) = if Nat.eqb x y then map inl ls else [].
Proof.
  unfold trace. destruct (Nat.eqb x y) eqn:E; induction ls as [|l ls IH]; cbn; rewrite ?E; cbn; by rewrite ?IH.
Qed.
Lemma shows_inl (ls : list command_line) : shows (map inl ls) = ls.
Proof. unfold shows. induction ls as [|l ls IH]; [done|]. cbn. by rewrite IH. Qed.
Lemma results_inl (ls : list command_line) : results (map inl ls) = [].
Proof. unfold results. by induction ls. Qed.
Lemma rendered_idem l : rendered (rendered l) = rendered l.
Proof. done. Qed.
Lemma rendered_shown l : ln_rendered l = true → rendered l = l.
Proof. destruct l; cbn. by intros ->. Qed.
(** Lines shown after a result was handed over change nothing about it. *)
Lemma results_snoc tr (ls : list command_line) t1 r t2 :
  tr ++ map (@inl command_line (list command_line * result)) ls = t1 ++ inr r :: t2 → ∃ t2', tr = t1 ++ inr r :: t2'.
Proof.
  revert tr. induction t1 as [|e t1 IH]; intros [|e' tr] H; cbn in H.
  - destruct ls; [done|]. by injection H.
  - injection H as -> H. by exists tr.
  - exfalso. assert (inr r ∈ map (@inl command_line (list command_line * result)) ls) as Hin.
    { rewrite H. apply elem_of_cons. right. apply elem_of_app. right. by left. }
    apply list_elem_of_In, in_map_iff in Hin as (? & ? & _). done.
  - injection H as <- H. destruct (IH _ H) as (t2' & ->). by exists t2'.
Qed.

Lemma command_ok_shown p st st' tr ls :
  command_ok p st tr → ex_lines st' = map rendered (shows tr ++ ls) → Forall line_ok (ex_lines st') →
  ex_completed st' = ex_completed st → command_ok p st' (tr ++ map inl ls).
Proof.
  intros [] Hl Hn Hc. constructor; rewrite ?shows_app, ?shows_inl, ?results_app, ?results_inl, ?app_nil_r; try done.
  - exists []. by rewrite app_nil_r.
  - by rewrite Hc.
  - intros Hu t1 ls' r t2 Ht. destruct (results_snoc _ _ _ _ _ Ht) as (t2' & ->). eauto.
Qed.
Lemma appendLine_ok p text cls metadata st tr :
  command_ok p st tr →
  let '(ls, st') := appendLine (streams_of p) text cls metadata st in command_ok p st' (tr ++ map inl ls).
Proof.
  intros H. unfold appendLine. cbv zeta. set (l := normalizeCommandLine _).
  assert (line_ok l) as Hn by apply normalize_line_ok. assert (unrendered l) as Hu by done.
  pose proof (co_normal _ _ _ H) as Hns. destruct (_ || _) eqn:E.
  - apply (command_ok_shown _ st); [done| | |done].
    + cbn. rewrite map_app, <-(co_streamed _ _ _ H); [done|]. destruct p; cbn in E; [left|right; eauto].
      rewrite andb_true_r in E. exact E.
    + cbn. apply Forall_app. split; [done|]. by repeat constructor.
  - rewrite app_nil_r. destruct H. constructor; cbn; try done.
    + destruct co_lines0 as (b & -> & Hb). exists (b ++ [l]). rewrite app_assoc. split; [done|]. apply Forall_app. split; [done|]. by repeat constructor.
    + apply Forall_app. split; [done|]. by repeat constructor.
    + intros [Hp|[safe ->]]; [|done]. destruct p; [|done]. cbn in E. by rewrite Hp in E.
Qed.
Lemma append_line_lines x text cls metadata w : lines_ok w → lines_ok (append_line x text cls metadata w).
Proof.
  intros H. unfold append_line. destruct (bw_commands w !! x) as [c|] eqn:E; [|done].
  pose proof (proj1 H x) as Hc. unfold command_inv in Hc. rewrite E in Hc.
  pose proof (appendLine_ok _ text cls metadata _ _ Hc) as Ha. destruct (appendLine _ _ _ _ _) as [ls st].
  eapply lines_grow; [apply grows_update| |auto|exact H].
  - intros y Hy. rewrite trace_shown. by rewrite (proj2 (Nat.eqb_neq x y)) by done.
  - eapply command_inv_update; [exact E|]. by rewrite trace_shown, Nat.eqb_refl.
Qed.

Lemma publish_spec x w c :
  bw_commands w !! x = Some c →
  _publishPendingExecutionLines x w
  = update_exec x render_lines (tell (map (λ l, Show x l (ex_tabId (cm_exec c))) (filterb (λ l, negb (ln_rendered l)) (ex_lines (cm_exec c)))) w).
Proof. intros H. unfold _publishPendingExecutionLines, exec_of. by rewrite H. Qed.
Lemma filterb_shown_first shown b : Forall unrendered b →
  filterb (λ l, negb (ln_rendered l)) (map rendered shown ++ b) = b.
Proof.
  intros Hb. rewrite filterb_app, (filterb_none _ (map rendered shown)), filterb_all; [done| |].
  - intros l Hl. eapply Forall_forall in Hb; [|exact Hl]. by rewrite Hb.
  - intros l (x & <- & _)%list_elem_of_In%in_map_iff. done.
Qed.
Lemma line_ok_rendered ls : Forall line_ok ls → Forall line_ok (map rendered ls).
Proof. induction 1; constructor; done. Qed.
(** Publishing shows what was not shown, so that nothing is left; the command
    may be made pending before it. *)
Lemma publish_ok p st st' tr :
  command_ok p st tr → ex_lines st' = ex_lines st → ex_completed st' = ex_completed st →
  command_ok p (render_lines st') (tr ++ map inl (filterb (λ l, negb (ln_rendered l)) (ex_lines st'))).
Proof.
  intros H Hl Hc. destruct (co_lines _ _ _ H) as (b & Hb & Hu). eapply command_ok_shown; [exact H| | |].
  - cbn. rewrite Hl, Hb, filterb_shown_first by done. rewrite !map_app, map_map. done.
  - cbn. rewrite Hl. apply line_ok_rendered, H.
  - cbn. done.
Qed.
Lemma publish_lines x w : lines_ok w → lines_ok (_publishPendingExecutionLines x w).
Proof.
  intros H. destruct (bw_commands w !! x) as [c|] eqn:E; [|unfold _publishPendingExecutionLines, exec_of; by rewrite E].
  rewrite (publish_spec _ _ _ E). pose proof (proj1 H x) as Hc. unfold command_inv in Hc. rewrite E in Hc.
  eapply lines_grow; [apply grows_update| |auto|exact H].
  - intros y Hy. rewrite trace_shown. by rewrite (proj2 (Nat.eqb_neq x y)) by done.
  - eapply command_inv_update; [exact E|]. rewrite trace_shown, Nat.eqb_refl. by eapply publish_ok.
Qed.
Lemma set_pending_lines q x w w' : lines_ok w → _setPendingTerminalConfirm q x w = Some w' → lines_ok w'.
Proof.
  intros H. unfold _setPendingTerminalConfirm, exec_of. destruct (bw_commands w !! x) as [c|] eqn:E; [|done].
  cbn [fmap option_fmap option_map]. cbv zeta. destruct (_ || _); [done|]. intros [= <-].
  eapply lines_calm; [eapply calm_trans; [apply calm_tab_idle|apply calm_sync]|].
  set (w1 := with_next _).
  assert (bw_commands (update_exec x (setPending (VBool true)) w1) !! x = Some (Command (setPending (VBool true) (cm_exec c)) (cm_plan c))) as E1.
  { cbn. rewrite list_lookup_alter, decide_True, E; done. }
  rewrite (publish_spec _ _ _ E1). pose proof (proj1 H x) as Hc. unfold command_inv in Hc. rewrite E in Hc.
  eapply (lines_grow x w); [| |auto|exact H].
  - split.
    + intros y Hy. cbn. rewrite !list_lookup_alter_ne by done. split; [done|].
      by rewrite trace_app, trace_shown, (proj2 (Nat.eqb_neq x y)), app_nil_r by done.
    + intros y. cbn. rewrite !list_lookup_alter. case_decide as Ey; [subst y|done]. rewrite decide_True by done. by rewrite E.
  - apply (command_inv_update _ _ _ _ _ E1). rewrite trace_shown, Nat.eqb_refl. by eapply publish_ok.
Qed.

Lemma toResult_lines o st :
  r_lines (toResult o st)
  = map normalizeCommandLine (if is_array (get (VObj o) (js "lines")) then items_of (get (VObj o) (js "lines"))
                              else map line_value (ex_lines st)).
Proof.
  unfold toResult, normalizeCommandResult. cbn [r_lines].
  set (base := spread _ o). set (e := VObj (spread _ _)).
  assert (∀ v, get (VObj (set_prop (js "effects") e (set_prop (js "lines") v base))) (js "lines") = v) as Hl.
  { intros v. unfold get, table_get. rewrite own_set_ne by done. by rewrite own_set_eq. }
  cbn [props_of]. rewrite Hl. destruct (is_array (get (VObj o) (js "lines"))) eqn:E; [by rewrite E|done].
Qed.
Lemma normalize_kept l :
  line_ok l →
  normalizeCommandLine (VObj (set_prop (js "rendered") (VBool (is_true (get (VObj (line_props l)) (js "rendered")) || false))
                                (spread [] (line_props l)))) = l.
Proof.
  intros [Hk Hr]. destruct l as [text cls kind role metadata rend]. unfold normalizeCommandLine, line_props, line_value. cbn in Hk, Hr.
  assert (∀ s, Some s ≠ Some [] → nonempty_text (VStr s) = Some s) as Hs by (intros [|]; done).
  destruct kind as [k|], role as [ro|], metadata as [m|], rend;
    cbn -[str_of nonempty_text str_of_nullish]; f_equal; try apply str_of_VStr; try done; by apply Hs.
Qed.
Lemma persisted_kept spec ls : Forall line_ok ls → suppresses spec = false →
  map normalizeCommandLine (map VObj (persisted_lines spec (map line_props ls) [])) = ls.
Proof.
  intros Hl Hs. unfold persisted_lines. rewrite Hs, app_nil_r. induction Hl as [|l ls Hl _ IH]; [done|].
  cbn [map]. rewrite IH. f_equal. by apply normalize_kept.
Qed.

Definition kept (p : plan) (st : execution) (r : result) : Prop := unfiltered p → r_lines r = ex_lines st.
Lemma command_ok_handed p st r tr :
  command_ok p st tr → (once_plan p → ex_completed st = false) → kept p st r →
  command_ok p (markCompleted st) (tr ++ [inr (ex_lines st, r)]).
Proof.
  intros [] Hc Hk. constructor; rewrite ?shows_app, ?results_app; cbn; rewrite ?app_nil_r; try done.
  - intros Hp. split; [|done]. rewrite length_app. destruct (co_once0 Hp) as [_ H]. rewrite (H (Hc Hp)). done.
  - intros Hu t1 ls r' t2 Ht. destruct t2 as [|e t2' _] using rev_ind.
    + apply (app_inj_tail tr t1) in Ht as [<- [= <- <-]]. split; [by apply Hk|exact co_lines0].
    + rewrite app_comm_cons, app_assoc in Ht. apply app_inj_tail in Ht as [-> _]. by eapply co_results0.
Qed.
Lemma hand_over_lines x f i k w :
  lines_ok w →
  (∀ c, bw_commands w !! x = Some c → (once_plan (cm_plan c) → ex_completed (cm_exec c) = false)
     ∧ kept (cm_plan c) (cm_exec c) (toResult (f (cm_exec c)) (cm_exec c))) →
  lines_ok (hand_over x f i k w).
Proof.
  intros H Hx. unfold hand_over, exec_of. destruct (bw_commands w !! x) as [c|] eqn:E; [|done].
  cbn [fmap option_fmap option_map]. destruct (Hx _ eq_refl) as [Hc Hk].
  eapply lines_calm; [by apply calm_resume|]. set (l := [Complete x _ _]).
  change (lines_ok (update_exec x markCompleted (tell l w))).
  assert (∀ y, trace y l = if Nat.eqb x y then [inr (ex_lines (cm_exec c), toResult (f (cm_exec c)) (cm_exec c))] else []) as Hl.
  { intros y. unfold trace, l. cbn. by destruct (Nat.eqb x y). }
  pose proof (proj1 H x) as Hi. unfold command_inv in Hi. rewrite E in Hi.
  eapply lines_grow; [apply grows_update| |auto|exact H].
  - intros y Hy. rewrite Hl. by rewrite (proj2 (Nat.eqb_neq x y)) by done.
  - eapply command_inv_update; [exact E|]. rewrite Hl, Nat.eqb_refl. by apply command_ok_handed.
Qed.

Lemma calm_eases f x w : (∀ st, ex_lines (f st) = ex_lines st ∧ ex_pending (f st) = ex_pending st ∧ ex_completed (f st) = ex_completed st) →
  calm w (update_exec x f w).
Proof. intros H. apply calm_update. intros st. destruct (H st) as (H1 & H2 & H3). constructor; congruence. Qed.
Lemma sink_filters spec s : sink_of spec = Some s → ∀ base safe echo, ¬ unfiltered (Buffered base spec safe echo) ∧ ¬ once_plan (Buffered base spec safe echo).
Proof. destruct spec; [done|done|]. cbn. intros H base safe echo. split; [by intros []|]. cbn. congruence. Qed.
Lemma finish_sink_lines x safe spec s output errors i k w :
  sink_of spec = Some s → (∃ base safe echo, cm_plan <$> bw_commands w !! x = Some (Buffered base spec safe echo)) →
  lines_ok w → lines_ok (finish_completion x safe spec output errors i k w).
Proof.
  intros Hs (base & safe' & echo & Hp) H. apply hand_over_lines; [done|]. intros c Hc. rewrite Hc in Hp. cbn in Hp.
  injection Hp as Hp. rewrite Hp. destruct (sink_filters _ _ Hs base safe' echo) as [Hu Ho].
  split; [by intros ?%Ho|by intros ?%Hu].
Qed.
Lemma fail_eases st : ex_lines (fail_with st) = ex_lines st ∧ ex_pending (fail_with st) = ex_pending st ∧ ex_completed (fail_with st) = ex_completed st.
Proof. done. Qed.
Lemma sink_failed_lines x safe spec s output m i k w :
  sink_of spec = Some s → (∃ base safe echo, cm_plan <$> bw_commands w !! x = Some (Buffered base spec safe echo)) →
  lines_ok w → lines_ok (sink_failed x safe spec output m i k w).
Proof.
  intros Hs (base & safe' & echo & Hp) H. unfold sink_failed. eapply finish_sink_lines; [exact Hs| |].
  - exists base, safe', echo. cbn. rewrite list_lookup_alter. case_decide; [|exact Hp]. subst. destruct (bw_commands w !! x); [exact Hp|done].
  - eapply lines_calm; [apply calm_eases; intros st; apply fail_eases|exact H].
Qed.
Section Lines.
Context (locale_le : jsstr → jsstr → bool) (new_RegExp : jsstr → bool → jsstr + (jsstr → bool)) (app_config : jsval)
        (denied : jsstr).
Lemma completeBuffered_lines x base spec safe echo st i k w :
  bw_commands w !! x = Some (Command st (Buffered base spec safe echo)) → ex_completed st = false → lines_ok w →
  lines_ok (_completeBufferedBrowserCommand locale_le new_RegExp app_config denied x base spec safe i k w).
Proof.
  intros E Hc H. unfold _completeBufferedBrowserCommand, exec_of. rewrite E. cbn [fmap option_fmap option_map cm_exec]. cbv zeta.
  assert (∃ base safe echo, cm_plan <$> bw_commands w !! x = Some (Buffered base spec safe echo)) as Hp by (rewrite E; eauto).
  destruct (sink_of spec) as [s|] eqn:Hs.
  - destruct (negb _); [by eapply sink_failed_lines|]. destruct (_resolveWorkspaceCommandPath _ _ _) as [e|d]; [by eapply sink_failed_lines|].
    set (w1 := tell _ w). assert (lines_ok w1) as [H1 H2] by (eapply lines_calm; [by apply calm_tell|exact H]).
    split; [exact H1|]. cbn. intros j t [Hj|Hj]%elem_of_app; [by eapply H2|]. apply list_elem_of_singleton in Hj as [= -> ->].
    cbn. rewrite E, Hs. split; [eauto|done].
  - apply hand_over_lines; [done|]. intros c Hx. rewrite E in Hx. injection Hx as <-. cbn [cm_exec cm_plan]. split; [done|].
    intros Hu. rewrite toResult_lines. cbn -[persisted_lines line_value]. unfold output_lines.
    pose proof (proj1 H x) as Hi. unfold command_inv in Hi. rewrite E in Hi. apply co_normal in Hi. cbn [cm_exec] in Hi.
    destruct spec; [| |done]; by apply persisted_kept.
Qed.
Lemma completePending_lines x i k w :
  lines_ok w → lines_ok (completePending locale_le new_RegExp app_config denied x i k w).
Proof.
  intros H. unfold completePending. assert (lines_ok (after_completion x k None i w)) as Ha by (eapply lines_calm; [apply calm_after|done]).
  destruct (bw_commands w !! x) as [[st [base spec safe echo|safe]]|] eqn:E; try done.
  destruct (ex_completed st) eqn:Hc; [done|]. by eapply completeBuffered_lines.
Qed.
Lemma failed_lines x r fallback w : lines_ok w → lines_ok (failed_with x r fallback w).
Proof.
  intros H. destruct r as [m|]; [|done]. cbn. unfold handler_failed. eapply lines_calm; [apply calm_eases; intros st; apply fail_eases|].
  by apply append_line_lines.
Qed.
Lemma update_plan x f w y : cm_plan <$> bw_commands (update_exec x f w) !! y = cm_plan <$> bw_commands w !! y.
Proof. cbn. rewrite list_lookup_alter. case_decide as E; [subst y|done]. by destruct (bw_commands w !! x). Qed.
Lemma failed_plan x r fallback w y : cm_plan <$> bw_commands (failed_with x r fallback w) !! y = cm_plan <$> bw_commands w !! y.
Proof.
  destruct r as [m|]; [|done]. cbn [failed_with]. unfold handler_failed, append_line. rewrite update_plan.
  destruct (bw_commands w !! x) as [c|]; [|done]. destruct (appendLine _ _ _ _ _). by rewrite update_plan.
Qed.
Lemma normal_lines ls : Forall line_ok ls → map normalizeCommandLine (map line_value ls) = ls.
Proof. induction 1 as [|l ls Hl _ IH]; [done|]. cbn [map]. by rewrite IH, normalize_line_value. Qed.
Lemma base_returns_lines x r i w : lines_ok w → lines_ok (base_returns locale_le new_RegExp app_config denied x r i w).
Proof.
  intros H. unfold base_returns. destruct (bw_commands w !! x) as [[st0 [base spec safe echo|safe]]|] eqn:E; [| |done];
    cbn [fmap option_fmap option_map cm_plan].
  - apply (failed_lines x r "browser command failed") in H. set (w1 := failed_with _ _ _ _) in *. clearbody w1. clear E w.
    destruct (exec_of w1 x) as [st|]; [|done]. cbv zeta. set (w2 := tell _ w1).
    assert (lines_ok w2) as H2 by (eapply lines_calm; [apply calm_tell; by destruct echo|exact H]). clearbody w2.
    destruct (ex_delegated st); [|destruct (ex_pending st)].
    + eapply lines_calm; [apply calm_update; done|by apply publish_lines].
    + eapply lines_calm; [apply calm_tab_idle|by apply publish_lines].
    + by apply completePending_lines.
  - pose proof (failed_plan x r "browser command failed" w x) as Hp. rewrite E in Hp.
    apply (failed_lines x r "browser command failed") in H. set (w1 := failed_with _ _ _ _) in *. clearbody w1.
    apply hand_over_lines; [done|]. intros c Hc. rewrite Hc in Hp. cbn in Hp. injection Hp as Hp. rewrite Hp. split; [done|].
    intros _. rewrite toResult_lines. cbn -[line_value]. apply normal_lines.
    pose proof (proj1 H x) as Hi. unfold command_inv in Hi. rewrite Hc in Hi. apply Hi.
Qed.
Lemma confirm_returns_lines x tab track oc r i w :
  lines_ok w → lines_ok (confirm_returns locale_le new_RegExp app_config denied x tab track oc r i w).
Proof.
  intros H. unfold confirm_returns. apply (failed_lines x r "network error") in H. set (w1 := failed_with _ _ _ _) in *. clearbody w1.
  case_bool_decide.
  - eapply lines_calm; [eapply calm_trans; [|apply calm_settle]; by apply calm_tell|by apply publish_lines].
  - apply completePending_lines. eapply lines_calm; [by apply calm_update|done].
Qed.
Lemma returns_lines i t r w : thread_at w i = Some t → lines_ok w → lines_ok (returns locale_le new_RegExp app_config denied i t r w).
Proof.
  intros Ht%thread_at_In H. pose proof (proj2 H _ _ Ht) as Hw. unfold returns. cbv zeta.
  set (wr := with_threads _ w). assert (lines_ok wr) as Hr.
  { apply (lines_calm w); [apply calm_same; [done|done|]|exact H]. cbn. intros j u [_ Hu]%elem_of_filterb. by left. }
  assert (bw_commands wr = bw_commands w) as Hcm by done. clearbody wr.
  destruct t as [x|x tab track oc|x safe spec output k|x k|x tab track].
  - by apply base_returns_lines.
  - by apply confirm_returns_lines.
  - destruct Hw as ((base & echo & Hp) & Hs). destruct (sink_of spec) as [s|] eqn:Es; [|done]. rewrite <-Hcm in Hp.
    destruct r as [m|]; [eapply sink_failed_lines; eauto|]. eapply finish_sink_lines; [exact Es|rewrite update_plan; eauto|].
    eapply lines_calm; [apply calm_eases; done|done].
  - eapply lines_calm; [apply calm_after|done].
  - destruct r; (eapply lines_calm; [|exact Hr]); [|apply calm_settle]. eapply calm_trans; [apply calm_settle|by apply calm_tell].
Qed.
Lemma start_lines p cmd safe calls w : (∀ x, trace x calls = []) → lines_ok w → lines_ok (start_command p cmd safe calls w).
Proof.
  intros Hc [H1 H2]. unfold start_command, createCommandExecution. cbv zeta.
  eapply lines_calm; [eapply calm_trans; [apply calm_tell|by apply calm_spawn]|].
  { intros x. rewrite trace_app, Hc. done. }
  split; cbn; [|intros i t Hin; specialize (H2 _ _ Hin); destruct t; try done].
  - intros x. unfold command_inv. cbn. pose proof (H1 x) as Hx. unfold command_inv in Hx. destruct (bw_commands w !! x) as [c|] eqn:E.
    + by rewrite lookup_app_l, E by (by eapply lookup_lt_Some).
    + destruct (decide (x = length (bw_commands w))) as [->|Hne].
      * rewrite list_lookup_middle by done. cbn. rewrite Hx. constructor; cbn; try done.
        -- by exists [].
        -- intros _. split; [unfold results; cbn; lia|done].
        -- by intros _ [] ? ? ? ?.
      * rewrite lookup_ge_None_2; [done|]. rewrite length_app. cbn. apply lookup_ge_None_1 in E. lia.
  - cbn in *. destruct H2 as ((base & echo & Hp) & Hs). split; [|done]. exists base, echo.
    apply fmap_Some in Hp as (c & Hcx & Hp). rewrite lookup_app_l, Hcx by (by eapply lookup_lt_Some). cbn. by rewrite Hp.
Qed.
Lemma happen_lines e w w' : happen locale_le new_RegExp app_config denied e w = Some w' → lines_ok w → lines_ok w'.
Proof.
  destruct e as [raw|streaming cmd|i a|i r|tab rf|rf|k|p]; cbn [happen].
  - intros [= <-]. apply lines_calm, calm_submit.
  - intros Hw%(inj Some); rewrite <-Hw; destruct streaming;
      [unfold _runStreamingBrowserCommand|unfold _runBufferedBrowserCommandWithOptionalPipe]; cbv zeta; apply start_lines; intros x; [done|]. by destruct (first_word_is _ _).
  - destruct (thread_at w i) as [t|]; [|done]. destruct (acting t) as [x|]; [|done]. intros [= <-] H.
    destruct a; cbn [perform]; try (eapply lines_calm; [apply calm_eases; done|done]).
    + by apply append_line_lines.
    + destruct (_setPendingTerminalConfirm q x w) eqn:E; cbn; [by eapply set_pending_lines|done].
  - destruct (thread_at w i) as [t|] eqn:E; [|done]. intros [= <-]. by apply returns_lines.
  - intros [= <-]. apply lines_calm, calm_cancel.
  - intros [= <-]. apply lines_calm. unfold cancelAllPendingTerminalConfirms. cbv zeta.
    eapply calm_trans; [apply calm_cancel_list|]. destruct (_ && _); [by apply calm_tell|apply calm_same; auto].
  - intros [= <-]. apply lines_calm, calm_cancel_list.
  - intros [= <-]. apply lines_calm, calm_same; auto.
Qed.
Lemma reachable_lines w : reachable locale_le new_RegExp app_config denied w → lines_ok w.
Proof.
  induction 1 as [p|e w w' _ IH Hs]; [|by eapply happen_lines]. split; [intros x; done|]. cbn. by intros i t ?%not_elem_of_nil.
Qed.
End Lines.

(** ** Lemmas: what is typed *)

Lemma thread_found w i t : NoDup (map fst (bw_threads w)) → (i, t) ∈ bw_threads w → thread_at w i = Some t.
Proof.
  unfold thread_at. induction (bw_threads w) as [|[j u] l IH]; [by intros _ ?%not_elem_of_nil|].
  cbn [map fst findb]. intros [Hj Hnd]%NoDup_cons [[= <- <-]|Hin]%elem_of_cons; [by rewrite Nat.eqb_refl|].
  rewrite (proj2 (Nat.eqb_neq j i)); [by apply IH|]. intros ->. by apply Hj, (in_keys _ t).
Qed.
(** A log that grows by entries none of which is a new command. *)
Definition starts_nothing (w w' : world) : Prop := ∃ l, bw_log w' = bw_log w ++ l ∧ ∀ cmd, NewCommand cmd ∉ l.
Lemma starts_nothing_tell l w : (∀ cmd, NewCommand cmd ∉ l) → starts_nothing w (tell l w).
Proof. by exists l. Qed.
Lemma run_starts_nothing c answer p onComplete track w w' :
  starts_nothing w w' → starts_nothing w (_runPendingTerminalConfirmHandler c answer p onComplete track (clear_pending (pe_tabId p) w')).
Proof.
  intros (l & Hl & Hn). unfold _runPendingTerminalConfirmHandler. cbv zeta. destruct (clear_face (pe_tabId p) w') as (Hc & _).
  set (wt := if track then _ else _). assert (bw_log wt = bw_log w ++ l) as Ht by (unfold wt; destruct track; cbn; by rewrite Hc, Hl).
  clearbody wt. destruct c as [c|]; [|by exists l]. exists (l ++ [Handle (pe_number p) c answer]). cbn. rewrite Ht, app_assoc.
  split; [done|]. intros cmd [?|Hx]%elem_of_app; [by eapply Hn|]. by apply list_elem_of_singleton in Hx.
Qed.
Lemma submit_busy rawCmd w :
  pg_active (bw_page w) ∈ bw_settling w ∨ is_Some (_pendingTerminalConfirmForTab w (pg_active (bw_page w))) →
  starts_nothing w (submit rawCmd w).
Proof.
  intros Hb. assert (∀ c : page_call, (∀ cmd, c ≠ NewCommand cmd) → starts_nothing w (tell [c] w)) as Ht.
  { intros c Hc. apply starts_nothing_tell. intros cmd Hx%list_elem_of_singleton. by eapply Hc. }
  unfold submit. cbv zeta. case_bool_decide as Hs; [by apply Ht|]. destruct (negb _); [by apply Ht|].
  destruct Hb as [|[p Hp]]; [done|]. rewrite Hp. set (we := if bool_decide _ then w else _).
  assert (starts_nothing w we) as He.
  { unfold we. case_bool_decide; [|by apply Ht]. exists []. rewrite app_nil_r. split; [done|]. by intros ? ?%not_elem_of_nil. }
  clearbody we. destruct (_ || _); [by apply run_starts_nothing|]. destruct (negb _).
  - destruct He as (l & Hl & Hn). eexists. cbn. rewrite Hl, <-app_assoc. split; [reflexivity|].
    intros cmd [?|Hx]%elem_of_app; [by eapply Hn|]. by apply list_elem_of_singleton in Hx.
  - destruct (one_of _ _); by apply run_starts_nothing.
Qed.
(** The world without the answers that were given. *)
Definition hide (c : page_call) : page_call := match c with Handle n cb (Some _) => Handle n cb (Some []) | _ => c end.
Definition hidden (w : world) : world :=
  World (bw_sequence w) (bw_commands w) (bw_pendings w) (bw_settling w) (bw_threads w) (bw_next w) (bw_page w) (bw_mode w)
    (map hide (bw_log w)).

(** *** A command comes to its end *)

Lemma failed_completed x r fallback w st p :
  bw_commands w !! x = Some (Command st p) →
  ∃ st', bw_commands (failed_with x r fallback w) !! x = Some (Command st' p) ∧ ex_completed st' = ex_completed st.
Proof.
  intros E. destruct r as [m|]; [|by exists st]. cbn [failed_with]. unfold handler_failed, append_line. rewrite E. cbn [cm_exec cm_plan].
  assert (ex_completed (snd (appendLine (streams_of p) (VStr (js "[error] " ++ str_or m (js fallback))) (vstr "exit-fail") VNull st)) = ex_completed st) as Hc
    by (unfold appendLine; cbv zeta; by destruct (_ || _)).
  destruct (appendLine _ _ _ _ _) as [ls st']. cbn [snd] in Hc. exists (fail_with st').
  cbn. rewrite !list_lookup_alter, !decide_True, E by done. done.
Qed.
Lemma completePending_told locale_le new_RegExp app_config denied x i k w st base spec safe echo :
  bw_commands w !! x = Some (Command st (Buffered base spec safe echo)) → sink_of spec = None → ex_completed st = false →
  ∃ ls res, Complete x ls res ∈ bw_log (completePending locale_le new_RegExp app_config denied x i k w).
Proof.
  intros E Hs Hc. unfold completePending. rewrite E, Hc. unfold _completeBufferedBrowserCommand, exec_of.
  rewrite E, Hs. cbn [fmap option_fmap option_map cm_exec]. unfold finish_completion, hand_over, exec_of. rewrite E.
  cbn [fmap option_fmap option_map cm_exec]. eexists _, _. cbn. apply elem_of_app. right. by left.
Qed.
Lemma no_pending_frame w w' tab : frame w w' → _pendingTerminalConfirmForTab w' tab = _pendingTerminalConfirmForTab w tab.
Proof. intros []. unfold _pendingTerminalConfirmForTab. by rewrite fr_pendings0. Qed.
Lemma cleared_none tab w : findb (λ p : jsstr * pending, fst p ==s tab) (filterb (λ p, negb (fst p ==s tab)) (bw_pendings w)) = None.
Proof.
  apply findb_None. intros p [Hp _]%elem_of_filterb. by apply negb_true_iff in Hp.
Qed.

(** ** Theorems *)

Section Theorems.
Context (locale_le : jsstr → jsstr → bool) (new_RegExp : jsstr → bool → jsstr + (jsstr → bool)) (app_config : jsval)
        (denied : jsstr).
Notation happens := (happen locale_le new_RegExp app_config denied).
Notation reached := (reachable locale_le new_RegExp app_config denied).

(** C31: However the commands of several tabs, their questions, the answers and
    the cancellations interleave, no question is answered or canceled twice and
    none that was is still open; a tab has at most one open question, of a
    command that was started in it and is pending; and the composer shows the
    prompt of the question of the active tab. *)
Theorem questions_answered_once w :
  reached w →
  NoDup (handled (bw_log w)) ∧ NoDup (map fst (bw_pendings w))
  ∧ (∀ tab p, (tab, p) ∈ bw_pendings w →
       pe_number p ∉ handled (bw_log w) ∧ pe_tabId p = tab
       ∧ ∃ st, exec_of w (pe_exec p) = Some st ∧ ex_tabId st = tab ∧ ex_pending st = true)
  ∧ bw_mode w = mode_of (_pendingTerminalConfirmForTab w (pg_active (bw_page w))).
Proof.
  intros H%commands_reachable_ok. destruct H. split_and!; try done. intros tab p Hin. eapply Forall_forall in ok_pendings0; [|exact Hin].
  by destruct ok_pendings0 as (H1 & H2 & H3 & H4 & H5).
Qed.

(** A tab is marked as settling exactly while a confirmed action runs in it,
    once; and what is typed while the active tab is settling or has an open
    question never becomes a command. *)
Theorem busy_tab_starts_nothing w :
  reached w →
  NoDup (bw_settling w)
  ∧ (∀ tab, tab ∈ bw_settling w ↔ ∃ i t, thread_at w i = Some t ∧ tab ∈ tracks t)
  ∧ ∀ rawCmd, pg_active (bw_page w) ∈ bw_settling w ∨ is_Some (_pendingTerminalConfirmForTab w (pg_active (bw_page w))) →
      ∃ l, bw_log (submit rawCmd w) = bw_log w ++ l ∧ ∀ cmd, NewCommand cmd ∉ l.
Proof.
  intros H%commands_reachable_ok. split; [apply H|]. split.
  - intros tab. rewrite (ok_settling _ _ H). cbn [app]. split.
    + intros ([i t] & Hin & Ht)%list_elem_of_In%in_flat_map. exists i, t. split; [|by apply list_elem_of_In].
      apply thread_found; [apply H|by apply list_elem_of_In].
    + intros (i & t & Hi%thread_at_In & Ht). apply list_elem_of_In, in_flat_map. exists (i, t). by rewrite <-!list_elem_of_In.
  - intros rawCmd Hb. apply submit_busy, Hb.
Qed.

(** C32: The answer to a secret prompt shows nowhere: whatever is typed, the page
    is told the same and is left in the same state; only the handler that asked
    gets the answer. *)
Theorem secret_answers_hidden w p raw1 raw2 :
  _pendingTerminalConfirmForTab w (pg_active (bw_page w)) = Some p → qu_kind (pe_question p) = QSecret →
  nonempty (trim raw1) = true → nonempty (trim raw2) = true → hidden (submit raw1 w) = hidden (submit raw2 w).
Proof.
  intros Hp Hk H1 H2. unfold submit. cbv zeta. rewrite H1, H2, Hp, Hk. cbn [negb].
  rewrite (bool_decide_true (QSecret = QSecret)) by done. rewrite orb_true_r. case_bool_decide; [done|].
  unfold _runPendingTerminalConfirmHandler, given_callback, hidden. cbv zeta. destruct (bool_decide (OnAnswer ∈ _)); [|done].
  cbn. f_equal. by rewrite !map_app.
Qed.

(** Every line a command collects reaches the reader once and in order: the
    result it hands over holds all its lines; those shown before are its first
    lines and marked, the others are not and are shown with the result. A command
    that writes no file hands over one result. *)
Theorem output_shown_once w x c l1 ls r l2 :
  reached w → bw_commands w !! x = Some c → unfiltered (cm_plan c) → bw_log w = l1 ++ Complete x ls r :: l2 →
  r_lines r = ls
  ∧ (∃ later, ls = map rendered (shows (trace x l1)) ++ later ∧ Forall unrendered later)
  ∧ (once_plan (cm_plan c) → ∀ ls' r', Complete x ls' r' ∉ l1 ++ l2).
Proof.
  intros H%reachable_lines Hc Hu Hl. pose proof (proj1 H x) as Hi. unfold command_inv in Hi. rewrite Hc, Hl in Hi.
  rewrite trace_app in Hi. assert (trace x (Complete x ls r :: l2) = inr (ls, r) :: trace x l2) as Ht.
  { unfold trace. cbn. by rewrite Nat.eqb_refl. }
  rewrite Ht in Hi. destruct (co_results _ _ _ Hi Hu _ _ _ _ eq_refl) as [Hr Hs]. split; [done|]. split; [done|].
  intros Ho ls' r' Hin. destruct (co_once _ _ _ Hi Ho) as [Hlen _].
  assert (inr (ls', r') ∈ trace x l1 ++ trace x l2) as Hin'.
  { rewrite <-trace_app. unfold trace. apply list_elem_of_omap. exists (Complete x ls' r'). split; [exact Hin|]. by rewrite Nat.eqb_refl. }
  assert ((ls', r') ∈ results (trace x l1) ++ results (trace x l2)) as Hin''.
  { rewrite <-results_app. unfold results. apply list_elem_of_omap. by exists (inr (ls', r')). }
  rewrite results_app, length_app in Hlen. cbn in Hlen. change (results (inr (ls, r) :: trace x l2)) with ((ls, r) :: results (trace x l2)) in Hlen.
  cbn [length] in Hlen. apply elem_of_app in Hin'' as [Hx|Hx]; apply list_elem_of_lookup_1 in Hx as [n Hx%lookup_lt_Some]; lia.
Qed.

(** Canceling a question ends its command: the question is gone at once, a
    callback runs, and however that ends, the command hands its result over. *)
Theorem canceled_question_completes w tab p refocus st base spec safe echo :
  reached w → _pendingTerminalConfirmForTab w tab = Some p →
  bw_commands w !! pe_exec p = Some (Command st (Buffered base spec safe echo)) → sink_of spec = None → ex_completed st = false →
  ∃ i w1, happens (Cancel tab refocus) w = Some w1 ∧ _pendingTerminalConfirmForTab w1 tab = None
  ∧ thread_at w1 i = Some (TConfirm (pe_exec p) tab false None)
  ∧ ∀ r, ∃ w2 ls res, happens (Returns i r) w1 = Some w2 ∧ Complete (pe_exec p) ls res ∈ bw_log w2.
Proof.
  intros H Hp Hc Hs Hd. pose proof (pending_In _ _ _ Hp) as Hin. pose proof (commands_reachable_ok _ _ _ _ _ H) as Hok.
  assert (pe_tabId p = tab) as Htab by (pose proof (ok_pendings _ _ Hok) as Hps; eapply Forall_forall in Hps; [|exact Hin]; by apply Hps).
  set (w1 := cancelPendingTerminalConfirm tab refocus w). assert (ok [] w1) as Hok1 by (by apply ok_cancel).
  assert (bw_commands w1 = bw_commands w ∧ _pendingTerminalConfirmForTab w1 tab = None
          ∧ (bw_next w, TConfirm (pe_exec p) tab false None) ∈ bw_threads w1) as (Hc1 & Hp1 & Ht1).
  { unfold w1, cancelPendingTerminalConfirm. rewrite Hp, Htab. destruct (clear_face tab w) as (_ & Hn & Hcm & _).
    assert (bw_pendings (clear_pending tab w) = filterb (λ p, negb (fst p ==s tab)) (bw_pendings w)) as Hpe
      by (unfold clear_pending, sync_if_active; by destruct (is_active _ _)).
    unfold _runPendingTerminalConfirmHandler, _pendingTerminalConfirmForTab. rewrite Htab. cbn [andb].
    destruct refocus, (match given_callback p OnCancel with Some c => Some c | None => given_callback p OnNo end); cbn;
      rewrite Hcm, Hn, Hpe, cleared_none; (split; [done|split; [done|]]); apply elem_of_app; right; by left. }
  exists (bw_next w), w1. split; [done|]. split; [done|]. pose proof (thread_found _ _ _ (ok_ids _ _ Hok1) Ht1) as Ht. split; [exact Ht|].
  intros r. cbn [happen]. rewrite Ht. eexists. cbn [returns]. unfold confirm_returns.
  set (wr := with_threads _ w1). assert (bw_commands wr !! pe_exec p = Some (Command st (Buffered base spec safe echo))) as Er
    by (change (bw_commands wr) with (bw_commands w1); by rewrite Hc1).
  destruct (failed_completed _ r "network error" _ _ _ Er) as (st' & Es & Hd'). rewrite (no_pending_frame wr) by apply failed_frame.
  change (_pendingTerminalConfirmForTab wr tab) with (_pendingTerminalConfirmForTab w1 tab). rewrite Hp1. cbn [fmap option_fmap option_map].
  rewrite bool_decide_false by done.
  match goal with |- context [completePending _ _ _ _ ?x ?i ?k ?w] => set (wu := w) end.
  assert (bw_commands wu !! pe_exec p = Some (Command (setPending (VBool false) st') (Buffered base spec safe echo))) as Eu
    by (unfold wu; cbn; rewrite list_lookup_alter, decide_True, Es; done).
  destruct (completePending_told locale_le new_RegExp app_config denied (pe_exec p) (bw_next w)
              (ConfirmWaits tab false (match r with Some _ => None | None => None end)) wu _ _ _ _ _ Eu Hs) as (ls & res & Hin2);
    [cbn; by rewrite Hd'|]. by exists ls, res.
Qed.
End Theorems.

(** ** Examples *)

Definition example_page : page := Page (js "tab-1") (Cache [] [folder_item (js "a.txt") (js "a.txt")]) (λ _, []) true.
Notation demo_happen := (happen (λ _ _, true) (λ _ _, inl []) VNull (js "You may not write Files")).
Notation demo_reached := (reachable (λ _ _, true) (λ _ _, inl []) VNull (js "You may not write Files")).
(** Events one by one; an event that cannot happen is skipped. *)
Definition demo (es : list event) : world := fold_left (λ w e, default w (demo_happen e w)) es (start_world example_page).
Lemma demo_commands_reachable es : demo_reached (demo es).
Proof.
  unfold demo. assert (demo_reached (start_world example_page)) as H by constructor. revert H.
  generalize (start_world example_page). induction es as [|e es IH]; intros w H; cbn; [done|]. apply IH.
  destruct (demo_happen e w) eqn:E; [by eapply reach_step|done].
Qed.
Definition text_shown (c : page_call) : option jsstr :=
  match c with Echo t _ => Some t | Show _ l _ => Some (ln_text l) | Note t _ _ => Some t | _ => None end.

(** A deletion, answered after a first answer that is none. *)
Definition deletion_events : list event :=
  [Start false (js "rm a.txt"); Does 0 (ALine (vstr "delete session file 'a.txt'?") (VStr []) VNull);
   Does 0 (AAsk (Question QConfirm [OnYes; OnNo])); Does 0 (AStatus (js "idle") VUndef); Returns 0 None; Submit (js "maybe")].
Definition confirmed_events : list event :=
  deletion_events ++ [Submit (js " YES "); Does 2 (ALine (vstr "file: removed a.txt") (VStr []) VNull);
                      Does 2 (AStatus (js "ok") VUndef); Submit (js "rm b.txt"); Returns 2 None; Returns 2 None].
Example deletion_shown :
  omap text_shown (bw_log (demo confirmed_events))
  = [js "rm a.txt"; js "delete session file 'a.txt'?"; js "maybe"; js "please answer yes or no"; js "YES";
     js "file: removed a.txt"; js "[pending] The confirmed action is still starting."].
Proof. vm_compute. reflexivity. Qed.
(** A secret that is asked for and given. *)
Definition secret_events : list event :=
  [Start false (js "workflow run scan"); Does 0 (AAsk (Question QSecret [OnAnswer; OnCancel])); Returns 0 None].
Example secret_prompt : bw_mode (demo secret_events) = PromptSecret.
Proof. vm_compute. reflexivity. Qed.

Fixpoint find_result (x : nat) (log : list page_call) : option (list page_call * list command_line * result * list page_call) :=
  match log with
  | [] => None
  | c :: log =>
      match c with
      | Complete y ls r => if Nat.eqb y x then Some ([], ls, r, log)
                           else '(l1, ls, r, l2) ← find_result x log; Some (c :: l1, ls, r, l2)
      | _ => '(l1, ls, r, l2) ← find_result x log; Some (c :: l1, ls, r, l2)
      end
  end.
Lemma find_result_spec x log l1 ls r l2 : find_result x log = Some (l1, ls, r, l2) → log = l1 ++ Complete x ls r :: l2.
Proof.
  revert l1. induction log as [|c log IH]; intros l1 H; [done|]. cbn in H.
  destruct c as [| | | | | | | | | | |y ls' r']; try destruct (Nat.eqb y x) eqn:E;
    try (destruct (find_result x log) as [[[[l1' ls1] r1] l2']|]; [|done]; cbn in H; injection H as <- <- <- <-; by rewrite (IH l1')).
  injection H as <- <- <- <-. apply Nat.eqb_eq in E. by subst.
Qed.

Lemma questions_answered_once_witness : NoDup (handled (bw_log (demo confirmed_events))).
Proof. apply (questions_answered_once _ _ _ _ _ (demo_commands_reachable confirmed_events)). Defined.
Lemma busy_tab_starts_nothing_witness :
  ∃ l, bw_log (submit (js "rm b.txt") (demo deletion_events)) = bw_log (demo deletion_events) ++ l ∧ ∀ cmd, NewCommand cmd ∉ l.
Proof.
  apply (busy_tab_starts_nothing _ _ _ _ _ (demo_commands_reachable deletion_events)). right. apply (bool_decide_unpack _). vm_compute. exact I.
Defined.
Lemma secret_answers_hidden_witness :
  hidden (submit (js "hunter2") (demo secret_events)) = hidden (submit (js "letmein") (demo secret_events)).
Proof.
  eapply secret_answers_hidden; vm_compute; reflexivity.
Defined.
Lemma output_shown_once_witness :
  match find_result 0 (bw_log (demo confirmed_events)) with Some (_, ls, r, _) => r_lines r = ls | None => False end.
Proof.
  destruct (find_result 0 (bw_log (demo confirmed_events))) as [[[[l1 ls] r] l2]|] eqn:E; [|vm_compute in E; discriminate].
  destruct (bw_commands (demo confirmed_events) !! 0%nat) as [c|] eqn:Ec; [|vm_compute in Ec; discriminate].
  eapply (output_shown_once _ _ _ _ _ _ _ _ _ _ _ (demo_commands_reachable confirmed_events) Ec).
  - assert (match cm_plan <$> bw_commands (demo confirmed_events) !! 0%nat with Some p => unfiltered p | None => False end) as H
      by (vm_compute; exact I). rewrite Ec in H. exact H.
  - by apply find_result_spec.
Defined.
Lemma canceled_question_completes_witness :
  ∃ i w1, demo_happen (Cancel (js "tab-1") true) (demo deletion_events) = Some w1
  ∧ ∀ r, ∃ w2 ls res, demo_happen (Returns i r) w1 = Some w2 ∧ Complete 0 ls res ∈ bw_log w2.
Proof.
  destruct (canceled_question_completes _ _ _ _ (demo deletion_events) (js "tab-1") (Pending 1 0 (js "tab-1") (Question QConfirm [OnYes; OnNo])) true
              (match exec_of (demo deletion_events) 0 with Some st => st | None => snd (createCommandExecution 0 VNull VNull VNull VNull [] VNull) end)
              (js "rm a.txt") NotSynthetic (js "rm a.txt") false (demo_commands_reachable deletion_events))
    as (i & w1 & H1 & _ & _ & H2); [vm_compute; reflexivity|vm_compute; reflexivity|reflexivity|vm_compute; reflexivity|].
  by exists i, w1.
Defined.
