(* ===== verification/SubmitCommand.v ===== *)
(** Starting a command (app/static/js/runner.js, [submitCommand] past the
    questions of BrowserCommands.v): what is refused in the browser, which
    handler or server a command goes to, in which tab it runs, and what the
    answer to POST /runs does to that tab. *)

From S2P Require Import Prelude JsString JsNumber JsRegExp JsValue RunnerCore RunnerPersistence WorkspaceCommands AppState CommandLifecycle RunStream RunTab RunLifecycle RunRecovery TabList.

(** ** Definitions: what is refused *)

Definition SHELL_OPS_RE : regexp := Eval vm_compute in lit "&&|\|\|?|;;?|`|\$\(|>>?|<" false.
Definition FORK_BOMB_RE : regexp := Eval vm_compute in lit "^:\(\)\s*\{\s*:\s*\|\s*:\s*&\s*\}\s*;\s*:$" false.
(** [/(?<![\w:\/])name\b/.test(s)] for a path [name] that ends in a word unit:
    the name, not behind a word, colon or slash, and not inside a longer word. *)
Definition ends_word (s : jsstr) : bool := match s with c :: _ => negb (is_word c) | [] => true end.
Definition may_precede (c : option Z) : bool :=
  match c with Some c => negb (is_word c || (c =? 58) || (c =? 47)) | None => true end.
Fixpoint mentions_from (name : jsstr) (prev : option Z) (s : jsstr) : bool :=
  (may_precede prev && starts_with name s && ends_word (drop (length name) s))
  || match s with c :: s => mentions_from name (Some c) s | [] => false end.
Definition mentions (name : jsstr) (s : jsstr) : bool := mentions_from name None s.

Section Submit.
(** The commands the server lists as special; the configuration; whether the
    workspace is on; which handlers are loaded; whether this member may run
    commands, and what is said otherwise. *)
Context (acSpecialCommands app_config : jsval) (workspace_enabled : bool) (loaded : string → bool) (may_run : bool)
        (denied_message : jsstr).

Definition special_entry (v : jsval) : list jsval :=
  match v with
  | VStr s => [VStr s]
  | VArr l => l
  | VObj o => filterb truthy (map (λ k, get v (js k)) ["command"; "value"; "insertValue"]%string)
  | _ => []
  end.
Definition known_specials : list jsval :=
  match js_or acSpecialCommands (VArr []) with
  | VArr l => l
  | VObj o => flat_map (λ p, special_entry (snd p)) (entries o)
  | _ => []
  end.
Definition _isExactSpecialBuiltInCommand (cmd : jsstr) : bool :=
  let normalized := collapse_ws false (lower (trim cmd)) in
  existsb (λ v, is_str v normalized) known_specials || test FORK_BOMB_RE (trim cmd).

(** ** Definitions: which command it is *)

Definition root_is (names : list string) (cmd : jsstr) : bool := one_of names (lower (first_word cmd)).
Definition _isCredentialCommand (cmd : jsstr) : bool := root_is ["credential"]%string cmd.
Definition _isClientSideUiCommand (cmd : jsstr) : bool := root_is ["theme"; "config"; "tour"]%string cmd.
Definition _isClientSideSecretSetCommand (cmd : jsstr) : bool :=
  let parts := words (trim cmd) in (lower (word 0 parts) ==s js "secret") && (lower (word 1 parts) ==s js "set").
Definition EXIT_RE : regexp := Eval vm_compute in lit "^(exit|quit)$" true.
Definition _isTabCloseCommand (cmd : jsstr) : bool := test EXIT_RE (trim cmd).

Definition PTY_WORD_RE : regexp := Eval vm_compute in lit "\x22[^\x22]*\x22|'[^']*'|\S+" false.
Definition _splitPtyCommand (cmd : jsstr) : list jsstr := let s := trim cmd in map (matched s) (exec_all PTY_WORD_RE s).
Definition _interactivePtySpecs : list jsval :=
  match items_of (get app_config (js "interactive_pty_commands")) with
  | [] => [VObj [(js "root", vstr "mtr"); (js "trigger_flag", vstr "--interactive"); (js "default_rows", vint 24); (js "default_cols", vint 100);
                  (js "requires_args", VBool true)]]
  | configured => configured
  end.
Definition _interactivePtySpecForCommand (cmd : jsstr) : option jsval :=
  let parts := _splitPtyCommand cmd in
  let root := lower (word 0 parts) in
  if negb (nonempty root) then None else
  findb (λ spec,
    let trigger := str_of (get spec (js "trigger_flag")) in
    (lower (str_of (get spec (js "root"))) ==s root) && nonempty trigger && bool_decide (trigger ∈ drop 1 parts))
    _interactivePtySpecs.
Definition isInteractivePtyCommand (cmd : jsstr) : bool := bool_decide (is_Some (_interactivePtySpecForCommand cmd)).

(** ** Definitions: where it goes *)

Inductive handler :=
  | HCredential | HSecretSet | HFileTerminal | HFileDelete | HFileMove | HFileCopy | HFileEditor | HFileDownload
  | HProbe | HWorkflow | HTheme | HConfig | HTour (streaming : bool).
Inductive route :=
  | Denied (message : string) | CloseThisTab | InteractivePty
  | InBrowser (h : handler) | NotReady (message : jsstr) | ReadOnly | ToServer.

Definition operators_denied (cmd : jsstr) : bool :=
  test SHELL_OPS_RE cmd && negb (isSyntheticPostFilterCommand cmd) && negb (_isExactSpecialBuiltInCommand cmd).
Definition paths_denied (cmd : jsstr) : bool := mentions (js "/data") cmd || mentions (js "/tmp") cmd.
Definition ui_route (cmd : jsstr) : route :=
  let root := lower (first_word cmd) in
  if (root ==s js "theme") && loaded "theme" then InBrowser HTheme
  else if (root ==s js "config") && loaded "config" then InBrowser HConfig
  else if (root ==s js "tour") && loaded "tour" then InBrowser (HTour (negb (nonempty (lower (word 1 (words (trim cmd)))))))
  else NotReady (js "[error] " ++ root ++ js " command is not ready — reload the page and try again").
Definition route_of (cmd : jsstr) : route :=
  if test FD_REDIRECT_RE cmd then Denied "[denied] Only stdout redirection with >, >>, or final | tee is supported."
  else if operators_denied cmd then Denied "[denied] Shell operators (&&, |, ;, >, etc.) are not permitted."
  else if paths_denied cmd then Denied "[denied] Access to /data and /tmp is not permitted."
  else if _isTabCloseCommand cmd then CloseThisTab
  else if isInteractivePtyCommand cmd then InteractivePty
  else if _isCredentialCommand cmd then InBrowser HCredential
  else if _isClientSideSecretSetCommand cmd then InBrowser HSecretSet
  else if _isWorkspaceTerminalCommand workspace_enabled cmd then InBrowser HFileTerminal
  else if _isWorkspaceDeleteCommand workspace_enabled cmd then InBrowser HFileDelete
  else if _isWorkspaceMoveCommand workspace_enabled cmd then InBrowser HFileMove
  else if _isWorkspaceCopyCommand workspace_enabled cmd then InBrowser HFileCopy
  else if _isWorkspaceEditorCommand workspace_enabled cmd then InBrowser HFileEditor
  else if _isWorkspaceDownloadCommand workspace_enabled cmd then InBrowser HFileDownload
  else if root_is ["probe"]%string cmd then InBrowser HProbe
  else if root_is ["workflow"]%string cmd
  then (if loaded "workflow" then InBrowser HWorkflow
        else NotReady (js "[error] workflow command is not ready — reload the page and try again"))
  else if _isClientSideUiCommand cmd then ui_route cmd
  else if negb may_run then ReadOnly
  else ToServer.

(** ** Definitions: the start *)

(** Calls outside the tabs. *)
Inductive shell_call :=
  | CancelWelcome (tab : jsstr) | AddHistory (text : jsstr) | RememberValues (cmd : jsstr)
  | StartPty (cmd tab : jsstr) | StartBrowser (h : handler) (cmd tab : jsstr) | StartTimer
  | PostRun (cmd tab cwd : jsstr) | SubscribeStream (runId tab : jsstr) (stream : jsval) | LogRunError (err : jsval).
Record shell := Shell { sh_tabs : tabs; sh_calls : list shell_call }.
Definition on_tabs (f : tabs → tabs) (s : shell) : shell := Shell (f (sh_tabs s)) (sh_calls s).
Definition say (l : list shell_call) (s : shell) : shell := Shell (sh_tabs s) (sh_calls s ++ l).

(** The limit of tabs, the history panel, this browser, the elapsed time; the
    time now; how many lines the tab has behind the echo; the folder of a tab;
    whether the welcome text owns a tab. *)
Context (max_tabs : Z) (historyOpen : bool) (clientId : jsstr) (secs : option num)
        (now : num) (raw_lines : Z) (cwd_of : jsstr → jsstr) (welcomeOwns : jsstr → bool).
Notation on_id := (on_tab historyOpen clientId).
Definition on_active (a : act) (s : shell) : shell :=
  on_tabs (λ w, on_id (ts_active w) (λ _, a) w) s.

Definition line (text : jsstr) (cls : string) : act := emit (AppendLine (VStr text) (vstr cls) None).
Definition echo (cmd : jsstr) : act := command_echo (VStr cmd).
Definition status (st : string) : act := emit (SetStatus (js st)).
Definition denied_here (cmd : jsstr) (message : jsstr) : act :=
  echo cmd |> line message "denied" |> status "fail" |> emit (LastExit (vint 1)) |> setTabStatus (js "fail").
(** The fields of the tab a server run starts in. *)
Definition start_fields : act :=
  put "runStart" (VNum now) |> put "currentRunStartIndex" (vint raw_lines) |> put "previewTruncated" (VBool false)
  |> put "fullOutputAvailable" (VBool false) |> put "fullOutputLoaded" (VBool false) |> put "historyRunId" VNull
  |> put "historyRunKind" vnull_str |> put "reconnectedRun" (VBool false) |> put "commandOutcomeSummary" VNull
  |> put "lastEventId" vnull_str |> put "attachMode" vnull_str |> put "followOutput" (VBool true)
  |> put "deferPromptMount" (VBool false).
Definition start_server_run (cmd : jsstr) : act :=
  setTabRunningCommand (VStr cmd) |> echo cmd |> start_fields |> status "running" |> setTabStatus (js "running")
  |> emit (RunButtonDisabled true) |> emit ShowKill.

(** A fresh tab when the active one is running; [None] at the limit. *)
Definition free_tab (w : tabs) : option tabs :=
  match _tabById (ts_active w) w with
  | Some o =>
      if running o
      then match createTab max_tabs (createDefaultTabLabel None w) w with
           | (Some _, w) => Some w
           | (None, _) => None
           end
      else Some w
  | None => Some w
  end.
(** What is done for a command whose tab is found; the result is whether the
    composer is emptied. *)
Definition follow_route (cmd : jsstr) (s : shell) : bool * shell :=
  let tab := ts_active (sh_tabs s) in
  let remembered := say [AddHistory (historySafeCommand (VStr cmd)); RememberValues cmd] s in
  match route_of cmd with
  | Denied message => (false, on_active (denied_here cmd (js message)) s)
  | CloseThisTab => (true, on_tabs (closeTab historyOpen clientId tab) s)
  | InteractivePty => (true, say [StartPty cmd tab] remembered)
  | InBrowser h =>
      (true, say [StartBrowser h (match h with HSecretSet => historySafeCommand (VStr cmd) | _ => cmd end) tab] remembered)
  | NotReady message => (true, on_active (echo cmd |> line message "exit-fail" |> status "fail") remembered)
  | ReadOnly =>
      (true, on_active (echo cmd |> line (js "[denied] " ++ denied_message) "denied" |> status "fail" |> setTabStatus (js "fail")) remembered)
  | ToServer =>
      (true, say [StartTimer; PostRun cmd tab (cwd_of tab)] (on_active (start_server_run cmd) remembered))
  end.
Definition submitCommand (cmd : jsstr) (s : shell) : bool * shell :=
  let active := ts_active (sh_tabs s) in
  let s := if welcomeOwns active
           then on_tabs (on_id active (λ pg, clearTab pg false)) (say [CancelWelcome active] s)
           else s in
  match free_tab (sh_tabs s) with
  | None => (false, on_tabs (calling [LimitToast]) s)
  | Some w => follow_route cmd (Shell w (sh_calls s))
  end.

(** ** Definitions: the answer of the server *)

(** The body of a failed answer; [None]: it cannot be read. *)
Inductive error_body := JsonBody (data : option jsval) | TextBody (text : option jsstr) | NoBody.
Definition text_prop (v : jsval) (k : string) : option jsstr :=
  match get v (js k) with VStr s => if nonempty (trim s) then Some (trim s) else None | _ => None end.
Definition _readRunErrorMessage (body : error_body) : jsstr :=
  match body with
  | JsonBody (Some data) =>
      if negb (truthy data) then [] else
      match text_prop data "message" with Some m => m | None => default [] (text_prop data "error") end
  | TextBody (Some text) => trim text
  | _ => []
  end.
Inductive start_reply :=
  | Forbidden (data : option jsval)          (* 403, with its JSON *)
  | RateLimited                              (* 429 *)
  | Refused (body : error_body)              (* any other failure *)
  | Accepted (data : option jsval)
  | Unreachable (err : jsval).
Definition failed_start (text cls : string) (rest : jsstr) : act :=
  line (js text ++ rest) cls |> status "fail" |> setTabStatus (js "fail")
  |> emit StopTimer |> emit (RunButtonDisabled false) |> emit HideKill.
(** [describe]: the text for a failed request. *)
Definition _handleRunTransportFailure (describe : jsval → jsstr) (err : jsval) (pg : page) : act :=
  line (js "[connection error] " ++ describe err) "exit-fail" |> on (pg_active pg) (status "fail") |> setTabStatus (js "fail")
  |> emit DisableResumeControls |> emit StopTimer |> emit (RunButtonDisabled false) |> emit HideKill.
(** [malformed]: the error of a body that is no JSON, or of a property of null. *)
Definition start_answer (describe : jsval → jsstr) (malformed : jsval) (tab : jsstr) (r : start_reply) (s : shell) : shell :=
  let settle (a : page → act) := on_tabs (on_id tab a) s in
  let broken err :=
    say [LogRunError err] (settle (λ pg, emit ClearStalled |> _handleRunTransportFailure describe err pg)) in
  let or_broken (data : option jsval) (k : jsval → shell) :=
    match data with Some v => if nullish v then broken malformed else k v | None => broken malformed end in
  match r with
  | Forbidden data =>
      or_broken data (λ v,
        let message := if is_str (get v (js "error")) (js "team_forbidden") then denied_message
                       else to_string (js_or (get v (js "error")) (js_or (get v (js "message")) (vstr "Command not allowed."))) in
        settle (λ _, failed_start "[denied] " "denied" message))
  | RateLimited => settle (λ _, failed_start "[rate limited] Too many requests. Please wait a moment." "denied" [])
  | Refused body =>
      let message := _readRunErrorMessage body in
      settle (λ _, failed_start "[server error] The server could not start the command." "exit-fail"
                     (if nonempty message then 32 :: message else []))
  | Accepted data =>
      let runId := match data with Some v => get v (js "run_id") | None => VUndef end in
      match data with
      | None => broken malformed
      | Some v =>
          if negb (truthy runId)
          then settle (λ _, failed_start "[server error] The server did not return a run id." "exit-fail" [])
          else say [SubscribeStream (to_string runId) tab (get v (js "stream"))] (settle (λ _, _markTabRunStarted runId))
      end
  | Unreachable err => broken err
  end.
End Submit.

(** ** Lemmas: what the patterns find *)

Definition operators : list jsstr := map js ["&&"; "|"; ";"; "`"; "$("; ">"; "<"]%string.

Lemma units_lang c d u : lang false (Seq (Cls false [CRange c c]) (Cls false [CRange d d])) u ↔ u = [c; d].
Proof.
  cbn [lang]. split.
  - intros (u1 & u2 & -> & ->%unit_lang & ->%unit_lang). done.
  - intros ->. exists [c], [d]. split; [done|]. split; by apply unit_lang.
Qed.
Lemma once_or_twice c g u :
  lang false (Seq (Cls false [CRange c c]) (Rep (Cls false [CRange c c]) 0 (Some 1%nat) g)) u → ∃ v, u = c :: v.
Proof. intros (u1 & u2 & -> & ->%unit_lang & _). by exists u2. Qed.
Lemma once c g : lang false (Seq (Cls false [CRange c c]) (Rep (Cls false [CRange c c]) 0 (Some 1%nat) g)) [c].
Proof.
  exists [c], []. split; [done|]. split; [by apply unit_lang|]. exists []. split; [done|]. split; [constructor|]. unfold within. cbn. lia.
Qed.

Lemma shell_ops_iff s : test SHELL_OPS_RE s = true ↔ ∃ op, op ∈ operators ∧ includes op s = true.
Proof.
  rewrite test_plain by reflexivity. setoid_rewrite includes_spec. split.
  - intros (pre & u & post & -> & Hu). cbn [rx_body rx_icase SHELL_OPS_RE] in Hu.
    repeat match type of Hu with lang _ (Alt _ _) _ => destruct Hu as [Hu|Hu] end;
      first [apply units_lang in Hu as -> | apply unit_lang in Hu as -> | apply once_or_twice in Hu as [v ->]];
      match goal with |- context [pre ++ (?c :: ?v) ++ _] =>
        first [ eexists (c :: v); split; [apply (bool_decide_unpack _); vm_compute; exact I|by exists pre, post]
              | exists [c]; split; [apply (bool_decide_unpack _); vm_compute; exact I|exists pre; by eexists] ] end.
  - intros (op & Hop & pre & post & ->). exists pre, op, post. split; [done|].
    cbn [rx_body rx_icase SHELL_OPS_RE].
    unfold operators in Hop. cbn [map] in Hop. rewrite !elem_of_cons, elem_of_nil in Hop.
    destruct Hop as [->|[->|[->|[->|[->|[->|[->|[]]]]]]]].
    + left. by apply units_lang.
    + right. left. apply once.
    + do 2 right. left. apply once.
    + do 3 right. left. by apply unit_lang.
    + do 4 right. left. by apply units_lang.
    + do 5 right. left. apply once.
    + do 6 right. by apply unit_lang.
Qed.

Lemma mentions_from_iff name prev s :
  mentions_from name prev s = true ↔
  ∃ pre post, s = pre ++ name ++ post
    ∧ may_precede (match last pre with Some c => Some c | None => prev end) = true ∧ ends_word post = true.
Proof.
  revert prev. induction s as [|c s IH]; intros prev; cbn [mentions_from]; rewrite orb_true_iff.
  - rewrite !andb_true_iff, starts_with_spec. split.
    + intros [[[Hp [post Hs]] He]|]; [|done]. exists [], post. split; [done|]. split; [done|].
      by rewrite Hs, drop_app_length in He.
    + intros (pre & post & Hs & Hp & He). destruct pre; [|done]. left. cbn in Hs, Hp.
      rewrite Hs, drop_app_length. split; [split; [done|by exists post]|done].
  - rewrite IH, !andb_true_iff, starts_with_spec. split.
    + intros [[[Hp [post Hs]] He]|(pre & post & -> & Hp & He)].
      * exists [], post. split; [done|]. split; [done|]. by rewrite Hs, drop_app_length in He.
      * exists (c :: pre), post. split; [done|]. split; [|done]. rewrite last_cons. by destruct (last pre).
    + intros ([|d pre] & post & Hs & Hp & He).
      * left. cbn in Hs, Hp. rewrite Hs, drop_app_length. split; [split; [done|by exists post]|done].
      * injection Hs as -> ->. right. exists pre, post. split; [done|]. split; [|done].
        rewrite last_cons in Hp. by destruct (last pre).
Qed.

Lemma mentions_iff name s :
  mentions name s = true ↔
  ∃ pre post, s = pre ++ name ++ post ∧ may_precede (last pre) = true ∧ ends_word post = true.
Proof. unfold mentions. rewrite mentions_from_iff. by split; intros (pre & post & H); exists pre, post; destruct (last pre). Qed.

(** ** Lemmas: the tab a command runs in *)

(** A property is not among those named. *)
Ltac other_key := apply (bool_decide_unpack _); vm_compute; exact I.

Section Tabs.
Context (max_tabs : Z) (historyOpen : bool) (clientId : jsstr).
Notation on_id := (on_tab historyOpen clientId).

(** Leaving a running tab empties its draft and does nothing else. *)
Definition emptied (o : props) : props := set_tab "draftInput" (VStr []) o.

Lemma tabById_append x t w l : ts_list w = ts_list l ++ [t] →
  _tabById x w = match _tabById x l with Some o => Some o | None => if tb_id t ==s x then Some (tb_obj t) else None end.
Proof. unfold _tabById. intros ->. rewrite findb_app. cbn. destruct (findb _ (ts_list l)); [done|]. by destruct (_ ==s _). Qed.

Lemma create_fresh label w id w' : tabs_ok w → createTab max_tabs label w = (Some id, w') →
  tabs_ok w' ∧ ts_active w' = id ∧ id ∉ ids w ∧ (∃ l, _tabById id w' = Some (new_tab l))
  ∧ ∀ o, _tabById (ts_active w) w = Some o → running o = true → _tabById (ts_active w) w' = Some (emptied o).
Proof.
  intros Hok Hc. pose proof (create_ok max_tabs label w Hok (tabs_ok_seq w Hok)) as (Hok' & _). rewrite Hc in Hok'.
  unfold createTab in Hc. destruct (_ && _); [done|]. injection Hc as Hid Hw.
  set (lbl := if nonempty label then _ else _) in Hw. set (w1 := Tabs (ts_list w ++ _) _ _ _ _ _) in Hw. rewrite Hid in Hw.
  assert (id ∉ ids w) as Hnew.
  { intros Hin. pose proof (ok_names w Hok) as Hn. rewrite Forall_forall in Hn.
    destruct (Hn _ Hin) as (n & Heq & Hle). rewrite <-Hid in Heq. apply tab_name_inj in Heq; lia. }
  assert (nonempty (ts_active w) = true) as Hne.
  { apply nonempty_spec. pose proof (ok_names w Hok) as Hn. rewrite Forall_forall in Hn.
    destruct (Hn _ (ok_active w Hok)) as (n & -> & _). done. }
  assert (ts_active w ≠ id) as Hai by (intros <-; by destruct Hok).
  split; [exact Hok'|]. rewrite <-Hw. split; [done|]. split; [done|].
  assert (∀ x, _tabById x (announce "app:tab-created" id (activateTab id w1))
    = if bool_decide (x = ts_active w)
      then (λ o, set_tab "draftInput" (VStr (if running o then [] else ts_composer w)) o) <$> _tabById x w1 else _tabById x w1) as Hget.
  { intros x. unfold activateTab. change (ts_active w1) with (ts_active w). rewrite Hne, (bool_decide_false (ts_active w = id)) by done.
    cbn [negb andb]. exact (tabById_update x (ts_active w) _ w1). }
  assert (∀ x, _tabById x w1 = match _tabById x w with Some o => Some o | None => if id ==s x then Some (new_tab lbl) else None end) as Hw1.
  { intros x. rewrite <-Hid. exact (tabById_append x (Tab (tab_name (ts_seq w + 1)) (new_tab lbl)) w1 w eq_refl). }
  split.
  - eexists. rewrite Hget, bool_decide_false by done. rewrite Hw1. destruct (_tabById id w) eqn:Hi.
    + exfalso. apply Hnew, tabById_Some. by eexists.
    + by rewrite bool_decide_true.
  - intros o Ho Hr. rewrite Hget, bool_decide_true by done. rewrite Hw1, Ho. cbn. by rewrite Hr.
Qed.

Lemma free_tab_spec w : tabs_ok w →
  match free_tab max_tabs w with
  | None => ∃ o, _tabById (ts_active w) w = Some o ∧ running o = true
  | Some w' => tabs_ok w' ∧ (∃ o', _tabById (ts_active w') w' = Some o' ∧ running o' = false)
      ∧ ((w' = w) ∨ ts_active w' ∉ ids w ∧ (∃ l, _tabById (ts_active w') w' = Some (new_tab l))
           ∧ ∃ o, _tabById (ts_active w) w = Some o ∧ running o = true ∧ _tabById (ts_active w) w' = Some (emptied o))
  end.
Proof.
  intros Hok. unfold free_tab. destruct (_tabById (ts_active w) w) as [o|] eqn:Ho.
  2:{ exfalso. pose proof (proj2 (tabById_Some _ _) (ok_active w Hok)) as [? ?]. congruence. }
  destruct (running o) eqn:Hr; [|eauto 10].
  destruct (createTab _ _ _) as [[id|] w'] eqn:Hc; [|eauto].
  destruct (create_fresh _ _ _ _ Hok Hc) as (Hok' & Ha & Hn & [l Hl] & Hleft). subst id.
  split; [done|]. split; [exists (new_tab l); split; [done|reflexivity]|]. right. eauto 10.
Qed.

(** An action that closes nothing changes the object of its tab and no other. *)
Lemma on_tab_spec id a w ks o : _tabById id w = Some o →
  (∀ pg, tame ks keeps_tab (a pg)) →
  let s := a (page_of historyOpen clientId id w) (View (Some o) [] false []) in
  let w' := on_id id a w in
  (∃ o', v_tab s = Some o' ∧ _tabById id w' = Some o') ∧ (∀ x, x ≠ id → _tabById x w' = _tabById x w)
  ∧ ts_active w' = ts_active w ∧ ids w' = ids w ∧ ts_seq w' = ts_seq w
  ∧ ts_calls w' = ts_calls w ++ map (OnTab id) (v_effects s).
Proof.
  intros Ho Ha s w'. pose proof (Ha (page_of historyOpen clientId id w) (View (Some o) [] false [])) as Hc.
  assert (existsb is_finalize (v_effects s) = false) as Hf by apply (keeps_changes ks _ _ Hc).
  destruct Hc as (Ht & _). fold s in Ht. unfold has_tab in Ht. cbn in Ht. destruct (v_tab s) as [o'|] eqn:Hs; [|done].
  destruct (on_tab_object historyOpen clientId id a w o Ho Hf) as (H1 & H2 & H3).
  fold w' in H1, H2, H3. change (a (page_of historyOpen clientId id w) (View (Some o) [] false [])) with s in H1, H2.
  rewrite Hs in H1. cbn in H1.
  split; [by exists o'|]. unfold w', on_tab. rewrite Ho. fold s. rewrite Hf, Hs. cbv zeta. cbn [andb].
  split; [|split; [done|split; [exact (ids_update id _ w)|done]]].
  intros x Hx. change (_tabById x (calling _ ?u)) with (_tabById x u). rewrite tabById_update. by rewrite bool_decide_false.
Qed.
End Tabs.

(** ** Properties *)

(** *** The answer to a start *)

Section Answers.
Context (denied_message : jsstr) (historyOpen : bool) (clientId : jsstr) (describe : jsval → jsstr) (malformed : jsval).
Notation on_id := (on_tab historyOpen clientId).
Notation answer := (start_answer denied_message historyOpen clientId describe malformed).

(** The run an answer announces. *)
Definition announced (r : start_reply) : option jsval :=
  match r with Accepted (Some v) => if truthy (get v (js "run_id")) then Some v else None | _ => None end.

Definition fail_keys : list string := ["st"; "runningLabel"].
(** An action that settles a failed start: one line says why, the tab and the
    page's controls are no longer those of a run. The status pill of the page
    is told too, for some failures only by the tab in [front]. *)
Definition is_line (e : effect) : bool := match e with AppendLine _ _ _ => true | _ => false end.
Definition fail_controls (told : bool) : list effect :=
  (if told then [SetStatus (js "fail")] else []) ++ [StopTimer; RunButtonDisabled false].
Definition settled_by (front : bool) (es : list effect) : Prop :=
  (∃ text cls, filterb is_line es = [AppendLine text cls None])
  ∧ (∃ told, (front = true → told = true) ∧ filterb page_control es = fail_controls told)
  ∧ SetTabStatus (js "fail") ∈ es ∧ HideKill ∈ es.
Definition settles (front : bool) (s s' : view) : Prop :=
  field "st" s' = vstr "fail" ∧ ∃ es, v_effects s' = v_effects s ++ es ∧ settled_by front es.

Lemma effects_setTabStatus st s : v_effects (setTabStatus st s) = v_effects s ++ [SetTabStatus st].
Proof. unfold setTabStatus. rewrite effects_emit. by destruct (negb _). Qed.
Lemma effects_on b a s es : v_effects (a s) = v_effects s ++ es → v_effects (on b a s) = v_effects s ++ (if b then es else []).
Proof. destruct b; [done|]. intros _. by rewrite app_nil_r. Qed.

Lemma failed_keeps text cls rest : tame fail_keys keeps_tab (failed_start text cls rest).
Proof. intros s. unfold failed_start, line, status, setTabStatus. tame_steps. Qed.
Lemma transport_keeps err pg : tame fail_keys keeps_tab (emit ClearStalled |> _handleRunTransportFailure describe err pg).
Proof. intros s. unfold _handleRunTransportFailure, line, status, setTabStatus. tame_steps. Qed.
Lemma failed_effects text cls rest s :
  v_effects (failed_start text cls rest s)
  = v_effects s ++ [AppendLine (VStr (js text ++ rest)) (vstr cls) None; SetStatus (js "fail"); SetTabStatus (js "fail");
                    StopTimer; RunButtonDisabled false; HideKill].
Proof.
  unfold failed_start, line, status. cbv beta. rewrite !effects_emit, effects_setTabStatus, !effects_emit.
  by rewrite <-!(assoc_L (++)).
Qed.
Lemma transport_effects err pg s :
  v_effects ((emit ClearStalled |> _handleRunTransportFailure describe err pg) s)
  = v_effects s ++ [ClearStalled; AppendLine (VStr (js "[connection error] " ++ describe err)) (vstr "exit-fail") None]
    ++ (if pg_active pg then [SetStatus (js "fail")] else [])
    ++ [SetTabStatus (js "fail"); DisableResumeControls; StopTimer; RunButtonDisabled false; HideKill].
Proof.
  unfold _handleRunTransportFailure, line, status. cbv beta. rewrite !effects_emit, effects_setTabStatus.
  rewrite (effects_on _ _ _ [SetStatus (js "fail")]) by done. rewrite !effects_emit. by rewrite <-!(assoc_L (++)).
Qed.
Lemma failed_settles front text cls rest s : has_tab s = true → settles front s (failed_start text cls rest s).
Proof.
  intros Ht. split; [unfold failed_start, line, status, setTabStatus; field_steps|].
  eexists. split; [apply failed_effects|]. split; [by eexists _, _|]. split; [by exists true|].
  rewrite !elem_of_cons. naive_solver.
Qed.
Lemma transport_settles err pg s : has_tab s = true →
  settles (pg_active pg) s ((emit ClearStalled |> _handleRunTransportFailure describe err pg) s).
Proof.
  intros Ht. split; [unfold _handleRunTransportFailure, line, status, setTabStatus; field_steps|].
  eexists. split; [apply transport_effects|].
  split; [eexists _, _; by destruct (pg_active pg)|]. split; [exists (pg_active pg); by destruct (pg_active pg)|].
  destruct (pg_active pg); cbn [app]; rewrite !elem_of_cons; naive_solver.
Qed.

(** A start that is not accepted is settled by one action on its tab. *)
Lemma refused_answer tab r s : announced r = None →
  ∃ a new, sh_tabs (answer tab r s) = on_id tab a (sh_tabs s) ∧ sh_calls (answer tab r s) = sh_calls s ++ new
    ∧ (∀ run tab stream, SubscribeStream run tab stream ∉ new)
    ∧ (∀ pg, tame fail_keys keeps_tab (a pg)) ∧ ∀ pg v, has_tab v = true → settles (pg_active pg) v (a pg v).
Proof.
  intros Hr.
  assert (∀ text cls rest, ∃ a new, sh_tabs (on_tabs (on_id tab (λ _, failed_start text cls rest)) s) = on_id tab a (sh_tabs s)
    ∧ sh_calls s = sh_calls s ++ new ∧ (∀ run tab stream, SubscribeStream run tab stream ∉ new)
    ∧ (∀ pg, tame fail_keys keeps_tab (a pg)) ∧ ∀ pg v, has_tab v = true → settles (pg_active pg) v (a pg v)) as Hfail.
  { intros. exists (λ _, failed_start text cls rest), []. rewrite app_nil_r. split_and!; try done.
    - intros *. apply not_elem_of_nil.
    - intros _. apply failed_keeps.
    - intros pg v. apply failed_settles. }
  assert (∀ err, ∃ a new, sh_tabs (on_tabs (on_id tab (λ pg, emit ClearStalled |> _handleRunTransportFailure describe err pg)) s) = on_id tab a (sh_tabs s)
    ∧ sh_calls s ++ [LogRunError err] = sh_calls s ++ new ∧ (∀ run tab stream, SubscribeStream run tab stream ∉ new)
    ∧ (∀ pg, tame fail_keys keeps_tab (a pg)) ∧ ∀ pg v, has_tab v = true → settles (pg_active pg) v (a pg v)) as Hbroken.
  { intros. exists (λ pg, emit ClearStalled |> _handleRunTransportFailure describe err pg), [LogRunError err]. split_and!; try done.
    - intros * ?%list_elem_of_singleton. discriminate.
    - apply transport_keeps.
    - intros pg v. apply transport_settles. }
  unfold start_answer. cbv zeta.
  destruct r as [[v|]| |body|[v|]|err].
  - destruct (nullish v); [exact (Hbroken malformed)|eapply Hfail].
  - exact (Hbroken malformed).
  - exact (Hfail _ _ []).
  - exact (Hfail _ _ (let message := _readRunErrorMessage body in if nonempty message then 32 :: message else [])).
  - cbn [announced] in Hr. destruct (truthy _); [done|]. exact (Hfail _ _ []).
  - exact (Hbroken malformed).
  - exact (Hbroken err).
Qed.

Lemma started_shape r s : has_tab s = true → truthy r = true → ∃ s1,
  _markTabRunStarted r s =
  (if flag "pendingKill" s
   then (put "pendingKill" (VBool false) |> (λ s, emit (KillRequest (field "runId" s)) s) |> put "runId" VNull) s1
   else put "killed" (VBool false) s1)
  ∧ has_tab s1 = true ∧ field "runId" s1 = r ∧ field "historyRunId" s1 = r ∧ field "st" s1 = field "st" s
  ∧ ∃ es, v_effects s1 = v_effects s ++ es ∧ filterb page_control es = [].
Proof.
  intros Ht Hr. unfold _markTabRunStarted. rewrite Ht, Hr. cbn [negb orb]. cbv beta zeta.
  set (same := _ || _). set (s1 := put "reconnectedRun" _ _). exists s1.
  assert (flag "pendingKill" s1 = flag "pendingKill" s) as ->
    by (unfold flag; f_equal; unfold s1; field_steps; reflexivity).
  split; [done|]. split; [unfold s1; tab_steps|]. split_and!; try (unfold s1; field_steps; reflexivity).
  unfold s1. destruct same; cbn [negb on].
  - exists []. by rewrite app_nil_r.
  - exists [ClearRecovery; ResetHighVolume]. rewrite !effects_put, !effects_emit, !effects_put. by rewrite <-(assoc_L (++)).
Qed.
(** What a run's start leaves in the tab and asks for. *)
Lemma started_answer r o pending : truthy r = true → truthy (tab_get o "pendingKill") = pending →
  let s := _markTabRunStarted r (View (Some o) [] false []) in
  field "historyRunId" s = r ∧ field "st" s = tab_get o "st" ∧ filterb page_control (v_effects s) = []
  ∧ (if pending then field "runId" s = VNull ∧ field "pendingKill" s = VBool false ∧ KillRequest r ∈ v_effects s
     else field "runId" s = r ∧ field "killed" s = VBool false).
Proof.
  intros Hr Hp s. destruct (started_shape r (View (Some o) [] false []) eq_refl Hr) as (s1 & Heq & Ht & H1 & H2 & H3 & es & He & Hes).
  subst s. rewrite Heq. cbn in He.
  assert (flag "pendingKill" (View (Some o) [] false []) = pending) as -> by exact Hp.
  destruct pending.
  - rewrite !effects_put, effects_emit, !effects_put, (field_put_ne "pendingKill"), H1, He by by vm_compute.
    split_and!; try by field_steps.
    + by rewrite filterb_app, Hes.
    + apply elem_of_app. right. by apply list_elem_of_singleton.
  - rewrite effects_put, He. by split_and!; try by field_steps.
Qed.

(** C30: Every answer to a start settles it. The objects of the other tabs
    stay as they are. When no run is announced (the start was refused,
    limited, failed, unreadable or without a run id), exactly one line is
    added to the tab that asked, its status is a failure, its kill button is
    hidden, no stream is followed and it has the run id it had. The timer, the
    run button and the status pill exist once per page: the timer stops and
    the run button is enabled whichever tab is in front, and nothing else of
    them is touched except that the pill shows the failure, always when the
    tab that asked is in front. When a run is announced, its stream is
    followed, the page's controls are left alone and the tab's status is as it
    was; a tab without a kill to send takes the run's id and counts as not
    killed, and a tab with one asks for the kill of this run and has no run. *)
Theorem every_reply_settles tab r s o :
  _tabById tab (sh_tabs s) = Some o →
  let s' := answer tab r s in
  (∀ x, x ≠ tab → _tabById x (sh_tabs s') = _tabById x (sh_tabs s))
  ∧ ∃ o' es new, _tabById tab (sh_tabs s') = Some o'
    ∧ ts_calls (sh_tabs s') = ts_calls (sh_tabs s) ++ map (OnTab tab) es
    ∧ sh_calls s' = sh_calls s ++ new
    ∧ match announced r with
      | None =>
          tab_get o' "st" = vstr "fail" ∧ tab_get o' "runId" = tab_get o "runId"
          ∧ (∃ text cls, filterb is_line es = [AppendLine text cls None])
          ∧ (∃ told, (tab = ts_active (sh_tabs s) → told = true) ∧ filterb page_control es = fail_controls told)
          ∧ (SetTabStatus (js "fail") ∈ es ∧ HideKill ∈ es)
          ∧ ∀ run t stream, SubscribeStream run t stream ∉ new
      | Some v =>
          let id := get v (js "run_id") in
          tab_get o' "historyRunId" = id ∧ tab_get o' "st" = tab_get o "st"
          ∧ filterb page_control es = []
          ∧ (if truthy (tab_get o "pendingKill")
             then tab_get o' "runId" = VNull ∧ tab_get o' "pendingKill" = VBool false ∧ KillRequest id ∈ es
             else tab_get o' "runId" = id ∧ tab_get o' "killed" = VBool false)
          ∧ new = [SubscribeStream (to_string id) tab (get v (js "stream"))]
      end.
Proof.
  intros Ho s'. destruct (announced r) as [v|] eqn:Hr.
  - destruct r as [| | |[v'|]|]; try done. cbn [announced] in Hr. destruct (truthy (get v' (js "run_id"))) eqn:Hid; [|done].
    injection Hr as ->. unfold s', start_answer. cbv zeta. rewrite Hid. cbn [negb].
    destruct (on_tab_spec historyOpen clientId tab (λ _, _markTabRunStarted (get v (js "run_id"))) (sh_tabs s) message_keys o Ho (λ _, started_keeps _))
      as ((o' & Ho' & Hget) & Hoth & _ & _ & _ & Hcalls).
    split; [exact Hoth|]. eexists o', _, _. split; [exact Hget|]. split; [exact Hcalls|]. split; [reflexivity|].
    destruct (started_answer (get v (js "run_id")) o _ Hid eq_refl) as (H1 & H2 & H3 & H4).
    unfold field in H1, H2, H4. rewrite Ho' in H1, H2, H4. split_and!; [exact H1|exact H2|exact H3|exact H4|reflexivity].
  - destruct (refused_answer tab r s Hr) as (a & new & Htabs & Hcalls & Hnew & Hkeeps & Hset).
    destruct (on_tab_spec historyOpen clientId tab a (sh_tabs s) fail_keys o Ho Hkeeps)
      as ((o' & Ho' & Hget) & Hoth & _ & _ & _ & Htc).
    unfold s'. rewrite Htabs. split; [exact Hoth|].
    set (pg := page_of historyOpen clientId tab (sh_tabs s)) in *. set (s1 := a _ _) in *.
    assert (settles (pg_active pg) (View (Some o) [] false []) s1) as (Hst & es & Hes & Hl & (told & Htold & Hpc) & Hin) by by apply Hset.
    cbn in Hes. rewrite Hes in Htc. exists o', es, new. split; [exact Hget|]. split; [exact Htc|]. split; [exact Hcalls|].
    assert (∀ k, tab_get o' k = field k s1) as Hk by (intros k; unfold tab_get, field; by rewrite Ho').
    rewrite !Hk. split; [exact Hst|]. split.
    { pose proof (Hkeeps pg (View (Some o) [] false [])) as Hc.
      rewrite (changes_field _ _ _ _ _ Hc); [reflexivity|other_key]. }
    split; [exact Hl|]. split; [|by split].
    exists told. split; [|exact Hpc]. intros ->. apply Htold. cbn. by apply bool_decide_eq_true_2.
Qed.
End Answers.

Section Properties.
Context (acSpecialCommands app_config : jsval) (workspace_enabled : bool) (loaded : string → bool) (may_run : bool)
        (denied_message : jsstr).
Context (max_tabs : Z) (historyOpen : bool) (clientId : jsstr) (now : num) (raw_lines : Z) (cwd_of : jsstr → jsstr)
        (welcomeOwns : jsstr → bool).
Notation special := (_isExactSpecialBuiltInCommand acSpecialCommands).
Notation route_of := (route_of acSpecialCommands app_config workspace_enabled loaded may_run).
Notation follow := (follow_route acSpecialCommands app_config workspace_enabled loaded may_run denied_message
                      historyOpen clientId now raw_lines cwd_of).
Notation submit := (submitCommand acSpecialCommands app_config workspace_enabled loaded may_run denied_message
                      max_tabs historyOpen clientId now raw_lines cwd_of welcomeOwns).
Notation on_id := (on_tab historyOpen clientId).
Notation start := (start_server_run now raw_lines).

(** *** The shape of a start *)

Definition submit_keys : list string :=
  ["st"; "runningLabel"; "command"; "runStart"; "currentRunStartIndex"; "previewTruncated"; "fullOutputAvailable";
   "fullOutputLoaded"; "historyRunId"; "historyRunKind"; "reconnectedRun"; "commandOutcomeSummary"; "lastEventId";
   "attachMode"; "followOutput"; "deferPromptMount"].
Lemma start_keeps cmd : tame submit_keys keeps_tab (start cmd).
Proof. intros s. unfold start_server_run, start_fields, setTabRunningCommand, echo, command_echo, status, setTabStatus. tame_steps. Qed.
Lemma start_runs cmd s : has_tab s = true → field "st" (start cmd s) = vstr "running".
Proof.
  intros Ht. unfold start_server_run, start_fields, setTabRunningCommand, echo, command_echo, status, setTabStatus. field_steps.
Qed.
Lemma denied_keeps cmd m : tame submit_keys keeps_tab (denied_here cmd m).
Proof. intros s. unfold denied_here, echo, line, command_echo, status, setTabStatus. tame_steps. Qed.
Lemma refused_keeps cmd text cls b :
  tame submit_keys keeps_tab (echo cmd |> line text cls |> status "fail" |> on b (setTabStatus (js "fail"))).
Proof. intros s. unfold echo, line, command_echo, status, setTabStatus. tame_steps. Qed.

(** What a start adds to the calls. *)
Definition route_calls (cmd tab : jsstr) : list shell_call :=
  let remembered := [AddHistory (historySafeCommand (VStr cmd)); RememberValues cmd] in
  match route_of cmd with
  | Denied _ | CloseThisTab => []
  | InteractivePty => remembered ++ [StartPty cmd tab]
  | InBrowser h => remembered ++ [StartBrowser h (match h with HSecretSet => historySafeCommand (VStr cmd) | _ => cmd end) tab]
  | NotReady _ | ReadOnly => remembered
  | ToServer => remembered ++ [StartTimer; PostRun cmd tab (cwd_of tab)]
  end.
Lemma follow_calls cmd s :
  sh_calls (snd (follow cmd s)) = sh_calls s ++ route_calls cmd (ts_active (sh_tabs s)).
Proof.
  unfold follow_route, route_calls. destruct (route_of cmd); cbn; rewrite ?app_nil_r; try rewrite <-(assoc_L (++)); done.
Qed.

(** The tabs once the welcome text has gone. *)
Definition welcomed (w : tabs) : tabs :=
  if welcomeOwns (ts_active w) then on_id (ts_active w) (λ pg, clearTab pg false) w else w.
Definition welcome_calls (w : tabs) : list shell_call :=
  if welcomeOwns (ts_active w) then [CancelWelcome (ts_active w)] else [].
Lemma submit_shape cmd s :
  submit cmd s =
  match free_tab max_tabs (welcomed (sh_tabs s)) with
  | None => (false, Shell (calling [LimitToast] (welcomed (sh_tabs s))) (sh_calls s ++ welcome_calls (sh_tabs s)))
  | Some w => follow cmd (Shell w (sh_calls s ++ welcome_calls (sh_tabs s)))
  end.
Proof.
  unfold submitCommand, welcomed, welcome_calls. destruct (welcomeOwns _); cbn [sh_tabs on_tabs say sh_calls]; [done|].
  by rewrite app_nil_r.
Qed.
Lemma submit_calls cmd s :
  sh_calls (snd (submit cmd s)) = sh_calls s ++ welcome_calls (sh_tabs s)
    ++ match free_tab max_tabs (welcomed (sh_tabs s)) with Some w => route_calls cmd (ts_active w) | None => [] end.
Proof.
  rewrite submit_shape. destruct (free_tab _ _); cbn [snd]; [|by rewrite app_nil_r].
  rewrite follow_calls. cbn [sh_calls sh_tabs]. by rewrite (assoc_L (++)).
Qed.

Lemma welcomed_ok w : tabs_ok w → tabs_ok (welcomed w).
Proof. intros Hok. unfold welcomed. destruct (welcomeOwns _); [|done]. by destruct (drops_on_tab historyOpen clientId (ts_active w) (λ pg, clearTab pg false) w Hok). Qed.

(** What passes the checks of a route to the server: the texts of both, the
    permission of a plain run, the specification of an interactive one. *)
Lemma to_server cmd : route_of cmd = ToServer ∨ route_of cmd = InteractivePty →
  (test FD_REDIRECT_RE cmd = false ∧ operators_denied acSpecialCommands cmd = false ∧ paths_denied cmd = false)
  ∧ (route_of cmd = ToServer → may_run = true)
  ∧ (route_of cmd = InteractivePty → isInteractivePtyCommand app_config cmd = true).
Proof.
  unfold SubmitCommand.route_of, ui_route. intros H.
  repeat match type of H with (if ?b then _ else _) = _ ∨ _ => destruct b eqn:?; [try by destruct H|] end.
  all: try (cbn zeta in H; repeat match type of H with (if ?b then _ else _) = _ ∨ _ => destruct b end; by destruct H).
  by destruct may_run.
Qed.
Lemma operators_allowed cmd : operators_denied acSpecialCommands cmd = false →
  (∀ op, op ∈ operators → includes op cmd = false) ∨ isSyntheticPostFilterCommand cmd = true ∨ special cmd = true.
Proof.
  unfold operators_denied. intros H. destruct (test SHELL_OPS_RE cmd) eqn:Ht.
  - right. destruct (isSyntheticPostFilterCommand cmd), (special cmd); auto.
  - left. intros op Hop. apply not_true_iff_false. intros Hi. apply not_true_iff_false in Ht. apply Ht, shell_ops_iff. eauto.
Qed.

(** A call that asks the server for a run: the command and the tab. A plain
    command is posted here; an interactive one is handed to
    [startInteractivePtyCommand], which posts it. *)
Definition asks_server (call : shell_call) : option (jsstr * jsstr) :=
  match call with PostRun c tab _ | StartPty c tab => Some (c, tab) | _ => None end.
Definition is_pty (call : shell_call) : bool := match call with StartPty _ _ => true | _ => false end.

Lemma asking_call cmd tab call ct : call ∈ route_calls cmd tab → asks_server call = Some ct →
  ct = (cmd, tab) ∧ ((route_of cmd = ToServer ∧ is_pty call = false) ∨ (route_of cmd = InteractivePty ∧ is_pty call = true)).
Proof.
  unfold route_calls. intros Hin Ha. destruct (route_of cmd); cbn [app] in Hin;
    rewrite ?elem_of_cons, ?elem_of_nil in Hin;
    repeat match type of Hin with _ ∨ _ => destruct Hin as [->|Hin] end; try done; cbn in Ha; simplify_eq; auto.
Qed.
Lemma paths_allowed cmd : paths_denied cmd = false →
  ∀ name pre post, name ∈ [js "/data"; js "/tmp"] → cmd = pre ++ name ++ post →
    may_precede (last pre) = true → ends_word post = false.
Proof.
  intros Hp name pre post Hn Hcmd Hpre. destruct (ends_word post) eqn:He; [|done].
  assert (mentions name cmd = true) as Hm by (apply mentions_iff; eauto).
  unfold paths_denied in Hp. rewrite !elem_of_cons, elem_of_nil in Hn.
  destruct Hn as [->|[->|[]]]; rewrite Hm in Hp; [discriminate|by rewrite orb_true_r in Hp].
Qed.

(** C20: Only what the browser checked goes to the server, and it runs in a
    tab of its own. Whenever starting a command asks the server for a run, as
    a plain run or as an interactive terminal, the command is the one typed;
    no descriptor is redirected; no shell operator occurs unless the line is a
    supported pipeline or a listed special command; neither /data nor /tmp is
    named; and the tab is the active one, where nothing was running before
    (unless the welcome text was there). A plain run is asked for only when
    this member may run commands, and its tab is then marked as running. An
    interactive terminal is asked for only when a specification names the
    command; for it the browser does not look at the permission, which is left
    to the server. (The browser's own commands, such as probes and workflows,
    are not starts in this sense.) *)
Theorem only_checked_commands_run cmd s call c tab : tabs_ok (sh_tabs s) →
  let s' := snd (submit cmd s) in
  call ∈ drop (length (sh_calls s)) (sh_calls s') → asks_server call = Some (c, tab) →
  (c = cmd ∧ test FD_REDIRECT_RE cmd = false)
  ∧ ((∀ op, op ∈ operators → includes op cmd = false) ∨ isSyntheticPostFilterCommand cmd = true ∨ special cmd = true)
  ∧ (∀ name pre post, name ∈ [js "/data"; js "/tmp"] → cmd = pre ++ name ++ post →
       may_precede (last pre) = true → ends_word post = false)
  ∧ tab = ts_active (sh_tabs s')
  ∧ (welcomeOwns (ts_active (sh_tabs s)) = false →
       ∀ o, _tabById tab (sh_tabs s) = Some o → running o = false)
  ∧ (if is_pty call then isInteractivePtyCommand app_config cmd = true
     else may_run = true ∧ ∃ o, _tabById tab (sh_tabs s') = Some o ∧ running o = true).
Proof.
  intros Hok s'. subst s'. rewrite submit_calls, drop_app_length. intros Hin Hasks.
  apply elem_of_app in Hin as [Hin|Hin].
  { unfold welcome_calls in Hin. destruct (welcomeOwns _); [apply list_elem_of_singleton in Hin; by subst|by apply elem_of_nil in Hin]. }
  pose proof (free_tab_spec max_tabs _ (welcomed_ok _ Hok)) as Hfree. rewrite submit_shape.
  destruct (free_tab _ _) as [w|]; [|by apply elem_of_nil in Hin].
  destruct Hfree as (Hw & (o & Ho & Hr) & Hcase).
  destruct (asking_call _ _ _ _ Hin Hasks) as [[= -> ->] Hroute].
  destruct (to_server cmd) as ((Hfd & Hops & Hp) & Hm & Hpty); [naive_solver|].
  split; [done|]. split; [by apply operators_allowed|]. split; [by apply paths_allowed|].
  assert (welcomeOwns (ts_active (sh_tabs s)) = false →
       ∀ o, _tabById (ts_active w) (sh_tabs s) = Some o → running o = false) as Hfree0.
  { intros Hnw o0 Ho0. unfold welcomed in Hcase. rewrite Hnw in Hcase.
    destruct Hcase as [->|(Hnew & _)]; [by simplify_eq|]. exfalso. apply Hnew, tabById_Some. by eexists. }
  destruct Hroute as [[Hroute ->]|[Hroute ->]]; unfold follow_route; rewrite Hroute;
    cbn [snd say on_active on_tabs sh_tabs]; [|by auto].
  destruct (on_tab_spec historyOpen clientId (ts_active w) (λ _, start cmd) w submit_keys o Ho (λ _, start_keeps cmd))
    as ((o' & Ho' & Hget) & _ & Ha & _). cbv zeta in Ha.
  split; [by rewrite Ha|]. split; [done|]. split; [by apply Hm|].
  exists o'. split; [exact Hget|]. unfold running, tab_get.
  pose proof (start_runs cmd (View (Some o) [] false []) eq_refl) as Hst. unfold field in Hst. rewrite Ho' in Hst.
  by rewrite Hst.
Qed.

(** *** What is remembered *)

Lemma words_head cur s : cur ≠ [] → word 0 (words_acc cur s) = reverse cur ++ take_while (λ c, negb (is_ws c)) s.
Proof.
  revert cur. induction s as [|c s IH]; intros cur Hc; cbn [words_acc take_while].
  - destruct cur; [done|]. cbn [nonempty]. by rewrite app_nil_r.
  - destruct (is_ws c); cbn [negb].
    + destruct cur; [done|]. cbn [nonempty]. by rewrite app_nil_r.
    + rewrite IH by done. by rewrite reverse_cons, <-(assoc_L (++)).
Qed.
Lemma word_first cmd : word 0 (words (trim cmd)) = first_word cmd.
Proof.
  unfold first_word. pose proof (trim_head cmd) as Hh. destruct (trim cmd) as [|c t]; [done|].
  specialize (Hh c eq_refl). unfold words. cbn [words_acc take_while]. rewrite Hh. cbn [negb]. by rewrite words_head.
Qed.
Lemma secret_root cmd : _isClientSideSecretSetCommand cmd = true → _isCredentialCommand cmd = false.
Proof.
  unfold _isClientSideSecretSetCommand, _isCredentialCommand, root_is. rewrite word_first.
  intros [->%bool_decide_eq_true _]%andb_true_iff. reflexivity.
Qed.

(** C9: What a command leaves behind is its safe form: the history gets the
    command without its secrets and nothing else; a [secret set] goes to its
    handler in that form only, never to the server (unless it is configured
    as an interactive terminal command); and a command the checks refuse, or
    one that finds no tab, leaves no trace in the history and starts
    nothing. *)
Theorem history_gets_safe_form cmd s :
  let '(accepted, s') := submit cmd s in
  let new := drop (length (sh_calls s)) (sh_calls s') in
  let safe := historySafeCommand (VStr cmd) in
  (∀ t, AddHistory t ∈ new → t = safe)
  ∧ (_isClientSideSecretSetCommand cmd = true → isInteractivePtyCommand app_config cmd = false →
     ∀ x, x ∈ new → x ∈ welcome_calls (sh_tabs s) ++ [AddHistory safe; RememberValues cmd]
                    ∨ ∃ tab, x = StartBrowser HSecretSet safe tab)
  ∧ ((∃ m, route_of cmd = Denied m) ∨ free_tab max_tabs (welcomed (sh_tabs s)) = None →
     accepted = false ∧ new = welcome_calls (sh_tabs s)).
Proof.
  destruct (submit cmd s) as [accepted s'] eqn:Hs. cbv zeta.
  pose proof (submit_calls cmd s) as Hc. rewrite Hs in Hc. cbn [snd] in Hc. rewrite Hc, drop_app_length.
  assert (∀ t, AddHistory t ∉ welcome_calls (sh_tabs s)) as Hwel.
  { intros t. unfold welcome_calls. destruct (welcomeOwns _); [rewrite list_elem_of_singleton; discriminate|apply not_elem_of_nil]. }
  split; [|split].
  - intros t [Hin|Hin]%elem_of_app; [by apply Hwel in Hin|]. destruct (free_tab _ _) as [w|]; [|by apply elem_of_nil in Hin].
    unfold route_calls in Hin. destruct (route_of cmd); rewrite ?elem_of_app, ?elem_of_cons, ?elem_of_nil in Hin; naive_solver.
  - intros Hsec Hpty x [Hin|Hin]%elem_of_app; [left; apply elem_of_app; by left|].
    destruct (free_tab _ _) as [w|]; [|by apply elem_of_nil in Hin]. unfold route_calls in Hin.
    assert ((∃ m, route_of cmd = Denied m) ∨ route_of cmd = CloseThisTab ∨ route_of cmd = InBrowser HSecretSet) as Hr.
    { unfold SubmitCommand.route_of. rewrite Hpty, Hsec, (secret_root _ Hsec).
      repeat match goal with |- context [if ?b then _ else _] => destruct b end; eauto. }
    destruct Hr as [[m Hr]|[Hr|Hr]]; rewrite Hr in Hin; [by apply elem_of_nil in Hin..|].
    rewrite ?elem_of_app, ?elem_of_cons, ?elem_of_nil in Hin. rewrite !elem_of_app, !elem_of_cons. naive_solver.
  - intros Hd. assert (accepted = fst (submit cmd s)) as -> by by rewrite Hs. clear Hs Hc.
    rewrite submit_shape. destruct (free_tab _ _) as [w|]; [|by rewrite app_nil_r].
    destruct Hd as [[m Hm]|]; [|done]. unfold follow_route, route_calls. rewrite Hm. by rewrite app_nil_r.
Qed.

(** *** A tab that is running *)

(** C7: Starting a command never disturbs a run: with a run in the active tab
    (and no welcome text there), the command runs in a new tab, and of the
    old tab nothing changes but its draft, which is emptied; when no new tab
    may be opened, nothing changes at all, a notice apart. ([exit] is the
    exception: it closes a tab.) *)
Theorem running_tab_keeps_its_run cmd s o : tabs_ok (sh_tabs s) →
  let active := ts_active (sh_tabs s) in
  _tabById active (sh_tabs s) = Some o → running o = true → welcomeOwns active = false →
  route_of cmd ≠ CloseThisTab →
  let '(accepted, s') := submit cmd s in
  (accepted = false ∧ s' = Shell (calling [LimitToast] (sh_tabs s)) (sh_calls s))
  ∨ (ts_active (sh_tabs s') ≠ active ∧ ts_active (sh_tabs s') ∉ ids (sh_tabs s)
     ∧ _tabById active (sh_tabs s') = Some (emptied o)).
Proof.
  intros Hok active Ho Hr Hwel Hclose. rewrite submit_shape.
  assert (welcomed (sh_tabs s) = sh_tabs s) as -> by (unfold welcomed; fold active; by rewrite Hwel).
  unfold welcome_calls. fold active. rewrite Hwel, app_nil_r.
  pose proof (free_tab_spec max_tabs _ Hok) as Hfree.
  destruct (free_tab _ _) as [w|]; [|cbv beta iota; by left].
  destruct Hfree as (Hw & (o1 & Ho1 & Hr1) & [->|(Hnew & _ & o2 & Ho2 & _ & Hleft)]).
  { exfalso. fold active in Ho1. simplify_eq. congruence. }
  fold active in Ho2, Hleft. simplify_eq.
  assert (ts_active w ≠ active) as Hne by (intros Heq; apply Hnew; rewrite Heq; apply (ok_active _ Hok)).
  assert (∀ a, (∀ pg : page, tame submit_keys keeps_tab a) →
    ts_active (on_id (ts_active w) (λ _, a) w) = ts_active w ∧ _tabById active (on_id (ts_active w) (λ _, a) w) = Some (emptied o)) as Hact.
  { intros a Ha. destruct (on_tab_spec historyOpen clientId (ts_active w) (λ _, a) w submit_keys o1 Ho1 Ha) as (_ & Hoth & Hac & _).
    split; [done|]. by rewrite Hoth. }
  destruct (follow cmd _) as [accepted s'] eqn:Hf. right.
  assert (s' = snd (follow cmd (Shell w (sh_calls s)))) as -> by by rewrite Hf. clear Hf.
  enough (ts_active (sh_tabs (snd (follow cmd (Shell w (sh_calls s))))) = ts_active w
          ∧ _tabById active (sh_tabs (snd (follow cmd (Shell w (sh_calls s))))) = Some (emptied o)) as [-> ->] by done.
  unfold follow_route. destruct (route_of cmd) eqn:Hroute; try done; cbn [snd say on_active on_tabs sh_tabs].
  - apply Hact. intros _. apply denied_keeps.
  - apply Hact. intros _. apply (refused_keeps _ _ _ false).
  - apply Hact. intros _. apply (refused_keeps _ _ _ true).
  - apply Hact. intros _. apply start_keeps.
Qed.

Context (secs : option num) (describe : jsval → jsstr) (malformed : jsval).
Notation answer := (start_answer denied_message historyOpen clientId describe malformed).

(** *** A kill without a run *)

Lemma submit_in_place cmd s o : let tab := ts_active (sh_tabs s) in
  _tabById tab (sh_tabs s) = Some o → running o = false → welcomeOwns tab = false → route_of cmd = ToServer →
  sh_tabs (snd (submit cmd s)) = on_id tab (λ _, start cmd) (sh_tabs s).
Proof.
  intros tab Ho Hr Hw Hroute. unfold submitCommand. fold tab. rewrite Hw. unfold free_tab. fold tab. rewrite Ho, Hr.
  unfold follow_route. by rewrite Hroute.
Qed.

Definition kill_keys : list string :=
  ["killed"; "reconnectedRun"; "lastEventId"; "attachMode"; "streamRecoveryAttempts"; "streamRecoveryNoticeRunId";
   "st"; "runningLabel"].
Lemma killed_by_user_keeps pg b : tame kill_keys keeps_tab (_markTabKilledByUser pg secs b).
Proof. intros s. unfold _markTabKilledByUser, setTabStatus. case_match; [apply changes_refl|]. tame_steps. Qed.
Lemma kill_waits pg s : has_tab s = true → is_running s = true → truthy (field "runId" s) = false →
  doKill pg secs s = _markTabKilledByUser pg secs (flag "closing" s) (put "pendingKill" (VBool true) s).
Proof. intros Ht Hr Hid. unfold doKill. by rewrite Ht, Hr, Hid. Qed.
Lemma doKill_tame pg : tame ("pendingKill" :: kill_keys)%string keeps_tab (doKill pg secs).
Proof.
  intros s. unfold doKill. case_match; [apply changes_refl|]. case_match; [by apply tame_emit|]. cbv beta.
  eapply changes_trans; [apply (tame_put _ keeps_tab "pendingKill" (VBool true)); by left|].
  eapply changes_weaken; [|done|apply killed_by_user_keeps]. set_solver.
Qed.

(** A property an action does not set. *)
Lemma on_tab_keeps id a w ks o k : _tabById id w = Some o → (∀ pg, tame ks keeps_tab (a pg)) → js k ∉ map js ks →
  ∃ o', _tabById id (on_id id a w) = Some o' ∧ v_tab (a (page_of historyOpen clientId id w) (View (Some o) [] false [])) = Some o'
    ∧ tab_get o' k = tab_get o k ∧ ts_active (on_id id a w) = ts_active w.
Proof.
  intros Ho Ha Hk. destruct (on_tab_spec historyOpen clientId id a w ks o Ho Ha) as ((o' & Ho' & Hget) & _ & Hac & _).
  exists o'. split; [done|]. split; [done|]. split; [|done].
  pose proof (changes_field _ _ _ _ _ (Ha (page_of historyOpen clientId id w) (View (Some o) [] false [])) Hk) as Hf.
  unfold field in Hf. rewrite Ho' in Hf. exact Hf.
Qed.

(** A kill of a run whose id is not known waits. *)
Lemma kill_pends tab w o : _tabById tab w = Some o → running o = true → truthy (tab_get o "runId") = false →
  ∃ o', _tabById tab (on_id tab (λ pg, doKill pg secs) w) = Some o' ∧ tab_get o' "pendingKill" = VBool true
    ∧ ts_active (on_id tab (λ pg, doKill pg secs) w) = ts_active w.
Proof.
  intros Ho Hr Hid.
  destruct (on_tab_spec historyOpen clientId tab (λ pg, doKill pg secs) w _ o Ho doKill_tame) as ((o' & Hv & Hget) & _ & Hac & _).
  exists o'. split; [exact Hget|]. split; [|exact Hac].
  rewrite kill_waits in Hv by done. set (s1 := put "pendingKill" (VBool true) (View (Some o) [] false [])) in Hv.
  pose proof (changes_field _ _ _ _ "pendingKill" (killed_by_user_keeps (page_of historyOpen clientId tab w) (flag "closing" (View (Some o) [] false [])) s1)) as Hf.
  unfold field in Hf at 1. rewrite Hv in Hf. unfold tab_get. rewrite Hf by other_key. unfold s1. by field_steps.
Qed.

(** C22: A kill outlives the run it was meant for. The user starts a command,
    kills it before its run id is known, and the start then fails: the kill
    stays with the tab, so the next command started there is killed as soon as
    the server announces its run, and the tab forgets that run's id. *)
Theorem stale_kill_reaches_next_run cmd1 cmd2 r v s o :
  let tab := ts_active (sh_tabs s) in
  _tabById tab (sh_tabs s) = Some o → running o = false → truthy (tab_get o "runId") = false →
  welcomeOwns tab = false → route_of cmd1 = ToServer → route_of cmd2 = ToServer →
  announced r = None → truthy (get v (js "run_id")) = true →
  let killed := on_tabs (on_id tab (λ pg, doKill pg secs)) (snd (submit cmd1 s)) in
  let again := snd (submit cmd2 (answer tab r killed)) in
  let s' := answer tab (Accepted (Some v)) again in
  OnTab tab (KillRequest (get v (js "run_id"))) ∈ drop (length (ts_calls (sh_tabs again))) (ts_calls (sh_tabs s'))
  ∧ ∃ o', _tabById tab (sh_tabs s') = Some o' ∧ tab_get o' "runId" = VNull.
Proof.
  intros tab Ho Hr Hid Hwel Hr1 Hr2 Hans Hrun killed again s'.
  (* the start *)
  pose proof (submit_in_place cmd1 s o Ho Hr Hwel Hr1) as Hs1. fold tab in Hs1.
  destruct (on_tab_keeps tab (λ _, start cmd1) (sh_tabs s) submit_keys o "runId" Ho (λ _, start_keeps cmd1)) as (o1 & Ho1 & Hv1 & Hid1 & Ha1);
    [other_key|].
  pose proof (start_runs cmd1 (View (Some o) [] false []) eq_refl) as Hst1. unfold field in Hst1. rewrite Hv1 in Hst1.
  (* the kill *)
  assert (running o1 = true) as Hr1' by (unfold running, tab_get; by rewrite Hst1).
  destruct (kill_pends tab _ o1 Ho1 Hr1') as (o2 & Ho2 & Hp2 & Ha2); [by rewrite Hid1|].
  rewrite <-Hs1 in Ho2, Ha2. change (_tabById tab (sh_tabs killed) = Some o2) in Ho2.
  change (ts_active (sh_tabs killed) = ts_active (sh_tabs (snd (submit cmd1 s)))) in Ha2. rewrite Hs1, Ha1 in Ha2. fold tab in Ha2.
  (* the refusal *)
  destruct (refused_answer denied_message historyOpen clientId describe malformed tab r killed Hans) as (a & new & Ht3 & _ & _ & Hkeeps & Hset).
  destruct (on_tab_keeps tab a (sh_tabs killed) fail_keys o2 "pendingKill" Ho2 Hkeeps) as (o3 & Ho3 & Hv3 & Hp3 & Ha3); [other_key|].
  destruct (Hset (page_of historyOpen clientId tab (sh_tabs killed)) (View (Some o2) [] false []) eq_refl) as (Hst3 & _).
  unfold field in Hst3. rewrite Hv3 in Hst3. rewrite <-Ht3 in Ho3, Ha3.
  (* the next start *)
  assert (ts_active (sh_tabs (answer tab r killed)) = tab) as Hac by by rewrite Ha3, Ha2.
  pose proof (submit_in_place cmd2 (answer tab r killed) o3) as Hs4. cbv zeta in Hs4. rewrite Hac in Hs4.
  specialize (Hs4 Ho3 ltac:(unfold running, tab_get; by rewrite Hst3) Hwel Hr2). fold again in Hs4.
  destruct (on_tab_keeps tab (λ _, start cmd2) _ submit_keys o3 "pendingKill" Ho3 (λ _, start_keeps cmd2)) as (o4 & Ho4 & _ & Hp4 & _);
    [other_key|].
  rewrite <-Hs4 in Ho4.
  (* its run *)
  destruct (started_shape (get v (js "run_id")) (View (Some o4) [] false []) eq_refl Hrun) as (s5 & Heq & Ht5 & Hid5 & _).
  assert (flag "pendingKill" (View (Some o4) [] false []) = true) as Hp.
  { unfold flag, field. cbn [v_tab]. unfold tab_get in Hp4, Hp3, Hp2. by rewrite Hp4, Hp3, Hp2. }
  rewrite Hp in Heq.
  destruct (on_tab_spec historyOpen clientId tab (λ _, _markTabRunStarted (get v (js "run_id"))) (sh_tabs again) message_keys o4 Ho4 (λ _, started_keeps _))
    as ((o' & Ho' & Hget) & _ & _ & _ & _ & Hcalls).
  unfold s', start_answer. cbv zeta. rewrite Hrun. cbn [negb say sh_tabs on_tabs]. rewrite Hcalls, drop_app_length, Heq. split.
  - apply list_elem_of_fmap_2. rewrite effects_put, effects_emit. apply elem_of_app. right. apply list_elem_of_singleton.
    f_equal. rewrite <-Hid5. symmetry. by field_steps.
  - exists o'. split; [exact Hget|]. rewrite Heq in Ho'.
    assert (field "runId" ((put "pendingKill" (VBool false) |> (λ s, emit (KillRequest (field "runId" s)) s) |> put "runId" VNull) s5) = VNull) as Hf
      by (apply field_put_eq; tab_steps).
    unfold field in Hf at 1. rewrite Ho' in Hf. exact Hf.
Qed.
End Properties.

(** ** A session: one tab, a run, a second command, a kill that comes too early *)

Definition demo_shell : shell :=
  Shell (snd (createTab 0 (js "shell 1") (Tabs [] [] 0 [] [] []))) [].
Definition demo_may (may_run : bool) (cmd : string) (s : shell) : bool * shell :=
  submitCommand (VArr [vstr "who|what"]) VUndef true (λ _, true) may_run (js "Viewers cannot run commands.")
    2 false [] num_zero 0 (λ _, []) (λ _, false) (js cmd) s.
Definition demo_submit : string → shell → bool * shell := demo_may true.
Definition demo_answer (r : start_reply) (s : shell) : shell :=
  start_answer (js "no") false [] (λ _, js "offline") VUndef (tab_name 1) r s.
Definition demo_accepted (id : string) : start_reply := Accepted (Some (VObj [(js "run_id", vstr id)])).
Definition demo_started : shell := snd (demo_submit "dig a.example" demo_shell).

Lemma demo_shell_ok : tabs_ok (sh_tabs demo_shell).
Proof.
  constructor.
  - apply (bool_decide_unpack _); vm_compute; exact I.
  - apply (bool_decide_unpack _); vm_compute; exact I.
  - unfold demo_shell. cbn. apply Forall_singleton. exists 1%Z. split; [done|lia].
Qed.

(** Operators are refused outside the supported pipelines and the listed
    special commands; paths only as whole words. *)
Example example_denied :
  map (λ c, sh_calls (snd (demo_submit c demo_shell)))
    ["dig a && b"; "dig a 2> err"; "cat /tmp/x"; "secret set K v; ls"]%string = [[]; []; []; []].
Proof. vm_compute. reflexivity. Qed.
Example example_to_server :
  map (λ c, last (sh_calls (snd (demo_submit c demo_shell))))
    ["dig a | grep b"; "who|what"; "nmap a/tmp/x"]%string
  = map (λ c, Some (PostRun (js c) (tab_name 1) [])) ["dig a | grep b"; "who|what"; "nmap a/tmp/x"]%string.
Proof. vm_compute. reflexivity. Qed.
(** Members without the right to run reach the handlers in the browser only. *)
Example example_read_only :
  map (λ c, last (sh_calls (snd (demo_may false c demo_shell)))) ["dig a"; "theme list"]%string
  = [Some (RememberValues (js "dig a")); Some (StartBrowser HTheme (js "theme list") (tab_name 1))].
Proof. vm_compute. reflexivity. Qed.
(** The second command gets a tab of its own; there is no third. *)
Example example_second_tab :
  let s2 := snd (demo_submit "dig b" demo_started) in
  (last (sh_calls s2), fst (demo_submit "dig c" s2)) = (Some (PostRun (js "dig b") (tab_name 2) []), false).
Proof. vm_compute. reflexivity. Qed.

(** A member who may not run commands still gets an interactive command handed
    over, and a plain one refused. *)
Example example_viewer_interactive :
  existsb is_pty (sh_calls (snd (demo_may false "mtr --interactive a.example" demo_shell))) = true.
Proof. by vm_compute. Qed.
Example example_viewer_plain :
  omap asks_server (sh_calls (snd (demo_may false "mtr a.example" demo_shell))) = [].
Proof. by vm_compute. Qed.

Lemma only_checked_commands_run_witness :
  ∃ o, _tabById (tab_name 1) (sh_tabs demo_started) = Some o ∧ running o = true.
Proof.
  pose proof (only_checked_commands_run (VArr [vstr "who|what"]) VUndef true (λ _, true) true
    (js "Viewers cannot run commands.") 2 false [] num_zero 0 (λ _, []) (λ _, false) (js "dig a.example") demo_shell
    (PostRun (js "dig a.example") (tab_name 1) []) (js "dig a.example") (tab_name 1) demo_shell_ok) as H.
  unfold demo_started, demo_submit, demo_may. cbv zeta in H.
  match type of H with ?P → _ => assert P as Hin end.
  { match goal with |- _ ∈ ?l => replace l with
      [AddHistory (js "dig a.example"); RememberValues (js "dig a.example"); StartTimer; PostRun (js "dig a.example") (tab_name 1) []]
      by (vm_compute; reflexivity) end. apply list_elem_of_In. cbn. auto. }
  destruct (H Hin eq_refl) as (_ & _ & _ & _ & _ & _ & Hrun). exact Hrun.
Defined.

Lemma history_gets_safe_form_witness :
  let '(_, s') := demo_submit "secret set TOKEN hunter2" demo_shell in
  ∀ x, x ∈ sh_calls s' → x ∈ [AddHistory (js "secret set TOKEN"); RememberValues (js "secret set TOKEN hunter2")]
                       ∨ ∃ tab, x = StartBrowser HSecretSet (js "secret set TOKEN") tab.
Proof.
  pose proof (history_gets_safe_form (VArr [vstr "who|what"]) VUndef true (λ _, true) true
    (js "Viewers cannot run commands.") 2 false [] num_zero 0 (λ _, []) (λ _, false) (js "secret set TOKEN hunter2") demo_shell) as H.
  unfold demo_submit, demo_may. destruct (submitCommand _ _ _ _ _ _ _ _ _ _ _ _ _ _ _) as [b s'].
  destruct H as (_ & H & _). exact (H eq_refl eq_refl).
Defined.

Lemma running_tab_keeps_its_run_witness :
  (∃ o, _tabById (tab_name 1) (sh_tabs demo_started) = Some o ∧ running o = true)
  ∧ let '(accepted, s') := demo_submit "dig b" demo_started in
    (accepted = false ∧ s' = Shell (calling [LimitToast] (sh_tabs demo_started)) (sh_calls demo_started))
    ∨ ts_active (sh_tabs s') ≠ tab_name 1.
Proof.
  assert (∃ o, _tabById (tab_name 1) (sh_tabs demo_started) = Some o ∧ running o = true) as H
    by (eexists; split; vm_compute; reflexivity).
  split; [exact H|]. destruct H as (o & Ho & Hr).
  assert (tabs_ok (sh_tabs demo_started)) as Hok.
  { constructor.
    - apply (bool_decide_unpack _); vm_compute; exact I.
    - apply (bool_decide_unpack _); vm_compute; exact I.
    - replace (ids (sh_tabs demo_started)) with [tab_name 1] by (vm_compute; reflexivity).
      apply Forall_singleton. exists 1%Z. split; [done|]. vm_compute. split; [done|discriminate]. }
  pose proof (running_tab_keeps_its_run (VArr [vstr "who|what"]) VUndef true (λ _, true) true
    (js "Viewers cannot run commands.") 2 false [] num_zero 0 (λ _, []) (λ _, false) (js "dig b") demo_started o Hok Ho Hr eq_refl
    ltac:(by vm_compute)) as H.
  unfold demo_submit, demo_may. destruct (submitCommand _ _ _ _ _ _ _ _ _ _ _ _ _ _ _) as [b s'].
  destruct H as [H|(H & _)]; [left; exact H|right; exact H].
Defined.

Lemma every_reply_settles_witness :
  ∃ o', _tabById (tab_name 1) (sh_tabs (demo_answer RateLimited demo_started)) = Some o' ∧ tab_get o' "st" = vstr "fail".
Proof.
  assert (∃ o, _tabById (tab_name 1) (sh_tabs demo_started) = Some o) as (o & Ho) by (eexists; vm_compute; reflexivity).
  destruct (every_reply_settles (js "no") false [] (λ _, js "offline") VUndef (tab_name 1) RateLimited demo_started o Ho)
    as (_ & o' & es & new & Hget & _ & _ & Hst & _).
  exists o'. split; [exact Hget|exact Hst].
Defined.

Lemma stale_kill_reaches_next_run_witness :
  let killed := on_tabs (on_tab false [] (tab_name 1) (λ pg, doKill pg None)) demo_started in
  let again := snd (demo_submit "dig b.example" (demo_answer RateLimited killed)) in
  OnTab (tab_name 1) (KillRequest (vstr "r2"))
  ∈ drop (length (ts_calls (sh_tabs again))) (ts_calls (sh_tabs (demo_answer (demo_accepted "r2") again))).
Proof.
  assert (∃ o, _tabById (tab_name 1) (sh_tabs demo_shell) = Some o ∧ running o = false ∧ truthy (tab_get o "runId") = false)
    as (o & Ho & Hr & Hid) by (eexists; split_and!; vm_compute; reflexivity).
  exact (proj1 (stale_kill_reaches_next_run (VArr [vstr "who|what"]) VUndef true (λ _, true) true
    (js "Viewers cannot run commands.") 2 false [] num_zero 0 (λ _, []) (λ _, false) None (λ _, js "offline") VUndef
    (js "dig a.example") (js "dig b.example") RateLimited (VObj [(js "run_id", vstr "r2")]) demo_shell o
    Ho Hr Hid eq_refl eq_refl eq_refl eq_refl eq_refl)).
Defined.
