(* ===== verification/OutputBuffer.v ===== *)
(** The output of a tab (app/static/js/output.js): how a line becomes a stored
    line and a shown one, the batches that spare the page, the limit of lines,
    line numbers, signal counts, the high-volume mode, and the outcome summary. *)

From S2P Require Import Prelude JsString JsNumber JsValue RunOutputModel OutputCore.

(** ** Definitions: constants *)

Definition _OUTPUT_SYNC_BURST_LIMIT : nat := 60.
Definition _OUTPUT_BATCH_SIZE : nat := 300.
Definition _OUTPUT_APPEND_LINES_CHUNK_SIZE : nat := 300.
Definition _OUTPUT_COALESCED_LINE_ROLES : list jsstr := map js ["progress"; "status-line"]%string.
Definition line_count_of (configured : jsval) (least default : Z) : Z :=
  let n := to_number configured in
  if is_finite n then Z.max least (match num_to_Z (num_floor n) with Some z => z | None => 0 end) else default.

(** ** Definitions: the state *)

(** A line on the page: the entry it shows, its classes, role and number (zero:
    none), its text, and whether it has a resume button that can be pressed. *)
Record span := Span
  { sp_id : nat; sp_classes : list jsstr; sp_role : jsstr; sp_number : Z; sp_text : jsstr; sp_resume : option bool }.
(** A stored line: an object, shared with the entry of the same id until it is shown. *)
Record raw := Raw { rw_id : nat; rw_line : props }.
Record item := Item { it_span : span; it_role : jsstr }.
Record batch := Batch { bt_items : list item; bt_raws : list raw; bt_scheduled : bool; bt_burst : nat }.
Record high_volume := HighVolume
  { hv_active : bool; hv_received : Z; hv_skipped : Z; hv_coalesced : Z; hv_notice : Z;
    hv_requested : bool; hv_disabled : bool; hv_summary : bool }.
Definition calm : high_volume := HighVolume false 0 0 0 0 false false false.
Definition no_batch : batch := Batch [] [] false 0.

(** [o_numbers]: the last line number of the tab and of its element;
    [o_start]: the current run's first line; [o_chunks]: the rest of the lists
    handed to [appendLines]; [o_next]: the next id; [o_mounts]: how often the
    prompt was shown again. *)
Record output := Output
  { o_spans : list span; o_numbers : Z * Z; o_raw : list raw; o_counts : list (jsstr * Z); o_start : option Z;
    o_hv : option high_volume; o_pending : option batch; o_chunks : list (list jsval); o_next : nat;
    o_runStart : num; o_running : bool; o_defer : bool; o_command : jsval; o_outcome : option outcome; o_mounts : nat }.

Definition with_spans (l : list span) (o : output) : output :=
  Output l (o_numbers o) (o_raw o) (o_counts o) (o_start o) (o_hv o) (o_pending o) (o_chunks o) (o_next o)
    (o_runStart o) (o_running o) (o_defer o) (o_command o) (o_outcome o) (o_mounts o).
Definition with_numbers (n : Z * Z) (o : output) : output :=
  Output (o_spans o) n (o_raw o) (o_counts o) (o_start o) (o_hv o) (o_pending o) (o_chunks o) (o_next o)
    (o_runStart o) (o_running o) (o_defer o) (o_command o) (o_outcome o) (o_mounts o).
Definition with_raw (l : list raw) (c : list (jsstr * Z)) (start : option Z) (o : output) : output :=
  Output (o_spans o) (o_numbers o) l c start (o_hv o) (o_pending o) (o_chunks o) (o_next o)
    (o_runStart o) (o_running o) (o_defer o) (o_command o) (o_outcome o) (o_mounts o).
Definition with_hv (h : high_volume) (o : output) : output :=
  Output (o_spans o) (o_numbers o) (o_raw o) (o_counts o) (o_start o) (Some h) (o_pending o) (o_chunks o) (o_next o)
    (o_runStart o) (o_running o) (o_defer o) (o_command o) (o_outcome o) (o_mounts o).
Definition with_pending (b : option batch) (o : output) : output :=
  Output (o_spans o) (o_numbers o) (o_raw o) (o_counts o) (o_start o) (o_hv o) b (o_chunks o) (o_next o)
    (o_runStart o) (o_running o) (o_defer o) (o_command o) (o_outcome o) (o_mounts o).
Definition with_chunks (l : list (list jsval)) (o : output) : output :=
  Output (o_spans o) (o_numbers o) (o_raw o) (o_counts o) (o_start o) (o_hv o) (o_pending o) l (o_next o)
    (o_runStart o) (o_running o) (o_defer o) (o_command o) (o_outcome o) (o_mounts o).
Definition with_next (n : nat) (o : output) : output :=
  Output (o_spans o) (o_numbers o) (o_raw o) (o_counts o) (o_start o) (o_hv o) (o_pending o) (o_chunks o) n
    (o_runStart o) (o_running o) (o_defer o) (o_command o) (o_outcome o) (o_mounts o).
Definition with_prompt (defer : bool) (mounts : nat) (o : output) : output :=
  Output (o_spans o) (o_numbers o) (o_raw o) (o_counts o) (o_start o) (o_hv o) (o_pending o) (o_chunks o) (o_next o)
    (o_runStart o) (o_running o) defer (o_command o) (o_outcome o) mounts.
Definition with_outcome (s : option outcome) (o : output) : output :=
  Output (o_spans o) (o_numbers o) (o_raw o) (o_counts o) (o_start o) (o_hv o) (o_pending o) (o_chunks o) (o_next o)
    (o_runStart o) (o_running o) (o_defer o) (o_command o) s (o_mounts o).

(** ** Definitions: what a line carries *)

Definition EVENT_KEYS : list string :=
  ["kind"; "role"; "signals"; "line_index"; "line_number"; "command_root"; "target"; "entities"; "noise_kind"; "noise_reason"].
Definition METADATA_KEYS : list string := EVENT_KEYS ++ ["high_volume_resume"; "live_output"; "faq_command"]%string.
Definition is_undef (v : jsval) : bool := match v with VUndef => true | _ => false end.
Definition copy_keys (replace : bool) (source : jsval) (o : props) : props :=
  if negb (is_objectlike source) then o else
  fold_left (λ o k, let v := get source (js k) in
                    if negb (is_undef v) && (replace || is_undef (get (VObj o) (js k))) then set_prop (js k) v o else o)
    EVENT_KEYS o.
Definition _lineEventPayload (text cls metadata : jsval) : props :=
  if is_objectlike text
  then let payload := spread_value text in
       copy_keys true metadata (copy_keys false (get (VObj payload) (js "metadata")) payload)
  else copy_keys true metadata [(js "text", VStr (str_of_nullish text)); (js "cls", VStr (str_of cls))].
Definition merge_source (merged : props) (source : jsval) : props :=
  if negb (is_objectlike source) then merged else
  fold_left (λ m k, let v := get source (js k) in
                    if nullish v || is_str v [] then m else set_prop (js k) v m) METADATA_KEYS merged.
Definition _mergeLineEventMetadata (payload metadata : jsval) : props :=
  fold_left merge_source [get payload (js "metadata"); metadata; payload] [].
Definition _normalizeLineEventInput (text cls metadata : jsval) : event * props :=
  let payload := VObj (_lineEventPayload text cls metadata) in
  (fst (fromWireLineEvent payload), _mergeLineEventMetadata payload metadata).
Definition _normalizeAppendLinesEntry (entry : jsval) : event * props :=
  if is_objectlike entry then _normalizeLineEventInput entry (VStr []) (js_or (get entry (js "metadata")) VNull)
  else _normalizeLineEventInput (VStr (str_of_nullish entry)) (VStr []) VNull.

Definition meta (md : props) (k : string) : jsval := get (VObj md) (js k).
Definition _isLiveOutputMetadata (md : props) : bool := is_true (meta md "live_output").
Definition _isPromptEchoLineEvent (e : event) : bool := ev_role e ==s js "prompt-echo".
Definition _coalescedOutputRoleForEvent (e : event) : jsstr :=
  let role := trim (ev_role e) in if bool_decide (role ∈ _OUTPUT_COALESCED_LINE_ROLES) then role else [].
Definition _coalescedOutputRoleForLine (s : span) : jsstr :=
  let role := trim (sp_role s) in
  if bool_decide (role ∈ _OUTPUT_COALESCED_LINE_ROLES) then role
  else if bool_decide (js "progress" ∈ sp_classes s) then js "progress"
  else if bool_decide (js "status-line" ∈ sp_classes s) then js "status-line" else [].
Definition text_meta (md : props) (k : string) (o : props) : props :=
  match meta md k with VStr s => if nonempty s then set_prop (js k) (VStr s) o else o | _ => o end.
Definition int_meta (md : props) (k : string) (o : props) : props :=
  match meta md k with VNum n => if is_integer n then set_prop (js k) (VNum n) o else o | _ => o end.
Definition list_meta (k : string) (l : list jsval) (o : props) : props :=
  match l with [] => o | _ => set_prop (js k) (VArr l) o end.
Definition _applyOutputSignalMetadata (md : props) (o : props) : props :=
  let o := text_meta md "noise_reason" (text_meta md "noise_kind" (text_meta md "role" (text_meta md "kind" o))) in
  let o := list_meta "signals" (map VStr (normalizeSignals (meta md "signals"))) o in
  let o := int_meta md "line_number" (int_meta md "line_index" o) in
  let o := text_meta md "target" (text_meta md "command_root" o) in
  list_meta "entities" (map entityToWire (normalizeEntities (meta md "entities"))) o.
(** The number the metadata gives a line, zero for none. *)
Definition int_value (v : jsval) : Z :=
  match v with VNum n => match num_to_Z n with Some z => z | None => 0 end | _ => 0 end.

(** What a step reads of the page: the commands whose signals are not counted,
    the text of the prompt, whether a session is being restored, and whether the
    tab is in front. All of it changes while the page lives. *)
Record page_env := PageEnv { pg_roots : jsval; pg_prompt : jsstr; pg_restoring : bool; pg_active : bool }.

Section Buffer.
(** The configuration, which the page reads once, before anything runs; numbers
    as [toLocaleString('en-US')] writes them; the clock time of a moment; and
    the page at the time of the step. *)
Context (app_config : jsval) (locale_num : num → jsstr) (clock : num → jsstr) (env : page_env).

Definition max_output_lines : Z := int_value (VNum (to_number (get app_config (js "max_output_lines")))).
Definition _highVolumeOutputLineThreshold : Z :=
  line_count_of (get app_config (js "high_volume_output_line_threshold")) 0 50000.
Definition _highVolumeOutputStatusIntervalLines : Z :=
  line_count_of (get app_config (js "high_volume_output_status_interval_lines")) 1 50000.
Definition _formatHighVolumeCount (n : Z) : jsstr := locale_num (num_of_Z n).

(** The stored line of an event, written at [now] in a run begun at [runStart]. *)
Definition elapsed_stamp (now runStart : num) : jsstr :=
  if truthy (VNum runStart)
  then js "+" ++ to_fixed 1 (ndiv (nsub now runStart) (num_of_Z 1000)) ++ js "s" else js "+0.0s".
Definition stored_text (e : event) : jsstr :=
  if _isPromptEchoLineEvent e then pg_prompt env ++ (if nonempty (ev_text e) then 32 :: ev_text e else []) else ev_text e.
Definition with_stamps (e : event) (text tsC tsE : jsstr) : event :=
  Event text (ev_kind e) (ev_role e) (ev_legacy_cls e) tsC tsE (ev_signals e) (ev_line_index e) (ev_command_root e)
    (ev_target e) (ev_entities e) (ev_noise_kind e) (ev_noise_reason e).
Definition _rawOutputLine (e : event) (now runStart : num) (md : props) : props :=
  _applyOutputSignalMetadata md (legacyPayload (with_stamps e (stored_text e) (clock now) (elapsed_stamp now runStart))).
(** The line on the page. *)
Definition line_classes (e : event) : list jsstr :=
  words (js "line " ++ legacyClsForEvent e)
  ++ (if negb (nonempty (ev_text e)) && negb (_isPromptEchoLineEvent e) then [js "is-blank"] else []).
Definition _buildOutputLine (id : nat) (e : event) (now runStart : num) (md : props) : item * raw :=
  (Item (Span id (line_classes e) (ev_role e) (int_value (meta md "line_number")) (ev_text e)
           (if negb (_isPromptEchoLineEvent e) && truthy (meta md "high_volume_resume") then Some true else None))
        (_coalescedOutputRoleForEvent e),
   Raw id (_rawOutputLine e now runStart md)).

(** ** Definitions: signal counts and stored lines *)

Definition emptySignalCounts : list (jsstr * Z) := map (λ s, (s, 0)) OUTPUT_SIGNAL_SCOPES.
Definition scopes_of (roots : jsval) (r : raw) : list jsstr := countableSignalScopes (VObj (rw_line r)) roots.
Definition _adjustTabOutputSignalCounts (roots : jsval) (delta : Z) (c : list (jsstr * Z)) (r : raw) : list (jsstr * Z) :=
  map (λ p, (fst p, if bool_decide (fst p ∈ scopes_of roots r) then Z.max 0 (snd p + delta) else snd p)) c.
Definition _resetTabOutputSignalCounts (roots : jsval) (l : list raw) : list (jsstr * Z) :=
  fold_left (_adjustTabOutputSignalCounts roots 1) l emptySignalCounts.
Definition _syncTabRawLines (o : output) (r : raw) : output :=
  let l := o_raw o ++ [r] in
  let c := _adjustTabOutputSignalCounts (pg_roots env) 1 (o_counts o) r in
  if (0 <? max_output_lines) && (max_output_lines <? Z.of_nat (length l))
  then let removed := Z.of_nat (length l) - max_output_lines in
       with_raw (drop (Z.to_nat removed) l)
         (fold_left (_adjustTabOutputSignalCounts (pg_roots env) (-1)) (take (Z.to_nat removed) l) c)
         ((λ start, if 0 <=? start then Z.max 0 (start - removed) else start) <$> o_start o) o
  else with_raw l c (o_start o) o.

(** ** Definitions: line numbers *)

Definition starts_welcome (c : jsstr) : bool := starts_with (js "welcome-") c || starts_with (js "wlc-") c.
Definition _isPrefixExcludedLine (s : span) : bool :=
  existsb starts_welcome (sp_classes s) || existsb isSyntheticSummaryClassName (sp_classes s).
Definition numbered (n : Z) (s : span) : span :=
  Span (sp_id s) (sp_classes s) (sp_role s) n (sp_text s) (sp_resume s).
(** The number [existing] counts for the tab, or the next one. *)
Definition take_number (existing : Z) (o : output) : Z * output :=
  let '(t, e) := o_numbers o in
  if 0 <? existing then (existing, with_numbers (Z.max t existing, Z.max e existing) o)
  else let next := Z.max t e + 1 in (next, with_numbers (next, next) o).
Definition _assignOutputLineNumber (s : span) (o : output) : span * Z * output :=
  if _isPrefixExcludedLine s then (numbered 0 s, 0, o)
  else let '(n, o) := take_number (sp_number s) o in (numbered n s, n, o).
Definition set_number (n : Z) (r : raw) : raw := Raw (rw_id r) (set_prop (js "line_number") (vint n) (rw_line r)).
Definition _assignRawOutputLineNumber (r : raw) (o : output) : raw * output :=
  let existing := int_value (get (VObj (rw_line r)) (js "line_number")) in
  let '(n, o) := take_number existing o in ((if 0 <? existing then r else set_number n r), o).
(** [entry.rawLine.line_number = n], wherever the object is. *)
Definition number_raws (id : nat) (n : Z) (l : list raw) : list raw :=
  map (λ r, if bool_decide (rw_id r = id) then set_number n r else r) l.

(** ** Definitions: showing lines *)

(** Whether the line in front of the prompt gives its place to an entry. *)
Definition coalesces (l : list span) (it : item) : option span :=
  if negb (nonempty (it_role it)) then None else
  match last l with
  | Some s => if _coalescedOutputRoleForLine s ==s it_role it then Some s else None
  | None => None
  end.
Definition _coalescedReplacementLineNumber (l : list span) (it : item) : Z :=
  match coalesces l it with Some s => sp_number s | None => 0 end.
Definition _replaceLastRenderedLineIfCoalescible (l : list span) (it : item) : option (list span) :=
  match coalesces l it with
  | Some s => Some (removelast l ++ [if negb (sp_number s =? 0) then numbered (sp_number s) (it_span it) else it_span it])
  | None => None
  end.
Definition _trimOutputToMaxLines (l : list span) : list span :=
  if 0 <? max_output_lines then drop (length l - Z.to_nat max_output_lines)%nat l else l.
(** The number of an entry about to be shown, and its line. *)
Definition number_entry (replaces : bool) (it : item) (o : output) : item * Z * output :=
  let replacement := if replaces then _coalescedReplacementLineNumber (o_spans o) it else 0 in
  if negb (replacement =? 0)
  then (Item (if 0 <? replacement then numbered replacement (it_span it) else it_span it) (it_role it), replacement, o)
  else let '(s, n, o) := _assignOutputLineNumber (it_span it) o in (Item s (it_role it), n, o).

(** ** Definitions: batches *)

Definition _getPendingOutputBatch (o : output) : batch := default no_batch (o_pending o).
Definition hasPendingOutputBatch (o : output) : bool :=
  match o_pending o with
  | Some b => bt_scheduled b || negb (bool_decide (bt_items b = [] )) || negb (bool_decide (bt_raws b = []))
  | None => false
  end.
Definition has_more (b : batch) : bool := match bt_items b, bt_raws b with [], [] => false | _, _ => true end.
Definition _queuePendingOutputEntry (l : list item) (it : item) : list item :=
  match last l with
  | Some p => if nonempty (it_role it) && (it_role p ==s it_role it) then removelast l ++ [it] else l ++ [it]
  | None => l ++ [it]
  end.
Definition scheduled (b : batch) : batch := Batch (bt_items b) (bt_raws b) true (bt_burst b).
Definition number_pending (id : nat) (n : Z) (o : output) : output :=
  with_pending ((λ b, Batch (bt_items b) (number_raws id n (bt_raws b)) (bt_scheduled b) (bt_burst b)) <$> o_pending o)
    (with_raw (number_raws id n (o_raw o)) (o_counts o) (o_start o) o).
Fixpoint number_batch (first : bool) (l : list item) (o : output) : list item * output :=
  match l with
  | [] => ([], o)
  | it :: l =>
      let '(it, n, o) := number_entry first it o in
      let o := if 0 <? n then number_pending (sp_id (it_span it)) n o else o in
      let '(l, o) := number_batch false l o in (it :: l, o)
  end.
Definition _maybeMountDeferredPrompt (o : output) : output :=
  if negb (o_defer o) || o_running o || pg_restoring env || hasPendingOutputBatch o then o
  else with_prompt false (if pg_active env then S (o_mounts o) else o_mounts o) o.
Definition mount_batch (l : list item) (o : output) : list item * output :=
  match l with
  | it :: more =>
      match _replaceLastRenderedLineIfCoalescible (o_spans o) it with
      | Some spans => (more, with_spans spans o)
      | None => (l, o)
      end
  | [] => ([], o)
  end.
Definition _flushPendingOutputBatch (o : output) : output :=
  match o_pending o with
  | None => o
  | Some b =>
      let batch := take _OUTPUT_BATCH_SIZE (bt_items b) in
      let '(batch, o) :=
        number_batch true batch
          (with_pending (Some (Batch (drop _OUTPUT_BATCH_SIZE (bt_items b)) (bt_raws b) false (bt_burst b))) o) in
      let '(mounted, o) := mount_batch batch o in
      let o := with_spans (o_spans o ++ map it_span mounted) o in
      let raws := bt_raws (_getPendingOutputBatch o) in
      let more := Batch (drop _OUTPUT_BATCH_SIZE (bt_items b)) (drop _OUTPUT_BATCH_SIZE raws) false (bt_burst b) in
      let o := fold_left _syncTabRawLines (take _OUTPUT_BATCH_SIZE raws) (with_pending (Some more) o) in
      let o := match mounted with [] => o | _ => with_spans (_trimOutputToMaxLines (o_spans o)) o end in
      if has_more more then with_pending (Some (scheduled more)) o
      else _maybeMountDeferredPrompt (with_pending (Some (Batch [] [] false 0)) o)
  end.
Definition discardPendingOutputBatch : output → output := with_pending None.
(** Flushing until nothing is left. *)
Fixpoint flush_all (fuel : nat) (o : output) : output :=
  match fuel, o_pending o with
  | S fuel, Some b => if has_more b then flush_all fuel (_flushPendingOutputBatch o) else o
  | _, _ => o
  end.
Definition flush_fuel (o : output) : nat :=
  match o_pending o with Some b => length (bt_items b) + length (bt_raws b) | None => 0 end.
Definition _flushPendingOutputBeforeHighVolumeSkip (o : output) : output := flush_all (flush_fuel o) o.

(** ** Definitions: appending *)

(** A line that is shown, now or with the next batch. *)
Definition show_line (e : event) (md : props) (now : num) (o : output) : output :=
  let b := _getPendingOutputBatch o in
  let '(it, r) := _buildOutputLine (o_next o) e now (o_runStart o) md in
  let o := with_next (S (o_next o)) o in
  if bt_scheduled b || negb (bool_decide (length (bt_items b) = 0%nat)) || bool_decide (_OUTPUT_SYNC_BURST_LIMIT ≤ bt_burst b)%nat
  then with_pending (Some (Batch (_queuePendingOutputEntry (bt_items b) it) (bt_raws b ++ [r]) true (bt_burst b))) o
  else
    let o := with_pending (Some (Batch (bt_items b) (bt_raws b) (bt_scheduled b) (S (bt_burst b)))) o in
    let '(it, n, o) := number_entry true it o in
    let r := if 0 <? n then set_number n r else r in
    let o := match _replaceLastRenderedLineIfCoalescible (o_spans o) it with
             | Some spans => with_spans spans o
             | None => with_spans (_trimOutputToMaxLines (o_spans o ++ [it_span it])) o
             end in
    _syncTabRawLines o r.

Definition _ensureHighVolumeOutputState (o : output) : high_volume := default calm (o_hv o).
Definition _shouldSkipLiveOutputRender (md : props) (o : output) : bool * output :=
  if negb (_isLiveOutputMetadata md) then (false, o) else
  let h := _ensureHighVolumeOutputState o in
  let received := hv_received h + 1 in
  let h := HighVolume (hv_active h) received (hv_skipped h) (hv_coalesced h) (hv_notice h) (hv_requested h) (hv_disabled h) (hv_summary h) in
  let t := _highVolumeOutputLineThreshold in
  if (t =? 0) || hv_requested h || hv_disabled h then (false, with_hv h o)
  else let act := hv_active h || (t <? received) in
       (act, with_hv (HighVolume act received (hv_skipped h) (hv_coalesced h) (hv_notice h) (hv_requested h) (hv_disabled h) (hv_summary h)) o).
(** A line of the page itself. *)
Definition notice (text : jsstr) (md : props) (now : num) (o : output) : output :=
  let '(e, md) := _normalizeLineEventInput (VStr text) (vstr "notice") (VObj md) in show_line e md now o.
Definition noted (n : Z) (h : high_volume) : high_volume :=
  HighVolume (hv_active h) (hv_received h) (hv_skipped h) (hv_coalesced h) n (hv_requested h) (hv_disabled h) (hv_summary h).
Definition _appendHighVolumeOutputNotice (force : bool) (now : num) (o : output) : output :=
  let h := _ensureHighVolumeOutputState o in
  if negb force && (hv_received h - hv_notice h <? _highVolumeOutputStatusIntervalLines) then o
  else notice (js "[high-volume output mode: " ++ _formatHighVolumeCount (hv_received h)
               ++ js " lines received; live rendering paused]") [(js "high_volume_resume", VBool true)] now
         (with_hv (noted (hv_received h) h) o).
Definition skipped_one (h : high_volume) : high_volume :=
  HighVolume (hv_active h) (hv_received h) (hv_skipped h + 1) (hv_coalesced h) (hv_notice h) (hv_requested h) (hv_disabled h) (hv_summary h).
(** A line that is stored and not shown. *)
Definition store_line (e : event) (md : props) (now : num) (o : output) : output :=
  let r := Raw (o_next o) (_rawOutputLine e now (o_runStart o) md) in
  let '(r, o) := _assignRawOutputLineNumber r (with_next (S (o_next o)) o) in
  let o := _syncTabRawLines o r in
  let h := skipped_one (_ensureHighVolumeOutputState o) in
  _appendHighVolumeOutputNotice (hv_skipped h =? 1) now (with_hv h o).
Definition append_event (e : event) (md : props) (now : num) (o : output) : output :=
  let '(skip, o) := _shouldSkipLiveOutputRender md o in
  if skip then store_line e md now (_flushPendingOutputBeforeHighVolumeSkip o) else show_line e md now o.
Definition appendLine (text cls metadata : jsval) (now : num) (o : output) : output :=
  let '(e, md) := _normalizeLineEventInput text cls metadata in append_event e md now o.

(** One line of a list handed over at once, queued whatever the batch. *)
Definition queue_line (now : num) (o : output) (entry : jsval) : output :=
  let '(e, md) := _normalizeAppendLinesEntry entry in
  let '(skip, o) := _shouldSkipLiveOutputRender md o in
  if skip then store_line e md now o
  else
    let b := _getPendingOutputBatch o in
    let '(it, r) := _buildOutputLine (o_next o) e now (o_runStart o) md in
    with_pending (Some (Batch (_queuePendingOutputEntry (bt_items b) it) (bt_raws b ++ [r]) (bt_scheduled b) (bt_burst b)))
      (with_next (S (o_next o)) o).
(** [queueChunk]: the next part of the list, and what is left of it. *)
Definition queueChunk (lines : list jsval) (now : num) (o : output) : list jsval * output :=
  let o := with_pending (Some (_getPendingOutputBatch o)) o in
  let o := fold_left (queue_line now) (take _OUTPUT_APPEND_LINES_CHUNK_SIZE lines) o in
  let b := _getPendingOutputBatch o in
  (drop _OUTPUT_APPEND_LINES_CHUNK_SIZE lines,
   with_pending (Some (Batch (bt_items b) (bt_raws b) true (Nat.max (bt_burst b) _OUTPUT_SYNC_BURST_LIMIT))) o).
Definition then_later (r : list jsval * output) : output :=
  let '(later, o) := r in match later with [] => o | _ => with_chunks (o_chunks o ++ [later]) o end.
Definition appendLines (lines : list jsval) (now : num) (o : output) : output :=
  match lines with [] => o | _ => then_later (queueChunk lines now o) end.

(** ** Definitions: the high-volume mode *)

Definition resetHighVolumeOutputState : output → output := with_hv calm.
Definition appendHighVolumeOutputFinalSummary (now : num) (o : output) : output :=
  let h := _ensureHighVolumeOutputState o in
  if hv_summary h || ((hv_skipped h =? 0) && (hv_coalesced h =? 0)) then with_hv h o else
  let o := with_hv (HighVolume (hv_active h) (hv_received h) (hv_skipped h) (hv_coalesced h) (hv_notice h) (hv_requested h)
                      (hv_disabled h) true) o in
  let parts :=
    (if hv_skipped h =? 0 then []
     else [_formatHighVolumeCount (hv_skipped h) ++ js " " ++ js (if hv_skipped h =? 1 then "line was" else "lines were")
           ++ js " not rendered live in this tab"])
    ++ (if hv_coalesced h =? 0 then []
        else [js "progress/status updates were collapsed in this tab, so live line numbers may differ from the saved transcript"]) in
  notice (js "[live output summary: " ++ join (js "; ") parts
          ++ js "; full transcript output is preserved in saved output, permalinks, and exports]") [] now o.
Definition recordLiveOutputCoalescedLines (count : Z) (o : output) : output :=
  let value := Z.max 0 count in
  if value =? 0 then o else
  let h := _ensureHighVolumeOutputState o in
  with_hv (HighVolume (hv_active h) (hv_received h) (hv_skipped h) (hv_coalesced h + value) (hv_notice h) (hv_requested h)
             (hv_disabled h) (hv_summary h)) o.
Definition disabled_button (s : span) : span :=
  Span (sp_id s) (sp_classes s) (sp_role s) (sp_number s) (sp_text s) ((λ _, false) <$> sp_resume s).
Definition disableHighVolumeOutputResumeControls (o : output) : output :=
  let h := _ensureHighVolumeOutputState o in
  with_spans (map disabled_button (o_spans o))
    (with_hv (HighVolume false (hv_received h) (hv_skipped h) (hv_coalesced h) (hv_notice h) (hv_requested h) true (hv_summary h)) o).
Definition _resumeHighVolumeLiveOutput (now : num) (o : output) : output :=
  let h := _ensureHighVolumeOutputState o in
  if hv_disabled h || negb (o_running o) then disableHighVolumeOutputResumeControls o else
  notice (js "[live output rendering resumed after " ++ _formatHighVolumeCount (hv_skipped h)
          ++ js " skipped lines; new lines will render live]") [] now
    (with_hv (HighVolume false (hv_received h) (hv_skipped h) (hv_coalesced h) (hv_notice h) true (hv_disabled h) (hv_summary h)) o).

(** ** Definitions: the outcome summary *)

Definition SUMMARY_CLASS : jsstr := js "command-outcome-summary".
Definition _commandOutcomeRawLinesForTab (o : output) : list raw :=
  let len := Z.of_nat (length (o_raw o)) in
  drop (Z.to_nat (match o_start o with Some n => Z.max 0 (Z.min len n) | None => 0 end)) (o_raw o).
Definition _removeCommandOutcomeSummary (l : list span) : list span :=
  filterb (λ s, negb (bool_decide (SUMMARY_CLASS ∈ sp_classes s))) l.
Definition _commandOutcomeItemText (i : outcome_item) : jsstr :=
  let label := trim (default [] (oi_label i)) in
  let value := trim (oi_value i) in
  if nonempty label && nonempty value then label ++ js ": " ++ value else str_or value label.
Definition _appendCommandOutcomeLine (text : jsstr) (className : string) (o : output) : output :=
  let s := Span (o_next o) [js "line"; SUMMARY_CLASS; js className] [] 0 text None in
  let '(s, _, o) := _assignOutputLineNumber s (with_next (S (o_next o)) o) in
  with_spans (o_spans o ++ [s]) o.
Definition renderCommandOutcomeSummary (enabled : bool) (given : jsval) (o : output) : output :=
  let o := _flushPendingOutputBeforeHighVolumeSkip o in
  let o := with_spans (_removeCommandOutcomeSummary (o_spans o)) o in
  if negb enabled then o else
  let explicit := if nullish given then None else normalizeCommandOutcomeSummary given in
  let current := _commandOutcomeRawLinesForTab o in
  let built := buildCommandOutcomeSummary locale_num (js_or (o_command o) (VStr [])) (VArr (map (λ r, VObj (rw_line r)) current)) in
  let cached :=
    match explicit, built with
    | None, None => if bool_decide (length current = 0%nat)
                    then normalizeCommandOutcomeSummary (match o_outcome o with Some s => outcome_value s | None => VNull end)
                    else None
    | _, _ => None
    end in
  match match explicit with Some s => Some s | None => match built with Some s => Some s | None => cached end end with
  | None => with_outcome None o
  | Some s =>
      let o := _appendCommandOutcomeLine (str_or (oc_title s) (js "Command outcome")) "command-outcome-summary-title" (with_outcome (Some s) o) in
      fold_left (λ o i, let text := _commandOutcomeItemText i in
                        if nonempty text then _appendCommandOutcomeLine text "command-outcome-summary-row" o else o)
        (oc_items s) o
  end.

(** ** Definitions: what can happen *)

Definition cleared (preserveRunState : bool) (o : output) : output :=
  let keep := preserveRunState && o_running o in
  Output [] (0, 0) [] emptySignalCounts (if keep then o_start o else None) (o_hv o) None (o_chunks o) (o_next o)
    (if keep then o_runStart o else num_zero) keep false (o_command o) None (o_mounts o).
Inductive output_event :=
  | Append (text cls metadata : jsval) (now : num)
  | AppendMany (lines : list jsval) (now : num)
  | NextChunk (now : num)                    (* the timer of [appendLines] *)
  | FlushDue                                 (* the timer of a batch *)
  | Discard | Clear (preserveRunState : bool) | HighVolumeReset | HighVolumeSummary (now : num)
  | Coalesced (count : Z) | ResumePressed (now : num) | ResumeDisabled
  | Outcome (enabled : bool) (given : jsval)
  | RunChanged (running deferPrompt : bool) (runStart : num) (start : option Z). (* what runs write to the tab *)
Definition output_step (ev : output_event) (o : output) : output :=
  match ev with
  | Append text cls md now => appendLine text cls md now o
  | AppendMany lines now => appendLines lines now o
  | NextChunk now =>
      match o_chunks o with
      | lines :: rest => then_later (queueChunk lines now (with_chunks rest o))
      | [] => o
      end
  | FlushDue => _flushPendingOutputBatch o
  | Discard => discardPendingOutputBatch o
  | Clear preserve => cleared preserve o
  | HighVolumeReset => resetHighVolumeOutputState o
  | HighVolumeSummary now => appendHighVolumeOutputFinalSummary now o
  | Coalesced n => recordLiveOutputCoalescedLines n o
  | ResumePressed now => _resumeHighVolumeLiveOutput now o
  | ResumeDisabled => disableHighVolumeOutputResumeControls o
  | Outcome enabled given => renderCommandOutcomeSummary enabled given o
  | RunChanged running defer runStart start =>
      Output (o_spans o) (o_numbers o) (o_raw o) (o_counts o) start (o_hv o) (o_pending o) (o_chunks o) (o_next o)
        runStart running defer (o_command o) (o_outcome o) (o_mounts o)
  end.
Definition fresh_output (command : jsval) (runStart : num) (start : option Z) : output :=
  Output [] (0, 0) [] emptySignalCounts start None None [] 0 runStart true false command None 0.

(** ** Lemmas: stored lines *)

(** What a stored line says, apart from its number. *)
Definition content (r : raw) : props := del_prop (js "line_number") (rw_line r).

Lemma filterb_set_prop k v o : filterb (λ p, bool_decide (fst p ≠ k)) (set_prop k v o) = filterb (λ p, bool_decide (fst p ≠ k)) o.
Proof.
  assert (bool_decide (k ≠ k) = false) as Hk by (apply bool_decide_false; intros H; by apply H).
  induction o as [|[k' v'] o IH]; cbn; [by rewrite Hk|].
  destruct (decide (k = k')) as [<-|Hne].
  - rewrite bool_decide_true by done. cbn. by rewrite Hk.
  - rewrite (bool_decide_false (k = k')) by done. cbn. by rewrite IH.
Qed.
Lemma content_set_number n r : content (set_number n r) = content r.
Proof. unfold content, set_number. cbn [rw_line]. unfold del_prop. by rewrite filterb_set_prop. Qed.
Lemma content_number_raws id n l : map content (number_raws id n l) = map content l.
Proof.
  unfold number_raws. rewrite map_map. apply map_ext. intros r. case_bool_decide; [apply content_set_number|done].
Qed.
Lemma content_get r r' k : content r = content r' → js k ≠ js "line_number" →
  get (VObj (rw_line r)) (js k) = get (VObj (rw_line r')) (js k).
Proof.
  unfold content. intros Hc Hk. cbn [get]. unfold table_get. by rewrite <-(own_del_ne _ _ (rw_line r) (not_eq_sym Hk)), <-(own_del_ne _ _ (rw_line r') (not_eq_sym Hk)), Hc.
Qed.
Lemma role_content r r' : content r = content r' → lineRole (VObj (rw_line r)) = lineRole (VObj (rw_line r')).
Proof.
  intros Hc. unfold lineRole, js_or. cbn [truthy]. unfold fromWireLineEvent. cbn [is_objectlike].
  rewrite (content_get _ _ "cls" Hc), (content_get _ _ "role" Hc) by by vm_compute.
  repeat match goal with |- context [enumValue ?a ?b ?c ?d ?e] => destruct (enumValue a b c d e) end.
  repeat match goal with |- context [signalsFromWire ?a] => destruct (signalsFromWire a) end. done.
Qed.
Lemma scopes_content roots r r' : content r = content r' → scopes_of roots r = scopes_of roots r'.
Proof.
  intros Hc. unfold scopes_of, countableSignalScopes, isSignalCountableLine.
  rewrite (role_content r r' Hc), (content_get _ _ "cls" Hc), (content_get _ _ "command_root" Hc), (content_get _ _ "signals" Hc)
    by by vm_compute. done.
Qed.

(** *** Signal counts *)

Definition counted (roots : jsval) (s : jsstr) (l : list raw) : Z :=
  Z.of_nat (length (filterb (λ r, bool_decide (s ∈ scopes_of roots r)) l)).
Definition recount (roots : jsval) (l : list raw) : list (jsstr * Z) := map (λ s, (s, counted roots s l)) OUTPUT_SIGNAL_SCOPES.
Lemma counted_app roots s l k : counted roots s (l ++ k) = counted roots s l + counted roots s k.
Proof. unfold counted. rewrite filterb_app, length_app. lia. Qed.
Lemma recount_snoc roots l r : _adjustTabOutputSignalCounts roots 1 (recount roots l) r = recount roots (l ++ [r]).
Proof.
  unfold _adjustTabOutputSignalCounts, recount. rewrite map_map. apply map_ext. intros s. cbn [fst snd].
  rewrite counted_app. unfold counted at 4. cbn. f_equal. destruct (bool_decide _); cbn; [|lia].
  unfold counted. lia.
Qed.
Lemma recount_reset roots l : _resetTabOutputSignalCounts roots l = recount roots l.
Proof.
  unfold _resetTabOutputSignalCounts. change emptySignalCounts with (recount roots []).
  rewrite <-(app_nil_l l) at 2. generalize (@nil raw). induction l as [|r l IH]; intros k; cbn [fold_left]; [by rewrite app_nil_r|].
  by rewrite recount_snoc, IH, <-(assoc_L (++)).
Qed.
Lemma recount_drop roots l k : fold_left (_adjustTabOutputSignalCounts roots (-1)) l (recount roots (l ++ k)) = recount roots k.
Proof.
  induction l as [|r l IH]; cbn [fold_left app]; [done|]. rewrite <-IH. f_equal.
  unfold _adjustTabOutputSignalCounts, recount. rewrite map_map. apply map_ext. intros s. cbn [fst snd]. f_equal.
  unfold counted. cbn [filterb]. destruct (bool_decide (s ∈ scopes_of roots r)); cbn [length]; lia.
Qed.
Lemma recount_content roots l k : map content l = map content k → recount roots l = recount roots k.
Proof.
  intros Hc. unfold recount. apply map_ext. intros s. f_equal. unfold counted. f_equal. revert k Hc.
  induction l as [|r l IH]; intros [|r' k]; try done. intros [= Hr Hk]. cbn [filterb].
  rewrite (scopes_content roots r r' Hr). destruct (bool_decide _); cbn; by rewrite (IH k).
Qed.

(** *** Storing a line *)

Lemma with_raw_id o : with_raw (o_raw o) (o_counts o) (o_start o) o = o.
Proof. by destruct o. Qed.

(** The commands whose signals are left out, where they have been the same all
    along: only then do the counts match the lines. *)
Context (kept : option jsval) (Hkept : ∀ roots, kept = Some roots → roots = pg_roots env).

(** Counts that match, and a number of lines within the limit. *)
Definition store_ok (l : list raw) (c : list (jsstr * Z)) : Prop :=
  (∀ roots, kept = Some roots → c = recount roots l) ∧ (0 < max_output_lines → Z.of_nat (length l) <= max_output_lines).
(** From [all], only lines in front of a full store are missing. *)
Definition keeps_last {A} (all kept : list A) (stored : nat) : Prop :=
  ∃ lost, all = lost ++ kept ∧ (lost = [] ∨ 0 < max_output_lines ∧ Z.of_nat stored = max_output_lines).

Lemma sync_shape o r : store_ok (o_raw o) (o_counts o) → ∃ l c start,
  _syncTabRawLines o r = with_raw l c start o ∧ store_ok l c ∧ keeps_last (o_raw o ++ [r]) l (length l)
  ∧ (length (o_raw o) ≤ length l)%nat.
Proof.
  intros [Hc Hl]. unfold _syncTabRawLines. cbv zeta.
  set (c := _adjustTabOutputSignalCounts (pg_roots env) 1 (o_counts o) r).
  assert (∀ roots, kept = Some roots → c = recount roots (o_raw o ++ [r])) as Hc'
    by (intros roots Hr; unfold c; by rewrite (Hc roots Hr), (Hkept roots Hr), recount_snoc).
  clearbody c. destruct (0 <? max_output_lines) eqn:Hm; cbn [andb].
  2:{ do 3 eexists. split; [reflexivity|]. apply Z.ltb_ge in Hm. rewrite length_app. cbn. split; [split; [done|lia]|].
      split; [exists []; auto|lia]. }
  apply Z.ltb_lt in Hm. specialize (Hl Hm).
  destruct (max_output_lines <? Z.of_nat (length (o_raw o ++ [r]))) eqn:Hf.
  - apply Z.ltb_lt in Hf. set (n := Z.to_nat _). do 3 eexists. split; [reflexivity|].
    assert (length (drop n (o_raw o ++ [r])) = Z.to_nat max_output_lines) as Hlen
      by (rewrite length_drop; unfold n; lia).
    split; [split; [|rewrite Hlen; lia]|].
    { intros roots Hr. rewrite (Hc' roots Hr), <-(Hkept roots Hr). rewrite <-(take_drop n (o_raw o ++ [r])) at 2. apply recount_drop. }
    split; [|rewrite Hlen; lia]. exists (take n (o_raw o ++ [r])). rewrite take_drop. split; [done|]. right. rewrite Hlen. lia.
  - apply Z.ltb_ge in Hf. do 3 eexists. split; [reflexivity|]. split; [done|]. rewrite length_app. cbn.
    split; [exists []; auto|lia].
Qed.

Lemma keeps_last_trans {A} (a b c x : list A) n m : keeps_last a b n → keeps_last (b ++ x) c m → (n ≤ m)%nat →
  (0 < max_output_lines → Z.of_nat m <= max_output_lines) → keeps_last (a ++ x) c m.
Proof.
  intros (l & -> & Hl) (k & Hk & Hk') Hn Hm. exists (l ++ k). rewrite <-(assoc_L (++)), Hk, (assoc_L (++)). split; [done|].
  destruct Hk' as [->|Hk']; [|by right]. destruct Hl as [->|[Hp Hl]]; [by left|]. right. split; [done|].
  specialize (Hm Hp). lia.
Qed.
Lemma keeps_last_refl {A} (l : list A) n : keeps_last l l n.
Proof. exists []. auto. Qed.

Lemma sync_all l o : store_ok (o_raw o) (o_counts o) → ∃ l' c start,
  fold_left _syncTabRawLines l o = with_raw l' c start o ∧ store_ok l' c ∧ keeps_last (o_raw o ++ l) l' (length l')
  ∧ (length (o_raw o) ≤ length l')%nat.
Proof.
  revert o. induction l as [|r l IH]; intros o Hok.
  - exists (o_raw o), (o_counts o), (o_start o). rewrite with_raw_id, app_nil_r. split; [done|]. split; [done|].
    split; [apply keeps_last_refl|done].
  - cbn [fold_left]. destruct (sync_shape o r Hok) as (l1 & c1 & s1 & -> & Hok1 & Hk1 & Hn1).
    destruct (IH (with_raw l1 c1 s1 o) Hok1) as (l2 & c2 & s2 & -> & Hok2 & Hk2 & Hn2). cbn [o_raw with_raw] in Hk2, Hn2.
    exists l2, c2, s2. split; [done|]. split; [done|]. split; [|lia].
    change (r :: l) with ([r] ++ l). rewrite (assoc_L (++)). eapply keeps_last_trans; [exact Hk1|exact Hk2|lia|apply Hok2].
Qed.

(** *** Numbering *)

Definition face (s : span) : span := Span 0 (sp_classes s) (sp_role s) 0 (sp_text s) (sp_resume s).
Definition face_item (it : item) : item := Item (face (it_span it)) (it_role it).
Definition pending_raws (o : output) : list raw := bt_raws (_getPendingOutputBatch o).
Definition pending_items (o : output) : list item := bt_items (_getPendingOutputBatch o).

(** Only numbers differ. *)
Definition renumbered (o o' : output) : Prop :=
  ∃ n l p, o' = with_numbers n (with_pending p (with_raw l (o_counts o) (o_start o) o))
    ∧ map content l = map content (o_raw o)
    ∧ match o_pending o, p with
      | Some b, Some b' => bt_items b' = bt_items b ∧ map content (bt_raws b') = map content (bt_raws b)
                           ∧ bt_scheduled b' = bt_scheduled b ∧ bt_burst b' = bt_burst b
      | None, None => True
      | _, _ => False
      end.
Lemma renumbered_refl o : renumbered o o.
Proof.
  exists (o_numbers o), (o_raw o), (o_pending o). split; [by destruct o|]. split; [done|]. by destruct (o_pending o).
Qed.
Lemma renumbered_trans o1 o2 o3 : renumbered o1 o2 → renumbered o2 o3 → renumbered o1 o3.
Proof.
  intros (n & l & p & -> & Hl & Hp) (n' & l' & p' & -> & Hl' & Hp'). cbn [o_raw o_pending with_numbers with_pending with_raw] in *.
  exists n', l', p'. split; [done|]. split; [congruence|]. destruct (o_pending o1), p, p'; try done.
  destruct Hp as (H1 & H2 & H3 & H4), Hp' as (H1' & H2' & H3' & H4'). split_and!; congruence.
Qed.
Lemma take_number_renumbers x o : renumbered o (snd (take_number x o)).
Proof.
  unfold take_number. destruct (o_numbers o) as [t e]. destruct (0 <? x); cbn [snd];
    (eexists _, (o_raw o), (o_pending o); split; [by destruct o|]; split; [done|]; by destruct (o_pending o)).
Qed.
Lemma number_entry_spec b it o :
  let '(it', n, o') := number_entry b it o in face_item it' = face_item it ∧ sp_id (it_span it') = sp_id (it_span it) ∧ renumbered o o'.
Proof.
  unfold number_entry. destruct (negb _).
  - split; [by destruct (0 <? _)|]. split; [by destruct (0 <? _)|apply renumbered_refl].
  - unfold _assignOutputLineNumber. destruct (_isPrefixExcludedLine _).
    + split; [done|]. split; [done|apply renumbered_refl].
    + pose proof (take_number_renumbers (sp_number (it_span it)) o) as H. by destruct (take_number _ o) as [n o'].
Qed.
Lemma number_pending_renumbers id n o : renumbered o (number_pending id n o).
Proof.
  unfold number_pending. exists (o_numbers o), (number_raws id n (o_raw o)),
    ((λ b, Batch (bt_items b) (number_raws id n (bt_raws b)) (bt_scheduled b) (bt_burst b)) <$> o_pending o).
  split; [by destruct o|]. split; [apply content_number_raws|].
  destruct (o_pending o); cbn; [|done]. split_and!; try done. apply content_number_raws.
Qed.
Lemma number_batch_spec b l o :
  let '(l', o') := number_batch b l o in map face_item l' = map face_item l ∧ renumbered o o'.
Proof.
  revert b o. induction l as [|it l IH]; intros b o; cbn [number_batch]; [split; [done|apply renumbered_refl]|].
  pose proof (number_entry_spec b it o) as H. destruct (number_entry b it o) as [[it' n] o1]. destruct H as (Hf & _ & Hr).
  set (o2 := if 0 <? n then _ else _). assert (renumbered o o2) as Hr2.
  { eapply renumbered_trans; [exact Hr|]. unfold o2. destruct (0 <? n); [apply number_pending_renumbers|apply renumbered_refl]. }
  clearbody o2. specialize (IH false o2). destruct (number_batch false l o2) as [l' o3]. destruct IH as [Hf' Hr'].
  split; [cbn; by rewrite Hf, Hf'|by eapply renumbered_trans].
Qed.

(** *** Showing lines one at a time *)

(** What showing an entry at once does to the lines shown. *)
Definition add (l : list span) (it : item) : list span :=
  match coalesces l it with Some _ => removelast l ++ [it_span it] | None => l ++ [it_span it] end.
Definition faces : list span → list span := map face.

Lemma coalesces_face l it : coalesces (faces l) (face_item it) = face <$> coalesces l it.
Proof.
  unfold coalesces, faces. cbn [it_role face_item]. destruct (negb _); [done|].
  change (map face l) with (face <$> l). rewrite fmap_last. destruct (last l) as [s|]; [|done]. cbn.
  change (_coalescedOutputRoleForLine (face s)) with (_coalescedOutputRoleForLine s). by destruct (_ ==s _).
Qed.
Lemma faces_app l k : faces (l ++ k) = faces l ++ faces k.
Proof. apply map_app. Qed.
Lemma faces_removelast l : faces (removelast l) = removelast (faces l).
Proof. induction l as [|s [|s' l] IH]; [done..|]. cbn in *. by rewrite IH. Qed.
Lemma replace_face l it : match _replaceLastRenderedLineIfCoalescible l it with
  | Some l' => faces l' = add (faces l) (face_item it)
  | None => faces (l ++ [it_span it]) = add (faces l) (face_item it)
  end.
Proof.
  unfold _replaceLastRenderedLineIfCoalescible, add. rewrite coalesces_face.
  destruct (coalesces l it) as [s|]; cbn [fmap option_fmap option_map].
  - rewrite faces_app, faces_removelast. by destruct (negb _).
  - by rewrite faces_app.
Qed.
Lemma add_last l it : ∃ k, add l it = k ++ [it_span it].
Proof. unfold add. destruct (coalesces l it); by eexists. Qed.
Lemma coalesces_snoc l s it :
  coalesces (l ++ [s]) it = if nonempty (it_role it) && (_coalescedOutputRoleForLine s ==s it_role it) then Some s else None.
Proof. unfold coalesces. rewrite last_snoc. by destruct (nonempty _). Qed.

(** Neighbours in a batch do not give way to each other. *)
Definition gives_way (p q : item) : bool := nonempty (it_role q) && (it_role p ==s it_role q).
Fixpoint spaced (l : list item) : Prop :=
  match l with p :: ((q :: _) as l) => gives_way p q = false ∧ spaced l | _ => True end.
(** The line an entry shows has the role of the entry. *)
Definition consistent (it : item) : Prop := _coalescedOutputRoleForLine (it_span it) = it_role it.

Lemma spaced_cons p l : spaced (p :: l) ↔ match l with q :: _ => gives_way p q = false | [] => True end ∧ spaced l.
Proof. destruct l; cbn; tauto. Qed.
Lemma spaced_app l k : spaced (l ++ k) → spaced l ∧ spaced k.
Proof.
  induction l as [|p l IH]; [done|]. cbn [app]. rewrite !spaced_cons. intros [H1 H2]. destruct (IH H2) as [Hl Hk].
  split; [|done]. split; [|done]. by destruct l.
Qed.
Lemma spaced_snoc l q : spaced l → match last l with Some p => gives_way p q = false | None => True end → spaced (l ++ [q]).
Proof.
  induction l as [|p l IH]; [done|]. rewrite spaced_cons. intros [H1 H2] Hl. cbn [app]. rewrite spaced_cons.
  destruct l as [|p' l]; [done|]. split; [done|]. by apply IH.
Qed.
Lemma spaced_swap l p q : it_role p = it_role q → spaced (l ++ [p]) → spaced (l ++ [q]).
Proof.
  intros Hr. induction l as [|x l IH]; [done|]. cbn [app]. rewrite !spaced_cons. intros [H1 H2]. split; [|by apply IH].
  destruct l; cbn in *; [|done]. unfold gives_way in *. by rewrite <-Hr.
Qed.
Lemma spaced_face l : spaced (map face_item l) ↔ spaced l.
Proof. induction l as [|p l IH]; [done|]. cbn [map]. rewrite !spaced_cons, IH. by destruct l. Qed.
Lemma fold_add_spaced l it x : spaced (it :: l) → Forall consistent (it :: l) →
  fold_left add l (x ++ [it_span it]) = x ++ map it_span (it :: l).
Proof.
  revert it x. induction l as [|q l IH]; intros it x; [done|]. rewrite spaced_cons. intros [Hg Hs] Hc.
  apply Forall_cons in Hc as [Hi Hc]. cbn [fold_left]. unfold add at 2. rewrite coalesces_snoc.
  rewrite Hi. unfold gives_way in Hg. rewrite Hg. rewrite IH by done. by rewrite <-(assoc_L (++)).
Qed.
Lemma queue_adds l it x : spaced l → Forall consistent l → consistent it →
  fold_left add (_queuePendingOutputEntry l it) x = add (fold_left add l x) it
  ∧ spaced (_queuePendingOutputEntry l it) ∧ Forall consistent (_queuePendingOutputEntry l it)
  ∧ _queuePendingOutputEntry l it ≠ [].
Proof.
  intros Hs Hc Hi. unfold _queuePendingOutputEntry. destruct l as [|p l _] using rev_ind.
  { cbn. split_and!; try done. by constructor. }
  rewrite last_snoc. apply Forall_app in Hc as [Hl [Hp _]%Forall_cons].
  destruct (nonempty (it_role it) && (it_role p ==s it_role it)) eqn:Hg.
  - rewrite removelast_last. apply andb_true_iff in Hg as [Hne Heq]. apply bool_decide_eq_true in Heq.
    split; [|split; [by eapply spaced_swap|split; [|by destruct l]]].
    + rewrite !fold_left_app. cbn [fold_left]. destruct (add_last (fold_left add l x) p) as [k Hk].
      set (X := fold_left add l x) in *. unfold add at 2. rewrite Hk, coalesces_snoc, Hp, Hne, (bool_decide_true _ Heq). cbn [andb].
      rewrite removelast_last. revert Hk. unfold add, coalesces. rewrite Heq, Hne. cbn [negb].
      destruct (match last X with Some s => _ | None => None end); intros [-> _]%app_inj_tail; done.
    + apply Forall_app. split; [done|by constructor].
  - split; [by rewrite !fold_left_app|]. split; [by apply spaced_snoc; [|rewrite last_snoc]|]. split; [|by destruct l].
    rewrite !Forall_app. split; [split; [done|]|]; by constructor.
Qed.

(** *** Lines leave at the front only, and only at the limit *)

(** Of the lines [all], those shown: only the oldest are missing, and only
    where the page, now of [n] lines, is at its limit. *)
Definition shown_of (all l : list span) (n : nat) : Prop :=
  ∃ lost, all = lost ++ l ∧ (lost = [] ∨ l ≠ [] ∧ 0 < max_output_lines <= Z.of_nat n).
Lemma shown_of_refl l n : shown_of l l n.
Proof. exists []. auto. Qed.
Lemma add_nonempty l it : add l it ≠ [].
Proof. destruct (add_last l it) as [k ->]. by destruct k. Qed.
Lemma adds_nonempty its l : l ≠ [] → fold_left add its l ≠ [].
Proof. revert l. induction its as [|it its IH]; intros l Hl; [done|]. apply IH, add_nonempty. Qed.
Lemma add_app lost l it : l ≠ [] → add (lost ++ l) it = lost ++ add l it.
Proof.
  destruct l as [|s l _] using rev_ind; [done|]. intros _. unfold add. rewrite (assoc_L (++)), !coalesces_snoc.
  destruct (_ && _); rewrite ?removelast_last, <-?(assoc_L (++)); done.
Qed.
Lemma adds_app its lost l : l ≠ [] → fold_left add its (lost ++ l) = lost ++ fold_left add its l.
Proof.
  revert l. induction its as [|it its IH]; intros l Hl; [done|]. cbn [fold_left]. rewrite add_app by done. apply IH, add_nonempty.
Qed.
Lemma shown_of_adds its all l n : shown_of all l n → shown_of (fold_left add its all) (fold_left add its l) n.
Proof.
  intros (lost & -> & [->|[Hl Hm]]); [apply shown_of_refl|]. exists lost. split; [by apply adds_app|]. right. split; [by apply adds_nonempty|done].
Qed.
Lemma shown_of_trans a b c n m : shown_of a b n → shown_of b c m →
  (0 < max_output_lines <= Z.of_nat n → max_output_lines <= Z.of_nat m) → shown_of a c m.
Proof.
  intros (l & -> & Hl) (k & Hb & Hk) Hn. exists (l ++ k). split; [by rewrite Hb, (assoc_L (++))|].
  destruct Hl as [->|[Hne Hm]]; [done|]. right. split; [|split; [lia|by apply Hn]].
  destruct Hk as [->|[Hc _]]; [cbn [app] in Hb; by rewrite <-Hb|done].
Qed.
Lemma trim_shown l : shown_of (faces l) (faces (_trimOutputToMaxLines l)) (length (_trimOutputToMaxLines l)).
Proof.
  unfold _trimOutputToMaxLines. destruct (0 <? max_output_lines) eqn:Hm; [|apply shown_of_refl]. apply Z.ltb_lt in Hm.
  set (n := (length l - _)%nat). destruct (decide (n = 0%nat)) as [Hz|Hz]; [rewrite Hz; apply shown_of_refl|].
  exists (faces (take n l)). rewrite <-faces_app, take_drop. split; [done|]. right. rewrite length_drop. split; [|unfold n in *; lia].
  intros H. apply (f_equal length) in H. unfold faces in H. rewrite length_map, length_drop in H. cbn in H. unfold n in *. lia.
Qed.

(** *** What the operations do *)

(** Not a row of the outcome summary. *)
Definition own_line (s : span) : bool :=
  nonempty (_coalescedOutputRoleForLine s) || negb (bool_decide (SUMMARY_CLASS ∈ sp_classes s)).
Definition spans_ok (l : list span) : Prop :=
  0 < max_output_lines → Z.of_nat (length (filterb own_line l)) <= max_output_lines.
Definition batch_ok (b : batch) : Prop := bt_scheduled b = false → bt_items b = [] → bt_raws b = [].
Record page_ok (o : output) : Prop := PageOk
  { ok_store : store_ok (o_raw o) (o_counts o); ok_spans : spans_ok (o_spans o); ok_batch : batch_ok (_getPendingOutputBatch o) }.
(** Entries that wait are clear about giving way to each other. *)
Definition tidy (o : output) : Prop := spaced (pending_items o) ∧ Forall consistent (pending_items o).

(** The lines shown once the batch is through, and the lines stored then. *)
Definition visible (o : output) : list span := fold_left add (map face_item (pending_items o)) (faces (o_spans o)).
Definition transcript (o : output) : list props := map content (o_raw o ++ pending_raws o).

(** Lines on the page, and in the batch. *)
Definition page_size (o : output) : nat := length (o_spans o) + length (pending_items o).

(** From [o] to [o'], the entries [its] were shown and the lines stored; only
    what exceeds the limit left, in front. *)
Record does (its : list item) (lines : list props) (o o' : output) : Prop := Does
  { do_page : page_ok o';
    do_stored : keeps_last (transcript o ++ lines) (transcript o') (length (o_raw o'));
    do_grows : (length (o_raw o) ≤ length (o_raw o'))%nat;
    do_size : (page_size o' ≤ page_size o + length its)%nat;
    do_full : 0 < max_output_lines <= Z.of_nat (length (o_spans o)) → max_output_lines <= Z.of_nat (length (o_spans o'));
    do_shown : tidy o → Forall consistent its →
      tidy o' ∧ shown_of (fold_left add its (visible o)) (visible o') (length (o_spans o')) }.

(** The same page. *)
Lemma does_same o o' : page_ok o → o_spans o' = o_spans o → o_raw o' = o_raw o → o_counts o' = o_counts o →
  _getPendingOutputBatch o' = _getPendingOutputBatch o → does [] [] o o'.
Proof.
  intros [H1 H2 H3] Hs Hr Hc Hp. constructor.
  - constructor; by rewrite ?Hr, ?Hc, ?Hs, ?Hp.
  - unfold transcript, pending_raws. rewrite Hr, Hp, app_nil_r. apply keeps_last_refl.
  - by rewrite Hr.
  - unfold page_size, pending_items. rewrite Hs, Hp. cbn [length]. lia.
  - rewrite Hs. lia.
  - intros Ht _. unfold tidy, visible, pending_items in *. rewrite Hs, Hp. split; [done|apply shown_of_refl].
Qed.
Lemma does_refl o : page_ok o → does [] [] o o.
Proof. intros Ho. by apply does_same. Qed.
Lemma does_trans i1 l1 i2 l2 o1 o2 o3 : does i1 l1 o1 o2 → does i2 l2 o2 o3 → does (i1 ++ i2) (l1 ++ l2) o1 o3.
Proof.
  intros [P1 S1 G1 Z1 F1 V1] [P2 S2 G2 Z2 F2 V2]. constructor; [done| |lia|rewrite length_app; lia|lia|].
  - rewrite (assoc_L (++)). eapply keeps_last_trans; [exact S1|exact S2|done|]. apply (ok_store _ P2).
  - intros Ht [Hc1 Hc2]%Forall_app. destruct (V1 Ht Hc1) as [Ht2 Hv1]. destruct (V2 Ht2 Hc2) as [Ht3 Hv2]. split; [done|].
    rewrite fold_left_app. eapply shown_of_trans; [apply shown_of_adds, Hv1|exact Hv2|]. exact F2.
Qed.

Lemma trim_ok l : spans_ok (_trimOutputToMaxLines l).
Proof.
  unfold spans_ok, _trimOutputToMaxLines. intros Hm. rewrite (proj2 (Z.ltb_lt _ _) Hm).
  pose proof (filterb_length own_line (drop (length l - Z.to_nat max_output_lines) l)) as H.
  rewrite length_drop in H. lia.
Qed.
Lemma replaced_ok l it l' : _replaceLastRenderedLineIfCoalescible l it = Some l' → spans_ok l → spans_ok l'.
Proof.
  unfold _replaceLastRenderedLineIfCoalescible. destruct (coalesces l it) as [s|] eqn:Hc; [|done]. intros [= <-] Hok Hm.
  specialize (Hok Hm). destruct l as [|x l _] using rev_ind; [unfold coalesces in Hc; by destruct (negb _)|].
  rewrite removelast_last. rewrite coalesces_snoc in Hc. destruct (_ && _) eqn:Hr; [|done]. injection Hc as ->.
  apply andb_true_iff in Hr as [Hne Hr]. apply bool_decide_eq_true in Hr.
  assert (own_line s = true) as Hs by (unfold own_line; by rewrite Hr, Hne).
  rewrite filterb_app, length_app in Hok |- *. cbn [filterb] in Hok |- *. rewrite Hs in Hok. cbn [length] in Hok.
  clear Hs. match goal with |- context [own_line ?x] => destruct (own_line x) end; cbn [length]; lia.
Qed.

(** Mounting the first lines of a batch. *)
Lemma mount_shown l o : spaced l → Forall consistent l →
  let '(mounted, o') := mount_batch l o in
  faces (o_spans o' ++ map it_span mounted) = fold_left add (map face_item l) (faces (o_spans o)).
Proof.
  intros Hs Hc. destruct l as [|it l]; [cbn; by rewrite app_nil_r|].
  assert (fold_left add (map face_item (it :: l)) (faces (o_spans o))
    = add (faces (o_spans o)) (face_item it) ++ map it_span (map face_item l)) as Hf.
  { cbn [map fold_left]. destruct (add_last (faces (o_spans o)) (face_item it)) as [k ->].
    rewrite (fold_add_spaced (map face_item l) (face_item it)).
    - cbn [map]. by rewrite <-(assoc_L (++)).
    - apply (spaced_face (it :: l)), Hs.
    - change (Forall consistent (map face_item (it :: l))). apply Forall_map. by eapply Forall_impl; [exact Hc|]. }
  assert (∀ k, map it_span (map face_item k) = faces (map it_span k)) as Hm by (intros k; unfold faces; by rewrite !map_map).
  unfold mount_batch. pose proof (replace_face (o_spans o) it) as Hr. rewrite Hf, Hm.
  destruct (_replaceLastRenderedLineIfCoalescible (o_spans o) it) as [spans|] eqn:He; cbv beta iota zeta.
  - cbn [o_spans with_spans]. by rewrite faces_app, Hr.
  - cbn [map]. change (it_span it :: map it_span l) with ([it_span it] ++ map it_span l). by rewrite (assoc_L (++)), faces_app, Hr.
Qed.
Lemma replaced_length l it l' : _replaceLastRenderedLineIfCoalescible l it = Some l' → length l' = length l.
Proof.
  unfold _replaceLastRenderedLineIfCoalescible. destruct (coalesces l it) as [s|] eqn:Hc; [|done]. intros [= <-].
  destruct l as [|x l _] using rev_ind; [unfold coalesces in Hc; by destruct (negb _)|]. by rewrite removelast_last, !length_app.
Qed.
Lemma mount_spec l o : spans_ok (o_spans o) →
  let '(mounted, o') := mount_batch l o in
  let shown := o_spans o' ++ map it_span mounted in
  o' = with_spans (o_spans o') o ∧ (mounted = [] → spans_ok shown)
  ∧ (length (o_spans o) ≤ length shown ≤ length (o_spans o) + length l)%nat.
Proof.
  intros Hok. destruct l as [|it l].
  { cbn. rewrite app_nil_r. split; [by destruct o|]. split; [done|lia]. }
  unfold mount_batch. destruct (_replaceLastRenderedLineIfCoalescible (o_spans o) it) as [spans|] eqn:He; cbv beta iota zeta;
    rewrite length_app, length_map; cbn [o_spans with_spans length].
  - pose proof (replaced_length _ _ _ He). split; [done|]. split; [|lia]. intros ->. rewrite app_nil_r. by eapply replaced_ok.
  - split; [by destruct o|]. split; [done|lia].
Qed.

Lemma faces_spaced l l' : map face_item l = map face_item l' → spaced l' → spaced l.
Proof. intros He Hs. apply spaced_face. rewrite He. by apply spaced_face. Qed.
Lemma faces_consistent l l' : map face_item l = map face_item l' → Forall consistent l' → Forall consistent l.
Proof.
  intros He Hs. apply (proj1 (Forall_map face_item consistent l)). rewrite He. by apply Forall_map.
Qed.
Lemma mount_prompt_fields o : ∃ d m, _maybeMountDeferredPrompt o = with_prompt d m o.
Proof. unfold _maybeMountDeferredPrompt. destruct (_ || _); [|by eexists _, _]. exists (o_defer o), (o_mounts o). by destruct o. Qed.

(** Trimming leaves at most the limit, and at least that if there was more. *)
Lemma trim_length l : (length (_trimOutputToMaxLines l) ≤ length l)%nat
  ∧ (0 < max_output_lines <= Z.of_nat (length l) → max_output_lines <= Z.of_nat (length (_trimOutputToMaxLines l))).
Proof. unfold _trimOutputToMaxLines. destruct (0 <? max_output_lines); rewrite ?length_drop; lia. Qed.

(** What a flush stores and leaves waiting, and what it shows. *)
Definition flushed_store (b : batch) (o o' : output) : Prop :=
  ∃ raws b' l, map content raws = map content (bt_raws b) ∧ map content l = map content (o_raw o)
    ∧ o_pending o' = Some b' ∧ bt_items b' = drop _OUTPUT_BATCH_SIZE (bt_items b) ∧ bt_raws b' = drop _OUTPUT_BATCH_SIZE raws
    ∧ bt_scheduled b' = has_more b' ∧ store_ok (o_raw o') (o_counts o')
    ∧ keeps_last (l ++ take _OUTPUT_BATCH_SIZE raws) (o_raw o') (length (o_raw o')) ∧ (length (o_raw o) ≤ length (o_raw o'))%nat.
Definition flushed_page (b : batch) (o o' : output) : Prop :=
  ∃ shown, (spaced (bt_items b) → Forall consistent (bt_items b) →
      faces shown = fold_left add (map face_item (take _OUTPUT_BATCH_SIZE (bt_items b))) (faces (o_spans o)))
    ∧ shown_of (faces shown) (faces (o_spans o')) (length (o_spans o')) ∧ spans_ok (o_spans o')
    ∧ (length (o_spans o') ≤ length (o_spans o) + length (take _OUTPUT_BATCH_SIZE (bt_items b)))%nat
    ∧ (0 < max_output_lines <= Z.of_nat (length (o_spans o)) → max_output_lines <= Z.of_nat (length (o_spans o'))).
(** Only the lines and the pending batch differ. *)
Definition same_run (o o' : output) : Prop := o_hv o' = o_hv o ∧ o_runStart o' = o_runStart o ∧ o_chunks o' = o_chunks o.

Lemma flush_fields o b : page_ok o → o_pending o = Some b →
  let o' := _flushPendingOutputBatch o in flushed_store b o o' ∧ flushed_page b o o' ∧ same_run o o'.
Proof.
  intros [Hst Hsp _] Hp. cbv zeta. unfold _flushPendingOutputBatch, flushed_store, flushed_page. rewrite Hp.
  set (B := _OUTPUT_BATCH_SIZE). clearbody B. cbv zeta.
  set (o0 := with_pending _ o). pose proof (number_batch_spec true (take B (bt_items b)) o0) as Hn.
  destruct (number_batch true (take B (bt_items b)) o0) as [l' o1]. destruct Hn as (Hf & n & rl & p & Ho1 & Hrl & Hp1).
  cbn [o0 with_pending o_pending] in Hp1. destruct p as [b1|]; [|done]. destruct Hp1 as (_ & Hraws & _ & _). cbn [bt_raws] in Hraws.
  assert (o_spans o1 = o_spans o) as Hspans1 by by rewrite Ho1.
  assert (length l' = length (take B (bt_items b))) as Hll by (apply (f_equal length) in Hf; by rewrite !length_map in Hf).
  pose proof (mount_shown l' o1) as Hshown. pose proof (mount_spec l' o1) as Hm. destruct (mount_batch l' o1) as [mounted o2].
  rewrite Hspans1, Hll in Hm. specialize (Hm Hsp). cbv zeta in Hm. destruct Hm as (Ho2 & Hsmall & Hlenm).
  rewrite Hspans1, Hf in Hshown. set (shown := o_spans o2 ++ map it_span mounted) in *.
  assert (spaced (bt_items b) → Forall consistent (bt_items b) →
    faces shown = fold_left add (map face_item (take B (bt_items b))) (faces (o_spans o))) as Hshown'.
  { intros Hs Hc. apply Hshown.
    - eapply faces_spaced; [exact Hf|]. rewrite <-(take_drop B (bt_items b)) in Hs. apply spaced_app in Hs. tauto.
    - eapply faces_consistent; [exact Hf|]. by apply Forall_take. }
  clear Hshown. assert (bt_raws (_getPendingOutputBatch (with_spans shown o2)) = bt_raws b1) as Hr by (rewrite Ho2, Ho1; done). rewrite Hr.
  set (more := Batch _ (drop B (bt_raws b1)) _ _). set (o3 := with_pending (Some more) _).
  assert (o_raw o3 = rl ∧ o_counts o3 = o_counts o ∧ same_run o o3 ∧ o_spans o3 = shown) as (Hraw3 & Hc3 & Hrun & Hsp3)
    by (unfold o3; rewrite Ho2, Ho1; done).
  assert (length rl = length (o_raw o)) as Hlen by (apply (f_equal length) in Hrl; by rewrite !length_map in Hrl).
  assert (store_ok (o_raw o3) (o_counts o3)) as Hst3.
  { rewrite Hraw3, Hc3. destruct Hst as [Hc Hl]. split; [|by rewrite Hlen].
    intros roots Hk. by rewrite (Hc roots Hk), (recount_content roots rl (o_raw o)). }
  destruct (sync_all (take B (bt_raws b1)) o3 Hst3) as (l & c & start & -> & Hokl & Hk & Hgrow). rewrite Hraw3 in Hk, Hgrow.
  set (o5 := match mounted with [] => _ | _ => _ end).
  assert (∃ spans, o5 = with_spans spans (with_raw l c start o3) ∧ shown_of (faces shown) (faces spans) (length spans) ∧ spans_ok spans
    ∧ (length spans ≤ length (o_spans o) + length (take B (bt_items b)))%nat
    ∧ (0 < max_output_lines <= Z.of_nat (length (o_spans o)) → max_output_lines <= Z.of_nat (length spans)))
    as (spans & Ho5 & Htail & Hspans & Hsize & Hfull).
  { unfold o5. destruct mounted as [|m0 mounted].
    - exists shown. split; [by rewrite <-Hsp3|]. split; [apply shown_of_refl|]. split; [by apply Hsmall|]. split; lia.
    - eexists. split; [reflexivity|]. cbn [o_spans with_raw]. rewrite Hsp3. split; [apply trim_shown|]. split; [apply trim_ok|].
      pose proof (trim_length shown). split; lia. }
  clearbody o5. destruct (mount_prompt_fields (with_pending (Some (Batch [] [] false 0)) o5)) as (d & m & Hmount).
  rewrite Hlen in Hgrow. set (o6 := if has_more more then _ else _).
  assert (∃ b' defer mounts, o6 = with_prompt defer mounts (with_pending (Some b') o5) ∧ bt_items b' = bt_items more ∧ bt_raws b' = bt_raws more
    ∧ bt_scheduled b' = has_more b') as (b' & defer & mounts & -> & Hbi & Hbr & Hbs).
  { unfold o6. destruct (has_more more) eqn:Hmore.
    - exists (scheduled more), (o_defer o5), (o_mounts o5). split; [by destruct o5|]. done.
    - exists (Batch [] [] false 0), d, m. rewrite Hmount. split; [done|]. unfold has_more in Hmore.
      by destruct (bt_items more), (bt_raws more). }
  rewrite Ho5. cbn [o_pending o_spans o_raw o_counts with_pending with_spans with_raw with_prompt].
  split; [exists (bt_raws b1), b', rl; by split_and!|]. split; [exists shown; by split_and!|]. exact Hrun.
Qed.

Lemma flush_does o : page_ok o → does [] [] o (_flushPendingOutputBatch o).
Proof.
  intros Hok. destruct (o_pending o) as [b|] eqn:Hp; [|unfold _flushPendingOutputBatch; rewrite Hp; by apply does_refl].
  destruct (flush_fields o b Hok Hp) as ((raws & b' & l & Hraws & Hl & Hp' & Hi & Hr & Hs & Hst & Hk & Hg)
    & (shown & Hshown & Htail & Hspans & Hsize & Hfull) & _).
  assert (pending_items o = bt_items b ∧ pending_items (_flushPendingOutputBatch o) = drop _OUTPUT_BATCH_SIZE (bt_items b)) as [Hpi Hpi']
    by (unfold pending_items, _getPendingOutputBatch; rewrite Hp, Hp'; by rewrite <-Hi).
  constructor; [| |done| |done|].
  - constructor; [done|done|]. unfold _getPendingOutputBatch. rewrite Hp'. change (batch_ok b'). unfold batch_ok.
    rewrite Hs. unfold has_more. intros Hm Hn. rewrite Hn in Hm. by destruct (bt_raws b').
  - rewrite app_nil_r. destruct Hk as (lost & Hlost & Hlim). exists (map content lost). unfold transcript, pending_raws, _getPendingOutputBatch.
    rewrite Hp, Hp'. cbn [from_option id]. rewrite Hr, map_app, <-Hl, <-Hraws, <-map_app.
    rewrite <-(take_drop _OUTPUT_BATCH_SIZE raws) at 1. rewrite (assoc_L (++)), Hlost, <-!map_app, <-(assoc_L (++)).
    split; [done|]. destruct Hlim as [->|]; [by left|by right].
  - unfold page_size. rewrite Hpi, Hpi'. rewrite length_take in Hsize. rewrite length_drop. cbn [length]. lia.
  - intros [Hspaced Hcons] _. rewrite Hpi in Hspaced, Hcons. unfold tidy, visible. rewrite Hpi, Hpi'. cbn [fold_left]. split.
    + split; [|by apply Forall_drop]. rewrite <-(take_drop _OUTPUT_BATCH_SIZE (bt_items b)) in Hspaced. apply spaced_app in Hspaced. tauto.
    + rewrite <-(take_drop _OUTPUT_BATCH_SIZE (bt_items b)) at 1. rewrite map_app, fold_left_app, <-Hshown by done. by apply shown_of_adds.
Qed.

Lemma same_run_trans o1 o2 o3 : same_run o1 o2 → same_run o2 o3 → same_run o1 o3.
Proof. unfold same_run. intros (?&?&?) (?&?&?). split_and!; congruence. Qed.
Lemma flush_run o : page_ok o → same_run o (_flushPendingOutputBatch o).
Proof.
  intros Hok. destruct (o_pending o) as [b|] eqn:Hp; [|unfold _flushPendingOutputBatch; by rewrite Hp]. by apply (flush_fields o b).
Qed.
Lemma flush_all_does fuel o : page_ok o → does [] [] o (flush_all fuel o) ∧ same_run o (flush_all fuel o).
Proof.
  revert o. induction fuel as [|fuel IH]; intros o Hok; cbn [flush_all]; [by split; [apply does_refl|]|].
  destruct (o_pending o) as [b|]; [|by split; [apply does_refl|]]. destruct (has_more b); [|by split; [apply does_refl|]].
  pose proof (flush_does o Hok) as Hd. destruct (IH _ (do_page _ _ _ _ Hd)) as [Hd' Hr].
  split; [exact (does_trans [] [] [] [] _ _ _ Hd Hd')|]. eapply same_run_trans; [by apply flush_run|exact Hr].
Qed.

Definition nothing_pending (o : output) : Prop := pending_items o = [] ∧ pending_raws o = [].
Lemma flush_all_empties fuel o : page_ok o → (flush_fuel o ≤ fuel)%nat → nothing_pending (flush_all fuel o).
Proof.
  revert o. induction fuel as [|fuel IH]; intros o Hok Hf; cbn [flush_all]; unfold flush_fuel in Hf.
  - unfold nothing_pending, pending_items, pending_raws, _getPendingOutputBatch. destruct (o_pending o) as [b|]; [|done]. cbn.
    split; apply length_zero_iff_nil; lia.
  - destruct (o_pending o) as [b|] eqn:Hp; [|by unfold nothing_pending, pending_items, pending_raws, _getPendingOutputBatch; rewrite Hp].
    destruct (has_more b) eqn:Hm.
    + apply IH; [apply (flush_does o Hok)|]. pose proof (flush_fields o b Hok Hp) as H. cbv zeta in H.
      destruct H as [(raws & b' & l & Hraws & _ & Hp' & Hi & Hr & _) _].
      unfold flush_fuel. rewrite Hp', Hi, Hr, !length_drop. apply (f_equal length) in Hraws. rewrite !length_map in Hraws. rewrite Hraws.
      unfold has_more in Hm. unfold _OUTPUT_BATCH_SIZE. destruct (bt_items b), (bt_raws b); try done; cbn [length] in *; lia.
    + unfold nothing_pending, pending_items, pending_raws, _getPendingOutputBatch. rewrite Hp. cbn. unfold has_more in Hm.
      by destruct (bt_items b), (bt_raws b).
Qed.

(** The entry and the line of an event. *)
Definition entry_of (e : event) (md : props) : item :=
  Item (Span 0 (line_classes e) (ev_role e) 0 (ev_text e)
          (if negb (_isPromptEchoLineEvent e) && truthy (meta md "high_volume_resume") then Some true else None))
    (_coalescedOutputRoleForEvent e).
Definition line_of (e : event) (md : props) (now runStart : num) : props := content (Raw 0 (_rawOutputLine e now runStart md)).
(** An event whose classes and role say the same about giving way. *)
Definition clear_event (e : event) : Prop := consistent (entry_of e []).

Lemma queue_face l it : map face_item (_queuePendingOutputEntry l it) = _queuePendingOutputEntry (map face_item l) (face_item it).
Proof.
  unfold _queuePendingOutputEntry. destruct l as [|p l _] using rev_ind; [done|]. rewrite map_app. cbn [map]. rewrite !last_snoc.
  change (it_role (face_item p)) with (it_role p). change (it_role (face_item it)) with (it_role it).
  destruct (_ && _); rewrite ?removelast_last, !map_app; done.
Qed.
(** An entry that joins the batch. *)
Lemma queued_shown o o' it : o_spans o' = o_spans o → pending_items o' = _queuePendingOutputEntry (pending_items o) it →
  (page_size o' ≤ page_size o + 1)%nat
  ∧ (tidy o → consistent it → tidy o' ∧ visible o' = add (visible o) (face_item it)).
Proof.
  intros Hs Hi. unfold page_size, tidy, visible. rewrite Hs, Hi. split.
  - assert (length (_queuePendingOutputEntry (pending_items o) it) ≤ length (pending_items o) + 1)%nat; [|lia].
    unfold _queuePendingOutputEntry. destruct (pending_items o) as [|p l _] using rev_ind; [cbn; lia|]. rewrite last_snoc.
    destruct (_ && _); rewrite ?removelast_last, !length_app; cbn [length]; lia.
  - intros [Hsp Hc] Hit. destruct (queue_adds (map face_item (pending_items o)) (face_item it) (faces (o_spans o))) as (Hq & _);
      [by apply spaced_face|by apply Forall_map|done|].
    destruct (queue_adds (pending_items o) it (faces (o_spans o)) Hsp Hc Hit) as (_ & Hqs & Hqc & _). by rewrite queue_face, Hq.
Qed.
Lemma queue_idle l it (scheduled : bool) burst raws : batch_ok (Batch (_queuePendingOutputEntry l it) raws scheduled burst).
Proof.
  unfold batch_ok. cbn. intros _ H. exfalso. revert H. unfold _queuePendingOutputEntry.
  destruct (last l) as [p|]; [destruct (_ && _)|]; intros [_ ?]%app_eq_nil; done.
Qed.
(** What showing a line at once does to the page. *)
Lemma placed o it : spans_ok (o_spans o) →
  let o' := match _replaceLastRenderedLineIfCoalescible (o_spans o) it with
            | Some spans => with_spans spans o
            | None => with_spans (_trimOutputToMaxLines (o_spans o ++ [it_span it])) o
            end in
  ∃ spans, o' = with_spans spans o ∧ shown_of (add (faces (o_spans o)) (face_item it)) (faces spans) (length spans) ∧ spans_ok spans
    ∧ (length spans ≤ length (o_spans o) + 1)%nat
    ∧ (0 < max_output_lines <= Z.of_nat (length (o_spans o)) → max_output_lines <= Z.of_nat (length spans)).
Proof.
  intros Hok. cbv zeta. pose proof (replace_face (o_spans o) it) as Hrep.
  destruct (_replaceLastRenderedLineIfCoalescible (o_spans o) it) as [spans|] eqn:Heq.
  - exists spans. split; [done|]. rewrite Hrep. split; [apply shown_of_refl|]. split; [by eapply replaced_ok|].
    rewrite (replaced_length _ _ _ Heq). lia.
  - eexists. split; [reflexivity|]. rewrite <-Hrep. split; [apply trim_shown|]. split; [apply trim_ok|].
    pose proof (trim_length (o_spans o ++ [it_span it])) as Ht. rewrite length_app in Ht. cbn [length] in Ht. lia.
Qed.
Lemma show_line_does e md now o : page_ok o →
  does [entry_of e md] [line_of e md now (o_runStart o)] o (show_line e md now o) ∧ same_run o (show_line e md now o).
Proof.
  intros Hok. unfold show_line. set (b := _getPendingOutputBatch o). pose proof (ok_batch _ Hok) as Hidle. fold b in Hidle.
  destruct (_buildOutputLine (o_next o) e now (o_runStart o) md) as [it r] eqn:Hb.
  assert (face_item it = entry_of e md) as Hit by by injection Hb as <- _.
  assert (content r = line_of e md now (o_runStart o)) as Hr by by injection Hb as _ <-. clear Hb. rewrite <-Hit, <-Hr. clear Hit Hr.
  destruct (bt_scheduled b || _ || _) eqn:Hbatch.
  - split; [|done]. set (o' := with_pending _ _).
    destruct (queued_shown o o' it eq_refl eq_refl) as [Hsize Hshown]. constructor.
    + constructor; [apply Hok|apply Hok|]. apply queue_idle.
    + unfold transcript, pending_raws. fold b. change (bt_raws (_getPendingOutputBatch o')) with (bt_raws b ++ [r]).
      change (o_raw o') with (o_raw o). change [content r] with (map content [r]). rewrite <-map_app, <-(assoc_L (++)). apply keeps_last_refl.
    + done.
    + exact Hsize.
    + change (o_spans o') with (o_spans o). lia.
    + intros Ht Hc. apply Forall_cons in Hc as [Hc _]. destruct (Hshown Ht Hc) as [Ht' Hv]. split; [done|]. rewrite Hv. apply shown_of_refl.
  - apply orb_false_iff in Hbatch as [[Hsch Hempty]%orb_false_iff _]. apply negb_false_iff, bool_decide_eq_true in Hempty.
    apply length_zero_iff_nil in Hempty. specialize (Hidle Hsch Hempty).
    set (o1 := with_pending _ (with_next _ o)). pose proof (number_entry_spec true it o1) as Hn.
    destruct (number_entry true it o1) as [[it' n] o2]. destruct Hn as (Hf & _ & n' & l & p & Ho2 & Hl & Hp).
    cbn [o1 o_pending with_pending] in Hp. destruct p as [b2|]; [|done]. destruct Hp as (Hp1 & Hp2 & Hp3 & _). cbn in Hp1, Hp2, Hp3.
    rewrite Hempty in Hp1. rewrite Hidle in Hp2. apply map_eq_nil in Hp2.
    set (r' := if 0 <? n then _ else r). assert (content r' = content r) as Hr' by (unfold r'; destruct (0 <? n); [apply content_set_number|done]).
    assert (o_spans o2 = o_spans o) as Hs2 by by rewrite Ho2.
    pose proof (placed o2 it') as Hpl. rewrite Hs2, Hf in Hpl. destruct (Hpl (ok_spans _ Hok)) as (spans & Ho3 & Htail & Hspans & Hsize & Hfull).
    rewrite Hs2. set (o3 := match _replaceLastRenderedLineIfCoalescible _ _ with Some _ => _ | None => _ end) in *. clearbody o3.
    assert (length l = length (o_raw o)) as Hlen by (apply (f_equal length) in Hl; by rewrite !length_map in Hl).
    assert (store_ok (o_raw o3) (o_counts o3)) as Hst3.
    { rewrite Ho3, Ho2. cbn. destruct (ok_store _ Hok) as [Hc Hm]. split; [|by rewrite Hlen].
      intros roots Hk. by rewrite (Hc roots Hk), (recount_content roots l (o_raw o)). }
    destruct (sync_shape o3 r' Hst3) as (l' & c & start & -> & Hokl & Hk & Hg).
    assert (o_raw o3 = l) as Hraw3 by by rewrite Ho3, Ho2. rewrite Hraw3 in Hk, Hg. rewrite Hlen in Hg.
    rewrite Ho3, Ho2. split; [|done]. set (o' := with_raw l' c start _).
    assert (pending_items o' = [] ∧ pending_raws o' = [] ∧ pending_items o = [] ∧ pending_raws o = []) as (Hi1 & Hr1 & Hi0 & Hr0) by done.
    constructor.
    + constructor; [done|done|]. unfold batch_ok, _getPendingOutputBatch. cbn. by rewrite Hp2.
    + destruct Hk as (lost & Hlost & Hlim). exists (map content lost). unfold transcript. rewrite Hr0, Hr1, !app_nil_r.
      change (o_raw o') with l'. rewrite <-Hr', <-map_app, <-Hlost, map_app, Hl. split; [done|]. destruct Hlim as [->|]; [by left|by right].
    + done.
    + unfold page_size. rewrite Hi0, Hi1. change (o_spans o') with spans. cbn [length]. lia.
    + exact Hfull.
    + intros _ _. unfold tidy, visible. rewrite Hi0, Hi1. split; [split; [done|constructor]|exact Htail].
Qed.

(** *** Storing a line without showing it *)

Lemma take_number_fields x o : let o' := snd (take_number x o) in ∃ n, o' = with_numbers n o.
Proof. unfold take_number. destruct (o_numbers o). destruct (0 <? x); by eexists. Qed.
(** [store_line] up to its notice. *)
Definition stored_line (e : event) (md : props) (now : num) (o : output) : output :=
  let '(r, o) := _assignRawOutputLineNumber (Raw (o_next o) (_rawOutputLine e now (o_runStart o) md)) (with_next (S (o_next o)) o) in
  _syncTabRawLines o r.
Lemma stored_shape e md now o : page_ok o → ∃ n l c start,
  stored_line e md now o = with_raw l c start (with_numbers n (with_next (S (o_next o)) o)) ∧ store_ok l c
  ∧ keeps_last (map content (o_raw o) ++ [line_of e md now (o_runStart o)]) (map content l) (length l)
  ∧ (length (o_raw o) ≤ length l)%nat.
Proof.
  intros Hok. unfold stored_line, _assignRawOutputLineNumber. set (r := Raw (o_next o) _). set (x := int_value _). set (o1 := with_next _ o).
  pose proof (take_number_fields x o1) as Hn. destruct (take_number x o1) as [n o2]. destruct Hn as [n' Hn]. cbn [snd] in Hn. subst o2.
  set (r' := if 0 <? x then r else _). assert (content r' = line_of e md now (o_runStart o)) as Hr
    by (unfold r'; destruct (0 <? x); [done|apply content_set_number]).
  destruct (sync_shape (with_numbers n' o1) r' (ok_store _ Hok)) as (l & c & start & -> & Hl & (lost & Hk & Hf) & Hg).
  exists n', l, c, start. split; [done|]. split; [done|]. split; [|exact Hg]. exists (map content lost).
  rewrite <-Hr. change [content r'] with (map content [r']). rewrite <-!map_app. change (o_raw (with_numbers n' o1)) with (o_raw o) in Hk. rewrite Hk.
  split; [done|]. destruct Hf as [->|]; [by left|by right].
Qed.
Lemma stored_page e md now o : page_ok o → page_ok (stored_line e md now o) ∧ same_run o (stored_line e md now o).
Proof.
  intros Hok. destruct (stored_shape e md now o Hok) as (n & l & c & start & -> & Hl & _). split; [|done]. by constructor; [|apply Hok..].
Qed.
Lemma stored_does e md now o : page_ok o → nothing_pending o →
  does [] [line_of e md now (o_runStart o)] o (stored_line e md now o).
Proof.
  intros Hok [Hi Hr]. pose proof (proj1 (stored_page e md now o Hok)) as Hok'.
  destruct (stored_shape e md now o Hok) as (n & l & c & start & Heq & Hl & Hk & Hg). rewrite Heq in Hok' |- *.
  constructor; [done| |done| | |].
  - unfold transcript. change (pending_raws (with_raw l c start _)) with (pending_raws o). by rewrite Hr, !app_nil_r.
  - change (page_size (with_raw l c start _)) with (page_size o). lia.
  - change (o_spans (with_raw l c start _)) with (o_spans o). lia.
  - intros Ht _. split; [exact Ht|apply shown_of_refl].
Qed.

(** *** The notices of the high-volume mode *)

Definition notice_input (text : jsstr) (md : props) : event * props := _normalizeLineEventInput (VStr text) (vstr "notice") (VObj md).
Definition RESUME : props := [(js "high_volume_resume", VBool true)].
Lemma notice_event text md : md = [] ∨ md = RESUME →
  ev_role (fst (notice_input text md)) = js "body" ∧ legacyClsForEvent (fst (notice_input text md)) = js "notice".
Proof. by intros [->| ->]; split; vm_compute. Qed.
Lemma notice_clear text md : md = [] ∨ md = RESUME → clear_event (fst (notice_input text md)).
Proof.
  intros Hmd. destruct (notice_event text md Hmd) as [Hr Hl].
  unfold clear_event, consistent, entry_of, line_classes, _coalescedOutputRoleForEvent, _isPromptEchoLineEvent, _coalescedOutputRoleForLine.
  cbn [it_span it_role sp_role sp_classes]. rewrite Hr, Hl.
  generalize (negb (nonempty (ev_text (fst (notice_input text md))))). intros []; vm_compute; reflexivity.
Qed.
Lemma notice_does text md now o : page_ok o →
  let n := notice_input text md in
  does [entry_of (fst n) (snd n)] [line_of (fst n) (snd n) now (o_runStart o)] o (notice text md now o) ∧ same_run o (notice text md now o).
Proof.
  intros Hok n. unfold notice. fold (notice_input text md).
  unfold n. destruct (notice_input text md) as [e md']. by apply show_line_does.
Qed.

(** The notice after [received] live lines. *)
Definition overview (received : Z) : event * props :=
  notice_input (js "[high-volume output mode: " ++ _formatHighVolumeCount received
                ++ js " lines received; live rendering paused]") RESUME.
Definition due (h : high_volume) : bool :=
  (hv_skipped h =? 1) || (_highVolumeOutputStatusIntervalLines <=? hv_received h - hv_notice h).
(** The state after one more line was skipped. *)
Definition after_skip (h : high_volume) : high_volume :=
  let h := skipped_one h in if due h then noted (hv_received h) h else h.

Lemma store_line_eq e md now o : store_line e md now o =
  let o := stored_line e md now o in
  let h := skipped_one (_ensureHighVolumeOutputState o) in
  _appendHighVolumeOutputNotice (hv_skipped h =? 1) now (with_hv h o).
Proof. unfold store_line, stored_line. by destruct (_assignRawOutputLineNumber _ _). Qed.
Lemma notices_spec h now o : page_ok o → o_hv o = Some h →
  let n := overview (hv_received h) in
  let o' := _appendHighVolumeOutputNotice (hv_skipped h =? 1) now o in
  does (if due h then [entry_of (fst n) (snd n)] else []) (if due h then [line_of (fst n) (snd n) now (o_runStart o)] else []) o o'
  ∧ o_hv o' = Some (if due h then noted (hv_received h) h else h) ∧ o_runStart o' = o_runStart o ∧ o_chunks o' = o_chunks o.
Proof.
  intros Hok Hh n o'. unfold o', _appendHighVolumeOutputNotice, _ensureHighVolumeOutputState. rewrite Hh. cbn [from_option id]. unfold due.
  rewrite Z.leb_antisym. destruct (hv_skipped h =? 1), (_ <? _); cbn [negb andb orb]; try (by split; [apply does_refl|]).
  all: set (o1 := with_hv _ o); assert (page_ok o1) as Hok1 by (by destruct Hok);
    destruct (notice_does (js "[high-volume output mode: " ++ _formatHighVolumeCount (hv_received h)
                ++ js " lines received; live rendering paused]") RESUME now o1 Hok1) as [Hd (H1 & H2 & H3)];
    (split; [|by rewrite ?H1, ?H2, ?H3]); destruct Hd as [D1 D2 D3 D4 D5 D6]; by constructor.
Qed.

(** The skipping of a live line. *)
Definition skips (md : props) (o : output) : bool := fst (_shouldSkipLiveOutputRender md o).
Definition seen (md : props) (o : output) : high_volume := _ensureHighVolumeOutputState (snd (_shouldSkipLiveOutputRender md o)).
Lemma should_skip_same md o : ∃ h, snd (_shouldSkipLiveOutputRender md o) = Output (o_spans o) (o_numbers o) (o_raw o) (o_counts o) (o_start o) h
  (o_pending o) (o_chunks o) (o_next o) (o_runStart o) (o_running o) (o_defer o) (o_command o) (o_outcome o) (o_mounts o).
Proof.
  unfold _shouldSkipLiveOutputRender. destruct (negb _); [exists (o_hv o); by destruct o|]. destruct (_ || _); by eexists.
Qed.

Definition entries_of (e : event) (md : props) (o : output) : list item :=
  if skips md o
  then let h := skipped_one (seen md o) in if due h then [entry_of (fst (overview (hv_received h))) (snd (overview (hv_received h)))] else []
  else [entry_of e md].
Definition lines_of (e : event) (md : props) (now : num) (o : output) : list props :=
  line_of e md now (o_runStart o) ::
  (if skips md o
   then let h := skipped_one (seen md o) in
        if due h then [line_of (fst (overview (hv_received h))) (snd (overview (hv_received h))) now (o_runStart o)] else []
   else []).
Lemma append_does e md now o : page_ok o →
  let o' := append_event e md now o in
  does (entries_of e md o) (lines_of e md now o) o o'
  ∧ o_hv o' = (if skips md o then Some (after_skip (seen md o)) else o_hv (snd (_shouldSkipLiveOutputRender md o)))
  ∧ o_runStart o' = o_runStart o ∧ o_chunks o' = o_chunks o.
Proof.
  intros Hok o'. unfold o', append_event, entries_of, lines_of, skips, seen.
  destruct (should_skip_same md o) as [hs Hs]. destruct (_shouldSkipLiveOutputRender md o) as [skip o1]. cbn [fst snd] in *.
  assert (does [] [] o o1 ∧ o_runStart o1 = o_runStart o ∧ o_chunks o1 = o_chunks o) as (Hd1 & Hrs1 & Hc1)
    by (rewrite Hs; split; [by apply does_same|done]). clear Hs.
  destruct skip.
  - unfold _flushPendingOutputBeforeHighVolumeSkip. pose proof (do_page _ _ _ _ Hd1) as Hok1.
    destruct (flush_all_does (flush_fuel o1) o1 Hok1) as [Hd2 (Hh2 & Hrs2 & Hc2)].
    pose proof (flush_all_empties (flush_fuel o1) o1 Hok1 (le_n _)) as Hemp. set (o2 := flush_all _ o1) in *. clearbody o2.
    rewrite store_line_eq. cbv zeta. pose proof (stored_does e md now o2 (do_page _ _ _ _ Hd2) Hemp) as Hd3.
    destruct (stored_page e md now o2 (do_page _ _ _ _ Hd2)) as [_ (Hh3 & Hrs3 & Hc3)]. set (o3 := stored_line e md now o2) in *. clearbody o3.
    assert (_ensureHighVolumeOutputState o3 = _ensureHighVolumeOutputState o1) as -> by (unfold _ensureHighVolumeOutputState; congruence).
    set (h := skipped_one _). assert (page_ok (with_hv h o3)) as Hok3 by by destruct (do_page _ _ _ _ Hd3).
    destruct (notices_spec h now (with_hv h o3) Hok3 eq_refl) as (Hd4 & Hh4 & Hrs4 & Hc4). fold h.
    assert (does [] [] o3 (with_hv h o3)) as Hd3' by (apply does_same; [apply (do_page _ _ _ _ Hd3)|done..]).
    pose proof (does_trans _ _ _ _ _ _ _ Hd1 (does_trans _ _ _ _ _ _ _ Hd2 (does_trans _ _ _ _ _ _ _ Hd3 (does_trans _ _ _ _ _ _ _ Hd3' Hd4)))) as Hd.
    cbn [app with_hv o_runStart] in Hd. rewrite Hrs3, Hrs2, Hrs1 in Hd. split; [exact Hd|]. cbn [with_hv o_runStart o_chunks] in *.
    split; [exact Hh4|]. split; congruence.
  - destruct (show_line_does e md now o1 (do_page _ _ _ _ Hd1)) as [Hd (Hh & Hrs & Hc)]. rewrite Hrs1 in Hd.
    split; [exact (does_trans _ _ _ _ _ _ _ Hd1 Hd)|]. split_and!; congruence.
Qed.

(** *** Lists of lines *)

Lemma queue_overtakes now o entry : page_ok o → pending_items o ≠ [] →
  let '(e, md) := _normalizeAppendLinesEntry entry in
  skips md o = true →
  let o' := queue_line now o entry in
  keeps_last (map content (o_raw o) ++ [line_of e md now (o_runStart o)]) (map content (o_raw o')) (length (o_raw o'))
  ∧ ∃ later, map content (pending_raws o') = map content (pending_raws o) ++ later.
Proof.
  intros Hok Hne. destruct (_normalizeAppendLinesEntry entry) as [e md] eqn:Hn. intros Hskip o'. unfold o', queue_line. rewrite Hn.
  unfold skips in Hskip. destruct (should_skip_same md o) as [hs Hs]. destruct (_shouldSkipLiveOutputRender md o) as [skip o1]. cbn [fst snd] in *. subst skip.
  assert (page_ok o1) as Hok1 by (rewrite Hs; by destruct Hok).
  assert (pending_items o1 = pending_items o ∧ pending_raws o1 = pending_raws o ∧ o_raw o1 = o_raw o ∧ o_runStart o1 = o_runStart o) as (Hi & Hr & Hraw & Hrs)
    by (by rewrite Hs). clear Hs.
  rewrite store_line_eq. cbv zeta. destruct (stored_shape e md now o1 Hok1) as (n & l & c & start & -> & Hl & Hk & Hg). rewrite Hraw, Hrs in Hk.
  set (o2 := with_raw l c start _). set (h := skipped_one _).
  assert (pending_items (with_hv h o2) = pending_items o ∧ pending_raws (with_hv h o2) = pending_raws o) as [Hi2 Hr2] by by rewrite <-Hi, <-Hr.
  unfold _appendHighVolumeOutputNotice. destruct (_ && _); [split; [exact Hk|exists []; by rewrite app_nil_r, Hr2]|].
  set (o3 := with_hv (noted _ _) _). assert (pending_items o3 = pending_items o ∧ pending_raws o3 = pending_raws o) as [Hi3 Hr3] by by rewrite <-Hi2, <-Hr2.
  assert (o_raw o3 = l) as Hraw3 by done. clearbody o3. unfold notice. destruct (_normalizeLineEventInput _ _ _) as [e' md']. unfold show_line. cbv zeta.
  destruct (_buildOutputLine _ _ _ _ _) as [it r]. unfold pending_items in Hi3. rewrite Hi3.
  rewrite (bool_decide_false (length (bt_items (_getPendingOutputBatch o)) = 0%nat)) by (intros ?%length_zero_iff_nil; done).
  rewrite orb_true_r. cbn [negb orb o_raw with_pending with_next]. rewrite Hraw3. split; [exact Hk|]. exists [content r].
  unfold pending_raws in *. change (_getPendingOutputBatch (with_pending (Some ?x) _)) with x. cbn [bt_raws]. by rewrite Hr3, map_app.
Qed.

(** *** What holds between steps *)

(** Lines that wait have a timer. *)
Definition timer_ok (o : output) : Prop :=
  has_more (_getPendingOutputBatch o) = true → bt_scheduled (_getPendingOutputBatch o) = true.
Lemma timer_nothing o : nothing_pending o → timer_ok o.
Proof. unfold nothing_pending, timer_ok, pending_items, pending_raws, has_more. by intros [-> ->]. Qed.
Lemma show_line_timer e md now o : page_ok o → timer_ok (show_line e md now o).
Proof.
  intros Hok. unfold show_line. cbv zeta. destruct (_buildOutputLine _ _ _ _ _) as [it r].
  destruct (bt_scheduled _ || _ || _) eqn:Hb; [done|].
  apply orb_false_iff in Hb as [[Hsch Hempty]%orb_false_iff _]. apply negb_false_iff, bool_decide_eq_true in Hempty.
  apply length_zero_iff_nil in Hempty. pose proof (ok_batch _ Hok Hsch Hempty) as Hidle.
  set (o1 := with_pending _ (with_next _ o)). pose proof (number_entry_spec true it o1) as Hn.
  destruct (number_entry true it o1) as [[it' n] o2]. destruct Hn as (_ & _ & n' & l & p & -> & _ & Hp).
  cbn [o1 o_pending with_pending] in Hp. destruct p as [b2|]; [|done]. destruct Hp as (Hp1 & Hp2 & _). cbn in Hp1, Hp2.
  rewrite Hempty in Hp1. rewrite Hidle in Hp2. apply map_eq_nil in Hp2.
  apply timer_nothing. unfold nothing_pending, pending_items, pending_raws.
  assert (∀ x r, _getPendingOutputBatch (_syncTabRawLines x r) = _getPendingOutputBatch x) as Hsync
    by (intros x r0; unfold _syncTabRawLines; by destruct (_ && _)).
  rewrite Hsync. by destruct (_replaceLastRenderedLineIfCoalescible _ _).
Qed.
Lemma notices_timer force now o : page_ok o → timer_ok o → timer_ok (_appendHighVolumeOutputNotice force now o).
Proof.
  intros Hok Ht. unfold _appendHighVolumeOutputNotice. destruct (_ && _); [done|]. unfold notice.
  destruct (_normalizeLineEventInput _ _ _). apply show_line_timer. by destruct Hok.
Qed.
Lemma stored_pending e md now o : page_ok o → _getPendingOutputBatch (stored_line e md now o) = _getPendingOutputBatch o.
Proof. intros Hok. by destruct (stored_shape e md now o Hok) as (n & l & c & start & -> & _). Qed.
Lemma skip_same md o : page_ok o → page_ok (snd (_shouldSkipLiveOutputRender md o))
  ∧ _getPendingOutputBatch (snd (_shouldSkipLiveOutputRender md o)) = _getPendingOutputBatch o
  ∧ o_chunks (snd (_shouldSkipLiveOutputRender md o)) = o_chunks o.
Proof. intros Hok. destruct (should_skip_same md o) as [h ->]. split; [by destruct Hok|done]. Qed.
Lemma store_page e md now o : page_ok o →
  page_ok (store_line e md now o) ∧ o_chunks (store_line e md now o) = o_chunks o ∧ (timer_ok o → timer_ok (store_line e md now o)).
Proof.
  intros Hok. rewrite store_line_eq. cbv zeta. destruct (stored_page e md now o Hok) as [Hok1 (_ & _ & Hc)].
  pose proof (stored_pending e md now o Hok) as Hp. set (o1 := stored_line e md now o) in *. clearbody o1. set (h := skipped_one _).
  assert (page_ok (with_hv h o1)) as Hok2 by by destruct Hok1.
  destruct (notices_spec h now (with_hv h o1) Hok2 eq_refl) as (Hd & _ & _ & Hc'). apply do_page in Hd. split; [exact Hd|]. split; [by rewrite Hc'|].
  intros Ht. apply notices_timer; [done|]. unfold timer_ok in *. change (_getPendingOutputBatch (with_hv h o1)) with (_getPendingOutputBatch o1). by rewrite Hp.
Qed.
Lemma append_timer e md now o : page_ok o → timer_ok (append_event e md now o).
Proof.
  intros Hok. unfold append_event. destruct (skip_same md o Hok) as (Hok1 & _). destruct (_shouldSkipLiveOutputRender md o) as [[] o1]; cbn [snd] in *.
  - apply store_page; [by apply flush_all_does|]. apply timer_nothing. by apply flush_all_empties.
  - by apply show_line_timer.
Qed.

Lemma queue_line_page now o entry : page_ok o → page_ok (queue_line now o entry) ∧ o_chunks (queue_line now o entry) = o_chunks o.
Proof.
  intros Hok. unfold queue_line. destruct (_normalizeAppendLinesEntry entry) as [e md].
  destruct (skip_same md o Hok) as (Hok1 & _ & Hc1). destruct (_shouldSkipLiveOutputRender md o) as [[] o1]; cbn [snd] in *.
  - destruct (store_page e md now o1 Hok1) as (H1 & H2 & _). split; [done|by rewrite H2].
  - cbv zeta. destruct (_buildOutputLine _ _ _ _ _) as [it r]. split; [|exact Hc1]. constructor; [apply Hok1|apply Hok1|apply queue_idle].
Qed.
Lemma queue_chunk_page lines now o : page_ok o → let '(later, o') := queueChunk lines now o in page_ok o' ∧ timer_ok o'.
Proof.
  intros Hok. unfold queueChunk. set (B := _OUTPUT_APPEND_LINES_CHUNK_SIZE). clearbody B. set (o1 := with_pending _ o).
  assert (page_ok o1) as Hok1 by (by destruct Hok). clearbody o1.
  assert (page_ok (fold_left (queue_line now) (take B lines) o1)) as Hok2.
  { revert o1 Hok1. induction (take B lines) as [|x l IH]; intros o1 Hok1; [done|]. cbn [fold_left]. by apply IH, queue_line_page. }
  set (o2 := fold_left _ _ _) in *. clearbody o2. cbv zeta. split; [|done]. constructor; [apply Hok2|apply Hok2|done].
Qed.
(** What holds of an output between steps. *)
Definition output_ok (o : output) : Prop := page_ok o ∧ timer_ok o.
Lemma then_later_ok r : output_ok (snd r) → output_ok (then_later r).
Proof. destruct r as [[|x later] o]; cbn [fst snd then_later]; [done|]. intros [[H1 H2 H3] Ht]. by split. Qed.
Lemma queue_chunk_ok lines now o : page_ok o → output_ok (then_later (queueChunk lines now o)).
Proof.
  intros Hok. apply then_later_ok. pose proof (queue_chunk_page lines now o Hok) as Hq. by destruct (queueChunk _ _ _) as [later o'].
Qed.

Lemma outcome_line_page text cls o : cls = "command-outcome-summary-title"%string ∨ cls = "command-outcome-summary-row"%string → page_ok o →
  page_ok (_appendCommandOutcomeLine text cls o) ∧ _getPendingOutputBatch (_appendCommandOutcomeLine text cls o) = _getPendingOutputBatch o
  ∧ o_chunks (_appendCommandOutcomeLine text cls o) = o_chunks o.
Proof.
  intros Hcls Hok. unfold _appendCommandOutcomeLine, _assignOutputLineNumber.
  set (s := Span _ _ _ _ _ _). assert (_isPrefixExcludedLine s = true) as -> by (destruct Hcls as [-> | ->]; vm_compute; reflexivity).
  split; [|done]. constructor; [apply Hok| |apply Hok]. cbn [o_spans with_spans with_next]. intros Hm. rewrite filterb_app, length_app.
  assert (filterb own_line [numbered 0 s] = []) as -> by (destruct Hcls as [-> | ->]; vm_compute; reflexivity).
  pose proof (ok_spans _ Hok Hm). cbn [length]. lia.
Qed.
Lemma removed_own l : filterb own_line (_removeCommandOutcomeSummary l) `sublist_of` filterb own_line l.
Proof.
  unfold _removeCommandOutcomeSummary. induction l as [|x l IH]; cbn [filterb]; [done|].
  destruct (negb (bool_decide _)); cbn [filterb]; destruct (own_line x);
    [by apply sublist_skip|exact IH|by apply sublist_cons|exact IH].
Qed.
Lemma outcome_ok enabled given o : page_ok o → output_ok (renderCommandOutcomeSummary enabled given o).
Proof.
  intros Hok. unfold renderCommandOutcomeSummary. cbv zeta. unfold _flushPendingOutputBeforeHighVolumeSkip.
  destruct (flush_all_does (flush_fuel o) o Hok) as [Hd _]. pose proof (flush_all_empties (flush_fuel o) o Hok (le_n _)) as Hn.
  set (o1 := flush_all _ o) in *. clearbody o1. set (o2 := with_spans _ o1).
  set (settled := λ o, page_ok o ∧ nothing_pending o). assert (∀ x, settled x → output_ok x) as Hset by (intros x [H1 H2]; split; [done|by apply timer_nothing]).
  assert (settled o2) as H2.
  { split; [|done]. destruct (do_page _ _ _ _ Hd) as [Hst Hsp Hb]. constructor; [done| |done]. intros Hm. specialize (Hsp Hm). cbn [o2 o_spans with_spans].
    assert (length (filterb own_line (_removeCommandOutcomeSummary (o_spans o1))) ≤ length (filterb own_line (o_spans o1)))%nat; [|lia].
    apply sublist_length, removed_own. }
  clearbody o2. destruct (negb enabled); [by apply Hset|].
  match goal with |- context [match ?x with Some s => _ | None => with_outcome None o2 end] => destruct x as [sum|] end.
  2:{ apply Hset. destruct H2 as [[? ? ?] ?]. by split. }
  assert (settled (with_outcome (Some sum) o2)) as H3 by (destruct H2 as [[? ? ?] ?]; by split).
  assert (∀ text cls x, cls = "command-outcome-summary-title"%string ∨ cls = "command-outcome-summary-row"%string →
    settled x → settled (_appendCommandOutcomeLine text cls x)) as Hline.
  { intros text cls x Hcls [Hx1 Hx2]. destruct (outcome_line_page text cls x Hcls Hx1) as (H4 & H5 & _). split; [done|].
    unfold nothing_pending, pending_items, pending_raws in *. by rewrite H5. }
  apply Hset. pose proof (Hline (str_or (oc_title sum) (js "Command outcome")) _ _ (or_introl eq_refl) H3) as H4.
  match goal with |- settled (fold_left _ _ ?x) => generalize dependent x end. induction (oc_items sum) as [|i items IH]; intros x Hx; cbn [fold_left]; [done|].
  apply IH. cbv zeta. destruct (nonempty _); [by apply Hline; [right|]|done].
Qed.

Lemma output_ok_same o o' : output_ok o → o_spans o' = o_spans o → o_raw o' = o_raw o → o_counts o' = o_counts o →
  _getPendingOutputBatch o' = _getPendingOutputBatch o → output_ok o'.
Proof.
  intros ([H1 H2 H3] & Ht) Hs Hr Hn Hp. split; [constructor; by rewrite ?Hs, ?Hr, ?Hn, ?Hp|unfold timer_ok in *; by rewrite Hp].
Qed.
Lemma notice_ok text md now o : page_ok o → output_ok (notice text md now o).
Proof.
  intros Hok. split; [apply (do_page _ _ _ _ (proj1 (notice_does text md now o Hok)))|].
  unfold notice. destruct (_normalizeLineEventInput _ _ _). by apply show_line_timer.
Qed.
Lemma own_disabled l : filterb own_line (map disabled_button l) = map disabled_button (filterb own_line l).
Proof.
  induction l as [|x l IH]; [done|]. cbn [map filterb]. change (own_line (disabled_button x)) with (own_line x).
  destruct (own_line x); cbn [map]; by rewrite IH.
Qed.
Lemma disable_ok o : output_ok o → output_ok (disableHighVolumeOutputResumeControls o).
Proof.
  intros ([H1 H2 H3] & Ht). split; [|done]. constructor; [done| |done]. intros Hm. specialize (H2 Hm).
  cbn [disableHighVolumeOutputResumeControls o_spans with_spans]. by rewrite own_disabled, length_map.
Qed.
Lemma append_ok e md now o : page_ok o → output_ok (append_event e md now o).
Proof. intros Hok. split; [apply (do_page _ _ _ _ (proj1 (append_does e md now o Hok)))|by apply append_timer]. Qed.
Lemma flush_ok o : output_ok o → output_ok (_flushPendingOutputBatch o).
Proof.
  intros (Hok & Ht). split; [apply (do_page _ _ _ _ (flush_does o Hok))|]. destruct (o_pending o) as [b|] eqn:Hp.
  - destruct (flush_fields o b Hok Hp) as [(raws & b' & l & _ & _ & Hp' & _ & _ & Hs & _) _].
    unfold timer_ok, _getPendingOutputBatch. rewrite Hp'. cbn [from_option id]. by rewrite Hs.
  - unfold _flushPendingOutputBatch. by rewrite Hp.
Qed.
Lemma empty_page o : o_raw o = [] → o_counts o = emptySignalCounts → o_spans o = [] → batch_ok (_getPendingOutputBatch o) → page_ok o.
Proof.
  intros Hr Hc Hs Hb. constructor; [|rewrite Hs; intros Hm; change (Z.of_nat 0 <= max_output_lines); lia|done].
  rewrite Hr, Hc. split; [done|]. intros Hm. change (Z.of_nat 0 <= max_output_lines). lia.
Qed.
Lemma output_step_ok ev o : output_ok o → output_ok (output_step ev o).
Proof.
  intros H. pose proof (proj1 H) as Hok.
  destruct ev as [text cls md now|lines now|now| | |preserve| |now|n|now| |enabled given|running defer rs start]; cbn [output_step].
  - unfold appendLine. destruct (_normalizeLineEventInput text cls md) as [e md']. by apply append_ok.
  - destruct lines as [|x lines]; [done|]. by apply queue_chunk_ok.
  - destruct (o_chunks o) as [|lines rest]; [done|]. apply queue_chunk_ok. by destruct Hok.
  - by apply flush_ok.
  - destruct Hok as [K1 K2 _]. split; [by constructor|done].
  - split; [|done]. by apply empty_page.
  - by apply (output_ok_same o).
  - unfold appendHighVolumeOutputFinalSummary. destruct (_ || _); [by apply (output_ok_same o)|]. apply notice_ok. by destruct Hok.
  - unfold recordLiveOutputCoalescedLines. destruct (_ =? 0); [done|by apply (output_ok_same o)].
  - unfold _resumeHighVolumeLiveOutput. destruct (_ || _); [by apply disable_ok|]. apply notice_ok. by destruct Hok.
  - by apply disable_ok.
  - by apply outcome_ok.
  - by apply (output_ok_same o).
Qed.
End Buffer.

(** ** Properties *)

Section Page.
Context (app_config : jsval) (locale_num clock : num → jsstr).
#[local] Notation limit := (max_output_lines app_config).
#[local] Notation T := (_highVolumeOutputLineThreshold app_config).
#[local] Notation I := (_highVolumeOutputStatusIntervalLines app_config).

(** *** Lines, one after the other *)

(** Lines come in, and the timer of the batch fires ([None]), in any order; the
    page may change from one to the next. *)
Definition feed : Type := page_env * option (event * props * num).
Definition feed_step (o : output) (f : feed) : output :=
  match f with
  | (env, Some (e, md, now)) => append_event app_config locale_num clock env e md now o
  | (env, None) => _flushPendingOutputBatch app_config env o
  end.
(** Lines whose classes and role agree on whether they give way to the next. *)
Definition clear_feed (f : feed) : Prop := match f with (_, Some (e, _, _)) => clear_event e | _ => True end.
(** What a display without batches would show and store. *)
Fixpoint fed (fs : list feed) (o : output) : list item * list props :=
  match fs with
  | [] => ([], [])
  | f :: fs =>
      let '(its, ls) := fed fs (feed_step o f) in
      match f with
      | (env, Some (e, md, now)) =>
          (entries_of app_config locale_num e md o ++ its, lines_of app_config locale_num clock env e md now o ++ ls)
      | (_, None) => (its, ls)
      end
  end.
(** All of it, and the rest of the batch. *)
Definition feed_all (fs : list feed) (env : page_env) (o : output) : output :=
  let o := fold_left feed_step fs o in flush_all app_config env (flush_fuel o) o.

#[local] Notation page_ok := (page_ok app_config None).
#[local] Notation does := (does app_config None).
Lemma untracked env (roots : jsval) : None = Some roots → roots = pg_roots env.
Proof. done. Qed.
Lemma entries_clear e md o : clear_event e → Forall consistent (entries_of app_config locale_num e md o).
Proof.
  intros He. unfold entries_of. destruct (skips _ md o); [|by constructor]. cbv zeta. destruct (due _ _); [|done].
  constructor; [|done]. apply notice_clear. by right.
Qed.
Lemma fed_clear fs o : Forall clear_feed fs → Forall consistent (fst (fed fs o)).
Proof.
  revert o. induction fs as [|[env [[[e md] now]|]] fs IH]; intros o; cbn [fed]; [constructor| |]; intros [He Hc]%Forall_cons.
  - specialize (IH (feed_step o (env, Some (e, md, now))) Hc). destruct (fed fs _) as [its ls]. apply Forall_app. by split; [apply entries_clear|].
  - specialize (IH (feed_step o (env, None)) Hc). by destruct (fed fs _).
Qed.
Lemma feed_does fs o : page_ok o → does (fst (fed fs o)) (snd (fed fs o)) o (fold_left feed_step fs o).
Proof.
  revert o. induction fs as [|[env [[[e md] now]|]] fs IH]; intros o Hok; cbn [fed fold_left].
  - by apply does_refl.
  - destruct (append_does app_config locale_num clock env None (untracked env) e md now o Hok) as [Hd _].
    specialize (IH _ (do_page _ _ _ _ _ _ Hd)). cbn [feed_step] in *. destruct (fed fs _) as [its ls]. exact (does_trans _ _ _ _ _ _ _ _ _ Hd IH).
  - pose proof (flush_does app_config env None (untracked env) o Hok) as Hd.
    specialize (IH _ (do_page _ _ _ _ _ _ Hd)). cbn [feed_step] in *. destruct (fed fs _) as [its ls]. exact (does_trans _ _ [] [] _ _ _ _ _ Hd IH).
Qed.
Lemma feed_all_does fs env o : page_ok o →
  does (fst (fed fs o)) (snd (fed fs o)) o (feed_all fs env o) ∧ nothing_pending (feed_all fs env o)
  ∧ same_run (fold_left feed_step fs o) (feed_all fs env o).
Proof.
  intros Hok. pose proof (feed_does fs o Hok) as Hd. unfold feed_all. cbv zeta. set (o1 := fold_left feed_step fs o) in *.
  pose proof (do_page _ _ _ _ _ _ Hd) as Hok1. destruct (flush_all_does app_config env None (untracked env) (flush_fuel o1) o1 Hok1) as [Hd2 Hrun].
  split; [|split; [exact (flush_all_empties app_config env None (untracked env) _ o1 Hok1 (le_n _))|exact Hrun]].
  pose proof (does_trans _ _ _ _ _ _ _ _ _ Hd Hd2) as H. by rewrite !app_nil_r in H.
Qed.
(** With nothing pending before and after, that is about the stored lines and
    the lines of the page. *)
Lemma settled_does its lines o o' : does its lines o o' → nothing_pending o → nothing_pending o' →
  keeps_last app_config (map content (o_raw o) ++ lines) (map content (o_raw o')) (length (o_raw o'))
  ∧ (Forall consistent its → shown_of app_config (fold_left add its (faces (o_spans o))) (faces (o_spans o')) (length (o_spans o')))
  ∧ (length (o_spans o') ≤ length (o_spans o) + length its)%nat.
Proof.
  intros [_ Hs _ Hz _ Hv] [Hi Hr] [Hi' Hr']. unfold transcript, visible, page_size, tidy in *. rewrite Hi, Hi', Hr, Hr', !app_nil_r in *.
  split; [done|]. split; [|cbn [length] in Hz; lia]. intros Hc. by apply Hv.
Qed.

(** C21: Batches change nothing: from an output within its limits and with
    nothing waiting, whatever lines come in, and whenever the timer of the
    batch fires in between, once the rest is flushed (and the loop that
    flushes it ends with nothing left) the tab has stored exactly the lines
    that came in, in order, with the notices of the high-volume mode; only when
    the configured limit is reached do stored lines leave, and only the
    oldest. If the classes and the role of each line agree on whether it gives
    way to the next, the page shows exactly what showing the lines one at a
    time would show, where a progress or status line gives way to the next of
    its role; again only the oldest may be missing, and only where the page is
    at its limit. That is compared by class, role, text and resume button of
    each line, and by all of a stored line but its number. *)
Theorem batches_refine_lines fs env o : page_ok o → nothing_pending o →
  let o' := feed_all fs env o in
  nothing_pending o'
  ∧ (∃ lost, map content (o_raw o) ++ snd (fed fs o) = lost ++ map content (o_raw o')
      ∧ (lost = [] ∨ 0 < limit ∧ Z.of_nat (length (o_raw o')) = limit))
  ∧ (0 < limit → Z.of_nat (length (o_raw o')) <= limit)
  ∧ (Forall clear_feed fs →
     ∃ lost, fold_left add (fst (fed fs o)) (faces (o_spans o)) = lost ++ faces (o_spans o')
       ∧ (lost = [] ∨ 0 < limit <= Z.of_nat (length (o_spans o')))).
Proof.
  intros Hok Hn. cbv zeta. destruct (feed_all_does fs env o Hok) as (Hd & Hn' & _).
  destruct (settled_does _ _ _ _ Hd Hn Hn') as (Hstored & Hshown & _). pose proof (ok_store _ _ _ (do_page _ _ _ _ _ _ Hd)) as [_ Hl].
  split; [done|]. split; [exact Hstored|]. split; [exact Hl|]. intros Hc.
  destruct (Hshown (fed_clear fs o Hc)) as (lost & Hlost & Hlim). exists lost. split; [done|]. destruct Hlim as [|[_ ?]]; [by left|by right].
Qed.

(** *** The high-volume mode *)

(** The state after [n] live lines. *)
Definition volume_after (n : Z) : high_volume :=
  if n <=? T then HighVolume false n 0 0 0 false false false
  else HighVolume true n (n - T) 0 (T + 1 + I * ((n - T - 1) / I)) false false false.
(** The lines shown of [n] live lines. *)
Definition shown_after (n : Z) : Z := if n <=? T then n else T + 1 + (n - T - 1) / I.
(** Whether the [k]th live line has a notice: the first after the threshold,
    and from there one in every interval. *)
Definition notice_due (k : Z) : bool := (T <? k) && ((k - T - 1) mod I =? 0).
(** What is to be shown and stored of live lines, [k] of which came before. *)
Fixpoint live_entries (k : Z) (fs : list feed) : list item :=
  match fs with
  | [] => []
  | (_, Some (e, md, _)) :: fs =>
      let n := overview locale_num (k + 1) in
      (if k + 1 <=? T then [entry_of e md] else if notice_due (k + 1) then [entry_of (fst n) (snd n)] else [])
      ++ live_entries (k + 1) fs
  | (_, None) :: fs => live_entries k fs
  end.
Fixpoint live_lines (runStart : num) (k : Z) (fs : list feed) : list props :=
  match fs with
  | [] => []
  | (env, Some (e, md, now)) :: fs =>
      let n := overview locale_num (k + 1) in
      line_of clock env e md now runStart
      :: (if notice_due (k + 1) then [line_of clock env (fst n) (snd n) now runStart] else [])
      ++ live_lines runStart (k + 1) fs
  | (_, None) :: fs => live_lines runStart k fs
  end.

Lemma interval_pos : 0 < I.
Proof. unfold _highVolumeOutputStatusIntervalLines, line_count_of. destruct (is_finite _); lia. Qed.
Lemma notice_due_mod k : T < k → notice_due k = ((k - T - 1) mod I =? 0).
Proof. intros Hk. unfold notice_due. by rewrite (proj2 (Z.ltb_lt _ _) Hk). Qed.
(** The next line of an interval, or the first of the next. *)
Lemma next_interval k : 0 <= k → 0 < I →
  ((k + 1) mod I = 0 ∧ (k + 1) / I = k / I + 1 ∧ k mod I = I - 1) ∨ ((k + 1) mod I = k mod I + 1 ∧ (k + 1) / I = k / I ∧ k mod I + 1 < I).
Proof.
  intros Hk HI. pose proof (Z.div_mod k I) as Hdm. pose proof (Z.mod_pos_bound k I HI) as Hm.
  destruct (decide (k mod I + 1 = I)) as [He|He]; [left|right].
  - assert ((k + 1) / I = k / I + 1) as Hd by (symmetry; apply (Z.div_unique_pos (k + 1) I (k / I + 1) 0); lia).
    split; [|split; [done|lia]]. symmetry. apply (Z.mod_unique_pos (k + 1) I (k / I + 1) 0); lia.
  - split; [|split; [|lia]]; symmetry.
    + apply (Z.mod_unique_pos (k + 1) I (k / I) (k mod I + 1)); lia.
    + apply (Z.div_unique_pos (k + 1) I (k / I) (k mod I + 1)); lia.
Qed.
Lemma shown_step k : 0 <= k → 0 < T →
  shown_after (k + 1) = shown_after k + (if k + 1 <=? T then 1 else if notice_due (k + 1) then 1 else 0).
Proof.
  intros Hk HT. pose proof interval_pos as HI. unfold shown_after. destruct (Z.leb_spec (k + 1) T); [rewrite (proj2 (Z.leb_le k T)) by lia; lia|].
  rewrite notice_due_mod by lia. destruct (Z.leb_spec k T).
  - assert (k = T) as -> by lia. replace (T + 1 - T - 1) with 0 by lia. rewrite Z.div_0_l, Z.mod_0_l by lia. cbn. lia.
  - replace (k + 1 - T - 1) with (k - T - 1 + 1) by lia.
    destruct (next_interval (k - T - 1)) as [(-> & -> & _)|(-> & -> & _)]; [lia..| |].
    + cbn. lia.
    + rewrite (proj2 (Z.eqb_neq _ 0)); [lia|]. pose proof (Z.mod_pos_bound (k - T - 1) I HI). lia.
Qed.
(** How the state goes on with one more line. *)
Lemma skip_at md o n : _isLiveOutputMetadata md = true → 0 <= n → 0 < T → _ensureHighVolumeOutputState o = volume_after n →
  skips app_config md o = (T <? n + 1)
  ∧ (n < T → o_hv (snd (_shouldSkipLiveOutputRender app_config md o)) = Some (volume_after (n + 1)))
  ∧ (T <= n → hv_received (skipped_one (seen app_config md o)) = n + 1
      ∧ due app_config (skipped_one (seen app_config md o)) = notice_due (n + 1)
      ∧ after_skip app_config (seen app_config md o) = volume_after (n + 1)).
Proof.
  intros Hlive Hn HT Hh. pose proof interval_pos as HI. unfold skips, seen, _shouldSkipLiveOutputRender. rewrite Hlive, Hh.
  cbn [negb]. rewrite (proj2 (Z.eqb_neq T 0)) by lia. cbn [orb]. unfold volume_after. destruct (Z.leb_spec n T) as [Hle|Hgt];
    cbn [hv_active hv_received hv_requested hv_disabled orb hv_skipped hv_notice hv_summary hv_coalesced fst snd _ensureHighVolumeOutputState from_option id with_hv o_hv default].
  - split; [done|]. split.
    + intros Hlt. rewrite (proj2 (Z.leb_le (n + 1) T)), (proj2 (Z.ltb_ge T (n + 1))) by lia. done.
    + intros Hge. assert (n = T) as -> by lia. rewrite notice_due_mod by lia. replace (T + 1 - T - 1) with 0 by lia.
      rewrite Z.mod_0_l, (proj2 (Z.ltb_lt T (T + 1))), (proj2 (Z.leb_gt (T + 1) T)) by lia.
      split; [done|]. split; [done|]. unfold after_skip, due, skipped_one, noted. cbn. f_equal; rewrite ?Z.div_0_l; lia.
  - split; [symmetry; apply Z.ltb_lt; lia|]. split; [lia|]. intros _. rewrite notice_due_mod by lia. split; [done|].
    rewrite (proj2 (Z.leb_gt (n + 1) T)) by lia. unfold after_skip, due, skipped_one, noted.
    cbn [hv_active hv_received hv_requested hv_disabled hv_skipped hv_notice hv_summary hv_coalesced].
    rewrite (proj2 (Z.eqb_neq (n - T + 1) 1)) by lia. cbn [orb]. set (k := n - T - 1). replace (n + 1 - T - 1) with (k + 1) by (unfold k; lia).
    pose proof (Z.div_mod k I) as Hdm. replace (n + 1 - (T + 1 + I * (k / I))) with (k mod I + 1) by (unfold k in *; lia).
    pose proof (Z.mod_pos_bound k I HI) as Hmod.
    destruct (next_interval k) as [(-> & -> & Hk)|(-> & -> & Hk)]; [unfold k; lia..| |].
    + rewrite (proj2 (Z.leb_le I (k mod I + 1))) by lia. split; [done|]. f_equal; unfold k in *; lia.
    + rewrite (proj2 (Z.leb_gt I (k mod I + 1))) by lia. split; [symmetry; apply Z.eqb_neq; lia|]. f_equal; unfold k in *; lia.
Qed.
Lemma volume_step env e md now o n : page_ok o → _isLiveOutputMetadata md = true → 0 <= n → 0 < T →
  _ensureHighVolumeOutputState o = volume_after n →
  o_hv (feed_step o (env, Some (e, md, now))) = Some (volume_after (n + 1))
  ∧ entries_of app_config locale_num e md o = live_entries n [(env, Some (e, md, now))]
  ∧ lines_of app_config locale_num clock env e md now o = live_lines (o_runStart o) n [(env, Some (e, md, now))].
Proof.
  intros Hok Hlive Hn HT Hh. destruct (append_does app_config locale_num clock env None (untracked env) e md now o Hok) as (_ & Hhv & _).
  cbv zeta in Hhv. cbn [feed_step]. rewrite Hhv. clear Hhv. destruct (skip_at md o n Hlive Hn HT Hh) as (Hs & Hlow & Hhigh).
  cbn [live_entries live_lines]. unfold entries_of, lines_of. rewrite Hs. destruct (Z.ltb_spec T (n + 1)) as [Hlt|Hge].
  - destruct (Hhigh ltac:(lia)) as (Hr & Hd & Ha). cbv zeta. rewrite Hr, Hd, Ha, (proj2 (Z.leb_gt (n + 1) T)), !app_nil_r by lia. done.
  - rewrite (proj2 (Z.leb_le (n + 1) T)) by lia. unfold notice_due. rewrite (proj2 (Z.ltb_ge T (n + 1))) by lia. split; [apply Hlow; lia|done].
Qed.

Definition live_feed (f : feed) : Prop := match f with (_, Some (_, md, _)) => _isLiveOutputMetadata md = true | _ => True end.
Definition count_lines (fs : list feed) : Z := Z.of_nat (length (filterb (λ f : feed, bool_decide (is_Some (snd f))) fs)).
Lemma count_lines_cons (f : feed) fs : count_lines (f :: fs) = (match snd f with Some _ => 1 | None => 0 end) + count_lines fs.
Proof.
  unfold count_lines. cbn [filterb]. destruct (snd f) as [x|].
  - rewrite bool_decide_true by (by eexists). cbn [length]. lia.
  - by rewrite bool_decide_false by (by intros []).
Qed.
Lemma live_length k fs : 0 <= k → 0 < T → Z.of_nat (length (live_entries k fs)) = shown_after (k + count_lines fs) - shown_after k.
Proof.
  intros Hk HT. revert k Hk. induction fs as [|[env [[[e md] now]|]] fs IH]; intros k Hk; cbn [live_entries].
  - unfold count_lines. cbn [filterb length]. rewrite Z.add_0_r. cbn. lia.
  - rewrite count_lines_cons. cbn [snd]. cbv zeta. rewrite length_app, Nat2Z.inj_add, IH by lia. pose proof (shown_step k Hk HT) as Hs.
    replace (k + (1 + count_lines fs)) with (k + 1 + count_lines fs) by lia. rewrite Hs.
    destruct (k + 1 <=? T); [cbn; lia|]. destruct (notice_due _); cbn; lia.
  - rewrite count_lines_cons. cbn [snd]. by rewrite Z.add_0_l, IH.
Qed.
Lemma volume_run fs o n : page_ok o → Forall live_feed fs → 0 <= n → 0 < T → _ensureHighVolumeOutputState o = volume_after n →
  fed fs o = (live_entries n fs, live_lines (o_runStart o) n fs)
  ∧ _ensureHighVolumeOutputState (fold_left feed_step fs o) = volume_after (n + count_lines fs).
Proof.
  intros Hok Hl Hn HT. revert o n Hok Hn. induction fs as [|[env [[[e md] now]|]] fs IH]; intros o n Hok Hn Hh; cbn [fed fold_left live_entries live_lines].
  - unfold count_lines. cbn [filterb length]. by rewrite Z.add_0_r.
  - apply Forall_cons in Hl as [Hlive Hl]. cbn [live_feed] in Hlive.
    destruct (append_does app_config locale_num clock env None (untracked env) e md now o Hok) as (Hd & _ & Hrs & _).
    destruct (volume_step env e md now o n Hok Hlive Hn HT Hh) as (Hhv & He & Hli).
    specialize (IH Hl (feed_step o (env, Some (e, md, now))) (n + 1) (do_page _ _ _ _ _ _ Hd) ltac:(lia)).
    unfold _ensureHighVolumeOutputState in IH at 1. rewrite Hhv in IH. destruct (IH eq_refl) as [IH1 IH2]. rewrite count_lines_cons. cbn [snd].
    change (o_runStart (feed_step o (env, Some (e, md, now))) = o_runStart o) in Hrs. rewrite Hrs in IH1. rewrite IH1, He, Hli, IH2.
    cbn [live_entries live_lines]. cbv zeta. rewrite !app_nil_r. split; [done|]. f_equal. lia.
  - apply Forall_cons in Hl as [_ Hl].
    destruct (flush_run app_config env None (untracked env) o Hok) as (Hhv & Hrs & _).
    specialize (IH Hl (feed_step o (env, None)) n (do_page _ _ _ _ _ _ (flush_does app_config env None (untracked env) o Hok)) Hn).
    cbn [feed_step] in *. unfold _ensureHighVolumeOutputState in *. rewrite Hhv, Hrs in IH. destruct (IH Hh) as [-> ->].
    by rewrite count_lines_cons.
Qed.

(** C6: The high-volume mode bounds what is shown and takes nothing from what is
    stored. In a run that starts within the limits, with nothing waiting and
    the mode calm, with a threshold (zero switches the mode off), [n] live lines come in, the
    timer of the batch fires whenever it likes, nobody presses the resume
    button, and the rest of the batch is flushed. Then each line is stored, and
    behind the first line over the threshold and one line of each further
    interval the notice with the count: the store ends with these lines, in
    order (a store at its limit lost only the oldest). The page has grown by
    at most the threshold, that first notice and one for each further
    interval; where the classes and roles of the lines agree on whether they
    give way to the next, it shows exactly the lines up to the threshold and
    those notices, each added as it would be on its own. The counters say so. *)
Theorem high_volume_display_bounded fs env o : page_ok o → nothing_pending o → Forall live_feed fs →
  0 < T → _ensureHighVolumeOutputState o = calm →
  let n := count_lines fs in
  let most := if n <=? T then n else T + 1 + (n - T - 1) / I in
  let o' := feed_all fs env o in
  let h := _ensureHighVolumeOutputState o' in
  nothing_pending o'
  ∧ (∃ lost, map content (o_raw o) ++ live_lines (o_runStart o) 0 fs = lost ++ map content (o_raw o')
      ∧ (lost = [] ∨ 0 < limit ∧ Z.of_nat (length (o_raw o')) = limit))
  ∧ Z.of_nat (length (o_spans o')) <= Z.of_nat (length (o_spans o)) + most
  ∧ (Forall clear_feed fs →
     ∃ lost, fold_left add (live_entries 0 fs) (faces (o_spans o)) = lost ++ faces (o_spans o')
       ∧ (lost = [] ∨ 0 < limit <= Z.of_nat (length (o_spans o'))))
  ∧ hv_received h = n ∧ hv_skipped h = Z.max 0 (n - T) ∧ hv_active h = (T <? n).
Proof.
  intros Hok Hp Hl HT Hh. cbv zeta. set (n := count_lines fs). assert (0 <= n) as Hn by (unfold n, count_lines; lia).
  assert (_ensureHighVolumeOutputState o = volume_after 0) as Hh0.
  { rewrite Hh. unfold volume_after. rewrite (proj2 (Z.leb_le 0 _)) by lia. reflexivity. }
  destruct (volume_run fs o 0 Hok Hl ltac:(lia) HT Hh0) as [Hfed Hvol]. destruct (feed_all_does fs env o Hok) as (Hd & Hn' & (Hhv & _)).
  assert (_ensureHighVolumeOutputState (feed_all fs env o) = volume_after n) as ->
    by (unfold _ensureHighVolumeOutputState in *; rewrite Hhv; exact Hvol).
  destruct (settled_does _ _ _ _ Hd Hp Hn') as (Hstored & Hshown & Hsize). pose proof (fed_clear fs o) as Hclear.
  rewrite Hfed in Hstored, Hshown, Hsize, Hclear. cbn [fst snd] in *. pose proof (live_length 0 fs ltac:(lia) HT) as Hlen. fold n in Hlen.
  unfold shown_after in Hlen. rewrite Z.add_0_l, (proj2 (Z.leb_le 0 T)) in Hlen by lia.
  split; [done|]. split; [exact Hstored|]. split; [destruct (n <=? T); lia|]. split.
  - intros Hc. destruct (Hshown (Hclear Hc)) as (lost & Hlost & Hlim). exists lost. split; [done|]. destruct Hlim as [|[_ ?]]; [by left|by right].
  - unfold volume_after. rewrite Z.ltb_antisym. destruct (Z.leb_spec n T); cbn [hv_received hv_skipped hv_active negb]; split_and!; lia || done.
Qed.

(** *** Lists of lines in the high-volume mode *)

(** C18: A list of lines handed over at once is not kept in order in the
    high-volume mode: a live line of the list that is not shown is stored at
    once, before the lines of the same list that still wait in the batch,
    where a single line has the batch flushed first. *)
Theorem skipped_lines_overtake env now o entry : page_ok o → pending_items o ≠ [] →
  let '(e, md) := _normalizeAppendLinesEntry entry in
  skips app_config md o = true →
  let o' := queue_line app_config locale_num clock env now o entry in
  keeps_last app_config (map content (o_raw o) ++ [line_of clock env e md now (o_runStart o)]) (map content (o_raw o')) (length (o_raw o'))
  ∧ ∃ later, map content (pending_raws o') = map content (pending_raws o) ++ later.
Proof. exact (queue_overtakes app_config locale_num clock env None (untracked env) now o entry). Qed.

(** *** Every reachable output *)

(** What happened to the output of a tab, and the page each time. *)
Definition history : Type := list (page_env * output_event).
Definition output_run (l : history) (o : output) : output :=
  fold_left (λ o s, output_step app_config locale_num clock (fst s) (snd s) o) l o.
Lemma run_ok kept l o : (∀ roots, kept = Some roots → Forall (λ s, pg_roots (fst s) = roots) l) →
  output_ok app_config kept o → output_ok app_config kept (output_run l o).
Proof.
  unfold output_run. revert o. induction l as [|[env ev] l IH]; intros o Hk Ho; [done|]. cbn [fold_left fst snd]. apply IH.
  - intros roots Hr. by apply Hk, Forall_cons in Hr as [_ ?].
  - apply output_step_ok; [|done]. intros roots Hr. by apply Hk, Forall_cons in Hr as [? _].
Qed.
Lemma fresh_ok kept command runStart start : output_ok app_config kept (fresh_output command runStart start).
Proof. split; [|done]. apply empty_page; [done..|by intros _ _]. Qed.

(** C37: Whatever happens to the output of a tab, in whatever order (lines of any
    class and role, lists, timers, clearing, the resume button, summaries,
    runs that begin and end) and however the page changes in between: the
    stored lines, and the lines shown apart from the rows of the outcome
    summary, are within the configured limit; lines that wait in the batch
    have a timer that will show them; and as long as the commands whose
    signals are left out stay the same, the signal counts, kept up line by
    line, are those a recount of the stored lines gives. *)
Theorem output_stays_within_limits l command runStart start :
  let o := output_run l (fresh_output command runStart start) in
  (0 < limit → Z.of_nat (length (o_raw o)) <= limit ∧ Z.of_nat (length (filterb own_line (o_spans o))) <= limit)
  ∧ (hasPendingOutputBatch o = true → bt_scheduled (_getPendingOutputBatch o) = true)
  ∧ ∀ roots, Forall (λ s, pg_roots (fst s) = roots) l → o_counts o = _resetTabOutputSignalCounts roots (o_raw o).
Proof.
  intros o. assert (output_ok app_config None o) as ([[_ Hl] Hs _] & Ht) by (apply run_ok; [by intros ? [=]|apply fresh_ok]).
  split; [intros Hm; split; [by apply Hl|by apply Hs]|]. split.
  - unfold hasPendingOutputBatch, timer_ok, has_more, _getPendingOutputBatch in *. destruct (o_pending o) as [[items raws sch burst]|]; [|done].
    cbn [from_option id bt_items bt_raws bt_scheduled] in *. destruct sch; [done|]. destruct items; [|by intros _; apply Ht].
    destruct raws; [|by intros _; apply Ht]. by rewrite !bool_decide_true.
  - intros roots Hr. assert (output_ok app_config (Some roots) o) as ([[Hc _] _ _] & _)
      by (apply run_ok; [by intros ? [= <-]|apply fresh_ok]). rewrite recount_reset. by apply Hc.
Qed.
End Page.

(** ** A run of live lines, with a limit of five and a threshold of two *)

Definition demo_config : jsval :=
  VObj [(js "max_output_lines", vint 5); (js "high_volume_output_line_threshold", vint 2);
        (js "high_volume_output_status_interval_lines", vint 2)].
Definition demo_env : page_env := PageEnv VUndef (js "anon@shell:~ $") false true.
Definition demo_clock (_ : num) : jsstr := js "12:00:00".
Definition demo_output_step : output_event → output → output := output_step demo_config num_to_str demo_clock demo_env.
Definition demo_output : output := fresh_output (vstr "nmap a") num_zero (Some 0).
Definition live_line (text : string) : jsval :=
  VObj [(js "text", vstr text); (js "live_output", VBool true); (js "signals", VArr [vstr "findings"])].
Definition texts_of (o : output) : list jsstr := map (λ r, str_of (get (VObj (rw_line r)) (js "text"))) (o_raw o).
Definition numbers_of (o : output) : list jsval := map (λ r, get (VObj (rw_line r)) (js "line_number")) (o_raw o).
Definition one_by_one : output :=
  fold_left (λ o t, demo_output_step (Append (live_line t) VUndef VNull num_zero) o) ["a"; "b"; "c"]%string demo_output.
Definition as_list : output :=
  demo_output_step FlushDue (demo_output_step (AppendMany (map live_line ["a"; "b"; "c"]%string) num_zero) demo_output).
Definition overview_text (n : string) : jsstr :=
  js "[high-volume output mode: " ++ js n ++ js " lines received; live rendering paused]".

(** Line by line the order is kept; as a list the third line comes first, and
    its number says so too. *)
Example example_order :
  texts_of one_by_one = [js "a"; js "b"; js "c"; overview_text "3"]
  ∧ texts_of as_list = [js "c"; js "a"; js "b"; overview_text "3"]
  ∧ numbers_of as_list = map vint [1; 2; 3; 4].
Proof. vm_compute. done. Qed.
(** The counts follow the lines, the limit takes the oldest. *)
Example example_limit :
  let o := fold_left (λ o t, demo_output_step (Append (live_line t) VUndef VNull num_zero) o) ["d"; "e"]%string one_by_one in
  texts_of o = [js "c"; overview_text "3"; js "d"; js "e"; overview_text "5"]
  ∧ o_counts o = [(js "findings", 3); (js "warnings", 0); (js "errors", 0); (js "summaries", 0)]
  ∧ map sp_text (o_spans o) = [js "a"; js "b"; overview_text "3"; overview_text "5"].
Proof. vm_compute. done. Qed.
(** Progress lines give way to the next on the page; all are stored. *)
Example example_progress :
  let o := fold_left (λ o t, demo_output_step (Append (vstr t) (vstr "progress") VNull num_zero) o) ["10%"; "50%"; "90%"]%string demo_output in
  map sp_text (o_spans o) = [js "90%"] ∧ texts_of o = map js ["10%"; "50%"; "90%"]%string.
Proof. vm_compute. done. Qed.
(** Lines that are counted before the page knows that their command is its own
    stay counted when they have left. *)
Example example_stale_counts :
  let line := VObj [(js "text", vstr "x"); (js "command_root", vstr "theme"); (js "signals", VArr [vstr "findings"])] in
  let early := output_step demo_config num_to_str demo_clock demo_env in
  let late := output_step demo_config num_to_str demo_clock (PageEnv (VArr [vstr "theme"]) (js "$") false true) in
  let o := early (Append line VUndef VNull num_zero) demo_output in
  let o := fold_left (λ o t, late (Append (vstr t) (VStr []) VNull num_zero) o) ["a"; "b"; "c"; "d"; "e"]%string o in
  texts_of o = map js ["a"; "b"; "c"; "d"; "e"]%string
  ∧ o_counts o = [(js "findings", 1); (js "warnings", 0); (js "errors", 0); (js "summaries", 0)]
  ∧ _resetTabOutputSignalCounts (VArr [vstr "theme"]) (o_raw o) = emptySignalCounts.
Proof. vm_compute. done. Qed.

Definition demo_event (text : string) : event * props := _normalizeAppendLinesEntry (live_line text).
Definition demo_feed : list feed :=
  map (λ t : option string, (demo_env, (λ t, (fst (demo_event t), snd (demo_event t), num_zero)) <$> t))
    [Some "a"; None; Some "b"; Some "c"; Some "d"; None; Some "e"]%string.
Lemma demo_page : page_ok demo_config None demo_output.
Proof. apply (fresh_ok demo_config None). Qed.
Lemma demo_clear : Forall clear_feed demo_feed.
Proof. repeat constructor; vm_compute; reflexivity. Qed.

Lemma batches_refine_lines_witness :
  let o := feed_all demo_config num_to_str demo_clock demo_feed demo_env demo_output in
  nothing_pending o ∧ Z.of_nat (length (o_raw o)) <= 5
  ∧ ∃ lost, fold_left add (fst (fed demo_config num_to_str demo_clock demo_feed demo_output)) [] = lost ++ faces (o_spans o).
Proof.
  destruct (batches_refine_lines demo_config num_to_str demo_clock demo_feed demo_env demo_output demo_page (conj eq_refl eq_refl))
    as (Hn & _ & Hl & Hs).
  split; [exact Hn|]. split; [exact (Hl eq_refl)|]. destruct (Hs demo_clear) as (lost & Hlost & _). by exists lost.
Defined.

Lemma high_volume_display_bounded_witness :
  let o := feed_all demo_config num_to_str demo_clock demo_feed demo_env demo_output in
  Z.of_nat (length (o_spans o)) <= 4
  ∧ ∃ lost, live_lines demo_config num_to_str demo_clock num_zero 0 demo_feed = lost ++ map content (o_raw o).
Proof.
  assert (Forall live_feed demo_feed) as Hl by (repeat constructor; vm_compute; reflexivity).
  destruct (high_volume_display_bounded demo_config num_to_str demo_clock demo_feed demo_env demo_output demo_page
              (conj eq_refl eq_refl) Hl eq_refl eq_refl) as (_ & (lost & Hlost & _) & Hsize & _).
  split; [exact Hsize|by exists lost].
Defined.

Lemma skipped_lines_overtake_witness :
  let queue := queue_line demo_config num_to_str demo_clock demo_env num_zero in
  let o := fold_left queue (map live_line ["a"; "b"]%string) demo_output in
  pending_raws o ≠ [] ∧ ∃ later, map content (pending_raws (queue o (live_line "c"))) = map content (pending_raws o) ++ later.
Proof.
  intros queue o.
  assert (page_ok demo_config None o) as Hok.
  { unfold o, queue. cbn [map fold_left]. repeat (apply queue_line_page; [by intros ? [=]|]). exact demo_page. }
  assert (pending_items o ≠ []) as Hne by (vm_compute; discriminate).
  split; [vm_compute; discriminate|].
  pose proof (skipped_lines_overtake demo_config num_to_str demo_clock demo_env num_zero o (live_line "c") Hok Hne) as H.
  destruct (_normalizeAppendLinesEntry (live_line "c")) as [e md] eqn:Hn.
  assert (skips demo_config md o = true) as Hs by (injection Hn as _ <-; vm_compute; reflexivity).
  exact (proj2 (H Hs)).
Defined.

Lemma output_stays_within_limits_witness :
  let o := output_run demo_config num_to_str demo_clock
             [(demo_env, AppendMany (map live_line ["a"; "b"; "c"]%string) num_zero); (demo_env, FlushDue)] demo_output in
  o_counts o = _resetTabOutputSignalCounts VUndef (o_raw o) ∧ Z.of_nat (length (o_raw o)) <= 5.
Proof.
  destruct (output_stays_within_limits demo_config num_to_str demo_clock
              [(demo_env, AppendMany (map live_line ["a"; "b"; "c"]%string) num_zero); (demo_env, FlushDue)]
              (vstr "nmap a") num_zero (Some 0)) as (Hl & _ & Hc).
  split; [apply Hc; by repeat constructor|apply Hl; reflexivity].
Defined.
