(* ===== verification/RuntimeContext.v ===== *)
(** What the running page adds to the completion of commands
    (app/static/js/features/autocomplete/runtime_context.js): hints for paths of
    the workspace, session variables, projects, schedules and looked-up
    commands, merged into the specifications the server sent, and the words of
    the output offered to [grep]. *)

From S2P Require Import Prelude JsString JsNumber JsRegExp JsValue JsJson WorkspaceCore AutocompleteCore Utils WorkspaceCommands WorkspaceFiles.

(** ** Definitions: hints and specifications *)

(** Hints and specifications are objects of the server and of the page; where
    the source walks [x || []], [x] is a list or absent. [String(h && h.k || '')]. *)
Definition text_at (k : string) (h : jsval) : jsstr := str_of (get h (js k)).

(** A hint: optional properties are left out when they are nullish. *)
Definition _runtimeHint (value description insertValue label hintOnly : jsval) : jsval :=
  VObj ([(js "value", value); (js "description", match description with VUndef => VStr [] | d => d end)]
        ++ (if nullish insertValue then [] else [(js "insertValue", insertValue)])
        ++ (if nullish label then [] else [(js "label", label)])
        ++ (if nullish hintOnly then [] else [(js "hintOnly", VBool (truthy hintOnly))])).
Definition plain_hint (value description : jsstr) : jsval := _runtimeHint (VStr value) (VStr description) VNull VNull VNull.
Definition insert_hint (value description insertValue : string) : jsval :=
  _runtimeHint (vstr value) (vstr description) (vstr insertValue) VNull VNull.
Definition _runtimePlaceholderHint (value description : jsval) : jsval :=
  _runtimeHint value description VNull VNull (VBool true).

(** The fields given, under the names of the source's parameters. *)
Definition _runtimeContextSpec (given : props) : jsval :=
  let f k d := match own given (js k) with Some VUndef | None => d | Some v => v end in
  VObj [(js "flags", f "flags"%string (VArr [])); (js "expects_value", f "expectsValue"%string (VArr []));
        (js "arg_hints", f "argHints"%string (VObj [])); (js "sequence_arg_hints", f "sequenceArgHints"%string (VObj []));
        (js "workspace_path_arg_kinds", f "workspacePathArgKinds"%string (VObj []));
        (js "argument_limit", f "argumentLimit"%string VNull); (js "pipe_command", f "pipeCommand"%string (VBool false));
        (js "pipe_insert_value", f "pipeInsertValue"%string (VStr [])); (js "pipe_label", f "pipeLabel"%string (VStr []));
        (js "pipe_description", f "pipeDescription"%string (VStr [])); (js "examples", f "examples"%string (VArr []));
        (js "close_after", f "closeAfter"%string (VObj []))].

(** A copy through JSON, or the empty specification. *)
Definition _cloneRuntimeSpec (spec : jsval) : jsval :=
  if negb (is_objectlike spec) then _runtimeContextSpec []
  else default (_runtimeContextSpec []) (json_parse (stringify spec)).

(** *** Merging *)

(** The hints of a trigger, the lower-case values seen, and where each inserted
    text was first put. *)
Record bucket := Bucket { bk_items : list jsval; bk_seen : list jsstr; bk_inserts : list (jsstr * nat) }.
Definition place_of (k : jsstr) (m : list (jsstr * nat)) : option nat := snd <$> findb (λ e, fst e ==s k) m.
Definition hint_key (k : string) (h : jsval) : jsstr := lower (text_at k h).
Definition note_insert (m : list (jsstr * nat)) (e : nat * jsval) : list (jsstr * nat) :=
  let k := hint_key "insertValue" (snd e) in
  if nonempty k && negb (bool_decide (is_Some (place_of k m))) then m ++ [(k, fst e)] else m.
Definition open_bucket (l : list jsval) : bucket :=
  Bucket l (map (hint_key "value") l) (fold_left note_insert (imap pair l) []).
Definition add_hint (b : bucket) (hint : jsval) : bucket :=
  let value := text_at "value" hint in
  let key := lower value in
  let insertValue := hint_key "insertValue" hint in
  if negb (nonempty value) || bool_decide (key ∈ bk_seen b) then b else
  match (if nonempty insertValue then place_of insertValue (bk_inserts b) else None) with
  | Some i =>
      let existingKey := match bk_items b !! i with Some e => hint_key "value" e | None => [] end in
      Bucket (<[i := hint]> (bk_items b)) (key :: filterb (λ k, bool_decide (k ≠ existingKey)) (bk_seen b)) (bk_inserts b)
  | None =>
      Bucket (bk_items b ++ [hint]) (key :: bk_seen b)
        (if nonempty insertValue then bk_inserts b ++ [(insertValue, length (bk_items b))] else bk_inserts b)
  end.
Definition merge_bucket (base overlay : list jsval) : list jsval := bk_items (fold_left add_hint overlay (open_bucket base)).
Definition _runtimeMergeHints (baseHints overlayHints : jsval) : props :=
  fold_left (λ merged e,
      set_prop (fst e) (VArr (merge_bucket (items_of (table_get merged (fst e))) (items_of (snd e)))) merged)
    (entries (spread_value overlayHints)) (spread [] (spread_value baseHints)).

(** [item && item.value != null ? item.value : item]. *)
Definition raw_of (item : jsval) : jsval := js_nullish (get item (js "value")) item.
Definition append_item (acc : list jsval * list jsstr) (item : jsval) : list jsval * list jsstr :=
  let '(bucket, seen) := acc in
  let value := str_of (raw_of item) in
  let lookup := lower value in
  if negb (nonempty value) || bool_decide (lookup ∈ seen) then acc else (bucket ++ [item], lookup :: seen).
Definition appendItems (overlaySpec : jsval) (key : string) (merged : props) : props :=
  let bucket := items_of (table_get merged (js key)) in
  let seen := map (λ item, lower (to_string (raw_of item))) bucket in
  set_prop (js key) (VArr (fst (fold_left append_item (items_of (get overlaySpec (js key))) (bucket, seen)))) merged.
Definition merge_tables (key : string) (overlaySpec : jsval) (merged : props) : props :=
  set_prop (js key) (VObj (spread (spread [] (spread_value (table_get merged (js key)))) (spread_value (get overlaySpec (js key))))) merged.
Definition merge_hints (key : string) (overlaySpec : jsval) (merged : props) : props :=
  set_prop (js key) (VObj (_runtimeMergeHints (table_get merged (js key)) (get overlaySpec (js key)))) merged.
Definition or_empty (v : jsval) : jsval := match v with VUndef => VObj [] | v => v end.
Definition _runtimeMergeContextSpec (baseSpec overlaySpec : jsval) : jsval :=
  let merged := props_of (_cloneRuntimeSpec (or_empty baseSpec)) in
  let overlaySpec := or_empty overlaySpec in
  let merged := appendItems overlaySpec "examples" (appendItems overlaySpec "expects_value" (appendItems overlaySpec "flags" merged)) in
  let merged := merge_hints "sequence_arg_hints" overlaySpec (merge_hints "arg_hints" overlaySpec merged) in
  let merged := merge_tables "close_after" overlaySpec (merge_tables "workspace_path_arg_kinds" overlaySpec merged) in
  let limit := get overlaySpec (js "argument_limit") in
  VObj (if is_int limit && gt_int limit 0 then set_prop (js "argument_limit") limit merged else merged).

(** Strings in the order of [Array.prototype.sort]: by their units. *)
Fixpoint units_leb (a b : jsstr) : bool :=
  match a, b with
  | [], _ => true
  | _, [] => false
  | c :: a, d :: b => (c <? d) || (c =? d) && units_leb a b
  end.
Definition sort_strings (l : list jsstr) : list jsstr := isort units_leb l.

(** [s.lastIndexOf(c)] for a single unit. *)
Fixpoint last_unit (c : Z) (s : jsstr) : option nat :=
  match s with
  | [] => None
  | d :: s => match last_unit c s with Some i => Some (S i) | None => if d =? c then Some O else None end
  end.

(** ** Definitions: what the page knows *)

(** The configuration, the command roots and wordlists of the catalog, the
    session variables, the command list of the help, the current folder, the
    cache of the workspace, and the lists other parts of the page loaded. *)
Record runtime := Runtime {
  rt_config : jsval;
  rt_builtin_roots : jsval;
  rt_wordlists : jsval;
  rt_variables : jsval;
  rt_commands : jsval;              (* allowedCommandsFaqData.commands *)
  rt_cwd : jsstr;
  rt_loaded : bool;                 (* the workspace list has been read *)
  rt_team : bool;                   (* it is the team's *)
  rt_dirs : list item;
  rt_files : list item;
  rt_projects : list jsval;
  rt_schedules : list jsval;
  rt_watchers : list jsval;
  rt_themes : list (jsstr * jsstr); (* the names and descriptions of local_commands.js *)
  rt_options : list jsval;          (* its configuration entries *)
  rt_workflow : option jsval;       (* the hints of the workflow panel *)
  rt_lines : list (bool * jsstr)    (* the lines shown: is it an echo of the prompt, its text *)
}.

Section Context.
Context (p : runtime) (locale_le : jsstr → jsstr → bool).

Definition isWorkspaceFeatureEnabled : bool := is_true (get (rt_config p) (js "workspace_enabled")).
Definition isTourFeatureEnabled : bool :=
  negb (truthy (rt_config p)) || is_true (get (rt_config p) (js "tour_enabled")).
Definition _runtimeSpecEnabledForFeatures (root : jsstr) (spec : jsval) : bool :=
  let featureRequired := if truthy spec then get spec (js "feature_required") else spec in
  let features := match featureRequired with VArr l => l | v => [v] end in
  let needs (name : string) := existsb (λ feature, lower (str_of feature) ==s js name) features in
  if needs "workspace" then isWorkspaceFeatureEnabled
  else if needs "tour" then isTourFeatureEnabled
  else negb (bool_decide (lower root ∈ map js ["file"; "cat"; "ls"; "rm"]%string)) || isWorkspaceFeatureEnabled.

(** *** Looking up commands *)

Definition _runtimeActiveBuiltinRoots (baseRegistry : props) : list jsstr :=
  let roots := map str_of (items_of (rt_builtin_roots p)) in
  let described := map fst (filterb (λ e, is_objectlike (snd e) && starts_with (js "built-in:") (text_at "description" (snd e)))
                              (entries baseRegistry)) in
  sort_strings (filterb nonempty (dedup (roots ++ described))).
Definition _runtimeBuiltinDescription (root : jsstr) (baseRegistry : props) : jsstr :=
  to_string (js_or (get (table_get baseRegistry root) (js "description")) (vstr "built-in command")).
Definition _runtimeAllowedCommandRoots : list jsstr :=
  dedup (filterb nonempty (map (λ command, lower (first_word (str_of command))) (items_of (rt_commands p)))).
Definition enabled_root (baseRegistry : props) (root : jsstr) : bool :=
  _runtimeSpecEnabledForFeatures root (table_get baseRegistry root).
Definition _runtimeCommandLookupHints (baseRegistry : props) (descriptionForExternal : jsstr) : list jsval :=
  let builtinNames := filterb (enabled_root baseRegistry) (_runtimeActiveBuiltinRoots baseRegistry) in
  let externalRoots := filterb (λ root, negb (bool_decide (root ∈ builtinNames)))
                         (dedup (filterb (enabled_root baseRegistry) (keys baseRegistry) ++ _runtimeAllowedCommandRoots)) in
  map (λ root, plain_hint root (root ++ js " " ++ descriptionForExternal)) (sort_strings externalRoots)
  ++ map (λ root, plain_hint root (_runtimeBuiltinDescription root baseRegistry)) (sort_strings builtinNames)
  ++ [_runtimePlaceholderHint (vstr "<command>") (vstr "Any built-in or allowed command")].

(** *** Paths of the workspace *)

(** The hints of workspace_autocomplete_cache.js, with their descriptions. *)
Definition scope_word : jsstr := if rt_team p then js "team" else js "personal".
Definition file_hints : list jsval :=
  if negb (rt_loaded p) then [] else
  filterb (λ h, nonempty (text_at "value" h))
    (map (λ file, plain_hint (trim (str_of (item_get file "path")))
                    (scope_word ++ js " file · " ++ _workspaceFormatBytes (item_get file "size"))) (rt_files p)).
Definition directory_hints : list jsval :=
  if negb (rt_loaded p) then [] else
  filterb (λ h, nonempty (text_at "value" h))
    (map (λ directory, plain_hint (trim (str_of (item_get directory "path"))) (scope_word ++ js " folder")) (rt_dirs p)).
Definition getWorkspaceDirectoryEntries (path : jsstr) : listing := _workspaceDirectEntries (rt_dirs p) (rt_files p) locale_le path.

Definition _runtimeWorkspaceRelativeValue (path cwd : jsstr) : jsstr :=
  let normalizedPath := plain_path path in
  let normalizedCwd := plain_path cwd in
  if negb (nonempty normalizedCwd) then normalizedPath
  else if negb (starts_with (normalizedCwd ++ [47]) normalizedPath) then []
  else slice_from (length normalizedCwd + 1) normalizedPath.
Definition _runtimeNormalizeWorkspaceCommandPath (path cwd : jsstr) : path_error + jsstr :=
  match normalizeCommandPath (VStr path) (VStr cwd) with
  | inl e => inl e
  | inr path => inr (plain_path path)
  end.
(** What was typed up to the last slash, and the folder it names. *)
Definition _runtimeWorkspaceCompletionParts (token : jsstr) : option (jsstr * jsstr) :=
  match last_unit 47 token with
  | None => None
  | Some slashIndex =>
      let typedPrefix := slice 0 (slashIndex + 1) token in
      match _runtimeNormalizeWorkspaceCommandPath (str_or typedPrefix (js ".")) (rt_cwd p) with
      | inl _ => None
      | inr resolvedDirectory => Some (typedPrefix, resolvedDirectory)
      end
  end.
Definition _runtimeWorkspaceAllHints (directory : bool) : list jsval := if directory then directory_hints else file_hints.
Definition default_description (directory : bool) : jsstr := if directory then js "session folder" else js "session file".
Definition _runtimeWorkspaceHintDescription (path : jsstr) (directory : bool) : jsstr :=
  match findb (λ item, plain_path (text_at "value" item) ==s plain_path path) (_runtimeWorkspaceAllHints directory) with
  | Some existing => to_string (js_or (get existing (js "description")) (VStr (default_description directory)))
  | None => default_description directory
  end.
(** The kinds listed, folders as [true]. *)
Definition _runtimeWorkspaceCompletionKinds (kind : jsstr) : list bool :=
  let normalized := lower (str_or kind (js "file")) in
  if normalized ==s js "any" then [false; true] else if normalized ==s js "directory" then [true] else [false; true].
Definition _runtimeWorkspaceEntryValue (typedPrefix name : jsstr) (directory : bool) : jsstr :=
  typedPrefix ++ name ++ (if directory then [47] else []).
Definition scoped_hint (typedPrefix : jsstr) (directory : bool) (entry : item) : list jsval :=
  let name := trim (str_of (item_get entry "name")) in
  let path := path_of entry in
  if negb (nonempty name) then []
  else [plain_hint (_runtimeWorkspaceEntryValue typedPrefix name directory) (_runtimeWorkspaceHintDescription path directory)].
Definition listed_of (directory : bool) (e : listing) : list item := if directory then li_folders e else li_files e.
Definition _runtimeWorkspaceScopedHints (kind token : jsstr) : list jsval :=
  match _runtimeWorkspaceCompletionParts token with
  | None => []
  | Some (typedPrefix, resolvedDirectory) =>
      let entries := getWorkspaceDirectoryEntries resolvedDirectory in
      flat_map (λ directory, flat_map (scoped_hint typedPrefix directory) (listed_of directory entries))
        (_runtimeWorkspaceCompletionKinds kind)
  end.
Definition with_slash (value : jsstr) : jsstr :=
  if nonempty value && negb (value ==s js "/") && negb (ends_with (js "/") value) then value ++ [47] else value.
Definition entry_hint (directory : bool) (entry : item) : list jsval :=
  let path := path_of entry in
  let name := trim (to_string (js_or (item_get entry "name") (VStr (_runtimeWorkspaceRelativeValue path (rt_cwd p))))) in
  let value := if directory then with_slash name else name in
  let description :=
    match findb (λ item, text_at "value" item ==s path) (_runtimeWorkspaceAllHints directory) with
    | Some existing => js_or (get existing (js "description")) (VStr (default_description directory))
    | None => VStr (default_description directory)
    end in
  if nonempty value then [_runtimeHint (VStr value) description VNull VNull VNull] else [].
Definition _runtimeWorkspaceEntryHints (directory : bool) : list jsval :=
  flat_map (entry_hint directory) (listed_of directory (getWorkspaceDirectoryEntries (rt_cwd p))).
Definition _runtimeWorkspaceFileHints : list jsval := _runtimeWorkspaceEntryHints false.
Definition _runtimeWorkspaceDirectoryHints : list jsval := _runtimeWorkspaceEntryHints true.
Definition navigation_hint (hint : jsval) : jsval :=
  let value := trim (text_at "value" hint) in
  if negb (nonempty value) || (value ==s js "/") || ends_with (js "/") value then hint
  else _runtimeHint (VStr (value ++ [47])) (js_or (get hint (js "description")) (vstr "session folder")) VNull VNull VNull.
Definition _runtimeWorkspaceDirectoryNavigationHints : list jsval := map navigation_hint _runtimeWorkspaceDirectoryHints.
Definition _runtimeWorkspaceFilePathHints : list jsval := _runtimeWorkspaceFileHints ++ _runtimeWorkspaceDirectoryNavigationHints.
Definition _runtimeWorkspaceMoveSourceHints : list jsval := _runtimeWorkspaceFileHints ++ _runtimeWorkspaceDirectoryHints.
Definition root_hint : jsval := plain_hint (js "/") (js "Session workspace root").
Definition _runtimeWorkspaceMoveDestinationHints : list jsval := _runtimeWorkspaceDirectoryHints ++ [root_hint].
Definition _runtimeWorkspaceMoveDestinationHintsForSource (source : jsstr) (destinationHints : list jsval) : list jsval :=
  let normalizedSource := plain_path (trim source) in
  filterb (λ hint,
      let value := trim (text_at "value" hint) in
      let normalizedValue := plain_path value in
      (value ==s js "/")
      || nonempty normalizedValue && negb (normalizedValue ==s normalizedSource)
         && negb (starts_with (normalizedSource ++ [47]) normalizedValue)) destinationHints.
Definition _runtimeWorkspaceMoveSequenceHints (prefix : jsstr) (sourceHints destinationHints : list jsval) : props :=
  fold_left (λ sequenceHints hint,
      let value := lower (trim (text_at "value" hint)) in
      if negb (nonempty value) then sequenceHints
      else set_prop (prefix ++ js " " ++ value)
             (VArr (_runtimeWorkspaceMoveDestinationHintsForSource value destinationHints)) sequenceHints) sourceHints [].
Definition getWorkspaceAutocompletePathHints (kind token : jsstr) : list jsval := _runtimeWorkspaceScopedHints kind token.
Definition getWorkspaceAutocompleteFlagFileHints (token : jsstr) : list jsval :=
  if has_unit 47 token then _runtimeWorkspaceScopedHints (js "file") token else _runtimeWorkspaceFilePathHints.

(** *** The contexts of the commands of the browser *)

Definition obj (l : list (string * jsval)) : jsval := VObj (map (λ e, (js (fst e), snd e)) l).
Definition strings (l : list string) : jsval := VArr (map vstr l).
Definition long_hint : jsval := plain_hint (js "-l") (js "Long listing").
Definition recursive_hint : jsval := plain_hint (js "-R") (js "Recursive listing").
Definition remove_hints : list jsval :=
  [plain_hint (js "-r") (js "Remove folders recursively"); plain_hint (js "-rf") (js "Remove folders recursively")].
Definition _runtimeWorkspaceDiffFlagHints : list jsval :=
  [plain_hint (js "--last") (js "Compare the last two completed runs in this tab");
   plain_hint (js "-q") (js "Only report whether the sources differ");
   plain_hint (js "--brief") (js "Only report whether the sources differ");
   plain_hint (js "-u") (js "Show a unified comparison with - and + lines");
   plain_hint (js "--unified") (js "Show a unified comparison with - and + lines");
   plain_hint (js "-y") (js "Show both sources in side-by-side columns");
   plain_hint (js "--side-by-side") (js "Show both sources in side-by-side columns")].
Definition _runtimeDiffSourceHints (includeFiles : bool) : list jsval :=
  _runtimePlaceholderHint (vstr "run:<run-id>") (vstr "Completed run output")
  :: (if includeFiles
      then _runtimePlaceholderHint (vstr "file:<path>") (vstr "Session file") :: _runtimeWorkspaceFilePathHints else []).
Definition _runtimeWorkspaceContext : jsval :=
  let directoryHints := _runtimeWorkspaceDirectoryHints in
  let filePathHints := VArr _runtimeWorkspaceFilePathHints in
  let deleteHints := VArr (remove_hints ++ _runtimeWorkspaceFileHints ++ directoryHints) in
  let listHints := VArr ([long_hint; recursive_hint] ++ directoryHints ++ [root_hint]) in
  let moveSourceHints := _runtimeWorkspaceMoveSourceHints in
  _runtimeContextSpec
    [(js "expectsValue", strings ["show"; "diff"; "add"; "add-dir"; "edit"; "download"; "move"; "rm"; "delete"; "ls"]);
     (js "argHints", obj [("list"%string, listHints); ("ls"%string, listHints); ("help"%string, VArr []);
        ("show"%string, filePathHints);
        ("diff"%string, VArr (_runtimeWorkspaceDiffFlagHints ++ _runtimeDiffSourceHints true));
        ("add"%string, VArr [_runtimePlaceholderHint (vstr "<file>") (vstr "New session file name")]);
        ("add-dir"%string, VArr (directoryHints ++ [_runtimePlaceholderHint (vstr "<folder>") (vstr "New session folder")]));
        ("edit"%string, filePathHints); ("download"%string, filePathHints); ("move"%string, VArr moveSourceHints);
        ("rm"%string, deleteHints); ("delete"%string, deleteHints);
        ("__positional__"%string, VArr
           [insert_hint "show <file>" "Print a session file in the terminal" "show ";
            insert_hint "diff <source1> <source2>" "Compare files or completed run output" "diff ";
            insert_hint "diff --last" "Compare the last two completed runs in this tab" "diff --last";
            insert_hint "add <file>" "Open the Files editor for a new session file" "add ";
            insert_hint "add-dir <folder>" "Create a session folder" "add-dir ";
            insert_hint "edit <file>" "Open the Files editor for an existing session file" "edit ";
            insert_hint "download <file>" "Download a session file through the browser" "download ";
            insert_hint "move <source> <destination>" "Move or rename a session file or folder" "move ";
            insert_hint "delete <file>" "Remove a session file from this session" "delete ";
            plain_hint (js "help") (js "Show file command usage")])]);
     (js "sequenceArgHints", VObj (_runtimeWorkspaceMoveSequenceHints (js "move") moveSourceHints _runtimeWorkspaceMoveDestinationHints));
     (js "workspacePathArgKinds", obj [("list"%string, strings ["directory"]); ("ls"%string, strings ["directory"]);
        ("show"%string, strings ["file"]); ("edit"%string, strings ["file"]); ("download"%string, strings ["file"]);
        ("move"%string, strings ["any"; "directory"]); ("rm"%string, strings ["any"]); ("delete"%string, strings ["any"])])].
Definition _runtimeWorkspaceNavigableDirectoryHints : list jsval :=
  (if nonempty (rt_cwd p) then [plain_hint (js "../") (js "Parent workspace folder")] else [])
  ++ _runtimeWorkspaceDirectoryHints ++ [root_hint].

(** A table of hints by trigger, set one after the other. *)
Definition no_hints (names : list jsstr) (table : props) : props := fold_left (λ t k, set_prop k (VArr []) t) names table.
Definition _runtimeThemeContext : jsval :=
  let themeHints := map (λ entry, plain_hint (fst entry) (snd entry)) (rt_themes p) in
  _runtimeContextSpec
    [(js "expectsValue", strings ["set"]);
     (js "argHints", VObj (no_hints (map fst (rt_themes p)) (props_of (obj
        [("list"%string, VArr []); ("current"%string, VArr []); ("set"%string, VArr themeHints);
         ("__positional__"%string, VArr [plain_hint (js "list") (js "Show available themes");
            plain_hint (js "current") (js "Show the active theme"); insert_hint "set" "Apply a theme" "set "])]))))].
Definition option_key (entry : jsval) : jsstr := to_string (get entry (js "key")).
Definition option_sequences (sequenceArgHints : props) (entry : jsval) : props :=
  let description := get entry (js "description") in
  set_prop (js "get " ++ option_key entry) (VArr [])
    (set_prop (js "set " ++ option_key entry)
       (VArr (match get entry (js "values") with
              | VArr values => map (λ value, _runtimeHint value description VNull VNull VNull) values
              | _ => [_runtimePlaceholderHint (js_or (get entry (js "valueHelp")) (vstr "<value>")) description]
              end)) sequenceArgHints).
Definition _runtimeConfigContext : jsval :=
  let entries := rt_options p in
  let optionHints := VArr (map (λ entry, _runtimeHint (get entry (js "key")) (get entry (js "description")) VNull VNull VNull) entries) in
  _runtimeContextSpec
    [(js "expectsValue", strings ["get"; "set"]);
     (js "argHints", VObj (no_hints (flat_map (λ entry, map to_string (items_of (get entry (js "values")))) entries) (props_of (obj
        [("list"%string, VArr []); ("get"%string, optionHints); ("set"%string, optionHints);
         ("__positional__"%string, VArr [plain_hint (js "list") (js "Show all current user config");
            insert_hint "get" "Show one user config value" "get "; insert_hint "set" "Set one user config value" "set "])]))));
     (js "sequenceArgHints", VObj (fold_left option_sequences entries []))].

Definition session_variables : list (jsstr * jsstr) :=
  map (λ variable, (trim (text_at "name" variable), trim (text_at "value" variable))) (items_of (rt_variables p)).
Definition _runtimeVariableHints (description : jsstr) : list jsval :=
  map (λ v, plain_hint (fst v) (if nonempty (snd v) then description ++ js ": " ++ snd v else description))
    (filterb (λ v, nonempty (fst v)) session_variables).
Definition starterNames : list jsstr := map js ["HOST"; "PORT"; "IP_ADDR"]%string.
(** [toUpperCase] and [toLowerCase] of ASCII letters. *)
Definition upper (s : jsstr) : jsstr := map (λ c, if is_lower c then c - 32 else c) s.
Definition variable_sequences (sequenceArgHints : props) (name : jsstr) : props :=
  let name := trim name in
  if negb (nonempty name) then sequenceArgHints
  else set_prop (js "unset " ++ lower name) (VArr [])
         (set_prop (js "set " ++ lower name)
            (VArr [_runtimePlaceholderHint (vstr "<value>") (VStr (js "Value for " ++ name))]) sequenceArgHints).
Definition _runtimeVarContext : jsval :=
  let variableHints := _runtimeVariableHints (js "Current value") in
  let names := map (text_at "value") variableHints in
  let currentNames := map upper names in
  let starterHints := map (λ name, plain_hint name (js "Common " ++ lower name ++ js " value"))
                        (filterb (λ name, negb (bool_decide (name ∈ currentNames))) starterNames) in
  _runtimeContextSpec
    [(js "expectsValue", strings ["set"; "unset"]);
     (js "argHints", obj [("list"%string, VArr []); ("set"%string, VArr (variableHints ++ starterHints)); ("unset"%string, VArr variableHints);
        ("__positional__"%string, VArr [plain_hint (js "list") (js "Show session variables");
           insert_hint "set" "Set a session variable" "set "; insert_hint "unset" "Remove a session variable" "unset "])]);
     (js "sequenceArgHints", VObj (fold_left variable_sequences (names ++ starterNames) []));
     (js "closeAfter", obj [("list"%string, vint 0); ("set"%string, vint 2); ("unset"%string, vint 1)])].

Definition add_category (acc : list jsstr * list jsval) (item : jsval) : list jsstr * list jsval :=
  let '(seenCategories, categoryHints) := acc in
  let category := trim (str_of (js_or (get item (js "wordlist_category")) (get item (js "category")))) in
  if negb (nonempty category) || bool_decide (lower category ∈ seenCategories) then acc
  else (lower category :: seenCategories, categoryHints ++ [plain_hint category (js "Wordlist category")]).
Definition _runtimeWordlistContext : jsval :=
  let wordlists := items_of (rt_wordlists p) in
  let pathHints := filterb (λ h, truthy (get h (js "value")))
    (map (λ item, plain_hint
            (str_of (js_or (get item (js "name")) (js_or (get item (js "label")) (get item (js "value")))))
            (to_string (js_or (get item (js "description")) (vstr "Installed wordlist")))) wordlists) in
  _runtimeContextSpec
    [(js "argHints", obj [("list"%string, VArr (snd (fold_left add_category wordlists ([], [])))); ("path"%string, VArr pathHints)])].

Definition project_hint (project : jsval) : list jsval :=
  let value := trim (text_at "value" project) in
  if negb (nonempty value) then [] else
  let name := trim (text_at "name" project) in
  let status := trim (text_at "status" project) in
  [plain_hint value (str_or name value ++ (if nonempty status then js " · " ++ status else []))].
Definition _runtimeProjectRefHints (statuses : list jsstr) : list jsval :=
  let wanted := map lower statuses in
  flat_map project_hint
    (filterb (λ project, bool_decide (wanted = []) || bool_decide (lower (text_at "status" project) ∈ wanted)) (rt_projects p)).
Definition subcommands_of (spec : jsval) : props :=
  let s := get spec (js "subcommands") in if is_objectlike s then props_of s else [].
(** [Object.assign({}, spec.arg_hints || {}, { [trigger]: hints })]. *)
Definition with_arg_hints (trigger : string) (hints : list jsval) (subSpec : props) : props :=
  set_prop (js "arg_hints")
    (VObj (set_prop (js trigger) (VArr hints) (spread [] (spread_value (table_get subSpec (js "arg_hints")))))) subSpec.
Definition sub_spec (subcommands : props) (name : jsstr) : props :=
  let s := table_get subcommands name in if is_objectlike s then props_of (_cloneRuntimeSpec s) else [].
Definition setProjectHints (subcommands : props) (e : string * list jsval) : props :=
  let '(name, hints) := e in
  let subSpec := sub_spec subcommands (js name) in
  if bool_decide (hints ≠ [])
  then set_prop (js name) (VObj (with_arg_hints "__positional__" hints subSpec)) subcommands
  else set_prop (js name) (_runtimeMergeContextSpec (VObj subSpec) (_runtimeContextSpec [])) subcommands.
Definition with_subcommands (baseSpec : jsval) (f : props → props) : jsval :=
  let spec := _cloneRuntimeSpec (or_empty baseSpec) in
  VObj (set_prop (js "subcommands") (VObj (f (subcommands_of spec))) (props_of spec)).
Definition _runtimeProjectContext (baseSpec : jsval) : jsval :=
  with_subcommands baseSpec (fold_left setProjectHints
    [("use"%string, _runtimeProjectRefHints [js "active"]); ("rename"%string, _runtimeProjectRefHints []);
     ("archive"%string, _runtimeProjectRefHints [js "active"]); ("unarchive"%string, _runtimeProjectRefHints [js "archived"]);
     ("delete"%string, _runtimeProjectRefHints [])]).
(** The hints of a trigger, in each of the named subcommands. *)
Definition set_hints (trigger : string) (hints : list jsval) (names : list string) (subcommands : props) : props :=
  fold_left (λ subcommands name,
      let subSpec := sub_spec subcommands (js name) in
      if bool_decide (hints ≠ []) then set_prop (js name) (VObj (with_arg_hints trigger hints subSpec)) subcommands
      else subcommands) names subcommands.
Definition _runtimeProbeContext (baseSpec : jsval) : jsval :=
  with_subcommands baseSpec (set_hints "--project" (_runtimeProjectRefHints [js "active"]) ["list"; "plan"; "run"]%string).
Definition schedule_hint (schedule : jsval) : list jsval :=
  let value := trim (text_at "id" schedule) in
  if negb (nonempty value) then [] else
  let label := trim (to_string (js_or (get schedule (js "label")) (VStr value))) in
  let state := match get schedule (js "enabled") with VBool false => js "paused" | _ => js "active" end in
  [plain_hint value (label ++ js " · " ++ state)].
Definition _runtimeScheduleHints : list jsval := flat_map schedule_hint (rt_schedules p).
Definition _runtimeScheduleContext (baseSpec : jsval) : jsval :=
  with_subcommands baseSpec (set_hints "__positional__" _runtimeScheduleHints ["pause"; "resume"; "delete"; "run"; "info"]%string).
Definition watcher_hint (watcher : jsval) : list jsval :=
  let value := trim (text_at "id" watcher) in
  if negb (nonempty value) then [] else
  let label := trim (to_string (js_or (get watcher (js "label")) (VStr value))) in
  let state := str_or (trim (to_string (js_or (get watcher (js "state")) (vstr "ok")))) (js "ok") in
  [plain_hint value (label ++ js " · " ++ state)].
Definition _runtimeWatcherHints : list jsval := flat_map watcher_hint (rt_watchers p).
Definition _runtimeWatcherContext (baseSpec : jsval) : jsval :=
  with_subcommands baseSpec
    (set_hints "__positional__" _runtimeWatcherHints ["pause"; "resume"; "delete"; "accept"; "run"; "info"]%string).

(** *** The context of every command *)

Definition positional (hints : list jsval) : jsval := obj [("__positional__"%string, VArr hints)].
(** [context[root] = merge(baseRegistry[root], overlay)]. *)
Definition put_merged (baseRegistry : props) (root : string) (overlay : jsval) (context : props) : props :=
  set_prop (js root) (_runtimeMergeContextSpec (table_get baseRegistry (js root)) overlay) context.
Definition put_if (c : bool) (f : props → props) (context : props) : props := if c then f context else context.
Definition known (baseRegistry : props) (root : string) : bool := truthy (table_get baseRegistry (js root)).
Definition path_context (hints : list jsval) (kinds : list string) (sequences : props) : jsval :=
  _runtimeContextSpec [(js "argHints", positional hints); (js "sequenceArgHints", VObj sequences);
                       (js "workspacePathArgKinds", obj [("__positional__"%string, strings kinds)])].
Definition put_file_command (baseRegistry : props) (root : string) (overlay : jsval) : props → props :=
  put_if (isWorkspaceFeatureEnabled && known baseRegistry root) (put_merged baseRegistry root overlay).
Definition hints_context (trigger : string) (hints : list jsval) : list (jsstr * jsval) :=
  [(js "argHints", obj [(trigger, VArr hints)])].

Definition builtin_contexts (baseRegistry : props) : props :=
  fold_left (λ context root,
      if truthy (table_get baseRegistry root) && _runtimeSpecEnabledForFeatures root (table_get baseRegistry root)
      then set_prop root (_cloneRuntimeSpec (table_get baseRegistry root)) context else context)
    (_runtimeActiveBuiltinRoots baseRegistry) [].
Definition page_contexts (baseRegistry context : props) : props :=
  let known := known baseRegistry in
  let base root := table_get baseRegistry (js root) in
  let context := put_merged baseRegistry "theme" _runtimeThemeContext context in
  let context := put_merged baseRegistry "config" _runtimeConfigContext context in
  let context := put_merged baseRegistry "var" _runtimeVarContext context in
  let context := put_if (known "wordlist"%string) (put_merged baseRegistry "wordlist" _runtimeWordlistContext) context in
  let context := match rt_workflow p with
                 | Some workflow => put_if (known "workflow"%string) (put_merged baseRegistry "workflow" workflow) context
                 | None => context
                 end in
  let context := put_if (known "project"%string) (set_prop (js "project") (_runtimeProjectContext (base "project"%string))) context in
  let context := put_if (known "probe"%string) (set_prop (js "probe") (_runtimeProbeContext (base "probe"%string))) context in
  let context := put_if (known "schedule"%string) (set_prop (js "schedule") (_runtimeScheduleContext (base "schedule"%string))) context in
  put_if (known "watch"%string) (set_prop (js "watch") (_runtimeWatcherContext (base "watch"%string))) context.
Definition file_contexts (baseRegistry context : props) : props :=
  let put := put_file_command baseRegistry in
  let paths := path_context _runtimeWorkspaceFilePathHints ["file"]%string [] in
  let directories hints := path_context (hints ++ _runtimeWorkspaceNavigableDirectoryHints) ["directory"]%string [] in
  let moves root hints kinds := path_context hints kinds
    (_runtimeWorkspaceMoveSequenceHints (js root) hints _runtimeWorkspaceMoveDestinationHints) in
  let context := put "file"%string _runtimeWorkspaceContext context in
  let context := put "cat"%string paths context in
  let context := put_if (known baseRegistry "diff") (put_merged baseRegistry "diff" (_runtimeContextSpec
    (hints_context "__positional__" (_runtimeWorkspaceDiffFlagHints ++ _runtimeDiffSourceHints isWorkspaceFeatureEnabled)))) context in
  let context := put "cd"%string (directories []) context in
  let context := put "ls"%string (directories [long_hint; recursive_hint]) context in
  let context := put "ll"%string (directories [recursive_hint]) context in
  let context := put "mkdir"%string (path_context
    (_runtimeWorkspaceDirectoryHints ++ [_runtimePlaceholderHint (vstr "<folder>") (vstr "New session folder")]) ["directory"]%string []) context in
  let context := put "rm"%string (path_context
    (remove_hints ++ _runtimeWorkspaceFileHints ++ _runtimeWorkspaceDirectoryHints) ["any"]%string []) context in
  let context := put "mv"%string (moves "mv"%string _runtimeWorkspaceMoveSourceHints ["any"; "directory"]%string) context in
  let context := put "cp"%string (moves "cp"%string _runtimeWorkspaceFileHints ["file"; "directory"]%string) context in
  let context := put "touch"%string paths context in
  let context := fold_left (λ context root, put root paths context) ["grep"; "head"; "tail"; "sort"; "uniq"]%string context in
  put "wc"%string (_runtimeContextSpec
    [(js "argHints", obj [("-l"%string, VArr _runtimeWorkspaceFilePathHints)]);
     (js "sequenceArgHints", obj [("-l"%string, VArr _runtimeWorkspaceFilePathHints)]);
     (js "workspacePathArgKinds", obj [("__positional__"%string, strings ["file"]); ("-l"%string, strings ["file"])])]) context.
Definition lookup_contexts (baseRegistry context : props) : props :=
  let lookup description := _runtimeCommandLookupHints baseRegistry (js description) in
  let context := put_merged baseRegistry "man" (_runtimeContextSpec (hints_context "__positional__" (lookup "manual page"%string))) context in
  let context := put_merged baseRegistry "commands" (_runtimeContextSpec
    ((js "expectsValue", strings ["info"]) :: hints_context "info" (lookup "command details"%string))) context in
  let context := put_merged baseRegistry "which" (_runtimeContextSpec (hints_context "__positional__" (lookup "command path"%string))) context in
  put_merged baseRegistry "type" (_runtimeContextSpec (hints_context "__positional__" (lookup "command type"%string))) context.
Definition getRuntimeAutocompleteContext (baseRegistry : props) : props :=
  lookup_contexts baseRegistry (file_contexts baseRegistry (page_contexts baseRegistry (builtin_contexts baseRegistry))).

(** *** Session variables and words of the output *)

Definition VARIABLE_RE : regexp := Eval vm_compute in lit "^\{?[A-Za-z_][A-Za-z0-9_]*$" false.
Definition variable_item (ctx : token_context) (dollarIndex : nat) (braced : bool) (variable : jsval) : list jsval :=
  let name := trim (text_at "name" variable) in
  if negb (nonempty name) then [] else
  let label := VStr (if braced then js "${" ++ name ++ js "}" else js "$" ++ name) in
  [buildItem label (VStr (text_at "value" variable)) (vint (tc_tokenStart ctx + Z.of_nat dollarIndex)) (vint (tc_tokenEnd ctx))
     label label VNull].
Definition getRuntimeAutocompleteItems (ctx : token_context) : list jsval :=
  let token := tc_currentToken ctx in
  match last_unit 36 token with
  | None => []
  | Some dollarIndex =>
      let afterDollar := slice_from (dollarIndex + 1) token in
      let braced := starts_with (js "{") afterDollar in
      let query := if braced then slice_from 1 afterDollar else afterDollar in
      if negb (test VARIABLE_RE afterDollar) && negb (afterDollar ==s js "{") then []
      else filterItems (flat_map (variable_item ctx dollarIndex braced) (items_of (rt_variables p)))
             (VStr ((if braced then js "${" else js "$") ++ query))
  end.

Definition GREP_OUTPUT_TOKEN_LIMIT : nat := 12.
Definition OCTET_RE : regexp := Eval vm_compute in lit "^\d{1,3}$" false.
Definition _isValidIpv4Octets (token : jsstr) : bool :=
  let parts := split_on 46 token in
  bool_decide (length parts = 4%nat)
  && forallb (λ part, test OCTET_RE part
                      && (let n := num_of_str part in nleb num_zero n && nleb n (num_of_Z 255))) parts.
Record grep_kind := GrepKind { gk_re : regexp; gk_minCount : nat; gk_ci : bool; gk_validate : jsstr → bool }.
Definition CVE_RE : regexp := Eval vm_compute in lit "CVE-\d{4}-\d{4,7}" true.
Definition IPV4_TOKEN_RE : regexp := Eval vm_compute in lit "\b(?:\d{1,3}\.){3}\d{1,3}\b" false.
Definition IPV6_TOKEN_RE : regexp := Eval vm_compute in
  lit "\b(?:[0-9a-f]{1,4}:){7}[0-9a-f]{1,4}\b|(?:[0-9a-f]{1,4}:)+:(?:[0-9a-f]{1,4}:?)*[0-9a-f]{1,4}|::(?:[0-9a-f]{1,4}:?)*[0-9a-f]{1,4}" true.
Definition HOST_TOKEN_RE : regexp := Eval vm_compute in lit "\b(?:[a-z0-9](?:[a-z0-9-]*[a-z0-9])?\.)+[a-z]{2,}\b" true.
Definition STATUS_TOKEN_RE : regexp := Eval vm_compute in lit "(?<![\d.])[1-5]\d{2}(?![\d.])" false.
Definition WORD_TOKEN_RE : regexp := Eval vm_compute in lit "\b[a-zA-Z][a-zA-Z0-9_-]{2,}\b" false.
Definition _GREP_TOKEN_KINDS : list grep_kind :=
  [GrepKind CVE_RE 1 true (λ _, true); GrepKind IPV4_TOKEN_RE 1 false _isValidIpv4Octets; GrepKind IPV6_TOKEN_RE 1 true (λ _, true);
   GrepKind HOST_TOKEN_RE 1 true (λ _, true); GrepKind STATUS_TOKEN_RE 2 false (λ _, true); GrepKind WORD_TOKEN_RE 3 true (λ _, true)].
Record counted := Counted { ct_key : jsstr; ct_text : jsstr; ct_count : nat }.
Fixpoint count_token (key raw : jsstr) (counts : list counted) : list counted :=
  match counts with
  | [] => [Counted key raw 1]
  | e :: counts => if ct_key e ==s key then Counted (ct_key e) (ct_text e) (S (ct_count e)) :: counts
                   else e :: count_token key raw counts
  end.
Definition token_key (def : grep_kind) (raw : jsstr) : jsstr := if gk_ci def then lower raw else raw.
Definition count_match (source : jsstr) (def : grep_kind) (claimed : list jsstr) (counts : list counted) (m : rmatch) : list counted :=
  let raw := matched source m in
  if negb (gk_validate def raw) || bool_decide (token_key def raw ∈ claimed) then counts
  else count_token (token_key def raw) raw counts.
Definition counted_leb (a b : counted) : bool :=
  bool_decide (ct_count b < ct_count a)%nat || bool_decide (ct_count a = ct_count b) && locale_le (ct_text a) (ct_text b).
Definition kind_tokens (source : jsstr) (def : grep_kind) (claimed : list jsstr) : list counted :=
  isort counted_leb (filterb (λ e, bool_decide (gk_minCount def ≤ ct_count e)%nat)
                       (fold_left (count_match source def claimed) (exec_all (gk_re def) source) [])).
Definition rank_kind (source : jsstr) (acc : list jsstr * list jsstr) (def : grep_kind) : list jsstr * list jsstr :=
  let '(claimed, ranked) := acc in
  let kindTokens := kind_tokens source def claimed in
  (map (λ e, token_key def (ct_text e)) kindTokens ++ claimed, ranked ++ map ct_text kindTokens).
Definition extractGrepOutputTokens (source : jsstr) (maxItems : nat) : list jsstr :=
  if negb (nonempty (trim source)) then []
  else take maxItems (snd (fold_left (rank_kind source) _GREP_TOKEN_KINDS ([], []))).
Definition _activeTabOutputText : jsstr := join [10] (map snd (filterb (λ l, negb (fst l)) (rt_lines p))).
Definition getGrepOutputSuggestions (ctx : token_context) : list jsval :=
  match extractGrepOutputTokens _activeTabOutputText GREP_OUTPUT_TOKEN_LIMIT with
  | [] => []
  | tokens => filterItems (map (λ token, buildItem (VStr token) (vstr "From active tab output") (vint (tc_tokenStart ctx))
                                           (vint (tc_tokenEnd ctx)) (VStr token) (VStr token) VNull) tokens)
                (VStr (tc_currentToken ctx))
  end.
End Context.

(** ** Lemmas: completed paths *)

Lemma elem_of_flat_map {A B} (f : A → list B) l y : y ∈ flat_map f l ↔ ∃ x, x ∈ l ∧ y ∈ f x.
Proof. rewrite list_elem_of_In, in_flat_map. by setoid_rewrite <-list_elem_of_In. Qed.

Lemma last_unit_Some c s i : last_unit c s = Some i → ∃ u v, s = u ++ c :: v ∧ length u = i ∧ c ∉ v.
Proof.
  revert i. induction s as [|d s IH]; intros i; cbn; [done|]. destruct (last_unit c s) as [j|] eqn:E.
  - intros [= <-]. destruct (IH j eq_refl) as (u & v & -> & <- & Hv). by exists (d :: u), v.
  - destruct (Z.eqb_spec d c) as [->|]; [|done]. intros [= <-]. exists [], s. split_and!; [done|done|].
    clear IH. induction s as [|e s IH]; [apply not_elem_of_nil|]. cbn in E. destruct (last_unit c s); [done|].
    destruct (Z.eqb_spec e c); [done|]. apply not_elem_of_cons. auto.
Qed.

(** The parts of what was typed: up to the last slash, and the folder it names. *)
Lemma completion_parts_Some p w token prefix dir :
  Forall clean w → rt_cwd p = path_at w → no_ws token →
  _runtimeWorkspaceCompletionParts p token = Some (prefix, dir) →
  ∃ u c, prefix = u ++ [47] ∧ no_ws prefix ∧ Forall clean c ∧ dir = path_at c
         ∧ path_steps (if starts_with (js "/") prefix then [] else w) (segments_of prefix) = inr c.
Proof.
  intros Hw Hcwd Hws. unfold _runtimeWorkspaceCompletionParts. destruct (last_unit 47 token) as [i|] eqn:Hi; [|done].
  apply last_unit_Some in Hi as (u & v & -> & <- & _). 
  assert (slice 0 (length u + 1) (u ++ 47 :: v) = u ++ [47]) as ->.
  { unfold slice. rewrite drop_0. replace (length u + 1 - 0)%nat with (length (u ++ [47])) by (rewrite length_app; cbn; lia).
    replace (u ++ 47 :: v) with ((u ++ [47]) ++ v) by by rewrite <-app_assoc. by rewrite take_app_length. }
  assert (no_ws (u ++ [47])) as Hp.
  { apply Forall_app in Hws as [Hu _]. apply Forall_app_2; [done|]. by apply Forall_singleton. }
  assert (str_or (u ++ [47]) (js ".") = u ++ [47]) as -> by by destruct u.
  unfold _runtimeNormalizeWorkspaceCommandPath, normalizeCommandPath. rewrite str_of_nullish_VStr, trim_no_ws by done.
  rewrite Hcwd. change (join [47] w) with (join (js "/") w). rewrite normalizeDir_joined, split_joined by auto with darklab.
  fold (segments_of (u ++ [47])). destruct (path_steps _ _) as [e|c] eqn:Hs; [done|]. intros [= <- <-].
  exists u, c. split; [done|]. split; [done|].
  assert (Forall clean c) as Hc.
  { eapply path_steps_clean; [| |exact Hs]; [|by case_match].
    unfold segments_of. apply Forall_forall. intros x [_ Hx]%elem_of_filterb. by eapply Forall_forall in Hx; [|apply split_on_parts]. }
  split; [done|]. split; [|done]. apply plain_joined. auto with darklab.
Qed.

Lemma segments_of_glued u n t : segment n → t = [] ∨ t = [47] → segments_of ((u ++ [47]) ++ n ++ t) = segments_of (u ++ [47]) ++ [n].
Proof.
  intros (Hne & Hs & _) Ht. rewrite <-app_assoc. cbn [app]. rewrite !segments_of_slash.
  assert (segments_of (n ++ t) = [n]) as ->.
  { destruct Ht as [-> | ->].
    - rewrite app_nil_r. unfold segments_of. rewrite split_on_no_sep by done. cbn. by destruct n.
    - rewrite segments_of_slash. unfold segments_of. rewrite split_on_no_sep by done. cbn. by destruct n. }
  assert (segments_of [] = []) as -> by done. by rewrite app_nil_r.
Qed.
Lemma trim_glued u n t : no_ws (u ++ [47]) → segment n → t = [] ∨ t = [47] → trim ((u ++ [47]) ++ n ++ t) = (u ++ [47]) ++ n ++ t.
Proof.
  intros Hu (Hne & _ & Ht) Htl. apply trim_id.
  - intros c. destruct u as [|d u]; cbn; [by intros [= <-]|]. intros [= <-]. by apply Forall_cons in Hu as [? _].
  - intros c. rewrite last_app. destruct Htl as [-> | ->].
    + rewrite app_nil_r. rewrite last_app. destruct (last n) as [d|] eqn:Hl.
      * intros [= <-]. rewrite <-Ht in Hl. unfold trim in Hl. by apply trim_end_last in Hl.
      * apply last_None in Hl. congruence.
    + rewrite !last_app. cbn. by intros [= <-].
Qed.
(** A completed name, below the typed prefix, is read as the entry it stands for. *)
Lemma glued_resolves w u c n t :
  Forall clean w → no_ws (u ++ [47]) → clean n → t = [] ∨ t = [47] →
  path_steps (if starts_with (js "/") (u ++ [47]) then [] else w) (segments_of (u ++ [47])) = inr c →
  _resolveWorkspaceCommandPath ((u ++ [47]) ++ n ++ t) (path_at w) false = inr (path_at (c ++ [n])).
Proof.
  intros Hw Hu Hn Ht Hs. assert (segment n) as Hseg by (by destruct Hn).
  unfold _resolveWorkspaceCommandPath. rewrite trim_glued by done. cbv zeta. rewrite andb_false_r.
  assert (str_or ((u ++ [47]) ++ n ++ t) (js ".") = (u ++ [47]) ++ n ++ t) as -> by by destruct u.
  rewrite !normalizeTerminal_dir. change (path_at w) with (join (js "/") w). rewrite normalizeDir_joined by auto with darklab.
  unfold normalizeCommandPath. rewrite str_of_nullish_VStr, trim_glued by done. rewrite normalizeDir_joined, split_joined by auto with darklab.
  assert (starts_with (js "/") ((u ++ [47]) ++ n ++ t) = starts_with (js "/") (u ++ [47])) as -> by by destruct u.
  fold (segments_of ((u ++ [47]) ++ n ++ t)). rewrite segments_of_glued, path_steps_app, Hs by done.
  cbn [path_steps]. rewrite path_step_of_clean by done. rewrite normalizeTerminal_dir. f_equal. apply normalizeDir_joined.
  apply clean_segments, Forall_app_2; [|by apply Forall_singleton].
  eapply path_steps_clean; [| |exact Hs]; [|by case_match].
  unfold segments_of. apply Forall_forall. intros x [_ Hx]%elem_of_filterb. by eapply Forall_forall in Hx; [|apply split_on_parts].
Qed.

(** The entries of a folder, with their names. *)
Definition named (o : item) : jsstr * jsstr := (str_of (item_get o "name"), path_of o).
Lemma named_folder n q : Forall segment q → named (folder_item n (path_at q)) = (n, path_at q).
Proof. intros Hq. unfold named. rewrite path_folder by done. f_equal. change (str_of (VStr n) = n). apply str_of_VStr. Qed.
Lemma named_renamed o n : named (renamed o (path_of o) n) = (n, path_of o).
Proof.
  unfold named. rewrite path_renamed. f_equal. unfold renamed, item_get, get, table_get. rewrite own_set_eq. apply str_of_VStr.
Qed.
Section Entries.
Context (dirs files : list item) (locale_le : jsstr → jsstr → bool).
Context (Hdirs : Forall normal_item dirs) (Hfiles : Forall normal_item files).
Context (c : list jsstr) (Hc : Forall segment c).
Lemma named_entries :
  let e := _workspaceDirectEntries dirs files locale_le (path_at c) in
  map named (li_folders e) ≡ₚ map (λ n, (n, path_at (c ++ [n]))) (child_names dirs files c)
  ∧ map named (li_files e) ≡ₚ map (λ o, (default [] (last (parts o)), path_of o)) (filterb (direct_in c) files).
Proof.
  unfold _workspaceDirectEntries. change (join [47] c) with (join (js "/") c). rewrite normalizeDir_joined by done.
  change (fold_left (add_directory (join (js "/") c)) dirs []) with (fold_left (add_directory (path_at c)) dirs (folders_at c [])).
  assert (Forall segment (collect (dir_child c) dirs [])) as Hd.
  { apply collect_segments; [|done]. intros o n Ho Hn. eapply child_segment; [by left| |done]. by eapply Forall_forall in Hdirs. }
  rewrite fold_directories, fold_files; [|done..|by constructor].
  fold (child_names dirs files c). cbn [li_folders li_files]. unfold by_name. rewrite !isort_perm. split.
  - unfold folders_at. rewrite !map_map. cbn [snd].
    rewrite (map_ext_in _ (λ n, (n, path_at (c ++ [n])))); [done|]. intros n Hn%list_elem_of_In. apply named_folder.
    apply Forall_app_2; [done|]. apply Forall_singleton. by eapply (child_names_segment dirs files locale_le).
  - rewrite app_nil_l, map_map. rewrite (map_ext _ (λ o, (default [] (last (parts o)), path_of o))); [done|].
    intros o. apply named_renamed.
Qed.
End Entries.

(** A folder or a file directly in the folder [c]. *)
Definition folder_in (p : runtime) (c : list jsstr) (n : jsstr) : Prop := n ∈ child_names (rt_dirs p) (rt_files p) c.
Definition file_in (p : runtime) (c : list jsstr) (n : jsstr) : Prop := ∃ o, o ∈ rt_files p ∧ parts o = c ++ [n].

Lemma direct_in_iff c o : direct_in c o = true ↔ ∃ n, parts o = c ++ [n].
Proof.
  unfold direct_in. setoid_rewrite <-strip_Some. destruct (strip c (parts o)) as [[|n [|]]|]; naive_solver.
Qed.
Lemma listed_names p locale_le c (directory : bool) n :
  Forall normal_item (rt_dirs p) → Forall normal_item (rt_files p) → Forall segment c →
  (∃ o, o ∈ listed_of directory (getWorkspaceDirectoryEntries p locale_le (path_at c)) ∧ str_of (item_get o "name") = n)
  ↔ if directory then folder_in p c n else file_in p c n.
Proof.
  intros Hd Hf Hc. destruct (named_entries _ _ locale_le Hd Hf c Hc) as [H1 H2].
  fold (getWorkspaceDirectoryEntries p locale_le (path_at c)) in H1, H2.
  set (e := getWorkspaceDirectoryEntries p locale_le (path_at c)) in *.
  assert (∀ l, (∃ o, o ∈ l ∧ str_of (item_get o "name") = n) ↔ n ∈ map fst (map named l)) as Hl.
  { intros l. rewrite map_map. rewrite list_elem_of_In, in_map_iff. setoid_rewrite <-list_elem_of_In. naive_solver. }
  rewrite Hl. destruct directory; cbn [listed_of].
  - rewrite H1, map_map. cbn [fst]. by rewrite map_id.
  - rewrite H2, map_map. cbn [fst]. rewrite list_elem_of_In, in_map_iff. setoid_rewrite <-list_elem_of_In.
    setoid_rewrite elem_of_filterb. setoid_rewrite direct_in_iff. unfold file_in. split.
    + intros (o & <- & (m & Hm) & Ho). exists o. split; [done|]. by rewrite Hm, last_snoc.
    + intros (o & Ho & Hp). exists o. split_and!; [by rewrite Hp, last_snoc|by exists n|done].
Qed.
Lemma listed_segment p c (directory : bool) n :
  Forall normal_item (rt_dirs p) → Forall normal_item (rt_files p) →
  (if directory then folder_in p c n else file_in p c n) → segment n.
Proof.
  intros Hd Hf. destruct directory.
  - unfold folder_in. intros Hn. by eapply (child_names_segment (rt_dirs p) (rt_files p) units_leb).
  - intros (o & Ho & Hp). eapply Forall_forall in Hf; [|done]. unfold normal_item in Hf. rewrite Hp in Hf.
    apply Forall_app in Hf as [_ Hn]. by apply Forall_cons in Hn as [? _].
Qed.

(** ** Lemmas: destinations of a move *)

Lemma lower_app a b : lower (a ++ b) = lower a ++ lower b.
Proof. unfold lower. apply map_app. Qed.
Lemma lower_unit_slash c : lower_unit c = 47 ↔ c = 47.
Proof. unfold lower_unit. destruct (is_upper c || _) eqn:E; [|done]. unfold is_upper in E. lia. Qed.
Lemma lower_ws c : is_ws (lower_unit c) = is_ws c.
Proof.
  unfold lower_unit. destruct (is_upper c || _) eqn:E; [|done]. unfold is_upper in E.
  unfold is_ws. lia.
Qed.
Lemma lower_segment n : segment n → segment (lower n).
Proof.
  intros (Hne & Hs & Ht). split_and!.
  - by destruct n.
  - unfold lower. intros (c & Hc & Hin)%list_elem_of_fmap. symmetry in Hc. apply lower_unit_slash in Hc as ->. done.
  - apply trim_id; intros c; unfold lower.
    + destruct n as [|d n]; cbn; [done|]. intros [= <-]. rewrite lower_ws. apply (trim_head (d :: n)). by rewrite Ht.
    + rewrite fmap_last. intros (d & Hl & ->)%fmap_Some. rewrite lower_ws. rewrite <-Ht in Hl. by apply trim_end_last in Hl.
Qed.
Lemma folder_value n : segment n → plain_path (n ++ [47]) = n ∧ trim (n ++ [47]) = n ++ [47] ∧ with_slash n = n ++ [47].
Proof.
  intros (Hne & Hs & Ht). split_and!.
  - unfold plain_path. rewrite segments_of_slash. unfold segments_of. rewrite split_on_no_sep by done. cbn. by destruct n.
  - apply trim_id.
    + intros c. destruct n as [|d n]; [done|]. cbn. intros [= <-]. apply (trim_head (d :: n)). by rewrite Ht.
    + intros c. rewrite last_app. cbn. by intros [= <-].
  - unfold with_slash. apply nonempty_spec in Hne as Hn. rewrite Hn. rewrite bool_decide_false.
    2:{ intros ->. apply Hs. by left. }
    assert (ends_with (js "/") n = false) as ->; [|done]. apply not_true_iff_false. unfold ends_with.
    intros (k & Hk)%starts_with_spec. apply Hs. rewrite <-(reverse_involutive n), Hk. apply elem_of_reverse. by left.
Qed.

(** The destinations kept under a key are those for the source it ends in. *)
Lemma sequence_at prefix src dst h acc :
  let value := lower (trim (text_at "value" h)) in
  h ∈ src → nonempty value = true →
  own (fold_left (λ sequenceHints hint,
      let value := lower (trim (text_at "value" hint)) in
      if negb (nonempty value) then sequenceHints
      else set_prop (prefix ++ js " " ++ value) (VArr (_runtimeWorkspaceMoveDestinationHintsForSource value dst)) sequenceHints) src acc)
    (prefix ++ js " " ++ value) = Some (VArr (_runtimeWorkspaceMoveDestinationHintsForSource value dst)).
Proof.
  intros value Hin Hne. 
  enough (h ∈ src ∨ own acc (prefix ++ js " " ++ value) = Some (VArr (_runtimeWorkspaceMoveDestinationHintsForSource value dst)) →
          own (fold_left (λ sequenceHints hint,
      let value := lower (trim (text_at "value" hint)) in
      if negb (nonempty value) then sequenceHints
      else set_prop (prefix ++ js " " ++ value) (VArr (_runtimeWorkspaceMoveDestinationHintsForSource value dst)) sequenceHints) src acc)
    (prefix ++ js " " ++ value) = Some (VArr (_runtimeWorkspaceMoveDestinationHintsForSource value dst))) as H by auto.
  clear Hin. revert acc. induction src as [|g src IH]; intros acc H; cbn [fold_left].
  { destruct H as [H|H]; [by apply not_elem_of_nil in H|done]. }
  apply IH. rewrite elem_of_cons in H. cbv zeta. destruct (decide (lower (trim (text_at "value" g)) = value)) as [->|Hd].
  - right. rewrite Hne. cbn [negb]. apply own_set_eq.
  - destruct H as [[->|H]|H]; [done|by left|]. right. destruct (negb _); [done|]. rewrite own_set_ne; [done|].
    intros Heq%app_inv_head. apply app_inv_head in Heq. done.
Qed.
Lemma folder_hints p locale_le c v :
  Forall normal_item (rt_dirs p) → Forall normal_item (rt_files p) → Forall clean c → rt_cwd p = path_at c →
  (∃ h, h ∈ _runtimeWorkspaceDirectoryHints p locale_le ∧ text_at "value" h = v)
  ↔ ∃ n, folder_in p c n ∧ v = n ++ [47].
Proof.
  intros Hd Hf Hc Hcwd. unfold _runtimeWorkspaceDirectoryHints, _runtimeWorkspaceEntryHints. rewrite Hcwd.
  assert (∀ o, segment (str_of (item_get o "name")) → ∃ h, entry_hint p true o = [h]
            ∧ text_at "value" h = str_of (item_get o "name") ++ [47]) as Hone.
  { intros o Hs. destruct (folder_value _ Hs) as (_ & _ & Hw). destruct Hs as (Hne & Hns & Ht). unfold entry_hint.
    assert (to_string (js_or (item_get o "name") (VStr (_runtimeWorkspaceRelativeValue (path_of o) (rt_cwd p)))) = str_of (item_get o "name")) as ->.
    { unfold str_of, js_or in *. by destruct (truthy (item_get o "name")). }
    rewrite Ht, Hw. assert (nonempty (str_of (item_get o "name") ++ [47]) = true) as -> by (by destruct (str_of _)).
    eexists. split; [done|]. unfold text_at. change (str_of (VStr (str_of (item_get o "name") ++ [47])) = str_of (item_get o "name") ++ [47]).
    apply str_of_VStr. }
  assert (∀ o, o ∈ listed_of true (getWorkspaceDirectoryEntries p locale_le (path_at c)) → folder_in p c (str_of (item_get o "name"))) as Hin.
  { intros o Ho. apply (listed_names p locale_le c true); [done|done|auto with darklab|eauto]. }
  setoid_rewrite elem_of_flat_map. split.
  - intros (h & (o & Ho & Hh) & <-). exists (str_of (item_get o "name")). split; [by apply Hin|].
    destruct (Hone o) as (h' & Heq & Hv); [by eapply (listed_segment p c true); [..|apply Hin]|].
    rewrite Heq in Hh. apply list_elem_of_singleton in Hh as ->. done.
  - intros (n & Hn & ->). pose proof Hn as (o & Ho & <-)%(listed_names p locale_le c true); [|done|done|auto with darklab].
    destruct (Hone o) as (h & Heq & Hv); [by eapply (listed_segment p c true)|]. exists h. split; [|done]. exists o.
    split; [done|]. rewrite Heq. by left.
Qed.

(** ** Lemmas: merged hints *)

Definition value_key (h : jsval) : jsstr := hint_key "value" h.
Definition insert_key (h : jsval) : jsstr := hint_key "insertValue" h.
Definition places_ok (l : list jsval) (m : list (jsstr * nat)) : Prop :=
  ∀ k i, place_of k m = Some i → k ≠ [] ∧ insert_key <$> l !! i = Some k.
Definition bucket_ok (b : bucket) : Prop :=
  (∀ k, k ∈ bk_seen b ↔ k ∈ map value_key (bk_items b)) ∧ NoDup (map value_key (bk_items b)) ∧ places_ok (bk_items b) (bk_inserts b).
(** What stands at a place was there, or inserts the same text. *)
Definition in_place (h h' : jsval) : Prop := h' = h ∨ insert_key h ≠ [] ∧ insert_key h' = insert_key h.

Lemma place_of_snoc k m e : place_of k (m ++ [e]) = match place_of k m with Some i => Some i | None => if fst e ==s k then Some (snd e) else None end.
Proof. unfold place_of. rewrite findb_app. destruct (findb _ m); [done|]. cbn. by case_bool_decide. Qed.
Lemma places_snoc l m h : places_ok l m → places_ok (l ++ [h]) m.
Proof. intros H k i (Hk & Hi)%H. split; [done|]. apply fmap_Some in Hi as (g & Hg & ->). by rewrite (lookup_app_l_Some _ _ _ _ Hg). Qed.
Lemma places_note l m i h : places_ok l m → l !! i = Some h → places_ok l (note_insert m (i, h)).
Proof.
  intros H Hi. unfold note_insert. cbn [fst snd]. destruct (nonempty _ && _) eqn:E; [|done].
  apply andb_true_iff in E as [Hne%nonempty_spec _]. intros k j. rewrite place_of_snoc. destruct (place_of k m) as [i'|] eqn:Hk.
  - intros [= <-]. by apply H.
  - cbn [fst snd]. case_bool_decide as Hq; [|done]. intros [= <-]. subst k. split; [done|]. by rewrite Hi.
Qed.
Lemma open_bucket_ok l : NoDup (map value_key l) → bucket_ok (open_bucket l).
Proof.
  intros Hd. split_and!; [done|done|]. cbn [bk_items bk_inserts open_bucket].
  enough (∀ k m pre, places_ok (pre ++ k) m → places_ok (pre ++ k) (fold_left note_insert (imap (λ i h, (length pre + i, h)%nat) k) m)) as H.
  { rewrite (imap_ext _ (λ i h, (length (@nil jsval) + i, h)%nat) l); [|done]. apply (H l [] []). done. }
  clear l Hd. induction k as [|h k IH]; intros m pre Hm; cbn [imap fold_left]; [done|].
  rewrite (imap_ext _ (λ i g, (length (pre ++ [h]) + i, g)%nat) k).
  2:{ intros. unfold compose. rewrite length_app. cbn [length]. f_equal. lia. }
  replace (pre ++ h :: k) with ((pre ++ [h]) ++ k) by by rewrite <-app_assoc. apply IH. rewrite <-app_assoc.
  apply places_note; [done|]. rewrite Nat.add_0_r. by apply list_lookup_middle.
Qed.
Lemma add_hint_ok b h : bucket_ok b → bucket_ok (add_hint b h).
Proof.
  intros (Hs & Hd & Hp). unfold add_hint. cbv zeta. fold (value_key h) (insert_key h).
  change (lower (text_at "value" h)) with (value_key h).
  destruct (negb _ || _) eqn:E; [done|]. apply orb_false_iff in E as [_ Hnew%bool_decide_eq_false]. rewrite Hs in Hnew.
  destruct (if nonempty (insert_key h) then place_of (insert_key h) (bk_inserts b) else None) as [i|] eqn:Hi.
  - destruct (nonempty (insert_key h)) eqn:Hne; [|done]. destruct (Hp _ _ Hi) as (Hk & (e & He & Hke)%fmap_Some).
    rewrite He. pose proof (lookup_lt_Some _ _ _ He) as Hlt.
    assert (map value_key (<[i:=h]> (bk_items b)) = <[i:=value_key h]> (map value_key (bk_items b))) as Hm by apply list_fmap_insert.
    assert (map value_key (bk_items b) !! i = Some (value_key e)) as Hei by by rewrite list_lookup_fmap, He.
    split_and!; cbn [bk_seen bk_items bk_inserts].
    + intros k. rewrite Hm, elem_of_cons, elem_of_filterb, bool_decide_eq_true, Hs, !list_elem_of_lookup. fold (value_key e).
      split.
      * intros [->|(Hn & j & Hj)]; [exists i; by rewrite list_lookup_insert_eq by (by rewrite length_fmap)|].
        exists j. rewrite list_lookup_insert_ne; [done|]. intros <-. congruence.
      * intros (j & Hj). destruct (decide (i = j)) as [<-|Hij].
        -- rewrite list_lookup_insert_eq in Hj by (by rewrite length_fmap). left. congruence.
        -- rewrite list_lookup_insert_ne in Hj by done. right. split; [|eauto]. intros ->.
           apply Hij. by eapply NoDup_lookup.
    + rewrite Hm. apply NoDup_alt. intros j1 j2 x H1 H2. rewrite list_elem_of_lookup in Hnew.
      destruct (decide (i = j1)) as [<-|Hj1], (decide (i = j2)) as [<-|Hj2]; [done| | |].
      * rewrite list_lookup_insert_eq in H1 by (by rewrite length_fmap). rewrite list_lookup_insert_ne in H2 by done.
        destruct Hnew. exists j2. congruence.
      * rewrite list_lookup_insert_eq in H2 by (by rewrite length_fmap). rewrite list_lookup_insert_ne in H1 by done.
        destruct Hnew. exists j1. congruence.
      * rewrite list_lookup_insert_ne in H1, H2 by done. by eapply NoDup_lookup.
    + intros k j Hj. destruct (Hp k j Hj) as (Hkn & Hkj). split; [done|]. destruct (decide (i = j)) as [<-|Hij].
      * rewrite list_lookup_insert_eq by done. rewrite He in Hkj. cbn in Hkj |- *. congruence.
      * by rewrite list_lookup_insert_ne.
  - assert (map value_key (bk_items b ++ [h]) = map value_key (bk_items b) ++ [value_key h]) as Hm by apply map_app.
    split_and!; cbn [bk_seen bk_items bk_inserts].
    + intros k. rewrite Hm, elem_of_app, elem_of_cons, Hs, list_elem_of_singleton. tauto.
    + rewrite Hm. apply NoDup_app. split_and!; [done| |apply NoDup_singleton]. by intros x Hx ->%list_elem_of_singleton.
    + pose proof (places_snoc _ _ h Hp) as Hp'. destruct (nonempty (insert_key h)) eqn:Hne; [|done].
      assert (bk_inserts b ++ [(insert_key h, length (bk_items b))] = note_insert (bk_inserts b) (length (bk_items b), h)) as ->.
      { unfold note_insert. cbn [fst snd]. fold (insert_key h). rewrite Hne, Hi. by rewrite bool_decide_false by (by intros [? ?]). }
      apply places_note; [done|]. by apply list_lookup_middle.
Qed.
Lemma add_hint_places b h i g :
  bucket_ok b → bk_items b !! i = Some g → ∃ g', bk_items (add_hint b h) !! i = Some g' ∧ in_place g g'.
Proof.
  intros (_ & _ & Hp) Hg. unfold add_hint. cbv zeta. destruct (negb _ || _); [by exists g; split; [|left]|].
  destruct (if nonempty _ then _ else None) as [j|] eqn:Hj; cbn [bk_items].
  - fold (insert_key h) in Hj. destruct (nonempty (insert_key h)) eqn:Hne; [|done].
    destruct (Hp _ _ Hj) as (Hk & (e & He & Hke)%fmap_Some). destruct (decide (j = i)) as [->|Hji].
    + exists h. rewrite list_lookup_insert_eq by by eapply lookup_lt_Some. split; [done|]. right.
      assert (e = g) as -> by congruence. rewrite <-Hke. done.
    + exists g. by rewrite list_lookup_insert_ne; [split; [|left]|].
  - exists g. split; [by apply lookup_app_l_Some|by left].
Qed.

(** ** Lemmas: words of the output *)

(** How often a key occurs among the matches of a kind. *)
Definition occurrences (source : jsstr) (def : grep_kind) (k : jsstr) : nat :=
  length (filterb (λ m, gk_validate def (matched source m) && (token_key def (matched source m) ==s k)) (exec_all (gk_re def) source)).
(** A counted token: a match of its kind, with its number of matches. *)
Definition counted_in (source : jsstr) (def : grep_kind) (claimed : list jsstr) (ms : list rmatch) (e : counted) : Prop :=
  ct_key e = token_key def (ct_text e) ∧ ct_key e ∉ claimed
  ∧ (∃ m, m ∈ ms ∧ matched source m = ct_text e ∧ gk_validate def (ct_text e) = true)
  ∧ ct_count e = length (filterb (λ m, gk_validate def (matched source m) && (token_key def (matched source m) ==s ct_key e)) ms).

Lemma count_token_keys k raw l : map ct_key (count_token k raw l) = if bool_decide (k ∈ map ct_key l) then map ct_key l else map ct_key l ++ [k].
Proof.
  induction l as [|e l IH]; cbn; [done|]. destruct (decide (ct_key e = k)) as [He|He].
  - rewrite !bool_decide_true; [done|rewrite He; by left|done].
  - rewrite (bool_decide_false (ct_key e = k)) by done. cbn [map]. rewrite IH. case_bool_decide as Hk; [rewrite bool_decide_true by (by right)|rewrite bool_decide_false]; [done|done|].
    rewrite elem_of_cons. naive_solver.
Qed.
Lemma count_token_elem k raw l e :
  NoDup (map ct_key l) → e ∈ count_token k raw l →
  (e ∈ l ∧ ct_key e ≠ k) ∨ (∃ e0, e0 ∈ l ∧ ct_key e0 = k ∧ e = Counted k (ct_text e0) (S (ct_count e0))) ∨ (k ∉ map ct_key l ∧ e = Counted k raw 1).
Proof.
  induction l as [|e1 l IH]; cbn; intros Hd.
  { intros ->%list_elem_of_singleton. right. right. split; [apply not_elem_of_nil|done]. }
  apply NoDup_cons in Hd as [Hn Hd]. case_bool_decide as He.
  - intros [->|Hin]%elem_of_cons.
    + right. left. exists e1. split; [by left|]. by rewrite He.
    + left. split; [by right|]. intros <-. apply Hn. rewrite He. rewrite list_elem_of_In. apply in_map. by apply list_elem_of_In.
  - intros [->|Hin]%elem_of_cons; [left; split; [by left|done]|].
    destruct (IH Hd Hin) as [[H1 H2]|[(e0 & H1 & H2 & ->)|[H1 ->]]].
    + left. split; [by right|done].
    + right. left. exists e0. split; [by right|done].
    + right. right. rewrite not_elem_of_cons. naive_solver.
Qed.
Lemma count_matches source def claimed ms todo l :
  NoDup (map ct_key l) → Forall (counted_in source def claimed ms) l →
  (∀ k, k ∉ map ct_key l → k ∉ claimed → filterb (λ m, gk_validate def (matched source m) && (token_key def (matched source m) ==s k)) ms = []) →
  let l' := fold_left (count_match source def claimed) todo l in
  NoDup (map ct_key l') ∧ Forall (counted_in source def claimed (ms ++ todo)) l'.
Proof.
  revert ms l. induction todo as [|m todo IH]; intros ms l Hd Hl Hnew; cbn [fold_left]; [by rewrite app_nil_r|].
  replace (ms ++ m :: todo) with ((ms ++ [m]) ++ todo) by by rewrite <-app_assoc.
  unfold count_match at 2 4. cbv zeta. set (raw := matched source m).
  assert (∀ k, filterb (λ m, gk_validate def (matched source m) && (token_key def (matched source m) ==s k)) (ms ++ [m])
               = filterb (λ m, gk_validate def (matched source m) && (token_key def (matched source m) ==s k)) ms
                 ++ (if gk_validate def raw && (token_key def raw ==s k) then [m] else [])) as Hf.
  { intros k. rewrite filterb_app. cbn [filterb]. done. }
  destruct (negb (gk_validate def raw) || bool_decide (token_key def raw ∈ claimed)) eqn:Hskip.
  - assert (∀ k, k ∉ claimed → gk_validate def raw && (token_key def raw ==s k) = false) as Hno.
    { intros k Hk. apply orb_true_iff in Hskip as [H%negb_true_iff|H%bool_decide_eq_true]; [by rewrite H|].
      rewrite bool_decide_false by (by intros <-). apply andb_false_r. }
    apply IH; [done| |].
    + eapply Forall_impl; [exact Hl|]. intros e (H1 & H2 & (m' & H3 & H4) & H5). split_and!; [done|done| |].
      * exists m'. split; [apply elem_of_app; by left|done].
      * by rewrite Hf, Hno, app_nil_r.
    + intros k Hk Hc. rewrite Hf, (Hno k Hc), app_nil_r. by apply Hnew.
  - apply orb_false_iff in Hskip as [Hv%negb_false_iff Hc%bool_decide_eq_false].
    assert (∀ k, k ∈ map ct_key (count_token (token_key def raw) raw l) ↔ k = token_key def raw ∨ k ∈ map ct_key l) as Hkeys.
    { intros k. rewrite count_token_keys. case_bool_decide as Hin; [naive_solver|]. rewrite elem_of_app, list_elem_of_singleton. tauto. }
    apply IH.
    + rewrite count_token_keys. case_bool_decide; [done|]. apply NoDup_app. split_and!; [done| |apply NoDup_singleton].
      by intros x Hx ->%list_elem_of_singleton.
    + apply Forall_forall. intros e He. destruct (count_token_elem _ _ _ _ Hd He) as [[Hin Hne]|[(e0 & Hin & Hk & ->)|[Hk ->]]].
      * eapply Forall_forall in Hl as (H1 & H2 & (m' & H3 & H4) & H5); [|exact Hin]. split_and!; [done|done| |].
        -- exists m'. split; [apply elem_of_app; by left|done].
        -- rewrite Hf. rewrite bool_decide_false by done. by rewrite andb_false_r, app_nil_r.
      * eapply Forall_forall in Hl as (H1 & H2 & (m' & H3 & H4) & H5); [|exact Hin]. split_and!; cbn [ct_key ct_text ct_count].
        -- congruence.
        -- done.
        -- exists m'. split; [apply elem_of_app; by left|done].
        -- rewrite Hf, Hv, bool_decide_true by done. cbn [andb]. rewrite length_app, H5, Hk. cbn. lia.
      * split_and!; cbn [ct_key ct_text ct_count]; [done|done| |].
        -- exists m. split; [apply elem_of_app; right; by left|done].
        -- rewrite Hf, Hv, bool_decide_true by done. rewrite Hnew by done. done.
    + intros k Hk Hc'. rewrite Hkeys in Hk. rewrite Hf, (Hnew k) by naive_solver. rewrite bool_decide_false by naive_solver. by rewrite andb_false_r.
Qed.

Definition plain_unit (def : grep_kind) (c : Z) : Prop := c ≠ 10 ∧ (gk_ci def = true ∨ lower_unit c = c).
Lemma kinds_plain : Forall (λ def, rx_ok (rx_body (gk_re def)) = true
                                   ∧ rx_all (rx_icase (gk_re def)) (plain_unit def) (rx_body (gk_re def))) _GREP_TOKEN_KINDS.
Proof.
  assert (∀ def c, plain_unit def c ↔ c ≠ 10 ∧ (gk_ci def = true ∨ lower_unit c = c)) as Hp by done.
  repeat (apply Forall_cons; split); [..|by apply Forall_nil].
  all: split; [by vm_compute|].
  all: cbv [rx_all rx_body rx_icase gk_re CVE_RE IPV4_TOKEN_RE IPV6_TOKEN_RE HOST_TOKEN_RE STATUS_TOKEN_RE WORD_TOKEN_RE].
  all: split_and?; try done; intros c Hc; (split; [intros ->; by vm_compute in Hc|]); first [left; reflexivity|right].
  all: unfold cls_has, items_have in Hc; cbn [existsb item_has orb xorb] in Hc; unfold is_digit in Hc; unfold lower_unit, is_upper; case_match; lia.
Qed.
Lemma kind_match def source m : def ∈ _GREP_TOKEN_KINDS → m ∈ exec_all (gk_re def) source → match_in (plain_unit def) source m.
Proof.
  intros Hd Hm. pose proof kinds_plain as Hk. eapply Forall_forall in Hk as [Hok Hall]; [|exact Hd]. by apply (exec_all_match (gk_re def)).
Qed.
(** The key of a matched word is the word in lower case, whatever its kind. *)
Lemma key_lower def source m : def ∈ _GREP_TOKEN_KINDS → m ∈ exec_all (gk_re def) source →
  token_key def (matched source m) = lower (matched source m).
Proof.
  intros Hd Hm. destruct (kind_match def source m Hd Hm) as (_ & _ & _ & _ & _ & HF). unfold token_key.
  destruct (gk_ci def) eqn:Hci; [done|]. symmetry. unfold lower. induction HF as [|c t [_ [H|H]] _ IH]; cbn; [done|congruence|by rewrite H, IH].
Qed.
Lemma infix_join t lines u w :
  10 ∉ t → lines ≠ [] → join [10] lines = u ++ t ++ w → ∃ line a b, line ∈ lines ∧ line = a ++ t ++ b.
Proof.
  intros Ht. revert u. induction lines as [|x lines IH]; intros u Hn; [done|]. destruct lines as [|y lines].
  { cbn. intros ->. exists (u ++ t ++ w), u, w. split; [by left|done]. }
  rewrite join_cons_ne by done. cbn [app]. intros Heq. apply app_eq_app in Heq as (l & [[-> Hl]|[-> Hl]]).
  - apply app_eq_app in Hl as (l2 & [[-> Hl2]|[-> Hl2]]).
    + destruct l2 as [|c l2].
      * exists (u ++ l), u, []. rewrite !app_nil_r. split; [by left|done].
      * injection Hl2 as <- _. destruct Ht. apply elem_of_app. right. by left.
    + exists (u ++ t ++ l2), u, l2. split; [by left|done].
  - destruct l as [|c l]; cbn in Hl.
    + destruct t as [|c t]; cbn in Hl; [|injection Hl as <- _; destruct Ht; by left].
      exists x, x, []. split; [by left|by rewrite app_nil_r].
    + injection Hl as <- Hl. destruct (IH l ltac:(done) Hl) as (line & a & b & Hin & ->). exists (a ++ t ++ b), a, b. split; [by right|done].
Qed.
(** What [rank_kind] keeps: distinct words, up to case, each from its kind. *)
Definition from_kind (source : jsstr) (t : jsstr) : Prop :=
  ∃ def m, def ∈ _GREP_TOKEN_KINDS ∧ m ∈ exec_all (gk_re def) source ∧ t = matched source m
           ∧ gk_validate def t = true ∧ (gk_minCount def ≤ occurrences source def (token_key def t))%nat.
Lemma kind_tokens_ok locale_le source def claimed : def ∈ _GREP_TOKEN_KINDS →
  let l := kind_tokens locale_le source def claimed in
  NoDup (map lower (map ct_text l)) ∧ map (λ e, token_key def (ct_text e)) l = map lower (map ct_text l)
  ∧ ∀ t, t ∈ map ct_text l → from_kind source t ∧ lower t ∉ claimed.
Proof.
  intros Hdef. cbv zeta. unfold kind_tokens.
  destruct (count_matches source def claimed [] (exec_all (gk_re def) source) []) as [Hd Hl]; [constructor|constructor|done|].
  set (counts := fold_left _ _ _) in *. cbn [app] in Hl. rewrite Forall_forall in Hl.
  set (kept := filterb _ counts).
  assert (isort (counted_leb locale_le) kept ≡ₚ kept) as Hperm by apply isort_perm.
  assert (∀ e, e ∈ kept → counted_in source def claimed (exec_all (gk_re def) source) e ∧ (gk_minCount def ≤ ct_count e)%nat) as Hk.
  { intros e [Hmin%bool_decide_eq_true He]%elem_of_filterb. auto. }
  assert (∀ e, e ∈ kept → token_key def (ct_text e) = lower (ct_text e)) as Hlow.
  { intros e He. destruct (Hk e He) as [(_ & _ & (m & Hm & <- & _) & _) _]. by apply key_lower. }
  assert (map (λ e, token_key def (ct_text e)) kept = map lower (map ct_text kept)) as Hkeys.
  { rewrite map_map. apply map_ext_in. intros e He%list_elem_of_In. by apply Hlow. }
  split_and!.
  - rewrite Hperm, <-Hkeys. rewrite (map_ext_in _ ct_key).
    + eapply sublist_NoDup; [exact Hd|]. apply fmap_sublist. apply filterb_sublist.
    + intros e He%list_elem_of_In. by destruct (Hk e He) as [(-> & _) _].
  - rewrite !map_map. apply map_ext_in. intros e He%list_elem_of_In. rewrite Hperm in He. by apply Hlow.
  - intros t Ht. rewrite Hperm in Ht. apply list_elem_of_In, in_map_iff in Ht as (e & <- & He%list_elem_of_In).
    destruct (Hk e He) as [(H1 & H2 & (m & Hm & Ht & Hv) & H4) Hmin]. split.
    + exists def, m. split_and!; [done|done|done|done|]. unfold occurrences. rewrite <-H1, <-H4. done.
    + rewrite <-(Hlow e He), <-H1. done.
Qed.
Lemma ranked_ok locale_le source kinds claimed ranked :
  (∀ def, def ∈ kinds → def ∈ _GREP_TOKEN_KINDS) →
  NoDup (map lower ranked) → (∀ k, k ∈ claimed ↔ k ∈ map lower ranked) → (∀ t, t ∈ ranked → from_kind source t) →
  let r := snd (fold_left (rank_kind locale_le source) kinds (claimed, ranked)) in
  NoDup (map lower r) ∧ ∀ t, t ∈ r → from_kind source t.
Proof.
  revert claimed ranked. induction kinds as [|def kinds IH]; intros claimed ranked Hk Hd Hc Hf; [done|].
  cbn [fold_left]. unfold rank_kind at 2. cbv zeta.
  destruct (kind_tokens_ok locale_le source def claimed) as (H1 & H2 & H3); [apply Hk; by left|]. cbv zeta in *.
  set (new := kind_tokens locale_le source def claimed) in *. apply IH.
  - intros d Hin. apply Hk. by right.
  - rewrite map_app. apply NoDup_app. split_and!; [done| |done]. intros k Hin (t & -> & Ht)%list_elem_of_fmap.
    destruct (H3 t Ht) as [_ Hno]. by rewrite Hc in Hno.
  - intros k. rewrite H2, elem_of_app, map_app, elem_of_app, Hc. tauto.
  - intros t [Ht|Ht]%elem_of_app; [auto|]. by apply H3.
Qed.

(** ** Properties *)

Lemma scoped_values p locale_le prefix c directory v :
  Forall normal_item (rt_dirs p) → Forall normal_item (rt_files p) → Forall clean c →
  (∃ h, h ∈ flat_map (scoped_hint p prefix directory) (listed_of directory (getWorkspaceDirectoryEntries p locale_le (path_at c)))
        ∧ get h (js "value") = VStr v)
  ↔ ∃ n, (if directory then folder_in p c n else file_in p c n) ∧ v = _runtimeWorkspaceEntryValue prefix n directory.
Proof.
  intros Hd Hf Hc. pose proof (clean_segments _ Hc) as Hcs.
  transitivity (∃ n, (∃ o, o ∈ listed_of directory (getWorkspaceDirectoryEntries p locale_le (path_at c)) ∧ str_of (item_get o "name") = n)
                     ∧ v = _runtimeWorkspaceEntryValue prefix n directory).
  2:{ by setoid_rewrite (listed_names p locale_le c directory _ Hd Hf Hcs). }
  setoid_rewrite elem_of_flat_map.
  assert (∀ o, o ∈ listed_of directory (getWorkspaceDirectoryEntries p locale_le (path_at c)) →
            ∃ h, scoped_hint p prefix directory o = [h]
              ∧ get h (js "value") = VStr (_runtimeWorkspaceEntryValue prefix (str_of (item_get o "name")) directory)) as Hone.
  { intros o Ho. assert (segment (str_of (item_get o "name"))) as (Hne & _ & Ht).
    { apply (listed_segment p c directory); [done..|]. apply (listed_names p locale_le c directory); [done..|eauto]. }
    unfold scoped_hint. rewrite Ht. apply nonempty_spec in Hne. rewrite Hne. cbn [negb]. by eexists. }
  split.
  - intros (h & (o & Ho & Hh) & Hv). destruct (Hone o Ho) as (h' & Hh' & Hv'). rewrite Hh' in Hh.
    apply list_elem_of_singleton in Hh as ->. eexists. split; [by eexists|]. congruence.
  - intros (n & (o & Ho & <-) & ->). destruct (Hone o Ho) as (h' & Hh' & Hv').
    exists h'. split; [|done]. exists o. split; [done|]. rewrite Hh'. by left.
Qed.
Lemma glued_word u n t ws : no_ws (u ++ [47]) → clean n → t = [] ∨ t = [47] → Forall plain_word ws → opens_plain (u ++ [47]) = true →
  let v := (u ++ [47]) ++ n ++ t in _workspaceCommandTokens (join (js " ") (ws ++ [v])) = ws ++ [v] ↔ no_ws n.
Proof.
  intros Hu [Hn _] Ht Hp Ho. cbv zeta. rewrite plain_line_words; [|done|by destruct u|].
  - unfold no_ws in *. rewrite (Forall_app _ (u ++ [47])), (Forall_app _ n). split; [by intros (_ & ? & _)|]. intros Hw.
    split_and!; [done|done|]. destruct Ht as [-> | ->]; [done|by apply Forall_singleton].
  - intros c. rewrite <-(trim_glued u n t) by done. apply trim_end_last.
Qed.
Lemma kinds_listed kind directory :
  directory ∈ _runtimeWorkspaceCompletionKinds kind ↔ directory = true ∨ lower (str_or kind (js "file")) ≠ js "directory".
Proof.
  assert (js "any" ≠ js "directory") as Hne by by vm_compute. unfold _runtimeWorkspaceCompletionKinds.
  case_bool_decide as H1; [rewrite H1|case_bool_decide as H2]; rewrite !elem_of_cons, elem_of_nil;
    destruct directory; intuition congruence.
Qed.

(** C38: Completing a path is exact. Of a word with a slash, the values offered
    are what was typed up to the slash, followed by the names of the folders
    (with a slash) and of the files directly in the folder that prefix names,
    and nothing else. Behind other plain words, the file commands read such a
    value as the word it is exactly when it holds no blank (it is offered
    without quotes, and the word typed must not begin with one), and when its name is one a
    path can have, they resolve that word to that very entry. The paths the
    page has cached are taken to be normal, as the server's lists are, the
    current folder to be one a path can have, and the word typed to be free of
    blanks, as a word of the composer is. *)
Theorem completed_paths_exact p locale_le w token prefix dir kind :
  Forall normal_item (rt_dirs p) → Forall normal_item (rt_files p) →
  Forall clean w → rt_cwd p = path_at w → no_ws token →
  _runtimeWorkspaceCompletionParts p token = Some (prefix, dir) →
  ∃ c, dir = path_at c
    ∧ (∀ v, (∃ h, h ∈ getWorkspaceAutocompletePathHints p locale_le kind token ∧ get h (js "value") = VStr v)
        ↔ (∃ n, folder_in p c n ∧ v = prefix ++ n ++ [47])
          ∨ lower (str_or kind (js "file")) ≠ js "directory" ∧ ∃ n, file_in p c n ∧ v = prefix ++ n)
    ∧ ∀ n t, clean n → t = [] ∨ t = [47] →
        let v := prefix ++ n ++ t in
        (∀ ws, Forall plain_word ws → opens_plain prefix = true →
           (_workspaceCommandTokens (join (js " ") (ws ++ [v])) = ws ++ [v] ↔ no_ws n))
        ∧ _resolveWorkspaceCommandPath v (rt_cwd p) false = inr (path_at (c ++ [n])).
Proof.
  intros Hd Hf Hw Hcwd Hws Hparts.
  destruct (completion_parts_Some p w token prefix dir Hw Hcwd Hws Hparts) as (u & c & -> & Hu & Hc & -> & Hs).
  exists c. split; [done|]. split.
  2:{ intros n t Hn Ht. split; [|rewrite Hcwd; by apply glued_resolves]. intros ws Hp Ho. by apply glued_word. }
  intros v. unfold getWorkspaceAutocompletePathHints, _runtimeWorkspaceScopedHints. rewrite Hparts.
  assert (∀ n, (u ++ [47]) ++ n ++ [] = (u ++ [47]) ++ n) as Hnil by (intros; by rewrite app_nil_r).
  pose proof (λ d, scoped_values p locale_le (u ++ [47]) c d v Hd Hf Hc) as Hv. split.
  - intros (h & (d & Hk%kinds_listed & Hh)%elem_of_flat_map & Hval).
    destruct (proj1 (Hv d)) as (n & Hn & ->); [by exists h|]. unfold _runtimeWorkspaceEntryValue.
    destruct d; [left; by exists n|right]. destruct Hk as [|Hk]; [done|]. split; [done|]. exists n. by rewrite Hnil.
  - intros Hex. assert (∃ d, d ∈ _runtimeWorkspaceCompletionKinds kind
        ∧ ∃ n, (if d : bool then folder_in p c n else file_in p c n) ∧ v = _runtimeWorkspaceEntryValue (u ++ [47]) n d) as (d & Hk & Hn).
    { setoid_rewrite kinds_listed. unfold _runtimeWorkspaceEntryValue.
      destruct Hex as [(n & Hn & ->)|(Hdir & n & Hn & ->)]; [exists true|exists false]; (split; [by auto|]); exists n; by rewrite ?Hnil. }
    apply Hv in Hn as (h & Hh & Hval). exists h. split; [|done]. apply elem_of_flat_map. by exists d.
Qed.

(** *** A small page, for concrete runs *)

Definition demo_file (path : string) : item := [(js "path", vstr path); (js "size", vint 10)].
Definition demo_page : runtime := {|
  rt_config := VObj [(js "workspace_enabled", VBool true)]; rt_builtin_roots := VArr []; rt_wordlists := VArr [];
  rt_variables := VArr [VObj [(js "name", vstr "HOST"); (js "value", vstr "ip.darklab.sh")]]; rt_commands := VArr [];
  rt_cwd := js "a"; rt_loaded := true; rt_team := false;
  rt_dirs := [demo_file "a"; demo_file "a/Docs"; demo_file "b"];
  rt_files := [demo_file "a/x.txt"; demo_file "r.txt"; demo_file "a/Docs/my notes.txt"];
  rt_projects := []; rt_schedules := []; rt_watchers := []; rt_themes := []; rt_options := []; rt_workflow := None;
  rt_lines := [(true, js "$ ping a.darklab.sh"); (false, js "open 10.0.0.1"); (false, js "see a.darklab.sh")] |}.
Lemma demo_normal : Forall normal_item (rt_dirs demo_page) ∧ Forall normal_item (rt_files demo_page) ∧ Forall clean [js "a"].
Proof.
  split_and!; [eapply bool_decide_unpack; by vm_compute..|]. constructor; [|constructor].
  split; [eapply bool_decide_unpack; by vm_compute|]. split_and!; try done; apply not_elem_of_cons; (split; [done|apply not_elem_of_nil]).
Qed.
Lemma completed_paths_exact_witness :
  ∃ c, js "a/Docs" = path_at c
    ∧ (∀ v, (∃ h, h ∈ getWorkspaceAutocompletePathHints demo_page units_leb (js "any") (js "Docs/my") ∧ get h (js "value") = VStr v)
        ↔ (∃ n, folder_in demo_page c n ∧ v = js "Docs/" ++ n ++ [47])
          ∨ lower (str_or (js "any") (js "file")) ≠ js "directory" ∧ ∃ n, file_in demo_page c n ∧ v = js "Docs/" ++ n)
    ∧ ∀ n t, clean n → t = [] ∨ t = [47] →
        let v := js "Docs/" ++ n ++ t in
        (∀ ws, Forall plain_word ws → opens_plain (js "Docs/") = true →
           (_workspaceCommandTokens (join (js " ") (ws ++ [v])) = ws ++ [v] ↔ no_ws n))
        ∧ _resolveWorkspaceCommandPath v (js "a") false = inr (path_at (c ++ [n])).
Proof.
  destruct demo_normal as (H1 & H2 & H3).
  apply (completed_paths_exact demo_page units_leb [js "a"] (js "Docs/my") (js "Docs/") (js "a/Docs") (js "any")); try done.
  eapply bool_decide_unpack. by vm_compute.
Defined.
(** A name with a blank is offered as it is, and the command reads two words. *)
Example example_blank_name :
  map (text_at "value") (getWorkspaceAutocompletePathHints demo_page units_leb (js "file") (js "Docs/")) = [js "Docs/my notes.txt"]
  ∧ _workspaceCommandTokens (js "cat Docs/my notes.txt") = [js "cat"; js "Docs/my"; js "notes.txt"].
Proof. by vm_compute. Qed.

(** C39: A folder can be completed as its own destination. After [mv NAME/], the
    destinations offered are looked up and filtered with the name in lower
    case: the folder itself is left out exactly when its name is in lower case
    already. *)
Theorem folder_offered_into_itself p locale_le c n :
  Forall normal_item (rt_dirs p) → Forall normal_item (rt_files p) → Forall clean c → rt_cwd p = path_at c →
  folder_in p c n →
  ∃ offered,
    own (_runtimeWorkspaceMoveSequenceHints (js "mv") (_runtimeWorkspaceMoveSourceHints p locale_le)
           (_runtimeWorkspaceMoveDestinationHints p locale_le)) (js "mv " ++ lower (n ++ [47])) = Some (VArr offered)
    ∧ ((∃ h, h ∈ offered ∧ text_at "value" h = n ++ [47]) ↔ lower n ≠ n).
Proof.
  intros Hd Hf Hc Hcwd Hn. pose proof (listed_segment p c true n Hd Hf Hn) as Hseg.
  destruct (folder_value n Hseg) as (Hpn & Htn & _). pose proof (lower_segment n Hseg) as Hlow.
  destruct (folder_value (lower n) Hlow) as (Hpl & Htl & _).
  destruct (proj2 (folder_hints p locale_le c (n ++ [47]) Hd Hf Hc Hcwd)) as (h & Hh & Hv); [by exists n|].
  exists (_runtimeWorkspaceMoveDestinationHintsForSource (lower (n ++ [47])) (_runtimeWorkspaceMoveDestinationHints p locale_le)). split.
  - pose proof (sequence_at (js "mv") (_runtimeWorkspaceMoveSourceHints p locale_le) (_runtimeWorkspaceMoveDestinationHints p locale_le) h []) as H.
    cbv zeta in H. rewrite Hv, Htn in H. apply H; [|by destruct n]. apply elem_of_app. by right.
  - unfold _runtimeWorkspaceMoveDestinationHintsForSource. rewrite lower_app. change (lower [47]) with [47]. rewrite Htl, Hpl.
    assert (n ++ [47] ≠ js "/") as Hr by (destruct n as [|x [|y n]]; [by destruct Hseg| |]; done).
    assert (starts_with (lower n ++ [47]) n = false) as Hp.
    { apply not_true_iff_false. intros (k & Hk)%starts_with_spec. destruct Hseg as (_ & Hs & _). apply Hs. rewrite Hk.
      apply elem_of_app. left. apply elem_of_app. right. by left. }
    assert (nonempty n = true) as Hne by (apply nonempty_spec; by destruct Hseg).
    setoid_rewrite elem_of_filterb. split.
    + intros (g & [Hg _] & Hgv). rewrite Hgv, Htn, Hpn, Hne, Hp in Hg. rewrite bool_decide_false in Hg by done. cbn [orb andb negb] in Hg.
      rewrite andb_true_r in Hg. apply negb_true_iff, bool_decide_eq_false in Hg. congruence.
    + intros Hl. exists h. split; [|done]. rewrite Hv, Htn, Hpn, Hne, Hp. rewrite !bool_decide_false by congruence. split; [done|].
      apply elem_of_app. by left.
Qed.

(** What the page adds to the hints of a trigger disturbs nothing: no two hints
    have the same value, up to case, when those of the server had not; every
    hint of the server keeps its place, or gives it to one that inserts the
    same text; and there is no hint from elsewhere. *)
Theorem merged_hints_in_place base overlay :
  NoDup (map value_key base) →
  NoDup (map value_key (merge_bucket base overlay))
  ∧ (∀ i h, base !! i = Some h → ∃ h', merge_bucket base overlay !! i = Some h' ∧ in_place h h')
  ∧ ∀ h, h ∈ merge_bucket base overlay → h ∈ base ∨ h ∈ overlay.
Proof.
  intros Hd. unfold merge_bucket.
  assert (∀ b, bucket_ok b →
    bucket_ok (fold_left add_hint overlay b)
    ∧ (∀ i h, bk_items b !! i = Some h → ∃ h', bk_items (fold_left add_hint overlay b) !! i = Some h' ∧ in_place h h')
    ∧ ∀ h, h ∈ bk_items (fold_left add_hint overlay b) → h ∈ bk_items b ∨ h ∈ overlay) as H.
  2:{ destruct (H _ (open_bucket_ok base Hd)) as ((_ & H1 & _) & H2 & H3). done. }
  induction overlay as [|g overlay IH]; intros b Hb; cbn [fold_left].
  { split_and!; [done| |by left]. intros i h Hi. exists h. by split; [|left]. }
  destruct (IH _ (add_hint_ok b g Hb)) as (H1 & H2 & H3). split_and!; [done| |].
  - intros i h Hi. destruct (add_hint_places b g i h Hb Hi) as (h1 & Hh1 & Hp1). destruct (H2 i h1 Hh1) as (h2 & Hh2 & Hp2).
    exists h2. split; [done|]. unfold in_place in *. destruct Hp1 as [->|[? ?]], Hp2 as [->|[? ?]]; [by left|by right..|].
    right. split; [done|congruence].
  - intros h [Hin|Hin]%H3; [|right; by right]. rewrite elem_of_cons. unfold add_hint in Hin.
    destruct (negb _ || _); [by left|]. destruct (if nonempty _ then _ else None) as [j|]; cbn [bk_items] in Hin.
    + apply list_elem_of_lookup in Hin as (k & Hk). apply list_lookup_insert_Some in Hk as [(_ & -> & _)|(_ & Hk)]; [by right; left|].
      left. by eapply list_elem_of_lookup_2.
    + apply elem_of_app in Hin as [Hin| ->%list_elem_of_singleton]; [by left|by right; left].
Qed.

(** What is offered to [grep] comes from the output. The words offered are at
    most twelve and distinct up to case; each stands inside one line the active
    tab shows, never in an echo of what was typed, is a match of its kind (a
    vulnerability id, an address, a host name, a status, a word) and occurs as
    often as its kind asks. *)
Theorem grep_suggestions_from_output p locale_le ctx :
  let words := extractGrepOutputTokens locale_le (_activeTabOutputText p) GREP_OUTPUT_TOKEN_LIMIT in
  (length words ≤ 12)%nat ∧ NoDup (map lower words)
  ∧ (∀ item, item ∈ getGrepOutputSuggestions p locale_le ctx → ∃ t, t ∈ words ∧ get item (js "insertValue") = VStr t)
  ∧ ∀ t, t ∈ words → (∃ line, (false, line) ∈ rt_lines p ∧ includes t line = true) ∧ from_kind (_activeTabOutputText p) t.
Proof.
  intros words. 
  assert (NoDup (map lower words) ∧ ∀ t, t ∈ words → from_kind (_activeTabOutputText p) t) as [Hd Hf].
  { unfold words, extractGrepOutputTokens. destruct (negb _); [split; [constructor|by intros t ?%elem_of_nil]|].
    destruct (ranked_ok locale_le (_activeTabOutputText p) _GREP_TOKEN_KINDS [] []) as [H1 H2]; [done|constructor|done|by intros t ?%elem_of_nil|].
    split.
    - eapply sublist_NoDup; [exact H1|]. apply fmap_sublist, sublist_take.
    - intros t Ht. apply H2. eapply elem_of_sublist; [exact Ht|apply sublist_take]. }
  split; [|split; [done|split]].
  - unfold words, extractGrepOutputTokens. destruct (negb _); [cbn; lia|]. rewrite length_take. unfold GREP_OUTPUT_TOKEN_LIMIT. lia.
  - intros item. unfold getGrepOutputSuggestions. fold words. destruct words as [|w ws]; [by intros ?%elem_of_nil|].
    intros Hi. eapply elem_of_submseteq in Hi; [|apply filterItems_submseteq].
    apply list_elem_of_In, in_map_iff in Hi as (t & <- & Ht%list_elem_of_In). by exists t.
  - intros t Ht. split; [|by apply Hf]. destruct (Hf t Ht) as (def & m & Hdef & Hm & -> & _).
    destruct (kind_match def _ m Hdef Hm) as (u & w & Hs & _ & _ & HF).
    unfold _activeTabOutputText in Hs at 1. apply infix_join in Hs as (line & a & b & Hl & ->).
    + apply list_elem_of_In, in_map_iff in Hl as ([echo line] & Hline & [Hecho Hin]%list_elem_of_In%elem_of_filterb).
      destruct echo; [done|]. cbn in Hline. exists line. split; [done|]. apply includes_spec. eauto.
    + intros H10. eapply Forall_forall in HF as [H _]; [|exact H10]. done.
    + intros Hnil. unfold words, extractGrepOutputTokens, _activeTabOutputText in Ht. rewrite Hnil in Ht. by apply elem_of_nil in Ht.
Qed.

Lemma folder_offered_into_itself_witness :
  ∃ offered,
    own (_runtimeWorkspaceMoveSequenceHints (js "mv") (_runtimeWorkspaceMoveSourceHints demo_page units_leb)
           (_runtimeWorkspaceMoveDestinationHints demo_page units_leb)) (js "mv docs/") = Some (VArr offered)
    ∧ ((∃ h, h ∈ offered ∧ text_at "value" h = js "Docs/") ↔ lower (js "Docs") ≠ js "Docs").
Proof.
  destruct demo_normal as (H1 & H2 & H3).
  apply (folder_offered_into_itself demo_page units_leb [js "a"] (js "Docs")); try done.
  unfold folder_in. eapply bool_decide_unpack. by vm_compute.
Defined.
Lemma merged_hints_in_place_witness :
  let base := [plain_hint (js "a") []; insert_hint "b" "" "b "] in
  NoDup (map value_key (merge_bucket base [insert_hint "B2" "" "b "; plain_hint (js "A") []])).
Proof.
  intros base. apply (merged_hints_in_place base). apply NoDup_cons. split; [|apply NoDup_singleton].
  intros H%list_elem_of_singleton. by vm_compute in H.
Defined.
Example example_grep_words :
  extractGrepOutputTokens units_leb (_activeTabOutputText demo_page) 12 = [js "10.0.0.1"; js "a.darklab.sh"].
Proof. by vm_compute. Qed.
