(* ===== verification/Suggestions.v ===== *)
(** What completion offers
    (app/static/js/features/autocomplete/suggestions.js) and what accepting it
    does to the command line (app/static/js/autocomplete.js): the context of the
    word at the cursor, in a command or in a pipe stage, the specification that
    applies to it, the items offered, and the recent values that are kept. *)

From S2P Require Import Prelude JsString JsNumber JsRegExp JsValue JsJson WebApi WorkspaceCore AutocompleteCore Utils WorkspaceCommands WorkspaceFiles RuntimeContext.

(** ** Definitions: hints and slots *)

Definition starts_option (s : jsstr) : bool := starts_with (js "-") s || starts_with (js "+") s.

(** [typeof options.matchQuery === 'string'] adds the property. *)
Definition hint_item (replaceStart replaceEnd : jsval) (matchQuery : option jsstr) (item : jsval) : jsval :=
  let isObject := is_objectlike item in
  let value := if isObject then get item (js "value") else item in
  let hintOnly := if isObject then js_nullish (get item (js "hintOnly")) (get item (js "hint_only")) else VNull in
  let built := buildItem value (if isObject then js_or (get item (js "description")) (VStr []) else VStr []) replaceStart replaceEnd
                 (if isObject then get item (js "insertValue") else VNull)
                 (if isObject then js_nullish (get item (js "label")) value else value) hintOnly in
  match matchQuery with
  | Some query => VObj (set_prop (js "matchQuery") (VStr query) (props_of built))
  | None => built
  end.
Definition _hintsToItems (hints : list jsval) (ctx : token_context) (matchQuery : option jsstr) : list jsval :=
  map (hint_item (vint (tc_tokenStart ctx)) (vint (tc_tokenEnd ctx)) matchQuery) hints.

Definition type_of_hint (item : jsval) : jsstr := lower (trim (text_at "value_type" item)).
Definition _itemValueTypeIs (item : jsval) (type : jsstr) : bool := type_of_hint item ==s lower (trim type).
Definition _hintsContainValueType (hints : list jsval) (type : jsstr) : bool := existsb (λ hint, _itemValueTypeIs hint type) hints.
Definition _wordlistCategoriesFromHints (hints : list jsval) : list jsstr :=
  dedup (flat_map (λ hint, normalizeWordlistCategories (get hint (js "wordlist_category"))) hints).

(** The slot of a value type: [None] when it is not active, else the target
    types or the wordlist categories it asks for. *)
Notation slot := (option (list jsstr)).
Definition _valueTypeSlotFromHints (type : jsstr) (hints : list jsval) : slot :=
  if negb (_hintsContainValueType hints type) then None
  else if type ==s js "project_target" then
    Some (dedup (filterb nonempty (map (λ t, lower (trim (str_of t)))
      (flat_map (λ hint, items_of (get hint (js "target_types"))) (filterb (λ hint, _itemValueTypeIs hint type) hints)))))
  else if type ==s js "wordlist" then Some (_wordlistCategoriesFromHints hints)
  else Some [].

(** The table of hints by trigger of a specification. *)
Definition POSITIONAL : jsstr := js "__positional__".
Definition arg_hints_of (spec : jsval) : props := props_of (get spec (js "arg_hints")).
Definition _argHintsForTrigger (argHints : props) (trigger : jsstr) : jsval := default (VArr []) (own argHints trigger).
Definition _argHintTriggersForValueType (spec : jsval) (type : jsstr) : list jsstr :=
  map fst (filterb (λ e, negb (fst e ==s POSITIONAL) && _hintsContainValueType (items_of (snd e)) type) (entries (arg_hints_of spec))).
Definition expects_of (spec : jsval) : list jsstr := map str_of (items_of (get spec (js "expects_value"))).
Definition _autocompletePreviousTokenExpectsValue (spec : jsval) (previous : jsstr) : bool :=
  nonempty previous && bool_decide (previous ∈ expects_of spec).
Definition flags_of (spec : jsval) : list jsval := items_of (get spec (js "flags")).
Definition _concreteAutocompleteTokens (spec : jsval) : list jsstr :=
  filterb (λ value, nonempty value && negb (starts_option value)) (map (λ flag, lower (text_at "value" flag)) (flags_of spec)).
Definition _filterFlagItems (items : list jsval) (query : jsstr) : list jsval :=
  if negb (nonempty query) then items else filterb (λ item, starts_with query (itemInsertValue item)) items.

Definition _positionalHintPosition (hint : jsval) : nat :=
  let position := to_number (get hint (js "position")) in
  if is_integer position && nltb num_zero position then Z.to_nat (default 0 (num_to_Z position)) else 0%nat.
Definition positional_hints (spec : jsval) : list jsval := items_of (get (VObj (arg_hints_of spec)) POSITIONAL).
Definition _positionalHintsForSlot (spec : jsval) (slotIndex : nat) : list jsval :=
  let hints := positional_hints spec in
  if negb (existsb (λ hint, (0 <? _positionalHintPosition hint)%nat) hints) then hints
  else filterb (λ hint, let hintPosition := _positionalHintPosition hint in
                        (hintPosition =? 0)%nat || (hintPosition =? S slotIndex)%nat) hints.
Definition _positionalHintSlotsForValueType (spec : jsval) (type : jsstr) : list slot :=
  let hints := positional_hints spec in
  match fold_left (λ m hint, Nat.max m (_positionalHintPosition hint)) hints 0%nat with
  | O => map (λ hint, _valueTypeSlotFromHints type [hint]) hints
  | maxPosition => map (λ index, _valueTypeSlotFromHints type (_positionalHintsForSlot spec index)) (seq 0 maxPosition)
  end.

(** *** The words of a command that stand for values *)

(** The specification that applies, the subcommands named, and their words. *)
Record context_spec := ContextSpec { cs_spec : jsval; cs_activeSubcommand : jsstr; cs_tokens : list token }.
Definition no_context (spec : jsval) : context_spec := ContextSpec spec [] [].

(** What the visitor of the walk is told of a word. *)
Record visit := Visit { vs_triggered : bool; vs_value : jsstr; vs_previous : jsstr; vs_index : nat }.
Definition same_place (t u : token) : bool := (tk_start t =? tk_start u)%nat && (tk_end t =? tk_end u)%nat.
Section Walk.
Context (expects triggers concrete : list jsstr) (subTokens : list token).
Fixpoint walk_values (previous : jsstr) (skipNext : bool) (positionalIndex : nat) (tokens : list token) : list visit :=
  match tokens with
  | [] => []
  | token :: tokens =>
      let tokenValue := tk_value token in
      let next skipNext positionalIndex := walk_values tokenValue skipNext positionalIndex tokens in
      if negb (nonempty tokenValue) || existsb (same_place token) subTokens then next skipNext positionalIndex
      else if bool_decide (previous ∈ triggers) then Visit true tokenValue previous positionalIndex :: next false positionalIndex
      else if skipNext then next false positionalIndex
      else if bool_decide (tokenValue ∈ expects) then next true positionalIndex
      else if starts_option tokenValue || bool_decide (lower tokenValue ∈ concrete) then next skipNext positionalIndex
      else Visit false tokenValue previous positionalIndex :: next skipNext (S positionalIndex)
  end.
End Walk.
Definition walk_from_root (expects triggers concrete : list jsstr) (subTokens tokens : list token) : list visit :=
  match tokens with
  | [] => []
  | root :: tokens => walk_values expects triggers concrete subTokens (tk_value root) false 0 tokens
  end.
(** The words that end before the one at the cursor begins. In a pipe stage the
    words are counted from the stage and the word at the cursor from the line,
    as the source has it. *)
Definition completed_tokens (ctx : token_context) : list token :=
  filterb (λ token, Z.of_nat (tk_end token) <=? tc_tokenStart ctx) (tc_tokens ctx).
Definition _walkAutocompletePositionalValues (spec : jsval) (contextSpec : context_spec) (skipConcreteTokens : bool)
    (triggers : list jsstr) (tokens : list token) : list visit :=
  walk_from_root (expects_of spec) triggers (if skipConcreteTokens then _concreteAutocompleteTokens spec else [])
    (cs_tokens contextSpec) tokens.
Definition _countCompletedPositionalValues (ctx : token_context) (spec : jsval) (contextSpec : context_spec) : nat :=
  length (_walkAutocompletePositionalValues spec contextSpec true [] (completed_tokens ctx)).
Definition _countCompletedPositionalArgs (ctx : token_context) (spec : jsval) : nat :=
  length (_walkAutocompletePositionalValues spec (no_context spec) false [] (completed_tokens ctx)).

Definition _autocompleteValueTypeSlot (ctx : token_context) (spec : jsval) (contextSpec : context_spec) (type : jsstr) : slot :=
  if negb (truthy spec) then None else
  let previous := default [] (tc_previousToken ctx) in
  if bool_decide (previous ∈ _argHintTriggersForValueType spec type)
  then _valueTypeSlotFromHints type (items_of (_argHintsForTrigger (arg_hints_of spec) previous))
  else if _autocompletePreviousTokenExpectsValue spec previous || starts_option (tc_currentToken ctx) then None
  else default None (_positionalHintSlotsForValueType spec type !! _countCompletedPositionalValues ctx spec contextSpec).

(** ** Definitions: the specification that applies *)

(** The first items with each non-empty key. *)
Definition first_by (key : jsval → jsstr) (l : list jsval) : list jsval := dedup_seen key [] (filterb (λ x, nonempty (key x)) l).
Definition _mergeAutocompleteSpecForSubcommand (baseSpec subSpec : jsval) : jsval :=
  let merged := spread (spread [] (spread_value baseSpec)) (spread_value subSpec) in
  let flags := first_by (text_at "value") (flags_of baseSpec ++ flags_of subSpec) in
  let expectsValue := first_by str_of (items_of (get baseSpec (js "expects_value")) ++ items_of (get subSpec (js "expects_value"))) in
  let subHints := get subSpec (js "arg_hints") in
  let argHints := spread (spread [] (spread_value (get baseSpec (js "arg_hints")))) (spread_value subHints) in
  let argHints := set_prop POSITIONAL (default (VArr []) (own (props_of subHints) POSITIONAL)) argHints in
  VObj (set_prop (js "examples") (js_or (get subSpec (js "examples")) (VArr []))
        (set_prop (js "subcommands") (js_or (get subSpec (js "subcommands")) (VObj []))
        (set_prop (js "arg_hints") (VObj argHints)
        (set_prop (js "expects_value") (VArr expectsValue)
        (set_prop (js "flags") (VArr flags) merged))))).

Definition is_current (ctx : token_context) (t : token) : bool :=
  (Z.of_nat (tk_start t) =? tc_tokenStart ctx) && (Z.of_nat (tk_end t) =? tc_tokenEnd ctx).
Fixpoint spec_for_tokens (ctx : token_context) (activeSpec : jsval) (active : list jsstr) (subTokens tokens : list token) : context_spec :=
  match tokens with
  | [] => ContextSpec activeSpec (join (js " ") active) subTokens
  | token :: tokens =>
      let subcommands := subcommands_of activeSpec in
      if bool_decide (subcommands = []) then ContextSpec activeSpec (join (js " ") active) subTokens
      else if (tc_tokenStart ctx <? Z.of_nat (tk_end token)) && negb (is_current ctx token)
      then spec_for_tokens ctx activeSpec active subTokens tokens
      else match own subcommands (lower (tk_value token)) with
           | Some sub => spec_for_tokens ctx (_mergeAutocompleteSpecForSubcommand activeSpec sub) (active ++ [lower (tk_value token)])
                           (subTokens ++ [token]) tokens
           | None => spec_for_tokens ctx activeSpec active subTokens tokens
           end
  end.
Definition _autocompleteSpecForContext (ctx : token_context) (spec : jsval) : context_spec :=
  spec_for_tokens ctx spec [] [] (drop 1 (tc_tokens ctx)).

Fixpoint closed_by (closeAfter : props) (tokens : list token) : bool :=
  match tokens with
  | [] => false
  | token :: tokens =>
      match own closeAfter (lower (tk_value token)) with
      | Some rawLimit =>
          let n := to_number rawLimit in
          let limit := if is_finite n && nleb num_zero n then n else num_zero in
          nleb limit (num_of_nat (length (filterb (λ item, nonempty (trim (tk_value item))) tokens))) || closed_by closeAfter tokens
      | None => closed_by closeAfter tokens
      end
  end.
Definition _contextClosedByTokenArity (ctx : token_context) (spec : jsval) : bool :=
  let closeAfter := props_of (get spec (js "close_after")) in
  tc_atWhitespace ctx && closed_by closeAfter (drop 1 (completed_tokens ctx)).

(** ** Definitions: examples *)

Definition example_item (replaceStart replaceEnd : Z) (completionPrefix : jsstr) (ex : jsval) : jsval :=
  VObj (spread (props_of (buildItem (get ex (js "value")) (js_or (get ex (js "description")) (VStr [])) (vint replaceStart) (vint replaceEnd)
                            (get ex (js "value")) VNull VNull))
          [(js "isExample", VBool true); (js "completionPrefix", VStr completionPrefix)]).
Definition _buildExampleAutocompleteItems (examples : list jsval) (replaceStart replaceEnd : Z) (completionPrefix : jsstr) : list jsval :=
  map (example_item replaceStart replaceEnd completionPrefix) examples.
Definition examples_of (spec : jsval) : list jsval := items_of (get spec (js "examples")).
Definition _collectAutocompleteExamples (spec : jsval) : list jsval :=
  dedup_seen (λ example, lower (trim (text_at "value" example))) []
    (filterb (λ example, is_objectlike example && nonempty (trim (text_at "value" example)))
       (examples_of spec ++ flat_map (λ e, examples_of (snd e)) (entries (props_of (js_or (get spec (js "subcommands")) (VObj [])))))).
(** The items the matcher keeps, in the order of the author. Whether an item is
    kept does not depend on the others. *)
Definition _filterExampleAutocompleteItems (items : list jsval) (typedPrefix : jsstr) : list jsval :=
  filterb (λ item, negb (bool_decide (filterItems [item] (VStr typedPrefix) = []))) items.

(** ** Definitions: what the page has loaded *)

(** The values kept by kind, in the order of the kinds. *)
Notation recents := (list (jsstr * list jsstr)).
Definition RECENT_VALUE_KINDS : list jsstr := map js ["domain"; "ip"; "url"; "port_set"]%string.
Definition RECENT_VALUE_CAPTURE_TYPES : list jsstr := map js ["domain"; "host"; "target"; "ip"; "url"; "port_set"]%string.
Definition no_recents : recents := map (λ kind, (kind, [])) RECENT_VALUE_KINDS.
Definition values_of (r : recents) (kind : jsstr) : list jsstr := default [] (snd <$> findb (λ e, fst e ==s kind) r).
Definition _readRecentValues (r : recents) (kind : jsstr) : list jsstr := take RECENT_VALUE_LIMIT (values_of r (lower (trim kind))).

Definition LIST_LIMIT : nat := 200.
Definition keyed (key : string) (v : jsval) : jsstr := text_at key v.
Definition target_of (item : jsval) : list jsval :=
  match item with
  | VStr value => [VObj [(js "value", item); (js "type", vstr "target"); (js "label", VStr [])]]
  | VObj _ | VArr _ =>
      let reviewState := lower (trim (str_of (js_or (get item (js "review_state")) (get item (js "reviewState"))))) in
      [VObj ([(js "value", VStr (trim (text_at "value" item)));
              (js "type", VStr (lower (trim (to_string (js_or (get item (js "type")) (vstr "target"))))));
              (js "label", VStr (trim (text_at "label" item)))]
             ++ (if nonempty reviewState then [(js "reviewState", VStr reviewState)] else [])
             ++ (if is_array (get item (js "labels")) then [(js "labels", get item (js "labels"))] else []))]
  | _ => []
  end.
(** The first of each key, two hundred at most. *)
Definition capped (key : jsval → jsstr) (l : list jsval) : list jsval := take LIST_LIMIT (dedup_seen key [] l).
Definition setProjectAutocompleteTargets (items : jsval) : list jsval :=
  capped (λ item, text_at "type" item ++ [31] ++ lower (text_at "value" item))
    (filterb (λ item, nonempty (text_at "value" item)) (flat_map target_of (items_of items))).
Definition profile_of (item : jsval) : list jsval :=
  if negb (is_objectlike item) then [] else
  let id := trim (text_at "id" item) in
  let name := trim (text_at "name" item) in
  if negb (nonempty id) || negb (nonempty name) then []
  else [VObj [(js "id", VStr id); (js "name", VStr name); (js "role", VStr (trim (to_string (js_or (get item (js "role")) (vstr "anonymous")))));
              (js "enabled", VBool (match get item (js "enabled") with VBool false => false | _ => true end))]].
Definition setProjectAutocompleteHttpProfiles (items : jsval) : list jsval := capped (keyed "id") (flat_map profile_of (items_of items)).
Definition project_of (item : jsval) : list jsval :=
  if negb (is_objectlike item) then [] else
  let slug := trim (text_at "slug" item) in
  let name := trim (text_at "name" item) in
  let id := trim (text_at "id" item) in
  let value := str_or slug (str_or name id) in
  if negb (nonempty value) then []
  else [VObj [(js "value", VStr value); (js "slug", VStr slug); (js "name", VStr name); (js "id", VStr id);
              (js "status", VStr (lower (trim (text_at "status" item))))]].
Definition setProjectAutocompleteProjects (items : jsval) : list jsval :=
  capped (λ item, lower (text_at "value" item)) (flat_map project_of (items_of items)).
Definition labelled (item : jsval) (id : jsstr) : jsval :=
  VStr (trim (to_string (js_or (get item (js "label")) (js_or (get item (js "command_text")) (VStr id))))).
Definition schedule_of (item : jsval) : list jsval :=
  if negb (is_objectlike item) then [] else
  let id := trim (text_at "id" item) in
  if negb (nonempty id) then []
  else [VObj [(js "id", VStr id); (js "label", labelled item id);
              (js "enabled", VBool (match get item (js "enabled") with VBool false => false | _ => true end))]].
Definition setScheduleAutocompleteSchedules (items : jsval) : list jsval := capped (keyed "id") (flat_map schedule_of (items_of items)).
Definition watcher_of (item : jsval) : list jsval :=
  if negb (is_objectlike item) then [] else
  let id := trim (text_at "id" item) in
  if negb (nonempty id) then []
  else [VObj [(js "id", VStr id); (js "label", labelled item id);
              (js "state", VStr (str_or (lower (trim (text_at "state" item))) (js "ok")))]].
Definition setWatcherAutocompleteWatchers (items : jsval) : list jsval := capped (keyed "id") (flat_map watcher_of (items_of items)).

(** The catalog of the server, what the page adds, and the lists above; a tab
    with a run in front offers nothing. *)
Record knowledge := Knowledge {
  kn_registry : props;              (* acContextRegistry *)
  kn_suggestions : jsval;           (* acSuggestions *)
  kn_page : runtime;
  kn_targets : list jsval;
  kn_profiles : list jsval;
  kn_recents : recents;
  kn_running : bool
}.

(** [_getAutocompleteRegistry]: the catalog, with what the page adds over it. *)
Definition _mergeAutocompleteRegistry (base overlay : props) : props := spread (spread [] base) overlay.
Definition registry_of (page : runtime) (locale_le : jsstr → jsstr → bool) (yamlRegistry : props) : props :=
  _mergeAutocompleteRegistry yamlRegistry (getRuntimeAutocompleteContext page locale_le yamlRegistry).
Definition _autocompleteRegistryHasEntries (registry : props) : bool := bool_decide (keys registry ≠ []).

Section Offer.
Context (kn : knowledge) (locale_le : jsstr → jsstr → bool).
Definition _getAutocompleteRegistry : props := registry_of (kn_page kn) locale_le (kn_registry kn).

(** ** Definitions: the pipe stage at the cursor *)

Definition CONTROL_RE : regexp := Eval vm_compute in lit "(^|[\s|])(?:&&|\|\||;|;;|>>?|<|&)(?=$|\s)" false.
Definition clamp_cursor (text : jsstr) (cursorPos : option Z) : nat :=
  let len := Z.of_nat (length text) in Z.to_nat (Z.max 0 (Z.min (default len cursorPos) len)).
Definition invalid_stage (stage : jsstr) : bool :=
  let stageText := trim stage in
  if negb (nonempty stageText) || test CONTROL_RE stageText then true
  else let spec := table_get _getAutocompleteRegistry (lower (first_word stageText)) in
       negb (truthy spec) || negb (truthy (get spec (js "pipe_command"))).
Definition _autocompletePipeContext (text : jsstr) (cursorPos : option Z) : option token_context :=
  let cursor := clamp_cursor text cursorPos in
  match index_of (js "|") text with
  | None => None
  | Some firstPipeIndex =>
      if (cursor <=? firstPipeIndex)%nat then None else
      let baseCommand := trim (slice 0 firstPipeIndex text) in
      if negb (nonempty baseCommand) || test CONTROL_RE baseCommand then None else
      let stageSection := slice (firstPipeIndex + 1) cursor text in
      let rawStages := split_on 124 (slice_from (firstPipeIndex + 1) text) in
      let completedStageCount := (length (split_on 124 stageSection) - 1)%nat in
      if existsb invalid_stage (take completedStageCount rawStages) then None else
      match last_unit 124 (slice 0 cursor text) with
      | None => None
      | Some pipeIndex =>
          let stageOffset := S pipeIndex in
          Some (tokenContextFromText (VStr (slice_from stageOffset text)) (Some (Z.of_nat cursor - Z.of_nat stageOffset)) (Z.of_nat stageOffset))
      end
  end.

(** ** Definitions: typed values *)

(** An item that replaces the word at the cursor. *)
Definition word_item (ctx : token_context) (value description insertValue label : jsval) : jsval :=
  buildItem value description (vint (tc_tokenStart ctx)) (vint (tc_tokenEnd ctx)) insertValue label VNull.
Definition _recentValueAutocompleteItems (ctx : token_context) (kinds : list jsstr) : list jsval :=
  map (λ value, word_item ctx (VStr value) (vstr "Recent target") VNull VNull) (flat_map (_readRecentValues (kn_recents kn)) kinds).
Definition middle_dot : jsstr := js " · ".
Definition confirmed (target : jsval) : bool :=
  let reviewState := get target (js "reviewState") in negb (truthy reviewState) || is_str reviewState (js "confirmed").
Definition target_description (target : jsval) : jsstr :=
  join middle_dot (map to_string (filterb truthy
    ([vstr "Project target"; get target (js "type")] ++ filterb truthy (map (λ label, get label (js "label")) (items_of (get target (js "labels"))))))).
Definition _projectTargetAutocompleteItems (ctx : token_context) (allowedTypes : list jsstr) (confirmedOnly : bool) : list jsval :=
  let allowed := filterb nonempty (map (λ type, lower (trim type)) allowedTypes) in
  map (λ target, word_item ctx (get target (js "value")) (VStr (target_description target)) VNull VNull)
    (filterb (λ target, negb confirmedOnly || confirmed target)
      (filterb (λ target, bool_decide (allowed = []) || bool_decide (text_at "type" target ∈ allowed)) (take LIST_LIMIT (kn_targets kn)))).
Definition _wordlistAutocompleteItems (ctx : token_context) (categories : list jsstr) : list jsval :=
  let categorySet := normalizeWordlistCategories (VArr (map VStr categories)) in
  let filtered := filterb (λ item,
      bool_decide (categorySet = [])
      || existsb (λ category, bool_decide (category ∈ categorySet))
           (normalizeWordlistCategories (js_or (get item (js "wordlist_category")) (get item (js "category")))))
    (items_of (rt_wordlists (kn_page kn))) in
  filterItems (filterb (λ item, truthy (get item (js "value")))
    (map (λ item, word_item ctx (VStr (text_at "value" item)) (VStr (to_string (js_or (get item (js "description")) (vstr "Installed wordlist"))))
                    VNull (VStr (str_of (js_or (get item (js "label")) (get item (js "value")))))) filtered)) (VStr (tc_currentToken ctx)).
Definition insert_lower (item : jsval) : jsstr := lower (itemInsertValue item).
Definition _prependDedupedItems (specialItems baseItems : list jsval) : list jsval :=
  if bool_decide (specialItems = []) then baseItems
  else specialItems ++ dedup_seen insert_lower (map insert_lower specialItems) (filterb (λ item, nonempty (insert_lower item)) baseItems).
Definition _withRecentValueSuggestions (ctx : token_context) (baseItems : list jsval) (kinds : list jsstr) : list jsval :=
  _prependDedupedItems (filterItems (_recentValueAutocompleteItems ctx kinds) (VStr (tc_currentToken ctx))) baseItems.
Definition _withProjectTargetSuggestions (ctx : token_context) (baseItems : list jsval) (allowedTypes : list jsstr) : list jsval :=
  _prependDedupedItems (filterItems (_projectTargetAutocompleteItems ctx allowedTypes false) (VStr (tc_currentToken ctx))) baseItems.
Definition _withWordlistSuggestions (ctx : token_context) (baseItems : list jsval) (categories : list jsstr) : list jsval :=
  _prependDedupedItems (_wordlistAutocompleteItems ctx categories) baseItems.
Definition profile_items (ctx : token_context) : list jsval :=
  map (λ profile, word_item ctx (get profile (js "id"))
         (VStr (join middle_dot (map to_string (filterb truthy [vstr "HTTP profile"; get profile (js "role"); get profile (js "id")]))))
         VNull (get profile (js "name")))
    (filterb (λ profile, truthy (get profile (js "enabled"))) (take LIST_LIMIT (kn_profiles kn))).

(** [AUTOCOMPLETE_VALUE_TYPE_HANDLERS[type].applySuggestions], for the kinds of
    recent values and the types of targets of each type. *)
Definition typed_sources (type : jsstr) : option (option (list string) * list string) :=
  if type ==s js "target" then Some (Some ["domain"; "ip"; "url"; "port_set"]%string, ["domain"; "host"; "ip"; "cidr"; "url"; "port_set"; "target"]%string)
  else if type ==s js "url" then Some (Some ["url"]%string, ["url"]%string)
  else if type ==s js "host" then Some (Some ["domain"; "ip"]%string, ["host"; "domain"; "ip"]%string)
  else if type ==s js "ip" then Some (Some ["ip"]%string, ["ip"]%string)
  else if type ==s js "cidr" then Some (None, ["cidr"]%string)
  else if type ==s js "port_set" then Some (Some ["port_set"]%string, ["port_set"]%string)
  else if type ==s js "domain" then Some (Some ["domain"]%string, ["domain"]%string)
  else None.
Definition applySuggestions (type : jsstr) (ctx : token_context) (baseItems : list jsval) (details : list jsstr) : list jsval :=
  if type ==s js "http_profile" then _prependDedupedItems (filterItems (profile_items ctx) (VStr (tc_currentToken ctx))) baseItems
  else if type ==s js "project_target" then
    _prependDedupedItems (filterItems (_projectTargetAutocompleteItems ctx details true) (VStr (tc_currentToken ctx))) baseItems
  else if type ==s js "wordlist" then _withWordlistSuggestions ctx baseItems details
  else match typed_sources type with
       | Some (kinds, types) =>
           _withProjectTargetSuggestions ctx
             (match kinds with Some kinds => _withRecentValueSuggestions ctx baseItems (map js kinds) | None => baseItems end) (map js types)
       | None => baseItems
       end.
Definition SLOT_ORDER : list jsstr :=
  map js ["http_profile"; "project_target"; "target"; "url"; "host"; "ip"; "cidr"; "port_set"; "domain"]%string.
Definition _withTypedValueSlotSuggestions (ctx : token_context) (baseItems : list jsval) (valueSlots : jsstr → slot) (workspaceContext : bool) : list jsval :=
  match valueSlots (js "wordlist") with
  | Some categories => applySuggestions (js "wordlist") ctx baseItems categories
  | None =>
      if workspaceContext then baseItems
      else match head (omap (λ type, pair type <$> valueSlots type) SLOT_ORDER) with
           | Some (type, details) => applySuggestions type ctx baseItems details
           | None => baseItems
           end
  end.

(** ** Definitions: where the hints come from *)

Definition _workspaceAutocompleteHintsForFlag (spec : jsval) (trigger : jsstr) (ctx : token_context) : option (list jsval) :=
  if bool_decide (trigger ∈ map str_of (items_of (get spec (js "workspace_file_flags"))))
  then Some (getWorkspaceAutocompleteFlagFileHints (kn_page kn) locale_le (tc_currentToken ctx)) else None.
Definition _workspaceAutocompleteEntryHints : list jsval := file_hints (kn_page kn) ++ directory_hints (kn_page kn).
Definition _valueTypeSourceHints (type : jsstr) (hints : list jsval) : option (list jsval) :=
  if (type ==s js "workspace_path") && _hintsContainValueType hints (js "workspace_path") then Some _workspaceAutocompleteEntryHints else None.
Definition _workspaceAutocompleteHintsForTypedSlot (hints : list jsval) : option (list jsval) :=
  head (omap (λ hint, let valueType := type_of_hint hint in
                      if negb (nonempty valueType) then None else _valueTypeSourceHints valueType hints) hints).

Definition _autocompleteWorkspacePathKindFromArray (kinds : jsval) (index : nat) : jsstr :=
  match items_of kinds !! index with
  | Some k => let kind := lower (trim (str_of k)) in
              if bool_decide (kind ∈ map js ["file"; "directory"; "any"]%string) then kind else []
  | None => []
  end.
Fixpoint path_kind_for (pathKinds : jsval) (tokens : list token) : option jsstr :=
  match tokens with
  | [] => None
  | token :: tokens =>
      match get pathKinds (lower (tk_value token)) with
      | VArr kinds =>
          Some (_autocompleteWorkspacePathKindFromArray (VArr kinds)
                  (length (filterb (λ t, nonempty (tk_value t) && negb (starts_option (tk_value t))) tokens)))
      | _ => path_kind_for pathKinds tokens
      end
  end.
Definition _autocompleteWorkspacePathKind (ctx : token_context) (spec : jsval) : jsstr :=
  let pathKinds := get spec (js "workspace_path_arg_kinds") in
  if negb (is_objectlike pathKinds) then [] else
  match path_kind_for pathKinds (drop 1 (completed_tokens ctx)) with
  | Some kind => kind
  | None => _autocompleteWorkspacePathKindFromArray (get pathKinds POSITIONAL) (_countCompletedPositionalArgs ctx spec)
  end.
Definition _workspaceAutocompletePathHintsForContext (ctx : token_context) (spec : jsval) : option (list jsval) :=
  if negb (has_unit 47 (tc_currentToken ctx)) then None else
  let kind := _autocompleteWorkspacePathKind ctx spec in
  if negb (nonempty kind) then None else Some (getWorkspaceAutocompletePathHints (kn_page kn) locale_le kind (tc_currentToken ctx)).
Definition _workspaceAutocompletePathFilterQuery (ctx : token_context) : jsstr :=
  match last_unit 47 (tc_currentToken ctx) with
  | Some slashIndex => slice_from (slashIndex + 1) (tc_currentToken ctx)
  | None => tc_currentToken ctx
  end.
Definition _autocompleteSpecHasWorkspacePathKinds (spec : jsval) : bool := is_objectlike (get spec (js "workspace_path_arg_kinds")).
(** The hints, what they are filtered by, and what the source reports. *)
Record resolved := Resolved { rs_hints : list jsval; rs_filterQuery : jsstr; rs_pathActive : bool; rs_workspace : bool }.
Definition _resolveAutocompleteHintSource (ctx : token_context) (spec : jsval) (baseHints : list jsval) (workspaceFlag : option jsstr)
    (allowWorkspaceValue : bool) : resolved :=
  match (match workspaceFlag with Some flag => _workspaceAutocompleteHintsForFlag spec flag ctx | None => None end) with
  | Some workspaceHints => Resolved workspaceHints (tc_currentToken ctx) false true
  | None =>
      match _workspaceAutocompletePathHintsForContext ctx spec with
      | Some workspacePathHints => Resolved workspacePathHints (_workspaceAutocompletePathFilterQuery ctx) true true
      | None =>
          let valueHints := if allowWorkspaceValue && negb (_autocompleteSpecHasWorkspacePathKinds spec)
                            then _workspaceAutocompleteHintsForTypedSlot baseHints else None in
          Resolved (default baseHints valueHints) (tc_currentToken ctx) false (bool_decide (is_Some valueHints))
      end
  end.

(** ** Definitions: the items of a context *)

Definition flag_item (ctx : token_context) (flag : jsval) : jsval :=
  word_item ctx (get flag (js "value")) (js_or (get flag (js "description")) (VStr [])) (get flag (js "value")) VNull.
Definition _buildUniqueSubcommandExampleAutocomplete (ctx : token_context) (rootSpec : jsval) : list jsval :=
  let subcommands := subcommands_of rootSpec in
  if bool_decide (subcommands = []) then [] else
  match tc_tokens ctx with
  | [_; secondToken] =>
      if tc_atWhitespace ctx || negb (nonempty (tc_currentToken ctx)) || starts_with (js "-") (tc_currentToken ctx)
         || negb (is_current ctx secondToken) then []
      else match filterItems (map VStr (keys subcommands)) (VStr (tc_currentToken ctx)) with
           | [VStr subcommand] =>
               let subSpec := table_get subcommands subcommand in
               match examples_of subSpec with
               | [] => []
               | examples =>
                   _filterExampleAutocompleteItems
                     (_buildExampleAutocompleteItems examples 0 (tc_tokenEnd ctx) (tc_commandRoot ctx ++ js " " ++ subcommand))
                     (slice 0 (Z.to_nat (tc_tokenEnd ctx)) (tc_text ctx))
               end
           | _ => []
           end
  | _ => []
  end.
(** The roots that match what is typed, or the examples of the only one. *)
Definition root_items (ctx : token_context) (registry : props) : list jsval :=
  if negb ((length (tc_tokens ctx) <=? 1)%nat && negb (tc_atWhitespace ctx) && nonempty (tc_commandRoot ctx)) then [] else
  let matchingRoots := filterItems (map VStr (keys registry)) (VStr (tc_commandRoot ctx)) in
  let plain := map (λ root, word_item ctx root (VStr []) VNull VNull) matchingRoots in
  match matchingRoots with
  | [root] =>
      match _collectAutocompleteExamples (table_get registry (to_string root)) with
      | [] => plain
      | examples =>
          _filterExampleAutocompleteItems
            (_buildExampleAutocompleteItems examples (tc_tokenStart ctx) (tc_tokenEnd ctx) (to_string root)) (tc_currentToken ctx)
      end
  | _ => plain
  end.
(** The examples of the subcommand at the cursor. *)
Definition subcommand_examples (ctx : token_context) (contextSpec : context_spec) : list jsval :=
  let spec := cs_spec contextSpec in
  match (if nonempty (cs_activeSubcommand contextSpec) then examples_of spec else []), last (cs_tokens contextSpec) with
  | (_ :: _) as examples, Some subcommandToken =>
      if negb (is_current ctx subcommandToken) then [] else
      let prefixEnd := if tc_atWhitespace ctx then Z.of_nat (tc_cursor ctx) else tc_tokenEnd ctx in
      _filterExampleAutocompleteItems
        (_buildExampleAutocompleteItems examples 0 prefixEnd (tc_commandRoot ctx ++ js " " ++ cs_activeSubcommand contextSpec))
        (slice 0 (Z.to_nat prefixEnd) (tc_text ctx))
  | _, _ => []
  end.
(** The flags that are not on the line yet. *)
Definition used_flags (ctx : token_context) : list jsstr :=
  filterb starts_option (map tk_value (filterb (λ token, negb (Z.of_nat (tk_start token) =? tc_tokenStart ctx)) (tc_tokens ctx))).
Definition offered_flags (ctx : token_context) (spec : jsval) : list jsval :=
  _filterFlagItems (map (flag_item ctx) (filterb (λ flag, negb (bool_decide (text_at "value" flag ∈ used_flags ctx))) (flags_of spec)))
    (tc_currentToken ctx).
Definition concrete_items (ctx : token_context) (spec : jsval) : list jsval :=
  filterItems (map (flag_item ctx) (filterb (λ flag, nonempty (text_at "value" flag) && negb (starts_option (text_at "value" flag))) (flags_of spec)))
    (VStr (tc_currentToken ctx)).
(** The hints of a source, filtered, with the typed values in front. *)
Definition hinted (ctx : token_context) (r : resolved) : list jsval :=
  filterItems (_hintsToItems (rs_hints r) ctx (Some (rs_filterQuery r))) (VStr (rs_filterQuery r)).
Definition sequence_key (ctx : token_context) : jsstr :=
  let completedTokens := completed_tokens ctx in
  let priorToken := match completedTokens !! (length completedTokens - 2)%nat with
                    | Some t => if (2 <=? length completedTokens)%nat then lower (tk_value t) else []
                    | None => []
                    end in
  trim (priorToken ++ js " " ++ lower (default [] (tc_previousToken ctx))).
Definition argument_limit_of (spec : jsval) : option nat :=
  let limit := get spec (js "argument_limit") in
  if is_int limit && gt_int limit 0 then Some (Z.to_nat (default 0 (num_to_Z (to_number limit)))) else None.

(** An own property, when it is not [null]. *)
Definition own_hints (o : props) (k : jsstr) : option jsval := match own o k with Some VNull => None | r => r end.
(** The hints for values: after a sequence of words, after a word, at a position. *)
Definition value_items (ctx : token_context) (contextSpec : context_spec) : list jsval :=
  let spec := cs_spec contextSpec in
  let argHints := arg_hints_of spec in
  let allowPositionalHints := match argument_limit_of spec with
                              | Some limit => (_countCompletedPositionalArgs ctx spec <? limit)%nat
                              | None => true
                              end in
  let valueSlots := _autocompleteValueTypeSlot ctx spec contextSpec in
  let offer r items := _withTypedValueSlotSuggestions ctx items valueSlots (rs_workspace r) in
  let previous := default [] (tc_previousToken ctx) in
  match own_hints (props_of (get spec (js "sequence_arg_hints"))) (sequence_key ctx) with
  | Some sequenceHints =>
      let r := _resolveAutocompleteHintSource ctx spec (items_of sequenceHints) None false in offer r (hinted ctx r)
  | None =>
  match own_hints argHints previous with
  | Some directHints =>
      let r := _resolveAutocompleteHintSource ctx spec (items_of directHints) (Some previous) true in offer r (hinted ctx r)
  | None =>
  match (if allowPositionalHints then concrete_items ctx spec else []) with
  | (_ :: _) as matchingCommandTokens => matchingCommandTokens
  | [] =>
      let positionalHints := match own argHints POSITIONAL with
                             | Some _ => _positionalHintsForSlot spec (_countCompletedPositionalValues ctx spec contextSpec)
                             | None => []
                             end in
      let positional := negb (bool_decide (positionalHints = [])) && allowPositionalHints in
      let r := _resolveAutocompleteHintSource ctx spec positionalHints None true in
      if negb (nonempty (tc_currentToken ctx)) || starts_option (tc_currentToken ctx) then
        let filteredFlags := offered_flags ctx spec in
        if negb (nonempty (tc_currentToken ctx)) && tc_atWhitespace ctx && positional
        then offer r (filteredFlags ++ _hintsToItems (rs_hints r) ctx (Some (rs_filterQuery r)))
        else filteredFlags
      else if positional then offer r (hinted ctx r)
      else if allowPositionalHints then
        let r := _resolveAutocompleteHintSource ctx spec [] None false in
        if rs_pathActive r then offer r (hinted ctx r) else []
      else []
  end end end.

Definition _buildContextAutocomplete (ctx : token_context) : list jsval :=
  let registry := _getAutocompleteRegistry in
  let rootSpec := if nonempty (tc_commandRoot ctx) then table_get registry (tc_commandRoot ctx) else VNull in
  let contextSpec := if truthy rootSpec then _autocompleteSpecForContext ctx rootSpec else no_context VNull in
  let spec := cs_spec contextSpec in
  if negb (truthy spec) then root_items ctx registry
  else if bool_decide (length (tc_tokens ctx) = 1%nat) && negb (tc_atWhitespace ctx) then
    _filterExampleAutocompleteItems
      (_buildExampleAutocompleteItems (_collectAutocompleteExamples spec) (tc_tokenStart ctx) (tc_tokenEnd ctx) (tc_commandRoot ctx))
      (tc_currentToken ctx)
  else match _buildUniqueSubcommandExampleAutocomplete ctx rootSpec with
       | (_ :: _) as uniqueSubcommandExamples => uniqueSubcommandExamples
       | [] =>
           if _contextClosedByTokenArity ctx spec then []
           else match subcommand_examples ctx contextSpec with
                | (_ :: _) as examples => examples
                | [] => value_items ctx contextSpec
                end
       end.

Definition _buildPipeCommandAutocomplete (ctx : token_context) (registry : props) : list jsval :=
  filterItems
    (map (λ e, let insert := js_or (get (snd e) (js "pipe_insert_value")) (VStr (fst e)) in
               word_item ctx insert (js_or (get (snd e) (js "pipe_description")) (VStr [])) insert
                 (js_or (get (snd e) (js "pipe_label")) insert))
      (filterb (λ e, truthy (get (snd e) (js "pipe_command"))) (entries registry)))
    (VStr (tc_currentToken ctx)).
Definition _mergePipeItems (primary extra : list jsval) : list jsval := primary ++ dedup_seen insert_lower (map insert_lower primary) extra.
Definition _buildPipeAutocomplete (ctx : token_context) : list jsval :=
  let registry := _getAutocompleteRegistry in
  if negb (nonempty (tc_commandRoot ctx)) then _buildPipeCommandAutocomplete ctx registry else
  let spec := table_get registry (tc_commandRoot ctx) in
  if negb (truthy spec) || negb (truthy (get spec (js "pipe_command"))) then [] else
  let contextItems := _buildContextAutocomplete ctx in
  if tc_commandRoot ctx ==s js "grep" then _mergePipeItems contextItems (getGrepOutputSuggestions (kn_page kn) locale_le ctx)
  else contextItems.
Definition _buildFlatAutocomplete (value : jsstr) : list jsval :=
  let q := trim value in
  if negb (nonempty q) then [] else take 24 (filterItems (items_of (kn_suggestions kn)) (VStr q)).

(** The dropdown hides once the word typed is the only suggestion. *)
Definition shown_items (text currentToken : jsstr) (items : list jsval) : list jsval :=
  match items with
  | [] => []
  | VStr _ :: _ => if existsb (λ item, lower (to_string item) ==s lower (trim text)) items then [] else items
  | [singleItem] =>
      if negb (truthy (get singleItem (js "hintOnly"))) && negb (starts_option (text_at "value" singleItem))
         && (insert_lower singleItem ==s lower currentToken)
      then [] else items
  | _ => items
  end.
Definition getAutocompleteMatches (text : jsstr) (cursorPos : option Z) : list jsval :=
  if kn_running kn then [] else
  let ctx := tokenContextFromText (VStr text) cursorPos 0 in
  let items := match _autocompletePipeContext text cursorPos with
               | Some pipeCtx => _buildPipeAutocomplete pipeCtx
               | None => match getRuntimeAutocompleteItems (kn_page kn) ctx with
                         | [] => match _buildContextAutocomplete ctx with
                                 | [] => _buildFlatAutocomplete text
                                 | items => items
                                 end
                         | runtimeItems => runtimeItems
                         end
               end in
  shown_items text (tc_currentToken ctx) items.
End Offer.

(** ** Definitions: accepting an item *)

(** The bound [s.slice] makes of an integer argument. *)
Definition slice_bound (n : Z) (s : jsstr) : nat :=
  let len := Z.of_nat (length s) in Z.to_nat (if n <? 0 then Z.max 0 (len + n) else Z.min n len).
Definition finite_of (v : jsval) : option num := let n := to_number v in if is_finite n then Some n else None.
Definition bound_of (n : num) (s : jsstr) : nat := slice_bound (default 0 (num_to_Z n)) s.
(** The command line, and its caret. *)
Record composer := Composer { co_value : jsstr; co_caret : num }.
Definition acIsHintOnly (item : jsval) : bool := is_hint_only item.
Definition acSelectableIndexes (items : list jsval) : list nat :=
  omap (λ e, if acIsHintOnly (snd e) then None else Some (fst e)) (imap pair items).
Definition acSelectableItems (items : list jsval) : list jsval := filterb (λ item, negb (acIsHintOnly item)) items.
Definition acFirstSelectableIndex (items : list jsval) : option nat := head (acSelectableIndexes items).
Definition acLastSelectableIndex (items : list jsval) : option nat := last (acSelectableIndexes items).
(** [None] is -1. *)
Definition acNextSelectableIndex (items : list jsval) (currentIndex : option nat) (direction : Z) : option nat :=
  let indexes := acSelectableIndexes items in
  match match currentIndex with Some i => find_index (Nat.eqb i) indexes | None => None end with
  | None => if direction <? 0 then last indexes else head indexes
  | Some currentPos =>
      indexes !! (if direction <? 0 then (if (currentPos =? 0)%nat then length indexes - 1 else currentPos - 1)%nat
                  else ((currentPos + 1) mod length indexes)%nat)
  end.
Definition replaced (value insert : jsstr) (replaceStart replaceEnd : num) : composer :=
  Composer (slice 0 (bound_of replaceStart value) value ++ insert ++ slice_from (bound_of replaceEnd value) value)
    (nadd replaceStart (num_of_nat (length insert))).
(** [acAccept]: [None] when the line stays as it is. *)
Definition acAccept (pendingConfirm : bool) (s : jsval) (value : jsstr) : option composer :=
  if pendingConfirm then None
  else if is_objectlike s then
    if truthy (get s (js "hintOnly")) then None else
    let insertValue := itemInsertText s in
    match finite_of (get s (js "replaceStart")), finite_of (get s (js "replaceEnd")) with
    | Some replaceStart, Some replaceEnd => Some (replaced value insertValue replaceStart replaceEnd)
    | _, _ => Some (Composer insertValue (num_of_nat (length insertValue)))
    end
  else Some (Composer (to_string s) (num_of_nat (length (to_string s)))).
Definition acExpandSharedPrefix (items : list jsval) (value : jsstr) : option composer :=
  match items with
  | firstItem :: _ :: _ =>
      let prefix := sharedPrefix (VArr items) in
      if negb (nonempty prefix) then None
      else if is_objectlike firstItem then
        match finite_of (get firstItem (js "replaceStart")), finite_of (get firstItem (js "replaceEnd")) with
        | Some replaceStart, Some replaceEnd =>
            let currentToken := slice (bound_of replaceStart value) (bound_of replaceEnd value) value in
            if (length prefix <=? length currentToken)%nat || negb (starts_with (lower currentToken) (lower prefix)) then None
            else Some (replaced value prefix replaceStart replaceEnd)
        | _, _ => None
        end
      else if (length prefix <=? length value)%nat || negb (starts_with (lower value) (lower prefix)) then None
      else Some (Composer prefix (num_of_nat (length prefix)))
  | _ => None
  end.
Definition BREAKING_RE : regexp := Eval vm_compute in lit "[\s|;&]" false.
(** Whether the suggestions are asked for again after accepting one. *)
Definition _acceptedSuggestionShouldRefresh (value : jsstr) (suggestion : jsval) : bool :=
  if ends_with (js "/") value then true
  else if negb (nonempty (trim value)) || negb (trim value ==s value) || test BREAKING_RE (trim value) || starts_option (trim value) then false
  else if negb (is_objectlike suggestion) then true
  else match finite_of (get suggestion (js "replaceStart")), finite_of (get suggestion (js "replaceEnd")) with
       | Some replaceStart, Some _ => neqb replaceStart num_zero
       | _, _ => false
       end.

(** ** Definitions: recent values *)

Section Recent.
Context `{U : UrlApi}.

(** [_setRecentValuesByKind] and [setRecentValues], on what the server or the page gives. *)
Definition normalized_kind (valuesByKind : jsval) (kind : jsstr) : jsstr * list jsstr :=
  let items := items_of (get valuesByKind kind) in
  (kind, take RECENT_VALUE_LIMIT (map rv_value (normalizeRecentValueList
     (VArr (map (λ value, VObj [(js "kind", VStr kind); (js "value", value)]) items))))).
Definition _setRecentValuesByKind (valuesByKind : jsval) : recents := map (normalized_kind valuesByKind) RECENT_VALUE_KINDS.
Definition recent_item (r : recent_value) : jsval := VObj [(js "kind", VStr (rv_kind r)); (js "value", VStr (rv_value r))].
Definition setRecentValues (items : list recent_value) : recents :=
  let l := normalizeRecentValueList (VArr (map recent_item items)) in
  _setRecentValuesByKind (VObj (map (λ kind, (kind, VArr (map (λ r, VStr (rv_value r)) (filterb (λ r, rv_kind r ==s kind) l)))) RECENT_VALUE_KINDS)).

Definition type_kinds (type : jsstr) : list jsstr :=
  let normalizedType := lower (trim type) in
  if normalizedType ==s js "host" then map js ["domain"; "ip"]%string
  else if normalizedType ==s js "target" then RECENT_VALUE_KINDS else [normalizedType].
Definition whole (r : recent_value) : bool := nonempty (rv_kind r) && nonempty (rv_value r).
Definition _recentValueKindForToken (type tokenValue : jsstr) : recent_value :=
  default (RecentValue [] []) (findb whole (map (λ kind, normalizeRecentValue (VStr kind) (VStr tokenValue)) (type_kinds type))).
Definition _hintRecentValueTypes (hints : list jsval) : list jsstr :=
  dedup (flat_map (λ hint, filterb (_itemValueTypeIs hint) RECENT_VALUE_CAPTURE_TYPES) hints).

Definition FILE_WORD_RE : regexp := Eval vm_compute in lit "(^|[\s_-])(file|files|wordlist|path|paths)([\s_-]|$)" false.
Definition PER_LINE_RE : regexp := Eval vm_compute in lit "\bone [\w/-]+ per line\b" false.
Definition FILE_MARK_RE : regexp := Eval vm_compute in lit "<[^>]*(?:file|list|path|wordlist)[^>]*>" false.
Definition _hintLooksLikeFileInput (hint : jsval) : bool :=
  if negb (is_objectlike hint) then false else
  let text := join (js " ") (filterb nonempty (map (λ k, lower (trim (text_at k hint))) ["value"; "label"; "placeholder"; "description"]%string)) in
  nonempty text && (test FILE_WORD_RE text || test PER_LINE_RE text || test FILE_MARK_RE text).
Definition _recentValueHintsCapturable (hints : list jsval) : bool :=
  existsb (λ hint, existsb (_itemValueTypeIs hint) RECENT_VALUE_CAPTURE_TYPES) hints && negb (existsb _hintLooksLikeFileInput hints).
Definition _recentValueTriggerCapturable (spec : jsval) (trigger : jsstr) : bool :=
  if negb (nonempty trigger) then false
  else if bool_decide (trigger ∈ filterb nonempty (map str_of (items_of (get spec (js "workspace_file_flags"))))) then false
  else _recentValueHintsCapturable (items_of (_argHintsForTrigger (arg_hints_of spec) trigger)).
Definition _recentValuePositionalSlotCapturable (spec : jsval) (slotIndex : nat) : bool :=
  _recentValueHintsCapturable (_positionalHintsForSlot spec slotIndex).
Definition _argHintTriggersForRecentValues (spec : jsval) : list jsstr :=
  dedup (filterb (λ key, nonempty key && _recentValueTriggerCapturable spec key)
           (flat_map (_argHintTriggersForValueType spec) RECENT_VALUE_CAPTURE_TYPES)).
Definition type_slots (spec : jsval) (type : jsstr) : list bool :=
  imap (λ index slot, bool_decide (is_Some slot) && _recentValuePositionalSlotCapturable spec index) (_positionalHintSlotsForValueType spec type).
Definition _positionalHintSlotsForRecentValues (spec : jsval) : list bool :=
  let perTypeSlots := map (type_slots spec) RECENT_VALUE_CAPTURE_TYPES in
  let maxLength := fold_left (λ m slots, Nat.max m (length slots)) perTypeSlots 0%nat in
  map (λ index, existsb (λ slots, default false (slots !! index)) perTypeSlots) (seq 0 maxLength).
(** The first type of the hints that makes a value of the word. *)
Definition captured (hints : list jsval) (tokenValue : jsstr) : list recent_value :=
  match findb whole (map (λ type, _recentValueKindForToken type tokenValue) (_hintRecentValueTypes hints)) with
  | Some value => [value]
  | None => []
  end.
Definition collect_visit (spec : jsval) (positionalSlots : list bool) (v : visit) : list recent_value :=
  if vs_triggered v || default false (positionalSlots !! vs_index v) then
    captured (if vs_triggered v then items_of (_argHintsForTrigger (arg_hints_of spec) (vs_previous v))
              else _positionalHintsForSlot spec (vs_index v)) (vs_value v)
  else [].
Definition _collectRecentValuesFromPositionalValues (ctx : token_context) (spec : jsval) (contextSpec : context_spec) (triggers : list jsstr)
    : list recent_value :=
  flat_map (collect_visit spec (_positionalHintSlotsForRecentValues spec))
    (_walkAutocompletePositionalValues spec contextSpec true triggers (tc_tokens ctx)).

Definition push_next (next : list recent_value) (item : recent_value) : list recent_value :=
  let normalized := normalizeRecentValue (VStr (rv_kind item)) (VStr (rv_value item)) in
  if negb (whole normalized) || bool_decide (normalized ∈ next)
     || bool_decide (RECENT_VALUE_LIMIT ≤ length (filterb (λ e, rv_kind e ==s rv_kind normalized) next))%nat then next
  else next ++ [normalized].
Definition next_recents (r : recents) (found : list recent_value) : list recent_value :=
  fold_left push_next (found ++ flat_map (λ kind, map (RecentValue kind) (_readRecentValues r kind)) RECENT_VALUE_KINDS) [].
(** What a command gives, by the registry: the values in the order of its words. *)
Definition values_in (registry : props) (text : jsstr) : option (list recent_value) :=
  let ctx := tokenContextFromText (VStr text) (Some (Z.of_nat (length text))) 0 in
  let rootSpec := if nonempty (tc_commandRoot ctx) then table_get registry (tc_commandRoot ctx) else VNull in
  if negb (truthy rootSpec) then None
  else let contextSpec := _autocompleteSpecForContext ctx rootSpec in
       let spec := cs_spec contextSpec in
       Some (if negb (truthy spec) then []
             else _collectRecentValuesFromPositionalValues ctx spec contextSpec (_argHintTriggersForRecentValues spec)).

(** The memory of the page: the values, the commands typed before the catalog
    came, the catalog, and the values sent to the server, oldest first. *)
Record memory := Memory { me_recents : recents; me_pending : list jsstr; me_registry : props; me_posted : list (list recent_value) }.
Definition PENDING_LIMIT : nat := 25.
Definition _storeRecentValues (found : list recent_value) (m : memory) : memory :=
  if bool_decide (found = []) then m
  else let values := normalizeRecentValueList (VArr (map recent_item found)) in
       Memory (setRecentValues (next_recents (me_recents m) found)) (me_pending m) (me_registry m)
         (if bool_decide (values = []) then me_posted m else me_posted m ++ [values]).
Definition _queueRecentValueCommand (command : jsstr) (m : memory) : memory :=
  let text := trim command in
  if negb (nonempty text) || bool_decide (text ∈ me_pending m) then m
  else let pending := me_pending m ++ [text] in
       Memory (me_recents m) (if (PENDING_LIMIT <? length pending)%nat then drop 1 pending else pending) (me_registry m) (me_posted m).
Context (locale_le : jsstr → jsstr → bool) (page : runtime).
Definition registry_now (m : memory) : props := registry_of page locale_le (me_registry m).
Definition rememberRecentValuesFromCommand (command : jsstr) (skipQueue : bool) (m : memory) : memory :=
  let text := trim command in
  if negb (nonempty text) then m else
  match values_in (registry_now m) text with
  | None => if negb skipQueue && negb (_autocompleteRegistryHasEntries (registry_now m)) then _queueRecentValueCommand text m else m
  | Some found => _storeRecentValues found m
  end.
Definition processPendingRecentValueCommands (m : memory) : memory :=
  if bool_decide (me_pending m = []) || negb (_autocompleteRegistryHasEntries (registry_now m)) then m
  else fold_left (λ m command, rememberRecentValuesFromCommand command true m) (me_pending m)
         (Memory (me_recents m) [] (me_registry m) (me_posted m)).

(** What happens to it: a command is remembered, the catalog comes, the server
    answers a load or a save with its values. *)
Inductive memory_event :=
  | Remember (command : jsstr)
  | CatalogCame (context : jsval)
  | ValuesLoaded (data : jsval)
  | ValuesSaved (data : jsval).
Definition with_values (data : jsval) (m : memory) : memory :=
  if truthy data && is_objectlike (get data (js "values"))
  then Memory (_setRecentValuesByKind (get data (js "values"))) (me_pending m) (me_registry m) (me_posted m) else m.
Definition memory_step (e : memory_event) (m : memory) : memory :=
  match e with
  | Remember command => rememberRecentValuesFromCommand command false m
  | CatalogCame context =>
      processPendingRecentValueCommands (Memory (me_recents m) (me_pending m) (props_of context) (me_posted m))
  | ValuesLoaded data => processPendingRecentValueCommands (with_values data m)
  | ValuesSaved data => with_values data m
  end.
End Recent.
Definition memory_start : memory := Memory no_recents [] [] [].
(** Each step with the page as it then is. *)
Inductive memory_reachable `{U : UrlApi} (locale_le : jsstr → jsstr → bool) : memory → Prop :=
  | memory_first : memory_reachable locale_le memory_start
  | memory_next page e m : memory_reachable locale_le m → memory_reachable locale_le (memory_step locale_le page e m).

(** ** Lemmas: the range an item replaces *)

Definition spans (a b : Z) (item : jsval) : Prop :=
  is_objectlike item = true ∧ get item (js "replaceStart") = vint a ∧ get item (js "replaceEnd") = vint b.
Definition word_spans (ctx : token_context) : jsval → Prop := spans (tc_tokenStart ctx) (tc_tokenEnd ctx).

Lemma spans_build value description a b insertValue label hintOnly :
  spans a b (buildItem value description (vint a) (vint b) insertValue label hintOnly).
Proof. done. Qed.
Lemma spans_hint a b q item : spans a b (hint_item (vint a) (vint b) q item).
Proof.
  unfold hint_item. destruct q as [q|]; [|apply spans_build]. unfold spans. cbn [buildItem props_of get table_get].
  unfold table_get. by rewrite !own_set_ne.
Qed.
Lemma spans_example a b prefix ex : spans a b (example_item a b prefix ex).
Proof. done. Qed.
Lemma Forall_submseteq {A} (P : A → Prop) l k : l ⊆+ k → Forall P k → Forall P l.
Proof. rewrite !Forall_forall. intros H Hk x Hx. apply Hk. by eapply elem_of_submseteq. Qed.
Lemma Forall_filterItems P items q : Forall P items → Forall P (filterItems items q).
Proof. apply Forall_submseteq, filterItems_submseteq. Qed.
Lemma Forall_filterb {A} (P : A → Prop) p l : Forall P l → Forall P (filterb p l).
Proof. apply Forall_submseteq, sublist_submseteq, filterb_sublist. Qed.
Lemma Forall_map_all {A B} (P : B → Prop) (f : A → B) l : (∀ x, P (f x)) → Forall P (map f l).
Proof. intros H. induction l; constructor; auto. Qed.
Lemma Forall_prepend P special base : Forall P special → Forall P base → Forall P (_prependDedupedItems special base).
Proof.
  intros Hs Hb. unfold _prependDedupedItems. case_bool_decide; [done|]. apply Forall_app_2; [done|].
  eapply Forall_submseteq; [apply sublist_submseteq, dedup_seen_sublist|]. by apply Forall_filterb.
Qed.
Lemma Forall_merge P primary extra : Forall P primary → Forall P extra → Forall P (_mergePipeItems primary extra).
Proof.
  intros Hs Hb. unfold _mergePipeItems. apply Forall_app_2; [done|].
  eapply Forall_submseteq; [apply sublist_submseteq, dedup_seen_sublist|done].
Qed.
Lemma Forall_examples P examples a b prefix q :
  (∀ ex, P (example_item a b prefix ex)) → Forall P (_filterExampleAutocompleteItems (_buildExampleAutocompleteItems examples a b prefix) q).
Proof. intros H. apply Forall_filterb. by apply Forall_map_all. Qed.
#[export] Hint Resolve Forall_filterItems Forall_filterb Forall_map_all Forall_prepend Forall_merge Forall_examples
  spans_build spans_hint spans_example : darklab.

Section Spans.
Context (kn : knowledge) (locale_le : jsstr → jsstr → bool) (ctx : token_context).
Lemma word_item_spans value description insertValue label : word_spans ctx (word_item ctx value description insertValue label).
Proof. apply spans_build. Qed.
Hint Resolve word_item_spans : darklab.
Lemma apply_spans type base details : Forall (word_spans ctx) base → Forall (word_spans ctx) (applySuggestions kn type ctx base details).
Proof.
  intros Hb. unfold applySuggestions, _withWordlistSuggestions, _withProjectTargetSuggestions, _withRecentValueSuggestions.
  repeat case_bool_decide; try destruct (typed_sources type) as [[[kinds|] types]|]; try done;
    repeat (apply Forall_prepend); try done; apply Forall_filterItems; try apply Forall_filterb; apply Forall_map_all; intros; apply word_item_spans.
Qed.
Lemma slots_spans base slots ws : Forall (word_spans ctx) base → Forall (word_spans ctx) (_withTypedValueSlotSuggestions kn ctx base slots ws).
Proof.
  intros Hb. unfold _withTypedValueSlotSuggestions. destruct (slots _); [by apply apply_spans|]. destruct ws; [done|].
  destruct (head _) as [[type details]|]; [by apply apply_spans|done].
Qed.
Lemma hints_spans hints q : Forall (word_spans ctx) (_hintsToItems hints ctx q).
Proof. apply Forall_map_all. intros. apply spans_hint. Qed.
Lemma hinted_spans r : Forall (word_spans ctx) (hinted ctx r).
Proof. apply Forall_filterItems, hints_spans. Qed.
Lemma flags_spans spec : Forall (word_spans ctx) (offered_flags ctx spec).
Proof.
  unfold offered_flags, _filterFlagItems. destruct (negb _); [|apply Forall_filterb]; apply Forall_map_all; intros; apply word_item_spans.
Qed.
Lemma value_items_spans contextSpec : Forall (word_spans ctx) (value_items kn locale_le ctx contextSpec).
Proof.
  unfold value_items. cbv zeta. destruct (own_hints _ (sequence_key ctx)); [apply slots_spans, hinted_spans|].
  destruct (own_hints _ _); [apply slots_spans, hinted_spans|].
  assert (Forall (word_spans ctx) (concrete_items ctx (cs_spec contextSpec))) as Hc.
  { apply Forall_filterItems, Forall_map_all. intros. apply word_item_spans. }
  set (allow := match argument_limit_of _ with Some _ => _ | None => _ end). clearbody allow.
  destruct (if allow then _ else []) as [|x l] eqn:E; [|by destruct allow; [rewrite <-E|]].
  set (hints := match own _ POSITIONAL with Some _ => _ | None => _ end). clearbody hints.
  destruct (negb (nonempty (tc_currentToken ctx)) || _).
  - destruct (_ && _ && _); [|apply flags_spans]. apply slots_spans, Forall_app_2; [apply flags_spans|apply hints_spans].
  - destruct (negb _ && allow); [apply slots_spans, hinted_spans|]. destruct allow; [|done].
    destruct (rs_pathActive _); [apply slots_spans, hinted_spans|done].
Qed.
End Spans.

(** Every item replaces the word at the cursor, but for the whole-line examples
    of a subcommand. *)
Definition line_example (ctx : token_context) (item : jsval) : Prop :=
  spans 0 (tc_tokenEnd ctx) item ∧ truthy (get item (js "isExample")) = true.
Lemma line_examples_span ctx examples prefix q :
  Forall (line_example ctx) (_filterExampleAutocompleteItems (_buildExampleAutocompleteItems examples 0 (tc_tokenEnd ctx) prefix) q).
Proof. apply Forall_examples. done. Qed.
Lemma unique_examples_span ctx rootSpec : Forall (line_example ctx) (_buildUniqueSubcommandExampleAutocomplete ctx rootSpec).
Proof.
  unfold _buildUniqueSubcommandExampleAutocomplete. case_bool_decide; [done|].
  destruct (tc_tokens ctx) as [|? [|t [|? ?]]]; try done. destruct (_ || _); [done|].
  destruct (filterItems _ _) as [|[] [|? ?]]; try done. destruct (examples_of _); [done|apply line_examples_span].
Qed.
(** The words are not empty, and between them the range is: there no word is the
    current one. *)
Definition real_words (ctx : token_context) (tokens : list token) : Prop :=
  (tc_atWhitespace ctx = true → tc_tokenStart ctx = tc_tokenEnd ctx) ∧ Forall (λ t, (tk_start t < tk_end t)%nat) tokens.
Lemma current_word ctx tokens t : real_words ctx tokens → t ∈ tokens → is_current ctx t = true → tc_atWhitespace ctx = false.
Proof.
  intros [Hw Hok] Ht [H1%Z.eqb_eq H2%Z.eqb_eq]%andb_true_iff. apply not_true_iff_false. intros H%Hw.
  pose proof (proj1 (Forall_forall _ _) Hok _ Ht). cbn in *. lia.
Qed.
Lemma spec_tokens_sub ctx spec active subTokens tokens :
  cs_tokens (spec_for_tokens ctx spec active subTokens tokens) ⊆ subTokens ++ tokens.
Proof.
  revert spec active subTokens. induction tokens as [|t tokens IH]; intros spec active subTokens; cbn [spec_for_tokens].
  { rewrite app_nil_r. done. }
  case_bool_decide; [cbn; set_solver|].
  destruct (_ && _); [|destruct (own _ _)]; etransitivity; [apply IH| |apply IH| |apply IH|]; set_solver.
Qed.
Lemma context_spec_words ctx spec : real_words ctx (tc_tokens ctx) → real_words ctx (cs_tokens (_autocompleteSpecForContext ctx spec)).
Proof.
  intros [Hw Hok]. split; [done|]. apply Forall_forall. intros t Ht%(spec_tokens_sub ctx spec [] [] _).
  apply (proj1 (Forall_forall _ _) Hok). cbn in Ht. rewrite <-(take_drop 1 (tc_tokens ctx)). apply elem_of_app. by right.
Qed.
Lemma subcommand_examples_span ctx cs : real_words ctx (cs_tokens cs) → Forall (line_example ctx) (subcommand_examples ctx cs).
Proof.
  intros Hw. unfold subcommand_examples. destruct (if nonempty _ then _ else _); [done|].
  destruct (last _) as [t|] eqn:El; [|done]. destruct (is_current ctx t) eqn:Ec; [|done].
  rewrite (current_word ctx _ t Hw) by (first [by apply last_Some_elem_of|done]). apply line_examples_span.
Qed.
Lemma root_items_span ctx registry : Forall (word_spans ctx) (root_items ctx registry).
Proof.
  unfold root_items. destruct (negb _); [done|]. cbv zeta. destruct (filterItems _ _) as [|root [|? ?]].
  - done.
  - destruct (_collectAutocompleteExamples _); [apply Forall_map_all; intros; apply word_item_spans|].
    apply Forall_examples. intros. apply spans_example.
  - apply Forall_map_all. intros. apply word_item_spans.
Qed.
Lemma build_spans kn le ctx : real_words ctx (tc_tokens ctx) →
  Forall (λ item, word_spans ctx item ∨ line_example ctx item) (_buildContextAutocomplete kn le ctx).
Proof.
  intros Hw. unfold _buildContextAutocomplete. cbv zeta. set (rootSpec := if nonempty _ then _ else _). clearbody rootSpec.
  set (cs := if truthy rootSpec then _ else _).
  assert (real_words ctx (cs_tokens cs)) as Hcs by (unfold cs; destruct (truthy rootSpec); [by apply context_spec_words|by destruct Hw]).
  clearbody cs. destruct (negb _).
  { eapply Forall_impl; [apply root_items_span|auto]. }
  destruct (_ && _). { apply Forall_examples. intros. left. apply spans_example. }
  destruct (_buildUniqueSubcommandExampleAutocomplete ctx rootSpec) eqn:E.
  - destruct (_contextClosedByTokenArity _ _); [done|]. destruct (subcommand_examples ctx cs) eqn:E'.
    + eapply Forall_impl; [apply value_items_spans|auto].
    + rewrite <-E'. eapply Forall_impl; [by apply subcommand_examples_span|auto].
  - rewrite <-E. eapply Forall_impl; [apply unique_examples_span|auto].
Qed.
(** Without subcommands there are none of these. *)
Lemma build_word_spans kn le ctx :
  subcommands_of (table_get (_getAutocompleteRegistry kn le) (tc_commandRoot ctx)) = [] →
  Forall (word_spans ctx) (_buildContextAutocomplete kn le ctx).
Proof.
  intros Hs. unfold _buildContextAutocomplete. cbv zeta. set (rootSpec := if nonempty _ then _ else _).
  assert (subcommands_of rootSpec = []) as Hr by (unfold rootSpec; by destruct (nonempty _)). clearbody rootSpec.
  set (cs := if truthy rootSpec then _ else _).
  assert (cs_activeSubcommand cs = []) as Ha.
  { unfold cs. destruct (truthy rootSpec); [|done]. unfold _autocompleteSpecForContext. destruct (drop 1 _); [done|].
    cbn [spec_for_tokens]. by rewrite bool_decide_true. }
  clearbody cs. destruct (negb _); [apply root_items_span|].
  destruct (_ && _). { apply Forall_examples. intros. apply spans_example. }
  unfold _buildUniqueSubcommandExampleAutocomplete. rewrite bool_decide_true by done.
  destruct (_contextClosedByTokenArity _ _); [done|]. unfold subcommand_examples. rewrite Ha. apply value_items_spans.
Qed.
Lemma pipe_spans (P : jsval → Prop) kn le ctx : (∀ item, word_spans ctx item → P item) →
  (truthy (get (table_get (_getAutocompleteRegistry kn le) (tc_commandRoot ctx)) (js "pipe_command")) = true →
   Forall P (_buildContextAutocomplete kn le ctx)) →
  Forall P (_buildPipeAutocomplete kn le ctx).
Proof.
  intros HP Hb. unfold _buildPipeAutocomplete. cbv zeta. destruct (negb (nonempty _)).
  { apply Forall_filterItems, Forall_map_all. intros. apply HP, word_item_spans. }
  destruct (negb (truthy (table_get _ _)) || _) eqn:E; [done|]. apply orb_false_iff in E as [_ E%negb_false_iff].
  specialize (Hb E). destruct (_ ==s _); [|done]. apply Forall_merge; [done|]. unfold getGrepOutputSuggestions.
  destruct (extractGrepOutputTokens _ _ _); [done|]. apply Forall_filterItems, Forall_map_all. intros. apply HP, spans_build.
Qed.
(** A variable replaces its part of the word. *)
Lemma variable_spans p ctx item : item ∈ getRuntimeAutocompleteItems p ctx →
  ∃ i, (i < length (tc_currentToken ctx))%nat ∧ spans (tc_tokenStart ctx + Z.of_nat i) (tc_tokenEnd ctx) item.
Proof.
  unfold getRuntimeAutocompleteItems. destruct (last_unit 36 _) as [i|] eqn:E; [|by intros ?%elem_of_nil].
  apply last_unit_Some in E as (u & v & -> & <- & _). destruct (_ && _); [by intros ?%elem_of_nil|]. intros Hi.
  exists (length u). split; [rewrite length_app; cbn; lia|]. revert item Hi. apply Forall_forall, Forall_filterItems, Forall_forall.
  intros item (variable & _ & Hi)%elem_of_flat_map. unfold variable_item in Hi. 
  repeat (case_match || case_bool_decide); try (by apply elem_of_nil in Hi); apply list_elem_of_singleton in Hi as ->; done.
Qed.

(** ** Lemmas: accepting an item *)

Lemma context_word t cursorPos offset :
  let ctx := tokenContextFromText (VStr t) cursorPos offset in
  ∃ a b, tc_tokenStart ctx = Z.of_nat a + offset ∧ tc_tokenEnd ctx = Z.of_nat b + offset
    ∧ (a ≤ clamp_cursor t cursorPos ≤ b)%nat ∧ (b ≤ length t)%nat ∧ no_ws (slice a b t)
    ∧ length (tc_currentToken ctx) = (b - a)%nat
    ∧ real_words ctx (tc_tokens ctx).
Proof.
  cbv zeta. destruct (text_tokens_ok t) as (Hok & _). unfold tokenContextFromText. rewrite str_of_VStr. cbv zeta.
  change (Z.to_nat _) with (clamp_cursor t cursorPos). set (cursor := clamp_cursor t cursorPos).
  assert (cursor ≤ length t)%nat as Hc by (unfold cursor, clamp_cursor; lia).
  unfold real_words. cbn [str_of tc_tokenStart tc_tokenEnd tc_currentToken tc_atWhitespace tc_cursor tc_tokens].
  assert (Forall (λ t : token, (tk_start t < tk_end t)%nat) (text_tokens t)) as Hne
    by (eapply Forall_impl; [exact Hok|]; intros x (Hb & _); lia).
  match goal with |- context [match findb ?p ?l with _ => _ end] => destruct (findb p l) as [w|] eqn:E end.
  - apply findb_Some in E as [Hw [H1%bool_decide_eq_true H2%bool_decide_eq_true]%andb_true_iff].
    destruct (proj1 (Forall_forall _ _) Hok _ Hw) as (Hb & Hv & Hws).
    exists (tk_start w), (tk_end w). rewrite Hv in *. split_and!; try done; try lia.
    unfold slice. rewrite length_take, length_drop. lia.
  - match goal with |- context [match findb ?p ?l with _ => _ end] => destruct (findb p l) as [w|] eqn:E' end.
    { apply findb_Some in E' as [Hw [H1%Nat.eqb_eq H2%Nat.eqb_eq]%andb_true_iff].
      destruct (proj1 (Forall_forall _ _) Hok _ Hw) as (Hb & _). lia. }
    exists cursor, cursor. split_and!; try done; try lia; unfold slice; rewrite Nat.sub_diag; [apply Forall_nil_2|done].
Qed.
Lemma slice_drop n a b s : slice a b (drop n s) = slice (a + n) (b + n) s.
Proof. unfold slice. rewrite drop_drop. f_equal; [lia|]. f_equal. lia. Qed.
(** The word of the whole line, and of the stage behind a pipe. *)
Lemma line_word text cursorPos :
  let ctx := tokenContextFromText (VStr text) cursorPos 0 in
  ∃ a b, tc_tokenStart ctx = Z.of_nat a ∧ tc_tokenEnd ctx = Z.of_nat b ∧ (a ≤ clamp_cursor text cursorPos ≤ b ≤ length text)%nat
    ∧ no_ws (slice a b text) ∧ length (tc_currentToken ctx) = (b - a)%nat
    ∧ real_words ctx (tc_tokens ctx).
Proof.
  destruct (context_word text cursorPos 0) as (a & b & Ha & Hb & H1 & H2 & H3 & H4 & H5).
  exists a, b. rewrite !Z.add_0_r in *. split_and!; try done; lia.
Qed.
Lemma stage_word kn le text cursorPos ctx : _autocompletePipeContext kn le text cursorPos = Some ctx →
  ∃ pipe a b, tc_tokenStart ctx = Z.of_nat a ∧ tc_tokenEnd ctx = Z.of_nat b ∧ text !! pipe = Some 124 ∧ (pipe < a)%nat
    ∧ (a ≤ clamp_cursor text cursorPos ≤ b ≤ length text)%nat ∧ no_ws (slice a b text) ∧ real_words ctx (tc_tokens ctx).
Proof.
  unfold _autocompletePipeContext. cbv zeta. set (cursor := clamp_cursor text cursorPos).
  assert (cursor ≤ length text)%nat as Hc by (unfold cursor, clamp_cursor; lia).
  destruct (index_of _ _); [|done]. destruct (_ <=? _)%nat; [done|]. destruct (_ || _); [done|].
  destruct (existsb _ _); [done|]. destruct (last_unit _ _) as [i|] eqn:E; [|done].
  apply last_unit_Some in E as (u & v & E & <- & _). intros Hctx. apply Some_inj in Hctx as <-. unfold slice in E. rewrite Nat.sub_0_r, drop_0 in E.
  assert (length u < cursor)%nat as Hi.
  { apply (f_equal length) in E. rewrite length_take, length_app in E. cbn in E. lia. }
  assert (text !! length u = Some 124) as Hp.
  { rewrite <-(lookup_take_lt text cursor) by done. rewrite E. apply list_lookup_middle. done. }
  unfold slice_from. remember (S (length u)) as off eqn:Hoff.
  destruct (context_word (drop off text) (Some (Z.of_nat cursor - Z.of_nat off)) (Z.of_nat off)) as (a & b & Ha & Hb & H1 & H2 & H3 & _ & H5).
  exists (length u), (a + off)%nat, (b + off)%nat. unfold clamp_cursor in H1. cbn [default] in H1. rewrite length_drop in *. unfold default, id in H1.
  rewrite <-slice_drop. rewrite Ha, Hb. split_and!; try done; lia.
Qed.

Lemma slice_bound_nat n s : (n ≤ length s)%nat → slice_bound (Z.of_nat n) s = n.
Proof. intros. unfold slice_bound. destruct (Z.ltb_spec (Z.of_nat n) 0); lia. Qed.
(** [insert] replaced the text from [a] to [b], and the caret is behind it. *)
Definition edited (text : jsstr) (a b : nat) (insert : jsstr) (c : composer) : Prop :=
  co_value c = take a text ++ insert ++ drop b text
  ∧ (Z.of_nat (length (co_value c)) < 2 ^ 53 → co_caret c = num_of_nat (a + length insert)).
(** No stage of a pipe has subcommands. *)
Definition plain_stages (registry : props) : Prop :=
  Forall (λ e, truthy (get (snd e) (js "pipe_command")) = true → subcommands_of (snd e) = []) registry.
Lemma plain_stage registry root : plain_stages registry →
  truthy (get (table_get registry root) (js "pipe_command")) = true → subcommands_of (table_get registry root) = [].
Proof.
  intros Hs. unfold table_get. destruct (own registry root) as [v|] eqn:E; cbn [default].
  - apply own_elem in E. exact (proj1 (Forall_forall _ _) Hs _ E).
  - unfold default, id, inherited. by repeat case_match.
Qed.
Lemma accept_spans item a b text pending c :
  spans (Z.of_nat a) (Z.of_nat b) item → (a ≤ b ≤ length text)%nat → Z.of_nat (length text) < 2 ^ 53 →
  acAccept pending item text = Some c → edited text a b (itemInsertText item) c.
Proof.
  intros (Ho & Ha & Hb) Hab Hl. unfold acAccept. destruct pending; [done|]. rewrite Ho, Ha, Hb. destruct (truthy _); [done|].
  unfold finite_of. cbn [to_number vint].
  assert (∀ n : nat, (n ≤ length text)%nat →
            is_finite (num_of_Z (Z.of_nat n)) = true ∧ bound_of (num_of_Z (Z.of_nat n)) text = n) as Hn.
  { intros n Hn. split; [apply is_finite_integer, is_integer_of_Z; lia|]. unfold bound_of.
    rewrite num_to_Z_of_Z by lia. by apply slice_bound_nat. }
  destruct (Hn a ltac:(lia)) as [Fa Ba], (Hn b ltac:(lia)) as [Fb Bb]. rewrite Fa, Fb. intros [= <-]. unfold edited, replaced. cbn [co_value co_caret].
  rewrite Ba, Bb. unfold slice, slice_from. rewrite Nat.sub_0_r, drop_0. split; [done|].
  rewrite !length_app, length_take, length_drop. intros Hc. unfold num_of_nat. rewrite nadd_of_Z by lia. f_equal. lia.
Qed.
Lemma shown_items_sub text token items item : item ∈ shown_items text token items → item ∈ items.
Proof. unfold shown_items. destruct items as [|x l]; [done|]. repeat (case_match; try done); by intros ?%elem_of_nil. Qed.
Lemma flat_items_sub kn value item : item ∈ _buildFlatAutocomplete kn value → item ∈ items_of (kn_suggestions kn).
Proof.
  unfold _buildFlatAutocomplete. destruct (negb _); [by intros ?%elem_of_nil|]. intros Hi.
  eapply elem_of_submseteq; [|apply filterItems_submseteq]. eapply elem_of_sublist; [exact Hi|apply sublist_take].
Qed.

(** The word at the cursor is one of the words. *)
Lemma current_token text cursorPos offset :
  let ctx := tokenContextFromText (VStr text) cursorPos offset in
  nonempty (tc_currentToken ctx) = true →
  ∃ t, t ∈ tc_tokens ctx ∧ tk_value t = tc_currentToken ctx ∧ tc_tokenStart ctx = Z.of_nat (tk_start t) + offset ∧ no_ws (tk_value t).
Proof.
  cbv zeta. unfold tokenContextFromText. cbv zeta. cbn [tc_currentToken tc_tokens tc_tokenStart].
  set (containing := match findb _ _ with Some t => Some t | None => _ end).
  assert (∀ t, containing = Some t → t ∈ text_tokens (str_of (VStr text))) as Hc.
  { intros t. unfold containing. destruct (findb _ _) as [w|] eqn:E; [intros [= <-]|intros E']; by eapply findb_Some. }
  destruct containing as [t|]; [|done]. intros _. exists t. specialize (Hc t eq_refl). split_and!; try done.
  by apply (proj1 (Forall_forall _ _) (proj1 (text_tokens_ok _)) _ Hc).
Qed.
Lemma flag_item_insert ctx flag s :
  get flag (js "value") = VStr s → no_ws s → nonempty s = true → itemInsertValue (flag_item ctx flag) = s.
Proof.
  intros Hv Hs Hne. unfold flag_item, word_item. rewrite Hv. destruct s as [|c s]; [done|].
  change (trim (c :: s) = c :: s). by apply trim_no_ws.
Qed.

(** ** Lemmas: the registry and the memory *)

Lemma own_spread_base o u k : is_Some (own o k) → is_Some (own (spread o u) k).
Proof.
  unfold spread. revert o. induction u as [|[k' v] u IH]; intros o Ho; cbn; [done|]. apply IH.
  destruct (decide (k' = k)) as [->|Hne]; [rewrite own_set_eq; by eexists|by rewrite own_set_ne].
Qed.
Lemma own_spread_over o u k : is_Some (own u k) → is_Some (own (spread o u) k).
Proof.
  unfold spread. revert o. induction u as [|[k' v] u IH]; intros o Hu; cbn; [by destruct Hu|].
  cbn in Hu. case_bool_decide as Hk; [|by apply IH]. subst k'. apply own_spread_base. rewrite own_set_eq. by eexists.
Qed.
(** What the page adds is never empty, so the registry never is. *)
Lemma registry_has_entries page le reg : _autocompleteRegistryHasEntries (registry_of page le reg) = true.
Proof.
  unfold _autocompleteRegistryHasEntries. apply bool_decide_eq_true_2.
  destruct (own_spread_over (spread [] reg) (getRuntimeAutocompleteContext page le reg) (js "type")) as [v Hv].
  { unfold getRuntimeAutocompleteContext, lookup_contexts. cbv zeta. unfold put_merged at 1. rewrite own_set_eq. by eexists. }
  intros Hk. apply (elem_of_nil (js "type")). rewrite <-Hk. apply elem_of_keys. by exists v.
Qed.

(** The values of one kind, as they are kept. *)
Definition kept_ok `{U : UrlApi} (e : jsstr * list jsstr) : Prop :=
  (length (snd e) ≤ RECENT_VALUE_LIMIT)%nat ∧ NoDup (snd e)
  ∧ Forall (λ v, v ≠ [] ∧ ∃ raw, v = rv_value (normalizeRecentValue (VStr (fst e)) raw)) (snd e).
Definition kept `{U : UrlApi} (r : recents) : Prop := map fst r = RECENT_VALUE_KINDS ∧ Forall kept_ok r.
Lemma normalize_known `{U : UrlApi} kind raw : kind ∈ RECENT_VALUE_KINDS → rv_kind (normalizeRecentValue (VStr kind) raw) = kind.
Proof.
  unfold RECENT_VALUE_KINDS. cbn [map]. rewrite !elem_of_cons, elem_of_nil. by intros [->|[->|[->|[->|[]]]]].
Qed.
Lemma Forall_push `{U : UrlApi} (P : recent_value → Prop) items :
  (∀ item, item ∈ items → P (normalizeRecentValue (if is_objectlike item then get item (js "kind") else VStr [])
                               (if is_objectlike item then get item (js "value") else VStr []))) →
  ∀ acc, Forall P acc → Forall P (fold_left push_recent items acc).
Proof.
  induction items as [|item items IH]; intros Hp acc Hacc; [done|]. cbn [fold_left]. apply IH; [by intros; apply Hp; right|].
  unfold push_recent. cbv zeta. set (n := normalizeRecentValue _ _). destruct (_ || _); [done|]. repeat (case_bool_decide; [done|]).
  apply Forall_app_2; [done|]. constructor; [|done]. apply Hp. by left.
Qed.
Lemma kept_kind `{U : UrlApi} valuesByKind kind : kind ∈ RECENT_VALUE_KINDS → kept_ok (normalized_kind valuesByKind kind).
Proof.
  intros Hk. unfold normalized_kind. set (items := VArr (map _ _)). set (l := normalizeRecentValueList items).
  assert (recents_ok l) as [Hnd Hlim Hok].
  { unfold l, normalizeRecentValueList. generalize (items_of items) as xs. intros xs.
    assert (∀ acc, recents_ok acc → recents_ok (fold_left push_recent xs acc)) as H.
    { induction xs as [|x xs IH]; intros acc Hacc; cbn; [done|]. by apply IH, push_recent_ok. }
    apply H. constructor; [constructor|intros; cbn; lia|constructor]. }
  assert (Forall (λ r, rv_kind r = kind ∧ ∃ raw, r = normalizeRecentValue (VStr kind) raw) l) as Hl.
  { unfold l, normalizeRecentValueList, items. cbn [items_of]. apply Forall_push; [|done]. intros item Hi.
    apply list_elem_of_In, in_map_iff in Hi as (v & <- & _).
    change (rv_kind (normalizeRecentValue (VStr kind) v) = kind ∧ ∃ raw, normalizeRecentValue (VStr kind) v = normalizeRecentValue (VStr kind) raw).
    split; [by apply normalize_known|by eexists]. }
  clearbody l. unfold kept_ok. cbn [fst snd]. split_and!.
  - rewrite length_take. lia.
  - eapply sublist_NoDup; [|apply sublist_take]. apply NoDup_fmap_2_strong; [|done]. intros [k1 v1] [k2 v2] H1 H2. cbn. intros ->.
    pose proof (proj1 (Forall_forall _ _) Hl _ H1) as [E1 _]. pose proof (proj1 (Forall_forall _ _) Hl _ H2) as [E2 _].
    cbn in E1, E2. by subst.
  - apply Forall_take, Forall_map, Forall_forall. intros r Hr. pose proof (proj1 (Forall_forall _ _) Hl _ Hr) as [_ [raw ->]].
    split; [apply (proj1 (Forall_forall _ _) Hok _ Hr)|by eexists].
Qed.
Lemma kept_set `{U : UrlApi} valuesByKind : kept (_setRecentValuesByKind valuesByKind).
Proof.
  split; [done|]. unfold _setRecentValuesByKind. apply Forall_map, Forall_forall. intros kind Hk. by apply kept_kind.
Qed.
Lemma remember_pending `{U : UrlApi} le page command skip m :
  me_pending (rememberRecentValuesFromCommand le page command skip m) = me_pending m.
Proof.
  unfold rememberRecentValuesFromCommand. cbv zeta. destruct (negb _); [done|]. destruct (values_in _ _) as [found|].
  - unfold _storeRecentValues. by case_bool_decide.
  - unfold registry_now. rewrite registry_has_entries. cbn [negb]. by rewrite andb_false_r.
Qed.
Lemma remember_kept `{U : UrlApi} le page command skip m : kept (me_recents m) →
  kept (me_recents (rememberRecentValuesFromCommand le page command skip m)).
Proof.
  intros Hm. unfold rememberRecentValuesFromCommand. cbv zeta. destruct (negb _); [done|]. destruct (values_in _ _) as [found|].
  - unfold _storeRecentValues. case_bool_decide; [done|]. cbn [me_recents]. apply kept_set.
  - unfold registry_now. rewrite registry_has_entries. cbn [negb]. by rewrite andb_false_r.
Qed.
Lemma process_idle `{U : UrlApi} le page m : me_pending m = [] → processPendingRecentValueCommands le page m = m.
Proof. intros H. unfold processPendingRecentValueCommands. by rewrite bool_decide_true. Qed.
Lemma with_values_kept `{U : UrlApi} data m : kept (me_recents m) → kept (me_recents (with_values data m)) ∧ me_pending (with_values data m) = me_pending m.
Proof. intros Hm. unfold with_values. destruct (_ && _); [split; [apply kept_set|done]|done]. Qed.
Lemma reachable_memory `{U : UrlApi} le m : memory_reachable le m → kept (me_recents m) ∧ me_pending m = [].
Proof.
  induction 1 as [|page e m Hm [Hk Hp]].
  - split; [|done]. split; [done|]. unfold memory_start, no_recents. cbn. repeat constructor; cbn; lia.
  - destruct e; cbn [memory_step].
    + by rewrite remember_pending; auto using remember_kept.
    + by rewrite process_idle.
    + destruct (with_values_kept data m Hk) as [Hv He]. rewrite process_idle by congruence. split; [done|congruence].
    + destruct (with_values_kept data m Hk) as [Hv He]. split; [done|congruence].
Qed.

(** ** Lemmas: the values of a command *)

(** What a word behind the first stands for: a name of a subcommand, the value
    of an option that has hints of its own, the value an option takes anyhow,
    an option that takes one, another option or word of the command, or else
    the next position. *)
Inductive role := Named | Triggered | Taken | Awaits | Flag | Positional.
#[export] Instance role_dec : EqDecision role.
Proof. solve_decision. Defined.
Section Roles.
Context (expects triggers concrete : list jsstr) (subTokens : list token).
Fixpoint roles (previous : jsstr) (owed : bool) (tokens : list token) : list role :=
  match tokens with
  | [] => []
  | t :: tokens =>
      let r := if negb (nonempty (tk_value t)) || existsb (same_place t) subTokens then Named
               else if bool_decide (previous ∈ triggers) then Triggered
               else if owed then Taken
               else if bool_decide (tk_value t ∈ expects) then Awaits
               else if starts_option (tk_value t) || bool_decide (lower (tk_value t) ∈ concrete) then Flag
               else Positional in
      r :: roles (tk_value t) (match r with Awaits => true | Named => owed | _ => false end) tokens
  end.
Definition positions (l : list role) : nat := length (filterb (λ r, bool_decide (r = Positional)) l).

(** A word the walk reports, with the word before it. *)
Lemma walk_word previous skip index tokens v :
  v ∈ walk_values expects triggers concrete subTokens previous skip index tokens →
  let rs := roles previous skip tokens in
  ∃ k t, tokens !! k = Some t ∧ (previous :: map tk_value tokens) !! k = Some (vs_previous v) ∧ vs_value v = tk_value t
    ∧ existsb (same_place t) subTokens = false
    ∧ (if vs_triggered v then rs !! k = Some Triggered ∧ vs_previous v ∈ triggers
       else rs !! k = Some Positional ∧ vs_index v = (index + positions (take k rs))%nat ∧ starts_option (tk_value t) = false).
Proof.
  revert previous skip index. induction tokens as [|t tokens IH]; intros previous skip index; cbn [walk_values]; [by intros ?%elem_of_nil|].
  cbv zeta. set (r := head (roles previous skip (t :: tokens))).
  assert (∀ s i, v ∈ walk_values expects triggers concrete subTokens (tk_value t) s i tokens →
    (∃ x, r = Some x ∧ s = match x with Awaits => true | Named => skip | _ => false end
          ∧ i = if bool_decide (x = Positional) then S index else index) →
    let rs := roles previous skip (t :: tokens) in
    ∃ k t', (t :: tokens) !! k = Some t' ∧ (previous :: map tk_value (t :: tokens)) !! k = Some (vs_previous v)
    ∧ vs_value v = tk_value t' ∧ existsb (same_place t') subTokens = false
    ∧ (if vs_triggered v then rs !! k = Some Triggered ∧ vs_previous v ∈ triggers
       else rs !! k = Some Positional ∧ vs_index v = (index + positions (take k rs))%nat ∧ starts_option (tk_value t') = false)) as Hnext.
  { intros s i Hv (x & Hx & -> & ->). destruct (IH _ _ _ Hv) as (k & t' & H1 & H2 & H3 & H4 & H5). exists (S k), t'.
    unfold r in Hx. cbn [roles head] in *. injection Hx as Hx. rewrite Hx in *. split_and!; try done.
    destruct (vs_triggered v); [done|]. destruct H5 as (H5 & H6 & H7). split_and!; [done| |done].
    unfold positions in *. cbn [take filterb List.filter]. rewrite H6. by destruct (bool_decide (x = Positional)); cbn; lia. }
  unfold r in Hnext. cbn [roles head] in *. destruct (_ || existsb _ _) eqn:E.
  { intros Hv. eapply Hnext; [exact Hv|]. by eexists. }
  apply orb_false_iff in E as [_ E]. case_bool_decide as Hp.
  { intros [->|Hv]%elem_of_cons; [exists 0%nat, t; cbn; by split_and!|]. eapply Hnext; [exact Hv|]. by eexists. }
  destruct skip; [intros Hv; eapply Hnext; [exact Hv|by eexists]|].
  case_bool_decide as He; [intros Hv; eapply Hnext; [exact Hv|by eexists]|].
  destruct (starts_option _ || _) eqn:Eo; [intros Hv; eapply Hnext; [exact Hv|by eexists]|].
  apply orb_false_iff in Eo as [Eo _].
  intros [->|Hv]%elem_of_cons; [exists 0%nat, t; cbn; unfold positions; cbn; by split_and!; try lia|].
  eapply Hnext; [exact Hv|]. by eexists.
Qed.
End Roles.
(** The roles of the words behind the first, by a specification. *)
Definition roles_of (spec : jsval) (subTokens tokens : list token) : list role :=
  roles (expects_of spec) (_argHintTriggersForRecentValues spec) (_concreteAutocompleteTokens spec) subTokens
    (from_option tk_value [] (head tokens)) false (drop 1 tokens).
Lemma walked_word spec cs tokens v :
  v ∈ _walkAutocompletePositionalValues spec cs true (_argHintTriggersForRecentValues spec) tokens →
  let rs := roles_of spec (cs_tokens cs) tokens in
  ∃ k prev t, tokens !! k = Some prev ∧ tokens !! S k = Some t ∧ vs_previous v = tk_value prev ∧ vs_value v = tk_value t
    ∧ existsb (same_place t) (cs_tokens cs) = false
    ∧ (if vs_triggered v then rs !! k = Some Triggered ∧ tk_value prev ∈ _argHintTriggersForRecentValues spec
       else rs !! k = Some Positional ∧ vs_index v = positions (take k rs) ∧ starts_option (tk_value t) = false).
Proof.
  unfold _walkAutocompletePositionalValues, walk_from_root, roles_of. destruct tokens as [|root tokens]; [by intros ?%elem_of_nil|].
  intros (k & t & H1 & H2 & H3 & H4 & H5)%walk_word. cbn [head from_option drop].
  change (tk_value root :: map tk_value tokens) with (tk_value <$> (root :: tokens)) in H2.
  rewrite list_lookup_fmap in H2. destruct ((root :: tokens) !! k) as [prev|] eqn:Ek; [|done]. injection H2 as H2.
  exists k, prev, t. rewrite H2. by split_and!.
Qed.
Lemma captured_typed `{U : UrlApi} hints word v : v ∈ captured hints word →
  ∃ hint type kind, hint ∈ hints ∧ type ∈ RECENT_VALUE_CAPTURE_TYPES ∧ _itemValueTypeIs hint type = true
    ∧ kind ∈ type_kinds type ∧ v = normalizeRecentValue (VStr kind) (VStr word) ∧ whole v = true.
Proof.
  unfold captured. destruct (findb _ _) as [w|] eqn:E; [|by intros ?%elem_of_nil]. intros ->%list_elem_of_singleton.
  apply findb_Some in E as [(type & <- & Ht%list_elem_of_In)%list_elem_of_In%in_map_iff Hw].
  unfold _hintRecentValueTypes in Ht. rewrite elem_of_dedup in Ht. apply elem_of_flat_map in Ht as (hint & Hh & [Hi Hc]%elem_of_filterb).
  unfold _recentValueKindForToken in *. destruct (findb _ _) as [v|] eqn:E; [|done]. cbn [default] in *.
  apply findb_Some in E as [(kind & <- & Hk%list_elem_of_In)%list_elem_of_In%in_map_iff _].
  exists hint, type, kind. by split_and!.
Qed.
(** The slots values are taken from have a typed hint and none for a file. *)
Lemma trigger_capturable spec trigger : trigger ∈ _argHintTriggersForRecentValues spec →
  _recentValueHintsCapturable (items_of (_argHintsForTrigger (arg_hints_of spec) trigger)) = true.
Proof.
  unfold _argHintTriggersForRecentValues. rewrite elem_of_dedup. intros [H _]%elem_of_filterb. apply andb_true_iff in H as [_ H].
  unfold _recentValueTriggerCapturable in H. destruct (negb _); [done|]. by case_bool_decide.
Qed.
Lemma trigger_no_file spec trigger : trigger ∈ _argHintTriggersForRecentValues spec →
  trigger ∉ map str_of (items_of (get spec (js "workspace_file_flags"))).
Proof.
  unfold _argHintTriggersForRecentValues. rewrite elem_of_dedup. intros [[Hn H]%andb_true_iff _]%elem_of_filterb.
  unfold _recentValueTriggerCapturable in H. rewrite Hn in H. case_bool_decide as Hin; [done|]. intros Hm. apply Hin.
  by apply elem_of_filterb.
Qed.
Lemma slot_capturable spec i : default false (_positionalHintSlotsForRecentValues spec !! i) = true →
  _recentValueHintsCapturable (_positionalHintsForSlot spec i) = true.
Proof.
  unfold _positionalHintSlotsForRecentValues. cbv zeta. rewrite list_lookup_fmap. destruct (seq _ _ !! i) as [j|] eqn:E; [|done].
  apply lookup_seq in E as [-> _].
  change (existsb (λ slots, default false (slots !! i)) (map (type_slots spec) RECENT_VALUE_CAPTURE_TYPES) = true →
          _recentValueHintsCapturable (_positionalHintsForSlot spec i) = true).
  rewrite existsb_exists. intros (slots & (type & <- & _)%in_map_iff & H).
  unfold type_slots in H. rewrite list_lookup_imap in H. destruct (_ !! i) as [slot|]; [|done]. cbn in H.
  by apply andb_true_iff in H as [_ H].
Qed.

(** ** Properties *)


(** C12: Only values the command asks for are remembered. Each value kept of a
    command line is one of its words behind the first and no name of a
    subcommand. Either the word just before it has hints of its own from which
    values are kept and takes no workspace file, and the hints are those; or the word stands for a position, and the hints are those of that
    position: counting from the first, the words that are no name of a
    subcommand, no option or word of the command and no value of an option.
    One of the hints has one of the six value types and none looks like a file;
    the word is kept in the normal form of a kind of that type. *)
Theorem remembered_values_are_typed `{U : UrlApi} registry text found v :
  values_in registry text = Some found → v ∈ found →
  let ctx := tokenContextFromText (VStr text) (Some (Z.of_nat (length text))) 0 in
  let contextSpec := _autocompleteSpecForContext ctx (table_get registry (tc_commandRoot ctx)) in
  let spec := cs_spec contextSpec in
  let rs := roles_of spec (cs_tokens contextSpec) (text_tokens text) in
  ∃ k prev t hints, text_tokens text !! k = Some prev ∧ text_tokens text !! S k = Some t
    ∧ existsb (same_place t) (cs_tokens contextSpec) = false
    ∧ (rs !! k = Some Triggered ∧ hints = items_of (_argHintsForTrigger (arg_hints_of spec) (tk_value prev))
         ∧ tk_value prev ∉ map str_of (items_of (get spec (js "workspace_file_flags")))
       ∨ rs !! k = Some Positional ∧ hints = _positionalHintsForSlot spec (positions (take k rs))
         ∧ starts_option (tk_value t) = false)
    ∧ Forall (λ hint, _hintLooksLikeFileInput hint = false) hints
    ∧ ∃ hint type kind, hint ∈ hints ∧ type ∈ RECENT_VALUE_CAPTURE_TYPES ∧ _itemValueTypeIs hint type = true
        ∧ kind ∈ type_kinds type ∧ v = normalizeRecentValue (VStr kind) (VStr (tk_value t)) ∧ whole v = true.
Proof.
  unfold values_in. cbv zeta. set (ctx := tokenContextFromText _ _ _). intros Hfound Hv.
  destruct (nonempty (tc_commandRoot ctx)); [|done]. destruct (negb (truthy _)); [done|]. injection Hfound as <-.
  set (cs := _autocompleteSpecForContext ctx _) in *. set (spec := cs_spec cs) in *.
  destruct (negb (truthy spec)); [by apply elem_of_nil in Hv|].
  unfold _collectRecentValuesFromPositionalValues in Hv. apply elem_of_flat_map in Hv as (vis & Hvis & Hv).
  assert (text_tokens text = tc_tokens ctx) as -> by (unfold ctx, tokenContextFromText; cbv zeta; by rewrite str_of_VStr).
  apply walked_word in Hvis as (k & prev & t & Hprev & Ht & Hpv & Hval & Hsub & Hcase). unfold collect_visit in Hv. rewrite Hval, Hpv in Hv.
  destruct (vs_triggered vis || _) eqn:Ec; [|by apply elem_of_nil in Hv].
  set (hints := if vs_triggered vis then _ else _) in Hv. exists k, prev, t, hints.
  assert (_recentValueHintsCapturable hints = true) as Hcap.
  { unfold hints. destruct (vs_triggered vis); [apply trigger_capturable, Hcase|by apply slot_capturable]. }
  split_and!; [done|done|done| | |by apply captured_typed].
  - unfold hints. destruct (vs_triggered vis); [left|right].
    + destruct Hcase as [Hr Hin]. split_and!; [done|done|]. by apply trigger_no_file.
    + destruct Hcase as (Hr & -> & Ho). by split_and!.
  - unfold _recentValueHintsCapturable in Hcap. apply andb_true_iff in Hcap as [_ Hcap%negb_true_iff].
    apply Forall_forall. intros hint Hh. destruct (_hintLooksLikeFileInput hint) eqn:E; [|done].
    assert (existsb _hintLooksLikeFileInput hints = true) as H by (apply existsb_exists; exists hint; by rewrite <-list_elem_of_In).
    congruence.
Qed.

(** What is kept stays in bounds. In every memory the page can reach, from
    commands, catalogs and answers of the server, the four kinds are kept in
    their order, each with ten values at most, none twice and none empty, and
    every value in the normal form of its kind. *)
Theorem recent_values_bounded `{U : UrlApi} locale_le m :
  memory_reachable locale_le m →
  map fst (me_recents m) = RECENT_VALUE_KINDS
  ∧ Forall (λ e, (length (snd e) ≤ RECENT_VALUE_LIMIT)%nat ∧ NoDup (snd e)
                 ∧ Forall (λ v, v ≠ [] ∧ ∃ raw, v = rv_value (normalizeRecentValue (VStr (fst e)) raw)) (snd e)) (me_recents m).
Proof. intros [Hk _]%reachable_memory. exact Hk. Qed.

(** C13: A command typed before the catalog has come is forgotten. It should wait
    until the catalog is there; but what the page itself adds makes the registry
    non-empty at once, so in every memory the page can reach no command waits,
    a command that names nothing in the registry changes nothing, and the coming
    of a catalog brings no value. *)
Theorem early_commands_forgotten `{U : UrlApi} locale_le m :
  memory_reachable locale_le m →
  me_pending m = []
  ∧ (∀ page command, values_in (registry_of page locale_le (me_registry m)) (trim command) = None →
       memory_step locale_le page (Remember command) m = m)
  ∧ ∀ page context, memory_step locale_le page (CatalogCame context) m
                    = Memory (me_recents m) [] (props_of context) (me_posted m).
Proof.
  intros [_ Hp]%reachable_memory. split; [done|]. split.
  - intros page command Hv. cbn [memory_step]. unfold rememberRecentValuesFromCommand, registry_now. cbv zeta.
    destruct (negb (nonempty _)); [done|]. rewrite Hv, registry_has_entries. done.
  - intros page context. cbn [memory_step]. by rewrite process_idle, Hp by done.
Qed.

(** In a pipe stage an option typed in full is no longer offered. On a line of
    its own it is, as long as it is not on the line a second time; but the words
    of a stage are counted from the stage and the word at the cursor from the
    line, so there the word typed itself counts as used. *)
Theorem stage_option_not_offered text cursorPos offset spec flag :
  let ctx := tokenContextFromText (VStr text) cursorPos offset in
  let typed := tc_currentToken ctx in
  0 ≤ offset → starts_option typed = true →
  flag ∈ flags_of spec → get flag (js "value") = VStr typed →
  (∀ t, t ∈ tc_tokens ctx → tk_value t = typed → Z.of_nat (tk_start t) + offset = tc_tokenStart ctx) →
  flag_item ctx flag ∈ offered_flags ctx spec ↔ offset = 0.
Proof.
  intros ctx typed Hoff Ho Hf Hv Honce.
  assert (text_at "value" flag = typed) as Htext by (unfold text_at; by rewrite Hv, str_of_VStr).
  assert (nonempty typed = true) as Hne by (by destruct typed).
  destruct (current_token text cursorPos offset Hne) as (t & Ht & Hval & Hstart & Hws). fold ctx in Ht, Hval, Hstart. fold typed in Hval.
  split.
  - intros Hi. destruct (decide (offset = 0)) as [|Hpos]; [done|]. exfalso.
    unfold offered_flags, _filterFlagItems in Hi. fold typed in Hi. rewrite Hne in Hi. apply elem_of_filterb in Hi as [_ Hi].
    apply list_elem_of_In, in_map_iff in Hi as (flag' & Heq & [Hu _]%list_elem_of_In%elem_of_filterb).
    assert (get flag' (js "value") = VStr typed) as Hv'.
    { change (get (flag_item ctx flag') (js "value") = VStr typed). rewrite Heq. exact Hv. }
    apply negb_true_iff, bool_decide_eq_false in Hu. apply Hu. unfold text_at. rewrite Hv', str_of_VStr. rewrite <-Hval.
    apply elem_of_filterb. rewrite Hval. split; [done|]. apply list_elem_of_In, in_map_iff. exists t. split; [done|].
    apply list_elem_of_In, elem_of_filterb. split; [|done]. apply negb_true_iff, Z.eqb_neq. lia.
  - intros ->. unfold offered_flags, _filterFlagItems. fold typed. rewrite Hne. apply elem_of_filterb. split.
    + rewrite (flag_item_insert ctx flag typed Hv); [apply starts_with_refl|by rewrite <-Hval|done].
    + apply list_elem_of_In, in_map_iff. exists flag. split; [done|]. apply list_elem_of_In, elem_of_filterb. split; [|done].
      apply negb_true_iff, bool_decide_eq_false_2. rewrite Htext. unfold used_flags.
      intros [_ (t' & Hval' & Ht')%list_elem_of_In%in_map_iff]%elem_of_filterb.
      apply list_elem_of_In, elem_of_filterb in Ht' as [Hne' Ht']. apply negb_true_iff, Z.eqb_neq in Hne'.
      specialize (Honce t' Ht' Hval'). lia.
Qed.

(** ** Witnesses *)

Definition demo_flag (value : string) : jsval := obj [("value"%string, vstr value); ("description"%string, vstr "An option.")].
Definition demo_catalog : props :=
  [(js "nmap", obj [("flags"%string, VArr [demo_flag "-sV"; demo_flag "-Pn"]);
                    ("arg_hints"%string, obj [("__positional__"%string,
                       VArr [obj [("value"%string, vstr "<target>"); ("value_type"%string, vstr "host")]])])]);
   (js "grep", obj [("pipe_command"%string, VBool true); ("flags"%string, VArr [demo_flag "-i"; demo_flag "-v"])])].
Definition demo_knowledge : knowledge := Knowledge demo_catalog (VArr []) demo_page [] [] no_recents false.
Definition inserted (items : list jsval) : list jsstr := map itemInsertValue items.

(** The option typed in full stays offered on a line of its own, and vanishes in
    a stage. *)
Example example_stage_option :
  inserted (getAutocompleteMatches demo_knowledge units_leb (js "grep -i") (Some 7)) = [js "-i"]
  ∧ inserted (getAutocompleteMatches demo_knowledge units_leb (js "nmap x | grep -") (Some 15)) = [js "-i"; js "-v"]
  ∧ inserted (getAutocompleteMatches demo_knowledge units_leb (js "nmap x | grep -i") (Some 16)) = [].
Proof. by vm_compute. Qed.

(** An example of a subcommand in a stage takes the whole line. *)
Definition staged_catalog : props :=
  [(js "cut", obj [("pipe_command"%string, VBool true);
     ("subcommands"%string, obj [("cut"%string, obj [("examples"%string, VArr [obj [("value"%string, vstr "cut cut -f 1")]])])])])].
Example example_stage_wiped :
  let kn := Knowledge staged_catalog (VArr []) demo_page [] [] no_recents false in
  map (λ item, co_value <$> acAccept false item (js "xx |cut cut")) (getAutocompleteMatches kn units_leb (js "xx |cut cut") (Some 6))
  = [Some (js "cut cut -f 1 cut")].
Proof. by vm_compute. Qed.

Lemma stage_option_not_offered_witness :
  let ctx := tokenContextFromText (VStr (js " grep -i")) (Some 8) 8 in
  ¬ flag_item ctx (demo_flag "-i") ∈ offered_flags ctx (table_get demo_catalog (js "grep")).
Proof.
  intros ctx H.
  eapply (stage_option_not_offered (js " grep -i") (Some 8) 8 (table_get demo_catalog (js "grep")) (demo_flag "-i")) in H; try done.
  - apply (list_elem_of_lookup_2 _ 0). by vm_compute.
  - intros t Ht Hv. change (tc_tokens _) with [Token (js "grep") 1 5; Token (js "-i") 6 8] in Ht.
    rewrite !elem_of_cons, elem_of_nil in Ht. by destruct Ht as [->|[->|[]]].
Defined.

(** Two orders of the same events: the host is remembered only after the catalog. *)
Definition typed_then_loaded : list memory_event := [Remember (js "nmap a.darklab.sh"); CatalogCame (VObj demo_catalog)].
Definition run_memory `{U : UrlApi} (events : list memory_event) : memory :=
  fold_left (λ m e, memory_step units_leb demo_page e m) events memory_start.
Definition demo_memory : memory := run_memory (U := plain_url_api) (reverse typed_then_loaded).
Lemma demo_memory_reachable : memory_reachable (U := plain_url_api) units_leb demo_memory.
Proof. do 2 apply memory_next. apply memory_first. Qed.
Example example_early_command :
  map snd (me_recents (run_memory (U := plain_url_api) typed_then_loaded)) = [[]; []; []; []]
  ∧ map snd (me_recents demo_memory) = [[js "a.darklab.sh"]; []; []; []].
Proof. by vm_compute. Qed.
Lemma early_commands_forgotten_witness :
  let m := run_memory (U := plain_url_api) [] in
  memory_step (U := plain_url_api) units_leb demo_page (Remember (js "nmap a.darklab.sh")) m = m
  ∧ me_pending m = [].
Proof.
  intros m. destruct (early_commands_forgotten (U := plain_url_api) units_leb m) as (H1 & H2 & _); [apply memory_first|].
  split; [|exact H1]. apply H2. by vm_compute.
Defined.
Lemma recent_values_bounded_witness :
  map fst (me_recents demo_memory) = RECENT_VALUE_KINDS
  ∧ Forall (λ e, (length (snd e) ≤ RECENT_VALUE_LIMIT)%nat) (me_recents demo_memory) ∧ me_recents demo_memory ≠ no_recents.
Proof.
  destruct (recent_values_bounded (U := plain_url_api) units_leb demo_memory demo_memory_reachable) as (H1 & H2).
  split; [exact H1|]. split; [|by vm_compute]. eapply Forall_impl; [exact H2|]. by intros e [H _].
Defined.
Lemma remembered_values_are_typed_witness :
  let v := RecentValue (js "domain") (js "a.darklab.sh") in
  ∃ k t, text_tokens (js "nmap -sV a.darklab.sh") !! S k = Some t
    ∧ ∃ kind, v = normalizeRecentValue (U := plain_url_api) (VStr kind) (VStr (tk_value t)) ∧ whole v = true.
Proof.
  intros v.
  destruct (remembered_values_are_typed (U := plain_url_api) demo_catalog (js "nmap -sV a.darklab.sh") [v] v)
    as (k & prev & t & hints & _ & Ht & _ & _ & _ & hint & type & kind & _ & _ & _ & _ & Hv & Hw); [by vm_compute|left|].
  exists k, t. split; [exact Ht|]. by exists kind.
Defined.
