(* ===== verification/HistoryMutations.v ===== *)
(** Deleting from the history
    (app/static/js/features/history/history_mutations.js), with the starred
    commands and the reload of app/static/js/features/history/history_actions.js
    and the labels of app/static/js/ui/cleanup_reasons.js: the questions that ask
    before something is deleted, the requests sent, and what the page forgets. *)

From S2P Require Import Prelude JsString JsNumber JsValue HistoryCore HistoryRecall.

(** ** Definitions: the clean-up a deletion offers *)

Definition text_or_empty (v : jsval) : jsstr := trim (str_of v).
Definition cleanupNumber (value : jsval) : num := num_max num_zero (to_number (js_or value (vint 0))).
Definition cleanupBucket (summary : jsval) (bucket : string) : props := props_of (get (get summary (js "buckets")) (js bucket)).
Definition cleanupBucketHasKind (summary : jsval) (bucket kind : string) : bool := has_own (cleanupBucket summary bucket) (js kind).
Definition cleanupBucketHasCounts (summary : jsval) (bucket : string) : bool :=
  cleanupBucketHasKind summary bucket "entities" || cleanupBucketHasKind summary bucket "findings".
Definition cleanupBucketCountOrFallback (summary : jsval) (bucket kind : string) (fallback : jsval) : num :=
  cleanupNumber (default fallback (own (cleanupBucket summary bucket) (js kind))).
Definition cleanupReasonLabels (summary : jsval) (bucket : string) : list jsstr :=
  dedup (filterb nonempty (map (λ reason, text_or_empty (get reason (js "label")))
    (filterb (λ reason, (str_of (get reason (js "bucket")) ==s js bucket) && nltb num_zero (cleanupNumber (get reason (js "total"))))
       (items_of (get summary (js "reasons")))))).
Definition cleanupReasonSentence (summary : jsval) (bucket : string) (fallback : jsstr) : jsstr :=
  match cleanupReasonLabels summary bucket with
  | [] => fallback
  | [label] => js "Reason: " ++ label ++ js "."
  | labels => js "Reasons: " ++ join (js ", ") (take 4 labels)
              ++ (if (4 <? length labels)%nat then js ", and more" else []) ++ js "."
  end.
Record item_count := ItemCount { ic_entities : num; ic_findings : num }.
Definition ic_total (c : item_count) : num := nadd (ic_entities c) (ic_findings c).
Definition cleanupItemCount (summary : jsval) (bucket : string) (fallbackEntities fallbackFindings : jsval) : item_count :=
  ItemCount (cleanupBucketCountOrFallback summary bucket "entities" fallbackEntities)
            (cleanupBucketCountOrFallback summary bucket "findings" fallbackFindings).

(** [Number.prototype.toLocaleString]. *)
Section Locale.
Context (to_locale : num → jsstr).

Definition cleanupCountLabel (count : num) (singular plural : string) : jsstr :=
  let numeric := cleanupNumber (VNum count) in
  to_locale numeric ++ js " " ++ (if neqb numeric (num_of_Z 1) then js singular else js plural).
Definition cleanup_part (count : num) (singular plural : string) (includeZero kept : bool) : list jsstr :=
  if includeZero || nltb num_zero count then
    [cleanupCountLabel count singular plural ++ (if kept && nltb num_zero count then js " kept by default" else [])]
  else [].
Definition cleanupItemsLabel (c : item_count) (includeZero kept : bool) : jsstr :=
  join (js " and ") (cleanup_part (ic_findings c) "finding" "findings" includeZero kept
                     ++ cleanup_part (ic_entities c) "entity" "entities" includeZero kept).

Record cleanup_copy := CleanupCopy {
  cc_hasDisposable : bool; cc_hasKept : bool; cc_disposableLabel : jsstr; cc_disposableNote : jsstr;
  cc_keptLabel : jsstr; cc_keptNote : jsstr; cc_notEligibleNote : jsstr }.
Definition sentences (l : list jsstr) : jsstr := join (js " ") (filterb nonempty l).
Definition atlasRunCleanupCopy (cleanup : jsval) : cleanup_copy :=
  let summary := js_or (get cleanup (js "cleanup_reasons")) (VObj []) in
  let disposable := cleanupItemCount summary "disposable" (get cleanup (js "entities")) (get cleanup (js "findings")) in
  let kept := cleanupItemCount summary "kept_by_default" (get cleanup (js "curated_entities")) (get cleanup (js "curated_findings")) in
  let notEligible := cleanupItemCount summary "not_eligible" VUndef VUndef in
  let some c := nltb num_zero (ic_total c) in
  CleanupCopy
    (if cleanupBucketHasCounts summary "disposable" then some disposable else truthy (get cleanup (js "has_cleanup")) || some disposable)
    (if cleanupBucketHasCounts summary "kept_by_default" then some kept
     else nltb num_zero (cleanupNumber (get cleanup (js "curated_total"))) || some kept)
    (js "Also remove " ++ cleanupItemsLabel disposable true false ++ js " from Atlas")
    (sentences [js "These are disposable Atlas items only sourced by this run."; cleanupReasonSentence summary "disposable" []])
    (js "Also delete single-source Atlas items kept by default")
    (sentences [cleanupItemsLabel kept true true ++ js " will be kept unless this is checked.";
                cleanupReasonSentence summary "kept_by_default"
                  (js "Kept by default because they are Project-linked, reviewed, labeled, or noted.")])
    (if some notEligible
     then sentences [cleanupItemsLabel notEligible false false ++ js " not eligible for this cleanup.";
                     cleanupReasonSentence summary "not_eligible" []]
     else []).

(** ** Definitions: the state *)

(** [pendingHistAction]. *)
Record hist_action := HistAction {
  ha_type : jsstr; ha_id : jsval; ha_command : option jsstr; ha_itemType : jsstr;
  ha_context : option delete_context; ha_pruneAtlas : bool; ha_pruneCurated : bool }.
(** The counts of a preview: all the runs, and those not starred. *)
Record preview := Preview { pv_totalCount : num; pv_nonStarredCount : num }.
(** The boxes of the dialog: for the disposable items, and for the kept ones. *)
Record boxes := Boxes { bx_disposable : bool; bx_kept : bool }.
(** What a dialog shows, and what asked for it. *)
Record question := Question {
  qu_asked : hist_action; qu_text : jsstr; qu_note : jsstr; qu_content : option boxes; qu_actions : list jsstr }.
(** The one dialog of the page: another part of it may have it open. *)
Inductive confirm := NoConfirm | OtherConfirm | OurConfirm (q : question).

Inductive request :=
  | GetCleanup (id : jsstr)                               (* /history/ID/atlas-cleanup-preview *)
  | GetPreview (url : jsstr)
  | DeleteSnapshot (id : jsstr)                           (* DELETE /share/ID *)
  | DeleteRun (id : jsstr) (prune_atlas prune_curated_atlas : bool)   (* DELETE /history/ID *)
  | ClearHistory (deleteUrl : jsstr) (exclude_starred : bool)         (* DELETE of the address *)
  | AddStar (command : jsstr)                             (* POST /session/starred *)
  | DropStar (command : jsstr)                            (* DELETE /session/starred *)
  | DropStars
  | GetStarred
  | GetCommands (limit : num).                            (* /history/commands *)
(** A request that was sent and what follows its answer. *)
Inductive job :=
  | LoadingCleanup (a : hist_action)
  | LoadingPreview (a : hist_action) (c : delete_context)
  | DeletingItem (itemType : jsstr) (command : option jsstr)
  | Clearing (action : jsstr) (filtered : bool)
  | LoadingStarred (next : option (jsstr * bool))
  | LoadingCommands (next : option (jsstr * bool)).
(** What the rest of the page is told. *)
Inductive notice :=
  | Toast (message : jsstr) (error : bool)
  | RenderHistory
  | RefreshPanel                          (* refreshHistoryPanel of history.js *)
  | RefreshGlobal                         (* window.refreshHistoryPanel, if the page has one *)
  | HistoryMutated (action : jsstr) (filtered : bool)
  | Uncaught (message : jsstr).
(** An answer: none, or its success and its JSON, if it is JSON. *)
Inductive reply := Lost | Reply (ok : bool) (data : option jsval).

Record hist_state := HistState {
  hs_pending : option hist_action;
  hs_starred : option (list jsstr);       (* _starredCache *)
  hs_recall : recall;                     (* cmdHistory and recentPreviewHistory *)
  hs_confirm : confirm;
  hs_jobs : list (nat * job);
  hs_next : nat;
  hs_sent : list request;
  hs_told : list notice;
  hs_panelOpen : bool
}.
Definition with_pending (p : option hist_action) (s : hist_state) : hist_state :=
  HistState p (hs_starred s) (hs_recall s) (hs_confirm s) (hs_jobs s) (hs_next s) (hs_sent s) (hs_told s) (hs_panelOpen s).
Definition with_starred (l : option (list jsstr)) (s : hist_state) : hist_state :=
  HistState (hs_pending s) l (hs_recall s) (hs_confirm s) (hs_jobs s) (hs_next s) (hs_sent s) (hs_told s) (hs_panelOpen s).
Definition with_recall (r : recall) (s : hist_state) : hist_state :=
  HistState (hs_pending s) (hs_starred s) r (hs_confirm s) (hs_jobs s) (hs_next s) (hs_sent s) (hs_told s) (hs_panelOpen s).
Definition with_confirm (c : confirm) (s : hist_state) : hist_state :=
  HistState (hs_pending s) (hs_starred s) (hs_recall s) c (hs_jobs s) (hs_next s) (hs_sent s) (hs_told s) (hs_panelOpen s).
Definition with_jobs (l : list (nat * job)) (s : hist_state) : hist_state :=
  HistState (hs_pending s) (hs_starred s) (hs_recall s) (hs_confirm s) l (hs_next s) (hs_sent s) (hs_told s) (hs_panelOpen s).
Definition tell (n : notice) (s : hist_state) : hist_state :=
  HistState (hs_pending s) (hs_starred s) (hs_recall s) (hs_confirm s) (hs_jobs s) (hs_next s) (hs_sent s) (hs_told s ++ [n]) (hs_panelOpen s).
(** A request whose answer is not waited for, and one whose answer is. *)
Definition post (r : request) (s : hist_state) : hist_state :=
  HistState (hs_pending s) (hs_starred s) (hs_recall s) (hs_confirm s) (hs_jobs s) (hs_next s) (hs_sent s ++ [r]) (hs_told s) (hs_panelOpen s).
Definition send (r : request) (j : job) (s : hist_state) : hist_state :=
  HistState (hs_pending s) (hs_starred s) (hs_recall s) (hs_confirm s) (hs_jobs s ++ [(hs_next s, j)]) (S (hs_next s))
    (hs_sent s ++ [r]) (hs_told s) (hs_panelOpen s).

(** ** Definitions: stars and the reload *)

Context (config : jsval).
Definition _getStarred (s : hist_state) : list jsstr := default [] (hs_starred s).
Definition _saveStarred (l : list jsstr) : hist_state → hist_state := with_starred (Some l).
Definition _toggleStar (cmd : jsstr) (s : hist_state) : hist_state :=
  let stars := _getStarred s in
  if bool_decide (cmd ∈ stars) then post (DropStar cmd) (_saveStarred (filterb (λ c, negb (c ==s cmd)) stars) s)
  else post (AddStar cmd) (_saveStarred (stars ++ [cmd]) s).
Definition loadStarredFromServer (next : option (jsstr * bool)) : hist_state → hist_state := send GetStarred (LoadingStarred next).
Definition reloadSessionHistory (next : option (jsstr * bool)) : hist_state → hist_state := loadStarredFromServer next.
Definition load_commands (next : option (jsstr * bool)) : hist_state → hist_state :=
  send (GetCommands (num_max (num_of_Z 1) (num_or (get config (js "recent_commands_limit")) 50))) (LoadingCommands next).
(** [commands] is an array of strings, when it is there. *)
Definition starred_answer (next : option (jsstr * bool)) (r : reply) (s : hist_state) : hist_state :=
  load_commands next
    match r with
    | Reply true (Some ((VObj _ | VArr _ | VStr _ | VNum _ | VBool _) as data)) =>
        match js_or (get data (js "commands")) (VArr []) with
        | VArr commands => with_starred (Some (dedup (map to_string commands))) s
        | _ => s
        end
    | _ => s
    end.
Definition commands_answer (next : option (jsstr * bool)) (r : reply) (s : hist_state) : hist_state :=
  let s := match r with
           | Reply true (Some ((VObj _ | VArr _ | VStr _ | VNum _ | VBool _) as data)) =>
               with_recall (hydrateCmdHistory config (js_or (get data (js "runs")) (VArr [])) false (hs_recall s)) s
           | _ => s
           end in
  let s := if hs_panelOpen s then tell RefreshGlobal s else s in
  match next with Some (action, filtered) => tell (HistoryMutated action filtered) s | None => s end.

(** ** Definitions: asking *)

Definition _historyScopeDeniedMessage (action : string) : jsstr :=
  js "View-only team members can't " ++ js action ++ js ". Switch to Personal or ask for operator access.".
Definition _historyShowPermissionDenied (action : string) : hist_state → hist_state :=
  tell (Toast (_historyScopeDeniedMessage action) true).
Definition _historyMutationError (data : option jsval) (fallback : string) : jsstr :=
  let message := match data with Some d => get d (js "message") | None => VUndef end in
  let error := match data with Some d => get d (js "error") | None => VUndef end in
  if is_str error (js "team_forbidden") then _historyScopeDeniedMessage "delete team history"
  else match message, error with
       | VStr m, _ => if nonempty (trim m) then trim m
                      else match error with VStr e => if nonempty (trim e) then trim e else js fallback | _ => js fallback end
       | _, VStr e => if nonempty (trim e) then trim e else js fallback
       | _, _ => js fallback
       end.
Definition _buildHistoryAtlasCleanupContent (cleanup : jsval) : option boxes :=
  let copy := atlasRunCleanupCopy cleanup in
  if negb (cc_hasDisposable copy) && negb (cc_hasKept copy) && negb (nonempty (cc_notEligibleNote copy)) then None
  else Some (Boxes (cc_hasDisposable copy) (cc_hasKept copy)).
(** [null] unless the answer is a success. *)
Definition _loadHistoryAtlasCleanup (r : reply) : jsval :=
  match r with Reply true data => js_or (get (default (VObj []) data) (js "cleanup")) VNull | _ => VNull end.
Definition _loadHistoryDeletePreview (data : option jsval) : preview :=
  let count k := num_max num_zero (num_or (get (default (VObj []) data) (js k)) 0) in
  Preview (count "total_count") (count "non_starred_count").
Definition _historyDeleteCountLabel (count : num) : jsstr :=
  let total := num_max num_zero (num_or (VNum count) 0) in
  to_locale total ++ js " " ++ (if neqb total (num_of_Z 1) then js "run" else js "runs").

Definition is_bulk (a : hist_action) : bool := ha_type a ==s js "clear".
Definition filtered_of (a : hist_action) : bool := match ha_context a with Some c => dc_filtered c | None => false end.
Definition run_delete (a : hist_action) : bool :=
  (ha_type a ==s js "delete") && negb (ha_itemType a ==s js "snapshot") && truthy (ha_id a).
Definition buildBody (a : hist_action) (cleanup : jsval) (p : option preview) : jsstr * jsstr :=
  if is_bulk a then
    let label := _historyDeleteCountLabel (match p with Some p => pv_totalCount p | None => num_zero end) in
    (if filtered_of a then js "Delete " ++ label ++ js " matching the current filters?" else js "Delete all " ++ label ++ js "?",
     js "This cannot be undone.")
  else if ha_itemType a ==s js "snapshot" then (js "Remove this snapshot from history?", js "This cannot be undone.")
  else (js "Remove this run from history?",
        if truthy (get cleanup (js "has_cleanup")) then js "The run transcript will be removed. Atlas cleanup is optional."
        else js "This cannot be undone.").
Definition question_of (a : hist_action) (cleanup : jsval) (p : option preview) : question :=
  Question a (fst (buildBody a cleanup p)) (snd (buildBody a cleanup p))
    (if run_delete a then _buildHistoryAtlasCleanupContent cleanup else None)
    (if is_bulk a then [js "cancel"] ++ (match p with
                                        | Some p => if nltb num_zero (pv_nonStarredCount p) then [js "nonfav"] else []
                                        | None => []
                                        end) ++ [js "all"]
     else [js "cancel"; js "one"]).
(** [showConfirm] refuses while a dialog is open. *)
Definition showDeleteConfirm (a : hist_action) (cleanup : jsval) (p : option preview) (s : hist_state) : option hist_state :=
  match hs_confirm s with NoConfirm => Some (with_confirm (OurConfirm (question_of a cleanup p)) s) | _ => None end.
Definition already_open : jsstr := js "showConfirm: another confirm is already open".
Definition show_or_uncaught (a : hist_action) (cleanup : jsval) (s : hist_state) : hist_state :=
  default (tell (Uncaught already_open) s) (showDeleteConfirm a cleanup None s).
Definition default_context : delete_context := DeleteContext (js "/history") (js "/history/delete-preview") false.
Definition asked (type : jsstr) (id : jsval) (command : option jsstr) (itemType : jsstr) (bulkContext : option delete_context) : hist_action :=
  HistAction type id command itemType (if type ==s js "clear" then Some (default default_context bulkContext) else None) false false.
Definition confirmHistAction (can : bool) (type : jsstr) (id : jsval) (command : option jsstr) (itemType : jsstr)
    (bulkContext : option delete_context) (s : hist_state) : hist_state :=
  if ((type ==s js "delete") || (type ==s js "clear")) && negb can then _historyShowPermissionDenied "delete team history" s else
  let a := asked type id command itemType bulkContext in
  let s := with_pending (Some a) s in
  if run_delete a then send (GetCleanup (to_string id)) (LoadingCleanup a) s
  else match ha_context a with
       | Some c => send (GetPreview (dc_previewUrl c)) (LoadingPreview a c) s
       | None => show_or_uncaught a VNull s
       end.
Definition preview_failed (message : jsstr) (s : hist_state) : hist_state := tell (Toast message true) (with_pending None s).
Definition preview_answer (a : hist_action) (c : delete_context) (r : reply) (s : hist_state) : hist_state :=
  match r with
  | Reply true data =>
      if nullish (default (VObj []) data) then preview_failed (js "Failed to count matching history") s else   (* data.total_count throws *)
      let p := _loadHistoryDeletePreview data in
      if neqb (pv_totalCount p) num_zero then
        tell (Toast (if dc_filtered c then js "No runs match the current filters." else js "There are no runs to delete.") false)
          (with_pending None s)
      else default (preview_failed (js "Failed to count matching history") s) (showDeleteConfirm a VNull (Some p) s)
  | Reply false data => preview_failed (_historyMutationError data "Failed to count matching history") s
  | Lost => preview_failed (js "Failed to count matching history") s
  end.

(** ** Definitions: deleting *)

Definition clear_type (action : jsstr) : bool := (action ==s js "clear-nonfav") || (action ==s js "clear").
Definition executeHistAction (type : option jsstr) (s : hist_state) : hist_state :=
  let pending := hs_pending s in
  let action := match type with Some t => Some t | None => ha_type <$> pending end in
  let id := match pending with Some p => ha_id p | None => VNull end in
  let itemType := match pending with Some p => ha_itemType p | None => [] end in
  let command := match pending with Some p => ha_command p | None => None end in
  let prune f := match pending with Some p => f p | None => false end in
  let s := with_pending None s in
  match action with
  | Some action =>
      if action ==s js "delete" then
        send (if itemType ==s js "snapshot" then DeleteSnapshot (to_string id)
              else DeleteRun (to_string id) (prune ha_pruneAtlas) (prune ha_pruneCurated))
          (DeletingItem itemType command) s
      else if clear_type action then
        let context := default default_context (match pending with Some p => ha_context p | None => None end) in
        send (ClearHistory (dc_deleteUrl context) (action ==s js "clear-nonfav")) (Clearing action (dc_filtered context)) s
      else s
  | None => s
  end.
(** The boxes ticked in the dialog go to the action that is pending. *)
Definition tick (content : option boxes) (disposable curated : bool) (p : hist_action) : hist_action :=
  match content with
  | Some b => let pruneCurated := bx_kept b && curated in
              HistAction (ha_type p) (ha_id p) (ha_command p) (ha_itemType p) (ha_context p)
                (bx_disposable b && disposable || pruneCurated) pruneCurated
  | None => p
  end.
(** The dialog closes with one of its actions, or with none. *)
Definition choose (choice : option jsstr) (disposable curated : bool) (s : hist_state) : hist_state :=
  match hs_confirm s with
  | OurConfirm q =>
      match choice with
      | Some c =>
          if negb (bool_decide (c ∈ qu_actions q)) then s else
          let s := with_confirm NoConfirm s in
          if c ==s js "cancel" then with_pending None s
          else let s := with_pending (tick (qu_content q) disposable curated <$> hs_pending s) s in
               if c ==s js "nonfav" then executeHistAction (Some (js "clear-nonfav")) s
               else if c ==s js "all" then executeHistAction None s
               else if c ==s js "one" then executeHistAction (Some (js "delete")) s else s
      | None => with_pending None (with_confirm NoConfirm s)
      end
  | _ => s
  end.
Definition without (command : option jsstr) (l : list jsstr) : list jsstr :=
  match command with Some c => filterb (λ x, negb (x ==s c)) l | None => l end.
Definition lists_without (command : option jsstr) (r : recall) : recall :=
  with_lists (without command (rc_history r)) (without command (rc_preview r)) r.
Definition delete_answer (itemType : jsstr) (command : option jsstr) (r : reply) (s : hist_state) : hist_state :=
  match r with
  | Reply true _ =>
      if itemType ==s js "snapshot" then tell RefreshPanel s else
      let s := match command with
               | Some c => if bool_decide (c ∈ _getStarred s)
                           then post (DropStar c) (_saveStarred (without command (_getStarred s)) s) else s
               | None => s
               end in
      tell RefreshPanel (tell RenderHistory (with_recall (lists_without command (hs_recall s)) s))
  | Reply false data => tell (Toast (_historyMutationError data "Failed to delete run") true) s
  | Lost => tell (Toast (js "Failed to delete run") true) s
  end.
Definition clear_answer (action : jsstr) (filtered : bool) (r : reply) (s : hist_state) : hist_state :=
  match r with
  | Reply true _ =>
      if (action ==s js "clear") && negb filtered then
        tell (HistoryMutated action filtered) (tell RefreshPanel (tell RenderHistory
          (with_recall (with_lists [] [] (hs_recall s)) (post DropStars (_saveStarred [] s)))))
      else reloadSessionHistory (Some (action, filtered)) s
  | Reply false data => tell (Toast (_historyMutationError data "Failed to clear history") true) s
  | Lost => tell (Toast (js "Failed to clear history") true) s
  end.

(** ** Definitions: the events *)

Inductive hist_event :=
  | Ask (can : bool) (type : jsstr) (id : jsval) (command : option jsstr) (itemType : jsstr) (bulkContext : option delete_context)
  | Answered (n : nat) (r : reply)
  | Chosen (choice : option jsstr) (disposable curated : bool)
  | OtherOpens
  | OtherCloses
  | StarToggled (cmd : jsstr)
  | HistoryReloads.
Fixpoint take_job (n : nat) (l : list (nat * job)) : option (job * list (nat * job)) :=
  match l with
  | [] => None
  | (k, j) :: l => if (k =? n)%nat then Some (j, l)
                   else match take_job n l with Some (j', l) => Some (j', (k, j) :: l) | None => None end
  end.
Definition job_answer (j : job) (r : reply) (s : hist_state) : hist_state :=
  match j with
  | LoadingCleanup a => show_or_uncaught a (_loadHistoryAtlasCleanup r) s
  | LoadingPreview a c => preview_answer a c r s
  | DeletingItem itemType command => delete_answer itemType command r s
  | Clearing action filtered => clear_answer action filtered r s
  | LoadingStarred next => starred_answer next r s
  | LoadingCommands next => commands_answer next r s
  end.
Definition hist_step (e : hist_event) (s : hist_state) : hist_state :=
  match e with
  | Ask can type id command itemType bulkContext => confirmHistAction can type id command itemType bulkContext s
  | Answered n r => match take_job n (hs_jobs s) with Some (j, l) => job_answer j r (with_jobs l s) | None => s end
  | Chosen choice disposable curated => choose choice disposable curated s
  | OtherOpens => match hs_confirm s with NoConfirm => with_confirm OtherConfirm s | _ => s end
  | OtherCloses => match hs_confirm s with OtherConfirm => with_confirm NoConfirm s | _ => s end
  | StarToggled cmd => _toggleStar cmd s
  | HistoryReloads => reloadSessionHistory None s
  end.
Definition hist_run (events : list hist_event) (s : hist_state) : hist_state := fold_left (λ s e, hist_step e s) events s.
End Locale.

(** ** Lemmas: what is asked, and what is deleted *)

Section Deleting.
Context (to_locale : num → jsstr) (config : jsval).
Notation step := (hist_step to_locale config).
Notation run := (hist_run to_locale config).

Definition is_deletion (r : request) : bool :=
  match r with DeleteSnapshot _ | DeleteRun _ _ _ | ClearHistory _ _ => true | _ => false end.
Definition deletions (s : hist_state) : list request := filterb is_deletion (hs_sent s).
(** The deletions an action may come to, whatever is ticked or chosen. *)
Definition deletion_of (a : hist_action) (r : request) : Prop :=
  match r with
  | DeleteSnapshot id => ha_type a = js "delete" ∧ ha_itemType a = js "snapshot" ∧ id = to_string (ha_id a)
  | DeleteRun id _ _ => ha_type a = js "delete" ∧ ha_itemType a ≠ js "snapshot" ∧ id = to_string (ha_id a)
  | ClearHistory url _ => ha_type a = js "clear" ∧ ∃ c, ha_context a = Some c ∧ url = dc_deleteUrl c
  | _ => False
  end.
(** The questions that are loading or open. *)
Definition asking (j : job) : list hist_action :=
  match j with LoadingCleanup a | LoadingPreview a _ => [a] | _ => [] end.
Definition open_asks (s : hist_state) : list hist_action :=
  flat_map (λ e, asking (snd e)) (hs_jobs s) ++ match hs_confirm s with OurConfirm q => [qu_asked q] | _ => [] end.
(** The same action but for what is ticked. *)
Definition unticked (p : hist_action) : hist_action :=
  HistAction (ha_type p) (ha_id p) (ha_command p) (ha_itemType p) (ha_context p) false false.

Lemma take_job_split n l j l' : take_job n l = Some (j, l') → ∃ u v, l = u ++ (n, j) :: v ∧ l' = u ++ v.
Proof.
  revert j l'. induction l as [|[k i] l IH]; intros j l'; cbn [take_job]; [done|]. destruct (Nat.eqb_spec k n) as [->|].
  - intros [= -> ->]. by exists [], l'.
  - destruct (take_job n l) as [[j' l'']|]; [|done]. intros [= -> <-]. destruct (IH _ _ eq_refl) as (u & v & -> & ->).
    by exists ((k, i) :: u), v.
Qed.
Definition proper_action (a : hist_action) : Prop :=
  (ha_type a = js "delete" ∧ ha_context a = None ∨ ha_type a = js "clear" ∧ is_Some (ha_context a))
  ∧ ha_pruneAtlas a = false ∧ ha_pruneCurated a = false.
Lemma asked_proper type id command itemType bulk :
  type = js "delete" ∨ type = js "clear" → proper_action (asked type id command itemType bulk).
Proof. intros [->| ->]; (split; [|done]); [by left|right; by split]. Qed.
(** Nothing is open, or only [a], and then it is what is pending. *)
Record one_ask (a : hist_action) (s : hist_state) : Prop := {
  oa_open : open_asks s = [] ∨ open_asks s = [a] ∧ ∃ p, hs_pending s = Some p ∧ unticked p = a;
  oa_shown : ∀ q, hs_confirm s = OurConfirm q → ∃ b cleanup p, q = question_of to_locale b cleanup p
}.

(** Changes that ask and delete nothing. *)
Record quiet (s s' : hist_state) : Prop := {
  qt_pending : hs_pending s' = hs_pending s;
  qt_confirm : hs_confirm s' = hs_confirm s;
  qt_open : open_asks s' = open_asks s;
  qt_deletions : deletions s' = deletions s
}.
#[local] Instance quiet_preorder : PreOrder quiet.
Proof. split; [by intros|]. intros s t u [] []. split; congruence. Qed.
Lemma quiet_tell n s : quiet s (tell n s).
Proof. done. Qed.
Lemma quiet_starred l s : quiet s (with_starred l s).
Proof. done. Qed.
Lemma quiet_recall r s : quiet s (with_recall r s).
Proof. done. Qed.
Lemma quiet_post r s : is_deletion r = false → quiet s (post r s).
Proof. intros H. split; try done. unfold deletions. cbn [post hs_sent]. rewrite filterb_app. cbn. rewrite H. apply app_nil_r. Qed.
Lemma quiet_send r j s : is_deletion r = false → asking j = [] → quiet s (send r j s).
Proof.
  intros H Hj. split; try done.
  - unfold open_asks. cbn [send hs_jobs hs_confirm]. rewrite flat_map_app. cbn. by rewrite Hj, !app_nil_r.
  - unfold deletions. cbn [send hs_sent]. rewrite filterb_app. cbn. rewrite H. apply app_nil_r.
Qed.
Hint Resolve quiet_tell quiet_starred quiet_recall quiet_post quiet_send : darklab.
Lemma quiet_jobs n j l s : take_job n (hs_jobs s) = Some (j, l) → asking j = [] → quiet s (with_jobs l s).
Proof.
  intros (u & v & Hj & ->)%take_job_split Ha. split; try done. unfold open_asks. cbn [with_jobs hs_jobs hs_confirm].
  rewrite Hj, !flat_map_app. cbn. by rewrite Ha.
Qed.
Ltac quietly := repeat (first [done | apply quiet_tell | apply quiet_starred | apply quiet_recall | by apply quiet_post | by apply quiet_send
  | (etrans; [|apply quiet_tell]) | (etrans; [|apply quiet_recall]) | (etrans; [|apply quiet_starred]) | (etrans; [|by apply quiet_post])
  | (etrans; [|by apply quiet_send])]).
Lemma quiet_item_deleted itemType command r s : quiet s (delete_answer itemType command r s).
Proof.
  unfold delete_answer, _saveStarred. destruct r as [|[] data]; [quietly| |quietly]. case_bool_decide; [quietly|].
  destruct command as [c|]; [case_bool_decide|]; quietly.
Qed.
Lemma quiet_clear action filtered r s : quiet s (clear_answer action filtered r s).
Proof.
  unfold clear_answer, _saveStarred, reloadSessionHistory, loadStarredFromServer. destruct r as [|[] data]; [quietly| |quietly].
  destruct (_ && _); quietly.
Qed.
Lemma quiet_stars next r s : quiet s (starred_answer config next r s).
Proof.
  unfold starred_answer, load_commands. etrans; [|by apply quiet_send].
  destruct r as [|[] [[]|]]; try done; destruct (js_or _ _); quietly.
Qed.
Lemma quiet_commands next r s : quiet s (commands_answer config next r s).
Proof.
  unfold commands_answer. cbv zeta. set (s1 := match r with Lost => s | _ => _ end).
  assert (quiet s s1) as H1. { unfold s1. destruct r as [|[] [[]|]]; quietly. }
  set (s2 := if hs_panelOpen s1 then _ else _). assert (quiet s s2) as H2. { unfold s2. destruct (hs_panelOpen s1); [etrans; [exact H1|quietly]|done]. }
  destruct next as [[action filtered]|]; [etrans; [exact H2|quietly]|done].
Qed.
Lemma quiet_toggle cmd s : quiet s (_toggleStar cmd s).
Proof. unfold _toggleStar, _saveStarred. cbv zeta. case_bool_decide; quietly. Qed.

Lemma one_ask_quiet a s s' : one_ask a s → quiet s s' → one_ask a s'.
Proof.
  intros [Ho Hs] [Hp Hc Hq _]. split; [|intros q Hq'; apply Hs; congruence]. destruct Ho as [Ho|[Ho (p & Hp' & Hu)]]; [left; congruence|].
  right. split; [congruence|]. exists p. split; [congruence|done].
Qed.
(** A question that was loading is the only one; its job is gone now. *)
Lemma load_alone a b n j l s :
  one_ask a s → take_job n (hs_jobs s) = Some (j, l) → asking j = [b] →
  b = a ∧ open_asks s = [a] ∧ open_asks (with_jobs l s) = [] ∧ (∀ q, hs_confirm s ≠ OurConfirm q)
  ∧ ∃ p, hs_pending s = Some p ∧ unticked p = a.
Proof.
  intros [Ho Hs] (u & v & Hj & ->)%take_job_split Ha. unfold open_asks in *. cbn [with_jobs hs_jobs hs_confirm].
  rewrite Hj, flat_map_app in Ho. cbn in Ho. rewrite Ha in Ho. rewrite Hj, !flat_map_app. cbn. rewrite Ha.
  destruct (flat_map _ u) as [|x xs]; [|destruct Ho as [Ho|[Ho _]]; [done|destruct xs; done]].
  destruct (flat_map _ v); [|destruct Ho as [Ho|[Ho _]]; done].
  destruct (hs_confirm s) as [| |q] eqn:Hc; destruct Ho as [Ho|[Ho Hp]]; try done; injection Ho as ->; by split_and!.
Qed.
Lemma shown_one_ask a s cleanup p s' :
  open_asks s = [] → (∃ p, hs_pending s = Some p ∧ unticked p = a) → showDeleteConfirm to_locale a cleanup p s = Some s' →
  one_ask a s' ∧ open_asks s' = [a] ∧ deletions s' = deletions s.
Proof.
  unfold showDeleteConfirm. intros Ho Hp Hs. destruct (hs_confirm s) eqn:Hc; [|done..]. injection Hs as <-.
  assert (open_asks (with_confirm (OurConfirm (question_of to_locale a cleanup p)) s) = [a]) as Ho'.
  { unfold open_asks in *. rewrite Hc, app_nil_r in Ho. cbn [with_confirm hs_jobs hs_confirm]. by rewrite Ho. }
  split; [|done]. split; [right; by split|]. intros q [= <-]. eauto.
Qed.
Lemma none_open a s : open_asks s = [] → one_ask a s.
Proof.
  intros Ho. split; [by left|]. intros q Hq. unfold open_asks in Ho. rewrite Hq in Ho. by apply app_eq_nil in Ho as [_ ?].
Qed.
(** What a step may do when nothing new is asked. *)
Definition advances (a : hist_action) (s s' : hist_state) : Prop :=
  one_ask a s' ∧ ∃ l, deletions s' = deletions s ++ l ∧ Forall (deletion_of a) l
                      ∧ (length l + length (open_asks s') ≤ length (open_asks s))%nat.
Lemma advances_quiet a s s' : one_ask a s → quiet s s' → advances a s s'.
Proof.
  intros Ha Hq. split; [by eapply one_ask_quiet|]. exists []. destruct Hq as [_ _ Ho Hd]. rewrite app_nil_r, Ho. by split_and!.
Qed.
Lemma advances_closed a s s' : open_asks s' = [] → deletions s' = deletions s → advances a s s'.
Proof. intros Ho Hd. split; [by apply none_open|]. exists []. rewrite app_nil_r, Ho. split_and!; [done|done|cbn; lia]. Qed.
Lemma advances_shown a s t s' : open_asks s = [a] → deletions t = deletions s →
  one_ask a s' ∧ open_asks s' = [a] ∧ deletions s' = deletions t → advances a s s'.
Proof.
  intros Ho Hd (H1 & H2 & H3). split; [done|]. exists []. rewrite app_nil_r, Ho, H2. by split_and!; [congruence|..].
Qed.
Lemma answered_advances a n r s : one_ask a s → advances a s (step (Answered n r) s).
Proof.
  intros Ha. cbn [hist_step]. destruct (take_job n (hs_jobs s)) as [[j l]|] eqn:Hj; [|by apply advances_quiet].
  pose proof (quiet_jobs n j l s Hj) as Hq.
  destruct j as [b|b c|itemType command|action filtered|next|next]; cbn [job_answer asking] in *;
    try (apply advances_quiet; [done|]; etrans; [by apply Hq|]; auto using quiet_item_deleted, quiet_clear, quiet_stars, quiet_commands).
  - destruct (load_alone a b n _ l s Ha Hj) as (-> & Ho & Ho' & Hc & Hp); [done|]. unfold show_or_uncaught.
    destruct (showDeleteConfirm _ _ _ _ _) as [s'|] eqn:Hs; cbn [default].
    + eapply advances_shown; [done| |by eapply shown_one_ask]. done.
    + by apply advances_closed.
  - destruct (load_alone a b n _ l s Ha Hj) as (-> & Ho & Ho' & Hc & Hp); [done|]. unfold preview_answer, preview_failed.
    destruct r as [|[] data]; [by apply advances_closed| |by apply advances_closed].
    cbv zeta. destruct (nullish _); [by apply advances_closed|]. case_match; [by apply advances_closed|].
    destruct (showDeleteConfirm _ _ _ _ _) as [s'|] eqn:Hs; cbn [default]; [|by apply advances_closed].
    eapply advances_shown; [done| |by eapply shown_one_ask]. done.
Qed.

(** Executing what is pending sends its deletion. *)
Definition fits (type : option jsstr) (a : hist_action) : Prop :=
  match type with
  | Some t => t = js "delete" ∧ ha_type a = js "delete" ∨ t = js "clear-nonfav" ∧ ha_type a = js "clear"
  | None => ha_type a = js "clear"
  end.
Lemma execute_deletes type a p s :
  hs_pending s = Some p → unticked p = a → proper_action a → fits type a →
  ∃ r, deletions (executeHistAction type s) = deletions s ++ [r] ∧ deletion_of a r
       ∧ open_asks (executeHistAction type s) = open_asks s ∧ hs_confirm (executeHistAction type s) = hs_confirm s.
Proof.
  intros Hp <- [Ht _] Hf. unfold fits in Hf. unfold executeHistAction. rewrite Hp. cbn [unticked ha_type ha_context ha_id ha_itemType ha_command] in *.
  assert (∀ r j t, is_deletion r = true → asking j = [] → deletions (send r j t) = deletions t ++ [r] ∧ open_asks (send r j t) = open_asks t) as Hsend.
  { intros r j t Hr Hj. unfold deletions, open_asks. cbn [send hs_sent hs_jobs hs_confirm]. rewrite filterb_app, flat_map_app. cbn.
    by rewrite Hr, Hj, !app_nil_r. }
  destruct Ht as [[Ht _]|[Ht [c Hc]]].
  - assert (type = Some (js "delete")) as ->.
    { destruct type as [t|]; [|rewrite Ht in Hf; by vm_compute in Hf]. destruct Hf as [[-> _]|[_ Hf]]; [done|rewrite Ht in Hf; by vm_compute in Hf]. }
    cbn [fmap option_fmap option_map]. rewrite bool_decide_true by done.
    set (r := if _ ==s _ then DeleteSnapshot _ else _).
    destruct (Hsend r (DeletingItem (ha_itemType p) (ha_command p)) (with_pending None s)) as [H1 H2]; [by unfold r; destruct (_ ==s _)|done|].
    exists r. split; [exact H1|]. split; [|by split]. unfold r. case_bool_decide as Hi; cbn; auto.
  - cbn [fmap option_fmap option_map]. rewrite Hc. cbn [default].
    assert (∃ ac, match type with Some t => Some t | None => Some (ha_type p) end = Some ac ∧ ac ≠ js "delete" ∧ clear_type ac = true) as (ac & -> & Hne & Hcl).
    { destruct type as [t|]; [destruct Hf as [[_ Hf]|[-> _]]; [rewrite Ht in Hf; by vm_compute in Hf|]|rewrite Ht]; eexists; by split_and!. }
    rewrite (bool_decide_false _ Hne), Hcl.
    destruct (Hsend (ClearHistory (dc_deleteUrl c) (ac ==s js "clear-nonfav")) (Clearing ac (dc_filtered c)) (with_pending None s)) as [H1 H2]; [done..|].
    eexists. split; [exact H1|]. split; [|by split]. cbn. eauto.
Qed.
Lemma tick_unticked content d k p : unticked (tick content d k p) = unticked p.
Proof. by destruct content. Qed.
Lemma choose_advances a choice d k s : proper_action a → one_ask a s → advances a s (choose choice d k s).
Proof.
  intros Hprop Ha. pose proof Ha as [Ho Hs]. unfold choose. destruct (hs_confirm s) as [| |q] eqn:Hc; try by apply advances_quiet.
  destruct (Hs q eq_refl) as (b & cleanup & pv & ->). clear Hs. 
  assert (open_asks s = [a] ∧ b = a ∧ (∃ p, hs_pending s = Some p ∧ unticked p = a) ∧ ∀ t, hs_jobs t = hs_jobs s → hs_confirm t = NoConfirm → open_asks t = [])
    as (Hopen & -> & (p & Hp & Hu) & Hclosed).
  { unfold open_asks in *. rewrite Hc in *. destruct (flat_map _ (hs_jobs s)) as [|x l] eqn:Hl.
    - destruct Ho as [Ho|[Ho H]]; [done|]. injection Ho as ->. split_and!; [done|done|done|]. intros t -> ->. by rewrite Hl.
    - destruct Ho as [Ho|[Ho _]]; [done|]. destruct l; done. }
  destruct choice as [c|]; [|by apply advances_closed; [apply Hclosed|]].
  destruct (negb _) eqn:Hin; [by apply advances_quiet|]. apply negb_false_iff, bool_decide_eq_true in Hin.
  case_bool_decide as Hcan; [by apply advances_closed; [apply Hclosed|]|].
  set (t := with_pending _ _). assert (open_asks t = []) as Ht by by apply Hclosed.
  assert (∀ type, fits type a → advances a s (executeHistAction type t)) as Hexec.
  { intros type Hf. destruct (execute_deletes type a (tick (qu_content (question_of to_locale a cleanup pv)) d k p) t) as (r & Hd & Hr & Ho' & Hc').
    - unfold t. cbn [with_pending hs_pending with_confirm]. by rewrite Hp.
    - by rewrite tick_unticked.
    - done.
    - done.
    - split; [by apply none_open; rewrite Ho'|]. exists [r]. rewrite Hopen, Ho', Ht. split_and!; [done|by constructor|cbn; lia]. }
  cbn [question_of qu_actions] in Hin. unfold is_bulk in Hin. destruct Hprop as [[[Htype _]|[Htype _]] _]; rewrite Htype in Hin.
  - change (js "delete" ==s js "clear") with false in Hin. rewrite !elem_of_cons, elem_of_nil in Hin.
    destruct Hin as [->|[->|[]]]; [done|]. apply Hexec. by left.
  - rewrite bool_decide_true in Hin by done. rewrite !elem_of_app, !list_elem_of_singleton in Hin.
    destruct Hin as [->|[Hin| ->]]; [done| |by apply Hexec].
    assert (c = js "nonfav") as ->.
    { destruct pv as [pv|]; [destruct (nltb _ _)|]; [by apply list_elem_of_singleton in Hin|by apply elem_of_nil in Hin..]. }
    apply Hexec. by right.
Qed.

Definition is_ask (e : hist_event) : bool := match e with Ask _ _ _ _ _ _ => true | _ => false end.
Lemma step_advances a e s : proper_action a → is_ask e = false → one_ask a s → advances a s (step e s).
Proof.
  intros Hp He Ha. destruct e as [|n r|choice d k| | |cmd|]; [done|by apply answered_advances|by apply choose_advances|..]; cbn [hist_step].
  - destruct (hs_confirm s) eqn:Hc; try by apply advances_quiet.
    split; [|exists []; rewrite app_nil_r; split_and!; [done|done|unfold open_asks; cbn [with_confirm hs_jobs hs_confirm length]; rewrite Hc; lia]].
    destruct Ha as [Ho Hs]. split; [|done]. unfold open_asks in *. cbn [with_confirm hs_jobs hs_confirm]. by rewrite Hc in Ho.
  - destruct (hs_confirm s) eqn:Hc; try by apply advances_quiet.
    split; [|exists []; rewrite app_nil_r; split_and!; [done|done|unfold open_asks; cbn [with_confirm hs_jobs hs_confirm length]; rewrite Hc; lia]].
    destruct Ha as [Ho Hs]. split; [|done]. unfold open_asks in *. cbn [with_confirm hs_jobs hs_confirm]. by rewrite Hc in Ho.
  - apply advances_quiet; [done|apply quiet_toggle].
  - apply advances_quiet; [done|]. by apply quiet_send.
Qed.
Lemma run_advances a events s : proper_action a → forallb (λ e, negb (is_ask e)) events = true → one_ask a s → advances a s (run events s).
Proof.
  intros Hp. revert s. induction events as [|e events IH]; intros s He Ha; [by apply advances_quiet|].
  cbn [forallb] in He. apply andb_true_iff in He as [He1%negb_true_iff He2].
  destruct (step_advances a e s Hp He1 Ha) as (Ha' & l & Hd & Hl & Hlen).
  destruct (IH (step e s) He2 Ha') as (Ha'' & l' & Hd' & Hl' & Hlen').
  change (run (e :: events) s) with (run events (step e s)).
  split; [done|]. exists (l ++ l'). rewrite Hd', Hd, app_assoc. split_and!; [done|by apply Forall_app_2|rewrite length_app; lia].
Qed.

(** Asking opens one question, if it may be asked. *)
Lemma ask_opens s can type id command itemType bulk :
  open_asks s = [] → type = js "delete" ∨ type = js "clear" →
  let a := asked type id command itemType bulk in
  let s' := step (Ask can type id command itemType bulk) s in
  one_ask a s' ∧ deletions s' = deletions s ∧ (length (open_asks s') ≤ 1)%nat ∧ (can = false → open_asks s' = []).
Proof.
  intros Ho Ht a s'. assert (unticked a = a) as Hu by done.
  assert (s' = if negb can then _historyShowPermissionDenied "delete team history" s
               else let s := with_pending (Some a) s in
                    if run_delete a then send (GetCleanup (to_string id)) (LoadingCleanup a) s
                    else match ha_context a with
                         | Some c => send (GetPreview (dc_previewUrl c)) (LoadingPreview a c) s
                         | None => show_or_uncaught to_locale a VNull s
                         end) as Hs'.
  { unfold s', hist_step, confirmHistAction. fold a. destruct can; cbn [negb andb]; [by rewrite andb_false_r|].
    by destruct Ht as [->| ->]. }
  clearbody s'. subst s'. destruct can; cbn [negb]; [|split_and!; [by apply none_open|done|change (length (open_asks s) ≤ 1)%nat; rewrite Ho; cbn; lia|done]].
  cbv zeta. set (t := with_pending (Some a) s). assert (open_asks t = []) as Hot by done.
  assert (∀ r j, is_deletion r = false → asking j = [a] → let s' := send r j t in
            one_ask a s' ∧ deletions s' = deletions s ∧ (length (open_asks s') ≤ 1)%nat) as Hsend.
  { intros r j Hr Hj s'. assert (open_asks s' = [a] ∧ hs_confirm s' = hs_confirm s) as [Hos Hcs].
    { split; [|done]. unfold open_asks in *. subst s'. cbn [send hs_jobs hs_confirm]. rewrite flat_map_app. cbn. rewrite Hj.
      change (hs_jobs t) with (hs_jobs s). change (hs_confirm t) with (hs_confirm s). by apply app_eq_nil in Ho as [-> ->]. }
    split; [|split].
    - split; [right; split; [done|by exists a]|]. intros q Hq. rewrite Hcs in Hq. unfold open_asks in Ho. rewrite Hq in Ho.
      by apply app_eq_nil in Ho as [_ ?].
    - unfold deletions, s'. cbn [send hs_sent]. rewrite filterb_app. cbn. by rewrite Hr, app_nil_r.
    - by rewrite Hos. }
  destruct (run_delete a). { destruct (Hsend (GetCleanup (to_string id)) (LoadingCleanup a)) as (H1 & H2 & H3); [done..|]. refine (conj H1 (conj H2 (conj H3 _))). discriminate. }
  destruct (ha_context a) as [c|]. { destruct (Hsend (GetPreview (dc_previewUrl c)) (LoadingPreview a c)) as (H1 & H2 & H3); [done..|]. refine (conj H1 (conj H2 (conj H3 _))). discriminate. }
  unfold show_or_uncaught. destruct (showDeleteConfirm to_locale a VNull None t) as [s''|] eqn:Hs; cbn [default].
  - destruct (shown_one_ask a t VNull None s'' Hot) as (H1 & H2 & H3); [by exists a|done|].
    split; [exact H1|split; [exact H3|split; [|done]]]. change (length (open_asks s'') ≤ 1)%nat. by rewrite H2.
  - split_and!; [by apply none_open|done|change (length (open_asks t) ≤ 1)%nat; rewrite Hot; cbn; lia|done].
Qed.

(** ** Lemmas: what the page forgets *)

Lemma without_spec c l x : x ∈ without (Some c) l ↔ x ∈ l ∧ x ≠ c.
Proof.
  unfold without. rewrite elem_of_filterb, negb_true_iff, bool_decide_eq_false. tauto.
Qed.

(** ** Lemmas: two questions at once *)

Notation run_asked id command := (asked (js "delete") (VStr id) command (js "run") None).
Notation bulk_asked cx := (asked (js "clear") VNull None (js "run") (Some cx)).
Lemma take_fresh n l j e : Forall (λ e : nat * job, fst e ≠ n) l → take_job n ((l ++ [(n, j)]) ++ [e]) = Some (j, l ++ [e]).
Proof.
  intros Hl. rewrite <-app_assoc. induction Hl as [|[k i] l Hk _ IH]; cbn [app take_job]; [by rewrite Nat.eqb_refl|].
  cbn [fst] in Hk. destruct (Nat.eqb_spec k n); [done|]. cbn [app] in IH. by rewrite IH.
Qed.
Lemma ask_run_step id command t :
  nonempty id = true →
  step (Ask true (js "delete") (VStr id) command (js "run") None) t
  = send (GetCleanup id) (LoadingCleanup (run_asked id command)) (with_pending (Some (run_asked id command)) t).
Proof.
  intros Hid. cbn [hist_step]. unfold confirmHistAction. cbn [negb]. rewrite andb_false_r. cbv zeta.
  unfold run_delete, asked. cbn. by rewrite Hid.
Qed.
Lemma ask_bulk_step cx t :
  step (Ask true (js "clear") VNull None (js "run") (Some cx)) t
  = send (GetPreview (dc_previewUrl cx)) (LoadingPreview (bulk_asked cx) cx) (with_pending (Some (bulk_asked cx)) t).
Proof. done. Qed.
Lemma run_app l l' s : run (l ++ l') s = run l' (run l s).
Proof. apply fold_left_app. Qed.
(** The first answer finds the second question pending. *)
Lemma first_answered s req j x id command r :
  Forall (λ e, fst e ≠ hs_next s) (hs_jobs s) → hs_confirm s = NoConfirm → is_deletion req = false → nonempty id = true →
  ∃ t, run [Ask true (js "delete") (VStr id) command (js "run") None; Answered (hs_next s) r] (send req j (with_pending (Some x) s))
         = job_answer to_locale config j r t
       ∧ hs_confirm t = NoConfirm ∧ hs_pending t = Some (run_asked id command) ∧ deletions t = deletions s.
Proof.
  intros Hl Hc Hreq Hid. unfold hist_run. cbn [fold_left]. rewrite ask_run_step by done. eexists. split_and!.
  - cbn [hist_step send with_pending hs_jobs hs_next]. by rewrite take_fresh.
  - done.
  - done.
  - unfold deletions. cbn [with_jobs send with_pending hs_sent]. rewrite !filterb_app. cbn. by rewrite Hreq, !app_nil_r.
Qed.
(** What is pending is deleted, whatever the dialog asked. *)
Lemma choose_sends c q t p r :
  hs_confirm t = OurConfirm q → hs_pending t = Some p → qu_content q = None → c ∈ qu_actions q →
  (c = js "one" ∧ (ha_itemType p ==s js "snapshot") = false
   ∧ r = DeleteRun (to_string (ha_id p)) (ha_pruneAtlas p) (ha_pruneCurated p)
   ∨ c = js "nonfav" ∧ r = ClearHistory (dc_deleteUrl (default default_context (ha_context p))) true) →
  deletions (step (Chosen (Some c) false false) t) = deletions t ++ [r].
Proof.
  intros Hc Hp Hq Hin Hr. cbn [hist_step]. unfold choose. rewrite Hc, (bool_decide_true _ Hin), Hq. cbn [negb].
  unfold executeHistAction, deletions.
  assert (∀ r, is_deletion r = true → filterb is_deletion (hs_sent t ++ [r]) = filterb is_deletion (hs_sent t) ++ [r]) as Hsend.
  { intros r' Hr'. rewrite filterb_app. cbn. by rewrite Hr'. }
  destruct Hr as [(-> & Hi & ->)|[-> ->]].
  - change (js "one" ==s js "cancel") with false. change (js "one" ==s js "nonfav") with false.
    change (js "one" ==s js "all") with false. change (js "one" ==s js "one") with true. cbv iota.
    cbn [with_pending with_confirm hs_pending]. rewrite Hp. cbn [tick fmap option_fmap option_map with_pending hs_pending].
    change (js "delete" ==s js "delete") with true. cbv iota. rewrite Hi. exact (Hsend (DeleteRun _ _ _) eq_refl).
  - change (js "nonfav" ==s js "cancel") with false. change (js "nonfav" ==s js "nonfav") with true. cbv iota.
    cbn [with_pending with_confirm hs_pending]. rewrite Hp. cbn [tick fmap option_fmap option_map with_pending hs_pending].
    change (js "clear-nonfav" ==s js "delete") with false. change (clear_type (js "clear-nonfav")) with true.
    change (js "clear-nonfav" ==s js "clear-nonfav") with true. cbv iota. exact (Hsend (ClearHistory _ _) eq_refl).
Qed.

(** A second question asked while the first loads: the dialog is the first one's,
    what is deleted is the second one's. *)
Lemma two_questions s e1 req j x id command answer q c r :
  Forall (λ e, fst e ≠ hs_next s) (hs_jobs s) → hs_confirm s = NoConfirm → is_deletion req = false → nonempty id = true →
  step e1 s = send req j (with_pending (Some x) s) →
  (∀ t, hs_confirm t = NoConfirm → job_answer to_locale config j answer t = with_confirm (OurConfirm q) t) →
  qu_content q = None → c ∈ qu_actions q →
  c = js "one" ∧ r = DeleteRun id false false ∨ c = js "nonfav" ∧ r = ClearHistory (js "/history") true →
  let events := [e1; Ask true (js "delete") (VStr id) command (js "run") None; Answered (hs_next s) answer] in
  hs_confirm (run events s) = OurConfirm q
  ∧ deletions (run (events ++ [Chosen (Some c) false false]) s) = deletions s ++ [r].
Proof.
  intros Hl Hc Hreq Hid He Hj Hq Hin Hr events.
  destruct (first_answered s req j x id command answer Hl Hc Hreq Hid) as (t & Ht & Hct & Hpt & Hd).
  rewrite <-He, (Hj t Hct) in Ht. assert (run events s = with_confirm (OurConfirm q) t) as He' by exact Ht.
  rewrite run_app, He'. split; [done|].
  etrans; [apply (choose_sends c q (with_confirm (OurConfirm q) t) (run_asked id command) r); try done|].
  - destruct Hr as [[-> ->]|[-> ->]]; [by left|by right].
  - change (deletions (with_confirm (OurConfirm q) t)) with (deletions t). by rewrite Hd.
Qed.

(** ** Properties *)

(** C17: A confirmation deletes what it asked about. When nothing else is asked, the
    question about a run, a snapshot or the matching history leads, whatever is
    answered and chosen afterwards and in whatever order, to at most one
    deletion, and only of that; and to none when the user may not delete. *)
Theorem asked_item_deleted s can type id command itemType bulk events :
  open_asks s = [] → type = js "delete" ∨ type = js "clear" →
  forallb (λ e, negb (is_ask e)) events = true →
  let s' := run events (step (Ask can type id command itemType bulk) s) in
  ∃ l, deletions s' = deletions s ++ l ∧ (length l ≤ 1)%nat
       ∧ Forall (deletion_of (asked type id command itemType bulk)) l ∧ (can = false → l = []).
Proof.
  intros Ho Ht He. cbv zeta. set (a := asked type id command itemType bulk).
  assert (proper_action a) as Hp by by apply asked_proper.
  destruct (ask_opens s can type id command itemType bulk Ho Ht) as (H1 & H2 & H3 & H4).
  destruct (run_advances a events (step (Ask can type id command itemType bulk) s) Hp He H1) as (_ & l & Hd & Hl & Hlen).
  exists l. rewrite Hd, H2. split_and!; [done|lia|done|]. intros ->. rewrite H4 in Hlen by done. destruct l; [done|cbn in Hlen; lia].
Qed.

(** C40: What was deleted is forgotten, and nothing else. After a run was deleted its
    command is no longer starred nor in the recall lists, which keep every other
    command, and the server is told of a star that goes; a snapshot takes nothing
    along, and a deletion that failed leaves everything and reports. *)
Theorem deleted_command_forgotten s n l itemType c r :
  take_job n (hs_jobs s) = Some (DeletingItem itemType (Some c), l) →
  let s' := step (Answered n r) s in
  match r with
  | Reply true _ =>
      if itemType ==s js "snapshot"
      then hs_starred s' = hs_starred s ∧ hs_recall s' = hs_recall s ∧ hs_sent s' = hs_sent s
      else (∀ x, x ∈ _getStarred s' ↔ x ∈ _getStarred s ∧ x ≠ c)
           ∧ (∀ x, x ∈ rc_history (hs_recall s') ↔ x ∈ rc_history (hs_recall s) ∧ x ≠ c)
           ∧ (∀ x, x ∈ rc_preview (hs_recall s') ↔ x ∈ rc_preview (hs_recall s) ∧ x ≠ c)
           ∧ hs_sent s' = hs_sent s ++ (if bool_decide (c ∈ _getStarred s) then [DropStar c] else [])
  | _ => hs_starred s' = hs_starred s ∧ hs_recall s' = hs_recall s ∧ hs_sent s' = hs_sent s
         ∧ ∃ message, hs_told s' = hs_told s ++ [Toast message true]
  end.
Proof.
  intros Hj s'. assert (s' = delete_answer itemType (Some c) r (with_jobs l s)) as -> by (unfold s', hist_step; by rewrite Hj).
  unfold delete_answer. destruct r as [|[] data]; [by split_and!; [..|eexists]| |by split_and!; [..|eexists]].
  case_bool_decide as Hi; [done|]. cbv zeta. set (t := if bool_decide _ then _ else _).
  assert (hs_recall t = hs_recall s) as Hr by (unfold t; by case_bool_decide).
  change (hs_recall (tell _ _)) with (lists_without (Some c) (hs_recall t)). rewrite Hr.
  split_and!; [|intros x; apply without_spec|intros x; apply without_spec|].
  - intros x. change (_getStarred (tell _ _)) with (_getStarred t). unfold t. case_bool_decide as Hc.
    + apply without_spec.
    + change (_getStarred (with_jobs l s)) with (_getStarred s) in *. split; [|by intros [H _]]. intros H. split; [done|]. intros ->. done.
  - change (hs_sent (tell _ _)) with (hs_sent t). unfold t. change (_getStarred (with_jobs l s)) with (_getStarred s).
    case_bool_decide; [done|]. by rewrite app_nil_r.
Qed.

(** C16: A second question takes the deletion over. What is asked while the first
    question is still loading replaces what is pending, but the first answer to
    come shows its own dialog: confirming the removal of one run removes the
    other, and "Delete Non-Favorites" for the matching history, with a run asked
    about meanwhile, clears all of the history that is not starred. *)
Theorem later_question_takes_deletion_over s a b ca cb cx data :
  hs_confirm s = NoConfirm → Forall (λ e, fst e ≠ hs_next s) (hs_jobs s) → nonempty a = true → nonempty b = true →
  let ask_run id command := Ask true (js "delete") (VStr id) command (js "run") None in
  let shown events := match hs_confirm (run events s) with OurConfirm q => Some q | _ => None end in
  (let events := [ask_run a ca; ask_run b cb; Answered (hs_next s) Lost] in
   (∃ q, shown events = Some q ∧ ha_id (qu_asked q) = VStr a)
   ∧ deletions (run (events ++ [Chosen (Some (js "one")) false false]) s) = deletions s ++ [DeleteRun b false false])
  ∧ let p := _loadHistoryDeletePreview (Some data) in
    dc_filtered cx = true → neqb (pv_totalCount p) num_zero = false → nltb num_zero (pv_nonStarredCount p) = true →
    let events := [Ask true (js "clear") VNull None (js "run") (Some cx); ask_run b cb; Answered (hs_next s) (Reply true (Some data))] in
    (∃ q, shown events = Some q
          ∧ qu_text q = js "Delete " ++ _historyDeleteCountLabel to_locale (pv_totalCount p) ++ js " matching the current filters?")
    ∧ deletions (run (events ++ [Chosen (Some (js "nonfav")) false false]) s) = deletions s ++ [ClearHistory (js "/history") true].
Proof.
  intros Hc Hfresh Ha Hb. cbv zeta. split; [|intros Hf Hz Hn].
  - edestruct (two_questions s (Ask true (js "delete") (VStr a) ca (js "run") None) (GetCleanup a) (LoadingCleanup (run_asked a ca)) (run_asked a ca) b cb Lost
      (question_of to_locale (run_asked a ca) VNull None) (js "one") (DeleteRun b false false)) as [H1 H2]; [done..|by apply ask_run_step| | | |by left|].
    + intros t Ht. cbn [job_answer]. unfold show_or_uncaught, showDeleteConfirm. by rewrite Ht.
    + cbn [question_of qu_content]. destruct (run_delete _); [by vm_compute|done].
    + apply (list_elem_of_lookup_2 _ 1). by vm_compute.
    + split; [|exact H2]. rewrite H1. by eexists.
  - edestruct (two_questions s (Ask true (js "clear") VNull None (js "run") (Some cx)) (GetPreview (dc_previewUrl cx)) (LoadingPreview (bulk_asked cx) cx)
      (bulk_asked cx) b cb (Reply true (Some data))
      (question_of to_locale (bulk_asked cx) VNull (Some (_loadHistoryDeletePreview (Some data)))) (js "nonfav") (ClearHistory (js "/history") true)) as [H1 H2];
      [done..| | | |by right|].
    + intros t Ht. cbn [job_answer]. unfold preview_answer, showDeleteConfirm.
      assert (nullish (default (VObj []) (Some data)) = false) as -> by (by destruct data). by rewrite Hz, Ht.
    + done.
    + cbn [question_of qu_actions]. change (is_bulk (bulk_asked cx)) with true. cbv iota. rewrite Hn. apply (list_elem_of_lookup_2 _ 1). by vm_compute.
    + split; [|exact H2]. rewrite H1. eexists. split; [done|]. cbn [question_of qu_text]. unfold buildBody.
      change (is_bulk (bulk_asked cx)) with true. cbv iota.
      change (filtered_of (bulk_asked cx)) with (dc_filtered cx). by rewrite Hf.
Qed.
End Deleting.

(** ** Examples and witnesses *)

Definition demo_locale (n : num) : jsstr := to_string (VNum n).
Definition demo_recall : recall := Recall None false [js "dig a"; js "whois b"] [js "dig a"] (-1) [] false [] None.
Definition demo_history : hist_state := HistState None (Some [js "dig a"]) demo_recall NoConfirm [] 0 [] [] false.
Notation demo_run := (hist_run demo_locale (VObj [])).

Example cleanup_of_run :
  let cleanup := VObj [(js "entities", vint 2); (js "findings", vint 1); (js "has_cleanup", VBool true)] in
  cc_disposableLabel (atlasRunCleanupCopy demo_locale cleanup) = js "Also remove 1 finding and 2 entities from Atlas".
Proof. by vm_compute. Qed.

Lemma asked_item_deleted_witness :
  ∃ l, deletions (demo_run [Answered 0 Lost; Chosen (Some (js "one")) false false]
                    (hist_step demo_locale (VObj []) (Ask true (js "delete") (VStr (js "r1")) (Some (js "dig a")) (js "run") None) demo_history))
       = deletions demo_history ++ l ∧ (length l ≤ 1)%nat
       ∧ Forall (deletion_of (asked (js "delete") (VStr (js "r1")) (Some (js "dig a")) (js "run") None)) l ∧ (true = false → l = []).
Proof. apply asked_item_deleted; [by vm_compute|by left|by vm_compute]. Defined.

Lemma deleted_command_forgotten_witness :
  let s := send (DeleteRun (js "r1") false false) (DeletingItem (js "run") (Some (js "dig a"))) demo_history in
  let s' := hist_step demo_locale (VObj []) (Answered 0 (Reply true None)) s in
  (∀ x, x ∈ _getStarred s' ↔ x ∈ _getStarred s ∧ x ≠ js "dig a")
  ∧ (∀ x, x ∈ rc_history (hs_recall s') ↔ x ∈ rc_history (hs_recall s) ∧ x ≠ js "dig a")
  ∧ (∀ x, x ∈ rc_preview (hs_recall s') ↔ x ∈ rc_preview (hs_recall s) ∧ x ≠ js "dig a")
  ∧ hs_sent s' = hs_sent s ++ [DropStar (js "dig a")].
Proof.
  exact (deleted_command_forgotten demo_locale (VObj [])
           (send (DeleteRun (js "r1") false false) (DeletingItem (js "run") (Some (js "dig a"))) demo_history)
           0 [] (js "run") (js "dig a") (Reply true None) eq_refl).
Defined.

Lemma later_question_takes_deletion_over_witness :
  let ask_run id := Ask true (js "delete") (VStr (js id)) None (js "run") None in
  let cx := DeleteContext (js "/history?q=dig") (js "/history/delete-preview?q=dig") true in
  let data := VObj [(js "total_count", vint 2); (js "non_starred_count", vint 1)] in
  deletions (demo_run ([ask_run "r1"; ask_run "r2"; Answered 0 Lost] ++ [Chosen (Some (js "one")) false false]) demo_history)
  = deletions demo_history ++ [DeleteRun (js "r2") false false]
  ∧ deletions (demo_run ([Ask true (js "clear") VNull None (js "run") (Some cx); ask_run "r2"; Answered 0 (Reply true (Some data))]
                         ++ [Chosen (Some (js "nonfav")) false false]) demo_history)
    = deletions demo_history ++ [ClearHistory (js "/history") true].
Proof.
  set (cx := DeleteContext _ _ _). set (data := VObj _).
  destruct (later_question_takes_deletion_over demo_locale (VObj []) demo_history (js "r1") (js "r2") None None cx data
              eq_refl (Forall_nil_2 _) eq_refl eq_refl) as [[_ H1] H2].
  split; [exact H1|]. apply H2; by vm_compute.
Defined.
